(* ===== verification/_CoqProject ===== *)
-Q . S2P
Prelude.v
Kernel.v
Layout.v
Checksum.v
RangeTree.v
RangeTreeSpec.v
RangeTreeTheorems.v
FreeList.v
FreeListSpec.v
AllocSpec.v
Balloc.v
BallocSpec.v
BallocInit.v
CsumArea.v
BallocTheorems.v
Pmem.v
PmemSpec.v
Journal.v
JournalSpec.v
JournalCrash.v
JournalRecover.v
JournalTheorems.v
InodeLog.v
InodeLogSpec.v
InodeLogOps.v
InodeLogTheorems.v
InodeMap.v
InodeMapSpec.v
InodeMapTheorems.v
DataGuard.v
DataGuardSpec.v
DataGuardTheorems.v
Replica.v
ReplicaTheorems.v
InodeTable.v
InodeTableSpec.v
InodeTableTheorems.v
ScanBitmap.v
ScanBitmapSpec.v
Recovery.v
RecoverySpec.v
FileScanSpec.v
FileLogSpec.v
RecoveryNumbers.v
RebuildTheorems.v
ThreadSpec.v
MountRecovery.v
MountRecoverySpec.v
RecoveryTheorems.v
Delegation.v
DelegationSpec.v
AgentTasks.v
DelegationSteps.v
DelegationInv.v
DelegationStart.v
DelegationTheorems.v
FileIndex.v
FileIndexSpec.v
FileAssign.v
FileCharge.v
FileTruncate.v
FileIndexTheorems.v
Directory.v
DirectorySpec.v
DirectoryTheorems.v
Header.v
LogEntry.v
Rebuild.v
DirEntry.v
LogPath.v
LogEntrySpec.v
RebuildSpec.v
LogAppend.v
LogWrite.v
RebuildRun.v
LogTheorems.v
