(* ===== verification/Prelude.v ===== *)
(** * PARFS: a verification library for a persistent-memory file system

    PARFS is a log-structured file system for byte-addressable persistent
    memory, a descendant of NOVA that places metadata and data on several
    devices and hands large copies to threads of the socket the data lies in.
    This library models the parts every other part of it stands on and proves
    what makes them correct:

    - which blocks are free: balloc.c, balloc.h, the layout functions of
      nova.h and super.c;
    - which inode numbers are in use, and where an inode lies: inode.c, first
      half;
    - what a store, a flush and a fence make durable: nova_def.h;
    - how a few words change atomically: the lite journal, journal.c;
    - how the log of an inode grows and shrinks: log.c, second half;
    - which entry of the log holds a page of a file: log.c, inode.c, nova.h;
    - which dentry has a name, and how names enter the log of a directory: dir.c;
    - how an entry is appended to a log or updated in place: log.c, first half;
    - how the header of an inode is rebuilt from its log: rebuild.c;
    - how corruption is found and repaired: checksum.c, parity.c;
    - how a mount rebuilds all of this from the media: bbuild.c;
    - how copies are delegated: delegation.c, agent.c, ring.c.

    They interact as in the kernel module.  The block allocator and the inode
    numbers are clients of the range-node trees; the inode log and the inode
    tables are clients of the block allocator (they take and return metadata
    blocks) and of persistent memory (they link them); the journal is a client
    of persistent memory alone and of the checksum; the file index is a client
    of the allocator, directories are clients of the trees and of the inode
    tables; an append puts an entry in the inode log and enters it in the file
    index or the tree of names, a rebuild replays the log into fresh ones; the
    data guards and the replicas are clients of the checksum and of the allocator's checksum
    area; recovery reads the tables, the logs and the journals, and builds the
    allocator and the maps of inode numbers anew; delegation moves the bytes.

    ** Files, and the code they model

    - [Prelude]: machine integers ([u64], [u32], [s32], ...: a C integer is a
      [Z], wrapped where the code can leave the width), ranges ([covers],
      [sorted_from], [total]), list lemmas, the tactics and hint databases.
    - [Kernel]: the services of the Linux kernel as type classes with laws:
      red-black trees, slab allocator, CRC instructions, bit search, module
      parameters; [Kernel.Concrete] has an instance of each that satisfies the
      laws.
    - [Checksum]: [nova_crc32c] (nova.h).
    - [Layout]: block numbers, devices, [nova_config_*_nvmm] (nova.h, super.c).
    - [RangeTree], [RangeTreeSpec], [RangeTreeTheorems]: the trees of
      [struct nova_range_node] (balloc.c).  A tree ([rtree]) is its root and
      the slab objects it links; nodes are edited in place.
    - [FreeList], [FreeListSpec], [AllocSpec]: one [struct sub_free_list] and
      what [nova_free_blocks], [nova_alloc_blocks_in_free_list] and
      [nova_alloc_superpage] do to it under its lock.
    - [Balloc], [BallocSpec], [BallocInit], [CsumArea], [BallocTheorems]: the
      lists of all CPUs, mkfs, allocation with retry, freeing, the checksum
      area.
    - [InodeMap], [InodeMapSpec], [InodeMapTheorems]: the per-CPU maps of inode
      numbers ([struct inode_map]), mkfs, allocation, freeing.
    - [Pmem], [PmemSpec]: memory as 8-byte words with, for each, the values a
      crash may leave; [PM] is the monad of code that reads memory and
      performs stores, flushes and fences.
    - [Journal], [JournalSpec], [JournalRecover], [JournalCrash],
      [JournalTheorems]: transactions, commit, recovery (journal.c).
    - [InodeLog], [InodeLogSpec], [InodeLogOps], [InodeLogTheorems]: log pages,
      their links and their tails (log.c, log.h, nova.h); [LM] is [PM] with the
      lists of the allocator and the header of the inode.
    - [FileIndex], [FileIndexSpec], [FileAssign], [FileCharge],
      [FileTruncate], [FileIndexTheorems]: the radix tree of a file ([sih->tree]), the write
      entries in it and the runs of pages a write replaced
      ([sih->old_entry_list]): [nova_assign_write_entry] (log.c),
      [nova_delete_file_tree] (inode.c), lookup (nova.h).
    - [Directory], [DirectorySpec], [DirectoryTheorems]: the tree of names of
      a directory and its readers (dir.c).
    - [Header], [LogEntry]: the whole header of an inode with the allocator
      ([HM]), the kinds of log entries, appending, updating in place,
      publishing the tail (log.c, inode.h); [DirEntry]: the entries of a
      directory (dir.c); [LogPath], [LogEntrySpec], [LogAppend], [LogWrite]:
      the entries of a log as positions behind each other ([log_at]) and what
      an append does to them.
    - [Rebuild], [RebuildSpec], [RebuildRun], [LogTheorems]: the replay of a
      log into a header (rebuild.c), and that it gives the index back.
    - [DataGuard], [DataGuardSpec], [DataGuardTheorems]: checksums and parity
      of file data (checksum.c, parity.c).
    - [Replica], [ReplicaTheorems]: the two copies of an inode and of a log
      entry, and their repair (checksum.c).
    - [InodeTable], [InodeTableSpec], [InodeTableTheorems]: the tables of
      inodes, their superpages and their growth (inode.c).
    - [ScanBitmap], [ScanBitmapSpec], [RebuildTheorems]: the bitmaps of the
      recovery scan and the free lists built from them (bbuild.c).
    - [Recovery], [RecoverySpec], [FileScanSpec], [FileLogSpec],
      [RecoveryNumbers], [ThreadSpec]: the scan of the logs of an inode and
      the thread that scans the tables of a CPU (bbuild.c, snapshot.c).
    - [MountRecovery], [MountRecoverySpec], [RecoveryTheorems]: the crawl over
      the tables and the driver of the mount (bbuild.c).
    - [Delegation]: requests, rings, agents, application threads and the entry
      points of nova.h; [DelegationSpec] and [AgentTasks]: the bytes a call
      moves; [DelegationSteps], [DelegationInv], [DelegationStart],
      [DelegationTheorems]: the transition system and its invariant.

    A function that is one critical section of the source is one Rocq function
    on the state it protects; the locks themselves are not modelled.  [None]
    is an execution the C code has no meaning for ([BUG()], a NULL
    dereference, a division by zero, an index outside an array) or, in the
    functions that take [fuel], a loop cut short; the theorems show that it
    does not occur.

    ** What the theorems show

    - Trees ([RangeTreeTheorems]): search, insertion and destruction are
      correct for every shape of tree, and need only the in-order sequence.
    - Block allocator ([BallocTheorems]): with [free_block] the set of free
      blocks, mkfs makes exactly the right blocks free; allocation takes free
      blocks and nothing else, and says -ENOSPC only without a change; freeing
      is its inverse and refuses what must be refused; huge pages are aligned;
      the checksum area is disjoint from every free block and large enough.
      [list_wf] (sorted, disjoint, counted, first and last node) is invariant.
    - Inode numbers ([InodeMapTheorems]): allocation hands out the smallest
      unused number of the CPU; a history of calls on the trees is a history
      of an abstract allocator on one set of numbers ([spec_run]).
    - Persistent memory and journal ([JournalTheorems]): a flushed and fenced
      buffer is durable whatever its alignment; a crash at any point of a
      transaction, of the updates it protects or of its commit leaves, after
      recovery, all old or all new words; a corrupt journal is not replayed.
    - Inode log ([InodeLogTheorems]): pages are initialised and durable before
      they are linked, so a crash leaves the old or the extended log; the
      position for an entry fits its page; freeing returns exactly the pages
      of the log.
    - File index ([FileIndexTheorems]): after any interleaving of writes,
      truncations and other steps a page is read from the block its last write
      put it in; a write frees exactly the blocks the write before it had
      replaced; a truncation frees those it cuts, or records them for a
      snapshot, and charges them to [invalid_pages] of their entries, which
      never counts a page that is still held.  A truncation right after a write
      that replaced pages goes through a pointer that was never set
      ([truncate_unset_pointer]).
    - Log and index ([LogTheorems]): a file is [indexed] when its index is what
      its log says; appending a write keeps it so; what rebuilding the header
      from the log gives: the same index, but without the flag of the inode
      the last write is entered twice and its mapped pages are deferred.
    - Directories ([DirectoryTheorems]): for names of different hashes the
      tree is a map from names to dentries; what happens when two hashes are
      the same; what a reader lists.
    - Data guards ([DataGuardTheorems]): verification answers whether the
      stripes have their recorded checksums; parity restores a lost stripe;
      nothing but a stripe with a recorded checksum is written back.
    - Replicas ([ReplicaTheorems]): an inode or an entry with one good copy is
      handed out and its other copy repaired; with none it is refused.
    - Inode tables ([InodeTableTheorems]): the slot of a number lies in its
      superpage; a table grows by zeroed superpages, and a crash keeps every
      slot; a new inode is a fresh number with its slot.
    - Recovery ([RecoveryTheorems]): a scan marks exactly the blocks its inodes
      use, on logs that [readable] and [intact] describe (what the code does on
      the others is stated as well); the lists built from the bitmaps are free
      exactly elsewhere; over a whole device of such inodes, a block is free
      after the mount exactly when mkfs left it free and no live inode, table,
      journal or snapshot log uses it.
    - Delegation ([DelegationTheorems]): under every interleaving of threads
      and agents a thread that returned finds its bytes in place, and fair
      schedules bring every thread to its return.
    - Checksum: the quad-word loop is the byte-wise CRC.

    Each file of theorems ends with an instance of each theorem on a concrete
    state, computed by the definitions.

    ** Fuel and bounds

    The walks over a tree take as fuel at least the number of its nodes, the
    walks over the journal ring 128 (the entries of a page), the walks over a
    log the number of its pages or entries, the passes over the window of a
    file one more than the windows of its pages; the theorems state exactly
    that hypothesis.  Loops whose number of iterations the code computes run
    that many times.  Block numbers stay below 2^31 ([geometry]), as the [int]
    CPU index of balloc.c requires; counters wrap at their width.

    ** What is not modelled

    Concurrency between critical sections, except in [Delegation], whose steps
    interleave freely: elsewhere each section is one step, and a thread is
    assumed to stay on its CPU within one call.  The recovery threads run one
    after the other.  Write protection ([nova_memunlock_*]) does not change
    contents.  Saving and reloading the allocator at unmount and mount is
    switched off in the source and left out, as is the restoring of the
    snapshot table.  The ring buffer library of solros_lib is another
    project's code: delegation states what it needs of it as a class.  Left
    out as well: the collection of logs (gc.c), which nothing but a proc file
    calls; the data path (file.c, dax.c), the name operations (namei.c) and
    snapshots (snapshot.c), whose steps between the modelled operations are
    calls into the page cache, the page tables and the inode cache of the
    kernel, code that is not in the source.  The VFS glue, statistics and sysfs
    code have no logic of their own.  The theorems on the journal's
    transactions, the file index, appending, rebuilding and recovery take
    metadata checksums off, the default of the module; the definitions cover
    both settings. *)

From Stdlib Require Export ZArith Lia.
From stdpp Require Export base gmap strings option sorting.
From stdpp Require Export list.
#[global] Open Scope Z_scope.
#[global] Set Default Goal Selector "!".

(** ** Machine integers

    A C integer of width [w] is a [Z]; every operation that can leave the
    width is followed by its wrap-around.  The powers of two are written as
    literals, so that [lia] sees constants. *)

Abbreviation TWO64 := 18446744073709551616.
Abbreviation TWO63 := 9223372036854775808.
Abbreviation TWO32 := 4294967296.
Abbreviation TWO31 := 2147483648.

(** Conversion to [u64] / [unsigned long] / [size_t]. *)
Definition u64 (x : Z) : Z := x mod TWO64.
(** Conversion to [u32] / [unsigned int]. *)
Definition u32 (x : Z) : Z := x mod TWO32.
(** Conversion to [u8]. *)
Definition u8 (x : Z) : Z := x mod 256.
(** Conversion to [int] and to [long] (two's complement). *)
Definition s32 (x : Z) : Z := (x + TWO31) mod TWO32 - TWO31.
Definition s64 (x : Z) : Z := (x + TWO63) mod TWO64 - TWO63.

Definition is_u64 (x : Z) : Prop := 0 <= x < TWO64.
Definition is_u32 (x : Z) : Prop := 0 <= x < TWO32.

Lemma u64_small x : 0 <= x < TWO64 -> u64 x = x.
Proof. apply Z.mod_small. Qed.

Lemma u32_small x : 0 <= x < TWO32 -> u32 x = x.
Proof. apply Z.mod_small. Qed.

Lemma s32_small x : - TWO31 <= x < TWO31 -> s32 x = x.
Proof. intros. unfold s32. rewrite Z.mod_small; lia. Qed.

Lemma s64_small x : - TWO63 <= x < TWO63 -> s64 x = x.
Proof. intros. unfold s64. rewrite Z.mod_small; lia. Qed.

Lemma u64_range x : 0 <= u64 x < TWO64.
Proof. apply Z.mod_pos_bound. lia. Qed.

Lemma u32_range x : 0 <= u32 x < TWO32.
Proof. apply Z.mod_pos_bound. lia. Qed.

Lemma u64_neg x : - TWO64 <= x < 0 -> u64 x = x + TWO64.
Proof.
  intros. unfold u64. rewrite <- (Z.mod_small (x + TWO64) TWO64) by lia.
  by rewrite <- (Z_mod_plus_full x 1).
Qed.

Lemma u64_idem x : u64 (u64 x) = u64 x.
Proof. apply u64_small, u64_range. Qed.

(** [wrap] removes the conversions whose argument [lia] knows to be in range. *)
Ltac wrap :=
  repeat first
    [ rewrite u64_small by lia | rewrite u32_small by lia
    | rewrite s64_small by lia | rewrite s32_small by lia ].
Ltac wrap_in H :=
  repeat first
    [ rewrite u64_small in H by lia | rewrite u32_small in H by lia
    | rewrite s64_small in H by lia | rewrite s32_small in H by lia ].

(** Booleans of the C comparisons as propositions. *)
Ltac zbool :=
  repeat match goal with
  | H : (_ && _)%bool = true |- _ => apply andb_true_iff in H; destruct H
  | H : (_ || _)%bool = false |- _ => apply orb_false_iff in H; destruct H
  | H : negb _ = true |- _ => apply negb_true_iff in H
  | H : negb _ = false |- _ => apply negb_false_iff in H
  | H : Z.eqb _ _ = true |- _ => apply Z.eqb_eq in H
  | H : Z.eqb _ _ = false |- _ => apply Z.eqb_neq in H
  | H : Z.ltb _ _ = true |- _ => apply Z.ltb_lt in H
  | H : Z.ltb _ _ = false |- _ => apply Z.ltb_ge in H
  | H : Z.leb _ _ = true |- _ => apply Z.leb_le in H
  | H : Z.leb _ _ = false |- _ => apply Z.leb_gt in H
  end.

(** ** Error numbers ([linux/errno.h]) *)

Definition EIO : Z := 5.
Definition EAGAIN : Z := 11.
Definition ENOMEM : Z := 12.
Definition EEXIST : Z := 17.
Definition EINVAL : Z := 22.
Definition ENOSPC : Z := 28.

Definition PAGE_SHIFT : Z := 12.
Definition PAGE_SIZE : Z := 4096.

(** The page an address lies in, and its offset. *)
Lemma land_4095 x : Z.land x (PAGE_SIZE - 1) = x mod 4096.
Proof. change (PAGE_SIZE - 1) with (Z.ones 12). by rewrite Z.land_ones. Qed.

Lemma land_not_4095 x : Z.land x (Z.lnot (PAGE_SIZE - 1)) = x - x mod 4096.
Proof.
  change (PAGE_SIZE - 1) with (Z.ones 12).
  rewrite <- Z.ldiff_land, Z.ldiff_ones_r, Z.shiftl_mul_pow2, Z.shiftr_div_pow2 by lia.
  change (2 ^ 12) with 4096. pose proof (Z.div_mod x 4096). lia.
Qed.

(** ** Neighbours in a list

    [next_in p l] is the element after the first occurrence of [p] in [l],
    [prev_in p l] the element before it. *)

Section neighbours.
Context {A : Type} `{EqDecision A}.

Fixpoint next_in (p : A) (l : list A) : option A :=
  match l with
  | [] => None
  | x :: l' => if decide (x = p) then head l' else next_in p l'
  end.

Fixpoint prev_from (d : option A) (p : A) (l : list A) : option A :=
  match l with
  | [] => None
  | x :: l' => if decide (x = p) then d else prev_from (Some x) p l'
  end.

Definition prev_in (p : A) (l : list A) : option A := prev_from None p l.

Lemma next_in_mid p l1 l2 :
  p ∉ l1 -> next_in p (l1 ++ p :: l2) = head l2.
Proof.
  induction l1 as [|x l1 IH]; simpl; intros Hn.
  - rewrite decide_True; done.
  - apply not_elem_of_cons in Hn as [? ?].
    rewrite decide_False by congruence. auto.
Qed.

Lemma prev_from_mid d p l1 l2 :
  p ∉ l1 ->
  prev_from d p (l1 ++ p :: l2) = match last l1 with None => d | s => s end.
Proof.
  revert d. induction l1 as [|x l1 IH]; simpl; intros d Hn.
  - rewrite decide_True; done.
  - apply not_elem_of_cons in Hn as [? ?].
    rewrite decide_False by congruence. rewrite IH by done.
    destruct l1 as [|y l1]; [done|].
    change (last (x :: y :: l1)) with (last (y :: l1)).
    destruct (last (y :: l1)) eqn:E; [done|].
    apply last_None in E. discriminate.
Qed.

Lemma prev_in_mid p l1 l2 :
  p ∉ l1 -> prev_in p (l1 ++ p :: l2) = last l1.
Proof.
  intros. unfold prev_in. rewrite prev_from_mid by done. by destruct (last l1).
Qed.

(** In a duplicate-free list an element determines the two halves around
    it, so its neighbours can be read off any decomposition. *)
Lemma nodup_mid_notin p (l1 l2 : list A) :
  NoDup (l1 ++ p :: l2) -> p ∉ l1 /\ p ∉ l2.
Proof.
  intros H. apply NoDup_app in H as (_ & H1 & H2).
  apply NoDup_cons in H2 as [H2 _]. split; [|done].
  intros Hin. apply (H1 p Hin). set_solver.
Qed.
End neighbours.
