(* ===== verification/Kernel.v ===== *)
(** The kernel services the file system relies on, as interfaces.

    [RbOps]/[RbLaws] is [linux/rbtree.h], [KmemOps]/[KmemLaws] the slab
    allocator, [BitOps]/[BitLaws] the bitmap searches, [CrcOps]/[CrcLaws] the
    [crc32] instructions and the kernel's
    [crc32c()], [ModParams] the module parameters declared in super.c.  Each
    operation the source calls is a field; each law states documented behaviour
    of that operation.  The instances at the end are concrete functions that
    satisfy the laws; witnesses compute with them. *)

From S2P Require Import Prelude.

(** ** Nodes and trees *)

(** Identity (address) of a heap object. *)
Abbreviation ptr := positive.

(** A binary tree linked through [rb_left]/[rb_right]; the payload of a node is
    the address of the object that embeds the [struct rb_node]. *)
Inductive rbtree :=
  | RbLeaf
  | RbNode (l : rbtree) (p : ptr) (r : rbtree).

Fixpoint inorder (t : rbtree) : list ptr :=
  match t with
  | RbLeaf => []
  | RbNode l p r => inorder l ++ p :: inorder r
  end.

(** [rb_insert_color] rebalances after a node was linked, [rb_erase] unlinks
    and rebalances; the iterators follow the in-order sequence. *)
Class RbOps := {
  rb_insert_color : ptr -> rbtree -> rbtree;
  rb_erase : ptr -> rbtree -> rbtree;
  rb_first : rbtree -> option ptr;
  rb_next : ptr -> rbtree -> option ptr;
  rb_prev : ptr -> rbtree -> option ptr
}.

Class RbLaws `{RbOps} : Prop := {
  rb_insert_color_inorder p t : inorder (rb_insert_color p t) = inorder t;
  rb_erase_inorder p t l1 l2 :
    inorder t = l1 ++ p :: l2 -> NoDup (inorder t) ->
    inorder (rb_erase p t) = l1 ++ l2;
  rb_first_inorder t : rb_first t = head (inorder t);
  rb_next_inorder p t : rb_next p t = next_in p (inorder t);
  rb_prev_inorder p t : rb_prev p t = prev_in p (inorder t)
}.

(** ** The slab allocator: an address not in use, or failure *)
Class KmemOps := {
  kmem_cache_zalloc : gset ptr -> option ptr
}.

Class KmemLaws `{KmemOps} : Prop := {
  kmem_cache_zalloc_fresh used p : kmem_cache_zalloc used = Some p -> p ∉ used
}.

(** ** CRC instructions and the kernel's crc32c *)
Class CrcOps := {
  cpu_has_sse42 : bool;
  crc32q : Z -> Z -> Z;               (** accumulator, 64-bit operand *)
  crc32b : Z -> Z -> Z;               (** accumulator, byte operand *)
  crc32c : Z -> list Z -> Z           (** kernel routine *)
}.

(** Little-endian value of a list of bytes. *)
Fixpoint le_combine (bs : list Z) : Z :=
  match bs with
  | [] => 0
  | b :: bs' => b + 256 * le_combine bs'
  end.

Fixpoint le_bytes (n : nat) (x : Z) : list Z :=
  match n with
  | O => []
  | S n' => x mod 256 :: le_bytes n' (x / 256)
  end.

Lemma le_bytes_range n x : Forall (fun b => 0 <= b < 256) (le_bytes n x).
Proof.
  revert x. induction n as [|n IH]; intros x; simpl; constructor; [|apply IH].
  apply Z.mod_pos_bound. lia.
Qed.

Lemma length_le_bytes n x : length (le_bytes n x) = n.
Proof. revert x. induction n; simpl; auto. Qed.

Lemma le_combine_bytes n x :
  le_combine (le_bytes n x) = x mod 256 ^ Z.of_nat n.
Proof.
  revert x. induction n as [|n IH]; intros x.
  - simpl. by rewrite Z.mod_1_r.
  - simpl le_bytes. simpl le_combine. rewrite IH.
    rewrite Nat2Z.inj_succ, Z.pow_succ_r by lia.
    rewrite Z.rem_mul_r; lia.
Qed.

Class CrcLaws `{CrcOps} : Prop := {
  crc32q_bytes acc bs :
    length bs = 8%nat -> Forall (fun b => 0 <= b < 256) bs ->
    crc32q acc (le_combine bs) = fold_left crc32b bs acc;
  crc32b_range acc b : 0 <= crc32b acc b < TWO32;
  crc32c_bytes crc bs : crc32c crc bs = u32 (fold_left crc32b bs crc)
}.

(** ** Bitmaps ([linux/bitops.h]): a bitmap is the set of its set bits *)

(** The arguments are the bitmap, its size in bits and the bit to start from. *)
Class BitOps := {
  find_next_bit : gset Z -> Z -> Z -> Z;
  find_next_zero_bit : gset Z -> Z -> Z -> Z
}.

(** [r] is the first bit from [off] on that satisfies [P], or [size]. *)
Definition first_bit (P : Z -> Prop) (size off r : Z) : Prop :=
  if size <=? off then r = size
  else off <= r <= size /\ (forall x, off <= x < r -> ~ P x) /\ (r < size -> P r).

Class BitLaws `{BitOps} : Prop := {
  find_next_bit_first bm size off :
    first_bit (fun x => x ∈ bm) size off (find_next_bit bm size off);
  find_next_zero_bit_first bm size off :
    first_bit (fun x => x ∉ bm) size off (find_next_zero_bit bm size off)
}.

(** ** Module parameters (super.c) *)
Class ModParams := {
  metadata_csum : bool;
  data_csum : bool;
  data_parity : bool;
  dram_struct_csum : bool;
  support_clwb : bool
}.

(** ** Concrete instances *)

Module Concrete.
Fixpoint join (l r : rbtree) : rbtree :=
  match l with
  | RbLeaf => r
  | RbNode ll p lr => RbNode ll p (join lr r)
  end.

Fixpoint erase (p : ptr) (t : rbtree) : rbtree :=
  match t with
  | RbLeaf => RbLeaf
  | RbNode l q r =>
      if decide (q = p) then join l r
      else RbNode (erase p l) q (erase p r)
  end.

Lemma join_inorder l r : inorder (join l r) = inorder l ++ inorder r.
Proof.
  induction l as [|ll IHl p lr IHr]; simpl; [done|].
  by rewrite IHr, <- app_assoc.
Qed.

Lemma erase_notin p t : p ∉ inorder t -> inorder (erase p t) = inorder t.
Proof.
  induction t as [|l IHl q r IHr]; simpl; [done|].
  intros H. rewrite decide_False by set_solver. simpl.
  rewrite IHl, IHr by set_solver. done.
Qed.

Lemma nodup_split_unique (p : ptr) l1 l2 k1 k2 :
  NoDup (l1 ++ p :: l2) -> l1 ++ p :: l2 = k1 ++ p :: k2 -> l1 = k1 /\ l2 = k2.
Proof.
  revert k1. induction l1 as [|x l1 IH]; intros [|y k1] Hnd E; simplify_eq/=.
  - done.
  - apply NoDup_cons in Hnd as [? _]. set_solver.
  - apply NoDup_cons in Hnd as [? _]. set_solver.
  - apply NoDup_cons in Hnd as [_ Hnd].
    destruct (IH k1) as [-> ->]; auto.
Qed.

Lemma erase_inorder p t l1 l2 :
  inorder t = l1 ++ p :: l2 -> NoDup (inorder t) ->
  inorder (erase p t) = l1 ++ l2.
Proof.
  revert l1 l2. induction t as [|l IHl q r IHr]; simpl; intros l1 l2 E Hnd.
  { by destruct l1. }
  case_decide as Hq.
  { subst q. rewrite join_inorder.
    destruct (nodup_split_unique p (inorder l) (inorder r) l1 l2) as [-> ->]; auto. }
  simpl. assert (Hp : p ∈ inorder l ++ q :: inorder r) by (rewrite E; set_solver).
  apply elem_of_app in Hp as [Hp|Hp].
  - apply list_elem_of_split in Hp as (a & b & Hab). rewrite Hab in *.
    rewrite <- app_assoc in *. simpl in *.
    destruct (nodup_split_unique p a (b ++ q :: inorder r) l1 l2) as [<- <-]; auto.
    rewrite (IHl a b); auto.
    + rewrite erase_notin; [by rewrite <- app_assoc|].
      apply nodup_mid_notin in Hnd as [_ Hnd]. set_solver.
    + apply NoDup_app. apply NoDup_app in Hnd as (? & Hd & Hr).
      split; [done|]. split; [set_solver|].
      rewrite app_comm_cons in Hr. by apply NoDup_app in Hr as [? _].
  - assert (Hpr : p ∈ inorder r) by set_solver.
    apply list_elem_of_split in Hpr as (a & b & Hab). rewrite Hab in *.
    rewrite app_comm_cons, app_assoc in Hnd, E.
    destruct (nodup_split_unique p (inorder l ++ q :: a) b l1 l2) as [<- <-]; auto.
    rewrite (IHr a b); auto.
    + rewrite erase_notin; [by rewrite <- app_assoc|].
      apply nodup_mid_notin in Hnd as [Hnd _]. set_solver.
    + rewrite <- app_assoc in Hnd. apply NoDup_app in Hnd as (_ & _ & Hnd).
      simpl in Hnd. by apply NoDup_cons in Hnd as [_ ?].
Qed.

Definition fresh_ptr (used : gset ptr) : ptr :=
  Pos.succ (set_fold Pos.max 1%positive used).

#[export] Instance rb_ops : RbOps := {|
  rb_insert_color _ t := t;
  rb_erase := erase;
  rb_first t := head (inorder t);
  rb_next p t := next_in p (inorder t);
  rb_prev p t := prev_in p (inorder t)
|}.

#[export] Instance rb_laws : RbLaws.
Proof. split; try done. apply erase_inorder. Qed.

#[export] Instance kmem_ops : KmemOps := {|
  kmem_cache_zalloc used := Some (fresh_ptr used)
|}.

Lemma elements_max_le (l : list ptr) p d :
  p ∈ l -> (p <= foldr Pos.max d l)%positive.
Proof.
  induction l as [|x l IH]; simpl; intros Hp.
  - by apply not_elem_of_nil in Hp.
  - apply elem_of_cons in Hp as [->|Hp]; [lia|]. specialize (IH Hp). lia.
Qed.

#[export] Instance kmem_laws : KmemLaws.
Proof.
  split. intros used p [= <-] Hin.
  assert (Pos.le (fresh_ptr used) (set_fold Pos.max 1%positive used)).
  { apply elements_max_le. by apply elem_of_elements. }
  unfold fresh_ptr in *. lia.
Qed.

(** CRC-32C: one bit, then one byte, of the reflected polynomial. *)
Definition crc_bit (c : Z) : Z :=
  if Z.odd c then Z.lxor (Z.shiftr c 1) 0x82F63B78 else Z.shiftr c 1.
Definition crc_byte (acc b : Z) : Z :=
  u32 (Nat.iter 8 crc_bit (Z.lxor (u32 acc) b)).

#[export] Instance crc_ops : CrcOps := {|
  cpu_has_sse42 := true;
  crc32q acc q := fold_left crc_byte (le_bytes 8 q) acc;
  crc32b := crc_byte;
  crc32c crc bs := u32 (fold_left crc_byte bs crc)
|}.

Lemma le_bytes_combine bs :
  Forall (fun b => 0 <= b < 256) bs -> le_bytes (length bs) (le_combine bs) = bs.
Proof.
  induction 1 as [|b bs Hb _ IH]; simpl; [done|].
  rewrite (Z.mul_comm 256), Z.mod_add, Z.mod_small by lia.
  rewrite Z.div_add, Z.div_small by lia. by rewrite Z.add_0_l, IH.
Qed.

#[export] Instance crc_laws : CrcLaws.
Proof.
  split.
  - intros acc bs Hl Hb.
    pose proof (le_bytes_combine bs Hb) as E. rewrite Hl in E.
    change (crc32q acc (le_combine bs))
      with (fold_left crc_byte (le_bytes 8 (le_combine bs)) acc).
    by rewrite E.
  - intros. apply u32_range.
  - done.
Qed.

(** A bit at a time. *)
Fixpoint scan_from (P : Z -> bool) (n : nat) (off : Z) : Z :=
  match n with
  | O => off
  | S n' => if P off then off else scan_from P n' (off + 1)
  end.

Lemma scan_from_first P n off :
  off <= scan_from P n off <= off + Z.of_nat n
  /\ (forall x, off <= x < scan_from P n off -> P x = false)
  /\ (scan_from P n off < off + Z.of_nat n -> P (scan_from P n off) = true).
Proof.
  revert off. induction n as [|n IH]; intros off; cbn [scan_from]; [split_and!; intros; lia|].
  destruct (P off) eqn:E; [split_and!; intros; try lia; done|].
  destruct (IH (off + 1)) as (Hr & Hb & Ht). split_and!; [lia|lia| |].
  - intros x Hx. destruct (decide (x = off)) as [->|]; [done|]. apply Hb. lia.
  - intros Hlt. apply Ht. lia.
Qed.

#[export] Instance bit_ops : BitOps := {|
  find_next_bit bm size off :=
    if size <=? off then size
    else scan_from (fun x => bool_decide (x ∈ bm)) (Z.to_nat (size - off)) off;
  find_next_zero_bit bm size off :=
    if size <=? off then size
    else scan_from (fun x => bool_decide (x ∉ bm)) (Z.to_nat (size - off)) off
|}.

Lemma scan_first_bit (P : Z -> Prop) `{forall x, Decision (P x)} size off :
  first_bit P size off
    (if size <=? off then size
     else scan_from (fun x => bool_decide (P x)) (Z.to_nat (size - off)) off).
Proof.
  unfold first_bit. destruct (Z.leb_spec size off) as [|Hlt]; [done|].
  destruct (scan_from_first (fun x => bool_decide (P x)) (Z.to_nat (size - off)) off)
    as (Hr & Hb & Ht). split_and!; [lia|lia| |].
  - intros x Hx. specialize (Hb x Hx). cbv beta in Hb. by apply bool_decide_eq_false in Hb.
  - intros Hl. apply (bool_decide_eq_true_1 (P _)), Ht. lia.
Qed.

#[export] Instance bit_laws : BitLaws.
Proof. split; intros bm size off; apply (scan_first_bit _ size off). Qed.

(** All protections off: the default of every module parameter. *)
Definition params : ModParams := {|
  metadata_csum := false; data_csum := false; data_parity := false;
  dram_struct_csum := false; support_clwb := true
|}.
End Concrete.
