(* ===== verification/Layout.v ===== *)
(** Where blocks live (nova.h, super.c): the translation of a block number to
    a page of one of the persistent-memory devices, and the configurations
    mount chooses from.

    [nova_sb_info] holds the fields of [struct nova_sb_info] that the layout
    and the allocator read.  [block_info] is the array of
    [(start_block, end_block)]; an index outside it reads [(0, 0)], the value
    [kzalloc] leaves in an entry that was never set. *)

From S2P Require Import Prelude.

Record nova_sb_info := NovaSbInfo {
  meta_start_virt : Z;
  data_start_virt : Z;
  phys_addr : Z;
  replica_reserved_inodes_addr : Z;
  replica_sb_addr : Z;
  data_num_blocks : Z;
  meta_num_blocks : Z;
  initsize : Z;
  blocksize_bits : Z;
  head_reserved_blocks : Z;
  tail_reserved_blocks : Z;
  cpus : Z;
  meta_head_nvm_idx : Z;
  data_head_nvm_idx : Z;
  meta_nvm_num : Z;
  data_nvm_num : Z;
  block_info : list (Z * Z);
  per_data_list_blocks : Z;
  per_meta_list_blocks : Z
}.

(** Field assignment. *)
Definition set_meta_start_virt (v : Z) (sbi : nova_sb_info) : nova_sb_info :=
  NovaSbInfo v (data_start_virt sbi) (phys_addr sbi) (replica_reserved_inodes_addr sbi)
    (replica_sb_addr sbi) (data_num_blocks sbi) (meta_num_blocks sbi) (initsize sbi)
    (blocksize_bits sbi) (head_reserved_blocks sbi) (tail_reserved_blocks sbi)
    (cpus sbi) (meta_head_nvm_idx sbi) (data_head_nvm_idx sbi) (meta_nvm_num sbi)
    (data_nvm_num sbi) (block_info sbi) (per_data_list_blocks sbi)
    (per_meta_list_blocks sbi).
Definition set_data_start_virt (v : Z) (sbi : nova_sb_info) : nova_sb_info :=
  NovaSbInfo (meta_start_virt sbi) v (phys_addr sbi) (replica_reserved_inodes_addr sbi)
    (replica_sb_addr sbi) (data_num_blocks sbi) (meta_num_blocks sbi) (initsize sbi)
    (blocksize_bits sbi) (head_reserved_blocks sbi) (tail_reserved_blocks sbi)
    (cpus sbi) (meta_head_nvm_idx sbi) (data_head_nvm_idx sbi) (meta_nvm_num sbi)
    (data_nvm_num sbi) (block_info sbi) (per_data_list_blocks sbi)
    (per_meta_list_blocks sbi).
Definition set_phys_addr (v : Z) (sbi : nova_sb_info) : nova_sb_info :=
  NovaSbInfo (meta_start_virt sbi) (data_start_virt sbi) v
    (replica_reserved_inodes_addr sbi) (replica_sb_addr sbi) (data_num_blocks sbi)
    (meta_num_blocks sbi) (initsize sbi) (blocksize_bits sbi) (head_reserved_blocks sbi)
    (tail_reserved_blocks sbi) (cpus sbi) (meta_head_nvm_idx sbi)
    (data_head_nvm_idx sbi) (meta_nvm_num sbi) (data_nvm_num sbi) (block_info sbi)
    (per_data_list_blocks sbi) (per_meta_list_blocks sbi).
Definition set_replica_reserved_inodes_addr (v : Z) (sbi : nova_sb_info) : nova_sb_info :=
  NovaSbInfo (meta_start_virt sbi) (data_start_virt sbi) (phys_addr sbi) v
    (replica_sb_addr sbi) (data_num_blocks sbi) (meta_num_blocks sbi) (initsize sbi)
    (blocksize_bits sbi) (head_reserved_blocks sbi) (tail_reserved_blocks sbi)
    (cpus sbi) (meta_head_nvm_idx sbi) (data_head_nvm_idx sbi) (meta_nvm_num sbi)
    (data_nvm_num sbi) (block_info sbi) (per_data_list_blocks sbi)
    (per_meta_list_blocks sbi).
Definition set_replica_sb_addr (v : Z) (sbi : nova_sb_info) : nova_sb_info :=
  NovaSbInfo (meta_start_virt sbi) (data_start_virt sbi) (phys_addr sbi)
    (replica_reserved_inodes_addr sbi) v (data_num_blocks sbi) (meta_num_blocks sbi)
    (initsize sbi) (blocksize_bits sbi) (head_reserved_blocks sbi)
    (tail_reserved_blocks sbi) (cpus sbi) (meta_head_nvm_idx sbi)
    (data_head_nvm_idx sbi) (meta_nvm_num sbi) (data_nvm_num sbi) (block_info sbi)
    (per_data_list_blocks sbi) (per_meta_list_blocks sbi).
Definition set_data_num_blocks (v : Z) (sbi : nova_sb_info) : nova_sb_info :=
  NovaSbInfo (meta_start_virt sbi) (data_start_virt sbi) (phys_addr sbi)
    (replica_reserved_inodes_addr sbi) (replica_sb_addr sbi) v (meta_num_blocks sbi)
    (initsize sbi) (blocksize_bits sbi) (head_reserved_blocks sbi)
    (tail_reserved_blocks sbi) (cpus sbi) (meta_head_nvm_idx sbi)
    (data_head_nvm_idx sbi) (meta_nvm_num sbi) (data_nvm_num sbi) (block_info sbi)
    (per_data_list_blocks sbi) (per_meta_list_blocks sbi).
Definition set_meta_num_blocks (v : Z) (sbi : nova_sb_info) : nova_sb_info :=
  NovaSbInfo (meta_start_virt sbi) (data_start_virt sbi) (phys_addr sbi)
    (replica_reserved_inodes_addr sbi) (replica_sb_addr sbi) (data_num_blocks sbi) v
    (initsize sbi) (blocksize_bits sbi) (head_reserved_blocks sbi)
    (tail_reserved_blocks sbi) (cpus sbi) (meta_head_nvm_idx sbi)
    (data_head_nvm_idx sbi) (meta_nvm_num sbi) (data_nvm_num sbi) (block_info sbi)
    (per_data_list_blocks sbi) (per_meta_list_blocks sbi).
Definition set_initsize (v : Z) (sbi : nova_sb_info) : nova_sb_info :=
  NovaSbInfo (meta_start_virt sbi) (data_start_virt sbi) (phys_addr sbi)
    (replica_reserved_inodes_addr sbi) (replica_sb_addr sbi) (data_num_blocks sbi)
    (meta_num_blocks sbi) v (blocksize_bits sbi) (head_reserved_blocks sbi)
    (tail_reserved_blocks sbi) (cpus sbi) (meta_head_nvm_idx sbi)
    (data_head_nvm_idx sbi) (meta_nvm_num sbi) (data_nvm_num sbi) (block_info sbi)
    (per_data_list_blocks sbi) (per_meta_list_blocks sbi).
Definition set_blocksize_bits (v : Z) (sbi : nova_sb_info) : nova_sb_info :=
  NovaSbInfo (meta_start_virt sbi) (data_start_virt sbi) (phys_addr sbi)
    (replica_reserved_inodes_addr sbi) (replica_sb_addr sbi) (data_num_blocks sbi)
    (meta_num_blocks sbi) (initsize sbi) v (head_reserved_blocks sbi)
    (tail_reserved_blocks sbi) (cpus sbi) (meta_head_nvm_idx sbi)
    (data_head_nvm_idx sbi) (meta_nvm_num sbi) (data_nvm_num sbi) (block_info sbi)
    (per_data_list_blocks sbi) (per_meta_list_blocks sbi).
Definition set_head_reserved_blocks (v : Z) (sbi : nova_sb_info) : nova_sb_info :=
  NovaSbInfo (meta_start_virt sbi) (data_start_virt sbi) (phys_addr sbi)
    (replica_reserved_inodes_addr sbi) (replica_sb_addr sbi) (data_num_blocks sbi)
    (meta_num_blocks sbi) (initsize sbi) (blocksize_bits sbi) v
    (tail_reserved_blocks sbi) (cpus sbi) (meta_head_nvm_idx sbi)
    (data_head_nvm_idx sbi) (meta_nvm_num sbi) (data_nvm_num sbi) (block_info sbi)
    (per_data_list_blocks sbi) (per_meta_list_blocks sbi).
Definition set_tail_reserved_blocks (v : Z) (sbi : nova_sb_info) : nova_sb_info :=
  NovaSbInfo (meta_start_virt sbi) (data_start_virt sbi) (phys_addr sbi)
    (replica_reserved_inodes_addr sbi) (replica_sb_addr sbi) (data_num_blocks sbi)
    (meta_num_blocks sbi) (initsize sbi) (blocksize_bits sbi) (head_reserved_blocks sbi)
    v (cpus sbi) (meta_head_nvm_idx sbi) (data_head_nvm_idx sbi) (meta_nvm_num sbi)
    (data_nvm_num sbi) (block_info sbi) (per_data_list_blocks sbi)
    (per_meta_list_blocks sbi).
Definition set_cpus (v : Z) (sbi : nova_sb_info) : nova_sb_info :=
  NovaSbInfo (meta_start_virt sbi) (data_start_virt sbi) (phys_addr sbi)
    (replica_reserved_inodes_addr sbi) (replica_sb_addr sbi) (data_num_blocks sbi)
    (meta_num_blocks sbi) (initsize sbi) (blocksize_bits sbi) (head_reserved_blocks sbi)
    (tail_reserved_blocks sbi) v (meta_head_nvm_idx sbi) (data_head_nvm_idx sbi)
    (meta_nvm_num sbi) (data_nvm_num sbi) (block_info sbi) (per_data_list_blocks sbi)
    (per_meta_list_blocks sbi).
Definition set_meta_head_nvm_idx (v : Z) (sbi : nova_sb_info) : nova_sb_info :=
  NovaSbInfo (meta_start_virt sbi) (data_start_virt sbi) (phys_addr sbi)
    (replica_reserved_inodes_addr sbi) (replica_sb_addr sbi) (data_num_blocks sbi)
    (meta_num_blocks sbi) (initsize sbi) (blocksize_bits sbi) (head_reserved_blocks sbi)
    (tail_reserved_blocks sbi) (cpus sbi) v (data_head_nvm_idx sbi) (meta_nvm_num sbi)
    (data_nvm_num sbi) (block_info sbi) (per_data_list_blocks sbi)
    (per_meta_list_blocks sbi).
Definition set_data_head_nvm_idx (v : Z) (sbi : nova_sb_info) : nova_sb_info :=
  NovaSbInfo (meta_start_virt sbi) (data_start_virt sbi) (phys_addr sbi)
    (replica_reserved_inodes_addr sbi) (replica_sb_addr sbi) (data_num_blocks sbi)
    (meta_num_blocks sbi) (initsize sbi) (blocksize_bits sbi) (head_reserved_blocks sbi)
    (tail_reserved_blocks sbi) (cpus sbi) (meta_head_nvm_idx sbi) v (meta_nvm_num sbi)
    (data_nvm_num sbi) (block_info sbi) (per_data_list_blocks sbi)
    (per_meta_list_blocks sbi).
Definition set_meta_nvm_num (v : Z) (sbi : nova_sb_info) : nova_sb_info :=
  NovaSbInfo (meta_start_virt sbi) (data_start_virt sbi) (phys_addr sbi)
    (replica_reserved_inodes_addr sbi) (replica_sb_addr sbi) (data_num_blocks sbi)
    (meta_num_blocks sbi) (initsize sbi) (blocksize_bits sbi) (head_reserved_blocks sbi)
    (tail_reserved_blocks sbi) (cpus sbi) (meta_head_nvm_idx sbi)
    (data_head_nvm_idx sbi) v (data_nvm_num sbi) (block_info sbi)
    (per_data_list_blocks sbi) (per_meta_list_blocks sbi).
Definition set_data_nvm_num (v : Z) (sbi : nova_sb_info) : nova_sb_info :=
  NovaSbInfo (meta_start_virt sbi) (data_start_virt sbi) (phys_addr sbi)
    (replica_reserved_inodes_addr sbi) (replica_sb_addr sbi) (data_num_blocks sbi)
    (meta_num_blocks sbi) (initsize sbi) (blocksize_bits sbi) (head_reserved_blocks sbi)
    (tail_reserved_blocks sbi) (cpus sbi) (meta_head_nvm_idx sbi)
    (data_head_nvm_idx sbi) (meta_nvm_num sbi) v (block_info sbi)
    (per_data_list_blocks sbi) (per_meta_list_blocks sbi).
Definition set_block_info (v : list (Z * Z)) (sbi : nova_sb_info) : nova_sb_info :=
  NovaSbInfo (meta_start_virt sbi) (data_start_virt sbi) (phys_addr sbi)
    (replica_reserved_inodes_addr sbi) (replica_sb_addr sbi) (data_num_blocks sbi)
    (meta_num_blocks sbi) (initsize sbi) (blocksize_bits sbi) (head_reserved_blocks sbi)
    (tail_reserved_blocks sbi) (cpus sbi) (meta_head_nvm_idx sbi)
    (data_head_nvm_idx sbi) (meta_nvm_num sbi) (data_nvm_num sbi) v
    (per_data_list_blocks sbi) (per_meta_list_blocks sbi).
Definition set_per_data_list_blocks (v : Z) (sbi : nova_sb_info) : nova_sb_info :=
  NovaSbInfo (meta_start_virt sbi) (data_start_virt sbi) (phys_addr sbi)
    (replica_reserved_inodes_addr sbi) (replica_sb_addr sbi) (data_num_blocks sbi)
    (meta_num_blocks sbi) (initsize sbi) (blocksize_bits sbi) (head_reserved_blocks sbi)
    (tail_reserved_blocks sbi) (cpus sbi) (meta_head_nvm_idx sbi)
    (data_head_nvm_idx sbi) (meta_nvm_num sbi) (data_nvm_num sbi) (block_info sbi) v
    (per_meta_list_blocks sbi).
Definition set_per_meta_list_blocks (v : Z) (sbi : nova_sb_info) : nova_sb_info :=
  NovaSbInfo (meta_start_virt sbi) (data_start_virt sbi) (phys_addr sbi)
    (replica_reserved_inodes_addr sbi) (replica_sb_addr sbi) (data_num_blocks sbi)
    (meta_num_blocks sbi) (initsize sbi) (blocksize_bits sbi) (head_reserved_blocks sbi)
    (tail_reserved_blocks sbi) (cpus sbi) (meta_head_nvm_idx sbi)
    (data_head_nvm_idx sbi) (meta_nvm_num sbi) (data_nvm_num sbi) (block_info sbi)
    (per_data_list_blocks sbi) v.

Definition NOVA_BLOCK_TYPE_4K : Z := 0.
Definition NOVA_BLOCK_TYPE_32K : Z := 1.
Definition NOVA_BLOCK_TYPE_2M : Z := 2.
Definition NOVA_BLOCK_TYPE_1G : Z := 3.

Definition nova_get_numblocks (btype : Z) : Z :=
  if btype =? NOVA_BLOCK_TYPE_4K then 1
  else if btype =? NOVA_BLOCK_TYPE_32K then 8
  else if btype =? NOVA_BLOCK_TYPE_2M then 512
  else 0x40000.

Definition nova_blknr_to_blkidx (blknr btype : Z) : Z :=
  blknr / nova_get_numblocks btype.

Definition nova_blknr_to_nvmidx (sbi : nova_sb_info) (blknr btype : Z) (meta : bool) : Z :=
  if meta then
    s32 (nova_blknr_to_blkidx blknr btype mod meta_nvm_num sbi + meta_head_nvm_idx sbi)
  else
    s32 (nova_blknr_to_blkidx blknr btype mod data_nvm_num sbi + data_head_nvm_idx sbi).

Definition nova_block_to_cpu (sbi : nova_sb_info) (blocknr : Z) (meta : bool) : Z :=
  if meta then s32 (blocknr / per_meta_list_blocks sbi)
  else s32 (blocknr / per_data_list_blocks sbi).

Definition nova_block_to_nvmoff (sbi : nova_sb_info) (blocknr btype : Z) (meta : bool) : Z :=
  let blkidx := nova_blknr_to_blkidx blocknr btype in
  let off := if meta then blkidx / meta_nvm_num sbi else blkidx / data_nvm_num sbi in
  let off := u64 (off * nova_get_numblocks btype) in
  u64 (off + blocknr mod nova_get_numblocks btype).

Definition block_info_at (sbi : nova_sb_info) (i : Z) : Z * Z :=
  default (0, 0) (block_info sbi !! Z.to_nat i).

Definition nova_get_block_off (sbi : nova_sb_info) (blocknr btype : Z) (meta : bool) : Z :=
  let nvmidx := nova_blknr_to_nvmidx sbi blocknr btype meta in
  let nvmoff := nova_block_to_nvmoff sbi blocknr btype meta in
  u64 (Z.shiftl ((block_info_at sbi nvmidx).1 + nvmoff) PAGE_SHIFT).

Definition nova_get_virt_addr_from_offset (sbi : nova_sb_info) (off : Z) (meta : bool) : Z :=
  if meta then u64 (meta_start_virt sbi + off) else u64 (data_start_virt sbi + off).

Definition nova_get_addr_off (sbi : nova_sb_info) (addr : Z) (meta : bool) : Z :=
  if meta then u64 (addr - meta_start_virt sbi) else u64 (addr - data_start_virt sbi).

Definition nova_get_blocknr (block : Z) : Z := Z.shiftr block PAGE_SHIFT.

(** ** The configurations (super.c) *)

(** [struct pmem_ar_dev]: the devices of the array. *)
Record pmem_ar_dev := PmemArDev {
  virt_addr : list Z;
  phy_addr : list Z;
  size_in_bytes : list Z
}.
Definition elem_num (dev : pmem_ar_dev) : Z := Z.of_nat (length (virt_addr dev)).
Definition at_dev (l : list Z) (i : nat) : Z := default 0 (l !! i).

(** The stores every configuration makes for the metadata region. *)
Definition config_meta (sbi : nova_sb_info) (start meta_size : Z) : nova_sb_info :=
  let sbi := set_meta_start_virt start sbi in
  let sbi := set_replica_reserved_inodes_addr
    (u64 (start + meta_size - u64 (Z.shiftl (tail_reserved_blocks sbi) PAGE_SHIFT))) sbi in
  let sbi := set_replica_sb_addr (u64 (start + meta_size - PAGE_SIZE)) sbi in
  let sbi := set_meta_num_blocks (Z.shiftr meta_size PAGE_SHIFT) sbi in
  let sbi := set_meta_head_nvm_idx 0 sbi in
  set_meta_nvm_num 1 sbi.

Definition config_data (sbi : nova_sb_info) (start phys data_size head num : Z) : nova_sb_info :=
  let sbi := set_data_start_virt start sbi in
  let sbi := set_phys_addr phys sbi in
  let sbi := set_data_num_blocks (Z.shiftr data_size PAGE_SHIFT) sbi in
  let sbi := set_data_head_nvm_idx head sbi in
  set_data_nvm_num num sbi.

(** [sbi->block_info[i] = ...]. *)
Definition set_block_info_at (i : nat) (v : Z * Z) (sbi : nova_sb_info) : nova_sb_info :=
  set_block_info (<[i := v]> (block_info sbi)) sbi.

(** One device: metadata first, data behind it.  [roundup_pow_of_two] is the
    kernel's. *)
Definition nova_config_1_nvmm (roundup_pow_of_two : Z -> Z) (dev : pmem_ar_dev)
    (sbi : nova_sb_info) : nova_sb_info :=
  let size := at_dev (size_in_bytes dev) 0 in
  let meta_size := roundup_pow_of_two (size / 3) in
  let sbi := config_meta sbi (at_dev (virt_addr dev) 0) meta_size in
  let data_size := u64 (size - meta_size) in
  let sbi := config_data sbi (u64 (meta_start_virt sbi + meta_size))
               (u64 (at_dev (phy_addr dev) 0 + meta_size)) data_size 0 1 in
  let sbi := set_initsize (u64 (meta_size + data_size)) sbi in
  set_block_info_at 0 (0, u64 (Z.shiftr (initsize sbi) PAGE_SHIFT - 1)) sbi.

Definition nova_config_2_nvmm_meta_data_sep (dev : pmem_ar_dev)
    (sbi : nova_sb_info) : nova_sb_info :=
  let meta_size := at_dev (size_in_bytes dev) 0 in
  let sbi := config_meta sbi (at_dev (virt_addr dev) 0) meta_size in
  let data_size := at_dev (size_in_bytes dev) 1 in
  let sbi := config_data sbi (at_dev (virt_addr dev) 1) (at_dev (phy_addr dev) 1)
               data_size 1 1 in
  let sbi := set_initsize (u64 (meta_size + data_size)) sbi in
  let sbi := set_block_info_at 0 (0, u64 (meta_num_blocks sbi - 1)) sbi in
  set_block_info_at 1 (0, u64 (0 + data_num_blocks sbi - 1)) sbi.

(** Two devices: metadata on half of the first, data striped over the rest of
    the first and the second. *)
Definition nova_config_2_nvmm (dev : pmem_ar_dev) (sbi : nova_sb_info) : nova_sb_info :=
  let meta_size := at_dev (size_in_bytes dev) 0 / 2 in
  let sbi := config_meta sbi (at_dev (virt_addr dev) 0) meta_size in
  let data_size := at_dev (size_in_bytes dev) 0 in
  let sbi := config_data sbi (u64 (meta_start_virt sbi + meta_size))
               (u64 (at_dev (phy_addr dev) 0 + meta_size)) data_size 0 2 in
  let sbi := set_initsize (u64 (meta_size + data_size)) sbi in
  let sbi := set_block_info_at 0 (0, u64 (meta_num_blocks sbi - 1)) sbi in
  let start := Z.shiftr (u64 (at_dev (virt_addr dev) 1 - data_start_virt sbi)) PAGE_SHIFT in
  set_block_info_at 1 (start, u64 (start + data_num_blocks sbi - 1)) sbi.

(** The loop that sums the data sizes and finds the lowest data device. *)
Fixpoint config_3_scan (dev : pmem_ar_dev) (devs : list nat)
    (acc : Z * nova_sb_info) : Z * nova_sb_info :=
  match devs with
  | [] => acc
  | i :: devs' =>
      let '(data_size, sbi) := acc in
      let data_size := u64 (data_size + at_dev (size_in_bytes dev) i) in
      let sbi :=
        if (at_dev (virt_addr dev) i <? data_start_virt sbi) || (data_start_virt sbi =? 0)
        then set_data_head_nvm_idx (Z.of_nat i)
               (set_phys_addr (at_dev (phy_addr dev) i)
                  (set_data_start_virt (at_dev (virt_addr dev) i) sbi))
        else sbi in
      config_3_scan dev devs' (data_size, sbi)
  end.

(** The loop that fills [block_info] for the data devices. *)
Fixpoint config_3_info (dev : pmem_ar_dev) (devs : list nat) (sbi : nova_sb_info)
    : nova_sb_info :=
  match devs with
  | [] => sbi
  | i :: devs' =>
      let start := Z.shiftr (u64 (at_dev (virt_addr dev) i - data_start_virt sbi)) PAGE_SHIFT in
      let stop := u64 (start + Z.shiftr (at_dev (size_in_bytes dev) i) PAGE_SHIFT - 1) in
      config_3_info dev devs' (set_block_info_at i (start, stop) sbi)
  end.

Definition nova_config_3_nvmm (dev : pmem_ar_dev) (sbi : nova_sb_info) : nova_sb_info :=
  let devs := seq 1 (length (virt_addr dev) - 1) in
  let meta_size := at_dev (size_in_bytes dev) 0 in
  let sbi := config_meta sbi (at_dev (virt_addr dev) 0) meta_size in
  let '(data_size, sbi) := config_3_scan dev devs (0, sbi) in
  let sbi := set_data_num_blocks (Z.shiftr data_size PAGE_SHIFT) sbi in
  let sbi := set_data_nvm_num (s32 (elem_num dev - 1)) sbi in
  let sbi := set_initsize (u64 (meta_size + data_size)) sbi in
  let sbi := set_block_info_at 0 (0, u64 (meta_num_blocks sbi - 1)) sbi in
  config_3_info dev devs sbi.

(** [kzalloc(sizeof(struct nova_sb_info))]; [PMEM_AR_MAX_DEVICE] is 8. *)
Definition zero_sb_info : nova_sb_info :=
  NovaSbInfo 0 0 0 0 0 0 0 0 0 0 0 0 0 0 0 0 (replicate 8 (0, 0)) 0 0.
