(* ===== verification/Checksum.v ===== *)
(** Checksums: [nova_crc32c] (nova.h), the routine every checksum of the file
    system goes through, and its equivalence with the byte-at-a-time CRC. *)

From S2P Require Import Prelude.
From S2P Require Import Kernel.

Section crc.
Context `{CrcOps}.

(** The [while (len > 8)] loop on quad words, then the byte loop. *)
Fixpoint nova_crc32c_loop (acc : Z) (data : list Z) : Z :=
  match data with
  | b0 :: b1 :: b2 :: b3 :: b4 :: b5 :: b6 :: b7 :: ((_ :: _) as tl) =>
      let quad := [b0; b1; b2; b3; b4; b5; b6; b7] in
      nova_crc32c_loop (crc32q acc (le_combine quad)) tl
  | _ => fold_left crc32b data acc
  end.

Definition nova_crc32c (crc : Z) (data : list Z) : Z :=
  if cpu_has_sse42 then u32 (nova_crc32c_loop crc data)
  else crc32c crc data.

Context `{!CrcLaws}.

Lemma nova_crc32c_loop_quad acc b0 b1 b2 b3 b4 b5 b6 b7 b8 rest :
  nova_crc32c_loop acc (b0 :: b1 :: b2 :: b3 :: b4 :: b5 :: b6 :: b7 :: b8 :: rest)
  = nova_crc32c_loop (crc32q acc (le_combine [b0; b1; b2; b3; b4; b5; b6; b7]))
      (b8 :: rest).
Proof. reflexivity. Qed.

Lemma nova_crc32c_loop_bytes data acc :
  Forall (fun b => 0 <= b < 256) data ->
  nova_crc32c_loop acc data = fold_left crc32b data acc.
Proof.
  remember (length data) as n eqn:Hn. revert data acc Hn.
  induction n as [n IH] using lt_wf_ind. intros data acc -> Hb.
  do 8 (destruct data as [|? data]; [reflexivity|]).
  destruct data as [|b8 rest]; [reflexivity|]. rewrite nova_crc32c_loop_quad.
  rewrite (IH (length (b8 :: rest))); [| simpl; lia | done | ].
  - rewrite crc32q_bytes; [done..|].
    do 8 (apply Forall_cons in Hb as [? Hb]).
    repeat (apply Forall_cons_2; [assumption|]). apply Forall_nil_2.
  - by do 8 (apply Forall_cons in Hb as [_ Hb]).
Qed.

Lemma nova_crc32c_spec crc data :
  Forall (fun b => 0 <= b < 256) data ->
  nova_crc32c crc data = u32 (fold_left crc32b data crc).
Proof.
  intros Hb. unfold nova_crc32c. destruct cpu_has_sse42.
  - by rewrite nova_crc32c_loop_bytes.
  - apply crc32c_bytes.
Qed.

Lemma nova_crc32c_range crc data :
  Forall (fun b => 0 <= b < 256) data -> is_u32 (nova_crc32c crc data).
Proof. intros. rewrite nova_crc32c_spec by done. apply u32_range. Qed.
End crc.

(** C11. The quad-word loop of [nova_crc32c] computes, for every buffer
    and on both branches (SSE4.2 instructions or kernel routine), the CRC
    obtained by feeding the bytes one at a time. *)
Theorem nova_crc32c_bytewise `{CrcLaws} crc data :
  Forall (fun b => 0 <= b < 256) data ->
  nova_crc32c crc data = u32 (fold_left crc32b data crc).
Proof. apply nova_crc32c_spec. Qed.

#[local] Existing Instances Concrete.crc_ops Concrete.crc_laws.

Lemma nova_crc32c_bytewise_witness :
  nova_crc32c 0xFFFFFFFF
    [49; 50; 51; 52; 53; 54; 55; 56; 57]
  = u32 (fold_left crc32b [49; 50; 51; 52; 53; 54; 55; 56; 57] 0xFFFFFFFF).
Proof.
  apply nova_crc32c_bytewise. rewrite !Forall_cons; split_and!; lia || constructor.
Defined.
