(* ===== verification/RangeTree.v ===== *)
(** Range-node trees (balloc.c, first part): the red-black trees of
    [struct nova_range_node] that hold the free blocks of a CPU, the inode
    numbers in use and the names of a directory.

    A tree is its root together with the slab objects reachable from it
    ([rtree]); nodes are mutated in place through their address. *)

From S2P Require Import Prelude.
From S2P Require Import Kernel.
From S2P Require Import Checksum.

(** [struct nova_range_node]: [hash] and [direntry] share the storage of
    [range_low] and [range_high] (a union). *)
Record range_node := RangeNode {
  vma : Z;
  mmap_entry : Z;
  range_low : Z;
  range_high : Z;
  csum : Z
}.
Abbreviation hash := range_low (only parsing).
Abbreviation direntry := range_high (only parsing).

(** [kmem_cache_zalloc] zeroes the object. *)
Definition zero_node : range_node := RangeNode 0 0 0 0 0.

Definition set_low (v : Z) (n : range_node) : range_node :=
  RangeNode (vma n) (mmap_entry n) v (range_high n) (csum n).
Definition set_high (v : Z) (n : range_node) : range_node :=
  RangeNode (vma n) (mmap_entry n) (range_low n) v (csum n).
Definition set_csum (v : Z) (n : range_node) : range_node :=
  RangeNode (vma n) (mmap_entry n) (range_low n) (range_high n) v.

Inductive node_type := NODE_BLOCK | NODE_INODE | NODE_DIR.

#[export] Instance node_type_eq_dec : EqDecision node_type.
Proof. solve_decision. Defined.

Record rtree := RTree {
  root : rbtree;
  nodes : gmap ptr range_node
}.

Definition empty_rtree : rtree := RTree RbLeaf ∅.

Section range_tree.
Context {RB : RbOps} {KM : KmemOps} {CR : CrcOps} {MP : ModParams}.

Definition deref (T : rtree) (p : ptr) : range_node :=
  default zero_node (nodes T !! p).

(** A store to the fields of the node at [p]. *)
Definition update_node (p : ptr) (f : range_node -> range_node) (T : rtree) : rtree :=
  RTree (root T) (<[p := f (deref T p)]> (nodes T)).

Definition set_root (t : rbtree) (T : rtree) : rtree := RTree t (nodes T).

Definition nova_alloc_range_node (T : rtree) : option (ptr * rtree) :=
  match kmem_cache_zalloc (dom (nodes T)) with
  | Some p => Some (p, RTree (root T) (<[p := zero_node]> (nodes T)))
  | None => None
  end.

Definition nova_free_range_node (p : ptr) (T : rtree) : rtree :=
  RTree (root T) (delete p (nodes T)).

(** The bytes from [vma] up to [csum]. *)
Definition nova_calculate_range_node_csum (n : range_node) : Z :=
  nova_crc32c (TWO32 - 1)
    (le_bytes 8 (vma n) ++ le_bytes 8 (mmap_entry n)
     ++ le_bytes 8 (range_low n) ++ le_bytes 8 (range_high n)).

Definition nova_update_range_node_checksum (p : ptr) (T : rtree) : rtree :=
  if dram_struct_csum then
    update_node p (fun n => set_csum (nova_calculate_range_node_csum n) n) T
  else T.

(** A store to a node followed by [nova_update_range_node_checksum]. *)
Definition store_node (p : ptr) (f : range_node -> range_node) (T : rtree) : rtree :=
  nova_update_range_node_checksum p (update_node p f T).

Definition nova_range_node_checksum_ok (n : range_node) : bool :=
  if negb dram_struct_csum then true
  else csum n =? nova_calculate_range_node_csum n.

Definition nova_rbtree_compare_rangenode (curr : range_node) (key : Z)
    (type : node_type) : Z :=
  match type with
  | NODE_DIR =>
      if key <? hash curr then -1
      else if hash curr <? key then 1
      else 0
  | _ =>
      if key <? range_low curr then -1
      else if range_high curr <? key then 1
      else 0
  end.

(** The [while (temp)] walk: the result flag and the last node visited. *)
Fixpoint find_walk (T : rtree) (temp : rbtree) (key : Z) (type : node_type)
    (curr : option ptr) : Z * option ptr :=
  match temp with
  | RbLeaf => (0, curr)
  | RbNode l p r =>
      let compVal := nova_rbtree_compare_rangenode (deref T p) key type in
      if compVal =? -1 then find_walk T l key type (Some p)
      else if compVal =? 1 then find_walk T r key type (Some p)
      else (1, Some p)
  end.

(** [ret_node] is the value [*ret_node] has on entry. *)
Definition nova_find_range_node (T : rtree) (key : Z) (type : node_type)
    (ret_node : option ptr) : Z * option ptr :=
  let '(ret, curr) := find_walk T (root T) key type None in
  match curr with
  | Some p =>
      if negb (nova_range_node_checksum_ok (deref T p)) then (0, ret_node)
      else (ret, curr)
  | None => (ret, curr)
  end.

(** The walk of the insertion and [rb_link_node]; [None] when a node already
    holds the key. *)
Fixpoint link_walk (T : rtree) (temp : rbtree) (key : Z) (type : node_type)
    (new_node : ptr) : option rbtree :=
  match temp with
  | RbLeaf => Some (RbNode RbLeaf new_node RbLeaf)
  | RbNode l p r =>
      let compVal := nova_rbtree_compare_rangenode (deref T p) key type in
      if compVal =? -1 then
        (fun l' => RbNode l' p r) <$> link_walk T l key type new_node
      else if compVal =? 1 then
        (fun r' => RbNode l p r') <$> link_walk T r key type new_node
      else None
  end.

Definition nova_insert_range_node (T : rtree) (new_node : ptr)
    (type : node_type) : Z * rtree :=
  match link_walk T (root T) (range_low (deref T new_node)) type new_node with
  | None => (- EINVAL, T)
  | Some t => (0, set_root (rb_insert_color new_node t) T)
  end.

Definition nova_insert_blocktree (T : rtree) (new_node : ptr) : Z * rtree :=
  nova_insert_range_node T new_node NODE_BLOCK.

Definition rb_erase_node (p : ptr) (T : rtree) : rtree :=
  set_root (rb_erase p (root T)) T.

(** The [while (temp)] loop over [rb_first]/[rb_next]; [rb_next] is taken
    before the node is erased.  [fuel] bounds the iterations. *)
Fixpoint destroy_loop (fuel : nat) (temp : option ptr) (T : rtree) : option rtree :=
  match temp, fuel with
  | None, _ => Some T
  | Some _, O => None
  | Some curr, S fuel' =>
      let next := rb_next curr (root T) in
      destroy_loop fuel' next (nova_free_range_node curr (rb_erase_node curr T))
  end.

Definition nova_destroy_range_node_tree (fuel : nat) (T : rtree) : option rtree :=
  destroy_loop fuel (rb_first (root T)) T.

(** Returns [(ret, *prev, *next)]; the callers pass [prev = next = NULL]. *)
Definition nova_find_free_slot (T : rtree) (low high : Z)
    : Z * option ptr * option ptr :=
  let '(ret, ret_node) := nova_find_range_node T low NODE_BLOCK None in
  if negb (ret =? 0) then (- EINVAL, None, None)
  else
    match ret_node with
    | None => (0, None, None)
    | Some p =>
        if range_high (deref T p) <? low then
          match rb_next p (root T) with
          | Some q =>
              if negb (nova_range_node_checksum_ok (deref T q))
              then (- EIO, Some p, Some q)
              else (0, Some p, Some q)
          | None => (0, Some p, None)
          end
        else if high <? range_low (deref T p) then
          match rb_prev p (root T) with
          | Some q =>
              if negb (nova_range_node_checksum_ok (deref T q))
              then (- EIO, Some q, Some p)
              else (0, Some q, Some p)
          | None => (0, None, Some p)
          end
        else (- EINVAL, None, None)
    end.
End range_tree.

(** ** Sorted, disjoint ranges *)

(** [sorted_from b l]: the ranges of [l] are non-empty, increasing and
    disjoint, and all lie above [b]. *)
Fixpoint sorted_from (b : Z) (l : list (Z * Z)) : Prop :=
  match l with
  | [] => True
  | (lo, hi) :: l' => b < lo /\ lo <= hi /\ sorted_from hi l'
  end.

Fixpoint last_high (b : Z) (l : list (Z * Z)) : Z :=
  match l with
  | [] => b
  | (_, hi) :: l' => last_high hi l'
  end.

(** The keys a list of ranges covers, and how many. *)
Definition covers (l : list (Z * Z)) (x : Z) : Prop :=
  exists r, r ∈ l /\ r.1 <= x <= r.2.

Fixpoint total (l : list (Z * Z)) : Z :=
  match l with
  | [] => 0
  | (lo, hi) :: l' => hi - lo + 1 + total l'
  end.

Lemma sorted_from_app b l1 l2 :
  sorted_from b (l1 ++ l2) <-> sorted_from b l1 /\ sorted_from (last_high b l1) l2.
Proof.
  revert b. induction l1 as [|[lo hi] l1 IH]; simpl; intros b; [tauto|].
  rewrite IH. tauto.
Qed.

Lemma sorted_from_weaken b b' l : b' <= b -> sorted_from b l -> sorted_from b' l.
Proof. destruct l as [|[lo hi] l]; simpl; [done|]. intros ? (? & ? & ?). split_and!; try done; lia. Qed.

Lemma last_high_ge b l : sorted_from b l -> b <= last_high b l.
Proof.
  revert b. induction l as [|[lo hi] l IH]; simpl; intros b; [lia|].
  intros (? & ? & Hs). specialize (IH _ Hs). lia.
Qed.

Lemma sorted_from_bounds b l lo hi :
  sorted_from b l -> (lo, hi) ∈ l -> b < lo /\ lo <= hi /\ hi <= last_high b l.
Proof.
  revert b. induction l as [|[lo' hi'] l IH]; simpl; intros b Hs Hin.
  { by apply not_elem_of_nil in Hin. }
  destruct Hs as (? & ? & Hs). apply elem_of_cons in Hin as [Heq|Hin]; simplify_eq.
  - pose proof (last_high_ge _ _ Hs). lia.
  - destruct (IH _ Hs Hin) as (? & ? & ?). lia.
Qed.

Lemma sorted_from_lower b b' l :
  sorted_from b l -> (forall r, r ∈ l -> b' < r.1) -> sorted_from b' l.
Proof.
  destruct l as [|[lo hi] l]; simpl; [done|]. intros (? & ? & ?) Hl.
  split_and!; try done. apply (Hl (lo, hi)). set_solver.
Qed.

Lemma last_high_app b l1 l2 : last_high b (l1 ++ l2) = last_high (last_high b l1) l2.
Proof. revert b. induction l1 as [|[lo hi] l1 IH]; simpl; auto. Qed.

Lemma last_high_lt b l x :
  b < x -> (forall r, r ∈ l -> r.2 < x) -> last_high b l < x.
Proof.
  revert b. induction l as [|[lo hi] l IH]; simpl; intros b Hb Hl; [done|].
  apply IH.
  - apply (Hl (lo, hi)). set_solver.
  - set_solver.
Qed.

Lemma total_app l1 l2 : total (l1 ++ l2) = total l1 + total l2.
Proof. induction l1 as [|[lo hi] l1 IH]; simpl; lia. Qed.

Lemma total_nonneg b l : sorted_from b l -> 0 <= total l.
Proof.
  revert b. induction l as [|[lo hi] l IH]; simpl; intros b; [lia|].
  intros (? & ? & Hs). specialize (IH _ Hs). lia.
Qed.

Lemma total_bound b l : sorted_from b l -> total l <= last_high b l - b.
Proof.
  revert b. induction l as [|[lo hi] l IH]; simpl; intros b; [lia|].
  intros (? & ? & Hs). specialize (IH _ Hs). lia.
Qed.

Lemma covers_app l1 l2 x : covers (l1 ++ l2) x <-> covers l1 x \/ covers l2 x.
Proof. unfold covers. set_solver. Qed.

Lemma covers_cons lo hi l x : covers ((lo, hi) :: l) x <-> lo <= x <= hi \/ covers l x.
Proof.
  unfold covers. split.
  - intros (r & Hr & ?). apply elem_of_cons in Hr as [->|Hr]; simpl in *; eauto.
  - intros [?|(r & Hr & ?)].
    + exists (lo, hi). set_solver.
    + exists r. set_solver.
Qed.

Lemma covers_nil x : covers [] x <-> False.
Proof. unfold covers. set_solver. Qed.

Lemma covers_lower b l x : sorted_from b l -> covers l x -> b < x <= last_high b l.
Proof.
  intros Hs ([lo hi] & Hr & ?). simpl in *.
  destruct (sorted_from_bounds _ _ _ _ Hs Hr). lia.
Qed.

#[export] Hint Rewrite covers_app covers_cons covers_nil : ranges.
#[export] Hint Rewrite total_app last_high_app sorted_from_app : ranges.
