(* ===== verification/RangeTreeSpec.v ===== *)
(** The invariant of the range-node trees and the functional behaviour of
    their operations: search, slot lookup, insertion, removal, destruction.
    Nothing here depends on the shape of the tree, only on its in-order
    sequence. *)

From S2P Require Import Prelude.
From S2P Require Import Kernel.
From S2P Require Import Checksum.
From S2P Require Import RangeTree.

Create HintDb rtree.

Section spec.
Context {RB : RbOps} {KM : KmemOps} {CR : CrcOps} {MP : ModParams}.

Definition ids (T : rtree) : list ptr := inorder (root T).
Definition rng (T : rtree) (p : ptr) : Z * Z :=
  (range_low (deref T p), range_high (deref T p)).
Definition ranges (T : rtree) : list (Z * Z) := rng T <$> ids T.

(** Every linked node is allocated, its checksum is right, no node is linked
    twice, and the ranges are non-empty, sorted and disjoint. *)
Record tree_wf (T : rtree) : Prop := {
  wf_nodup : NoDup (ids T);
  wf_alloc : forall p, p ∈ ids T -> p ∈ dom (nodes T);
  wf_csum : forall p, p ∈ ids T -> nova_range_node_checksum_ok (deref T p) = true;
  wf_sorted : sorted_from (-1) (ranges T)
}.

Lemma deref_update T p f q :
  deref (update_node p f T) q = if decide (p = q) then f (deref T p) else deref T q.
Proof.
  unfold deref, update_node. simpl. rewrite lookup_insert.
  by case_decide.
Qed.

Lemma deref_set_root T t q : deref (set_root t T) q = deref T q.
Proof. done. Qed.

Lemma deref_free T p q : p <> q -> deref (nova_free_range_node p T) q = deref T q.
Proof. intros. unfold deref. simpl. by rewrite lookup_delete_ne. Qed.

Lemma ids_update p f T : ids (update_node p f T) = ids T.
Proof. done. Qed.

Lemma csum_set_low v n : nova_calculate_range_node_csum (set_csum v n)
  = nova_calculate_range_node_csum n.
Proof. done. Qed.

(** Setting fields and then recomputing the checksum. *)
Definition refreshed (n : range_node) : range_node :=
  if dram_struct_csum then set_csum (nova_calculate_range_node_csum n) n else n.

Lemma refreshed_ok n : nova_range_node_checksum_ok (refreshed n) = true.
Proof.
  unfold nova_range_node_checksum_ok, refreshed.
  destruct dram_struct_csum; simpl; [|done].
  rewrite csum_set_low. apply Z.eqb_refl.
Qed.

Lemma refreshed_low n : range_low (refreshed n) = range_low n.
Proof. unfold refreshed. by destruct dram_struct_csum. Qed.
Lemma refreshed_high n : range_high (refreshed n) = range_high n.
Proof. unfold refreshed. by destruct dram_struct_csum. Qed.

Lemma deref_refresh T p q :
  deref (nova_update_range_node_checksum p T) q =
    if decide (p = q) then refreshed (deref T p) else deref T q.
Proof.
  unfold nova_update_range_node_checksum, refreshed.
  destruct dram_struct_csum.
  - by rewrite deref_update.
  - by case_decide; subst.
Qed.

Lemma ids_refresh T p : ids (nova_update_range_node_checksum p T) = ids T.
Proof. unfold nova_update_range_node_checksum. by destruct dram_struct_csum. Qed.

Lemma dom_refresh T p :
  p ∈ dom (nodes T) -> dom (nodes (nova_update_range_node_checksum p T)) = dom (nodes T).
Proof.
  intros. unfold nova_update_range_node_checksum. destruct dram_struct_csum; [|done].
  simpl. rewrite dom_insert_L. set_solver.
Qed.

Lemma ids_store p f T : ids (store_node p f T) = ids T.
Proof. unfold store_node. by rewrite ids_refresh. Qed.

Lemma deref_store p f T q :
  deref (store_node p f T) q =
    if decide (p = q) then refreshed (f (deref T p)) else deref T q.
Proof.
  unfold store_node. rewrite deref_refresh, !deref_update.
  case_decide; [|done]. by rewrite decide_True.
Qed.

Lemma dom_store p f T : dom (nodes (store_node p f T)) = {[p]} ∪ dom (nodes T).
Proof.
  unfold store_node. rewrite dom_refresh; simpl; rewrite dom_insert_L; set_solver.
Qed.

Lemma root_store p f T : root (store_node p f T) = root T.
Proof. unfold store_node, nova_update_range_node_checksum. by destruct dram_struct_csum. Qed.

Lemma map_rng_ext T T' (l : list ptr) :
  (forall p, p ∈ l -> deref T' p = deref T p) -> rng T' <$> l = rng T <$> l.
Proof.
  intros E. apply list_fmap_ext. intros i p Hi. unfold rng.
  by rewrite E by (eapply list_elem_of_lookup_2; eauto).
Qed.

Lemma rng_store_ne p f T (l : list ptr) : p ∉ l -> rng (store_node p f T) <$> l = rng T <$> l.
Proof.
  intros Hp. apply map_rng_ext. intros q Hq. rewrite deref_store.
  rewrite decide_False; [done|]. set_solver.
Qed.

Lemma rng_store_eq p f T :
  rng (store_node p f T) p = (range_low (f (deref T p)), range_high (f (deref T p))).
Proof.
  unfold rng. rewrite deref_store, decide_True by done.
  by rewrite refreshed_low, refreshed_high.
Qed.

Lemma ranges_split T l1 p l2 :
  ids T = l1 ++ p :: l2 ->
  ranges T = (rng T <$> l1) ++ rng T p :: (rng T <$> l2).
Proof. unfold ranges. intros ->. by rewrite fmap_app. Qed.

Lemma wf_split_notin T l1 p l2 :
  tree_wf T -> ids T = l1 ++ p :: l2 -> p ∉ l1 /\ p ∉ l2.
Proof. intros Hwf E. apply nodup_mid_notin. rewrite <- E. apply Hwf. Qed.

(** Ordering of the nodes around a split. *)
Definition below (T : rtree) (l : list ptr) (x : Z) : Prop :=
  forall p, p ∈ l -> range_high (deref T p) < x.
Definition above (T : rtree) (l : list ptr) (x : Z) : Prop :=
  forall p, p ∈ l -> x < range_low (deref T p).

Lemma sorted_below_mid T b l1 p l2 :
  sorted_from b (rng T <$> (l1 ++ p :: l2)) ->
  below T l1 (range_low (deref T p)) /\ above T l2 (range_high (deref T p))
  /\ range_low (deref T p) <= range_high (deref T p).
Proof.
  rewrite fmap_app, sorted_from_app. simpl. intros (H1 & H2 & H3 & H4).
  split_and!; [| |done].
  - intros q Hq.
    assert (Hin : rng T q ∈ rng T <$> l1) by (apply list_elem_of_fmap; eauto).
    destruct (sorted_from_bounds _ _ _ _ H1 Hin) as (? & ? & ?). lia.
  - intros q Hq.
    assert (Hin : rng T q ∈ rng T <$> l2) by (apply list_elem_of_fmap; eauto).
    destruct (sorted_from_bounds _ _ _ _ H4 Hin) as (? & ? & ?). lia.
Qed.

Lemma compare_block T p key type :
  type <> NODE_DIR -> range_low (deref T p) <= range_high (deref T p) ->
  let c := nova_rbtree_compare_rangenode (deref T p) key type in
  (c = -1 /\ key < range_low (deref T p)) \/
  (c = 1 /\ range_high (deref T p) < key) \/
  (c = 0 /\ range_low (deref T p) <= key <= range_high (deref T p)).
Proof.
  intros Ht Hle. unfold nova_rbtree_compare_rangenode.
  destruct type; [| |done]; destruct (Z.ltb_spec key (range_low (deref T p)));
    try (left; done); destruct (Z.ltb_spec (range_high (deref T p)) key); auto 6 with lia.
Qed.

(** The search: it stops in a node holding the key, or next to the gap the
    key lies in. *)
Lemma find_walk_spec T t key type curr b :
  type <> NODE_DIR ->
  sorted_from b (rng T <$> inorder t) ->
  match find_walk T t key type curr with
  | (ret, c) =>
      (ret = 1 /\ exists p, c = Some p /\ p ∈ inorder t
         /\ range_low (deref T p) <= key <= range_high (deref T p)) \/
      (ret = 0 /\ exists l1 l2, inorder t = l1 ++ l2
         /\ below T l1 key /\ above T l2 key
         /\ (t = RbLeaf /\ c = curr \/
             is_Some c /\ (c = last l1 \/ c = head l2)))
  end.
Proof.
  intros Hty. revert curr b. induction t as [|l IHl p r IHr]; intros curr b Hs; simpl.
  { right. split; [done|]. exists [], []. split_and!; try done; try set_solver. }
  simpl in Hs. destruct (sorted_below_mid _ _ _ _ _ Hs) as (Hlo & Hhi & Hle).
  rewrite fmap_app, sorted_from_app in Hs. destruct Hs as [Hsl Hsr].
  destruct (compare_block T p key type Hty Hle) as [(-> & Hk)|[(-> & Hk)|(-> & Hk)]]; simpl.
  - specialize (IHl (Some p) _ Hsl).
    destruct (find_walk T l key type (Some p)) as [ret c].
    destruct IHl as [(-> & q & -> & Hq & ?)|(-> & l1 & l2 & E & Hb & Ha & Hc)].
    { left. split; [done|]. exists q. set_solver. }
    right. split; [done|]. exists l1, (l2 ++ p :: inorder r). split_and!.
    + by rewrite E, <- app_assoc.
    + done.
    + intros q. rewrite elem_of_app, elem_of_cons. intros [?|[->|Hq]]; auto.
      specialize (Hhi _ Hq). lia.
    + right. destruct Hc as [[-> ->]|[Hs [->| ->]]].
      * simpl in E. symmetry in E. apply app_eq_nil in E as [-> ->]. eauto.
      * eauto.
      * split; [done|]. right. destruct l2; [|done]. by destruct Hs.
  - simpl in Hsr. destruct Hsr as (_ & _ & Hsr).
    specialize (IHr (Some p) _ Hsr).
    destruct (find_walk T r key type (Some p)) as [ret c].
    destruct IHr as [(-> & q & -> & Hq & ?)|(-> & l1 & l2 & E & Hb & Ha & Hc)].
    { left. split; [done|]. exists q. set_solver. }
    right. split; [done|]. exists (inorder l ++ p :: l1), l2. split_and!.
    + by rewrite E, <- app_assoc.
    + intros q. rewrite elem_of_app, elem_of_cons. intros [Hq|[->|?]]; auto.
      specialize (Hlo _ Hq). lia.
    + done.
    + right. destruct Hc as [[-> ->]|[Hs [->| ->]]].
      * simpl in E. symmetry in E. apply app_eq_nil in E as [-> ->].
        split; [done|]. left. by rewrite last_snoc.
      * split; [done|]. left. rewrite last_app_cons.
        destruct l1; [by destruct Hs|done].
      * eauto.
  - left. split; [done|]. exists p. set_solver.
Qed.
End spec.

Section ops.
Context {RB : RbOps} {KM : KmemOps} {CR : CrcOps} {MP : ModParams}.
Context {RBL : RbLaws} {KML : KmemLaws}.

Lemma covers_ranges T x :
  covers (ranges T) x <->
  exists p, p ∈ ids T /\ range_low (deref T p) <= x <= range_high (deref T p).
Proof.
  unfold covers, ranges. setoid_rewrite list_elem_of_fmap. split.
  - intros (r & (p & -> & Hp) & Hx). eauto.
  - intros (p & Hp & Hx). exists (rng T p). eauto.
Qed.

Lemma wf_range_le T p :
  tree_wf T -> p ∈ ids T -> 0 <= range_low (deref T p) <= range_high (deref T p).
Proof.
  intros Hwf Hp.
  assert (Hin : rng T p ∈ ranges T) by (apply list_elem_of_fmap; eauto).
  destruct (sorted_from_bounds _ _ _ _ (wf_sorted _ Hwf) Hin). lia.
Qed.

(** The node next to a gap is the last one below it or the first one above. *)
Lemma find_range_node_wf T key type r0 :
  tree_wf T -> type <> NODE_DIR ->
  (exists p, nova_find_range_node T key type r0 = (1, Some p) /\ p ∈ ids T
     /\ range_low (deref T p) <= key <= range_high (deref T p)) \/
  (exists l1 l2 c, nova_find_range_node T key type r0 = (0, c)
     /\ ids T = l1 ++ l2 /\ below T l1 key /\ above T l2 key
     /\ (ids T = [] /\ c = None \/ is_Some c /\ (c = last l1 \/ c = head l2))).
Proof.
  intros Hwf Hty. unfold nova_find_range_node.
  pose proof (find_walk_spec T (root T) key type None (-1) Hty (wf_sorted _ Hwf)) as Hw.
  destruct (find_walk T (root T) key type None) as [ret c].
  destruct Hw as [(-> & p & -> & Hp & Hk)|(-> & l1 & l2 & E & Hb & Ha & Hc)].
  - left. exists p. rewrite (wf_csum _ Hwf) by done. done.
  - right. exists l1, l2, c.
    destruct Hc as [[Ht ->]|[[p ->] Hc]].
    + split_and!; auto. left. unfold ids. by rewrite Ht.
    + rewrite (wf_csum _ Hwf); simpl; [split_and!; eauto|].
      unfold ids. rewrite E. destruct Hc as [Hc|Hc].
      * symmetry in Hc. apply last_Some in Hc as [l' ->]. set_solver.
      * destruct l2; simplify_eq/=. set_solver.
Qed.

Lemma find_range_node_found T key type r0 :
  tree_wf T -> type <> NODE_DIR -> covers (ranges T) key ->
  exists p, nova_find_range_node T key type r0 = (1, Some p) /\ p ∈ ids T
     /\ range_low (deref T p) <= key <= range_high (deref T p).
Proof.
  intros Hwf Hty Hc.
  destruct (find_range_node_wf T key type r0 Hwf Hty)
    as [?|(l1 & l2 & c & _ & E & Hb & Ha & _)]; [done|].
  apply covers_ranges in Hc as (p & Hp & ?). rewrite E in Hp.
  apply elem_of_app in Hp as [Hp|Hp]; [specialize (Hb p Hp)|specialize (Ha p Hp)]; lia.
Qed.

Lemma find_free_slot_gap T low high :
  tree_wf T -> low <= high ->
  (forall x, low <= x <= high -> ~ covers (ranges T) x) ->
  exists l1 l2, ids T = l1 ++ l2 /\ below T l1 low /\ above T l2 high
    /\ nova_find_free_slot T low high = (0, last l1, head l2).
Proof.
  intros Hwf Hle Hfree. unfold nova_find_free_slot.
  destruct (find_range_node_wf T low NODE_BLOCK None Hwf)
    as [(p & -> & Hp & ?)|(l1 & l2 & c & -> & E & Hb & Ha & Hc)]; [done| |].
  { destruct (Hfree low); [lia|]. apply covers_ranges. eauto. }
  assert (Ha' : above T l2 high).
  { intros p Hp. specialize (Ha p Hp).
    destruct (Z_lt_le_dec high (range_low (deref T p))); [done|].
    destruct (Hfree (range_low (deref T p))); [lia|].
    assert (Hp' : p ∈ ids T) by (rewrite E; set_solver).
    apply covers_ranges. exists p. pose proof (wf_range_le _ _ Hwf Hp'). split; [done|lia]. }
  exists l1, l2. split_and!; [done..|]. simpl.
  pose proof (wf_nodup _ Hwf) as Hnd.
  destruct Hc as [[Hnil ->]|[[p ->] Hc]].
  { rewrite E in Hnil. apply app_eq_nil in Hnil as [-> ->]. done. }
  destruct Hc as [Hc|Hc]; symmetry in Hc.
  - pose proof Hc as Hp. apply last_Some in Hp as [l' ->].
    assert (Hpb : range_high (deref T p) < low) by (apply Hb; set_solver).
    rewrite (proj2 (Z.ltb_lt _ _) Hpb).
    rewrite <- app_assoc in E. simpl in E.
    rewrite rb_next_inorder. unfold ids in E, Hnd. rewrite E in Hnd |- *.
    rewrite next_in_mid by (by apply nodup_mid_notin in Hnd as [? ?]).
    rewrite last_snoc. destruct (head l2) as [q|] eqn:Hq; [|done].
    rewrite (wf_csum _ Hwf); [done|]. unfold ids. rewrite E.
    destruct l2; simplify_eq/=. set_solver.
  - destruct l2 as [|p' l2]; simplify_eq/=.
    assert (Hpa : high < range_low (deref T p)) by (apply Ha'; set_solver).
    assert (Hp : p ∈ ids T) by (rewrite E; set_solver).
    pose proof (wf_range_le _ _ Hwf Hp).
    rewrite (proj2 (Z.ltb_ge (range_high (deref T p)) low)) by lia.
    rewrite (proj2 (Z.ltb_lt _ _) Hpa).
    rewrite rb_prev_inorder. unfold ids in E, Hnd. rewrite E in Hnd |- *.
    rewrite prev_in_mid by (by apply nodup_mid_notin in Hnd as [? ?]).
    destruct (last l1) as [q|] eqn:Hq; [|done].
    rewrite (wf_csum _ Hwf); [done|]. unfold ids. rewrite E.
    apply last_Some in Hq as [l' ->]. set_solver.
Qed.

Lemma find_free_slot_covered T low high :
  tree_wf T -> covers (ranges T) low ->
  nova_find_free_slot T low high = (- EINVAL, None, None).
Proof.
  intros Hwf Hc. unfold nova_find_free_slot.
  by destruct (find_range_node_found T low NODE_BLOCK None Hwf) as (p & -> & _ & _).
Qed.

Lemma link_walk_spec T t key type n b l1 l2 :
  type <> NODE_DIR ->
  sorted_from b (rng T <$> inorder t) ->
  inorder t = l1 ++ l2 -> below T l1 key -> above T l2 key ->
  exists t', link_walk T t key type n = Some t' /\ inorder t' = l1 ++ n :: l2.
Proof.
  intros Hty. revert b l1 l2. induction t as [|l IHl p r IHr]; simpl; intros b l1 l2 Hs E Hb Ha.
  { symmetry in E. apply app_eq_nil in E as [-> ->]. eauto. }
  destruct (sorted_below_mid _ _ _ _ _ Hs) as (Hlo & Hhi & Hle).
  rewrite fmap_app, sorted_from_app in Hs. destruct Hs as [Hsl Hsr].
  simpl in Hsr. destruct Hsr as (_ & _ & Hsr).
  apply app_eq_inv in E as [(k & E1 & E2)|(k & E1 & E2)].
  - (* the gap is in the left subtree *)
    assert (key < range_low (deref T p)) by (apply Ha; rewrite E2; set_solver).
    destruct (compare_block T p key type Hty Hle) as [(-> & ?)|[(_ & ?)|(_ & ?)]]; try lia.
    simpl. destruct (IHl _ l1 k Hsl E1 Hb) as (t' & -> & E').
    { intros q Hq. apply Ha. rewrite E2. set_solver. }
    simpl. eexists. split; [done|]. simpl. rewrite E', E2. by rewrite <- app_assoc.
  - destruct k as [|p' k]; simplify_eq/=.
    + (* the gap is just before [p] *)
      rewrite app_nil_r in *.
      assert (key < range_low (deref T p)) by (apply Ha; set_solver).
      destruct (compare_block T p key type Hty Hle) as [(-> & ?)|[(_ & ?)|(_ & ?)]]; try lia.
      simpl. destruct (IHl _ (inorder l) [] Hsl) as (t' & -> & E'); auto.
      { by rewrite app_nil_r. }
      { set_solver. }
      simpl. eexists. split; [done|]. simpl. rewrite E'. by rewrite <- app_assoc.
    + (* the gap is in the right subtree *)
      assert (range_high (deref T p') < key) by (apply Hb; set_solver).
      destruct (compare_block T p' key type Hty Hle) as [(_ & ?)|[(-> & ?)|(_ & ?)]]; try lia.
      simpl. destruct (IHr _ k l2 Hsr) as (t' & -> & E'); auto.
      { intros q Hq. apply Hb. set_solver. }
      simpl. eexists. split; [done|]. simpl. rewrite E'. by rewrite <- app_assoc.
Qed.

Lemma insert_range_node_spec T n type l1 l2 :
  type <> NODE_DIR -> sorted_from (-1) (ranges T) -> ids T = l1 ++ l2 ->
  below T l1 (range_low (deref T n)) -> above T l2 (range_low (deref T n)) ->
  exists t, nova_insert_range_node T n type = (0, set_root t T)
    /\ inorder t = l1 ++ n :: l2.
Proof.
  intros Hty Hs E Hb Ha. unfold nova_insert_range_node.
  destruct (link_walk_spec T (root T) _ type n (-1) l1 l2 Hty Hs E Hb Ha)
    as (t & -> & Et).
  eexists. split; [done|]. by rewrite rb_insert_color_inorder.
Qed.

(** A node that holds the key is in the way. *)
Lemma link_walk_exists T t key n b :
  sorted_from b (rng T <$> inorder t) -> covers (rng T <$> inorder t) key ->
  link_walk T t key NODE_BLOCK n = None.
Proof.
  revert b. induction t as [|l IHl p r IHr];
    cbn [link_walk inorder fmap list_fmap]; intros b Hs Hcv.
  { by apply covers_nil in Hcv. }
  destruct (sorted_below_mid _ _ _ _ _ Hs) as (Hlo & Hhi & Hle).
  rewrite fmap_app, sorted_from_app in Hs. destruct Hs as [Hsl Hsr].
  simpl in Hsr. destruct Hsr as (? & ? & Hsr).
  rewrite fmap_app in Hcv. simpl in Hcv. unfold rng at 2 in Hcv.
  autorewrite with ranges in Hcv.
  destruct (compare_block T p key NODE_BLOCK) as [(-> & ?)|[(-> & ?)|(-> & ?)]];
    try done; simpl.
  - destruct Hcv as [Hcv|[Hcv|Hcv]]; [|lia|].
    + by rewrite (IHl _ Hsl Hcv).
    + apply (covers_lower _ _ _ Hsr) in Hcv. lia.
  - destruct Hcv as [Hcv|[Hcv|Hcv]]; [|lia|].
    + apply (covers_lower _ _ _ Hsl) in Hcv. lia.
    + by rewrite (IHr _ Hsr Hcv).
Qed.

Lemma insert_range_node_exists T n :
  tree_wf T -> covers (ranges T) (range_low (deref T n)) ->
  nova_insert_range_node T n NODE_BLOCK = (- EINVAL, T).
Proof.
  intros Hwf Hc. unfold nova_insert_range_node.
  by rewrite (link_walk_exists T (root T) _ n (-1) (wf_sorted _ Hwf) Hc).
Qed.
End ops.

(** ** Preservation of the invariant *)
Section preserve.
Context {RB : RbOps} {KM : KmemOps} {CR : CrcOps} {MP : ModParams}.
Context {RBL : RbLaws} {KML : KmemLaws}.

Lemma ids_in_mid T l1 p l2 : ids T = l1 ++ p :: l2 -> p ∈ ids T.
Proof. intros ->. set_solver. Qed.

Lemma ranges_store T p f l1 l2 :
  tree_wf T -> ids T = l1 ++ p :: l2 ->
  ranges (store_node p f T) =
    (rng T <$> l1)
    ++ (range_low (f (deref T p)), range_high (f (deref T p))) :: (rng T <$> l2).
Proof.
  intros Hwf E. destruct (wf_split_notin _ _ _ _ Hwf E).
  rewrite (ranges_split _ l1 p l2) by (by rewrite ids_store).
  by rewrite !rng_store_ne, rng_store_eq by done.
Qed.

Lemma wf_store T p f l1 l2 :
  tree_wf T -> ids T = l1 ++ p :: l2 ->
  sorted_from (-1) ((rng T <$> l1)
    ++ (range_low (f (deref T p)), range_high (f (deref T p))) :: (rng T <$> l2)) ->
  tree_wf (store_node p f T).
Proof.
  intros Hwf E Hs. split.
  - rewrite ids_store. apply Hwf.
  - intros q. rewrite ids_store, dom_store. intros Hq.
    apply elem_of_union_r. by apply Hwf.
  - intros q. rewrite ids_store, deref_store. intros Hq.
    case_decide; [apply refreshed_ok|]. by apply Hwf.
  - by rewrite (ranges_store _ _ _ l1 l2).
Qed.

Lemma ids_unlink T p l1 l2 :
  NoDup (ids T) -> ids T = l1 ++ p :: l2 -> ids (rb_erase_node p T) = l1 ++ l2.
Proof. intros Hnd E. unfold ids. simpl. by apply rb_erase_inorder. Qed.

Lemma ranges_unlink T p l1 l2 :
  NoDup (ids T) -> ids T = l1 ++ p :: l2 ->
  ranges (rb_erase_node p T) = (rng T <$> l1) ++ (rng T <$> l2).
Proof. intros Hnd E. unfold ranges. rewrite (ids_unlink _ _ l1 l2) by done. apply fmap_app. Qed.

Lemma sorted_drop_mid b l1 r l2 :
  sorted_from b (l1 ++ r :: l2) -> sorted_from b (l1 ++ l2).
Proof.
  destruct r as [lo hi]. rewrite !sorted_from_app. simpl. intros (? & ? & ? & ?).
  split; [done|]. eapply sorted_from_weaken; [|done]. lia.
Qed.

Lemma wf_unlink T p l1 l2 :
  tree_wf T -> ids T = l1 ++ p :: l2 -> tree_wf (rb_erase_node p T).
Proof.
  intros Hwf E. pose proof (wf_nodup _ Hwf) as Hnd.
  assert (Hsub : forall q, q ∈ l1 ++ l2 -> q ∈ ids T) by (rewrite E; set_solver).
  split.
  - rewrite (ids_unlink _ _ l1 l2) by done. rewrite E in Hnd.
    apply NoDup_app in Hnd as (? & Hd & Hnd). apply NoDup_cons in Hnd as [? ?].
    apply NoDup_app. split_and!; [done| |done]. set_solver.
  - rewrite (ids_unlink _ _ l1 l2) by done. intros q Hq. apply (wf_alloc _ Hwf). auto.
  - rewrite (ids_unlink _ _ l1 l2) by done. intros q Hq. apply (wf_csum _ Hwf). auto.
  - rewrite (ranges_unlink _ _ l1 l2) by done.
    pose proof (wf_sorted _ Hwf) as Hs. rewrite (ranges_split _ _ _ _ E) in Hs.
    by eapply sorted_drop_mid.
Qed.

Lemma ranges_free T p : p ∉ ids T -> ranges (nova_free_range_node p T) = ranges T.
Proof.
  intros Hp. unfold ranges. apply map_rng_ext. intros q Hq. apply deref_free. set_solver.
Qed.

Lemma wf_free T p : tree_wf T -> p ∉ ids T -> tree_wf (nova_free_range_node p T).
Proof.
  intros Hwf Hp. split.
  - apply Hwf.
  - intros q Hq. simpl. rewrite dom_delete_L. apply (wf_alloc _ Hwf) in Hq as Hd.
    assert (q <> p) by (intros ->; done). set_solver.
  - intros q Hq. rewrite deref_free by (intros ->; done). by apply Hwf.
  - rewrite ranges_free by done. apply Hwf.
Qed.

Lemma alloc_node_spec T p T' :
  nova_alloc_range_node T = Some (p, T') ->
  p ∉ dom (nodes T) /\ p ∈ dom (nodes T') /\ root T' = root T
  /\ (forall q, q <> p -> deref T' q = deref T q) /\ deref T' p = zero_node.
Proof.
  unfold nova_alloc_range_node. destruct (kmem_cache_zalloc _) as [q|] eqn:Hk; [|done].
  intros [= -> <-]. apply kmem_cache_zalloc_fresh in Hk. split_and!; auto.
  - simpl. rewrite dom_insert_L. set_solver.
  - intros q Hq. unfold deref. simpl. by rewrite lookup_insert_ne.
  - unfold deref. simpl. by rewrite lookup_insert_eq.
Qed.

Lemma wf_alloc_node T p T' :
  tree_wf T -> nova_alloc_range_node T = Some (p, T') ->
  tree_wf T' /\ ids T' = ids T /\ ranges T' = ranges T /\ p ∉ ids T'.
Proof.
  intros Hwf Ha. pose proof Ha as Ha'.
  unfold nova_alloc_range_node in Ha'.
  destruct (kmem_cache_zalloc _) as [q|]; [|done]. injection Ha' as -> HT'.
  destruct (alloc_node_spec _ _ _ Ha) as (Hf & Hin & Hr & Hd & _).
  assert (Hids : ids T' = ids T) by (unfold ids; by rewrite Hr).
  assert (Hp : p ∉ ids T) by (intros Hp; apply Hf; by apply (wf_alloc _ Hwf)).
  assert (Hrg : ranges T' = ranges T).
  { unfold ranges. rewrite Hids. apply map_rng_ext. intros q Hq. apply Hd. by intros ->. }
  split_and!; [|done|done|by rewrite Hids].
  split.
  - rewrite Hids. apply Hwf.
  - rewrite Hids. intros q Hq. rewrite <- HT'. simpl. rewrite dom_insert_L.
    apply elem_of_union_r. by apply Hwf.
  - rewrite Hids. intros q Hq. rewrite Hd by (by intros ->). by apply Hwf.
  - rewrite Hrg. apply Hwf.
Qed.

(** Inserting an allocated, unlinked, checksummed node into a gap. *)
Lemma wf_insert T n l1 l2 :
  tree_wf T -> n ∈ dom (nodes T) -> n ∉ ids T ->
  nova_range_node_checksum_ok (deref T n) = true ->
  ids T = l1 ++ l2 ->
  sorted_from (-1) ((rng T <$> l1) ++ rng T n :: (rng T <$> l2)) ->
  exists T', nova_insert_range_node T n NODE_BLOCK = (0, T')
    /\ tree_wf T' /\ ids T' = l1 ++ n :: l2 /\ nodes T' = nodes T
    /\ ranges T' = (rng T <$> l1) ++ rng T n :: (rng T <$> l2).
Proof.
  intros Hwf Hn Hni Hcs E Hs.
  assert (Hab : below T l1 (range_low (deref T n)) /\ above T l2 (range_low (deref T n))).
  { assert (Hs' : sorted_from (-1) (rng T <$> (l1 ++ n :: l2))) by (by rewrite fmap_app).
    apply sorted_below_mid in Hs' as (Hb & Ha & Hle). split; [done|].
    intros q Hq. specialize (Ha q Hq). lia. }
  destruct Hab as [Hb Ha].
  destruct (insert_range_node_spec T n NODE_BLOCK l1 l2) as (t & -> & Et);
    [done|apply Hwf|done..|].
  assert (Hids : ids (set_root t T) = l1 ++ n :: l2) by done.
  assert (Hrg : ranges (set_root t T) = (rng T <$> l1) ++ rng T n :: (rng T <$> l2)).
  { rewrite (ranges_split _ l1 n l2) by done. done. }
  exists (set_root t T). split_and!; try done.
  pose proof (wf_nodup _ Hwf) as Hnd. rewrite E in Hnd, Hni. split.
  - rewrite Hids. rewrite <- Permutation_middle. by apply NoDup_cons.
  - rewrite Hids. intros q. rewrite <- Permutation_middle, elem_of_cons, <- E.
    intros [->|Hq]; [done|]. by apply (wf_alloc _ Hwf).
  - rewrite Hids. intros q. rewrite <- Permutation_middle, elem_of_cons, <- E.
    intros [->|Hq]; [done|]. by apply (wf_csum _ Hwf).
  - by rewrite Hrg.
Qed.

(** Destruction: as many iterations as linked nodes are enough. *)
Lemma destroy_loop_spec T l fuel :
  NoDup (ids T) -> ids T = l -> (length l <= fuel)%nat ->
  exists T', destroy_loop fuel (head l) T = Some T' /\ ids T' = []
    /\ dom (nodes T') = dom (nodes T) ∖ list_to_set l.
Proof.
  revert T fuel. induction l as [|p l IH]; simpl; intros T fuel Hnd E Hf.
  { exists T. destruct fuel; split_and!; simpl; auto; set_solver. }
  destruct fuel as [|fuel]; [lia|]. simpl.
  rewrite rb_next_inorder. unfold ids in E at 1. rewrite E. simpl.
  rewrite decide_True by done.
  assert (E' : ids (nova_free_range_node p (rb_erase_node p T)) = l).
  { apply (ids_unlink T p [] l); done. }
  assert (Hnd' : NoDup l).
  { unfold ids in Hnd. rewrite E in Hnd. by apply NoDup_cons in Hnd as [_ ?]. }
  destruct (IH (nova_free_range_node p (rb_erase_node p T)) fuel) as (T' & -> & Hi & Hd);
    [by rewrite E'|done|lia|].
  exists T'. split_and!; [done|done|]. rewrite Hd. simpl. rewrite dom_delete_L. set_solver.
Qed.
End preserve.
