(* ===== verification/RangeTreeTheorems.v ===== *)
(** The properties of the range-node trees: search, insertion, destruction. *)

From S2P Require Import Prelude.
From S2P Require Import Kernel.
From S2P Require Import Checksum.
From S2P Require Import RangeTree.
From S2P Require Import RangeTreeSpec.

Section theorems.
Context {RB : RbOps} {KM : KmemOps} {CR : CrcOps} {MP : ModParams}.
Context {RBL : RbLaws} {KML : KmemLaws}.

(** C8. [nova_find_range_node] decides membership: on a well-formed tree of
    blocks or inode numbers, of any shape, it returns 1 with the node that
    holds the key when some node does, and 0 otherwise. *)
Theorem find_range_node_correct T key type r0 :
  tree_wf T -> type <> NODE_DIR ->
  (covers (ranges T) key ->
     exists p, nova_find_range_node T key type r0 = (1, Some p) /\ p ∈ ids T
       /\ range_low (deref T p) <= key <= range_high (deref T p))
  /\ (~ covers (ranges T) key -> fst (nova_find_range_node T key type r0) = 0).
Proof.
  intros Hwf Hty. split; [by apply find_range_node_found|]. intros Hn.
  destruct (find_range_node_wf T key type r0 Hwf Hty)
    as [(p & _ & Hp & Hk)|(l1 & l2 & c & -> & _)]; [|done].
  destruct Hn. apply covers_ranges. eauto.
Qed.

(** C9. [nova_insert_range_node] keeps the tree well formed: a fresh node
    whose range meets no range of the tree is linked at its place and the
    tree holds exactly the old keys and the new ones; a node whose lower end
    is in the tree is refused with -EINVAL and the tree is unchanged. *)
Theorem insert_range_node_correct T n :
  tree_wf T -> n ∈ dom (nodes T) -> n ∉ ids T ->
  nova_range_node_checksum_ok (deref T n) = true ->
  0 <= range_low (deref T n) <= range_high (deref T n) ->
  ((forall x, range_low (deref T n) <= x <= range_high (deref T n) -> ~ covers (ranges T) x) ->
   exists T', nova_insert_range_node T n NODE_BLOCK = (0, T') /\ tree_wf T'
     /\ forall x, covers (ranges T') x <->
          covers (ranges T) x \/ range_low (deref T n) <= x <= range_high (deref T n))
  /\ (covers (ranges T) (range_low (deref T n)) ->
      nova_insert_range_node T n NODE_BLOCK = (- EINVAL, T)).
Proof.
  intros Hwf Hd Hni Hcs Hr. split; [|by apply insert_range_node_exists].
  intros Hfree.
  destruct (find_free_slot_gap T (range_low (deref T n)) (range_high (deref T n)) Hwf)
    as (l1 & l2 & E & Hb & Ha & _); [lia|done|].
  pose proof (wf_sorted _ Hwf) as Hs. unfold ranges in Hs.
  rewrite E, fmap_app, sorted_from_app in Hs. destruct Hs as [Hs1 Hs2].
  destruct (wf_insert T n l1 l2) as (T' & -> & Hwf' & _ & _ & Hr'); auto.
  - rewrite sorted_from_app. split; [done|]. simpl. split_and!; [|lia|].
    + apply last_high_lt; [lia|]. intros r (p & -> & Hp)%list_elem_of_fmap. by apply Hb.
    + eapply sorted_from_lower; [exact Hs2|].
      intros r (p & -> & Hp)%list_elem_of_fmap. by apply Ha.
  - exists T'. split_and!; [done..|]. intros x. rewrite Hr'. unfold ranges.
    rewrite E, fmap_app. unfold rng at 2. autorewrite with ranges. tauto.
Qed.

(** [nova_destroy_range_node_tree] terminates: as many iterations as
    linked nodes suffice, the tree ends empty and exactly its nodes are
    returned to the slab allocator. *)
Theorem destroy_tree_frees T fuel :
  tree_wf T -> (length (ids T) <= fuel)%nat ->
  exists T', nova_destroy_range_node_tree fuel T = Some T' /\ ids T' = []
    /\ dom (nodes T') = dom (nodes T) ∖ list_to_set (ids T).
Proof.
  intros Hwf Hf. unfold nova_destroy_range_node_tree. rewrite rb_first_inorder.
  by apply destroy_loop_spec; [apply Hwf| |].
Qed.
End theorems.

(** ** Instances: the ranges 0..9 and 25..40, and an unlinked node 12..20 *)
Section witnesses.
#[local] Existing Instances Concrete.rb_ops Concrete.rb_laws Concrete.kmem_ops
  Concrete.kmem_laws Concrete.crc_ops Concrete.params.

Definition sample : rtree :=
  RTree (RbNode (RbNode RbLeaf 1%positive RbLeaf) 2%positive RbLeaf)
    (list_to_map [(1%positive, RangeNode 0 0 0 9 0); (2%positive, RangeNode 0 0 25 40 0);
                  (3%positive, RangeNode 0 0 12 20 0)]).

Lemma sample_wf : tree_wf sample.
Proof.
  split.
  - change (ids sample) with [1%positive; 2%positive].
    apply NoDup_cons. split; [set_solver|]. apply NoDup_singleton.
  - intros p Hp. change (ids sample) with [1%positive; 2%positive] in Hp.
    apply elem_of_dom. set_unfold in Hp. destruct Hp as [->|[->|[]]]; by eexists.
  - intros p Hp. done.
  - vm_compute. done.
Qed.

Lemma find_range_node_correct_witness :
  tree_wf sample /\ fst (nova_find_range_node sample 15 NODE_BLOCK None) = 0
  /\ exists p, nova_find_range_node sample 30 NODE_BLOCK None = (1, Some p).
Proof.
  split; [apply sample_wf|]. split.
  - apply (find_range_node_correct sample 15 NODE_BLOCK None sample_wf); [done|].
    change (ranges sample) with [(0, 9); (25, 40)]. autorewrite with ranges. lia.
  - destruct (find_range_node_correct sample 30 NODE_BLOCK None sample_wf) as [H _]; [done|].
    destruct H as (p & E & _); [|by exists p].
    change (ranges sample) with [(0, 9); (25, 40)]. autorewrite with ranges. lia.
Defined.

Lemma insert_range_node_correct_witness :
  exists T', nova_insert_range_node sample 3%positive NODE_BLOCK = (0, T') /\ tree_wf T'.
Proof.
  destruct (insert_range_node_correct sample 3%positive sample_wf) as [H _].
  - apply elem_of_dom. by eexists.
  - change (ids sample) with [1%positive; 2%positive]. set_solver.
  - done.
  - vm_compute. done.
  - destruct H as (T' & E & Hwf & _); [|by exists T'].
    change (range_low (deref sample 3%positive)) with 12.
    change (range_high (deref sample 3%positive)) with 20.
    change (ranges sample) with [(0, 9); (25, 40)]. intros x Hx.
    autorewrite with ranges. lia.
Defined.

Lemma destroy_tree_frees_witness :
  exists T', nova_destroy_range_node_tree 2 sample = Some T' /\ ids T' = [].
Proof.
  destruct (destroy_tree_frees sample 2 sample_wf) as (T' & E & Hi & _).
  - vm_compute. lia.
  - exists T'. split; assumption.
Defined.
End witnesses.
