(* ===== verification/FreeList.v ===== *)
(** One free list (balloc.h, balloc.c): the state of a [struct sub_free_list]
    and the operations made under its spin lock: freeing a run of blocks,
    allocating a run, allocating 2 MB runs.

    A function of balloc.c that first selects a list is split: the selection
    is in Balloc, the critical section here.  A block range is a pair of
    [unsigned long]; the arithmetic wraps at 64 bits ([u64]) and, for the
    margins of the super-page allocator, at 32 bits ([u32]). *)

From S2P Require Import Prelude.
From S2P Require Import Kernel.
From S2P Require Import Checksum.
From S2P Require Import RangeTree.
From S2P Require Import Layout.

Record sub_free_list := SubFreeList {
  block_free_tree : rtree;
  first_node : option ptr;
  last_node : option ptr;
  csum_start : Z;
  replica_csum_start : Z;
  num_csum_blocks : Z;
  parity_start : Z;
  replica_parity_start : Z;
  num_parity_blocks : Z;
  block_start : Z;
  block_end : Z;
  num_free_blocks : Z;
  num_blocknode : Z;
  alloc_count : Z;
  free_count : Z;
  alloc_pages : Z;
  freed_pages : Z
}.

(** Field assignment. *)
Definition set_block_free_tree (v : rtree) (l : sub_free_list) : sub_free_list :=
  SubFreeList v (first_node l) (last_node l) (csum_start l) (replica_csum_start l)
    (num_csum_blocks l) (parity_start l) (replica_parity_start l) (num_parity_blocks l)
    (block_start l) (block_end l) (num_free_blocks l) (num_blocknode l) (alloc_count l)
    (free_count l) (alloc_pages l) (freed_pages l).
Definition set_first_node (v : option ptr) (l : sub_free_list) : sub_free_list :=
  SubFreeList (block_free_tree l) v (last_node l) (csum_start l) (replica_csum_start l)
    (num_csum_blocks l) (parity_start l) (replica_parity_start l) (num_parity_blocks l)
    (block_start l) (block_end l) (num_free_blocks l) (num_blocknode l) (alloc_count l)
    (free_count l) (alloc_pages l) (freed_pages l).
Definition set_last_node (v : option ptr) (l : sub_free_list) : sub_free_list :=
  SubFreeList (block_free_tree l) (first_node l) v (csum_start l) (replica_csum_start l)
    (num_csum_blocks l) (parity_start l) (replica_parity_start l) (num_parity_blocks l)
    (block_start l) (block_end l) (num_free_blocks l) (num_blocknode l) (alloc_count l)
    (free_count l) (alloc_pages l) (freed_pages l).
Definition set_csum_start (v : Z) (l : sub_free_list) : sub_free_list :=
  SubFreeList (block_free_tree l) (first_node l) (last_node l) v (replica_csum_start l)
    (num_csum_blocks l) (parity_start l) (replica_parity_start l) (num_parity_blocks l)
    (block_start l) (block_end l) (num_free_blocks l) (num_blocknode l) (alloc_count l)
    (free_count l) (alloc_pages l) (freed_pages l).
Definition set_replica_csum_start (v : Z) (l : sub_free_list) : sub_free_list :=
  SubFreeList (block_free_tree l) (first_node l) (last_node l) (csum_start l) v
    (num_csum_blocks l) (parity_start l) (replica_parity_start l) (num_parity_blocks l)
    (block_start l) (block_end l) (num_free_blocks l) (num_blocknode l) (alloc_count l)
    (free_count l) (alloc_pages l) (freed_pages l).
Definition set_num_csum_blocks (v : Z) (l : sub_free_list) : sub_free_list :=
  SubFreeList (block_free_tree l) (first_node l) (last_node l) (csum_start l)
    (replica_csum_start l) v (parity_start l) (replica_parity_start l)
    (num_parity_blocks l) (block_start l) (block_end l) (num_free_blocks l)
    (num_blocknode l) (alloc_count l) (free_count l) (alloc_pages l) (freed_pages l).
Definition set_parity_start (v : Z) (l : sub_free_list) : sub_free_list :=
  SubFreeList (block_free_tree l) (first_node l) (last_node l) (csum_start l)
    (replica_csum_start l) (num_csum_blocks l) v (replica_parity_start l)
    (num_parity_blocks l) (block_start l) (block_end l) (num_free_blocks l)
    (num_blocknode l) (alloc_count l) (free_count l) (alloc_pages l) (freed_pages l).
Definition set_replica_parity_start (v : Z) (l : sub_free_list) : sub_free_list :=
  SubFreeList (block_free_tree l) (first_node l) (last_node l) (csum_start l)
    (replica_csum_start l) (num_csum_blocks l) (parity_start l) v (num_parity_blocks l)
    (block_start l) (block_end l) (num_free_blocks l) (num_blocknode l) (alloc_count l)
    (free_count l) (alloc_pages l) (freed_pages l).
Definition set_num_parity_blocks (v : Z) (l : sub_free_list) : sub_free_list :=
  SubFreeList (block_free_tree l) (first_node l) (last_node l) (csum_start l)
    (replica_csum_start l) (num_csum_blocks l) (parity_start l) (replica_parity_start l)
    v (block_start l) (block_end l) (num_free_blocks l) (num_blocknode l)
    (alloc_count l) (free_count l) (alloc_pages l) (freed_pages l).
Definition set_block_start (v : Z) (l : sub_free_list) : sub_free_list :=
  SubFreeList (block_free_tree l) (first_node l) (last_node l) (csum_start l)
    (replica_csum_start l) (num_csum_blocks l) (parity_start l) (replica_parity_start l)
    (num_parity_blocks l) v (block_end l) (num_free_blocks l) (num_blocknode l)
    (alloc_count l) (free_count l) (alloc_pages l) (freed_pages l).
Definition set_block_end (v : Z) (l : sub_free_list) : sub_free_list :=
  SubFreeList (block_free_tree l) (first_node l) (last_node l) (csum_start l)
    (replica_csum_start l) (num_csum_blocks l) (parity_start l) (replica_parity_start l)
    (num_parity_blocks l) (block_start l) v (num_free_blocks l) (num_blocknode l)
    (alloc_count l) (free_count l) (alloc_pages l) (freed_pages l).
Definition set_num_free_blocks (v : Z) (l : sub_free_list) : sub_free_list :=
  SubFreeList (block_free_tree l) (first_node l) (last_node l) (csum_start l)
    (replica_csum_start l) (num_csum_blocks l) (parity_start l) (replica_parity_start l)
    (num_parity_blocks l) (block_start l) (block_end l) v (num_blocknode l)
    (alloc_count l) (free_count l) (alloc_pages l) (freed_pages l).
Definition set_num_blocknode (v : Z) (l : sub_free_list) : sub_free_list :=
  SubFreeList (block_free_tree l) (first_node l) (last_node l) (csum_start l)
    (replica_csum_start l) (num_csum_blocks l) (parity_start l) (replica_parity_start l)
    (num_parity_blocks l) (block_start l) (block_end l) (num_free_blocks l) v
    (alloc_count l) (free_count l) (alloc_pages l) (freed_pages l).
Definition set_alloc_count (v : Z) (l : sub_free_list) : sub_free_list :=
  SubFreeList (block_free_tree l) (first_node l) (last_node l) (csum_start l)
    (replica_csum_start l) (num_csum_blocks l) (parity_start l) (replica_parity_start l)
    (num_parity_blocks l) (block_start l) (block_end l) (num_free_blocks l)
    (num_blocknode l) v (free_count l) (alloc_pages l) (freed_pages l).
Definition set_free_count (v : Z) (l : sub_free_list) : sub_free_list :=
  SubFreeList (block_free_tree l) (first_node l) (last_node l) (csum_start l)
    (replica_csum_start l) (num_csum_blocks l) (parity_start l) (replica_parity_start l)
    (num_parity_blocks l) (block_start l) (block_end l) (num_free_blocks l)
    (num_blocknode l) (alloc_count l) v (alloc_pages l) (freed_pages l).
Definition set_alloc_pages (v : Z) (l : sub_free_list) : sub_free_list :=
  SubFreeList (block_free_tree l) (first_node l) (last_node l) (csum_start l)
    (replica_csum_start l) (num_csum_blocks l) (parity_start l) (replica_parity_start l)
    (num_parity_blocks l) (block_start l) (block_end l) (num_free_blocks l)
    (num_blocknode l) (alloc_count l) (free_count l) v (freed_pages l).
Definition set_freed_pages (v : Z) (l : sub_free_list) : sub_free_list :=
  SubFreeList (block_free_tree l) (first_node l) (last_node l) (csum_start l)
    (replica_csum_start l) (num_csum_blocks l) (parity_start l) (replica_parity_start l)
    (num_parity_blocks l) (block_start l) (block_end l) (num_free_blocks l)
    (num_blocknode l) (alloc_count l) (free_count l) (alloc_pages l) v.

(** [memset(0)] by [kcalloc], with an empty tree. *)
Definition zero_sub_free_list : sub_free_list :=
  SubFreeList empty_rtree None None 0 0 0 0 0 0 0 0 0 0 0 0 0 0.

Inductive nova_alloc_direction := ALLOC_FROM_HEAD | ALLOC_FROM_TAIL.
Inductive nova_alloc_init := ALLOC_NO_INIT | ALLOC_INIT_ZERO.
Inductive alloc_type := LOG | DATA.

#[export] Instance alloc_direction_eq_dec : EqDecision nova_alloc_direction.
Proof. solve_decision. Defined.
#[export] Instance alloc_type_eq_dec : EqDecision alloc_type.
Proof. solve_decision. Defined.

Definition DEAD_ZONE_BLOCKS : Z := 256.
Definition PAGES_PER_2MB : Z := 512.
Definition PAGES_PER_2MB_MASK : Z := 512 - 1.
Definition IS_DATABLOCKS_2MB_ALIGNED (num_blocks : Z) (atype : alloc_type) : bool :=
  (Z.land num_blocks PAGES_PER_2MB_MASK =? 0) && bool_decide (atype = DATA).

Section free_list.
Context {RB : RbOps} {KM : KmemOps} {CR : CrcOps} {MP : ModParams}.

Definition nova_alloc_blocknode (T : rtree) : option (ptr * rtree) :=
  nova_alloc_range_node T.
Definition nova_free_blocknode (p : ptr) (T : rtree) : rtree :=
  nova_free_range_node p T.

(** The node an [rb_node] pointer of this list embeds. *)
Definition node (l : sub_free_list) (p : ptr) : range_node :=
  deref (block_free_tree l) p.

(** A store to node [p], then [nova_update_range_node_checksum]. *)
Definition edit_node (p : ptr) (f : range_node -> range_node)
    (l : sub_free_list) : sub_free_list :=
  set_block_free_tree (store_node p f (block_free_tree l)) l.

Definition erase_node (p : ptr) (l : sub_free_list) : sub_free_list :=
  set_block_free_tree (rb_erase_node p (block_free_tree l)) l.
Definition release_node (p : ptr) (l : sub_free_list) : sub_free_list :=
  set_block_free_tree (nova_free_blocknode p (block_free_tree l)) l.
Definition add_blocknodes (d : Z) (l : sub_free_list) : sub_free_list :=
  set_num_blocknode (u64 (num_blocknode l + d)) l.

(** ** Freeing *)

(** Label [block_found]. *)
Definition block_found (num_blocks : Z) (l : sub_free_list) : sub_free_list :=
  set_freed_pages (u64 (freed_pages l + num_blocks))
    (set_free_count (u64 (free_count l + 1))
       (set_num_free_blocks (u64 (num_free_blocks l + num_blocks)) l)).

(** The three merges and the insertion; returns [ret], the list and
    [new_node_used]. *)
Definition free_merge (l : sub_free_list) (curr_node : ptr)
    (prev next : option ptr) (block_low block_high num_blocks : Z)
    : Z * sub_free_list * bool :=
  let hits_prev :=
    match prev with
    | Some p => block_low =? u64 (range_high (node l p) + 1)
    | None => false
    end in
  let hits_next :=
    match next with
    | Some n => u64 (block_high + 1) =? range_low (node l n)
    | None => false
    end in
  match prev, next, hits_prev, hits_next with
  | Some p, Some n, true, true =>
      (* fits the hole *)
      let l := erase_node n l in
      let l := add_blocknodes (-1) l in
      let l := edit_node p (set_high (range_high (node l n))) l in
      let l := if decide (last_node l = Some n) then set_last_node (Some p) l else l in
      let l := release_node n l in
      (0, block_found num_blocks l, false)
  | Some p, _, true, _ =>
      (* aligns left *)
      let l := edit_node p (fun n => set_high (u64 (range_high n + num_blocks)) n) l in
      (0, block_found num_blocks l, false)
  | _, Some n, _, true =>
      (* aligns right *)
      let l := edit_node n (fun n => set_low (u64 (range_low n - num_blocks)) n) l in
      (0, block_found num_blocks l, false)
  | _, _, _, _ =>
      (* aligns somewhere in the middle *)
      let l := edit_node curr_node
                 (fun n => set_high block_high (set_low block_low n)) l in
      let '(ret, T) := nova_insert_blocktree (block_free_tree l) curr_node in
      if negb (ret =? 0) then (ret, set_block_free_tree T l, false)
      else
        let l := set_block_free_tree T l in
        let l := match prev with None => set_first_node (Some curr_node) l | _ => l end in
        let l := match next with None => set_last_node (Some curr_node) l | _ => l end in
        let l := add_blocknodes 1 l in
        (0, block_found num_blocks l, true)
  end.

(** [nova_free_blocks] once the list is selected. *)
Definition free_blocks_in_list (l : sub_free_list) (blocknr num btype : Z)
    : Z * sub_free_list :=
  match nova_alloc_blocknode (block_free_tree l) with
  | None => (- ENOMEM, l)
  | Some (curr_node, T) =>
      let l := set_block_free_tree T l in
      let num_blocks := u64 (nova_get_numblocks btype * num) in
      let block_low := blocknr in
      let block_high := u64 (blocknr + num_blocks - 1) in
      let '(ret, l, new_node_used) :=
        if (block_low <? block_start l) || (u64 (block_end l + 1) <? block_high)
        then (- EIO, l, false)
        else
          let '(ret, prev, next) :=
            nova_find_free_slot (block_free_tree l) block_low block_high in
          if negb (ret =? 0) then (ret, l, false)
          else free_merge l curr_node prev next block_low block_high num_blocks in
      (ret, if new_node_used : bool then l else release_node curr_node l)
  end.

(** ** Allocation *)

Definition not_enough_blocks (l : sub_free_list) (num_blocks : Z)
    (atype : alloc_type) : bool :=
  match first_node l, last_node l with
  | Some first, Some last =>
      if num_free_blocks l <? num_blocks then true
      else
        bool_decide (atype = LOG)
        && (u64 (range_high (node l last) - range_low (node l first))
            <? DEAD_ZONE_BLOCKS)
  | _, _ => true
  end.

Definition rb_step (dir : nova_alloc_direction) (l : sub_free_list) (p : ptr)
    : option ptr :=
  match dir with
  | ALLOC_FROM_HEAD => rb_next p (root (block_free_tree l))
  | ALLOC_FROM_TAIL => rb_prev p (root (block_free_tree l))
  end.

Definition start_node (dir : nova_alloc_direction) (l : sub_free_list) : option ptr :=
  match dir with ALLOC_FROM_HEAD => first_node l | ALLOC_FROM_TAIL => last_node l end.

Definition curr_blocks_of (l : sub_free_list) (curr : ptr) : Z :=
  u64 (range_high (node l curr) - range_low (node l curr) + 1).

(** The best-effort reduction of [num_blocks] at a node. *)
Definition superpage_request (num_blocks curr_blocks left_margin : Z) : Z :=
  let room := u64 (curr_blocks - left_margin) in
  let aligned := Z.land room (Z.lnot PAGES_PER_2MB_MASK) in
  if (room <? num_blocks) && (0 <? aligned) then aligned else num_blocks.

(** Taking [num_blocks] out of [curr] after [left_margin] blocks; [None] is
    the NULL dereference [rb_prev(NULL)]. *)
Definition superpage_take (l : sub_free_list) (curr : ptr)
    (num_blocks left_margin curr_blocks : Z) : option (Z * Z * sub_free_list) :=
  let saved_range_high := range_high (node l curr) in
  let new_blocknr := u64 (range_low (node l curr) + left_margin) in
  let right_margin := u32 (curr_blocks - left_margin - num_blocks) in
  let l :=
    if negb (left_margin =? 0) then
      edit_node curr (fun n => set_high (u64 (range_low n + left_margin - 1)) n) l
    else l in
  if negb (right_margin =? 0) && negb (left_margin =? 0) then
    match nova_alloc_range_node (block_free_tree l) with
    | None => Some (- ENOMEM, new_blocknr, l)
    | Some (nd, T) =>
        let l := set_block_free_tree T l in
        let low := u64 (range_low (node l curr) + left_margin + num_blocks) in
        let l := edit_node nd (fun n => set_high saved_range_high (set_low low n)) l in
        let l := set_block_free_tree
                   (snd (nova_insert_blocktree (block_free_tree l) nd)) l in
        let l := add_blocknodes 1 l in
        let l := if decide (last_node l = Some curr)
                 then set_last_node (Some nd) l else l in
        Some (num_blocks, new_blocknr, l)
    end
  else if negb (right_margin =? 0) then
    let l := edit_node curr (fun n => set_low (u64 (range_low n + num_blocks)) n) l in
    Some (num_blocks, new_blocknr, l)
  else if left_margin =? 0 then
    let '(l, temp, nd) :=
      if decide (first_node l = Some curr) then
        let next := rb_next curr (root (block_free_tree l)) in
        (set_first_node next l, next, next)
      else (l, Some curr, None) in
    l ← (if decide (last_node l = Some curr) then
           match temp with
           | None => None                       (* rb_prev(NULL) *)
           | Some t =>
               let prev := rb_prev t (root (block_free_tree l)) in
               Some (set_last_node (match prev with None => nd | _ => prev end) l)
           end
         else Some l);
    Some (num_blocks, new_blocknr,
          add_blocknodes (-1) (release_node curr (erase_node curr l)))
  else Some (num_blocks, new_blocknr, l).

(** The [while (temp)] loop: the blocks taken ([0] when no node fits), the
    first of them and the list.  [num_blocks] carries over the iterations,
    as in the code. *)
Fixpoint superpage_loop (fuel : nat) (l : sub_free_list) (temp : option ptr)
    (num_blocks new_blocknr : Z) (from_tail : nova_alloc_direction)
    : option (Z * Z * sub_free_list) :=
  match temp, fuel with
  | None, _ => Some (0, new_blocknr, l)
  | Some _, O => None
  | Some curr, S fuel' =>
      if negb (nova_range_node_checksum_ok (node l curr)) then
        superpage_loop fuel' l (rb_step from_tail l curr) num_blocks new_blocknr from_tail
      else
        let curr_blocks := curr_blocks_of l curr in
        let left_margin :=
          u32 (PAGES_PER_2MB - Z.land (range_low (node l curr)) PAGES_PER_2MB_MASK) in
        let num_blocks := superpage_request num_blocks curr_blocks left_margin in
        if (left_margin <? curr_blocks)
           && (num_blocks <=? u64 (curr_blocks - left_margin))
        then superpage_take l curr num_blocks left_margin curr_blocks
        else
          superpage_loop fuel' l (rb_step from_tail l curr) num_blocks new_blocknr from_tail
  end.

Definition nova_alloc_superpage (fuel : nat) (l : sub_free_list)
    (num_blocks new_blocknr : Z) (from_tail : nova_alloc_direction)
    : option (Z * Z * sub_free_list) :=
  superpage_loop fuel l (start_node from_tail l) num_blocks new_blocknr from_tail.

(** Taking the whole node [curr], or a part of it; returns the blocks taken,
    the first one and the list. *)
Definition alloc_take (l : sub_free_list) (curr : ptr) (num_blocks : Z)
    (from_tail : nova_alloc_direction) : Z * Z * sub_free_list :=
  let curr_blocks := curr_blocks_of l curr in
  if curr_blocks <=? num_blocks then
    let l := if decide (first_node l = Some curr)
             then set_first_node (rb_next curr (root (block_free_tree l))) l else l in
    let l := if decide (last_node l = Some curr)
             then set_last_node (rb_prev curr (root (block_free_tree l))) l else l in
    let l := add_blocknodes (-1) (erase_node curr l) in
    let new_blocknr := range_low (node l curr) in
    (curr_blocks, new_blocknr, release_node curr l)
  else
    match from_tail with
    | ALLOC_FROM_HEAD =>
        (num_blocks, range_low (node l curr),
         edit_node curr (fun n => set_low (u64 (range_low n + num_blocks)) n) l)
    | ALLOC_FROM_TAIL =>
        (num_blocks, u64 (range_high (node l curr) + 1 - num_blocks),
         edit_node curr (fun n => set_high (u64 (range_high n - num_blocks)) n) l)
    end.

(** The unaligned [while (temp)] loop; [found = false] when it runs off the
    tree.  Result: [(found, num_blocks, new_blocknr, list)]. *)
Fixpoint alloc_loop (fuel : nat) (l : sub_free_list) (temp : option ptr)
    (btype num_blocks new_blocknr : Z) (from_tail : nova_alloc_direction)
    : option (bool * Z * Z * sub_free_list) :=
  match temp, fuel with
  | None, _ => Some (false, num_blocks, new_blocknr, l)
  | Some _, O => None
  | Some curr, S fuel' =>
      let next := rb_step from_tail l curr in
      if negb (nova_range_node_checksum_ok (node l curr)) then
        alloc_loop fuel' l next btype num_blocks new_blocknr from_tail
      else if (0 <? btype) && (curr_blocks_of l curr <? num_blocks) then
        alloc_loop fuel' l next btype num_blocks new_blocknr from_tail
      else
        let '(n, b, l') := alloc_take l curr num_blocks from_tail in
        Some (true, n, b, l')
  end.

(** [nova_alloc_blocks_in_free_list]: result, [*new_blocknr], list. *)
Definition nova_alloc_blocks_in_free_list (fuel : nat) (l : sub_free_list)
    (btype : Z) (atype : alloc_type) (num_blocks new_blocknr : Z)
    (from_tail : nova_alloc_direction) : option (Z * Z * sub_free_list) :=
  if bool_decide (first_node l = None) || (num_free_blocks l =? 0) then
    Some (- ENOSPC, new_blocknr, l)
  else if bool_decide (atype = LOG) && not_enough_blocks l num_blocks atype then
    Some (- ENOSPC, new_blocknr, l)
  else
    '(ret_blocks, new_blocknr, l') ←
      (if IS_DATABLOCKS_2MB_ALIGNED num_blocks atype
       then nova_alloc_superpage fuel l num_blocks new_blocknr from_tail
       else Some (0, new_blocknr, l));
    if (0 <? ret_blocks) && negb (new_blocknr =? 0) then
      Some (ret_blocks, new_blocknr,
            set_num_free_blocks (u64 (num_free_blocks l' - ret_blocks)) l')
    else
      '(found, num_blocks, new_blocknr, l'') ←
        alloc_loop fuel l' (start_node from_tail l) btype num_blocks new_blocknr from_tail;
      if num_free_blocks l'' <? num_blocks then Some (- ENOSPC, new_blocknr, l'')
      else if (found : bool) then
        Some (num_blocks, new_blocknr,
              set_num_free_blocks (u64 (num_free_blocks l'' - num_blocks)) l'')
      else Some (- ENOSPC, new_blocknr, l'').
End free_list.
