(* ===== verification/FreeListSpec.v ===== *)
(** The invariant of a free list and the behaviour of its operations, stated on
    the set of free blocks. *)

From S2P Require Import Prelude.
From S2P Require Import Kernel.
From S2P Require Import Checksum.
From S2P Require Import RangeTree.
From S2P Require Import RangeTreeSpec.
From S2P Require Import Layout.
From S2P Require Import FreeList.

Section inv.
Context {RB : RbOps} {KM : KmemOps} {CR : CrcOps} {MP : ModParams}.

Definition fids (l : sub_free_list) : list ptr := ids (block_free_tree l).
Definition franges (l : sub_free_list) : list (Z * Z) := ranges (block_free_tree l).

(** Block [x] is free. *)
Definition is_free (l : sub_free_list) (x : Z) : Prop := covers (franges l) x.

(** [d] is the number of blocks already taken out of the tree but still
    counted in [num_free_blocks]; between operations it is 0. *)
Record list_inv (d : Z) (l : sub_free_list) : Prop := {
  li_tree : tree_wf (block_free_tree l);
  li_first : first_node l = head (fids l);
  li_last : last_node l = last (fids l);
  li_nodes : num_blocknode l = Z.of_nat (length (fids l));
  li_count : num_free_blocks l = total (franges l) + d;
  li_bounds : 0 <= block_start l <= block_end l + 1 /\ block_end l < TWO31 - 1;
  li_in : forall r, r ∈ franges l -> block_start l <= r.1 /\ r.2 <= block_end l
}.

Definition list_wf : sub_free_list -> Prop := list_inv 0.

(** The fields an operation on the tree leaves alone. *)
Definition same_frame (l l' : sub_free_list) : Prop :=
  block_start l' = block_start l /\ block_end l' = block_end l
  /\ csum_start l' = csum_start l /\ num_csum_blocks l' = num_csum_blocks l.

#[export] Instance same_frame_preorder : PreOrder same_frame.
Proof. split; [done|]. intros x y z (?&?&?&?) (?&?&?&?). unfold same_frame. split_and!; congruence. Qed.

Lemma is_free_node l x :
  is_free l x <-> exists p, p ∈ fids l /\ range_low (node l p) <= x <= range_high (node l p).
Proof. apply covers_ranges. Qed.

Lemma rng_node l p :
  rng (block_free_tree l) p = (range_low (node l p), range_high (node l p)).
Proof. done. Qed.

Lemma rng_in l p : p ∈ fids l -> (range_low (node l p), range_high (node l p)) ∈ franges l.
Proof. intros Hp. unfold franges, ranges. apply list_elem_of_fmap. by exists p. Qed.

Lemma node_bounds d l p :
  list_inv d l -> p ∈ fids l ->
  block_start l <= range_low (node l p) <= range_high (node l p)
  /\ range_high (node l p) <= block_end l.
Proof.
  intros Hw Hp. destruct (li_in _ _ Hw _ (rng_in _ _ Hp)). simpl in *.
  pose proof (wf_range_le _ _ (li_tree _ _ Hw) Hp). unfold node in *. lia.
Qed.

Lemma node_csum_ok d l p :
  list_inv d l -> p ∈ fids l -> nova_range_node_checksum_ok (node l p) = true.
Proof. intros Hw Hp. apply (wf_csum _ (li_tree _ _ Hw) _ Hp). Qed.

Lemma curr_blocks_val d l p :
  list_inv d l -> p ∈ fids l ->
  curr_blocks_of l p = range_high (node l p) - range_low (node l p) + 1.
Proof.
  intros Hw Hp. pose proof (node_bounds _ _ _ Hw Hp). pose proof (li_bounds _ _ Hw).
  unfold curr_blocks_of. wrap. done.
Qed.

Lemma total_length b l : sorted_from b l -> Z.of_nat (length l) <= total l.
Proof.
  revert b. induction l as [|[lo hi] l IH]; cbn [total sorted_from length]; intros b; [lia|].
  intros (? & ? & Hs). specialize (IH _ Hs). lia.
Qed.

Lemma sorted_start d l : list_inv d l -> sorted_from (block_start l - 1) (franges l).
Proof.
  intros Hw. eapply sorted_from_lower; [apply (li_tree _ _ Hw)|].
  intros r Hr. destruct (li_in _ _ Hw r Hr). lia.
Qed.

Lemma total_max d l : list_inv d l ->
  0 <= Z.of_nat (length (fids l)) <= total (franges l)
  /\ total (franges l) <= block_end l - block_start l + 1.
Proof.
  intros Hw. pose proof (sorted_start _ _ Hw) as Hs.
  pose proof (total_length _ _ Hs) as Ht. pose proof (total_bound _ _ Hs) as Hb.
  assert (length (franges l) = length (fids l)) as El by apply length_fmap.
  rewrite El in Ht.
  enough (last_high (block_start l - 1) (franges l) < block_end l + 1) by lia.
  pose proof (li_bounds _ _ Hw). apply last_high_lt; [lia|].
  intros r Hr. destruct (li_in _ _ Hw r Hr). lia.
Qed.

(** [n] blocks from [b] left the list: what an allocation does. *)
Record taken (l : sub_free_list) (n b : Z) (l' : sub_free_list) : Prop := {
  tk_pos : 0 < n;
  tk_inv : list_inv n l';
  tk_count : num_free_blocks l' = num_free_blocks l;
  tk_frame : same_frame l l';
  tk_was_free : forall x, b <= x < b + n -> is_free l x;
  tk_free : forall x, is_free l' x <-> is_free l x /\ ~ (b <= x < b + n);
  tk_in : block_start l <= b /\ b + n <= block_end l + 1
}.
End inv.

#[export] Hint Extern 1 (tree_wf _) => (eapply li_tree; eassumption) : freelist.

Section tree_edits.
Context {RB : RbOps} {KM : KmemOps} {CR : CrcOps} {MP : ModParams}.
Context {RBL : RbLaws} {KML : KmemLaws}.

(** Absorbing the next node: [rb_erase], the store to [range_high], the
    release. *)
Lemma merge_hole T l1 p n l2 :
  tree_wf T -> ids T = l1 ++ p :: n :: l2 ->
  let T' := nova_free_range_node n
              (store_node p (set_high (range_high (deref T n))) (rb_erase_node n T)) in
  tree_wf T' /\ ids T' = l1 ++ p :: l2
  /\ ranges T' = (rng T <$> l1)
       ++ (range_low (deref T p), range_high (deref T n)) :: (rng T <$> l2).
Proof.
  intros Hwf E T'. assert (E' : ids T = (l1 ++ [p]) ++ n :: l2) by (by rewrite <- app_assoc).
  pose proof (wf_split_notin _ _ _ _ Hwf E') as [Hn1 Hn2].
  pose proof (wf_unlink _ _ _ _ Hwf E') as Hwf1.
  pose proof (ids_unlink _ _ _ _ (wf_nodup _ Hwf) E') as E1. rewrite <- app_assoc in E1.
  pose proof (wf_sorted _ Hwf) as Hs.
  rewrite (ranges_split _ _ _ _ E), fmap_cons, sorted_from_app in Hs.
  simpl in Hs. destruct Hs as (Hs1 & Hp1 & Hp2 & Hn3 & Hn4 & Hs2).
  assert (Hwf2 : tree_wf (store_node p (set_high (range_high (deref T n))) (rb_erase_node n T))).
  { eapply wf_store; [done|exact E1|]. rewrite sorted_from_app. split; [exact Hs1|].
    simpl. split_and!; [exact Hp1| |exact Hs2].
    change (deref (rb_erase_node n T) p) with (deref T p). lia. }
  assert (Hni : n ∉ ids (store_node p (set_high (range_high (deref T n))) (rb_erase_node n T))).
  { rewrite ids_store, E1. set_solver. }
  split_and!.
  - by apply wf_free.
  - unfold T', ids. simpl. rewrite root_store. exact E1.
  - unfold T'. rewrite ranges_free by done. by rewrite (ranges_store _ _ _ _ _ Hwf1 E1).
Qed.

(** Growing or shrinking one node in place. *)
Lemma resize_node T l1 p l2 f :
  tree_wf T -> ids T = l1 ++ p :: l2 ->
  sorted_from (-1) ((rng T <$> l1)
    ++ (range_low (f (deref T p)), range_high (f (deref T p))) :: (rng T <$> l2)) ->
  tree_wf (store_node p f T) /\ ids (store_node p f T) = l1 ++ p :: l2
  /\ ranges (store_node p f T) = (rng T <$> l1)
       ++ (range_low (f (deref T p)), range_high (f (deref T p))) :: (rng T <$> l2).
Proof.
  intros Hwf E Hs. split_and!.
  - by eapply wf_store.
  - by rewrite ids_store.
  - by apply ranges_store.
Qed.

(** Storing to a node that is not linked. *)
Lemma wf_store_unlinked T n f :
  tree_wf T -> n ∉ ids T ->
  tree_wf (store_node n f T) /\ ids (store_node n f T) = ids T
  /\ (forall l : list ptr, n ∉ l -> rng (store_node n f T) <$> l = rng T <$> l)
  /\ ranges (store_node n f T) = ranges T.
Proof.
  intros Hwf Hni. assert (Hr : ranges (store_node n f T) = ranges T)
    by (unfold ranges; rewrite ids_store; by apply rng_store_ne).
  split_and!; [|by apply ids_store|intros; by apply rng_store_ne|done]. split.
  - rewrite ids_store. apply Hwf.
  - intros q. rewrite ids_store, dom_store. intros Hq. apply elem_of_union_r. by apply Hwf.
  - intros q. rewrite ids_store, deref_store. intros Hq. case_decide; [apply refreshed_ok|]. by apply Hwf.
  - rewrite Hr. apply Hwf.
Qed.

(** Filling an unlinked node and inserting it into a gap. *)
Lemma insert_filled T n f l1 l2 :
  tree_wf T -> n ∈ dom (nodes T) -> n ∉ ids T -> ids T = l1 ++ l2 ->
  sorted_from (-1) ((rng T <$> l1)
    ++ (range_low (f (deref T n)), range_high (f (deref T n))) :: (rng T <$> l2)) ->
  exists T', nova_insert_blocktree (store_node n f T) n = (0, T')
    /\ tree_wf T' /\ ids T' = l1 ++ n :: l2
    /\ (forall q, deref T' q = deref (store_node n f T) q)
    /\ ranges T' = (rng T <$> l1)
         ++ (range_low (f (deref T n)), range_high (f (deref T n))) :: (rng T <$> l2).
Proof.
  intros Hwf Hd Hni E Hs. destruct (wf_store_unlinked T n f Hwf Hni) as (Hwf1 & _ & Hm & _).
  rewrite E in Hni. pose proof (Hm l1 ltac:(set_solver)) as Hm1.
  pose proof (Hm l2 ltac:(set_solver)) as Hm2.
  destruct (wf_insert (store_node n f T) n l1 l2) as (T' & Hins & Hwf' & Hi & Hnd & Hr); auto.
  - rewrite dom_store. set_solver.
  - rewrite ids_store, E. set_solver.
  - rewrite deref_store, decide_True by done. apply refreshed_ok.
  - by rewrite ids_store.
  - by rewrite Hm1, Hm2, rng_store_eq.
  - exists T'. split_and!; auto.
    + intros q. unfold deref. by rewrite Hnd.
    + by rewrite Hr, Hm1, Hm2, rng_store_eq.
Qed.
End tree_edits.

(** ** Freeing *)
Section freeing.
Context {RB : RbOps} {KM : KmemOps} {CR : CrcOps} {MP : ModParams}.
Context {RBL : RbLaws} {KML : KmemLaws}.

(** [num] blocks from [low] joined the list. *)
Record freed (l : sub_free_list) (num low : Z) (l' : sub_free_list) : Prop := {
  fr_inv : list_wf l';
  fr_count : num_free_blocks l' = num_free_blocks l + num;
  fr_frame : same_frame l l';
  fr_free : forall x, is_free l' x <-> is_free l x \/ low <= x < low + num
}.

Lemma in_of_cover T lo hi :
  tree_wf T -> (forall x, covers (ranges T) x -> lo <= x <= hi) ->
  forall r, r ∈ ranges T -> lo <= r.1 /\ r.2 <= hi.
Proof.
  intros Hwf Hc r Hr. destruct r as [a b].
  destruct (sorted_from_bounds _ _ _ _ (wf_sorted _ Hwf) Hr) as (_ & ? & _).
  assert (covers (ranges T) a) by (exists (a, b); simpl; split; [done|lia]).
  assert (covers (ranges T) b) by (exists (a, b); simpl; split; [done|lia]).
  simpl. split; [apply (Hc a)|apply (Hc b)]; done.
Qed.

Lemma is_free_bounds d l x : list_inv d l -> is_free l x -> block_start l <= x <= block_end l.
Proof.
  intros Hw (r & Hr & ?). destruct (li_in _ _ Hw r Hr). lia.
Qed.

Lemma list_inv_release d l p :
  list_inv d l -> p ∉ fids l -> list_inv d (release_node p l).
Proof.
  intros Hw Hp. pose proof (ranges_free (block_free_tree l) p Hp) as Hr.
  destruct Hw. split; try done.
  - by apply wf_free.
  - unfold franges. simpl. unfold nova_free_blocknode. rewrite Hr. done.
  - unfold franges. simpl. unfold nova_free_blocknode. rewrite Hr. done.
Qed.

Lemma is_free_release l p x : p ∉ fids l -> is_free (release_node p l) x <-> is_free l x.
Proof.
  intros Hp. unfold is_free, franges. simpl. unfold nova_free_blocknode.
  by rewrite (ranges_free _ _ Hp).
Qed.

Lemma freed_intro l l' low num :
  list_wf l -> 0 < num -> block_start l <= low -> low + num - 1 <= block_end l ->
  tree_wf (block_free_tree l') -> first_node l' = head (fids l') ->
  last_node l' = last (fids l') ->
  num_blocknode l' = Z.of_nat (length (fids l')) ->
  num_free_blocks l' = u64 (num_free_blocks l + num) ->
  total (franges l') = total (franges l) + num -> same_frame l l' ->
  (forall x, is_free l' x <-> is_free l x \/ low <= x < low + num) ->
  freed l num low l'.
Proof.
  intros Hw Hn Hlo Hhi Ht Hf Hl Hb Hc Htot Hfr Hfree.
  pose proof Hfr as (Ebs & Ebe & _).
  pose proof (li_bounds _ _ Hw) as [? ?]. pose proof (total_max _ _ Hw) as [? ?].
  pose proof (li_count _ _ Hw) as Hc0.
  assert (Hin : forall r, r ∈ franges l' -> block_start l' <= r.1 /\ r.2 <= block_end l').
  { apply in_of_cover; [done|]. intros x Hx. rewrite Ebs, Ebe.
    apply Hfree in Hx as [Hx|Hx]; [|lia]. by apply (is_free_bounds _ _ _ Hw). }
  assert (Htm : total (franges l') <= block_end l - block_start l + 1).
  { rewrite <- Ebs, <- Ebe.
    assert (Hs : sorted_from (block_start l' - 1) (franges l')).
    { eapply sorted_from_lower; [apply (wf_sorted _ Ht)|].
      intros r Hr. destruct (Hin r Hr). lia. }
    pose proof (total_bound _ _ Hs).
    enough (last_high (block_start l' - 1) (franges l') < block_end l' + 1) by lia.
    apply last_high_lt; [lia|]. intros r Hr. destruct (Hin r Hr). lia. }
  assert (Hc' : num_free_blocks l' = num_free_blocks l + num) by (rewrite Hc; wrap; done).
  split; try done. split; try done.
  - rewrite Hc', Htot, Hc0. lia.
  - rewrite Ebs, Ebe. done.
Qed.

Lemma head_app_cons {A} (l1 : list A) x l2 :
  head (l1 ++ x :: l2) = match head l1 with Some y => Some y | None => Some x end.
Proof. by destruct l1. Qed.

Lemma total_mid l1 a b l2 : total (l1 ++ (a, b) :: l2) = total l1 + total l2 + (b - a + 1).
Proof. rewrite total_app. simpl. lia. Qed.

(** The freed range extends node [p], below or above it. *)
Lemma freed_extends l l' low num la p lb lo' hi' :
  list_wf l -> 0 < num -> block_start l <= low -> low + num - 1 <= block_end l ->
  fids l = la ++ p :: lb ->
  tree_wf (block_free_tree l') -> fids l' = la ++ p :: lb ->
  franges l' = (rng (block_free_tree l) <$> la) ++ (lo', hi') :: (rng (block_free_tree l) <$> lb) ->
  (lo' = range_low (node l p) /\ hi' = range_high (node l p) + num
     /\ low = range_high (node l p) + 1 \/
   lo' = range_low (node l p) - num /\ hi' = range_high (node l p)
     /\ low + num = range_low (node l p)) ->
  first_node l' = first_node l -> last_node l' = last_node l ->
  num_blocknode l' = num_blocknode l ->
  num_free_blocks l' = u64 (num_free_blocks l + num) -> same_frame l l' ->
  freed l num low l'.
Proof.
  intros Hw Hnum Hlo Hhi Ef Hwf' Ef' Er' Hext H1 H2 H3 H4 H5.
  assert (Er : franges l = (rng (block_free_tree l) <$> la) ++ rng (block_free_tree l) p :: (rng (block_free_tree l) <$> lb))
    by (apply ranges_split, Ef).
  assert (Hle : range_low (node l p) <= range_high (node l p)).
  { apply (node_bounds _ _ p Hw). rewrite Ef. set_solver. }
  apply freed_intro; auto.
  - by rewrite H1, Ef', (li_first _ _ Hw), Ef.
  - by rewrite H2, Ef', (li_last _ _ Hw), Ef.
  - by rewrite H3, Ef', (li_nodes _ _ Hw), Ef.
  - rewrite Er, Er'. rewrite (rng_node l p), !total_mid. lia.
  - intros x. unfold is_free. rewrite Er, Er', (rng_node l p).
    autorewrite with ranges. intuition lia.
Qed.

Section gap.
Context (l : sub_free_list) (curr : ptr) (l1 l2 : list ptr) (low num : Z).
Context (Hw : list_wf l) (E : fids l = l1 ++ l2).
Context (Hcd : curr ∈ dom (nodes (block_free_tree l))) (Hcn : curr ∉ fids l).
Context (Hb : below (block_free_tree l) l1 low).
Context (Ha : above (block_free_tree l) l2 (low + num - 1)).
Context (Hnum : 0 < num) (Hlo : block_start l <= low) (Hhi : low + num - 1 <= block_end l).

Abbreviation T := (block_free_tree l).

Lemma gap_sorted a b :
  (forall p, p ∈ l1 -> range_high (node l p) < a) -> 0 <= a -> a <= b ->
  (forall p, p ∈ l2 -> b < range_low (node l p)) ->
  sorted_from (-1) ((rng T <$> l1) ++ (a, b) :: (rng T <$> l2)).
Proof.
  intros Hp1 Ha0 Hab Hp2. pose proof (wf_sorted _ (li_tree _ _ Hw)) as Hs.
  unfold ranges in Hs. fold (fids l) in Hs.
  rewrite E, fmap_app, sorted_from_app in Hs. destruct Hs as [Hs1 Hs2].
  rewrite sorted_from_app. split; [done|]. simpl. split_and!; [|done|].
  - apply last_high_lt; [lia|]. intros r (p & -> & Hp)%list_elem_of_fmap. by apply Hp1.
  - eapply sorted_from_lower; [exact Hs2|].
    intros r (p & -> & Hp)%list_elem_of_fmap. by apply Hp2.
Qed.

Lemma gap_free x : is_free l x <-> covers (rng T <$> l1) x \/ covers (rng T <$> l2) x.
Proof.
  unfold is_free, franges, ranges. fold (fids l).
  by rewrite E, fmap_app, covers_app.
Qed.

Lemma gap_total : total (franges l) = total (rng T <$> l1) + total (rng T <$> l2).
Proof. unfold franges, ranges. fold (fids l). by rewrite E, fmap_app, total_app. Qed.

(** The new block range becomes (part of) one range of the list. *)
Lemma free_new_node :
  exists T',
    nova_insert_blocktree
      (store_node curr (fun n => set_high (low + num - 1) (set_low low n)) T) curr = (0, T')
    /\ (forall a b n l',
          a = match last l1 with None => Some curr | _ => first_node l end ->
          b = match head l2 with None => Some curr | _ => last_node l end ->
          n = u64 (num_blocknode l + 1) ->
          block_free_tree l' = T' -> first_node l' = a -> last_node l' = b ->
          num_blocknode l' = n ->
          num_free_blocks l' = u64 (num_free_blocks l + num) -> same_frame l l' ->
          freed l num low l').
Proof.
  pose proof (li_bounds _ _ Hw) as [Hbs Hbe]. pose proof (total_max _ _ Hw) as [Hlen Htot].
  destruct (insert_filled T curr (fun n => set_high (low + num - 1) (set_low low n)) l1 l2)
    as (T' & -> & Hwf' & Hi & _ & Hr); auto.
  { apply Hw. } { apply gap_sorted; simpl; auto; lia. }
  simpl in Hr. exists T'. split; [done|].
  intros a b n l' -> -> -> HT Hf Hl Hn Hc Hfr.
  assert (Ef : fids l' = l1 ++ curr :: l2) by (unfold fids; by rewrite HT).
  assert (Er : franges l' = (rng T <$> l1) ++ (low, low + num - 1) :: (rng T <$> l2))
    by (unfold franges; by rewrite HT).
  apply freed_intro; auto.
  - by rewrite HT.
  - rewrite Hf, Ef, (li_first _ _ Hw), E. destruct l1 as [|q l1'] using rev_ind; [done|].
    rewrite last_snoc. by destruct l1'.
  - rewrite Hl, Ef, (li_last _ _ Hw), E, !last_app_cons.
    destruct l2 as [|q l2']; [done|]. simpl. by rewrite last_app_cons.
  - rewrite Hn, Ef, (li_nodes _ _ Hw), E, !length_app. simpl.
    rewrite E, length_app in Hlen. wrap. lia.
  - rewrite Er, total_mid, gap_total. lia.
  - intros x. rewrite gap_free. unfold is_free. rewrite Er.
    autorewrite with ranges. intuition lia.
Qed.

Lemma free_aligns_left l1' p :
  l1 = l1' ++ [p] -> range_high (node l p) + 1 = low ->
  freed l num low
    (block_found num
       (edit_node p (fun n => set_high (u64 (range_high n + num)) n) l)).
Proof.
  intros -> Hp. pose proof (li_bounds _ _ Hw) as [Hbs Hbe].
  rewrite <- app_assoc in E. simpl in E.
  pose proof (node_bounds _ _ p Hw ltac:(rewrite E; set_solver)) as Hpb.
  pose proof (wf_sorted _ (li_tree _ _ Hw)) as Hs.
  fold (franges l) in Hs. unfold franges in Hs. rewrite (ranges_split _ _ _ _ E) in Hs.
  rewrite sorted_from_app in Hs. simpl in Hs. destruct Hs as (Hs1 & Hs2 & Hs3 & Hs4).
  destruct (resize_node T l1' p l2 (fun n => set_high (u64 (range_high n + num)) n))
    as (Hwf' & Hi & Hr); [apply Hw|done| |].
  { simpl. change (deref T p) with (node l p) in *. wrap.
    rewrite sorted_from_app. simpl. split_and!; [done|done|lia|].
    eapply sorted_from_lower; [exact Hs4|].
    intros r (q & -> & Hq)%list_elem_of_fmap. specialize (Ha q Hq). simpl. lia. }
  simpl in Hr. change (deref T p) with (node l p) in Hr. wrap_in Hr.
  match goal with |- freed _ _ _ ?r => set (l' := r) end.
  apply (freed_extends l l' low num l1' p l2 _ _ Hw Hnum Hlo Hhi E Hwf' Hi Hr); try done.
  left. split_and!; done || lia.
Qed.

Lemma free_aligns_right p l2' :
  l2 = p :: l2' -> low + num = range_low (node l p) ->
  freed l num low
    (block_found num
       (edit_node p (fun n => set_low (u64 (range_low n - num)) n) l)).
Proof.
  intros -> Hp. pose proof (li_bounds _ _ Hw) as [Hbs Hbe].
  pose proof (node_bounds _ _ p Hw ltac:(rewrite E; set_solver)) as Hpb.
  destruct (resize_node T l1 p l2' (fun n => set_low (u64 (range_low n - num)) n))
    as (Hwf' & Hi & Hr); [apply Hw|done| |].
  { simpl. change (deref T p) with (node l p). wrap.
    pose proof (wf_sorted _ (li_tree _ _ Hw)) as Hs.
    rewrite (ranges_split _ _ _ _ E) in Hs.
    rewrite sorted_from_app in Hs. simpl in Hs. destruct Hs as (Hs1 & Hs2 & Hs3 & Hs4).
    rewrite sorted_from_app. simpl. split_and!; [done| |lia|done].
    apply last_high_lt; [lia|]. intros r (q & -> & Hq)%list_elem_of_fmap.
    specialize (Hb q Hq). simpl. lia. }
  simpl in Hr. change (deref T p) with (node l p) in Hr. wrap_in Hr.
  match goal with |- freed _ _ _ ?r => set (l' := r) end.
  apply (freed_extends l l' low num l1 p l2' _ _ Hw Hnum Hlo Hhi E Hwf' Hi Hr); try done.
  right. split_and!; done || lia.
Qed.

(** The freed range fills the hole between two nodes. *)
Lemma free_fits_hole l1' p n l2' l' :
  l1 = l1' ++ [p] -> l2 = n :: l2' ->
  range_high (node l p) + 1 = low -> low + num = range_low (node l n) ->
  block_free_tree l' =
    nova_free_range_node n (store_node p (set_high (range_high (node l n))) (rb_erase_node n T)) ->
  first_node l' = first_node l ->
  last_node l' = (if decide (last_node l = Some n) then Some p else last_node l) ->
  num_blocknode l' = u64 (num_blocknode l - 1) ->
  num_free_blocks l' = u64 (num_free_blocks l + num) -> same_frame l l' ->
  freed l num low l'.
Proof.
  intros -> -> Hp Hn HT Hf Hl Hk Hc Hfr. pose proof (li_bounds _ _ Hw) as [Hbs Hbe].
  rewrite <- app_assoc in E. simpl in E.
  assert (Hpi : p ∈ fids l /\ n ∈ fids l) by (rewrite E; set_solver).
  pose proof (node_bounds _ _ p Hw (proj1 Hpi)) as Hpb.
  pose proof (node_bounds _ _ n Hw (proj2 Hpi)) as Hnb.
  destruct (total_max _ _ Hw) as [Hlen Htot].
  destruct (merge_hole T l1' p n l2') as (Hwf' & Hi & Hr); [apply Hw|done|].
  change (deref T ?q) with (node l q) in Hwf', Hi, Hr. rewrite <- HT in Hwf', Hi, Hr.
  assert (Er : franges l = (rng T <$> l1') ++ rng T p :: rng T n :: (rng T <$> l2'))
    by (unfold franges; by rewrite (ranges_split _ _ _ _ E)).
  apply freed_intro; auto.
  - unfold fids. rewrite Hf, Hi, (li_first _ _ Hw), E. by destruct l1'.
  - unfold fids. rewrite Hl, Hi, (li_last _ _ Hw), E, !last_app_cons.
    destruct l2' as [|q l2']; simpl.
    + by rewrite decide_True.
    + rewrite decide_False; [done|]. intros Heq.
      pose proof (wf_nodup _ (li_tree _ _ Hw)) as Hnd. fold (fids l) in Hnd.
      rewrite E in Hnd. apply NoDup_app in Hnd as (_ & _ & Hnd).
      apply NoDup_cons in Hnd as [_ Hnd]. apply NoDup_cons in Hnd as [Hnd _].
      apply Hnd. apply last_Some_elem_of. exact Heq.
  - unfold fids. rewrite Hk, Hi, (li_nodes _ _ Hw), E, !length_app. cbn [length].
    rewrite E, length_app in Hlen. cbn [length] in Hlen. wrap. lia.
  - unfold franges at 1. rewrite Hr, Er, (rng_node l p), (rng_node l n), !total_mid.
    simpl. lia.
  - intros x. unfold is_free. rewrite Er. unfold franges. rewrite Hr.
    rewrite (rng_node l p), (rng_node l n). autorewrite with ranges. intuition lia.
Qed.
End gap.
End freeing.

Section free_ops.
Context {RB : RbOps} {KM : KmemOps} {CR : CrcOps} {MP : ModParams}.
Context {RBL : RbLaws} {KML : KmemLaws}.

(** Reusing a node never links the pre-allocated one. *)
Lemma hole_ids l p n curr num f :
  tree_wf (block_free_tree l) -> n ∈ fids l -> curr ∉ fids l ->
  curr ∉ fids
    (block_found num (release_node n
       (let l0 := edit_node p f (add_blocknodes (-1) (erase_node n l)) in
        if decide (last_node l0 = Some n) then set_last_node (Some p) l0 else l0))).
Proof.
  intros Hwf Hn Hc. apply list_elem_of_split in Hn as (a & b & E).
  pose proof (ids_unlink _ _ _ _ (wf_nodup _ Hwf) E) as Eu.
  intros Hin. apply Hc. rewrite E.
  assert (Hin' : curr ∈ ids (rb_erase_node n (block_free_tree l))).
  { unfold fids in Hin. revert Hin. simpl.
    case_decide; unfold ids; simpl; by rewrite root_store. }
  rewrite Eu in Hin'. set_solver.
Qed.

(** The four cases of the merge, for the neighbours of a gap. *)
Lemma free_merge_ok l curr l1 l2 low num :
  list_wf l -> curr ∈ dom (nodes (block_free_tree l)) -> curr ∉ fids l ->
  fids l = l1 ++ l2 ->
  below (block_free_tree l) l1 low -> above (block_free_tree l) l2 (low + num - 1) ->
  0 < num -> block_start l <= low -> low + num - 1 <= block_end l ->
  exists l' used,
    free_merge l curr (last l1) (head l2) low (low + num - 1) num = (0, l', used)
    /\ freed l num low l' /\ (used = false -> curr ∉ fids l').
Proof.
  intros Hw Hcd Hcn E Hb Ha Hnum Hlo Hhi.
  pose proof (li_bounds _ _ Hw) as [Hbs Hbe].
  assert (Hpb : forall p, p ∈ fids l -> 0 <= range_high (node l p) < TWO31).
  { intros p Hp. pose proof (node_bounds _ _ p Hw Hp). lia. }
  destruct (free_new_node l curr l1 l2 low num) as (T' & Hins & Hnew); auto.
  unfold free_merge.
  replace (u64 (low + num - 1 + 1)) with (low + num) by (wrap; lia).
  assert (Hlast : forall p, last l1 = Some p -> p ∈ fids l).
  { intros p (l' & ->)%last_Some. rewrite E. set_solver. }
  assert (Hhead : forall n, head l2 = Some n -> n ∈ fids l).
  { intros n Hn. rewrite E. destruct l2; simplify_eq/=. set_solver. }
  assert (Hp1 : forall p, last l1 = Some p ->
    (low =? u64 (range_high (node l p) + 1)) = (low =? range_high (node l p) + 1)).
  { intros p Hp. specialize (Hpb p (Hlast p Hp)). by wrap. }
  destruct (last l1) as [p|] eqn:El1, (head l2) as [n|] eqn:El2.
  - rewrite (Hp1 p) by done.
    destruct (Z.eqb_spec low (range_high (node l p) + 1)) as [Ep|Ep].
    + apply last_Some in El1 as (l1' & ->).
      destruct (Z.eqb_spec (low + num) (range_low (node l n))) as [En|En];
        (eexists _, false; split; [reflexivity|]; split).
      * destruct l2 as [|n' l2']; [done|]. injection El2 as ->.
        eapply (free_fits_hole l curr (l1' ++ [p]) (n :: l2') low num);
          first [done | lia | simpl; by case_decide].
      * intros _. apply hole_ids; [apply Hw|by apply Hhead|done].
      * by eapply (free_aligns_left l curr (l1' ++ [p]) l2).
      * intros _. unfold fids. simpl. by rewrite ids_store.
    + destruct (Z.eqb_spec (low + num) (range_low (node l n))) as [En|En].
      * eexists _, false. split; [reflexivity|]. split.
        -- destruct l2 as [|n' l2']; [done|]. injection El2 as ->.
           by eapply (free_aligns_right l curr l1 (n :: l2')).
        -- intros _. unfold fids. simpl. by rewrite ids_store.
      * simpl. rewrite Hins. eexists _, true. split; [reflexivity|]. split; [|done].
        by eapply Hnew.
  - rewrite (Hp1 p) by done.
    destruct (Z.eqb_spec low (range_high (node l p) + 1)) as [Ep|Ep].
    + apply last_Some in El1 as (l1' & ->).
      eexists _, false; split; [reflexivity|]; split.
      * by eapply (free_aligns_left l curr (l1' ++ [p]) l2).
      * intros _. unfold fids. simpl. by rewrite ids_store.
    + simpl. rewrite Hins. eexists _, true. split; [reflexivity|]. split; [|done].
      by eapply Hnew.
  - destruct (Z.eqb_spec (low + num) (range_low (node l n))) as [En|En].
    + eexists _, false. split; [reflexivity|]. split.
      * destruct l2 as [|n' l2']; [done|]. injection El2 as ->.
        by eapply (free_aligns_right l curr l1 (n :: l2')).
      * intros _. unfold fids. simpl. by rewrite ids_store.
    + simpl. rewrite Hins. eexists _, true. split; [reflexivity|]. split; [|done].
      by eapply Hnew.
  - simpl. rewrite Hins. eexists _, true. split; [reflexivity|]. split; [|done].
    by eapply Hnew.
Qed.

Lemma release_alloc T p T' :
  nova_alloc_range_node T = Some (p, T') -> nova_free_range_node p T' = T.
Proof.
  unfold nova_alloc_range_node. destruct (kmem_cache_zalloc _) as [q|] eqn:Hk; [|done].
  intros [= -> <-]. apply kmem_cache_zalloc_fresh in Hk.
  unfold nova_free_range_node. simpl. rewrite delete_insert_id; [by destruct T|].
  by apply not_elem_of_dom.
Qed.

(** A pre-allocated node that is not used leaves the list as it was. *)
Lemma release_unused l p T' :
  nova_alloc_blocknode (block_free_tree l) = Some (p, T') ->
  release_node p (set_block_free_tree T' l) = l.
Proof.
  intros Ha. unfold release_node, nova_free_blocknode. simpl.
  rewrite (release_alloc _ _ _ Ha). by destruct l.
Qed.

Lemma list_inv_alloc d l p T' :
  list_inv d l -> nova_alloc_blocknode (block_free_tree l) = Some (p, T') ->
  list_inv d (set_block_free_tree T' l) /\ p ∈ dom (nodes T')
  /\ p ∉ fids (set_block_free_tree T' l)
  /\ franges (set_block_free_tree T' l) = franges l.
Proof.
  intros Hw Ha. destruct (wf_alloc_node _ _ _ (li_tree _ _ Hw) Ha) as (Hwf & Hi & Hr & Hp).
  destruct (alloc_node_spec _ _ _ Ha) as (_ & Hd & _ & _).
  assert (Er : franges (set_block_free_tree T' l) = franges l) by exact Hr.
  assert (Ei : fids (set_block_free_tree T' l) = fids l) by exact Hi.
  split_and!; [|done|exact Hp|done].
  destruct Hw. split; rewrite ?Er, ?Ei; done.
Qed.

Lemma numblocks_pos btype : 0 < nova_get_numblocks btype <= 0x40000.
Proof. unfold nova_get_numblocks. repeat case_match; lia. Qed.

Lemma free_blocks_in_list_ok l blocknr num btype :
  list_wf l -> is_Some (nova_alloc_blocknode (block_free_tree l)) ->
  0 < num -> block_start l <= blocknr ->
  blocknr + nova_get_numblocks btype * num - 1 <= block_end l ->
  (forall x, blocknr <= x < blocknr + nova_get_numblocks btype * num -> ~ is_free l x) ->
  exists l', free_blocks_in_list l blocknr num btype = (0, l')
    /\ freed l (nova_get_numblocks btype * num) blocknr l'.
Proof.
  intros Hw [[p T'] Hal] Hnum Hlo Hhi Hnf. unfold free_blocks_in_list. rewrite Hal.
  destruct (list_inv_alloc _ _ _ _ Hw Hal) as (Hw1 & Hpd & Hpn & Er).
  pose proof (li_bounds _ _ Hw) as [Hbs Hbe]. pose proof (numblocks_pos btype).
  set (n := nova_get_numblocks btype * num) in *. assert (0 < n) by nia.
  set (l1 := set_block_free_tree T' l) in *.
  rewrite (u64_small n) by lia. rewrite (u64_small (blocknr + n - 1)) by lia.
  change (block_start l1) with (block_start l). change (block_end l1) with (block_end l).
  rewrite (u64_small (block_end l + 1)) by lia.
  rewrite (proj2 (Z.ltb_ge _ _)) by lia. rewrite (proj2 (Z.ltb_ge _ _)) by lia.
  simpl orb. cbv iota.
  destruct (find_free_slot_gap (block_free_tree l1) blocknr (blocknr + n - 1))
    as (k1 & k2 & E & Hb & Ha & ->); [apply Hw1|lia| |].
  { intros x Hx Hc. apply (Hnf x); [lia|]. unfold is_free. by rewrite <- Er. }
  simpl negb. cbv iota.
  destruct (free_merge_ok l1 p k1 k2 blocknr n) as (l' & used & -> & Hf & Hu); auto.
  assert (Hf' : forall l'', freed l1 n blocknr l'' -> freed l n blocknr l'').
  { intros l'' []. split; auto. intros x. rewrite fr_free0. unfold is_free at 1. by rewrite Er. }
  destruct used; eexists; split; try reflexivity; auto.
  apply Hf'. destruct Hf. split; auto.
  - apply list_inv_release; auto.
  - intros x. rewrite is_free_release by auto. apply fr_free0.
Qed.

(** Outside the range of the list. *)
Lemma free_blocks_in_list_range l blocknr num btype :
  is_Some (nova_alloc_blocknode (block_free_tree l)) ->
  let n := u64 (nova_get_numblocks btype * num) in
  blocknr < block_start l \/ u64 (block_end l + 1) < u64 (blocknr + n - 1) ->
  free_blocks_in_list l blocknr num btype = (- EIO, l).
Proof.
  intros [[p T'] Hal] n Hr. unfold free_blocks_in_list. rewrite Hal. fold n.
  simpl block_start. simpl block_end.
  assert ((blocknr <? block_start l) || (u64 (block_end l + 1) <? u64 (blocknr + n - 1)) = true)
    as ->.
  { destruct Hr; [rewrite (proj2 (Z.ltb_lt _ _)) by done; done|].
    apply orb_true_iff. right. by apply Z.ltb_lt. }
  by rewrite (release_unused _ _ _ Hal).
Qed.

(** The first block is already free. *)
Lemma free_blocks_in_list_double l blocknr num btype :
  list_wf l -> is_Some (nova_alloc_blocknode (block_free_tree l)) ->
  is_free l blocknr ->
  u64 (blocknr + u64 (nova_get_numblocks btype * num) - 1) <= block_end l ->
  free_blocks_in_list l blocknr num btype = (- EINVAL, l).
Proof.
  intros Hw [[p T'] Hal] Hf Hr. unfold free_blocks_in_list. rewrite Hal.
  destruct (list_inv_alloc _ _ _ _ Hw Hal) as (Hw1 & Hpd & Hpn & Er).
  pose proof (is_free_bounds _ _ _ Hw Hf). pose proof (li_bounds _ _ Hw).
  simpl block_start. simpl block_end. rewrite (u64_small (block_end l + 1)) by lia.
  rewrite (proj2 (Z.ltb_ge _ _)) by lia. rewrite (proj2 (Z.ltb_ge _ _)) by lia.
  simpl orb. cbv iota. rewrite find_free_slot_covered; [|apply Hw1|].
  - simpl. by rewrite (release_unused _ _ _ Hal).
  - change (covers (franges (set_block_free_tree T' l)) blocknr). by rewrite Er.
Qed.
End free_ops.

(** ** Allocation *)
Section allocating.
Context {RB : RbOps} {KM : KmemOps} {CR : CrcOps} {MP : ModParams}.
Context {RBL : RbLaws} {KML : KmemLaws}.

Lemma taken_intro l l' n b :
  list_wf l -> 0 < n ->
  tree_wf (block_free_tree l') -> first_node l' = head (fids l') ->
  last_node l' = last (fids l') ->
  num_blocknode l' = Z.of_nat (length (fids l')) ->
  num_free_blocks l' = num_free_blocks l ->
  total (franges l') = total (franges l) - n -> same_frame l l' ->
  (forall x, b <= x < b + n -> is_free l x) ->
  (forall x, is_free l' x <-> is_free l x /\ ~ (b <= x < b + n)) ->
  taken l n b l'.
Proof.
  intros Hw Hn Ht Hf Hl Hb Hc Htot Hfr Hwas Hfree.
  pose proof Hfr as (Ebs & Ebe & _).
  assert (Hin : forall r, r ∈ franges l' -> block_start l' <= r.1 /\ r.2 <= block_end l').
  { apply in_of_cover; [done|]. intros x Hx. rewrite Ebs, Ebe.
    apply Hfree in Hx as [Hx _]. by apply (is_free_bounds _ _ _ Hw). }
  split; try done.
  - split; try done.
    + rewrite Hc, Htot, (li_count _ _ Hw). lia.
    + rewrite Ebs, Ebe. apply Hw.
  - pose proof (is_free_bounds _ _ _ Hw (Hwas b ltac:(lia))).
    pose proof (is_free_bounds _ _ _ Hw (Hwas (b + n - 1) ltac:(lia))). lia.
Qed.

Section at_node.
Context (l : sub_free_list) (l1 : list ptr) (curr : ptr) (l2 : list ptr).
Context (Hw : list_wf l) (E : fids l = l1 ++ curr :: l2).

Abbreviation T := (block_free_tree l).
Abbreviation lo := (range_low (node l curr)).
Abbreviation hi := (range_high (node l curr)).

Lemma at_node_ranges :
  franges l = (rng T <$> l1) ++ (lo, hi) :: (rng T <$> l2).
Proof. unfold franges. by rewrite (ranges_split _ _ _ _ E). Qed.

Lemma at_node_bounds : 0 <= lo <= hi /\ hi < TWO31 - 1.
Proof.
  pose proof (node_bounds _ _ curr Hw ltac:(rewrite E; set_solver)).
  pose proof (li_bounds _ _ Hw). lia.
Qed.

Lemma at_node_disjoint x :
  lo <= x <= hi -> ~ covers (rng T <$> l1) x /\ ~ covers (rng T <$> l2) x.
Proof.
  intros Hx. pose proof (wf_sorted _ (li_tree _ _ Hw)) as Hs.
  fold (franges l) in Hs. rewrite at_node_ranges, sorted_from_app in Hs.
  simpl in Hs. destruct Hs as (Hs1 & Hs2 & Hs3 & Hs4).
  split; intros Hc; eapply covers_lower in Hc; eauto; lia.
Qed.

Ltac node_cases x :=
  let Hx := fresh in
  destruct (decide (lo <= x <= hi)) as [Hx|Hx];
    [destruct (at_node_disjoint x Hx)|]; intuition lia.

(** The whole node leaves the list. *)
Lemma take_whole l' :
  block_free_tree l' = nova_free_range_node curr (rb_erase_node curr T) ->
  first_node l' = (if decide (first_node l = Some curr) then head l2 else first_node l) ->
  last_node l' = (if decide (last_node l = Some curr) then last l1 else last_node l) ->
  num_blocknode l' = u64 (num_blocknode l - 1) ->
  num_free_blocks l' = num_free_blocks l -> same_frame l l' ->
  taken l (hi - lo + 1) lo l'.
Proof.
  intros HT Hf Hl Hk Hc Hfr. pose proof at_node_bounds.
  destruct (wf_split_notin _ _ _ _ (li_tree _ _ Hw) E) as [Hn1 Hn2].
  pose proof (li_bounds _ _ Hw) as Hbd. destruct (total_max _ _ Hw) as [Hlen Htot].
  pose proof (wf_unlink _ _ _ _ (li_tree _ _ Hw) E) as Hwf1.
  pose proof (ids_unlink _ _ _ _ (wf_nodup _ (li_tree _ _ Hw)) E) as Hi.
  assert (Hni : curr ∉ ids (rb_erase_node curr T)) by (rewrite Hi; set_solver).
  assert (Ei : fids l' = l1 ++ l2) by (unfold fids; rewrite HT; exact Hi).
  assert (Er : franges l' = (rng T <$> l1) ++ (rng T <$> l2)).
  { unfold franges. rewrite HT, ranges_free by done.
    apply ranges_unlink; [apply Hw|done]. }
  apply taken_intro; auto; try lia.
  - rewrite HT. by apply wf_free.
  - rewrite Hf, Ei, (li_first _ _ Hw), E. destruct l1 as [|q l1']; simpl.
    + by rewrite decide_True.
    + rewrite decide_False; [done|]. intros [= ->]. set_solver.
  - rewrite Hl, Ei, (li_last _ _ Hw), E, last_app_cons.
    destruct (last (curr :: l2)) as [q|] eqn:Eq; [|by apply last_None in Eq].
    destruct l2 as [|q' l2']; simplify_eq/=.
    + by rewrite decide_True, app_nil_r.
    + rewrite last_app_cons. rewrite decide_False; [done|]. intros [= ->].
      apply Hn2. by apply last_Some_elem_of.
  - rewrite Hk, Ei, (li_nodes _ _ Hw), E, !length_app. cbn [length].
    rewrite E, length_app in Hlen. cbn [length] in Hlen. wrap. lia.
  - rewrite Er, at_node_ranges, total_mid, total_app. lia.
  - intros x Hx. unfold is_free. rewrite at_node_ranges.
    autorewrite with ranges. right; left. lia.
  - intros x. unfold is_free. rewrite Er, at_node_ranges. autorewrite with ranges.
    node_cases x.
Qed.

(** The node shrinks to [lo', hi'], giving up [n] blocks at one end. *)
Lemma take_part f n b l' :
  block_free_tree l' = store_node curr f T ->
  (range_low (f (node l curr)) = lo + n /\ range_high (f (node l curr)) = hi /\ b = lo \/
   range_low (f (node l curr)) = lo /\ range_high (f (node l curr)) = hi - n
     /\ b = hi + 1 - n) ->
  0 < n < hi - lo + 1 ->
  first_node l' = first_node l -> last_node l' = last_node l ->
  num_blocknode l' = num_blocknode l -> num_free_blocks l' = num_free_blocks l ->
  same_frame l l' -> taken l n b l'.
Proof.
  intros HT Hcase Hn Hf Hl Hk Hc Hfr. pose proof at_node_bounds.
  pose proof (wf_sorted _ (li_tree _ _ Hw)) as Hs.
  fold (franges l) in Hs. rewrite at_node_ranges, sorted_from_app in Hs.
  simpl in Hs. destruct Hs as (Hs1 & Hs2 & Hs3 & Hs4).
  destruct (resize_node T l1 curr l2 f) as (Hwf' & Hi & Hr); [apply Hw|done| |].
  { change (deref T curr) with (node l curr). rewrite sorted_from_app. simpl.
    split_and!; [done|lia|lia|]. eapply sorted_from_lower; [exact Hs4|].
    intros r (q & -> & Hq)%list_elem_of_fmap.
    assert (Hin : rng T q ∈ rng T <$> l2) by (apply list_elem_of_fmap; eauto).
    destruct (sorted_from_bounds _ _ _ _ Hs4 Hin). simpl in *. lia. }
  rewrite <- HT in Hwf', Hi, Hr. change (deref T curr) with (node l curr) in Hr.
  apply taken_intro; auto; try lia.
  - unfold fids. by rewrite Hf, Hi, (li_first _ _ Hw), E.
  - unfold fids. by rewrite Hl, Hi, (li_last _ _ Hw), E.
  - unfold fids. by rewrite Hk, Hi, (li_nodes _ _ Hw), E.
  - unfold franges at 1. rewrite Hr, at_node_ranges, !total_mid. lia.
  - intros x Hx. unfold is_free. rewrite at_node_ranges.
    autorewrite with ranges. right; left. lia.
  - intros x. unfold is_free. rewrite at_node_ranges. unfold franges. rewrite Hr.
    autorewrite with ranges. node_cases x.
Qed.
End at_node.
End allocating.

Section alloc_ops.
Context {RB : RbOps} {KM : KmemOps} {CR : CrcOps} {MP : ModParams}.
Context {RBL : RbLaws} {KML : KmemLaws}.

Definition node_size (l : sub_free_list) (p : ptr) : Z :=
  range_high (node l p) - range_low (node l p) + 1.

Lemma rb_next_at l l1 curr l2 :
  tree_wf (block_free_tree l) -> fids l = l1 ++ curr :: l2 ->
  rb_next curr (root (block_free_tree l)) = head l2.
Proof.
  intros Hwf E. destruct (wf_split_notin _ _ _ _ Hwf E).
  rewrite rb_next_inorder. unfold fids, ids in E. rewrite E. by apply next_in_mid.
Qed.

Lemma rb_prev_at l l1 curr l2 :
  tree_wf (block_free_tree l) -> fids l = l1 ++ curr :: l2 ->
  rb_prev curr (root (block_free_tree l)) = last l1.
Proof.
  intros Hwf E. destruct (wf_split_notin _ _ _ _ Hwf E).
  rewrite rb_prev_inorder. unfold fids, ids in E. rewrite E. by apply prev_in_mid.
Qed.

Lemma alloc_take_ok l l1 curr l2 num dir :
  list_wf l -> fids l = l1 ++ curr :: l2 -> 0 < num ->
  exists n b l', alloc_take l curr num dir = (n, b, l')
    /\ taken l n b l' /\ n = Z.min num (node_size l curr)
    /\ range_low (node l curr) <= b.
Proof.
  intros Hw E Hnum. pose proof (at_node_bounds _ _ _ _ Hw E) as Hnb.
  pose proof (li_tree _ _ Hw) as Hwf. unfold alloc_take.
  rewrite (curr_blocks_val _ _ curr Hw) by (rewrite E; set_solver). unfold node_size.
  case_match eqn:Hle; zbool.
  - rewrite (rb_next_at _ _ _ _ Hwf E).
    assert (Hprev : forall v, rb_prev curr (root (block_free_tree (set_first_node v l))) = last l1)
      by (intros; apply (rb_prev_at _ _ _ _ Hwf E)).
    destruct (decide (first_node l = Some curr)) as [Ef|Ef];
      cbn [last_node set_first_node];
      destruct (decide (last_node l = Some curr)) as [El|El];
      (eexists _, _, _; split; [reflexivity|]; split; [|split; [lia|simpl; done]]);
      apply (take_whole l l1 curr l2); try done; simpl;
      rewrite ?decide_True, ?decide_False by done; try done;
      first [apply Hprev | apply (rb_prev_at _ _ _ _ Hwf E)].
  - destruct dir; (eexists _, _, _; split; [reflexivity|]; split; [|split; [lia|]]).
    + eapply (take_part l l1 curr l2 Hw E); try done.
      left. simpl. wrap. done.
    + lia.
    + eapply (take_part l l1 curr l2 Hw E); try done.
      right. simpl. wrap. done.
    + wrap. lia.
Qed.

(** The nodes still to visit, in visiting order. *)
Definition visiting (dir : nova_alloc_direction) (l : sub_free_list) (rem : list ptr) : Prop :=
  match dir with
  | ALLOC_FROM_HEAD => exists k, fids l = k ++ rem
  | ALLOC_FROM_TAIL => exists k, fids l = reverse rem ++ k
  end.

Lemma visiting_start dir l :
  list_wf l -> exists rem, visiting dir l rem /\ start_node dir l = head rem
    /\ length rem = length (fids l) /\ forall p, p ∈ rem <-> p ∈ fids l.
Proof.
  intros Hw. destruct dir; simpl.
  - exists (fids l). split_and!; [by exists []|apply Hw|done|done].
  - exists (reverse (fids l)). rewrite reverse_involutive, length_reverse.
    split_and!; [exists []; by rewrite app_nil_r| |done|].
    + by rewrite head_reverse, (li_last _ _ Hw).
    + intros p. apply elem_of_reverse.
Qed.

Lemma visiting_step dir l p rem :
  list_wf l -> visiting dir l (p :: rem) ->
  rb_step dir l p = head rem /\ visiting dir l rem
  /\ exists l1 l2, fids l = l1 ++ p :: l2.
Proof.
  intros Hw. pose proof (li_tree _ _ Hw) as Hwf. destruct dir; simpl; intros [k E].
  - split_and!; [by apply (rb_next_at _ k)|exists (k ++ [p]); by rewrite <- app_assoc|eauto].
  - rewrite reverse_cons, <- app_assoc in E. simpl in E.
    split_and!; [rewrite (rb_prev_at _ _ _ _ Hwf E); apply last_reverse|eauto|eauto].
Qed.

(** The unaligned walk: as much fuel as nodes is enough. *)
Lemma alloc_loop_ok l btype num nb dir rem fuel :
  list_wf l -> 0 < num -> visiting dir l rem -> (length rem <= fuel)%nat ->
  exists found n b l',
    alloc_loop fuel l (head rem) btype num nb dir = Some (found, n, b, l')
    /\ if found : bool then taken l n b l' /\ n <= num /\ (0 < btype -> n = num)
       else l' = l /\ n = num /\ b = nb
            /\ forall p, p ∈ rem -> 0 < btype /\ node_size l p < num.
Proof.
  intros Hw Hnum. revert fuel. induction rem as [|p rem IH]; intros fuel Hv Hf.
  { exists false, num, nb, l. destruct fuel; simpl; split_and!; auto; set_solver. }
  destruct fuel as [|fuel]; simpl in Hf; [lia|].
  destruct (visiting_step _ _ _ _ Hw Hv) as (Hs & Hv' & l1 & l2 & E).
  assert (Hp : p ∈ fids l) by (rewrite E; set_solver).
  simpl. rewrite (node_csum_ok _ _ _ Hw Hp). simpl.
  rewrite (curr_blocks_val _ _ _ Hw Hp), Hs. fold (node_size l p).
  case_match eqn:Hc; zbool.
  - destruct (IH fuel Hv') as (found & n & b & l' & -> & Hres); [lia|].
    exists found, n, b, l'. split; [done|]. destruct found; [done|].
    destruct Hres as (? & ? & ? & Hr). split_and!; auto.
    intros q [->|Hq]%elem_of_cons; auto.
  - destruct (alloc_take_ok l l1 p l2 num dir Hw E Hnum) as (n & b & l' & -> & Ht & Hn & _).
    exists true, n, b, l'. split_and!; auto; [lia|].
    intros Hb. apply andb_false_iff in Hc as [Hc|Hc]; zbool; lia.
Qed.

(** Cutting a node in two around a hole. *)
Lemma split_node T l1 curr l2 h a nd T2 :
  tree_wf T -> ids T = l1 ++ curr :: l2 ->
  let lo := range_low (deref T curr) in let hi := range_high (deref T curr) in
  lo <= h -> h < a <= hi ->
  nova_alloc_range_node (store_node curr (set_high h) T) = Some (nd, T2) ->
  exists T', nova_insert_blocktree
               (store_node nd (fun n => set_high hi (set_low a n)) T2) nd = (0, T')
    /\ tree_wf T' /\ ids T' = l1 ++ curr :: nd :: l2 /\ nd <> curr
    /\ ranges T' = (rng T <$> l1) ++ (lo, h) :: (a, hi) :: (rng T <$> l2).
Proof.
  intros Hwf E lo hi Hlo Ha Hal. pose proof (wf_sorted _ Hwf) as Hs.
  rewrite (ranges_split _ _ _ _ E), sorted_from_app in Hs.
  simpl in Hs. destruct Hs as (Hs1 & Hs2 & Hs3 & Hs4). fold lo hi in Hs2, Hs3, Hs4.
  destruct (resize_node T l1 curr l2 (set_high h)) as (Hwf1 & Hi1 & Hr1); [done|done| |].
  { rewrite sorted_from_app. simpl. fold lo. split_and!; [done|lia|lia|].
    eapply sorted_from_weaken; [|done]. lia. }
  destruct (wf_alloc_node _ _ _ Hwf1 Hal) as (Hwf2 & Hi2 & Hr2 & Hn2).
  destruct (alloc_node_spec _ _ _ Hal) as (_ & Hd & _ & Hde & _).
  rewrite Hi1 in Hi2. rewrite Hr1 in Hr2. simpl in Hr2. fold lo in Hr2.
  rewrite (ranges_split _ _ _ _ Hi2) in Hr2.
  apply app_inj_1 in Hr2 as [Em1 Em2]; [|by rewrite !length_fmap]. injection Em2 as Ec1 Ec2 Em2.
  assert (Hne : nd <> curr) by (intros ->; apply Hn2; rewrite Hi2; set_solver).
  destruct (insert_filled T2 nd (fun n => set_high hi (set_low a n)) (l1 ++ [curr]) l2)
    as (T' & -> & Hwf' & Hi' & _ & Hr'); auto.
  { by rewrite Hi2, <- app_assoc. }
  { simpl. rewrite fmap_app, <- app_assoc, Em1, Em2. simpl. unfold rng at 2.
    rewrite Ec1, Ec2, sorted_from_app. simpl. split_and!; try done; lia. }
  exists T'. split_and!; auto.
  - by rewrite Hi', <- app_assoc.
  - rewrite Hr'. simpl. rewrite fmap_app, <- app_assoc, Em1, Em2. simpl. unfold rng at 2.
    by rewrite Ec1, Ec2.
Qed.
End alloc_ops.
