(* ===== verification/AllocSpec.v ===== *)
(** Allocation from a free list: the 2 MB-aligned walk of
    [nova_alloc_superpage] and the whole of
    [nova_alloc_blocks_in_free_list]. *)

From S2P Require Import Prelude.
From S2P Require Import Kernel.
From S2P Require Import Checksum.
From S2P Require Import RangeTree.
From S2P Require Import RangeTreeSpec.
From S2P Require Import Layout.
From S2P Require Import FreeList.
From S2P Require Import FreeListSpec.

Section superpage.
Context {RB : RbOps} {KM : KmemOps} {CR : CrcOps} {MP : ModParams}.
Context {RBL : RbLaws} {KML : KmemLaws}.

Lemma land_511 x : Z.land x PAGES_PER_2MB_MASK = x mod 512.
Proof. change PAGES_PER_2MB_MASK with (Z.ones 9). by rewrite Z.land_ones. Qed.

Lemma land_not_511 x : Z.land x (Z.lnot PAGES_PER_2MB_MASK) = x - x mod 512.
Proof.
  change PAGES_PER_2MB_MASK with (Z.ones 9).
  rewrite <- Z.ldiff_land, Z.ldiff_ones_r, Z.shiftl_mul_pow2, Z.shiftr_div_pow2 by lia.
  change (2 ^ 9) with 512. pose proof (Z.div_mod x 512). lia.
Qed.

(** The margin up to the next 2 MB boundary: never 0, even at a boundary. *)
Definition left_margin_of (low : Z) : Z :=
  u32 (PAGES_PER_2MB - Z.land low PAGES_PER_2MB_MASK).

Lemma left_margin_range low :
  1 <= left_margin_of low <= 512 /\ (low + left_margin_of low) mod 512 = 0.
Proof.
  unfold left_margin_of, PAGES_PER_2MB. rewrite land_511.
  pose proof (Z.mod_pos_bound low 512). rewrite u32_small by lia.
  split; [lia|]. rewrite (Z.div_mod low 512) at 1 by lia.
  replace (512 * (low / 512) + low mod 512 + (512 - low mod 512))
    with ((low / 512 + 1) * 512) by lia.
  by rewrite Z.mod_mul.
Qed.

(** What the reduced request is when the guard holds, and when it does not. *)
Lemma superpage_request_ok num cb lm :
  0 < num < TWO31 -> num mod 512 = 0 -> 0 < cb < TWO31 -> 1 <= lm <= 512 ->
  let n := superpage_request num cb lm in
  if (lm <? cb) && (n <=? u64 (cb - lm))
  then 0 < n <= num /\ n mod 512 = 0 /\ lm + n <= cb
  else n = num /\ cb - lm < 512.
Proof.
  intros Hnum Hal Hcb Hlm n. unfold n, superpage_request.
  destruct (Z.ltb_spec lm cb) as [Hlt|Hge]; cbn [andb].
  - rewrite u64_small by lia. rewrite land_not_511.
    pose proof (Z.mod_pos_bound (cb - lm) 512). pose proof (Z.mod_le (cb - lm) 512).
    assert (((cb - lm) - (cb - lm) mod 512) mod 512 = 0).
    { rewrite Zminus_mod_idemp_r. by rewrite Z.sub_diag. }
    destruct (Z.ltb_spec (cb - lm) num) as [Hr|Hr]; cbn [andb].
    + destruct (Z.ltb_spec 0 (cb - lm - (cb - lm) mod 512)) as [Ha|Ha].
      * rewrite (proj2 (Z.leb_le _ _)) by lia. split_and!; done || lia.
      * rewrite (proj2 (Z.leb_gt _ _)) by lia. split; [done|].
        destruct (Z_lt_le_dec (cb - lm) 512); [done|].
        assert ((cb - lm) mod 512 < 512) by (apply Z.mod_pos_bound; lia). lia.
    + rewrite (proj2 (Z.leb_le _ _)) by lia. split_and!; done || lia.
  - destruct (Z.eq_dec cb lm) as [->|].
    + rewrite Z.sub_diag. change (u64 0) with 0.
      change (0 <? Z.land 0 _) with false. rewrite andb_false_r. split; [done|lia].
    + rewrite u64_neg by lia. rewrite (proj2 (Z.ltb_ge _ num)) by lia. split; [done|lia].
Qed.

(** A node cut in two: the middle [num] blocks leave the list. *)
Lemma take_middle l l1 curr l2 nd num lm l' :
  list_wf l -> fids l = l1 ++ curr :: l2 -> 0 < num -> 1 <= lm ->
  lm + num < node_size l curr -> nd <> curr ->
  tree_wf (block_free_tree l') -> fids l' = l1 ++ curr :: nd :: l2 ->
  franges l' = (rng (block_free_tree l) <$> l1)
    ++ (range_low (node l curr), range_low (node l curr) + lm - 1)
    :: (range_low (node l curr) + lm + num, range_high (node l curr))
    :: (rng (block_free_tree l) <$> l2) ->
  first_node l' = first_node l ->
  last_node l' = (if decide (last_node l = Some curr) then Some nd else last_node l) ->
  num_blocknode l' = u64 (num_blocknode l + 1) ->
  num_free_blocks l' = num_free_blocks l -> same_frame l l' ->
  taken l num (range_low (node l curr) + lm) l'.
Proof.
  intros Hw E Hnum Hlm Hfit Hne Hwf' Hi Hr Hf Hl Hk Hc Hfr.
  pose proof (at_node_bounds _ _ _ _ Hw E) as Hnb. unfold node_size in Hfit.
  pose proof (at_node_ranges _ _ _ _ E) as Er. destruct (total_max _ _ Hw) as [Hlen Htot].
  pose proof (li_bounds _ _ Hw).
  destruct (wf_split_notin _ _ _ _ (li_tree _ _ Hw) E) as [Hn1 Hn2].
  apply taken_intro; auto.
  - rewrite Hf, Hi, (li_first _ _ Hw), E. by destruct l1.
  - rewrite Hl, Hi, (li_last _ _ Hw), E, !last_app_cons.
    destruct l2 as [|q l2']; [by rewrite decide_True|].
    rewrite decide_False; [by rewrite !last_cons_cons|]. intros Heq. apply Hn2.
    apply last_Some_elem_of. by rewrite last_cons_cons in Heq.
  - rewrite Hk, Hi, (li_nodes _ _ Hw), E, !length_app. cbn [length].
    rewrite E, length_app in Hlen. cbn [length] in Hlen. wrap. lia.
  - rewrite Hr, Er, !total_app. cbn [total]. lia.
  - intros x Hx. unfold is_free. rewrite Er. autorewrite with ranges. right; left. lia.
  - intros x. unfold is_free. rewrite Er, Hr. autorewrite with ranges.
    destruct (decide (range_low (node l curr) <= x <= range_high (node l curr))) as [Hx|Hx];
      [destruct (at_node_disjoint _ _ _ _ Hw E x Hx)|]; intuition lia.
Qed.

Lemma superpage_take_ok l l1 curr l2 num lm :
  list_wf l -> (forall T, is_Some (nova_alloc_range_node T)) ->
  fids l = l1 ++ curr :: l2 -> 0 < num -> 1 <= lm -> lm + num <= node_size l curr ->
  exists l', superpage_take l curr num lm (node_size l curr)
             = Some (num, range_low (node l curr) + lm, l')
    /\ taken l num (range_low (node l curr) + lm) l'.
Proof.
  intros Hw Hslab E Hnum Hlm Hfit. pose proof (at_node_bounds _ _ _ _ Hw E) as Hnb.
  pose proof (li_tree _ _ Hw) as Hwf. unfold superpage_take.
  assert (Hns : node_size l curr = range_high (node l curr) - range_low (node l curr) + 1) by done.
  rewrite (u64_small (_ + lm)) by lia.
  rewrite (u32_small _) by lia. rewrite (proj2 (Z.eqb_neq lm 0)) by lia.
  match goal with |- context[edit_node curr ?f l] => set (f1 := f) end.
  assert (Hf1 : block_free_tree (edit_node curr f1 l)
    = store_node curr (set_high (range_low (node l curr) + lm - 1)) (block_free_tree l)).
  { simpl. unfold f1, store_node, update_node. simpl.
    change (deref (block_free_tree l) curr) with (node l curr). wrap. done. }
  destruct (Z.eqb_spec (node_size l curr - lm - num) 0) as [Hr|Hr]; cbn [negb andb].
  - eexists. split; [reflexivity|].
    eapply (take_part l l1 curr l2 Hw E); [exact Hf1| |lia|done..].
    right. simpl. split_and!; [done|lia|lia].
  - rewrite Hf1.
    destruct (Hslab (store_node curr (set_high (range_low (node l curr) + lm - 1)) (block_free_tree l)))
      as [[nd T2] Hal]. rewrite Hal.
    destruct (alloc_node_spec _ _ _ Hal) as (_ & _ & _ & Hde & _).
    set (a := range_low (node l curr) + lm + num).
    destruct (split_node _ l1 curr l2 (range_low (node l curr) + lm - 1) a nd T2 Hwf E)
      as (T' & Hins & Hwf' & Hi' & Hne & Hr'); [|unfold a| exact Hal|].
    { unfold node in *. lia. } { unfold node in *. lia. }
    match goal with |- context[edit_node nd ?f ?L] => set (L2 := L) end.
    match goal with |- context[edit_node nd ?f L2] => set (f2 := f) end.
    assert (HL : range_low (node L2 curr) = range_low (node l curr)).
    { unfold L2, node. simpl. rewrite Hde by done. rewrite deref_store, decide_True by done.
      by rewrite refreshed_low. }
    assert (Hf2 : block_free_tree (edit_node nd f2 L2)
      = store_node nd (fun n => set_high (range_high (node l curr)) (set_low a n)) T2).
    { unfold f2. rewrite HL, (u64_small (_ + lm + num)) by lia. done. }
    assert (HT : snd (nova_insert_blocktree (block_free_tree (edit_node nd f2 L2)) nd) = T').
    { rewrite Hf2. unfold node. by rewrite Hins. }
    eexists. split; [reflexivity|]. rewrite HT.
    assert (Hd : forall P Q : sub_free_list, block_free_tree P = T' -> block_free_tree Q = T' ->
      block_free_tree (if decide (last_node P = Some curr) then Q else P) = T')
      by (intros; by case_decide).
    eapply (take_middle l l1 curr l2 nd); auto; [lia|..].
    + rewrite Hd by done. done.
    + unfold fids. rewrite Hd by done. exact Hi'.
    + unfold franges. rewrite Hd by done. exact Hr'.
    + by case_decide.
    + simpl. by case_decide.
    + by case_decide.
    + by case_decide.
    + by case_decide.
Qed.

(** The superpage walk: nothing, or an aligned run of whole superpages. *)
Lemma superpage_loop_ok l num nb dir rem fuel :
  list_wf l -> (forall T, is_Some (nova_alloc_range_node T)) ->
  0 < num < TWO31 -> num mod 512 = 0 -> visiting dir l rem ->
  (length rem <= fuel)%nat ->
  exists n b l', superpage_loop fuel l (head rem) num nb dir = Some (n, b, l')
    /\ (n = 0 /\ b = nb /\ l' = l
           /\ (forall p, p ∈ rem ->
                node_size l p - left_margin_of (range_low (node l p)) < 512) \/
        taken l n b l' /\ n <= num /\ n mod 512 = 0 /\ b mod 512 = 0 /\ 0 < b).
Proof.
  intros Hw Hslab Hnum Hal. revert fuel. induction rem as [|p rem IH]; intros fuel Hv Hf.
  { exists 0, nb, l. split; [by destruct fuel|left]. split_and!; [done..|set_solver]. }
  destruct fuel as [|fuel]; simpl in Hf; [lia|].
  destruct (visiting_step _ _ _ _ Hw Hv) as (Hs & Hv' & l1 & l2 & E).
  assert (Hp : p ∈ fids l) by (rewrite E; set_solver).
  pose proof (at_node_bounds _ _ _ _ Hw E) as Hnb.
  cbn [superpage_loop head]. rewrite (node_csum_ok _ _ _ Hw Hp). cbn [negb].
  rewrite (curr_blocks_val _ _ _ Hw Hp), Hs. fold (node_size l p).
  fold (left_margin_of (range_low (node l p))).
  destruct (left_margin_range (range_low (node l p))) as [Hlm Hlma].
  assert (Hns : 0 < node_size l p < TWO31) by (unfold node_size; lia).
  pose proof (superpage_request_ok num _ _ Hnum Hal Hns Hlm) as Hreq. cbv zeta in Hreq |- *.
  set (lm := left_margin_of (range_low (node l p))) in *.
  set (k := superpage_request num (node_size l p) lm) in *.
  destruct (_ && _).
  - destruct Hreq as (? & ? & ?).
    destruct (superpage_take_ok l l1 p l2 k lm Hw Hslab E) as (l' & -> & Ht); [lia..|].
    eexists _, _, l'. split; [reflexivity|]. right. split_and!; done || lia.
  - destruct Hreq as [-> Hsmall].
    destruct (IH fuel Hv') as (n & b & l' & E' & [(-> & -> & -> & Hr)|?]); [lia| |];
      (eexists _, _, _; split; [exact E'|]); [left|by right].
    split_and!; try done. intros q [->|Hq]%elem_of_cons; [exact Hsmall|by apply Hr].
Qed.

Lemma alloc_superpage_ok l num nb dir fuel :
  list_wf l -> (forall T, is_Some (nova_alloc_range_node T)) ->
  0 < num < TWO31 -> num mod 512 = 0 -> (length (fids l) <= fuel)%nat ->
  exists n b l', nova_alloc_superpage fuel l num nb dir = Some (n, b, l')
    /\ (n = 0 /\ b = nb /\ l' = l
           /\ (forall p, p ∈ fids l ->
                node_size l p - left_margin_of (range_low (node l p)) < 512) \/
        taken l n b l' /\ n <= num /\ n mod 512 = 0 /\ b mod 512 = 0 /\ 0 < b).
Proof.
  intros Hw Hslab Hnum Hal Hf. destruct (visiting_start dir l Hw) as (rem & Hv & Hst & Hlen & Hrem).
  unfold nova_alloc_superpage. rewrite Hst.
  destruct (superpage_loop_ok l num nb dir rem fuel) as (n & b & l' & E & [(?&?&?&Hall)|?]);
    try done; [lia|..]; eexists _, _, _; (split; [exact E|]); [left|by right].
  split_and!; try done. intros p Hp. by apply Hall, Hrem.
Qed.

(** The only reasons to refuse a request. *)
Definition refused (l : sub_free_list) (btype : Z) (atype : alloc_type) (num : Z) : Prop :=
  num_free_blocks l = 0
  \/ (atype = LOG /\ not_enough_blocks l num atype = true)
  \/ (0 < btype /\ forall p, p ∈ fids l -> node_size l p < num).

Lemma no_nodes_no_blocks l : list_wf l -> fids l = [] -> num_free_blocks l = 0.
Proof.
  intros Hw E. rewrite (li_count _ _ Hw). unfold franges, ranges.
  fold (fids l). by rewrite E.
Qed.

(** [nova_alloc_blocks_in_free_list]. *)
Lemma alloc_in_free_list_ok l btype atype num nb dir fuel :
  list_wf l -> (forall T, is_Some (nova_alloc_range_node T)) ->
  0 < num < TWO31 -> (length (fids l) <= fuel)%nat ->
  exists r b l', nova_alloc_blocks_in_free_list fuel l btype atype num nb dir = Some (r, b, l')
    /\ ((r = - ENOSPC /\ b = nb /\ l' = l /\ refused l btype atype num)
        \/ (exists lt, taken l r b lt /\ r <= num
              /\ (0 < btype -> r = num \/ r mod 512 = 0)
              /\ l' = set_num_free_blocks (u64 (num_free_blocks lt - r)) lt)).
Proof.
  intros Hw Hslab Hnum Hf. unfold nova_alloc_blocks_in_free_list.
  destruct (bool_decide (first_node l = None) || (num_free_blocks l =? 0)) eqn:H1.
  { eexists _, _, _. split; [done|]. left. split_and!; try done. left.
    apply orb_true_iff in H1 as [H1%bool_decide_eq_true|H1%Z.eqb_eq]; [|done].
    rewrite (li_first _ _ Hw) in H1. apply no_nodes_no_blocks; [done|]. by destruct (fids l). }
  destruct (bool_decide (atype = LOG) && not_enough_blocks l num atype) eqn:H2.
  { eexists _, _, _. split; [done|]. left. split_and!; try done. right; left.
    apply andb_true_iff in H2 as [H2%bool_decide_eq_true ?]. done. }
  apply orb_false_iff in H1 as [H1 H0].
  destruct (visiting_start dir l Hw) as (rem & Hv & Hst & Hlen & Hrem). rewrite Hst.
  assert (Hsp : exists n b l', (if IS_DATABLOCKS_2MB_ALIGNED num atype
       then nova_alloc_superpage fuel l num nb dir
       else Some (0, nb, l)) = Some (n, b, l') /\
     (n = 0 /\ b = nb /\ l' = l \/
        taken l n b l' /\ n <= num /\ n mod 512 = 0 /\ b mod 512 = 0 /\ 0 < b)).
  { destruct (IS_DATABLOCKS_2MB_ALIGNED num atype) eqn:Hd; [|by eexists _, _, _; auto].
    unfold IS_DATABLOCKS_2MB_ALIGNED in Hd. zbool. rewrite land_511 in *.
    unfold nova_alloc_superpage. rewrite Hst.
    destruct (superpage_loop_ok l num nb dir rem fuel) as (n & b & l' & E & [(?&?&?&_)|?]);
      try done; [lia|eexists _, _, _; eauto..]. }
  destruct Hsp as (n & b & l' & -> & [(-> & -> & ->)|(Ht & Hn & Hm & _ & Hb)]); simpl.
  - destruct (alloc_loop_ok l btype num nb dir rem fuel) as (found & n & b & l' & -> & Hres);
      [done|lia|done|lia|]. simpl. destruct found.
    + destruct Hres as (Ht & Hn & Hx).
      assert (Hcnt : n <= num_free_blocks l').
      { pose proof (tk_inv _ _ _ _ Ht) as Hi. rewrite (li_count _ _ Hi).
        pose proof (total_nonneg _ _ (sorted_start _ _ Hi)). lia. }
      rewrite (proj2 (Z.ltb_ge _ _)) by lia. eexists _, _, _. split; [done|]. right. exists l'. split_and!; auto.
    + destruct Hres as (-> & -> & -> & Hall).
      assert (Href : refused l btype atype num).
      { right; right. destruct (fids l) as [|p k] eqn:Ek.
        - by apply (no_nodes_no_blocks _ Hw), Z.eqb_eq in Ek; rewrite Ek in H0.
        - split; [|intros q Hq; apply Hall, Hrem, Hq].
          apply (Hall p), Hrem. set_solver. }
      case_match; eexists _, _, _; split; eauto 10.
  - pose proof (tk_pos _ _ _ _ Ht).
    rewrite (proj2 (Z.ltb_lt _ _)) by lia. rewrite (proj2 (Z.eqb_neq b 0)) by lia.
    eexists _, _, _. split; [done|]. right. exists l'. split_and!; auto.
Qed.
End superpage.
