(* ===== verification/Balloc.v ===== *)
(** The per-CPU block allocator (balloc.c): the lists of all CPUs, their
    initialisation, [nova_free_blocks] and [nova_new_blocks] with its retry
    loop, and the addresses of the data checksums (nova.h).

    An operation returns [None] where the code has no defined behaviour: an
    index outside [sbi->free_lists], a division by zero, [BUG()]. *)

From S2P Require Import Prelude.
From S2P Require Import Kernel.
From S2P Require Import RangeTree.
From S2P Require Import Layout.
From S2P Require Import FreeList.

(** [struct free_list]. *)
Record free_list := FreeListRec {
  cpu : Z;
  meta_list : sub_free_list;
  data_list : sub_free_list
}.

Definition set_meta_list (l : sub_free_list) (fl : free_list) : free_list :=
  FreeListRec (cpu fl) l (data_list fl).
Definition set_data_list (l : sub_free_list) (fl : free_list) : free_list :=
  FreeListRec (cpu fl) (meta_list fl) l.

(** [sub_free_list = &free_list->meta_list] or [data_list]. *)
Definition sub_list (meta : bool) (fl : free_list) : sub_free_list :=
  if meta then meta_list fl else data_list fl.
Definition set_sub_list (meta : bool) (l : sub_free_list) (fl : free_list) : free_list :=
  if meta then set_meta_list l fl else set_data_list l fl.

Definition is_LOG (atype : alloc_type) : bool := bool_decide (atype = LOG).

Definition nova_get_free_list (ls : list free_list) (cpu : Z) : option free_list :=
  if cpu <? 0 then None else ls !! Z.to_nat cpu.

Definition nova_get_sub_free_list (ls : list free_list) (cpu : Z) (meta : bool)
    : option sub_free_list :=
  sub_list meta <$> nova_get_free_list ls cpu.

Definition store_free_list (cpu : Z) (fl : free_list) (ls : list free_list) : list free_list :=
  <[Z.to_nat cpu := fl]> ls.

Definition ANY_CPU : Z := 65536.
Definition NOVA_STRIPE_SHIFT : Z := 9.
Definition NOVA_STRIPE_SIZE : Z := Z.shiftl 1 NOVA_STRIPE_SHIFT.
Definition NOVA_DATA_CSUM_LEN : Z := 4.
Definition s_blocksize : Z := 4096.

Section balloc.
Context {RB : RbOps} {KM : KmemOps} {CR : CrcOps} {MP : ModParams}.

(** ** Initialisation *)

(** [kcalloc] succeeded: one zeroed list per CPU. *)
Definition nova_alloc_block_free_lists (sbi : nova_sb_info) : list free_list :=
  (fun i => FreeListRec (Z.of_nat i) zero_sub_free_list zero_sub_free_list)
    <$> seq 0 (Z.to_nat (cpus sbi)).

(** [kfree]; the array pointer is NULL afterwards. *)
Definition nova_delete_free_lists (ls : list free_list) : list free_list := [].

(** Rounded-up share of a CPU. *)
Definition add_share (sbi : nova_sb_info) (blocks start : Z) : Z :=
  let start := u64 (start + blocks / cpus sbi) in
  if negb (blocks mod cpus sbi =? 0) then u64 (start + 1) else start.

Definition nova_data_csum_init_free_list (sbi : nova_sb_info) (fl : free_list) : free_list :=
  let l := meta_list fl in
  let data_csum_blocks :=
    Z.shiftr (u64 (Z.shiftr (initsize sbi) NOVA_STRIPE_SHIFT * NOVA_DATA_CSUM_LEN))
      (blocksize_bits sbi) in
  let l := set_csum_start (block_start l) l in
  let l := set_block_start (add_share sbi data_csum_blocks (block_start l)) l in
  let l := set_num_csum_blocks (u64 (block_start l - csum_start l)) l in
  set_meta_list l fl.

(** Not called by the code at hand: its call is commented out. *)
Definition nova_data_parity_init_free_list (sbi : nova_sb_info) (fl : free_list) : free_list :=
  let l := meta_list fl in
  let total_blocks := initsize sbi / s_blocksize in
  let per := s_blocksize / NOVA_STRIPE_SIZE + 1 in
  let parity_blocks := total_blocks / per in
  let parity_blocks :=
    if negb (total_blocks mod per =? 0) then u64 (parity_blocks + 1) else parity_blocks in
  let l := set_parity_start (block_start l) l in
  let l := set_block_start (add_share sbi parity_blocks (block_start l)) l in
  let l := set_num_parity_blocks (u64 (block_start l - parity_start l)) l in
  let l := set_replica_parity_start
             (u64 (block_end l + 1 - num_parity_blocks l)) l in
  set_meta_list l fl.

Definition nova_init_free_list (sbi : nova_sb_info) (fl : free_list) (index : Z) : free_list :=
  let per := per_data_list_blocks sbi in
  let l := data_list fl in
  let l := set_block_start (u64 (per * index)) l in
  let l := set_block_end (u64 (block_start l + per - 1)) l in
  let fl := set_data_list l fl in
  let per := per_meta_list_blocks sbi in
  let l := meta_list fl in
  let l := set_block_start (u64 (per * index)) l in
  let l := set_block_end (u64 (block_start l + per - 1)) l in
  let l := if index =? 0
           then set_block_start (u64 (block_start l + head_reserved_blocks sbi)) l else l in
  let l := if index =? cpus sbi - 1
           then set_block_end (u64 (block_end l - tail_reserved_blocks sbi)) l else l in
  nova_data_csum_init_free_list sbi (set_meta_list l fl).

(** The node that holds the whole range of a list; [None] is [BUG()],
    [inl] the early return of a failed insertion. *)
Definition init_sub_list (l : sub_free_list) : option (sub_free_list + sub_free_list) :=
  let l := set_num_free_blocks (u64 (block_end l - block_start l + 1)) l in
  match nova_alloc_blocknode (block_free_tree l) with
  | None => None
  | Some (blknode, T) =>
      let l := set_block_free_tree T l in
      let l := edit_node blknode
                 (fun n => set_high (block_end l) (set_low (block_start l) n)) l in
      let '(ret, T) := nova_insert_blocktree (block_free_tree l) blknode in
      let l := set_block_free_tree T l in
      if negb (ret =? 0) then Some (inl (release_node blknode l))
      else Some (inr (set_num_blocknode 1
                        (set_last_node (Some blknode) (set_first_node (Some blknode) l))))
  end.

(** The loop body on list [i]; [inl]: the function returns. *)
Definition init_one (sbi : nova_sb_info) (recovery : bool) (i : Z) (fl : free_list)
    : option (free_list + free_list) :=
  let fl := nova_init_free_list sbi fl i in
  if recovery then Some (inr fl)
  else
    match init_sub_list (data_list fl) with
    | None => None
    | Some (inl d) => Some (inl (set_data_list d fl))
    | Some (inr d) =>
        let fl := set_data_list d fl in
        match init_sub_list (meta_list fl) with
        | None => None
        | Some (inl m) => Some (inl (set_meta_list m fl))
        | Some (inr m) => Some (inr (set_meta_list m fl))
        end
    end.

Fixpoint init_lists (sbi : nova_sb_info) (recovery : bool) (i : Z) (ls : list free_list)
    : option (list free_list) :=
  match ls with
  | [] => Some []
  | fl :: ls' =>
      match init_one sbi recovery i fl with
      | None => None
      | Some (inl fl) => Some (fl :: ls')
      | Some (inr fl) => cons fl <$> init_lists sbi recovery (i + 1) ls'
      end
  end.

Definition nova_init_blockmap (sbi : nova_sb_info) (ls : list free_list) (recovery : bool)
    : option (nova_sb_info * list free_list) :=
  if cpus sbi <=? 0 then None else
  let sbi := set_per_data_list_blocks (data_num_blocks sbi / cpus sbi) sbi in
  let sbi := set_per_meta_list_blocks (meta_num_blocks sbi / cpus sbi) sbi in
  (fun ls => (sbi, ls)) <$> init_lists sbi recovery 0 ls.

(** ** Freeing *)

Definition nova_free_blocks (sbi : nova_sb_info) (ls : list free_list)
    (blocknr num btype : Z) (log_page : bool) : option (Z * list free_list) :=
  if num <=? 0 then Some (- EINVAL, ls)
  else
    let per := if log_page then per_meta_list_blocks sbi else per_data_list_blocks sbi in
    if per =? 0 then None else
    let cpuid := s32 (blocknr / per) in
    fl ← nova_get_free_list ls cpuid;
    let '(ret, l) := free_blocks_in_list (sub_list log_page fl) blocknr num btype in
    Some (ret, store_free_list cpuid (set_sub_list log_page l fl) ls).

Definition nova_free_data_blocks (sbi : nova_sb_info) (ls : list free_list)
    (i_blk_type blocknr num : Z) : option (Z * list free_list) :=
  nova_free_blocks sbi ls blocknr num i_blk_type false.

Definition nova_free_log_blocks (sbi : nova_sb_info) (ls : list free_list)
    (i_blk_type blocknr num : Z) : option (Z * list free_list) :=
  if blocknr =? 0 then Some (- EINVAL, ls)
  else nova_free_blocks sbi ls blocknr num i_blk_type true.

(** ** Allocation *)

(** The loop of [nova_get_candidate_free_list]; [num_free_blocks] is an
    [int], the comparison is between [unsigned long]s. *)
Fixpoint candidate_loop (ls : list free_list) (meta : bool) (i cpuid num_free : Z) : Z :=
  match ls with
  | [] => cpuid
  | fl :: ls' =>
      let n := num_free_blocks (sub_list meta fl) in
      if u64 num_free <? n
      then candidate_loop ls' meta (i + 1) i (s32 n)
      else candidate_loop ls' meta (i + 1) cpuid num_free
  end.

Definition nova_get_candidate_free_list (ls : list free_list) (atype : alloc_type) : Z :=
  candidate_loop ls (is_LOG atype) 0 0 0.

(** The [retry] loop up to label [alloc]: the CPU to allocate from.  At most
    two retries, so three rounds. *)
Fixpoint retry_loop (rounds : nat) (ls : list free_list) (cpuid num_blocks : Z)
    (atype : alloc_type) : option Z :=
  fl ← nova_get_free_list ls cpuid;
  if not_enough_blocks (sub_list (is_LOG atype) fl) num_blocks atype then
    match rounds with
    | O => Some cpuid                                  (* allocate anyway *)
    | S rounds' =>
        retry_loop rounds' ls (nova_get_candidate_free_list ls atype) num_blocks atype
    end
  else Some cpuid.

(** What zeroing an allocated block does: a non-temporal [memset], or a
    request handed to the delegation threads of [socket]. *)
Inductive zero_op :=
  | MemsetNt (bp length : Z)
  | DelegateZero (bp length : Z) (meta : bool) (socket : Z).

Definition zero_blocks (sbi : nova_sb_info) (delegation_ready : bool)
    (numa_node : Z -> Z) (new_blocknr ret_blocks btype : Z) (meta : bool) : list zero_op :=
  let blocksize := u64 (PAGE_SIZE * nova_get_numblocks btype) in
  (fun i : nat =>
     let blocknr := u64 (new_blocknr + Z.of_nat i * nova_get_numblocks btype) in
     let bp := nova_get_virt_addr_from_offset sbi
                 (nova_get_block_off sbi blocknr btype meta) meta in
     if delegation_ready then
       DelegateZero bp blocksize meta
         (numa_node (nova_blknr_to_nvmidx sbi blocknr btype meta))
     else MemsetNt bp blocksize) <$> seq 0 (Z.to_nat ret_blocks).

(** [nova_new_blocks]: the result, [*blocknr], the lists and the zeroing.
    [this_cpu] is [smp_processor_id()]. *)
Definition nova_new_blocks (fuel : nat) (sbi : nova_sb_info) (delegation_ready : bool)
    (numa_node : Z -> Z) (this_cpu : Z) (ls : list free_list)
    (blocknr num btype : Z) (zero : bool) (atype : alloc_type) (cpuid : Z)
    (from_tail : nova_alloc_direction)
    : option (Z * Z * list free_list * list zero_op) :=
  let meta := is_LOG atype in
  let num_blocks := u64 (num * nova_get_numblocks btype) in
  if num_blocks =? 0 then Some (- EINVAL, blocknr, ls, [])
  else if (cpuid =? ANY_CPU) && (cpus sbi <=? 0) then None
  else
    let cpuid := if cpuid =? ANY_CPU then this_cpu mod cpus sbi else cpuid in
    cpuid ← retry_loop 2 ls cpuid num_blocks atype;
    fl ← nova_get_free_list ls cpuid;
    '(ret_blocks, new_blocknr, l) ←
      nova_alloc_blocks_in_free_list fuel (sub_list meta fl) btype atype num_blocks 0 from_tail;
    if 0 <? ret_blocks then
      let l := set_alloc_count (u64 (alloc_count l + 1)) l in
      let l := set_alloc_pages (u64 (alloc_pages l + ret_blocks)) l in
      let ls := store_free_list cpuid (set_sub_list meta l fl) ls in
      let ret_blocks := ret_blocks / nova_get_numblocks btype in
      Some (s32 ret_blocks, new_blocknr, ls,
            if zero then zero_blocks sbi delegation_ready numa_node new_blocknr ret_blocks
                           btype meta
            else [])
    else Some (- ENOSPC, blocknr, store_free_list cpuid (set_sub_list meta l fl) ls, []).

Definition nova_new_data_blocks (fuel : nat) (sbi : nova_sb_info) (delegation_ready : bool)
    (numa_node : Z -> Z) (this_cpu : Z) (ls : list free_list) (blocknr i_blk_type num : Z)
    (zero : nova_alloc_init) (cpu : Z) (from_tail : nova_alloc_direction) :=
  nova_new_blocks fuel sbi delegation_ready numa_node this_cpu ls blocknr num i_blk_type
    (match zero with ALLOC_INIT_ZERO => true | _ => false end) DATA cpu from_tail.

Definition nova_new_log_blocks (fuel : nat) (sbi : nova_sb_info) (delegation_ready : bool)
    (numa_node : Z -> Z) (this_cpu : Z) (ls : list free_list) (blocknr i_blk_type num : Z)
    (zero : nova_alloc_init) (cpu : Z) (from_tail : nova_alloc_direction) :=
  nova_new_blocks fuel sbi delegation_ready numa_node this_cpu ls blocknr num i_blk_type
    (match zero with ALLOC_INIT_ZERO => true | _ => false end) LOG cpu from_tail.

Definition nova_count_free_blocks (ls : list free_list) : Z :=
  fold_left (fun n fl => u64 (n + num_free_blocks (data_list fl))) ls 0.

(** ** Checksum and parity addresses (nova.h) *)

(** [None]: the function returns NULL. *)
Definition nova_get_data_csum_addr (sbi : nova_sb_info) (ls : list free_list)
    (blocknr : Z) (replica : bool) : option Z :=
  if negb data_csum then None else
  if per_data_list_blocks sbi =? 0 then None else
  let cpu := nova_block_to_cpu sbi blocknr false in
  if cpus sbi <=? cpu then None else
  let strp_nr :=
    u64 (Z.shiftl (u64 (blocknr - cpu * per_data_list_blocks sbi))
           (PAGE_SHIFT - NOVA_STRIPE_SHIFT)) in
  let strp_block := Z.shiftr (u64 (strp_nr * NOVA_DATA_CSUM_LEN)) PAGE_SHIFT in
  let strp_block_off := Z.land (u64 (strp_nr * NOVA_DATA_CSUM_LEN)) (PAGE_SIZE - 1) in
  fl ← nova_get_free_list ls cpu;
  let l := meta_list fl in
  let blockoff :=
    if replica
    then nova_get_block_off sbi (u64 (replica_csum_start l + strp_block)) NOVA_BLOCK_TYPE_4K true
    else nova_get_block_off sbi (u64 (csum_start l + strp_block)) NOVA_BLOCK_TYPE_4K true in
  Some (u64 (nova_get_virt_addr_from_offset sbi blockoff true + strp_block_off)).

Definition nova_get_parity_addr (sbi : nova_sb_info) (ls : list free_list) (blocknr : Z)
    : option Z :=
  if negb data_parity then None else
  if per_data_list_blocks sbi =? 0 then None else
  let cpu := nova_block_to_cpu sbi blocknr false in
  if cpus sbi <=? cpu then None else
  fl ← nova_get_free_list ls cpu;
  let strp_block_off :=
    Z.shiftr (u64 (Z.shiftl (u64 (blocknr - block_start (data_list fl))) NOVA_STRIPE_SHIFT))
      PAGE_SHIFT in
  let blockoff :=
    nova_get_block_off sbi (u64 (parity_start (meta_list fl) + strp_block_off))
      NOVA_BLOCK_TYPE_4K true in
  Some (nova_get_virt_addr_from_offset sbi blockoff true).
End balloc.
