(* ===== verification/BallocSpec.v ===== *)
(** Correctness of the block allocator over all CPUs, stated on the set of
    free blocks of the device: initialisation, freeing, allocation with its
    retry loop, the count of free blocks. *)

From S2P Require Import Prelude.
From S2P Require Import Kernel.
From S2P Require Import RangeTree.
From S2P Require Import RangeTreeSpec.
From S2P Require Import Layout.
From S2P Require Import FreeList.
From S2P Require Import FreeListSpec.
From S2P Require Import AllocSpec.
From S2P Require Import Balloc.

Section inv.
Context {RB : RbOps} {KM : KmemOps} {CR : CrcOps} {MP : ModParams}.

Definition share (sbi : nova_sb_info) (meta : bool) : Z :=
  if meta then per_meta_list_blocks sbi else per_data_list_blocks sbi.

(** Every list is well formed and keeps to the share of its CPU. *)
Record lists_wf (sbi : nova_sb_info) (ls : list free_list) : Prop := {
  lw_cpus : Z.of_nat (length ls) = cpus sbi;
  lw_some : 0 < cpus sbi < TWO31;
  lw_share : forall meta, 0 < share sbi meta;
  lw_list : forall i fl meta, ls !! i = Some fl ->
    list_wf (sub_list meta fl)
    /\ share sbi meta * Z.of_nat i <= block_start (sub_list meta fl)
    /\ block_end (sub_list meta fl) < share sbi meta * (Z.of_nat i + 1)
}.

(** Block [x] of the metadata or data area is free. *)
Definition free_block (ls : list free_list) (meta : bool) (x : Z) : Prop :=
  exists i fl, ls !! i = Some fl /\ is_free (sub_list meta fl) x.

(** Block [x] is one the list of [cpu] may hold. *)
Definition in_list (ls : list free_list) (meta : bool) (i : nat) (x : Z) : Prop :=
  exists fl, ls !! i = Some fl
    /\ block_start (sub_list meta fl) <= x <= block_end (sub_list meta fl).

Lemma sub_set meta meta' l fl :
  sub_list meta' (set_sub_list meta l fl)
  = if decide (meta' = meta) then l else sub_list meta' fl.
Proof. by destruct meta, meta'. Qed.

Lemma get_free_list ls i : nova_get_free_list ls (Z.of_nat i) = ls !! i.
Proof. unfold nova_get_free_list. rewrite (proj2 (Z.ltb_ge _ _)) by lia. by rewrite Nat2Z.id. Qed.

Lemma share_unique sbi meta i j x :
  0 < share sbi meta ->
  share sbi meta * Z.of_nat i <= x < share sbi meta * (Z.of_nat i + 1) ->
  share sbi meta * Z.of_nat j <= x < share sbi meta * (Z.of_nat j + 1) -> i = j.
Proof. intros. nia. Qed.

(** Only the list of its CPU can hold a block. *)
Lemma free_block_at sbi ls meta i fl x :
  lists_wf sbi ls -> ls !! i = Some fl ->
  share sbi meta * Z.of_nat i <= x < share sbi meta * (Z.of_nat i + 1) ->
  free_block ls meta x <-> is_free (sub_list meta fl) x.
Proof.
  intros Hw Hi Hx. split; [|by exists i, fl].
  intros (j & fl' & Hj & Hf). destruct (lw_list _ _ Hw _ _ meta Hj) as (Hlw & ? & ?).
  pose proof (is_free_bounds _ _ _ Hlw Hf).
  assert (i = j) as <- by (apply (share_unique sbi meta i j x); [apply Hw|lia|lia]). by simplify_eq.
Qed.

Lemma store_lookup ls i fl' j :
  (i < length ls)%nat ->
  store_free_list (Z.of_nat i) fl' ls !! j = if decide (i = j) then Some fl' else ls !! j.
Proof.
  intros. unfold store_free_list. rewrite Nat2Z.id. case_decide as Hij.
  - subst. by apply list_lookup_insert_eq.
  - by apply list_lookup_insert_ne.
Qed.

Lemma store_wf sbi ls i fl meta l' :
  lists_wf sbi ls -> ls !! i = Some fl -> list_wf l' ->
  same_frame (sub_list meta fl) l' ->
  lists_wf sbi (store_free_list (Z.of_nat i) (set_sub_list meta l' fl) ls).
Proof.
  intros Hw Hi Hl' (Hbs & Hbe & _). pose proof (lookup_lt_Some _ _ _ Hi). split.
  - unfold store_free_list. rewrite length_insert. apply Hw.
  - apply Hw.
  - apply Hw.
  - intros j fl' meta'. rewrite store_lookup by done.
    case_decide; [subst j; intros [= <-]|by apply Hw].
    pose proof (lw_list _ _ Hw _ _ meta' Hi) as (? & ? & ?).
    rewrite sub_set. case_decide; [|done]. subst. rewrite Hbs, Hbe. done.
Qed.

(** The free set after one list changed. *)
Lemma store_free sbi ls i fl meta l' (R : Z -> Prop) (add : bool) :
  lists_wf sbi ls -> ls !! i = Some fl -> list_wf l' -> same_frame (sub_list meta fl) l' ->
  (forall x, R x -> block_start (sub_list meta fl) <= x <= block_end (sub_list meta fl)) ->
  (forall x, is_free l' x <->
     if add then is_free (sub_list meta fl) x \/ R x
     else is_free (sub_list meta fl) x /\ ~ R x) ->
  forall meta' x,
    free_block (store_free_list (Z.of_nat i) (set_sub_list meta l' fl) ls) meta' x <->
    if add then free_block ls meta' x \/ (meta' = meta /\ R x)
    else free_block ls meta' x /\ ~ (meta' = meta /\ R x).
Proof.
  intros Hw Hi Hl' Hfr HR Hf meta' x. pose proof (lookup_lt_Some _ _ _ Hi) as Hlt.
  pose proof (store_wf _ _ _ _ _ _ Hw Hi Hl' Hfr) as Hw'.
  set (ls' := store_free_list _ _ _) in *.
  assert (Hi' : ls' !! i = Some (set_sub_list meta l' fl)).
  { unfold ls'. by rewrite store_lookup, decide_True. }
  pose proof (lw_list _ _ Hw _ _ meta' Hi) as (? & Hlo & Hhi).
  destruct (decide (share sbi meta' * Z.of_nat i <= x < share sbi meta' * (Z.of_nat i + 1)))
    as [Hx|Hx].
  - pose proof (free_block_at _ _ _ _ _ _ Hw' Hi' Hx) as E'.
    pose proof (free_block_at _ _ _ _ _ _ Hw Hi Hx) as E. rewrite sub_set in E'.
    specialize (Hf x). case_decide as Hm; [subst meta'|]; destruct add; tauto.
  - assert (HnR : ~ (meta' = meta /\ R x)) by (intros [-> HRx]; specialize (HR x HRx); lia).
    assert (Hsame : free_block ls' meta' x <-> free_block ls meta' x).
    { split; intros (j & fl' & Hj & Hfj).
      - pose proof (lw_list _ _ Hw' _ _ meta' Hj) as (Hlj & ? & ?).
        pose proof (is_free_bounds _ _ _ Hlj Hfj).
        unfold ls' in Hj. rewrite store_lookup in Hj by done.
        case_decide; [subst j; exfalso; apply Hx; lia|]. by exists j, fl'.
      - pose proof (lw_list _ _ Hw _ _ meta' Hj) as (Hlj & ? & ?).
        pose proof (is_free_bounds _ _ _ Hlj Hfj).
        assert (i <> j) by (intros ->; apply Hx; lia).
        exists j, fl'. split; [|done]. unfold ls'. by rewrite store_lookup, decide_False. }
    destruct add; tauto.
Qed.

(** ** Counting *)

Definition sum_free (meta : bool) (ls : list free_list) : Z :=
  foldr (fun fl s => num_free_blocks (sub_list meta fl) + s) 0 ls.

Lemma sum_store meta ls i fl meta' l' :
  ls !! i = Some fl ->
  sum_free meta (store_free_list (Z.of_nat i) (set_sub_list meta' l' fl) ls)
  = sum_free meta ls
    + if decide (meta = meta')
      then num_free_blocks l' - num_free_blocks (sub_list meta fl) else 0.
Proof.
  unfold store_free_list. rewrite Nat2Z.id. revert i.
  induction ls as [|fl' ls IH]; intros [|i] Hi; simplify_eq/=.
  - rewrite sub_set. case_decide; lia.
  - rewrite IH by done. lia.
Qed.

Lemma count_fold ls a :
  fold_left (fun n fl => u64 (n + num_free_blocks (data_list fl))) ls (u64 a)
  = u64 (a + sum_free false ls).
Proof.
  revert a. induction ls as [|fl ls IH]; intros a; simpl; [by rewrite Z.add_0_r|].
  assert (E : u64 (u64 a + num_free_blocks (data_list fl))
              = u64 (a + num_free_blocks (data_list fl)))
    by (unfold u64; by rewrite Zplus_mod_idemp_l).
  rewrite E, IH. f_equal. lia.
Qed.

Lemma num_free_range l : list_wf l ->
  0 <= num_free_blocks l <= block_end l - block_start l + 1 /\ num_free_blocks l < TWO31.
Proof.
  intros Hw. pose proof (li_count _ _ Hw). pose proof (total_max _ _ Hw).
  pose proof (li_bounds _ _ Hw). lia.
Qed.

Lemma sum_range ls meta :
  (forall i fl, ls !! i = Some fl -> list_wf (sub_list meta fl)) ->
  0 <= sum_free meta ls <= TWO31 * Z.of_nat (length ls).
Proof.
  induction ls as [|fl ls IH]; intros Hl; [done|].
  pose proof (num_free_range _ (Hl 0%nat fl eq_refl)).
  specialize (IH (fun i => Hl (S i))). simpl sum_free. simpl length. lia.
Qed.

Lemma count_sum sbi ls :
  lists_wf sbi ls ->
  nova_count_free_blocks ls = sum_free false ls /\ 0 <= sum_free false ls < TWO63.
Proof.
  intros Hw. pose proof (sum_range ls false) as Hs. pose proof (lw_cpus _ _ Hw).
  pose proof (lw_some _ _ Hw). destruct Hs as [? ?].
  { intros i fl Hi. by destruct (lw_list _ _ Hw _ _ false Hi). }
  unfold nova_count_free_blocks. change 0 with (u64 0) at 1. rewrite count_fold, Z.add_0_l. wrap. lia.
Qed.
End inv.

Section ops.
Context {RB : RbOps} {KM : KmemOps} {CR : CrcOps} {MP : ModParams}.
Context {RBL : RbLaws} {KML : KmemLaws}.

(** ** Freeing *)

Lemma cpu_of_block sbi ls meta i x :
  lists_wf sbi ls -> in_list ls meta i x ->
  s32 (x / share sbi meta) = Z.of_nat i /\ 0 <= x < TWO31 - 1.
Proof.
  intros Hw (fl & Hi & Hx). destruct (lw_list _ _ Hw _ _ meta Hi) as (Hl & ? & ?).
  pose proof (li_bounds _ _ Hl). pose proof (lw_share _ _ Hw meta).
  assert (x / share sbi meta = Z.of_nat i) as -> by (symmetry; apply Z.div_unique_pos with (x - share sbi meta * Z.of_nat i); lia).
  pose proof (lw_cpus _ _ Hw). pose proof (lw_some _ _ Hw). pose proof (lookup_lt_Some _ _ _ Hi).
  split; [|lia]. apply s32_small. lia.
Qed.

Lemma free_blocks_at sbi ls meta i fl blocknr num btype :
  lists_wf sbi ls -> ls !! i = Some fl -> in_list ls meta i blocknr -> 0 < num ->
  nova_free_blocks sbi ls blocknr num btype meta =
    let '(ret, l) := free_blocks_in_list (sub_list meta fl) blocknr num btype in
    Some (ret, store_free_list (Z.of_nat i) (set_sub_list meta l fl) ls).
Proof.
  intros Hw Hi Hin Hn. unfold nova_free_blocks. rewrite (proj2 (Z.leb_gt _ _)) by lia.
  change (if meta then per_meta_list_blocks sbi else per_data_list_blocks sbi)
    with (share sbi meta).
  pose proof (lw_share _ _ Hw meta). rewrite (proj2 (Z.eqb_neq _ _)) by lia.
  destruct (cpu_of_block _ _ _ _ _ Hw Hin) as [-> _].
  rewrite get_free_list, Hi. simpl. by destruct (free_blocks_in_list _ _ _ _).
Qed.

Lemma store_same ls i fl meta :
  ls !! i = Some fl ->
  store_free_list (Z.of_nat i) (set_sub_list meta (sub_list meta fl) fl) ls = ls.
Proof.
  intros Hi. unfold store_free_list. rewrite Nat2Z.id.
  assert (set_sub_list meta (sub_list meta fl) fl = fl) as -> by (by destruct meta, fl).
  by apply list_insert_id.
Qed.

(** The bounds of the lists do not change. *)
Lemma store_frame ls i fl meta l' meta' j x :
  ls !! i = Some fl -> same_frame (sub_list meta fl) l' -> in_list ls meta' j x ->
  in_list (store_free_list (Z.of_nat i) (set_sub_list meta l' fl) ls) meta' j x.
Proof.
  intros Hi (Hs & He & _) (fl' & Hj & Hx). pose proof (lookup_lt_Some _ _ _ Hi).
  unfold in_list. rewrite store_lookup by done. case_decide as Hij; [subst j|by exists fl'].
  eexists. split; [done|]. rewrite sub_set. simplify_eq. case_decide; [subst meta'; lia|done].
Qed.

Lemma free_blocks_spec sbi ls meta i blocknr num btype :
  lists_wf sbi ls -> (forall T, is_Some (nova_alloc_range_node T)) ->
  0 < num -> in_list ls meta i blocknr ->
  in_list ls meta i (blocknr + nova_get_numblocks btype * num - 1) ->
  (forall x, blocknr <= x < blocknr + nova_get_numblocks btype * num -> ~ free_block ls meta x) ->
  exists ls', nova_free_blocks sbi ls blocknr num btype meta = Some (0, ls')
    /\ lists_wf sbi ls'
    /\ (forall meta' x, free_block ls' meta' x <-> free_block ls meta' x \/
          (meta' = meta /\ blocknr <= x < blocknr + nova_get_numblocks btype * num))
    /\ (forall meta', sum_free meta' ls' = sum_free meta' ls
          + if decide (meta' = meta) then nova_get_numblocks btype * num else 0)
    /\ (forall meta' j x, in_list ls meta' j x -> in_list ls' meta' j x).
Proof.
  intros Hw Hslab Hn Hin Hin2 Hnf. destruct Hin as (fl & Hi & Hlo).
  destruct Hin2 as (fl' & Hi' & Hhi). simplify_eq.
  destruct (lw_list _ _ Hw _ _ meta Hi) as (Hlw & Hs1 & Hs2).
  rewrite (free_blocks_at _ _ _ i fl) by (done || by exists fl).
  destruct (free_blocks_in_list_ok (sub_list meta fl) blocknr num btype) as (l' & -> & Hf);
    try done; try lia.
  { intros x Hx Hfx. apply (Hnf x Hx). by exists i, fl. }
  eexists. split; [done|]. split_and!.
  - eapply store_wf; eauto; apply Hf.
  - intros meta' x. apply (store_free sbi ls i fl meta l'
      (fun x => blocknr <= x < blocknr + nova_get_numblocks btype * num) true Hw Hi);
      [apply Hf|apply Hf|lia|apply Hf].
  - intros meta'. rewrite sum_store by done. rewrite (fr_count _ _ _ _ Hf).
    case_decide; [subst|]; lia.
  - intros meta' j x. apply store_frame; [done|apply Hf].
Qed.
End ops.

(** ** Allocation *)
Section alloc.
Context {RB : RbOps} {KM : KmemOps} {CR : CrcOps} {MP : ModParams}.
Context {RBL : RbLaws} {KML : KmemLaws}.

Definition nfree (meta : bool) (ls : list free_list) (i : nat) : Z :=
  match ls !! i with Some fl => num_free_blocks (sub_list meta fl) | None => 0 end.

Lemma candidate_loop_max ls meta i c n :
  (forall k, 0 <= nfree meta ls k < TWO31) -> 0 <= n < TWO31 ->
  let r := candidate_loop ls meta (Z.of_nat i) (Z.of_nat c) n in
  (r = Z.of_nat c /\ forall k, nfree meta ls k <= n)
  \/ (exists k, (k < length ls)%nat /\ r = Z.of_nat (i + k) /\ n < nfree meta ls k
       /\ forall k', nfree meta ls k' <= nfree meta ls k).
Proof.
  revert i c n. induction ls as [|fl ls IH]; intros i c n Hr Hn; simpl.
  { left. split; [done|]. intros k. unfold nfree. rewrite lookup_nil. lia. }
  assert (Hr' : forall k, 0 <= nfree meta ls k < TWO31) by (intros k; apply (Hr (S k))).
  pose proof (Hr 0%nat) as H0. unfold nfree in H0. simpl in H0.
  rewrite u64_small by lia.
  replace (Z.of_nat i + 1) with (Z.of_nat (S i)) by lia.
  destruct (Z.ltb_spec n (num_free_blocks (sub_list meta fl))) as [Hlt|Hge].
  - rewrite s32_small by lia.
    destruct (IH (S i) i (num_free_blocks (sub_list meta fl)) Hr')
      as [[-> Hall]|(k & Hk & -> & Hgt & Hall)]; [lia| |].
    + right. exists 0%nat. split_and!; [lia|f_equal; lia|done|].
      intros [|k']; [done|]. apply (Hall k').
    + right. exists (S k). split_and!; [lia|f_equal; lia| |].
      * change (nfree meta (fl :: ls) (S k)) with (nfree meta ls k). lia.
      * intros [|k']; [|apply (Hall k')]. unfold nfree at 1. simpl.
        change (nfree meta (fl :: ls) (S k)) with (nfree meta ls k). lia.
  - destruct (IH (S i) c n Hr' Hn) as [[-> Hall]|(k & Hk & -> & Hgt & Hall)].
    + left. split; [done|]. intros [|k]; [done|apply Hall].
    + right. exists (S k). split_and!; [lia|f_equal; lia|done|].
      intros [|k']; [|apply (Hall k')]. unfold nfree at 1. simpl.
      change (nfree meta (fl :: ls) (S k)) with (nfree meta ls k). lia.
Qed.

Lemma nfree_range sbi ls meta k : lists_wf sbi ls -> 0 <= nfree meta ls k < TWO31.
Proof.
  intros Hw. unfold nfree. case_match eqn:E; [|lia].
  destruct (lw_list _ _ Hw _ _ meta E) as [Hl _]. pose proof (num_free_range _ Hl). lia.
Qed.

Lemma candidate_max sbi ls atype :
  lists_wf sbi ls ->
  exists c, nova_get_candidate_free_list ls atype = Z.of_nat c /\ (c < length ls)%nat
    /\ forall k, nfree (is_LOG atype) ls k <= nfree (is_LOG atype) ls c.
Proof.
  intros Hw. pose proof (lw_cpus _ _ Hw). pose proof (lw_some _ _ Hw).
  unfold nova_get_candidate_free_list.
  destruct (candidate_loop_max ls (is_LOG atype) 0 0 0) as [[E Hall]|(k & Hk & E & _ & Hall)].
  - intros k. by eapply nfree_range.
  - lia.
  - exists 0%nat. split_and!; [exact E|lia|]. intros k. specialize (Hall k).
    pose proof (nfree_range _ _ (is_LOG atype) 0 Hw). lia.
  - exists k. split_and!; [exact E|done|done].
Qed.

(** The CPU the retry loop settles on: a list with enough blocks, or the one
    with the most. *)
Lemma retry_loop_spec rounds sbi ls c num atype :
  lists_wf sbi ls -> (c < length ls)%nat -> (0 < rounds)%nat ->
  exists c' fl, retry_loop rounds ls (Z.of_nat c) num atype = Some (Z.of_nat c')
    /\ ls !! c' = Some fl
    /\ (not_enough_blocks (sub_list (is_LOG atype) fl) num atype = false
        \/ forall k, nfree (is_LOG atype) ls k <= nfree (is_LOG atype) ls c').
Proof.
  intros Hw Hc Hr. destruct (lookup_lt_is_Some_2 ls c Hc) as [fl Hfl].
  destruct rounds as [|r]; [lia|]. cbn [retry_loop]. rewrite get_free_list, Hfl.
  cbn [mbind option_bind]. case_match eqn:Hn; [|by exists c, fl; auto].
  destruct (candidate_max sbi ls atype Hw) as (c' & Ec & Hc' & Hmax). rewrite Ec.
  destruct (lookup_lt_is_Some_2 ls c' Hc') as [fl' Hfl'].
  assert (Hgo : forall r', retry_loop r' ls (Z.of_nat c') num atype = Some (Z.of_nat c')).
  { induction r' as [|r' IH]; cbn [retry_loop]; rewrite get_free_list, Hfl';
      cbn [mbind option_bind]; case_match; try done. by rewrite Ec. }
  exists c', fl'. auto.
Qed.

Lemma enough_not_refused l btype atype num :
  0 < num -> not_enough_blocks l num atype = false -> btype <= 0 ->
  ~ refused l btype atype num.
Proof.
  intros Hn Hne Hb [H0|[[_ H1]|[H1 _]]]; [|congruence|lia].
  revert Hne. unfold not_enough_blocks. destruct (first_node l), (last_node l); try done.
  by rewrite H0, (proj2 (Z.ltb_lt _ _)) by lia.
Qed.

Lemma none_free sbi ls meta :
  lists_wf sbi ls -> (forall k, nfree meta ls k <= 0) -> forall x, ~ free_block ls meta x.
Proof.
  intros Hw Hall x (i & fl & Hi & Hf).
  destruct (lw_list _ _ Hw _ _ meta Hi) as [Hl _]. specialize (Hall i).
  unfold nfree in Hall. rewrite Hi in Hall. pose proof (li_count _ _ Hl).
  pose proof (sorted_start _ _ Hl) as Hs. destruct Hf as ([lo hi] & Hr & ?).
  apply list_elem_of_split in Hr as (a & b & E). rewrite E in *. rewrite total_mid in *.
  apply sorted_from_app in Hs as [Hs1 Hs2]. simpl in Hs2. destruct Hs2 as (_ & ? & Hs2).
  pose proof (total_nonneg _ _ Hs1). pose proof (total_nonneg _ _ Hs2). simpl in *. lia.
Qed.

(** A taken list with its counters brought up to date. *)
Lemma taken_done l n b lt :
  list_wf l -> taken l n b lt ->
  let l' := set_num_free_blocks (u64 (num_free_blocks lt - n)) lt in
  list_wf l' /\ num_free_blocks l' = num_free_blocks l - n /\ same_frame l l'
  /\ (forall x, is_free l' x <-> is_free l x /\ ~ (b <= x < b + n)).
Proof.
  intros Hw Ht l'. pose proof (tk_inv _ _ _ _ Ht) as Hi. pose proof (li_count _ _ Hi) as Hc.
  pose proof (total_nonneg _ _ (sorted_start _ _ Hi)). pose proof (tk_pos _ _ _ _ Ht).
  pose proof (num_free_range _ Hw). pose proof (tk_count _ _ _ _ Ht).
  assert (E : num_free_blocks l' = num_free_blocks l - n) by (simpl; wrap; lia).
  split_and!; [|done|apply Ht|apply Ht]. destruct Hi. split; try done.
  rewrite E. change (franges l') with (franges lt). lia.
Qed.

Lemma counters_wf l a c : list_wf l -> list_wf (set_alloc_pages c (set_alloc_count a l)).
Proof. intros []. by split. Qed.

Lemma div_numblocks n num btype :
  0 <= btype <= 2 -> 0 < n -> (0 < btype -> n = u64 (num * nova_get_numblocks btype) \/ n mod 512 = 0) ->
  0 <= num * nova_get_numblocks btype < TWO63 ->
  n = n / nova_get_numblocks btype * nova_get_numblocks btype
  /\ 0 < n / nova_get_numblocks btype.
Proof.
  intros Hb Hn Hx Hnum.
  assert (Hm : n mod nova_get_numblocks btype = 0).
  { assert (btype = 0 \/ btype = 1 \/ btype = 2) as [->|[->| ->]] by lia.
    - by rewrite Z.mod_1_r.
    - destruct Hx as [->|Hx]; [lia| |].
      + wrap. by rewrite Z.mod_mul.
      + apply Z.mod_divide in Hx as [q ->]; [|done]. change (nova_get_numblocks 1) with 8.
        replace (q * 512) with (q * 64 * 8) by lia. by rewrite Z.mod_mul.
    - destruct Hx as [->|Hx]; [lia| |done]. wrap. by rewrite Z.mod_mul. }
  pose proof (numblocks_pos btype).
  pose proof (Z.div_mod n (nova_get_numblocks btype) ltac:(lia)). nia.
Qed.

Definition enough_fuel (ls : list free_list) (fuel : nat) : Prop :=
  forall i fl meta, ls !! i = Some fl -> (length (fids (sub_list meta fl)) <= fuel)%nat.

(** What an allocation does to the lists. *)
Record allocated (sbi : nova_sb_info) (ls : list free_list) (meta : bool) (n b : Z)
    (ls' : list free_list) : Prop := {
  al_wf : lists_wf sbi ls';
  al_was_free : forall x, b <= x < b + n -> free_block ls meta x;
  al_free : forall meta' x, free_block ls' meta' x <->
    free_block ls meta' x /\ ~ (meta' = meta /\ b <= x < b + n);
  al_sum : forall meta', sum_free meta' ls' =
    sum_free meta' ls - if decide (meta' = meta) then n else 0;
  al_cpu : exists i, in_list ls meta i b /\ in_list ls meta i (b + n - 1);
  al_frame : forall meta' i x, in_list ls meta' i x -> in_list ls' meta' i x
}.

Lemma new_blocks_spec fuel sbi deleg numa this ls blocknr num btype zero atype cpuid dir :
  lists_wf sbi ls -> (forall T, is_Some (nova_alloc_range_node T)) ->
  0 <= this -> cpuid = ANY_CPU \/ 0 <= cpuid < cpus sbi ->
  0 < num * nova_get_numblocks btype < TWO31 -> enough_fuel ls fuel ->
  exists r b ls' z,
    nova_new_blocks fuel sbi deleg numa this ls blocknr num btype zero atype cpuid dir
      = Some (r, b, ls', z)
    /\ (r = - ENOSPC /\ b = blocknr /\ ls' = ls /\ z = []
          /\ (atype = DATA -> btype = 0 -> forall x, ~ free_block ls false x)
        \/ exists n, 0 < n <= num * nova_get_numblocks btype
          /\ r = n / nova_get_numblocks btype
          /\ (0 <= btype <= 2 -> 0 < r /\ n = r * nova_get_numblocks btype)
          /\ allocated sbi ls (is_LOG atype) n b ls'
          /\ z = if zero then zero_blocks sbi deleg numa b r btype (is_LOG atype) else []).
Proof.
  intros Hw Hslab Hthis Hcpu Hnum Hfuel. unfold nova_new_blocks.
  rewrite (u64_small (num * _)) by lia. rewrite (proj2 (Z.eqb_neq (num * _) 0)) by lia.
  pose proof (lw_some _ _ Hw) as Hcp. pose proof (lw_cpus _ _ Hw) as Hlen.
  rewrite (proj2 (Z.leb_gt (cpus sbi) 0)), andb_false_r by lia.
  assert (exists c, (if cpuid =? ANY_CPU then this mod cpus sbi else cpuid) = Z.of_nat c
            /\ (c < length ls)%nat) as (c & -> & Hc).
  { destruct (Z.eqb_spec cpuid ANY_CPU).
    - pose proof (Z.mod_pos_bound this (cpus sbi)).
      exists (Z.to_nat (this mod cpus sbi)). lia.
    - exists (Z.to_nat cpuid). lia. }
  destruct (retry_loop_spec 2 sbi ls c (num * nova_get_numblocks btype) atype Hw Hc)
    as (c' & fl & -> & Hfl & Hwhy); [lia|].
  cbn [mbind option_bind]. rewrite get_free_list, Hfl. cbn [mbind option_bind].
  set (meta := is_LOG atype) in *.
  destruct (lw_list _ _ Hw _ _ meta Hfl) as (Hl & Hlo & Hhi).
  destruct (alloc_in_free_list_ok (sub_list meta fl) btype atype
              (num * nova_get_numblocks btype) 0 dir fuel Hl Hslab Hnum (Hfuel _ _ _ Hfl))
    as (r & b & l' & -> & [(-> & -> & -> & Href)|(lt & Ht & Hr & Hx & ->)]);
    cbn [mbind option_bind].
  - change (0 <? - ENOSPC) with false. cbv iota.
    rewrite (store_same _ _ _ _ Hfl). eexists _, _, _, _. split; [done|]. left.
    split_and!; try done. intros -> ->. apply (none_free _ _ _ Hw).
    destruct Hwhy as [Hne|Hmax].
    + by apply enough_not_refused in Href; [|lia|done|].
    + destruct Href as [H0|[[? _]|[? _]]]; [|done|lia]. intros k.
      specialize (Hmax k). unfold meta in H0, Hmax. change (is_LOG DATA) with false in *.
      unfold nfree at 2 in Hmax. rewrite Hfl in Hmax. lia.
  - pose proof (tk_pos _ _ _ _ Ht) as Hpos. rewrite (proj2 (Z.ltb_lt 0 r)) by lia.
    destruct (taken_done _ _ _ _ Hl Ht) as (Hl' & Hcnt & Hfr & Hfree).
    pose proof (numblocks_pos btype) as Hk.
    assert (Hq : 0 <= r / nova_get_numblocks btype <= r).
    { split; [apply Z.div_pos; lia|]. apply Z.div_le_upper_bound; [lia|nia]. }
    rewrite s32_small by lia. eexists _, _, _, _. split; [reflexivity|]. right.
    exists r. split_and!; try done; try lia.
    + intros Hb. pose proof (div_numblocks r num btype Hb Hpos) as [? ?]; [|lia|lia].
      rewrite u64_small by lia. done.
    + set (l2 := set_alloc_pages _ _).
      assert (Hl2 : list_wf l2) by (by apply counters_wf).
      pose proof (tk_in _ _ _ _ Ht) as Hin. split.
      * eapply store_wf; eauto.
      * intros x Hx'. exists c', fl. split; [done|]. by apply (tk_was_free _ _ _ _ Ht).
      * intros meta' x. apply (store_free sbi ls c' fl meta l2
          (fun x => b <= x < b + r) false Hw Hfl Hl2 Hfr); [lia|exact Hfree].
      * intros meta'. rewrite sum_store by done. simpl in Hcnt |- *. rewrite Hcnt.
        case_decide; [subst|]; lia.
      * exists c'. split; exists fl; (split; [done|lia]).
      * intros meta' i x. by apply store_frame.
Qed.
End alloc.
