(* ===== verification/BallocInit.v ===== *)
(** The state of the allocator after mkfs: what [nova_init_blockmap] makes free
    and what it sets aside for the data checksums. *)

From S2P Require Import Prelude.
From S2P Require Import Kernel.
From S2P Require Import RangeTree.
From S2P Require Import RangeTreeSpec.
From S2P Require Import Layout.
From S2P Require Import FreeList.
From S2P Require Import FreeListSpec.
From S2P Require Import AllocSpec.
From S2P Require Import Balloc.
From S2P Require Import BallocSpec.

Section init.
Context {RB : RbOps} {KM : KmemOps} {CR : CrcOps} {MP : ModParams}.
Context {RBL : RbLaws} {KML : KmemLaws}.

(** One node that spans the list. *)
Lemma init_sub_list_ok l :
  (forall T, is_Some (nova_alloc_range_node T)) ->
  block_free_tree l = empty_rtree ->
  0 <= block_start l <= block_end l -> block_end l < TWO31 - 1 ->
  exists l', init_sub_list l = Some (inr l') /\ list_wf l' /\ same_frame l l'
    /\ forall x, is_free l' x <-> block_start l <= x <= block_end l.
Proof.
  intros Hslab HT Hr He. unfold init_sub_list, nova_alloc_blocknode. simpl block_free_tree.
  rewrite HT. destruct (Hslab empty_rtree) as [[p T] Hal]. rewrite Hal.
  assert (Hwf0 : tree_wf empty_rtree).
  { split; [constructor| | |done]; intros q Hq; by apply not_elem_of_nil in Hq. }
  destruct (wf_alloc_node _ _ _ Hwf0 Hal) as (Hwf & Hi & _ & Hp).
  destruct (alloc_node_spec _ _ _ Hal) as (_ & Hd & _).
  change (ids empty_rtree) with (@nil ptr) in Hi.
  unfold edit_node. cbn [block_free_tree set_block_free_tree set_num_free_blocks
                         block_start block_end].
  destruct (insert_filled T p (fun n => set_high (block_end l) (set_low (block_start l) n)) [] [])
    as (T' & -> & Hwf' & Hi' & _ & Hr'); auto.
  { simpl. lia. }
  simpl. eexists. split; [done|]. simpl in Hi', Hr'.
  set (l' := set_num_blocknode _ _).
  assert (Ei : fids l' = [p]) by exact Hi'.
  assert (Er : franges l' = [(block_start l, block_end l)]) by exact Hr'.
  split_and!; [|done|].
  - split; rewrite ?Ei, ?Er; try done.
    + simpl. wrap. lia.
    + simpl. lia.
    + intros r ->%list_elem_of_singleton. simpl. lia.
  - intros x. unfold is_free. rewrite Er. autorewrite with ranges. lia.
Qed.

(** Blocks of checksums per CPU. *)
Definition csum_share (sbi : nova_sb_info) : Z :=
  let dcb := Z.shiftr (Z.shiftr (initsize sbi) NOVA_STRIPE_SHIFT * NOVA_DATA_CSUM_LEN)
               (blocksize_bits sbi) in
  dcb / cpus sbi + (if dcb mod cpus sbi =? 0 then 0 else 1).

(** First and last metadata block the list of CPU [i] manages; the checksum
    blocks come just before. *)
Definition meta_head (sbi : nova_sb_info) (i : Z) : Z :=
  if i =? 0 then head_reserved_blocks sbi else 0.
Definition meta_tail (sbi : nova_sb_info) (i : Z) : Z :=
  if i =? cpus sbi - 1 then tail_reserved_blocks sbi else 0.

(** The device is large enough for what mount reserves on it. *)
Record geometry (sbi : nova_sb_info) : Prop := {
  ge_cpus : 0 < cpus sbi < TWO31;
  ge_data : 0 < data_num_blocks sbi / cpus sbi;
  ge_data_max : data_num_blocks sbi / cpus sbi * cpus sbi < TWO31;
  ge_meta_max : meta_num_blocks sbi / cpus sbi * cpus sbi < TWO31;
  ge_res : 0 <= head_reserved_blocks sbi /\ 0 <= tail_reserved_blocks sbi;
  ge_size : 0 <= initsize sbi < TWO63 /\ 0 <= blocksize_bits sbi;
  ge_meta : head_reserved_blocks sbi + csum_share sbi + tail_reserved_blocks sbi
            < meta_num_blocks sbi / cpus sbi
}.

Lemma csum_share_nonneg sbi : 0 < cpus sbi -> 0 <= initsize sbi -> 0 <= csum_share sbi.
Proof.
  intros Hc Hi. unfold csum_share. set (dcb := Z.shiftr _ _).
  assert (0 <= dcb).
  { apply Z.shiftr_nonneg, Z.mul_nonneg_nonneg; [by apply Z.shiftr_nonneg|done]. }
  assert (0 <= dcb / cpus sbi) by (apply Z.div_pos; lia). case_match; lia.
Qed.

Lemma add_share_csum sbi start :
  geometry sbi -> 0 <= start < TWO31 ->
  add_share sbi (Z.shiftr (u64 (Z.shiftr (initsize sbi) NOVA_STRIPE_SHIFT * NOVA_DATA_CSUM_LEN))
                   (blocksize_bits sbi)) start
  = start + csum_share sbi.
Proof.
  intros Hg Hs. destruct (ge_size _ Hg) as [Hi Hb]. pose proof (ge_cpus _ Hg) as Hc.
  pose proof (ge_meta _ Hg) as Hm. pose proof (ge_meta_max _ Hg) as Hmm.
  pose proof (ge_res _ Hg). pose proof (csum_share_nonneg sbi ltac:(lia) ltac:(lia)).
  assert (Hd : 0 <= Z.shiftr (initsize sbi) NOVA_STRIPE_SHIFT * NOVA_DATA_CSUM_LEN < TWO64).
  { unfold NOVA_STRIPE_SHIFT, NOVA_DATA_CSUM_LEN. rewrite Z.shiftr_div_pow2 by lia.
    change (2 ^ 9) with 512. split; [apply Z.mul_nonneg_nonneg; [apply Z.div_pos|]; lia|].
    assert (initsize sbi / 512 < 18014398509481984) by (apply Z.div_lt_upper_bound; lia).
    lia. }
  rewrite (u64_small _ Hd). unfold add_share. unfold csum_share in *.
  set (dcb := Z.shiftr _ (blocksize_bits sbi)) in *.
  assert (meta_num_blocks sbi / cpus sbi < TWO31) by nia.
  assert (0 <= dcb / cpus sbi).
  { apply Z.div_pos; [|lia]. apply Z.shiftr_nonneg. lia. }
  cbv zeta in *. destruct (dcb mod cpus sbi =? 0) eqn:Em; cbn [negb];
    rewrite (u64_small (start + dcb / cpus sbi)) by lia; [lia|]. wrap. lia.
Qed.

(** The bounds of the two lists of CPU [i]. *)
Lemma init_free_list_bounds sbi fl i :
  geometry sbi -> 0 <= i < cpus sbi ->
  per_data_list_blocks sbi = data_num_blocks sbi / cpus sbi ->
  per_meta_list_blocks sbi = meta_num_blocks sbi / cpus sbi ->
  let fl' := nova_init_free_list sbi fl i in
  let D := per_data_list_blocks sbi in let M := per_meta_list_blocks sbi in
  block_start (data_list fl') = D * i /\ block_end (data_list fl') = D * (i + 1) - 1
  /\ csum_start (meta_list fl') = M * i + meta_head sbi i
  /\ num_csum_blocks (meta_list fl') = csum_share sbi
  /\ block_start (meta_list fl') = M * i + meta_head sbi i + csum_share sbi
  /\ block_end (meta_list fl') = M * (i + 1) - 1 - meta_tail sbi i
  /\ block_free_tree (data_list fl') = block_free_tree (data_list fl)
  /\ block_free_tree (meta_list fl') = block_free_tree (meta_list fl).
Proof.
  intros Hg Hi HD HM fl'. cbv zeta.
  pose proof (ge_cpus _ Hg) as Hc. pose proof (ge_data _ Hg) as Hd.
  pose proof (ge_data_max _ Hg) as Hdm. pose proof (ge_meta_max _ Hg) as Hmm.
  pose proof (ge_meta _ Hg) as Hm. pose proof (ge_res _ Hg) as [Hh Ht].
  destruct (ge_size _ Hg) as [Hsz _].
  pose proof (csum_share_nonneg sbi ltac:(lia) ltac:(lia)) as Hcs.
  rewrite <- HD in Hd, Hdm. rewrite <- HM in Hm, Hmm. clear HD HM.
  set (D := per_data_list_blocks sbi) in *. set (M := per_meta_list_blocks sbi) in *.
  assert (0 <= D * i /\ D * (i + 1) < TWO31) by nia.
  assert (0 <= M * i /\ M * (i + 1) < TWO31) by nia.
  unfold fl', nova_init_free_list, nova_data_csum_init_free_list, meta_head, meta_tail.
  destruct (Z.eqb_spec i 0) as [Hi0|Hi0], (Z.eqb_spec i (cpus sbi - 1)) as [Hi1|Hi1];
    simpl; fold D M; rewrite !(u64_small (_ * i)) by lia;
    rewrite ?(u64_small (M * i + head_reserved_blocks sbi)) by lia;
    rewrite !add_share_csum by (done || lia);
    rewrite ?(u64_small (_ - 1)) by lia; rewrite ?(u64_small (_ - tail_reserved_blocks _)) by lia;
    rewrite ?(u64_small (_ - _)) by lia; split_and!; try done; lia.
Qed.

(** The lists of CPU [i] after initialisation. *)
Record list_ready (sbi : nova_sb_info) (i : Z) (fl : free_list) : Prop := {
  rd_data : list_wf (data_list fl);
  rd_data_start : block_start (data_list fl) = per_data_list_blocks sbi * i;
  rd_data_end : block_end (data_list fl) = per_data_list_blocks sbi * (i + 1) - 1;
  rd_meta : list_wf (meta_list fl);
  rd_csum : csum_start (meta_list fl) = per_meta_list_blocks sbi * i + meta_head sbi i;
  rd_csum_len : num_csum_blocks (meta_list fl) = csum_share sbi;
  rd_meta_start : block_start (meta_list fl) = csum_start (meta_list fl) + csum_share sbi;
  rd_meta_end : block_end (meta_list fl)
    = per_meta_list_blocks sbi * (i + 1) - 1 - meta_tail sbi i;
  rd_free : forall meta x, is_free (sub_list meta fl) x <->
    block_start (sub_list meta fl) <= x <= block_end (sub_list meta fl)
}.

(** mount has set the per-CPU shares. *)
Definition shares_set (sbi : nova_sb_info) : Prop :=
  per_data_list_blocks sbi = data_num_blocks sbi / cpus sbi
  /\ per_meta_list_blocks sbi = meta_num_blocks sbi / cpus sbi.

Lemma init_one_ok sbi fl i :
  (forall T, is_Some (nova_alloc_range_node T)) -> geometry sbi -> shares_set sbi ->
  0 <= i < cpus sbi ->
  block_free_tree (data_list fl) = empty_rtree ->
  block_free_tree (meta_list fl) = empty_rtree ->
  exists fl', init_one sbi false i fl = Some (inr fl') /\ list_ready sbi i fl'.
Proof.
  intros Hslab Hg [HD HM] Hi Ed Em.
  destruct (init_free_list_bounds sbi fl i Hg Hi HD HM) as (B1&B2&B3&B4&B5&B6&B7&B8).
  unfold init_one. set (fl0 := nova_init_free_list sbi fl i) in *.
  pose proof (ge_cpus _ Hg). pose proof (ge_data _ Hg) as Hd. rewrite <- HD in Hd.
  pose proof (ge_data_max _ Hg) as Hdm. pose proof (ge_meta_max _ Hg) as Hmm.
  pose proof (ge_meta _ Hg) as Hm. pose proof (ge_res _ Hg) as [Hh Ht].
  rewrite <- HD in Hdm. rewrite <- HM in Hm, Hmm. clear HD HM.
  destruct (ge_size _ Hg) as [Hsz _].
  pose proof (csum_share_nonneg sbi ltac:(lia) ltac:(lia)) as Hcs.
  set (D := per_data_list_blocks sbi) in *. set (M := per_meta_list_blocks sbi) in *.
  assert (0 <= D * i /\ D * (i + 1) < TWO31) by nia.
  assert (0 <= M * i /\ M * (i + 1) < TWO31) by nia.
  assert (0 <= meta_head sbi i <= head_reserved_blocks sbi) by (unfold meta_head; case_match; lia).
  assert (0 <= meta_tail sbi i <= tail_reserved_blocks sbi) by (unfold meta_tail; case_match; lia).
  destruct (init_sub_list_ok (data_list fl0) Hslab) as (d & -> & Hwd & (D1&D2&_) & Hfd);
    [congruence|lia..|].
  change (meta_list (set_data_list d fl0)) with (meta_list fl0).
  destruct (init_sub_list_ok (meta_list fl0) Hslab) as (m & -> & Hwm & (M1&M2&M3&M4) & Hfm);
    [congruence|lia..|].
  eexists. split; [done|]. split; simpl; try done; subst D M; try congruence.
  intros [|] x; simpl; [rewrite Hfm, M1, M2|rewrite Hfd, D1, D2]; done.
Qed.

Lemma init_lists_ok sbi n i :
  (forall T, is_Some (nova_alloc_range_node T)) -> geometry sbi -> shares_set sbi ->
  Z.of_nat (i + n) <= cpus sbi ->
  exists ls, init_lists sbi false (Z.of_nat i)
      ((fun i => FreeListRec (Z.of_nat i) zero_sub_free_list zero_sub_free_list) <$> seq i n)
    = Some ls /\ length ls = n
    /\ forall k fl, ls !! k = Some fl -> list_ready sbi (Z.of_nat (i + k)) fl.
Proof.
  intros Hslab Hg Hsh. revert i. induction n as [|n IH]; intros i Hn.
  { exists []. done. }
  cbn [seq fmap list_fmap init_lists].
  destruct (init_one_ok sbi (FreeListRec (Z.of_nat i) zero_sub_free_list zero_sub_free_list)
              (Z.of_nat i) Hslab Hg Hsh) as (fl & -> & Hr); [lia|done|done|].
  replace (Z.of_nat i + 1) with (Z.of_nat (S i)) by lia.
  destruct (IH (S i)) as (ls & E & Hlen & Hall); [lia|].
  rewrite E. exists (fl :: ls). split_and!; [done|simpl; lia|].
  intros [|k] fl' Hk; simplify_eq/=.
  - by rewrite Nat.add_0_r.
  - replace (i + S k)%nat with (S i + k)%nat by lia. by apply Hall.
Qed.

Lemma ready_lists_wf sbi ls :
  geometry sbi -> shares_set sbi -> Z.of_nat (length ls) = cpus sbi ->
  (forall k fl, ls !! k = Some fl -> list_ready sbi (Z.of_nat k) fl) -> lists_wf sbi ls.
Proof.
  intros Hg [HD HM] Hlen Hall. destruct (ge_size _ Hg) as [Hsz _].
  pose proof (ge_cpus _ Hg). pose proof (ge_res _ Hg) as [? ?].
  pose proof (csum_share_nonneg sbi ltac:(lia) ltac:(lia)) as Hcs. split; auto.
  - intros [|]; simpl.
    + pose proof (ge_meta _ Hg). lia.
    + pose proof (ge_data _ Hg). lia.
  - intros i fl meta Hi. destruct (Hall _ _ Hi). destruct meta; simpl.
    + split_and!; [done| |].
      * rewrite rd_meta_start0, rd_csum0. unfold meta_head. case_match; lia.
      * rewrite rd_meta_end0. unfold meta_tail. case_match; lia.
    + split_and!; [done|lia|lia].
Qed.

Definition with_shares (sbi : nova_sb_info) : nova_sb_info :=
  set_per_meta_list_blocks (meta_num_blocks sbi / cpus sbi)
    (set_per_data_list_blocks (data_num_blocks sbi / cpus sbi) sbi).

Lemma init_blockmap_ok sbi :
  (forall T, is_Some (nova_alloc_range_node T)) -> geometry sbi ->
  exists ls, nova_init_blockmap sbi (nova_alloc_block_free_lists sbi) false
             = Some (with_shares sbi, ls)
    /\ lists_wf (with_shares sbi) ls
    /\ forall k fl, ls !! k = Some fl -> list_ready (with_shares sbi) (Z.of_nat k) fl.
Proof.
  intros Hslab Hg. unfold nova_init_blockmap, nova_alloc_block_free_lists.
  pose proof (ge_cpus _ Hg). rewrite (proj2 (Z.leb_gt _ _)) by lia. cbv zeta.
  change (set_per_meta_list_blocks _ _) with (with_shares sbi).
  assert (Hg' : geometry (with_shares sbi)) by (destruct Hg; by split).
  assert (Hsh : shares_set (with_shares sbi)) by done.
  destruct (init_lists_ok (with_shares sbi) (Z.to_nat (cpus sbi)) 0 Hslab Hg' Hsh)
    as (ls & E & Hlen & Hall); [simpl; lia|].
  change (Z.of_nat 0) with 0 in E. rewrite E. exists ls. split; [done|].
  split; [|exact Hall]. apply ready_lists_wf; try done. simpl. lia.
Qed.
End init.
