(* ===== verification/CsumArea.v ===== *)
(** Where the checksums of a data block live: the address
    [nova_get_data_csum_addr] computes falls in the area [nova_init_blockmap]
    set aside for the CPU of the block. *)

From S2P Require Import Prelude.
From S2P Require Import Kernel.
From S2P Require Import RangeTree.
From S2P Require Import Layout.
From S2P Require Import FreeList.
From S2P Require Import FreeListSpec.
From S2P Require Import Balloc.
From S2P Require Import BallocSpec.
From S2P Require Import BallocInit.

(** One metadata device at the start of the array, as every configuration
    sets it up. *)
Definition one_meta_device (sbi : nova_sb_info) : Prop :=
  meta_nvm_num sbi = 1 /\ meta_head_nvm_idx sbi = 0 /\ (block_info_at sbi 0).1 = 0.

Lemma meta_block_off sbi b :
  one_meta_device sbi -> 0 <= b < TWO32 ->
  nova_get_block_off sbi b NOVA_BLOCK_TYPE_4K true = b * 4096.
Proof.
  intros (Hn & Hh & Hb) Hr. unfold nova_get_block_off, nova_blknr_to_nvmidx,
    nova_block_to_nvmoff, nova_blknr_to_blkidx.
  change (nova_get_numblocks NOVA_BLOCK_TYPE_4K) with 1.
  rewrite Hn, Hh, !Z.div_1_r, !Z.mod_1_r, Z.mul_1_r, !Z.add_0_r.
  change (s32 0) with 0. rewrite Hb, Z.add_0_l.
  rewrite (u64_small b), (u64_small b) by lia.
  rewrite Z.shiftl_mul_pow2 by done. change (2 ^ PAGE_SHIFT) with 4096. wrap. lia.
Qed.

Section area.
Context {RB : RbOps} {KM : KmemOps} {CR : CrcOps} {MP : ModParams}.
Context {RBL : RbLaws} {KML : KmemLaws}.

(** The checksum blocks of a CPU hold the stripes of all its data blocks. *)
Lemma csum_share_enough sbi :
  geometry sbi -> blocksize_bits sbi = 12 ->
  initsize sbi = (data_num_blocks sbi + meta_num_blocks sbi) * 4096 ->
  127 <= meta_num_blocks sbi ->
  data_num_blocks sbi / cpus sbi <= 128 * csum_share sbi.
Proof.
  intros Hg Hbits Hsz Hm. pose proof (ge_cpus _ Hg) as Hc. pose proof (ge_data _ Hg) as Hd.
  unfold csum_share. rewrite Hbits, Hsz.
  set (T := data_num_blocks sbi + meta_num_blocks sbi).
  assert (0 < data_num_blocks sbi).
  { destruct (Z_lt_le_dec 0 (data_num_blocks sbi)); [done|].
    pose proof (Z.div_le_mono (data_num_blocks sbi) 0 (cpus sbi) ltac:(lia) ltac:(lia)).
    rewrite Z.div_0_l in *; lia. }
  assert (E : Z.shiftr (Z.shiftr (T * 4096) NOVA_STRIPE_SHIFT * NOVA_DATA_CSUM_LEN) 12 = T / 128).
  { rewrite !Z.shiftr_div_pow2 by done. change (2 ^ NOVA_STRIPE_SHIFT) with 512.
    change (2 ^ 12) with 4096. change NOVA_DATA_CSUM_LEN with 4.
    replace (T * 4096) with (T * 8 * 512) by lia. rewrite Z.div_mul by lia.
    replace (T * 8 * 4) with (T * 32) by lia. replace 4096 with (128 * 32) by lia.
    apply Z.div_mul_cancel_r; lia. }
  rewrite E. cbv zeta. set (q := T / 128).
  assert (Hq : T - 127 <= 128 * q).
  { unfold q. pose proof (Z.div_mod T 128). pose proof (Z.mod_pos_bound T 128). lia. }
  set (cs := q / cpus sbi + (if q mod cpus sbi =? 0 then 0 else 1)).
  assert (Hcs : q <= cpus sbi * cs).
  { unfold cs. pose proof (Z.div_mod q (cpus sbi) ltac:(lia)).
    pose proof (Z.mod_pos_bound q (cpus sbi) ltac:(lia)).
    destruct (Z.eqb_spec (q mod cpus sbi) 0); nia. }
  pose proof (Z.mul_div_le (data_num_blocks sbi) (cpus sbi) ltac:(lia)).
  unfold T in *. nia.
Qed.

(** The address, spelled out. *)
Lemma data_csum_addr_val sbi ls i fl x :
  data_csum = true -> lists_wf sbi ls -> one_meta_device sbi ->
  ls !! i = Some fl -> list_ready sbi (Z.of_nat i) fl ->
  0 <= meta_start_virt sbi < TWO64 - 0x100000000000 -> csum_start (meta_list fl) < TWO31 ->
  0 <= csum_start (meta_list fl) ->
  block_start (data_list fl) <= x <= block_end (data_list fl) ->
  nova_get_data_csum_addr sbi ls x false
  = Some (meta_start_virt sbi + csum_start (meta_list fl) * 4096
          + 32 * (x - block_start (data_list fl))).
Proof.
  intros Hcsum Hw Hdev Hi Hr Hv Hcb Hcb0 Hx. unfold nova_get_data_csum_addr, nova_block_to_cpu.
  rewrite Hcsum. cbn [negb].
  assert (Hin : in_list ls false i x) by (exists fl; done).
  destruct (cpu_of_block _ _ _ _ _ Hw Hin) as [Ec Hxr]. unfold share in Ec.
  pose proof (lw_share _ _ Hw false) as Hs. simpl in Hs.
  rewrite (proj2 (Z.eqb_neq _ _)) by lia. rewrite Ec.
  pose proof (lookup_lt_Some _ _ _ Hi). pose proof (lw_cpus _ _ Hw).
  rewrite (proj2 (Z.leb_gt _ _)) by lia. rewrite get_free_list, Hi. cbn [mbind option_bind].
  rewrite (rd_data_start _ _ _ Hr) in *. set (D := per_data_list_blocks sbi) in *.
  replace (Z.of_nat i * D) with (D * Z.of_nat i) by lia.
  assert (0 <= D * Z.of_nat i) by nia.
  set (o := x - D * Z.of_nat i). change (PAGE_SHIFT - NOVA_STRIPE_SHIFT) with 3.
  rewrite (u64_small o) by (unfold o; lia). rewrite Z.shiftl_mul_pow2 by lia.
  change (2 ^ 3) with 8. rewrite (u64_small (o * 8)) by (unfold o; lia).
  change NOVA_DATA_CSUM_LEN with 4. rewrite (u64_small (o * 8 * 4)) by (unfold o; lia).
  replace (o * 8 * 4) with (32 * o) by lia.
  rewrite Z.shiftr_div_pow2 by done. change (2 ^ PAGE_SHIFT) with 4096.
  change (PAGE_SIZE - 1) with (Z.ones 12). rewrite Z.land_ones by lia. change (2 ^ 12) with 4096.
  assert (0 <= o < TWO31) by (unfold o; lia).
  pose proof (Z.div_mod (32 * o) 4096 ltac:(lia)) as Hdm.
  pose proof (Z.mod_pos_bound (32 * o) 4096 ltac:(lia)).
  assert (0 <= 32 * o / 4096 < TWO31)
    by (split; [apply Z.div_pos|apply Z.div_lt_upper_bound]; lia).
  rewrite (u64_small (csum_start _ + _)) by lia. rewrite meta_block_off by (done || lia).
  unfold nova_get_virt_addr_from_offset. f_equal.
  rewrite (u64_small (meta_start_virt sbi + _)) by lia. wrap. lia.
Qed.

(** All addresses of a freshly initialised device. *)
Lemma data_csum_addr_all sbi ls :
  geometry sbi -> data_csum = true -> one_meta_device sbi ->
  blocksize_bits sbi = 12 ->
  initsize sbi = (data_num_blocks sbi + meta_num_blocks sbi) * 4096 ->
  127 <= meta_num_blocks sbi -> 0 <= meta_start_virt sbi < TWO64 - 0x100000000000 ->
  lists_wf (with_shares sbi) ls ->
  (forall k fl, ls !! k = Some fl -> list_ready (with_shares sbi) (Z.of_nat k) fl) ->
  (forall x, free_block ls false x -> exists a b,
     nova_get_data_csum_addr (with_shares sbi) ls x false = Some a
     /\ meta_start_virt sbi + b * 4096 <= a
     /\ a + 32 <= meta_start_virt sbi + (b + csum_share sbi) * 4096
     /\ (forall y, b <= y < b + csum_share sbi -> ~ free_block ls true y))
  /\ (forall x y a b, free_block ls false x -> free_block ls false y -> x <> y ->
     nova_get_data_csum_addr (with_shares sbi) ls x false = Some a ->
     nova_get_data_csum_addr (with_shares sbi) ls y false = Some b ->
     a + 32 <= b \/ b + 32 <= a).
Proof.
  intros Hg Hcsum Hdev Hbits Hsz Hm Hv Hw Hr.
  pose proof (csum_share_enough sbi Hg Hbits Hsz Hm) as Hen.
  pose proof (ge_cpus _ Hg) as Hc. pose proof (ge_meta _ Hg) as Hme.
  pose proof (ge_meta_max _ Hg) as Hmm. pose proof (ge_res _ Hg) as [Hh Ht].
  destruct (ge_size _ Hg) as [Hsz0 _].
  pose proof (csum_share_nonneg sbi ltac:(lia) ltac:(lia)) as Hcs.
  set (D := data_num_blocks sbi / cpus sbi) in *.
  set (M := meta_num_blocks sbi / cpus sbi) in *.
  pose proof (lw_cpus _ _ Hw) as Hlen. simpl in Hlen.
  assert (Hval : forall x, free_block ls false x -> exists i o,
    0 <= i < cpus sbi /\ 0 <= o < D /\ x = D * i + o
    /\ nova_get_data_csum_addr (with_shares sbi) ls x false
       = Some (meta_start_virt sbi + (M * i + meta_head sbi i) * 4096 + 32 * o)).
  { intros x (i & fl & Hi & Hf). pose proof (Hr _ _ Hi) as Hrd.
    apply (rd_free _ _ _ Hrd false) in Hf. simpl in Hf.
    pose proof (rd_data_start _ _ _ Hrd) as Es. pose proof (rd_data_end _ _ _ Hrd) as Ee.
    pose proof (rd_csum _ _ _ Hrd) as Ec. simpl in Es, Ee, Ec. fold D M in Es, Ee, Ec.
    change (meta_head (with_shares sbi)) with (meta_head sbi) in Ec.
    pose proof (lookup_lt_Some _ _ _ Hi).
    assert (0 <= meta_head sbi (Z.of_nat i) <= head_reserved_blocks sbi)
      by (unfold meta_head; case_match; lia).
    assert (0 <= M * Z.of_nat i) by nia. assert (M * (Z.of_nat i + 1) < TWO31) by nia.
    exists (Z.of_nat i), (x - D * Z.of_nat i). split_and!; [lia..|].
    rewrite (data_csum_addr_val _ _ i fl) by (done || simpl; lia).
    f_equal. rewrite Ec, Es. simpl. lia. }
  split.
  - intros x Hx. destruct (Hval x Hx) as (i & o & Hi & Ho & -> & ->).
    eexists _, (M * i + meta_head sbi i). split; [done|]. split_and!; [lia|nia|].
    intros y Hy (j & fl & Hj & Hf). pose proof (Hr _ _ Hj) as Hrd.
    apply (rd_free _ _ _ Hrd true) in Hf. simpl in Hf.
    rewrite (rd_meta_start _ _ _ Hrd), (rd_csum _ _ _ Hrd), (rd_meta_end _ _ _ Hrd) in Hf.
    simpl in Hf. fold M in Hf. change (meta_head (with_shares sbi)) with (meta_head sbi) in Hf.
    change (csum_share (with_shares sbi)) with (csum_share sbi) in Hf.
    assert (forall k, 0 <= meta_head sbi k <= head_reserved_blocks sbi)
      as Hmh by (intros k; unfold meta_head; case_match; lia).
    assert (0 <= meta_tail (with_shares sbi) (Z.of_nat j)) by (unfold meta_tail; case_match; simpl; lia).
    pose proof (Hmh i). pose proof (Hmh (Z.of_nat j)).
    destruct (Ztrichotomy i (Z.of_nat j)) as [?|[?|?]]; [nia|subst i; lia|nia].
  - intros x y a b Hx Hy Hne Ea Eb.
    destruct (Hval x Hx) as (i & o & Hi & Ho & -> & E1).
    destruct (Hval y Hy) as (j & o' & Hj & Ho' & -> & E2).
    assert (forall k, 0 <= meta_head sbi k <= head_reserved_blocks sbi)
      as Hmh by (intros k; unfold meta_head; case_match; lia).
    pose proof (Hmh i). pose proof (Hmh j).
    rewrite E1 in Ea. rewrite E2 in Eb. injection Ea as <-. injection Eb as <-.
    destruct (Ztrichotomy i j) as [?|[->|?]]; [left; nia|lia|right; nia].
Qed.
End area.
