(* ===== verification/BallocTheorems.v ===== *)
(** The properties of the block allocator, each with an instance on a small
    device: two CPUs, 4096 data blocks, 1024 metadata blocks. *)

From S2P Require Import Prelude.
From S2P Require Import Kernel.
From S2P Require Import RangeTree.
From S2P Require Import RangeTreeSpec.
From S2P Require Import Layout.
From S2P Require Import FreeList.
From S2P Require Import FreeListSpec.
From S2P Require Import AllocSpec.
From S2P Require Import Balloc.
From S2P Require Import BallocSpec.
From S2P Require Import BallocInit.
From S2P Require Import CsumArea.

(** ** The small device *)
Module Demo.
#[export] Existing Instances Concrete.rb_ops Concrete.rb_laws Concrete.kmem_ops
  Concrete.kmem_laws Concrete.crc_ops Concrete.crc_laws.
#[export] Instance params : ModParams := {|
  metadata_csum := true; data_csum := true; data_parity := true;
  dram_struct_csum := false; support_clwb := true
|}.

Definition sbi0 : nova_sb_info :=
  set_meta_start_virt 0x100000000 (set_data_start_virt 0x200000000
    (set_data_num_blocks 4096 (set_meta_num_blocks 1024
      (set_initsize (5120 * 4096) (set_blocksize_bits 12
        (set_head_reserved_blocks 64 (set_tail_reserved_blocks 2
          (set_cpus 2 (set_meta_nvm_num 1 (set_data_nvm_num 1
            (set_data_head_nvm_idx 1 zero_sb_info))))))))))).
Definition sbi : nova_sb_info := with_shares sbi0.

Definition lists : list free_list :=
  match nova_init_blockmap sbi0 (nova_alloc_block_free_lists sbi0) false with
  | Some (_, ls) => ls
  | None => []
  end.

Lemma slab : forall T, is_Some (nova_alloc_range_node T).
Proof. intros T. by eexists. Qed.

Lemma sbi0_geometry : geometry sbi0.
Proof. split; vm_compute; split_and?; done. Qed.

Lemma lists_ready :
  lists_wf sbi lists
  /\ forall k fl, lists !! k = Some fl -> list_ready sbi (Z.of_nat k) fl.
Proof.
  destruct (init_blockmap_ok sbi0 slab sbi0_geometry) as (ls & E & Hw & Hr).
  unfold lists. rewrite E. done.
Qed.

Lemma lists_fuel : enough_fuel lists 8.
Proof.
  intros i fl meta Hi.
  assert (Hin : fl ∈ lists) by (by eapply list_elem_of_lookup_2).
  clear i Hi. revert fl Hin. apply Forall_forall.
  destruct meta; vm_compute; repeat constructor.
Qed.
End Demo.

Section theorems.
Context {RB : RbOps} {KM : KmemOps} {CR : CrcOps} {MP : ModParams}.
Context {RBL : RbLaws} {KML : KmemLaws}.

(** The slab allocator does not fail. *)
Definition slab_available : Prop := forall T, is_Some (nova_alloc_range_node T).

(** C1. [nova_new_blocks] (balloc.c) on well-formed lists always returns.
    Either it reports -ENOSPC and changes nothing, which for a request of 4K
    data blocks happens only when no data block is free on any CPU; or it
    returns [r > 0] blocks of the requested size, at most as many as asked,
    all free before, none free after, every other block as before, the lists
    well formed, and exactly those blocks zeroed when zeroing was asked for. *)
Theorem new_blocks_allocates fuel sbi deleg numa this ls blocknr num btype zero atype cpuid dir :
  lists_wf sbi ls -> slab_available -> enough_fuel ls fuel ->
  0 <= this -> cpuid = ANY_CPU \/ 0 <= cpuid < cpus sbi ->
  0 <= btype <= 2 -> 0 < num * nova_get_numblocks btype < TWO31 ->
  exists r b ls' z,
    nova_new_blocks fuel sbi deleg numa this ls blocknr num btype zero atype cpuid dir
      = Some (r, b, ls', z)
    /\ (r = - ENOSPC /\ b = blocknr /\ ls' = ls /\ z = []
          /\ (atype = DATA -> btype = 0 -> forall x, ~ free_block ls false x)
        \/ 0 < r <= num
          /\ allocated sbi ls (is_LOG atype) (r * nova_get_numblocks btype) b ls'
          /\ z = if zero then zero_blocks sbi deleg numa b r btype (is_LOG atype) else []).
Proof.
  intros Hw Hslab Hfuel Hthis Hcpu Hb Hnum.
  destruct (new_blocks_spec fuel sbi deleg numa this ls blocknr num btype zero atype cpuid dir
              Hw Hslab Hthis Hcpu Hnum Hfuel)
    as (r & b & ls' & z & E & [?|(n & Hn & _ & Hr & Hal & Hz)]);
    exists r, b, ls', z; (split; [done|]); [by left|right].
  destruct (Hr Hb) as [Hpos ->]. pose proof (numblocks_pos btype). split_and!; done || nia.
Qed.

(** C2. [nova_free_blocks] on a range of blocks of one CPU, none of which is
    free, succeeds: exactly those blocks become free, the lists stay well
    formed (nodes merged, sorted, disjoint, counted) and keep their bounds, and
    the counters grow by their number. *)
Theorem free_blocks_frees sbi ls meta i blocknr num btype :
  lists_wf sbi ls -> slab_available -> 0 < num ->
  in_list ls meta i blocknr ->
  in_list ls meta i (blocknr + nova_get_numblocks btype * num - 1) ->
  (forall x, blocknr <= x < blocknr + nova_get_numblocks btype * num -> ~ free_block ls meta x) ->
  exists ls', nova_free_blocks sbi ls blocknr num btype meta = Some (0, ls')
    /\ lists_wf sbi ls'
    /\ (forall meta' x, free_block ls' meta' x <-> free_block ls meta' x \/
          (meta' = meta /\ blocknr <= x < blocknr + nova_get_numblocks btype * num))
    /\ (forall meta', sum_free meta' ls' = sum_free meta' ls
          + if decide (meta' = meta) then nova_get_numblocks btype * num else 0)
    /\ (forall meta' j x, in_list ls meta' j x -> in_list ls' meta' j x).
Proof. apply free_blocks_spec. Qed.

(** A free that must be refused is refused and changes nothing: a
    non-positive count (-EINVAL), block 0 of the log area (-EINVAL), a range
    that leaves the list of its CPU by more than one block (-EIO), a first
    block that is already free (-EINVAL). *)
Theorem free_blocks_refuses sbi ls i blocknr num btype :
  lists_wf sbi ls -> slab_available ->
  (num <= 0 -> forall log, nova_free_blocks sbi ls blocknr num btype log = Some (- EINVAL, ls))
  /\ nova_free_log_blocks sbi ls btype 0 num = Some (- EINVAL, ls)
  /\ (forall meta fl, ls !! i = Some fl -> in_list ls meta i blocknr ->
       0 < num -> num * nova_get_numblocks btype < TWO31 ->
       (block_end (sub_list meta fl) + 1 < blocknr + nova_get_numblocks btype * num - 1 ->
        nova_free_blocks sbi ls blocknr num btype meta = Some (- EIO, ls))
       /\ (blocknr + nova_get_numblocks btype * num - 1 <= block_end (sub_list meta fl) ->
           free_block ls meta blocknr ->
           nova_free_blocks sbi ls blocknr num btype meta = Some (- EINVAL, ls))).
Proof.
  intros Hw Hslab. split_and!.
  - intros Hn log. unfold nova_free_blocks. by rewrite (proj2 (Z.leb_le _ _)).
  - done.
  - intros meta fl Hi Hin Hn Hmax. destruct (lw_list _ _ Hw _ _ meta Hi) as (Hl & ? & ?).
    pose proof (numblocks_pos btype). pose proof Hin as (fl' & Hi' & Hbd). simplify_eq.
    pose proof (li_bounds _ _ Hl).
    assert (0 < nova_get_numblocks btype * num < TWO31) by nia.
    split; intros Hend; [|intros Hfree]; rewrite (free_blocks_at _ _ _ i fl) by done.
    + rewrite free_blocks_in_list_range; [by rewrite store_same|apply Hslab|].
      right. rewrite (u64_small (_ * num)) by lia. rewrite !u64_small; lia.
    + rewrite free_blocks_in_list_double; [by rewrite store_same|done|apply Hslab| |].
      * apply (free_block_at sbi ls meta i fl); [done|done|lia|done].
      * rewrite (u64_small (_ * num)) by lia. rewrite !u64_small; lia.
Qed.

(** C4. After mkfs ([nova_alloc_block_free_lists], [nova_init_blockmap] with
    [recovery = 0]) the lists are well formed, every data block below
    [per_data_list_blocks * cpus] is free, and a metadata block is free
    exactly when it lies in the share of a CPU, outside the reserved head and
    tail and outside the checksum area of that CPU. *)
Theorem init_blockmap_free sbi :
  slab_available -> geometry sbi ->
  exists ls, nova_init_blockmap sbi (nova_alloc_block_free_lists sbi) false
             = Some (with_shares sbi, ls)
    /\ lists_wf (with_shares sbi) ls
    /\ (forall x, free_block ls false x <->
          0 <= x < data_num_blocks sbi / cpus sbi * cpus sbi)
    /\ (forall x, free_block ls true x <->
          exists i, 0 <= i < cpus sbi
            /\ meta_num_blocks sbi / cpus sbi * i + meta_head sbi i + csum_share sbi <= x
            /\ x <= meta_num_blocks sbi / cpus sbi * (i + 1) - 1 - meta_tail sbi i).
Proof.
  intros Hslab Hg. destruct (init_blockmap_ok sbi Hslab Hg) as (ls & E & Hw & Hr).
  exists ls. split_and!; [done..| |].
  - pose proof (ge_cpus _ Hg) as Hc. pose proof (ge_data _ Hg) as Hd.
    pose proof (lw_cpus _ _ Hw) as Hlen. simpl in Hlen.
    set (D := data_num_blocks sbi / cpus sbi) in *. intros x. split.
    + intros (i & fl & Hi & Hf). pose proof (Hr _ _ Hi) as Hrd.
      apply (rd_free _ _ _ Hrd false) in Hf. simpl in Hf.
      rewrite (rd_data_start _ _ _ Hrd), (rd_data_end _ _ _ Hrd) in Hf. simpl in Hf. fold D in Hf.
      pose proof (lookup_lt_Some _ _ _ Hi). nia.
    + intros Hx. pose proof (Z.div_mod x D ltac:(lia)). pose proof (Z.mod_pos_bound x D Hd).
      assert (0 <= x / D < cpus sbi) by (split; [apply Z.div_pos|apply Z.div_lt_upper_bound]; nia).
      destruct (lookup_lt_is_Some_2 ls (Z.to_nat (x / D))) as [fl Hi]; [lia|].
      exists (Z.to_nat (x / D)), fl. split; [done|]. pose proof (Hr _ _ Hi) as Hrd.
      apply (rd_free _ _ _ Hrd false). simpl.
      rewrite (rd_data_start _ _ _ Hrd), (rd_data_end _ _ _ Hrd). simpl. fold D. nia.
  - intros x. pose proof (lw_cpus _ _ Hw) as Hlen. simpl in Hlen. split.
    + intros (i & fl & Hi & Hf). pose proof (Hr _ _ Hi) as Hrd.
      apply (rd_free _ _ _ Hrd true) in Hf. simpl in Hf.
      rewrite (rd_meta_start _ _ _ Hrd), (rd_csum _ _ _ Hrd), (rd_meta_end _ _ _ Hrd) in Hf.
      pose proof (lookup_lt_Some _ _ _ Hi). exists (Z.of_nat i). split; [lia|]. exact Hf.
    + intros (i & Hic & Hx). destruct (lookup_lt_is_Some_2 ls (Z.to_nat i)) as [fl Hi]; [lia|].
      exists (Z.to_nat i), fl. split; [done|]. pose proof (Hr _ _ Hi) as Hrd.
      apply (rd_free _ _ _ Hrd true). simpl.
      rewrite (rd_meta_start _ _ _ Hrd), (rd_csum _ _ _ Hrd), (rd_meta_end _ _ _ Hrd).
      rewrite Z2Nat.id by lia. exact Hx.
Qed.

(** Allocation and freeing are inverse on the free set: freeing the
    blocks an allocation returned restores exactly the free blocks there were
    before it, and [nova_count_free_blocks] its value. *)
Theorem free_undoes_new sbi ls n b ls' btype num meta :
  lists_wf sbi ls -> slab_available -> 0 < num -> n = nova_get_numblocks btype * num ->
  allocated sbi ls meta n b ls' ->
  exists ls'', nova_free_blocks sbi ls' b num btype meta = Some (0, ls'')
    /\ lists_wf sbi ls''
    /\ (forall meta' x, free_block ls'' meta' x <-> free_block ls meta' x)
    /\ nova_count_free_blocks ls'' = nova_count_free_blocks ls.
Proof.
  intros Hw Hslab Hn -> Hal. pose proof (al_wf _ _ _ _ _ _ Hal) as Hw'.
  destruct (al_cpu _ _ _ _ _ _ Hal) as (i & (fl & Hi & Hb1) & (fl' & Hi' & Hb2)). simplify_eq.
  pose proof (al_frame _ _ _ _ _ _ Hal meta i) as Hfr.
  destruct (free_blocks_spec sbi ls' meta i b num btype) as (ls'' & E & Hw'' & Hf & Hs & _); auto.
  - apply Hfr. by exists fl.
  - apply Hfr. by exists fl.
  - intros x Hx Hfx. apply (al_free _ _ _ _ _ _ Hal) in Hfx as [_ Hfx]. tauto.
  - exists ls''. split_and!; [done..| |].
    + intros meta' x. rewrite Hf, (al_free _ _ _ _ _ _ Hal).
      destruct (decide (meta' = meta /\ b <= x < b + nova_get_numblocks btype * num)) as [Hx|Hx].
      * destruct Hx as [-> Hx]. pose proof (al_was_free _ _ _ _ _ _ Hal x Hx). tauto.
      * tauto.
    + rewrite (proj1 (count_sum _ _ Hw'')), (proj1 (count_sum _ _ Hw)), Hs,
        (al_sum _ _ _ _ _ _ Hal). case_decide; lia.
Qed.

(** C6. The huge-page walk [nova_alloc_superpage]: with as much fuel as the
    list has nodes it returns; either nothing is taken, and then no node
    holds 512 blocks after the margin the walk skips, or it takes whole
    2 MB pages that start on a 2 MB boundary, at most what was asked. *)
Theorem superpage_aligned l num nb dir fuel :
  list_wf l -> slab_available -> 0 < num < TWO31 ->
  IS_DATABLOCKS_2MB_ALIGNED num DATA = true -> (length (fids l) <= fuel)%nat ->
  exists n b l', nova_alloc_superpage fuel l num nb dir = Some (n, b, l')
    /\ (n = 0 /\ b = nb /\ l' = l
           /\ (forall p, p ∈ fids l ->
                node_size l p - left_margin_of (range_low (node l p)) < 512) \/
        taken l n b l' /\ n <= num /\ n mod 512 = 0 /\ b mod 512 = 0).
Proof.
  intros Hw Hslab Hnum Hal Hf. unfold IS_DATABLOCKS_2MB_ALIGNED in Hal. zbool.
  rewrite land_511 in *.
  destruct (alloc_superpage_ok l num nb dir fuel) as (n & b & l' & E & Hres); try done.
  exists n, b, l'. split; [done|]. destruct Hres as [?|(?&?&?&?&?)]; auto.
Qed.

(** C7. After mkfs, the checksums of a data block ([nova_get_data_csum_addr])
    lie inside the checksum area of its CPU, which no allocation ever
    returns, and the checksums of two blocks never overlap. *)
Theorem data_csum_area sbi :
  slab_available -> geometry sbi -> data_csum = true -> one_meta_device sbi ->
  blocksize_bits sbi = 12 ->
  initsize sbi = (data_num_blocks sbi + meta_num_blocks sbi) * 4096 ->
  127 <= meta_num_blocks sbi -> 0 <= meta_start_virt sbi < TWO64 - 0x100000000000 ->
  exists ls, nova_init_blockmap sbi (nova_alloc_block_free_lists sbi) false
             = Some (with_shares sbi, ls)
    /\ (forall x, free_block ls false x -> exists a b,
          nova_get_data_csum_addr (with_shares sbi) ls x false = Some a
          /\ meta_start_virt sbi + b * 4096 <= a
          /\ a + 32 <= meta_start_virt sbi + (b + csum_share sbi) * 4096
          /\ (forall y, b <= y < b + csum_share sbi -> ~ free_block ls true y))
    /\ (forall x y a b, free_block ls false x -> free_block ls false y -> x <> y ->
          nova_get_data_csum_addr (with_shares sbi) ls x false = Some a ->
          nova_get_data_csum_addr (with_shares sbi) ls y false = Some b ->
          a + 32 <= b \/ b + 32 <= a).
Proof.
  intros Hslab Hg Hcsum Hdev Hbits Hsz Hm Hv.
  destruct (init_blockmap_ok sbi Hslab Hg) as (ls & E & Hw & Hr).
  exists ls. split; [done|].
  destruct (data_csum_addr_all sbi ls Hg Hcsum Hdev Hbits Hsz Hm Hv Hw Hr) as [Ha Hd].
  split; [|exact Hd]. intros x Hx. destruct (Ha x Hx) as (a & b & ? & ? & ? & ?). eauto 10.
Qed.
End theorems.

(** ** Instances on the small device *)
Section witnesses.
Import Demo.

Lemma block0_free : free_block lists false 0.
Proof.
  destruct (lists_ready) as [Hw Hr]. destruct (lookup_lt_is_Some_2 lists 0) as [fl Hi].
  { pose proof (lw_cpus _ _ Hw) as H. change (cpus sbi) with 2 in H. lia. }
  exists 0%nat, fl. split; [done|]. pose proof (Hr _ _ Hi) as Hrd.
  apply (rd_free _ _ _ Hrd false). simpl.
  rewrite (rd_data_start _ _ _ Hrd), (rd_data_end _ _ _ Hrd). vm_compute. done.
Qed.

Lemma some_allocation :
  exists num b ls', 0 < num /\ allocated sbi lists false num b ls'.
Proof.
  destruct (new_blocks_spec 8 sbi false (fun _ => 0) 0 lists 0 4 0 true DATA ANY_CPU ALLOC_FROM_HEAD)
    as (r & b & ls' & z & _ & [(_&_&_&_&H)|(n & Hn & _ & _ & Hal & _)]).
  - apply lists_ready. - apply slab. - lia. - by left. - vm_compute; done.
  - apply lists_fuel.
  - by destruct (H eq_refl eq_refl 0 block0_free).
  - exists n, b, ls'. split; [lia|exact Hal].
Qed.

Lemma new_blocks_allocates_witness :
  exists r b ls' z,
    nova_new_blocks 8 sbi false (fun _ => 0) 0 lists 0 4 0 true DATA ANY_CPU ALLOC_FROM_HEAD
      = Some (r, b, ls', z)
    /\ (r = - ENOSPC /\ b = 0 /\ ls' = lists /\ z = []
          /\ (DATA = DATA -> 0 = 0 -> forall x, ~ free_block lists false x)
        \/ 0 < r <= 4
          /\ allocated sbi lists false (r * nova_get_numblocks 0) b ls'
          /\ z = zero_blocks sbi false (fun _ => 0) b r 0 false).
Proof.
  apply (new_blocks_allocates 8 sbi false (fun _ => 0) 0 lists 0 4 0 true DATA ANY_CPU
           ALLOC_FROM_HEAD).
  - apply lists_ready.
  - exact slab.
  - apply lists_fuel.
  - lia.
  - by left.
  - lia.
  - vm_compute; done.
Defined.

Lemma free_blocks_frees_witness :
  exists num b ls1 i ls2, allocated sbi lists false num b ls1
    /\ in_list ls1 false i b
    /\ nova_free_blocks sbi ls1 b num 0 false = Some (0, ls2) /\ lists_wf sbi ls2.
Proof.
  destruct some_allocation as (num & b & ls1 & Hn & Hal).
  destruct (al_cpu _ _ _ _ _ _ Hal) as (i & Hi1 & Hi2).
  assert (Hb : forall x, b <= x < b + nova_get_numblocks 0 * num -> ~ free_block ls1 false x).
  { intros x Hx Hf. change (nova_get_numblocks 0) with 1 in Hx.
    apply (al_free _ _ _ _ _ _ Hal) in Hf as [_ Hf]. apply Hf. split; [done|lia]. }
  assert (Hi3 : in_list ls1 false i (b + nova_get_numblocks 0 * num - 1)).
  { change (nova_get_numblocks 0) with 1. rewrite Z.mul_1_l. by apply (al_frame _ _ _ _ _ _ Hal). }
  destruct (free_blocks_frees sbi ls1 false i b num 0 (al_wf _ _ _ _ _ _ Hal) slab Hn
              (al_frame _ _ _ _ _ _ Hal _ i b Hi1) Hi3 Hb) as (ls2 & E & Hw & _).
  exists num, b, ls1, i, ls2. split_and!; [done|by apply (al_frame _ _ _ _ _ _ Hal)|done|done].
Defined.

Lemma free_blocks_refuses_witness :
  lists_wf sbi lists /\ nova_free_blocks sbi lists 5 0 0 false = Some (- EINVAL, lists)
  /\ nova_free_blocks sbi lists 0 1 0 false = Some (- EINVAL, lists).
Proof.
  destruct lists_ready as [Hw Hr].
  assert (Hsome : is_Some (lists !! 0%nat)).
  { apply lookup_lt_is_Some_2. pose proof (lw_cpus _ _ Hw) as H.
    change (cpus sbi) with 2 in H. lia. }
  destruct Hsome as [fl Hi]. pose proof (Hr _ _ Hi) as Hrd.
  pose proof (rd_data_start _ _ _ Hrd) as Es. pose proof (rd_data_end _ _ _ Hrd) as Ee.
  change (per_data_list_blocks sbi) with 2048 in *. simpl in Es, Ee.
  split_and!; [done| |].
  - by apply (free_blocks_refuses sbi lists 0%nat 5 0 0 Hw slab).
  - destruct (free_blocks_refuses sbi lists 0%nat 0 1 0 Hw slab) as (_ & _ & H).
    destruct (H false fl Hi) as [_ H2].
    + exists fl. split; [done|]. simpl. lia.
    + lia.
    + vm_compute; done.
    + apply H2; [|apply block0_free]. simpl. rewrite Ee. vm_compute. done.
Defined.

Lemma init_blockmap_free_witness :
  exists ls, nova_init_blockmap sbi0 (nova_alloc_block_free_lists sbi0) false
             = Some (with_shares sbi0, ls)
    /\ lists_wf (with_shares sbi0) ls.
Proof.
  destruct (init_blockmap_free sbi0 slab sbi0_geometry) as (ls & E & Hw & _).
  exists ls. split; [exact E|exact Hw].
Defined.

Lemma free_undoes_new_witness :
  exists num b ls1 ls2, allocated sbi lists false num b ls1
    /\ nova_free_blocks sbi ls1 b num 0 false = Some (0, ls2)
    /\ nova_count_free_blocks ls2 = nova_count_free_blocks lists.
Proof.
  destruct some_allocation as (num & b & ls1 & Hn & Hal).
  destruct (free_undoes_new sbi lists num b ls1 0 num false (proj1 lists_ready) slab Hn)
    as (ls2 & E & _ & _ & Hc); [by destruct num|exact Hal|].
  exists num, b, ls1, ls2. split_and!; done.
Defined.

(** The first list of the small device. *)
Definition list0 : sub_free_list :=
  match lists with fl :: _ => data_list fl | [] => zero_sub_free_list end.

Lemma list0_wf : list_wf list0.
Proof.
  destruct lists_ready as [Hw Hr]. unfold list0. destruct lists as [|fl ls] eqn:E.
  - pose proof (lw_cpus _ _ Hw) as H. change (cpus sbi) with 2 in H. simpl in H. lia.
  - apply (rd_data _ _ _ (Hr 0%nat fl eq_refl)).
Qed.

Lemma superpage_aligned_witness :
  exists n b l', nova_alloc_superpage 8 list0 512 0 ALLOC_FROM_HEAD = Some (n, b, l')
    /\ (n = 0 /\ b = 0 /\ l' = list0
           /\ (forall p, p ∈ fids list0 ->
                node_size list0 p - left_margin_of (range_low (node list0 p)) < 512) \/
        taken list0 n b l' /\ n <= 512 /\ n mod 512 = 0 /\ b mod 512 = 0).
Proof.
  apply (superpage_aligned list0 512 0 ALLOC_FROM_HEAD 8).
  - apply list0_wf.
  - exact slab.
  - lia.
  - reflexivity.
  - vm_compute. lia.
Defined.

Lemma data_csum_area_witness :
  exists ls a, nova_init_blockmap sbi0 (nova_alloc_block_free_lists sbi0) false
             = Some (with_shares sbi0, ls)
    /\ nova_get_data_csum_addr (with_shares sbi0) ls 2049 false = Some a.
Proof.
  destruct (data_csum_area sbi0 slab sbi0_geometry) as (ls & E & Ha & _);
    [done|done|done|done|vm_compute; done|vm_compute; done|].
  pose proof (init_blockmap_ok sbi0 slab sbi0_geometry) as (ls' & E' & Hw & Hr).
  rewrite E in E'. injection E' as <-.
  assert (Hf : free_block ls false 2049).
  { destruct (lookup_lt_is_Some_2 ls 1) as [fl Hi].
    { pose proof (lw_cpus _ _ Hw) as H. change (cpus (with_shares sbi0)) with 2 in H. lia. }
    exists 1%nat, fl. split; [done|]. pose proof (Hr _ _ Hi) as Hrd.
    apply (rd_free _ _ _ Hrd false). simpl.
    rewrite (rd_data_start _ _ _ Hrd), (rd_data_end _ _ _ Hrd). vm_compute. done. }
  destruct (Ha 2049 Hf) as (a & _ & Hx & _). exists ls, a. split; [exact E|exact Hx].
Defined.
End witnesses.

(** ** What the model shows on concrete inputs *)
Section observations.
Import Demo.

(** CPU 0 after a request for all its 2048 data blocks: the huge-page walk
    takes 512..2047. *)
Definition lists_cpu0_taken : list free_list :=
  match nova_new_blocks 8 sbi false (fun _ => 0) 0 lists 0 2048 0 false DATA 0 ALLOC_FROM_HEAD with
  | Some (_, _, ls, _) => ls
  | None => []
  end.

(** The bounds check of [nova_free_blocks] (balloc.c:468) compares with
    [block_end + 1]: blocks 2047..2048 are accepted into the list of CPU 0
    although block 2048 belongs to CPU 1, where it is free already. *)
Lemma free_accepts_next_cpu_block :
  match nova_free_blocks sbi lists_cpu0_taken 2047 2 0 false with
  | Some (ret, [a; b]) =>
      ret = 0 /\ franges (data_list a) = [(0, 511); (2047, 2048)]
      /\ block_end (data_list a) = 2047 /\ franges (data_list b) = [(2048, 4095)]
  | _ => False
  end.
Proof. vm_compute. done. Qed.

(** [nova_data_parity_init_free_list] is never called (balloc.c:150), so
    [parity_start] stays 0 and the parity page of a data block is the block
    of the superblock. *)
Lemma parity_page_is_superblock :
  nova_get_parity_addr sbi lists 2048 = Some (meta_start_virt sbi).
Proof. vm_compute. done. Qed.

Definition node_of (lo hi : Z) : range_node := RangeNode 0 0 lo hi 0.
Definition two_nodes : gmap ptr range_node :=
  list_to_map [(1%positive, node_of 0 9); (2%positive, node_of 25 40)].

(** [nova_find_free_slot] checks one neighbour only: freeing 20..30 while
    25..40 is free is refused or accepted depending on the shape of the
    tree. *)
Lemma find_free_slot_shape :
  nova_find_free_slot (RTree (RbNode RbLeaf 1%positive (RbNode RbLeaf 2%positive RbLeaf)) two_nodes)
    20 30 = (- EINVAL, None, None)
  /\ nova_find_free_slot (RTree (RbNode (RbNode RbLeaf 1%positive RbLeaf) 2%positive RbLeaf) two_nodes)
    20 30 = (0, Some 1%positive, Some 2%positive).
Proof. vm_compute. done. Qed.

(** A free run that starts on a 2 MB boundary and is 2 MB long cannot be
    allocated as a huge page: the walk always skips up to the next
    boundary. *)
Definition aligned_run : sub_free_list :=
  set_num_free_blocks 512 (set_num_blocknode 1
    (set_first_node (Some 1%positive) (set_last_node (Some 1%positive)
      (set_block_end 2047 (set_block_free_tree
        (RTree (RbNode RbLeaf 1%positive RbLeaf) {[1%positive := node_of 512 1023]})
        zero_sub_free_list))))).

Lemma aligned_run_not_huge :
  nova_alloc_superpage 8 aligned_run 512 0 ALLOC_FROM_HEAD = Some (0, 0, aligned_run).
Proof. vm_compute. done. Qed.
End observations.
