(* ===== verification/Pmem.v ===== *)
(** Persistent memory as the file system sees it (nova_def.h): 8-byte words
    behind a volatile cache.

    A store is visible at once but durable only after its cache line was
    written back ([clwb], [clflush]) and a later [sfence]; until then the line
    may or may not have reached the media.  The model keeps, for every word,
    the values that may be the durable one; it lets the words of a line go to
    the media independently, which allows every behaviour of the hardware and
    more.

    Code that touches persistent memory is a [PM] computation: given the memory
    it returns a value and the list of stores, flushes and fences it performs.
    A crash may fall between any two of them. *)

From S2P Require Import Prelude.
From S2P Require Import Kernel.

Definition CACHELINE_SIZE : Z := 64.

(** The values a word may have on the media, the newest first, and the number
    of stores since the line was last written back (if it was, since the last
    fence). *)
Record cell := Cell { hist : list Z; mark : option nat }.

Abbreviation mem := (gmap Z cell).

Definition zero_cell : cell := Cell [0] None.
Definition cell_at (m : mem) (a : Z) : cell := default zero_cell (m !! a).
(** What a load returns. *)
Definition cur (m : mem) (a : Z) : Z := default 0 (head (hist (cell_at m a))).

Inductive pact :=
  | Store (a v : Z)                  (** 8-byte aligned store *)
  | StoreNt (a v : Z)                (** non-temporal store *)
  | Clwb (a : Z)                     (** write back the line of [a] *)
  | Fence.                           (** [sfence] *)

Definition line (a : Z) : Z := a / CACHELINE_SIZE.
Definition line_words (a : Z) : list Z :=
  (fun i : nat => line a * CACHELINE_SIZE + 8 * Z.of_nat i) <$> seq 0 8.

Definition store_cell (v : Z) (c : cell) : cell := Cell (v :: hist c) (S <$> mark c).
Definition mark_cell (c : cell) : cell := Cell (hist c) (Some 0%nat).
Definition fence_cell (c : cell) : cell :=
  match mark c with
  | Some k => Cell (take (S k) (hist c)) None
  | None => c
  end.

Definition exec1 (p : pact) (m : mem) : mem :=
  match p with
  | Store a v => <[a := store_cell v (cell_at m a)]> m
  | StoreNt a v => <[a := mark_cell (store_cell v (cell_at m a))]> m
  | Clwb a => foldr (fun w m => <[w := mark_cell (cell_at m w)]> m) m (line_words a)
  | Fence => fence_cell <$> m
  end.

Definition exec (t : list pact) (m : mem) : mem := fold_left (fun m p => exec1 p m) t m.

(** ** Crashes *)

(** [crashed m s]: the media may hold [s] when power fails in state [m]. *)
Definition crashed (m : mem) (s : Z -> Z) : Prop := forall a, s a ∈ hist (cell_at m a).

(** The memory after the reboot. *)
Definition reboot (m : mem) (s : Z -> Z) : mem :=
  map_imap (fun a _ => Some (Cell [s a] None)) m.

(** ** Computations *)

Definition PM (A : Type) : Type := mem -> A * list pact.

#[export] Instance pm_ret : MRet PM := fun A x _ => (x, []).
#[export] Instance pm_bind : MBind PM := fun A B f x m =>
  let '(a, t1) := x m in
  let '(b, t2) := f a (exec t1 m) in
  (b, t1 ++ t2).

Definition load (a : Z) : PM Z := fun m => (cur m a, []).
Definition act (p : pact) : PM () := fun _ => ((), [p]).
Definition acts (t : list pact) : PM () := fun _ => ((), t).

Definition store64 (a v : Z) : PM () := act (Store a v).
(** 4-byte stores into the low and the high half of a word. *)
Definition store32_lo (a v : Z) : PM () :=
  w ← load a; store64 a (Z.lor (Z.shiftl (Z.shiftr w 32) 32) (u32 v)).
Definition store32_hi (a v : Z) : PM () :=
  w ← load a; store64 a (Z.lor (Z.shiftl (u32 v) 32) (u32 w)).

Definition PERSISTENT_BARRIER : PM () := act Fence.

(** The loop of [nova_flush_buffer]: [i] is a [uint32_t]. *)
Fixpoint flush_loop (fuel : nat) (buf i len : Z) : list pact :=
  match fuel with
  | O => []
  | S fuel' =>
      if i <? len then Clwb (buf + i) :: flush_loop fuel' buf (u32 (i + CACHELINE_SIZE)) len
      else []
  end.

(** [clwb] and [clflush] have the same effect on the durable state. *)
Definition nova_flush_buffer (buf len : Z) (fence : bool) : PM () :=
  let len := u32 (len + Z.land buf (CACHELINE_SIZE - 1)) in
  acts (flush_loop (S (Z.to_nat (len / CACHELINE_SIZE))) buf 0 len);;
  if fence then PERSISTENT_BARRIER else mret ().

(** [memcpy_to_pmem_nocache] of [n] words. *)
Fixpoint memcpy_to_pmem_nocache (dst src : Z) (n : nat) : PM () :=
  match n with
  | O => mret ()
  | S n' =>
      w ← load src; act (StoreNt dst w);;
      memcpy_to_pmem_nocache (dst + 8) (src + 8) n'
  end.

(** ** Arrays of words *)

Fixpoint load_words (a : Z) (n : nat) : PM (list Z) :=
  match n with
  | O => mret []
  | S n' => w ← load a; ws ← load_words (a + 8) n'; mret (w :: ws)
  end.

(** [memcpy] of a buffer in DRAM, with ordinary or non-temporal stores. *)
Fixpoint store_acts (a : Z) (ws : list Z) : list pact :=
  match ws with
  | [] => []
  | w :: ws => Store a w :: store_acts (a + 8) ws
  end.
Fixpoint store_nt_acts (a : Z) (ws : list Z) : list pact :=
  match ws with
  | [] => []
  | w :: ws => StoreNt a w :: store_nt_acts (a + 8) ws
  end.
Definition store_words (a : Z) (ws : list Z) : PM () := acts (store_acts a ws).
Definition store_nt_words (a : Z) (ws : list Z) : PM () := acts (store_nt_acts a ws).

(** A 4-byte load, and a 4-byte non-temporal store, at a multiple of 4. *)
Definition load32 (p : Z) : PM Z :=
  w ← load (Z.land p (Z.lnot 7));
  mret (if p mod 8 =? 0 then u32 w else u32 (Z.shiftr w 32)).
Definition store_nt32 (p v : Z) : PM () :=
  let a := Z.land p (Z.lnot 7) in
  w ← load a;
  act (StoreNt a (if p mod 8 =? 0 then Z.lor (Z.shiftl (Z.shiftr w 32) 32) (u32 v)
                  else Z.lor (Z.shiftl (u32 v) 32) (u32 w))).
