(* ===== verification/PmemSpec.v ===== *)
(** Reasoning about persistent memory one word at a time: what a trace of
    stores, flushes and fences leaves visible, and what a crash can expose. *)

From S2P Require Import Prelude.
From S2P Require Import Kernel.
From S2P Require Import Pmem.

(** The effect of one action on the word at [a]. *)
Definition step_cell (a : Z) (p : pact) (c : cell) : cell :=
  match p with
  | Store b v => if decide (b = a) then store_cell v c else c
  | StoreNt b v => if decide (b = a) then mark_cell (store_cell v c) else c
  | Clwb b => if decide (a ∈ line_words b) then mark_cell c else c
  | Fence => fence_cell c
  end.

Lemma cell_at_insert m b c a :
  cell_at (<[b := c]> m) a = if decide (b = a) then c else cell_at m a.
Proof. unfold cell_at. rewrite lookup_insert. by case_decide. Qed.

Lemma cell_at_marks ws m a :
  cell_at (foldr (fun w m => <[w := mark_cell (cell_at m w)]> m) m ws) a
  = if decide (a ∈ ws) then mark_cell (cell_at m a) else cell_at m a.
Proof.
  induction ws as [|w ws IH]; cbn [foldr].
  { destruct (decide (a ∈ [])); [set_solver|done]. }
  rewrite cell_at_insert. destruct (decide (w = a)) as [->|Hne].
  - rewrite (decide_True (P := a ∈ a :: ws)) by set_solver. rewrite IH.
    by case_decide.
  - rewrite IH. destruct (decide (a ∈ ws)).
    + by rewrite decide_True by set_solver.
    + by rewrite decide_False by set_solver.
Qed.

Lemma cell_at_exec1 p m a : cell_at (exec1 p m) a = step_cell a p (cell_at m a).
Proof.
  destruct p as [b v|b v|b|]; cbn [exec1 step_cell].
  - rewrite cell_at_insert. by case_decide; subst.
  - rewrite cell_at_insert. by case_decide; subst.
  - apply cell_at_marks.
  - unfold cell_at. rewrite lookup_fmap. by destruct (m !! a).
Qed.

(** A trace acts on each word on its own. *)
Lemma cell_at_exec t m a :
  cell_at (exec t m) a = fold_left (fun c p => step_cell a p c) t (cell_at m a).
Proof.
  revert m. induction t as [|p t IH]; intros m; simpl; [done|].
  unfold exec in *. simpl. by rewrite IH, cell_at_exec1.
Qed.

Lemma exec_app t1 t2 m : exec (t1 ++ t2) m = exec t2 (exec t1 m).
Proof. apply fold_left_app. Qed.

(** ** Traces that leave a word alone *)

Definition stores_to (p : pact) : option Z :=
  match p with Store b _ | StoreNt b _ => Some b | _ => None end.

Definition untouched (a : Z) (t : list pact) : Prop := Forall (fun p => stores_to p <> Some a) t.

Lemma untouched_app a t1 t2 : untouched a (t1 ++ t2) <-> untouched a t1 /\ untouched a t2.
Proof. apply Forall_app. Qed.

Lemma untouched_take a n t : untouched a t -> untouched a (take n t).
Proof. apply Forall_take. Qed.

#[export] Instance untouched_dec a t : Decision (untouched a t).
Proof. unfold untouched. apply _. Defined.

Definition chist (m : mem) (a : Z) : list Z := hist (cell_at m a).

(** The value of the word is durable. *)
Definition settled (m : mem) (a : Z) : Prop := chist m a = [cur m a].

Lemma cur_chist m a : cur m a = default 0 (head (chist m a)).
Proof. done. Qed.

Lemma step_cell_untouched a p c :
  stores_to p <> Some a ->
  exists k, hist (step_cell a p c) = take k (hist c) /\ (0 < k \/ hist c = [])%nat
    /\ head (hist (step_cell a p c)) = head (hist c).
Proof.
  assert (Hall : exists k, hist c = take k (hist c) /\ (0 < k \/ hist c = [])%nat
                   /\ head (hist c) = head (hist c)).
  { exists (S (length (hist c))). split_and!; [|lia|done]. rewrite take_ge; [done|lia]. }
  destruct p as [b v|b v|b|]; simpl; intros Hne.
  - by rewrite decide_False by congruence.
  - by rewrite decide_False by congruence.
  - by case_decide.
  - unfold fence_cell. destruct (mark c) as [k|]; [|done].
    exists (S k). split_and!; [done|lia|]. by destruct (hist c).
Qed.

Lemma fold_untouched a t c :
  untouched a t ->
  exists k, hist (fold_left (fun c p => step_cell a p c) t c) = take k (hist c)
    /\ (0 < k \/ hist c = [])%nat
    /\ head (hist (fold_left (fun c p => step_cell a p c) t c)) = head (hist c).
Proof.
  revert c. induction t as [|p t IH]; intros c Hu; simpl.
  { exists (S (length (hist c))). split_and!; [|lia|done]. rewrite take_ge; [done|lia]. }
  apply Forall_cons in Hu as [Hp Hu].
  destruct (step_cell_untouched a p c Hp) as (k & Hk & Hk0 & Hh).
  destruct (IH (step_cell a p c) Hu) as (k' & Hk' & Hk0' & Hh').
  rewrite Hh', Hh, Hk', Hk, take_take. eexists. split_and!; [done| |done].
  destruct Hk0 as [?|E]; [|by right]. destruct Hk0' as [?|E]; [left; lia|].
  right. rewrite Hk in E. destruct (hist c); [done|]. destruct k; [lia|]. done.
Qed.

Lemma chist_untouched a t m :
  untouched a t -> exists k, chist (exec t m) a = take k (chist m a).
Proof.
  intros Hu. unfold chist. rewrite cell_at_exec.
  destruct (fold_untouched a t (cell_at m a) Hu) as (k & Hk & _). by exists k.
Qed.

Lemma cur_untouched a t m : untouched a t -> cur (exec t m) a = cur m a.
Proof.
  intros Hu. unfold cur. rewrite cell_at_exec.
  by destruct (fold_untouched a t (cell_at m a) Hu) as (k & _ & _ & ->).
Qed.

Lemma settled_untouched a t m : untouched a t -> settled m a -> settled (exec t m) a.
Proof.
  unfold settled. intros Hu Hs. rewrite cur_untouched by done.
  unfold chist in *. rewrite cell_at_exec.
  destruct (fold_untouched a t (cell_at m a) Hu) as (k & -> & Hk & _). rewrite Hs in *.
  destruct k; [by destruct Hk; [lia|]|]. simpl. by rewrite take_nil.
Qed.

(** Every word keeps at least one possible value. *)
Definition mem_ok (m : mem) : Prop := forall a, chist m a <> [].

Lemma mem_ok_exec1 p m : mem_ok m -> mem_ok (exec1 p m).
Proof.
  intros Hok a. specialize (Hok a). unfold chist in *. rewrite cell_at_exec1.
  destruct p; simpl; try case_decide; simpl; try done.
  unfold fence_cell. destruct (mark _); [|done]. simpl. by destruct (hist _).
Qed.

Lemma mem_ok_exec t m : mem_ok m -> mem_ok (exec t m).
Proof.
  revert m. induction t as [|p t IH]; intros m Hok; [done|].
  change (mem_ok (exec t (exec1 p m))). by apply IH, mem_ok_exec1.
Qed.

(** ** What a crash exposes *)

Lemma crashed_settled m s a : crashed m s -> settled m a -> s a = cur m a.
Proof.
  intros Hc Hs. specialize (Hc a). fold (chist m a) in Hc. rewrite Hs in Hc.
  by apply list_elem_of_singleton in Hc.
Qed.

Lemma hist_store a p c :
  forall v, v ∈ hist (step_cell a p c) -> v ∈ hist c \/ p = Store a v \/ p = StoreNt a v.
Proof.
  intros v. destruct p as [b w|b w|b|]; simpl; try case_decide; simpl; subst; auto.
  - rewrite elem_of_cons. intros [->|?]; auto.
  - rewrite elem_of_cons. intros [->|?]; auto.
  - unfold fence_cell. destruct (mark c) as [k|]; [|auto]. cbn [hist]. intros Hv.
    left. rewrite <- (take_drop (S k) (hist c)). set_solver.
Qed.

(** A word holds an old value or one the trace stored. *)
Lemma crashed_stored a t m s :
  crashed (exec t m) s -> s a ∈ chist m a \/ Store a (s a) ∈ t \/ StoreNt a (s a) ∈ t.
Proof.
  intros Hc. specialize (Hc a). revert Hc. rewrite cell_at_exec. unfold chist.
  generalize (cell_at m a) (s a). induction t as [|p t IH]; simpl; intros c v Hv; [by left|].
  destruct (IH _ _ Hv) as [Hc|[Hc|Hc]]; [|set_solver..].
  apply hist_store in Hc as [?|[->| ->]]; set_solver.
Qed.

Lemma cell_at_reboot m s a :
  crashed m s -> cell_at (reboot m s) a = Cell [s a] None.
Proof.
  intros Hc. unfold cell_at, reboot. rewrite map_lookup_imap.
  destruct (m !! a) as [c|] eqn:E; simpl; [done|].
  specialize (Hc a). unfold cell_at in Hc. rewrite E in Hc. simpl in Hc.
  apply list_elem_of_singleton in Hc. by rewrite Hc.
Qed.

Lemma cur_reboot m s a : crashed m s -> cur (reboot m s) a = s a.
Proof. intros Hc. unfold cur. by rewrite cell_at_reboot. Qed.

Lemma settled_reboot m s a : crashed m s -> settled (reboot m s) a.
Proof.
  intros Hc. unfold settled, chist. rewrite (cur_reboot _ _ _ Hc). by rewrite cell_at_reboot.
Qed.

Lemma mem_ok_reboot m s : crashed m s -> mem_ok (reboot m s).
Proof. intros Hc a. by rewrite (settled_reboot _ _ _ Hc). Qed.

(** ** Making a word durable *)

Lemma elem_line_words a b :
  a mod 8 = 0 -> line a = line b -> a ∈ line_words b.
Proof.
  intros Ha Hl. unfold line_words. apply list_elem_of_fmap.
  exists (Z.to_nat ((a - line b * CACHELINE_SIZE) / 8)).
  assert (Hr : 0 <= a - line b * CACHELINE_SIZE < 64).
  { rewrite <- Hl. unfold line, CACHELINE_SIZE. pose proof (Z.div_mod a 64).
    pose proof (Z.mod_pos_bound a 64). lia. }
  assert (Hm : (a - line b * CACHELINE_SIZE) mod 8 = 0).
  { unfold CACHELINE_SIZE. replace (a - line b * 64) with (a + (- line b * 8) * 8) by lia.
    by rewrite Z.mod_add. }
  pose proof (Z.div_mod (a - line b * CACHELINE_SIZE) 8 ltac:(lia)) as Hd.
  assert (0 <= (a - line b * CACHELINE_SIZE) / 8 < 8)
    by (split; [apply Z.div_pos|apply Z.div_lt_upper_bound]; lia).
  split; [lia|]. apply elem_of_seq. lia.
Qed.

(** The flush has happened: the newest value is the durable one, or will be
    after the next fence. *)
Definition flushed (x : Z) (c : cell) : Prop :=
  head (hist c) = Some x /\ (mark c = Some 0%nat \/ hist c = [x]).

Lemma flushed_step a p c x :
  stores_to p <> Some a -> flushed x c -> flushed x (step_cell a p c).
Proof.
  intros Hne [Hh Hf]. destruct p as [b v|b v|b|]; simpl in *.
  - by rewrite decide_False by congruence.
  - by rewrite decide_False by congruence.
  - case_decide; [|done]. split; [done|by left].
  - unfold fence_cell. destruct Hf as [->|Hf].
    + destruct (hist c) as [|y l]; simplify_eq/=. split; [done|by right].
    + destruct (mark c) as [k|]; [|by split; auto].
      split; simpl; rewrite Hf; simpl; [done|right; by rewrite take_nil].
Qed.

Lemma flushed_fold a t c x :
  untouched a t -> flushed x c -> flushed x (fold_left (fun c p => step_cell a p c) t c).
Proof.
  revert c. induction t as [|p t IH]; intros c Hu Hf; simpl; [done|].
  apply Forall_cons in Hu as [Hp Hu]. apply IH; [done|]. by apply flushed_step.
Qed.

(** A flush of the line of [a], then a fence, with no store to [a] in
    between. *)
Lemma persisted a t1 b t2 t3 m :
  mem_ok m -> a mod 8 = 0 -> line a = line b ->
  untouched a (t1 ++ Clwb b :: t2 ++ Fence :: t3) ->
  settled (exec (t1 ++ Clwb b :: t2 ++ Fence :: t3) m) a.
Proof.
  intros Hok Ha Hl Hu. unfold settled. rewrite cur_untouched by done.
  apply untouched_app in Hu as [Hu1 Hu]. apply Forall_cons in Hu as [_ Hu].
  apply untouched_app in Hu as [Hu2 Hu]. apply Forall_cons in Hu as [_ Hu3].
  unfold chist. rewrite exec_app, cell_at_exec. simpl.
  rewrite decide_True by (by apply elem_line_words).
  rewrite fold_left_app. simpl.
  set (c1 := mark_cell (cell_at (exec t1 m) a)).
  assert (Hf : flushed (cur m a) c1).
  { split; [|by left]. simpl. fold (chist (exec t1 m) a).
    pose proof (mem_ok_exec t1 m Hok a) as Hne.
    rewrite <- (cur_untouched a t1 m Hu1). unfold cur. fold (chist (exec t1 m) a).
    by destruct (chist (exec t1 m) a). }
  pose proof (flushed_fold a t2 c1 _ Hu2 Hf) as [Hh Hf2].
  set (c2 := fold_left _ t2 c1) in *.
  assert (E : hist (fence_cell c2) = [cur m a]).
  { unfold fence_cell. destruct Hf2 as [Hm|Hl2].
    - rewrite Hm. simpl. destruct (hist c2); simplify_eq/=. done.
    - destruct (mark c2); simpl; rewrite Hl2; [|done]. simpl. by rewrite take_nil. }
  destruct (fold_untouched a t3 (fence_cell c2) Hu3) as (k & -> & Hk & _). rewrite E in *.
  destruct k; [by destruct Hk; [lia|]|]. simpl. by rewrite take_nil.
Qed.

(** ** Loads after stores *)

Lemma cur_store a v m b :
  cur (exec1 (Store a v) m) b = if decide (a = b) then v else cur m b.
Proof. unfold cur. rewrite cell_at_exec1. simpl. by case_decide. Qed.

Lemma cur_store_nt a v m b :
  cur (exec1 (StoreNt a v) m) b = if decide (a = b) then v else cur m b.
Proof. unfold cur. rewrite cell_at_exec1. simpl. by case_decide. Qed.

(** ** [nova_flush_buffer] *)

Lemma flush_loop_stores fuel buf i len a : untouched a (flush_loop fuel buf i len).
Proof.
  revert i. induction fuel as [|fuel IH]; intros i; simpl; [constructor|].
  case_match; constructor; [done|apply IH].
Qed.

Lemma flush_loop_covers fuel buf i len k :
  (k < fuel)%nat -> 0 <= i -> i + 64 * Z.of_nat k < len -> len <= TWO32 - 64 ->
  Clwb (buf + (i + 64 * Z.of_nat k)) ∈ flush_loop fuel buf i len.
Proof.
  revert i k. induction fuel as [|fuel IH]; intros i k Hk Hi Hlt Hlen; [lia|].
  simpl. rewrite (proj2 (Z.ltb_lt _ _)) by lia. destruct k as [|k].
  - rewrite Z.mul_0_r, Z.add_0_r. set_solver.
  - apply list_elem_of_further. unfold CACHELINE_SIZE. rewrite u32_small by lia.
    replace (i + 64 * Z.of_nat (S k)) with (i + 64 + 64 * Z.of_nat k) by lia.
    apply IH; lia.
Qed.

(** The flushes [nova_flush_buffer] issues, without the fence. *)
Definition flush_acts (buf len : Z) : list pact :=
  let len := u32 (len + Z.land buf (CACHELINE_SIZE - 1)) in
  flush_loop (S (Z.to_nat (len / CACHELINE_SIZE))) buf 0 len.

Lemma flush_buffer_run buf len fence m :
  nova_flush_buffer buf len fence m = ((), flush_acts buf len ++ if fence then [Fence] else []).
Proof. by destruct fence. Qed.

Lemma flush_only_run buf len m :
  nova_flush_buffer buf len false m = ((), flush_acts buf len).
Proof. rewrite flush_buffer_run. by rewrite app_nil_r. Qed.

Lemma flush_fence_run buf len m :
  nova_flush_buffer buf len true m = ((), flush_acts buf len ++ [Fence]).
Proof. done. Qed.

Lemma flush_acts_untouched buf len a : untouched a (flush_acts buf len).
Proof. apply flush_loop_stores. Qed.

(** Every cache line of the buffer is written back. *)
Lemma flush_acts_covers buf len a :
  0 <= buf -> 0 <= len <= TWO32 - 128 -> buf <= a < buf + len ->
  exists b, Clwb b ∈ flush_acts buf len /\ line a = line b.
Proof.
  intros Hb Hlen Ha. unfold flush_acts, line. change (CACHELINE_SIZE - 1) with (Z.ones 6).
  rewrite Z.land_ones by lia. change (2 ^ 6) with 64. change CACHELINE_SIZE with 64.
  pose proof (Z.div_mod buf 64 ltac:(lia)) as Hd. pose proof (Z.mod_pos_bound buf 64 ltac:(lia)).
  pose proof (Z.div_mod a 64 ltac:(lia)) as Hd'. pose proof (Z.mod_pos_bound a 64 ltac:(lia)).
  rewrite u32_small by lia. set (L := len + buf mod 64) in *.
  set (k := Z.to_nat (a / 64 - buf / 64)).
  assert (Hk : Z.of_nat k = a / 64 - buf / 64).
  { unfold k. rewrite Z2Nat.id; [done|]. pose proof (Z.div_le_mono buf a 64). lia. }
  exists (buf + (0 + 64 * Z.of_nat k)). split.
  - apply flush_loop_covers; [|lia|unfold L; lia|unfold L; lia].
    pose proof (Z.div_mod L 64 ltac:(lia)). pose proof (Z.mod_pos_bound L 64 ltac:(lia)).
    assert (0 <= L / 64) by (apply Z.div_pos; unfold L; lia). unfold L in *. lia.
  - rewrite Hk. replace (buf + (0 + 64 * (a / 64 - buf / 64)))
      with (buf mod 64 + (a / 64) * 64) by lia.
    rewrite Z.div_add by lia. rewrite (Z.div_small (buf mod 64)) by lia. lia.
Qed.

(** A flushed and fenced buffer is durable. *)
Lemma flush_fence_settled buf len a t1 t2 m :
  mem_ok m -> 0 <= buf -> 0 <= len <= TWO32 - 128 -> buf <= a < buf + len -> a mod 8 = 0 ->
  untouched a t1 -> untouched a t2 ->
  settled (exec (flush_acts buf len ++ t1 ++ Fence :: t2) m) a.
Proof.
  intros Hok Hb Hlen Ha Hal Hu1 Hu2.
  destruct (flush_acts_covers buf len a Hb Hlen Ha) as (b & Hin & Hl).
  pose proof (flush_acts_untouched buf len a) as Hu.
  apply list_elem_of_split in Hin as (f1 & f2 & E). rewrite E in *.
  apply untouched_app in Hu as [Hf1 Hf2]. apply Forall_cons in Hf2 as [_ Hf2].
  rewrite <- app_assoc. simpl. rewrite app_assoc.
  apply persisted; try done. apply untouched_app. split; [done|].
  constructor; [done|]. change (untouched a ((f2 ++ t1) ++ Fence :: t2)).
  rewrite !untouched_app. split_and!; try done. by constructor.
Qed.

(** ** Sequencing *)

Lemma bind_run {A B} (x : PM A) (f : A -> PM B) m a t1 b t2 :
  x m = (a, t1) -> f a (exec t1 m) = (b, t2) -> (x ≫= f) m = (b, t1 ++ t2).
Proof.
  intros Hx Hf. change ((x ≫= f) m) with
    (let '(a, t1) := x m in let '(b, t2) := f a (exec t1 m) in (b, t1 ++ t2)).
  by rewrite Hx, Hf.
Qed.

(** Code that only reads. *)
Lemma bind_read {A B} (x : PM A) (f : A -> PM B) m a : x m = (a, []) -> (x ≫= f) m = f a m.
Proof.
  intros Hx. destruct (f a m) as [b t] eqn:E. by eapply (bind_run x f m a [] b t).
Qed.

Lemma bind_load {B} a (f : Z -> PM B) m : (load a ≫= f) m = f (cur m a) m.
Proof.
  change ((load a ≫= f) m) with (let '(b, t2) := f (cur m a) m in (b, [] ++ t2)).
  by destruct (f (cur m a) m).
Qed.

Lemma bind_store {B} a v (f : () -> PM B) m b t :
  f () (exec1 (Store a v) m) = (b, t) -> (store64 a v ≫= f) m = (b, Store a v :: t).
Proof. intros H. eapply (bind_run _ _ _ () [Store a v] b t); done. Qed.

Lemma bind_mret {A B} (x : A) (f : A -> PM B) m : (mret x ≫= f) m = f x m.
Proof.
  change ((mret x ≫= f) m) with (let '(b, t2) := f x m in (b, [] ++ t2)).
  by destruct (f x m).
Qed.

(** ** Arrays of words *)

(** What a load of [n] words from [a] returns. *)
Definition words (m : mem) (a : Z) (n : nat) : list Z :=
  (fun i : nat => cur m (a + 8 * Z.of_nat i)) <$> seq 0 n.

Lemma length_words m a n : length (words m a n) = n.
Proof. unfold words. by rewrite length_fmap, length_seq. Qed.

Lemma words_S m a n : words m a (S n) = cur m a :: words m (a + 8) n.
Proof.
  unfold words. cbn [seq fmap list_fmap]. rewrite Z.add_0_r, <- seq_shift. f_equal.
  change (S <$> seq 0 n) with (map S (seq 0 n)). rewrite <- list_fmap_compose.
  apply list_fmap_ext. intros i x _. simpl. f_equal. lia.
Qed.

Lemma lookup_words m a n i :
  (i < n)%nat -> words m a n !! i = Some (cur m (a + 8 * Z.of_nat i)).
Proof.
  intros Hi. unfold words. rewrite list_lookup_fmap, lookup_seq_lt by done. done.
Qed.

Lemma words_add m a n k :
  words m a (n + k) = words m a n ++ words m (a + 8 * Z.of_nat n) k.
Proof.
  revert a. induction n as [|n IH]; intros a.
  - simpl. by rewrite Z.add_0_r.
  - cbn [Nat.add]. rewrite !words_S, IH. simpl. do 3 f_equal. lia.
Qed.

Lemma words_ext m m' a a' n :
  (forall i, (i < n)%nat -> cur m (a + 8 * Z.of_nat i) = cur m' (a' + 8 * Z.of_nat i)) ->
  words m a n = words m' a' n.
Proof.
  intros H. unfold words. apply list_fmap_ext. intros i x Hi. apply lookup_seq in Hi as [-> ?].
  by apply H.
Qed.

Lemma load_words_run a n m : load_words a n m = (words m a n, []).
Proof.
  revert a. induction n as [|n IH]; intros a; [done|]. cbn [load_words]. rewrite bind_load.
  rewrite words_S. eapply (bind_run _ _ _ _ [] _ []); [apply IH|done].
Qed.

Lemma bind_load_words {B} a n (f : list Z -> PM B) m :
  (load_words a n ≫= f) m = f (words m a n) m.
Proof. apply bind_read, load_words_run. Qed.

(** [t] writes no word outside the [n] words at [a]. *)
Definition writes_within (a : Z) (n : nat) (t : list pact) : Prop :=
  forall b, b < a \/ a + 8 * Z.of_nat n <= b -> untouched b t.

Lemma store_acts_within a ws : writes_within a (length ws) (store_acts a ws).
Proof.
  revert a. induction ws as [|w ws IH]; intros a b Hb; [constructor|].
  simpl in *. constructor; [simpl; injection 1; lia|]. apply IH. lia.
Qed.

Lemma store_nt_acts_within a ws : writes_within a (length ws) (store_nt_acts a ws).
Proof.
  revert a. induction ws as [|w ws IH]; intros a b Hb; [constructor|].
  simpl in *. constructor; [simpl; injection 1; lia|]. apply IH. lia.
Qed.

(** The words are what was stored. *)
Lemma words_store a ws m : words (exec (store_acts a ws) m) a (length ws) = ws.
Proof.
  revert a m. induction ws as [|w ws IH]; intros a m; [done|]. cbn [length store_acts].
  change (exec (Store a w :: ?t) m) with (exec t (exec1 (Store a w) m)).
  rewrite words_S, IH. f_equal. rewrite cur_untouched by (apply store_acts_within; lia).
  rewrite cur_store. by rewrite decide_True.
Qed.

Lemma words_store_nt a ws m : words (exec (store_nt_acts a ws) m) a (length ws) = ws.
Proof.
  revert a m. induction ws as [|w ws IH]; intros a m; [done|]. cbn [length store_nt_acts].
  change (exec (StoreNt a w :: ?t) m) with (exec t (exec1 (StoreNt a w) m)).
  rewrite words_S, IH. f_equal. rewrite cur_untouched by (apply store_nt_acts_within; lia).
  rewrite cur_store_nt. by rewrite decide_True.
Qed.

Lemma words_untouched t m a n :
  (forall i, (i < n)%nat -> untouched (a + 8 * Z.of_nat i) t) -> words (exec t m) a n = words m a n.
Proof. intros H. apply words_ext. intros i Hi. by apply cur_untouched, H. Qed.

(** A word stored past the cache will be durable after the next fence. *)
Lemma store_nt_flushed a ws m i v :
  ws !! i = Some v ->
  flushed v (cell_at (exec (store_nt_acts a ws) m) (a + 8 * Z.of_nat i)).
Proof.
  revert a m i. induction ws as [|w ws IH]; intros a m i Hi; [done|].
  change (store_nt_acts a (w :: ws)) with ([StoreNt a w] ++ store_nt_acts (a + 8) ws).
  rewrite exec_app. destruct i as [|i]; simplify_eq/=.
  - rewrite Z.add_0_r, cell_at_exec. apply flushed_fold.
    + apply store_nt_acts_within. lia.
    + simpl. rewrite cell_at_insert, decide_True by done. split; [done|by left].
  - replace (a + 8 * Z.of_nat (S i)) with (a + 8 + 8 * Z.of_nat i) by lia. by apply IH.
Qed.
