(* ===== verification/Journal.v ===== *)
(** The lite journal (journal.c, journal.h): an undo journal of 8-byte words,
    one page per CPU used as a ring, with head and tail pointers in a cache
    line of their own.

    [None] stands for [BUG()]; the walks over the ring take fuel. *)

From S2P Require Import Prelude.
From S2P Require Import Kernel.
From S2P Require Import Checksum.
From S2P Require Import Layout.
From S2P Require Import FreeList.
From S2P Require Import Balloc.
From S2P Require Import Pmem.

Definition JOURNAL_START : Z := 48.
Definition JOURNAL_INODE : Z := 1.
Definition JOURNAL_ENTRY : Z := 2.

(** [sizeof(struct nova_lite_journal_entry)]; the fields are at offsets 0
    ([type]), 8 ([data1]), 16 ([data2]), 24 ([padding]) and 28 ([csum]). *)
Definition JOURNAL_ENTRY_SIZE : Z := 32.

(** [struct nova_inode]: 120 bytes; the offsets the journal uses. *)
Definition NOVA_INODE_WORDS : nat := 15.
Definition off_valid : Z := 1.
Definition off_log_tail : Z := 72.
Definition off_alter_log_tail : Z := 88.
Definition off_delete_epoch_id : Z := 104.
(** [struct nova_dentry]. *)
Definition off_reassigned : Z := 2.
Definition off_invalid : Z := 3.
Definition off_dentry_csum : Z := 12.
Definition off_ino : Z := 16.

Inductive nova_entry_type :=
  | FILE_WRITE | DIR_LOG | SET_ATTR | LINK_CHANGE | MMAP_WRITE | SNAPSHOT_INFO | NEXT_PAGE.

#[export] Instance nova_entry_type_eq_dec : EqDecision nova_entry_type.
Proof. solve_decision. Defined.

Definition nova_get_log_entry_size (type : nova_entry_type) : Z :=
  match type with
  | FILE_WRITE => 64
  | DIR_LOG => 48
  | SET_ATTR => 56
  | LINK_CHANGE => 40
  | MMAP_WRITE => 40
  | SNAPSHOT_INFO => 40
  | NEXT_PAGE => 0
  end.

(** The part of [struct nova_inode_info_header] the journal reads. *)
Record journal_inode := JournalInode { pi_addr : Z; alter_pi_addr : Z }.

Section journal.
Context {RB : RbOps} {KM : KmemOps} {CR : CrcOps} {MP : ModParams}.
Context (sbi : nova_sb_info).

Definition meta_addr (off : Z) : Z := nova_get_virt_addr_from_offset sbi off true.

(** The address of the pair: [journal_head] there, [journal_tail] 8 bytes
    above. *)
Definition nova_get_journal_pointers (cpu : Z) : option Z :=
  if cpus sbi <=? cpu then None
  else Some (u64 (meta_addr (PAGE_SIZE * JOURNAL_START) + cpu * CACHELINE_SIZE)).

(** ** Entries *)

(** The bytes up to [csum]. *)
Definition entry_bytes (type data1 data2 padding : Z) : list Z :=
  le_bytes 8 type ++ le_bytes 8 data1 ++ le_bytes 8 data2 ++ le_bytes 4 padding.

Definition entry_crc (entry : Z) : PM Z :=
  type ← load entry; data1 ← load (entry + 8); data2 ← load (entry + 16);
  w ← load (entry + 24);
  mret (nova_crc32c (TWO32 - 1) (entry_bytes type data1 data2 (u32 w))).

Definition nova_update_journal_entry_csum (entry : Z) : PM () :=
  crc ← entry_crc entry; store32_hi (entry + 24) crc.

Definition nova_check_entry_integrity (entry : Z) : PM Z :=
  crc ← entry_crc entry; w ← load (entry + 24);
  mret (if Z.shiftr w 32 =? crc then 0 else 1).

Definition next_lite_journal (curr_p : Z) : Z :=
  if PAGE_SIZE <=? Z.land curr_p (PAGE_SIZE - 1) + JOURNAL_ENTRY_SIZE
  then Z.land curr_p (Z.lnot (PAGE_SIZE - 1))
  else u64 (curr_p + JOURNAL_ENTRY_SIZE).

Fixpoint check_walk (fuel : nat) (temp tail : Z) : PM (option Z) :=
  if temp =? tail then mret (Some 0)
  else
    match fuel with
    | O => mret None
    | S fuel' =>
        ret ← nova_check_entry_integrity (meta_addr temp);
        if negb (ret =? 0) then mret (Some ret)
        else check_walk fuel' (next_lite_journal temp) tail
    end.

Definition nova_check_journal_entries (fuel : nat) (jp : Z) : PM (option Z) :=
  head ← load jp; tail ← load (jp + 8); check_walk fuel head tail.

(** ** Recovery *)

Definition nova_undo_journal_inode (entry : Z) : PM () :=
  if negb metadata_csum then mret ()
  else
    pi_addr ← load (entry + 8); alter_pi_addr ← load (entry + 16);
    memcpy_to_pmem_nocache (meta_addr pi_addr) (meta_addr alter_pi_addr) NOVA_INODE_WORDS.

Definition nova_undo_journal_entry (entry : Z) : PM () :=
  addr ← load (entry + 8); value ← load (entry + 16);
  store64 (meta_addr addr) value;;
  nova_flush_buffer (meta_addr addr) CACHELINE_SIZE false.

Definition nova_undo_lite_journal_entry (entry : Z) : PM () :=
  type ← load entry;
  if type =? JOURNAL_INODE then nova_undo_journal_inode entry
  else if type =? JOURNAL_ENTRY then nova_undo_journal_entry entry
  else mret ().

(** [pair->journal_tail] is read in every round. *)
Fixpoint undo_walk (fuel : nat) (temp jp : Z) : PM (option ()) :=
  tail ← load (jp + 8);
  if temp =? tail then mret (Some ())
  else
    match fuel with
    | O => mret None
    | S fuel' =>
        nova_undo_lite_journal_entry (meta_addr temp);;
        undo_walk fuel' (next_lite_journal temp) jp
    end.

Definition nova_recover_lite_journal (fuel : nat) (jp : Z) : PM (option Z) :=
  head ← load jp;
  r ← undo_walk fuel head jp;
  match r with
  | None => mret None
  | Some _ =>
      head ← load jp;
      store64 (jp + 8) head;;
      nova_flush_buffer jp CACHELINE_SIZE true;;
      mret (Some 0)
  end.

(** ** Building a transaction *)

Definition nova_append_replica_inode_journal (curr_p : Z) (inode : journal_inode) : PM Z :=
  let entry := meta_addr curr_p in
  store64 entry JOURNAL_INODE;;
  store32_lo (entry + 24) 0;;
  store64 (entry + 8) (pi_addr inode);;
  store64 (entry + 16) (alter_pi_addr inode);;
  nova_update_journal_entry_csum entry;;
  mret (next_lite_journal curr_p).

Definition nova_append_entry_journal (curr_p field : Z) : PM Z :=
  let entry := meta_addr curr_p in
  store64 entry JOURNAL_ENTRY;;
  store32_lo (entry + 24) 0;;
  let aligned_field := Z.land field (Z.lnot 7) in
  let addr := nova_get_addr_off sbi aligned_field true in
  store64 (entry + 8) addr;;
  value ← load aligned_field;
  store64 (entry + 16) value;;
  nova_update_journal_entry_csum entry;;
  mret (next_lite_journal curr_p).

Definition nova_journal_inode_tail (curr_p pi : Z) : PM Z :=
  curr_p ← nova_append_entry_journal curr_p (pi + off_log_tail);
  if metadata_csum then nova_append_entry_journal curr_p (pi + off_alter_log_tail)
  else mret curr_p.

(** [nova_get_inode] never returns NULL: [memcpy_mcsafe] returns 0. *)
Definition nova_append_inode_journal (curr_p : Z) (inode : journal_inode)
    (new_inode invalidate is_dir : bool) : PM Z :=
  let pi := meta_addr (pi_addr inode) in
  if metadata_csum then nova_append_replica_inode_journal curr_p inode
  else if is_dir then nova_journal_inode_tail curr_p pi
  else if new_inode then nova_append_entry_journal curr_p (pi + off_valid)
  else
    curr_p ← nova_journal_inode_tail curr_p pi;
    if invalidate then
      curr_p ← nova_append_entry_journal curr_p (pi + off_valid);
      nova_append_entry_journal curr_p (pi + off_delete_epoch_id)
    else mret curr_p.

Definition nova_append_dentry_journal (curr_p dentry : Z) : PM Z :=
  curr_p ← nova_append_entry_journal curr_p (dentry + off_ino);
  curr_p ← nova_append_entry_journal curr_p (dentry + off_dentry_csum);
  curr_p ← nova_append_entry_journal curr_p (dentry + off_reassigned);
  nova_append_entry_journal curr_p (dentry + off_invalid).

Definition nova_flush_journal_in_batch (head tail : Z) : PM () :=
  (if head <? tail then
     nova_flush_buffer (meta_addr head) (tail - head) false
   else
     nova_flush_buffer (meta_addr head) (PAGE_SIZE - Z.land head (PAGE_SIZE - 1)) false;;
     nova_flush_buffer (Z.land (meta_addr tail) (Z.lnot (PAGE_SIZE - 1)))
       (Z.land tail (PAGE_SIZE - 1)) false);;
  PERSISTENT_BARRIER.

(** What the three transactions share: the guard, the entries, the flush, the
    tail. *)
Definition run_transaction (cpu : Z) (entries : Z -> PM Z) : PM (option Z) :=
  match nova_get_journal_pointers cpu with
  | None => mret None
  | Some jp =>
      head ← load jp; tail ← load (jp + 8);
      if (head =? 0) || negb (head =? tail) then mret None
      else
        temp ← entries head;
        head ← load jp;
        nova_flush_journal_in_batch head temp;;
        store64 (jp + 8) temp;;
        nova_flush_buffer jp CACHELINE_SIZE true;;
        mret (Some temp)
  end.

Definition nova_create_inode_transaction (inode dir : journal_inode) (cpu : Z)
    (new_inode invalidate : bool) : PM (option Z) :=
  run_transaction cpu (fun temp =>
    temp ← nova_append_inode_journal temp inode new_inode invalidate false;
    nova_append_inode_journal temp dir new_inode invalidate true).

Definition append_opt {A} (o : option A) (f : Z -> A -> PM Z) (temp : Z) : PM Z :=
  match o with Some x => f temp x | None => mret temp end.

Definition nova_create_rename_transaction (old_inode old_dir : journal_inode)
    (new_inode new_dir : option journal_inode)
    (father_entry new_dentry old_dentry : option Z)
    (invalidate_new_inode : bool) (cpu : Z) : PM (option Z) :=
  run_transaction cpu (fun temp =>
    temp ← nova_append_inode_journal temp old_inode false false false;
    temp ← nova_append_inode_journal temp old_dir false false true;
    temp ← append_opt new_inode
             (fun temp i => nova_append_inode_journal temp i false invalidate_new_inode false) temp;
    temp ← append_opt new_dir
             (fun temp i => nova_append_inode_journal temp i false false true) temp;
    temp ← append_opt father_entry nova_append_dentry_journal temp;
    temp ← append_opt new_dentry nova_append_dentry_journal temp;
    append_opt old_dentry nova_append_dentry_journal temp).

(** The [for] loop of the log-entry transaction. *)
Fixpoint append_words (count : nat) (i entry temp : Z) : PM Z :=
  match count with
  | O => mret temp
  | S count' =>
      temp ← nova_append_entry_journal temp (entry + i * 8);
      append_words count' (i + 1) entry temp
  end.

Definition nova_create_logentry_transaction (entry : Z) (type : nova_entry_type) (cpu : Z)
    : PM (option Z) :=
  run_transaction cpu (fun temp =>
    append_words (Z.to_nat (nova_get_log_entry_size type / 8)) 0 entry temp).

Definition nova_commit_lite_transaction (tail cpu : Z) : PM (option ()) :=
  match nova_get_journal_pointers cpu with
  | None => mret None
  | Some jp =>
      t ← load (jp + 8);
      if negb (t =? tail) then mret None
      else
        store64 jp tail;;
        nova_flush_buffer jp CACHELINE_SIZE true;;
        mret (Some ())
  end.

(** ** Initialisation *)

(** The loop over the CPUs; [n] CPUs are left, the next one is [i]. *)
Fixpoint soft_init_loop (fuel n : nat) (i : Z) (ret : Z) : PM (option Z) :=
  match n with
  | O => mret (Some ret)
  | S n' =>
      match nova_get_journal_pointers i with
      | None => mret None
      | Some jp =>
          head ← load jp; tail ← load (jp + 8);
          if head =? tail then soft_init_loop fuel n' (i + 1) ret
          else
            r ← nova_check_journal_entries fuel jp;
            match r with
            | None => mret None
            | Some ret =>
                if negb (ret =? 0) then mret (Some (- EINVAL))
                else
                  r ← nova_recover_lite_journal fuel jp;
                  match r with
                  | None => mret None
                  | Some ret => soft_init_loop fuel n' (i + 1) ret
                  end
            end
      end
  end.

(** [locks]: whether [kcalloc] of the journal locks succeeds. *)
Definition nova_lite_journal_soft_init (locks : bool) (fuel : nat) : PM (option Z) :=
  if negb locks then mret (Some (- ENOMEM))
  else soft_init_loop fuel (Z.to_nat (cpus sbi)) 0 0.

(** The stores of [memset_nt]. *)
Definition zero_acts (z : list zero_op) : list pact :=
  z ≫= fun o => match o with
    | MemsetNt bp len | DelegateZero bp len _ _ =>
        (fun i : nat => StoreNt (bp + 8 * Z.of_nat i) 0) <$> seq 0 (Z.to_nat (len / 8))
    end.

Fixpoint hard_init_loop (fuel n : nat) (this_cpu i blocknr : Z) (ls : list free_list)
    : PM (option (Z * list free_list)) :=
  match n with
  | O => mret (Some (0, ls))
  | S n' =>
      match nova_get_journal_pointers i,
            nova_new_log_blocks fuel sbi false (fun _ => 0) this_cpu ls blocknr
              NOVA_BLOCK_TYPE_4K 1 ALLOC_INIT_ZERO ANY_CPU ALLOC_FROM_HEAD with
      | Some jp, Some (allocated, blocknr, ls, z) =>
          acts (zero_acts z);;
          if negb (allocated =? 1) || (blocknr =? 0) then mret (Some (- ENOSPC, ls))
          else
            let block := nova_get_block_off sbi blocknr NOVA_BLOCK_TYPE_4K true in
            store64 (jp + 8) block;;
            store64 jp block;;
            nova_flush_buffer jp CACHELINE_SIZE false;;
            hard_init_loop fuel n' this_cpu (i + 1) blocknr ls
      | _, _ => mret None
      end
  end.

Definition nova_lite_journal_hard_init (locks : bool) (fuel : nat) (this_cpu : Z) (ls : list free_list)
    : PM (option (Z * list free_list)) :=
  r ← hard_init_loop fuel (Z.to_nat (cpus sbi)) this_cpu 0 0 ls;
  match r with
  | None => mret None
  | Some (ret, ls) =>
      if negb (ret =? 0) then mret (Some (ret, ls))
      else
        PERSISTENT_BARRIER;;
        r ← nova_lite_journal_soft_init locks fuel;
        mret ((fun ret => (ret, ls)) <$> r)
  end.
End journal.
