(* ===== verification/JournalSpec.v ===== *)
(** The journal at work: where its entries are, what a transaction writes and
    in which order it becomes durable, what recovery reads back. *)

From S2P Require Import Prelude.
From S2P Require Import Kernel.
From S2P Require Import Checksum.
From S2P Require Import Layout.
From S2P Require Import Pmem.
From S2P Require Import PmemSpec.
From S2P Require Import Journal.

(** ** The ring *)

(** Offset of slot [j] in the journal page at [P]. *)
Definition pos (P : Z) (j : nat) : Z := P + 32 * (Z.of_nat j mod 128).

Lemma pos_range P j : P <= pos P j /\ pos P j + 32 <= P + 4096.
Proof. unfold pos. pose proof (Z.mod_pos_bound (Z.of_nat j) 128). lia. Qed.

Lemma pos_page P j : P mod 4096 = 0 -> pos P j mod 4096 = 32 * (Z.of_nat j mod 128).
Proof.
  intros HP. unfold pos. pose proof (Z.mod_pos_bound (Z.of_nat j) 128).
  rewrite <- Zplus_mod_idemp_l, HP, Z.add_0_l. apply Z.mod_small. lia.
Qed.

Lemma next_pos P j :
  P mod 4096 = 0 -> 0 <= P < TWO64 - 4096 -> next_lite_journal (pos P j) = pos P (S j).
Proof.
  intros HP Hr. unfold next_lite_journal. rewrite land_4095, land_not_4095, pos_page by done.
  change JOURNAL_ENTRY_SIZE with 32. change PAGE_SIZE with 4096. pose proof (pos_range P j).
  assert (Hs : Z.of_nat (S j) mod 128 = (Z.of_nat j mod 128 + 1) mod 128).
  { rewrite Zplus_mod_idemp_l. f_equal. lia. }
  pose proof (Z.mod_pos_bound (Z.of_nat j) 128 ltac:(lia)) as Hb.
  unfold pos at 3. rewrite Hs. case_match eqn:Hc; zbool.
  - assert (Z.of_nat j mod 128 = 127) as -> by lia. change ((127 + 1) mod 128) with 0.
    unfold pos. pose proof (pos_page P j HP). lia.
  - rewrite (Z.mod_small (Z.of_nat j mod 128 + 1)) by lia. unfold pos in *.
    rewrite u64_small by lia. lia.
Qed.

Lemma pos_inj P i j : (i < j)%nat -> (j < i + 128)%nat -> pos P i <> pos P j.
Proof.
  intros Hij Hj E. unfold pos in E.
  assert (Em : Z.of_nat i mod 128 = Z.of_nat j mod 128) by lia.
  pose proof (Z.div_mod (Z.of_nat i) 128 ltac:(lia)).
  pose proof (Z.div_mod (Z.of_nat j) 128 ltac:(lia)). lia.
Qed.

Section journal.
Context {RB : RbOps} {KM : KmemOps} {CR : CrcOps} {CRL : CrcLaws} {MP : ModParams}.
Context (sbi : nova_sb_info).

Abbreviation ms := (meta_start_virt sbi).
Abbreviation maddr := (meta_addr sbi).

(** The journal page [P] of [cpu] and the pointer table, in the metadata
    area. *)
Record jgeom (cpu P : Z) : Prop := {
  jg_start : 0 <= ms /\ ms mod 4096 = 0;
  jg_page : P mod 4096 = 0;
  jg_page_lo : 64 * 4096 <= P;
  jg_top : ms + P + 4096 < TWO64;
  jg_cpu : 0 <= cpu < cpus sbi;
  jg_cpus : cpus sbi <= 1024
}.

(** The head pointer of CPU [i]; the tail pointer is 8 bytes above. *)
Definition pair_addr (i : Z) : Z := ms + 4096 * 48 + i * 64.

(** The words the journal keeps for itself. *)
Definition in_area (P a : Z) : Prop :=
  ms + 4096 * 48 <= a < ms + 4096 * 64 \/ ms + P <= a < ms + P + 4096.

(** Traces that leave the journal alone. *)
Definition off_area (P : Z) (t : list pact) : Prop :=
  Forall (fun p => match stores_to p with Some a => ~ in_area P a | None => True end) t.

Lemma off_area_untouched P t a : off_area P t -> in_area P a -> untouched a t.
Proof.
  intros Ht Ha. eapply Forall_impl; [exact Ht|]. intros p Hp E. cbv beta in Hp. by rewrite E in Hp.
Qed.

Section geom.
Context (cpu P : Z) (G : jgeom cpu P).

Lemma maddr_page o : P <= o < P + 4096 -> maddr o = ms + o.
Proof.
  intros Ho. destruct G as [[? ?] ? ? ? ? ?]. unfold meta_addr, nova_get_virt_addr_from_offset.
  apply u64_small. lia.
Qed.

Definition slot (j : nat) : Z := ms + pos P j.

Lemma maddr_pos j : maddr (pos P j) = slot j.
Proof. apply maddr_page. pose proof (pos_range P j). lia. Qed.

Lemma slot_area j o : 0 <= o < 32 -> in_area P (slot j + o).
Proof. intros. right. unfold slot. pose proof (pos_range P j). lia. Qed.

Lemma journal_pointers i : 0 <= i < cpus sbi ->
  nova_get_journal_pointers sbi i = Some (pair_addr i).
Proof.
  intros Hi. destruct G as [[? ?] ? ? ? ? ?]. unfold nova_get_journal_pointers, pair_addr.
  rewrite (proj2 (Z.leb_gt _ _)) by lia. unfold meta_addr, nova_get_virt_addr_from_offset.
  change (PAGE_SIZE * JOURNAL_START) with (4096 * 48). change CACHELINE_SIZE with 64.
  rewrite (u64_small (ms + _)) by lia. rewrite u64_small by lia. done.
Qed.

Lemma pair_area i : 0 <= i < cpus sbi ->
  in_area P (pair_addr i) /\ in_area P (pair_addr i + 8).
Proof. intros Hi. destruct G. unfold in_area, pair_addr. lia. Qed.

(** ** Entries *)

Definition af (field : Z) : Z := Z.land field (Z.lnot 7).
Definition field_off (field : Z) : Z := nova_get_addr_off sbi (af field) true.

Lemma af_aligned f : af f mod 8 = 0.
Proof.
  unfold af. change 7 with (Z.ones 3). rewrite <- Z.ldiff_land, Z.ldiff_ones_r by lia.
  rewrite Z.shiftl_mul_pow2 by lia. by rewrite Z.mod_mul.
Qed.

Lemma field_addr f : 0 <= f < TWO64 -> maddr (field_off f) = af f.
Proof.
  intros Hf. unfold meta_addr, field_off, nova_get_virt_addr_from_offset, nova_get_addr_off, u64.
  rewrite Zplus_mod_idemp_r. replace (ms + (af f - ms)) with (af f) by lia.
  apply Z.mod_small. unfold af. change 7 with (Z.ones 3).
  rewrite <- Z.ldiff_land, Z.ldiff_ones_r by lia.
  rewrite Z.shiftl_mul_pow2, Z.shiftr_div_pow2 by lia. change (2 ^ 3) with 8.
  pose proof (Z.div_mod f 8). pose proof (Z.mod_pos_bound f 8).
  assert (0 <= f / 8) by (apply Z.div_pos; lia). lia.
Qed.

(** The last word of an entry: no padding, the checksum above it. *)
Definition crc_word (ad v : Z) : Z :=
  Z.shiftl (nova_crc32c (TWO32 - 1) (entry_bytes JOURNAL_ENTRY ad v 0)) 32.

(** The entry at [e] of memory [g] says: restore [v] at offset [ad]. *)
Definition entry_ok (g : Z -> Z) (e ad v : Z) : Prop :=
  g e = JOURNAL_ENTRY /\ g (e + 8) = ad /\ g (e + 16) = v /\ g (e + 24) = crc_word ad v.

Definition entry_words (e : Z) : list Z := [e; e + 8; e + 16; e + 24].

Lemma entry_bytes_range t a b p : Forall (fun b => 0 <= b < 256) (entry_bytes t a b p).
Proof. unfold entry_bytes. rewrite !Forall_app. split_and!; apply le_bytes_range. Qed.

Lemma crc_word_halves ad v :
  u32 (crc_word ad v) = 0
  /\ Z.shiftr (crc_word ad v) 32 = nova_crc32c (TWO32 - 1) (entry_bytes JOURNAL_ENTRY ad v 0).
Proof.
  unfold crc_word. split.
  - unfold u32. rewrite Z.shiftl_mul_pow2 by lia. change TWO32 with (2 ^ 32). by rewrite Z.mod_mul.
  - rewrite Z.shiftr_shiftl_l by lia. by rewrite Z.sub_diag, Z.shiftl_0_r.
Qed.

Lemma entry_check m e ad v :
  entry_ok (cur m) e ad v -> nova_check_entry_integrity e m = (0, []).
Proof.
  intros (H0 & H1 & H2 & H3). unfold nova_check_entry_integrity, entry_crc.
  eapply (bind_run _ _ _ _ [] _ []).
  - rewrite !bind_load. reflexivity.
  - simpl exec. rewrite bind_load, H0, H1, H2, H3.
    destruct (crc_word_halves ad v) as [-> ->]. by rewrite Z.eqb_refl.
Qed.

(** The five stores of an entry; [w] is the old last word. *)
Definition append_acts (e ad v w : Z) : list pact :=
  let w1 := Z.lor (Z.shiftl (Z.shiftr w 32) 32) (u32 0) in
  [Store e JOURNAL_ENTRY; Store (e + 24) w1; Store (e + 8) ad; Store (e + 16) v;
   Store (e + 24) (crc_word ad v)].

Lemma low_half_clear w : u32 (Z.lor (Z.shiftl (Z.shiftr w 32) 32) (u32 0)) = 0.
Proof.
  change (u32 0) with 0. rewrite Z.lor_0_r. unfold u32.
  rewrite Z.shiftl_mul_pow2 by lia. change TWO32 with (2 ^ 32). by rewrite Z.mod_mul.
Qed.

Ltac simpl_cur := repeat (rewrite cur_store; first
  [rewrite decide_True by lia | rewrite decide_False by lia]).

Lemma append_entry_run m j f :
  ~ in_area P (af f) ->
  nova_append_entry_journal sbi (pos P j) f m
  = (pos P (S j), append_acts (slot j) (field_off f) (cur m (af f)) (cur m (slot j + 24))).
Proof.
  intros Hf. destruct G as [[? ?] ? ? ? ? ?]. unfold nova_append_entry_journal.
  rewrite maddr_pos. fold (af f). fold (field_off f).
  assert (Hne : forall o, 0 <= o < 32 -> slot j + o <> af f).
  { intros o Ho E. apply Hf. rewrite <- E. by apply slot_area. }
  pose proof (Hne 0 ltac:(lia)) as Hn0. rewrite Z.add_0_r in Hn0.
  pose proof (Hne 8 ltac:(lia)). pose proof (Hne 24 ltac:(lia)).
  set (e := slot j) in *. unfold append_acts.
  apply bind_store. eapply (bind_run _ _ _ () [_]).
  { unfold store32_lo. rewrite bind_load. simpl_cur. reflexivity. }
  apply bind_store. rewrite bind_load. cbn [exec fold_left]. simpl_cur.
  apply bind_store. eapply (bind_run _ _ _ () [_] _ []).
  - unfold nova_update_journal_entry_csum.
    eapply (bind_run _ _ _ _ []).
    { unfold entry_crc. rewrite !bind_load. simpl_cur. reflexivity. }
    cbn [exec fold_left]. unfold store32_hi. rewrite bind_load. simpl_cur.
    rewrite low_half_clear, Z.lor_0_r. rewrite u32_small; [reflexivity|].
    apply nova_crc32c_range, entry_bytes_range.
  - rewrite next_pos by lia. reflexivity.
Qed.

Lemma append_acts_untouched e ad v w a :
  a ∉ entry_words e -> untouched a (append_acts e ad v w).
Proof.
  unfold entry_words, append_acts. intros Ha.
  repeat (apply Forall_cons; split; [simpl; set_solver|]). apply Forall_nil. done.
Qed.

Lemma append_acts_ok m e ad v w : entry_ok (cur (exec (append_acts e ad v w) m)) e ad v.
Proof.
  unfold entry_ok, append_acts. cbn [exec fold_left]. split_and!; simpl_cur; done.
Qed.

(** ** A sequence of entries *)

Fixpoint append_fields (fs : list Z) (temp : Z) : PM Z :=
  match fs with
  | [] => mret temp
  | f :: fs' => temp ← nova_append_entry_journal sbi temp f; append_fields fs' temp
  end.

(** Old values by word. *)
Definition entries_ok (g : Z -> Z) (j : nat) (fs : list Z) (old : Z -> Z) : Prop :=
  forall k f, fs !! k = Some f -> entry_ok g (slot (j + k)) (field_off f) (old (af f)).

Lemma entry_words_area j a : a ∈ entry_words (slot j) -> in_area P a.
Proof.
  intros Ha. unfold entry_words in Ha. set_unfold in Ha.
  destruct Ha as [->|[->|[->|[->|[]]]]].
  - rewrite <- (Z.add_0_r (slot j)). by apply slot_area.
  - by apply slot_area.
  - by apply slot_area.
  - by apply slot_area.
Qed.

Lemma entry_words_disjoint i j a :
  (i < j)%nat -> (j < i + 128)%nat -> a ∈ entry_words (slot i) -> a ∉ entry_words (slot j).
Proof.
  intros Hij Hj Hi Hj'. pose proof (pos_inj P i j Hij Hj) as Hne.
  unfold entry_words, slot, pos in *. set_unfold in Hi. set_unfold in Hj'. lia.
Qed.

Lemma entry_ok_untouched e ad v t m :
  (forall a, a ∈ entry_words e -> untouched a t) ->
  entry_ok (cur m) e ad v -> entry_ok (cur (exec t m)) e ad v.
Proof.
  intros Hu. unfold entry_ok. rewrite !cur_untouched; [done|..]; apply Hu; set_solver.
Qed.

Lemma append_fields_run fs m j old :
  (length fs <= 128)%nat -> (forall f, f ∈ fs -> ~ in_area P (af f)) ->
  (forall f, f ∈ fs -> cur m (af f) = old (af f)) ->
  exists t, append_fields fs (pos P j) m = (pos P (j + length fs), t)
    /\ (forall a, ~ in_area P a -> untouched a t)
    /\ (forall a, (forall k, (j <= k < j + length fs)%nat -> a ∉ entry_words (slot k)) ->
          untouched a t)
    /\ entries_ok (cur (exec t m)) j fs old.
Proof.
  revert m j. induction fs as [|f fs IH]; intros m j Hlen Hf Hold; simpl in *.
  { exists []. rewrite Nat.add_0_r. split_and!; try done; intros; constructor. }
  pose proof (append_entry_run m j f (Hf f ltac:(set_solver))) as Hrun.
  set (t1 := append_acts _ _ _ _) in *.
  assert (Hu1 : forall a, a ∉ entry_words (slot j) -> untouched a t1)
    by (intros; by apply append_acts_untouched).
  assert (Hua : forall a, ~ in_area P a -> untouched a t1).
  { intros a Ha. apply Hu1. intros Hin. apply Ha. by eapply entry_words_area. }
  destruct (IH (exec t1 m) (S j)) as (t2 & Hr2 & Hn2 & Hu2 & He2); [lia|set_solver| |].
  { intros f' Hf'. rewrite cur_untouched; [apply Hold; set_solver|]. apply Hua, Hf. set_solver. }
  exists (t1 ++ t2). split_and!.
  - erewrite bind_run; [|exact Hrun|exact Hr2]. f_equal. f_equal. lia.
  - intros a Ha. apply untouched_app. auto.
  - intros a Ha. apply untouched_app. split; [apply Hu1, Ha; lia|].
    apply Hu2. intros k Hk. apply Ha. lia.
  - intros k f' Hk. rewrite exec_app. destruct k as [|k]; simplify_eq/=.
    + rewrite Nat.add_0_r. apply entry_ok_untouched.
      * intros a Ha. apply Hu2. intros k Hk. eapply entry_words_disjoint; [| |exact Ha]; lia.
      * rewrite <- (Hold f') by set_solver. apply append_acts_ok.
    + replace (j + S k)%nat with (S j + k)%nat by lia. by apply He2.
Qed.

(** ** The flush in batch *)

Lemma pos_step j n : (n <= 127)%nat ->
  (Z.of_nat j mod 128 + Z.of_nat n < 128 /\
     Z.of_nat (j + n) mod 128 = Z.of_nat j mod 128 + Z.of_nat n) \/
  (128 <= Z.of_nat j mod 128 + Z.of_nat n /\
     Z.of_nat (j + n) mod 128 = Z.of_nat j mod 128 + Z.of_nat n - 128).
Proof.
  intros Hn. pose proof (Z.mod_pos_bound (Z.of_nat j) 128 ltac:(lia)).
  assert (E : Z.of_nat (j + n) mod 128 = (Z.of_nat j mod 128 + Z.of_nat n) mod 128).
  { rewrite Zplus_mod_idemp_l. f_equal. lia. }
  destruct (Z_lt_le_dec (Z.of_nat j mod 128 + Z.of_nat n) 128); [left|right]; (split; [done|]).
  - rewrite E. apply Z.mod_small. lia.
  - rewrite E. symmetry. apply Z.mod_unique_pos with 1; lia.
Qed.

Lemma slot_words_range j a : a ∈ entry_words (slot j) ->
  slot j <= a < slot j + 32 /\ a mod 8 = 0.
Proof.
  destruct G as [[? Hms] Hpg ? ? ? ?]. intros Ha. unfold entry_words in Ha. set_unfold in Ha.
  split; [lia|].
  assert (Hs : slot j mod 8 = 0).
  { unfold slot, pos. apply Z.mod_divide in Hms as [q Hq]; [|lia].
    apply Z.mod_divide in Hpg as [r Hr]; [|lia]. rewrite Hq, Hr.
    replace (q * 4096 + (r * 4096 + 32 * (Z.of_nat j mod 128)))
      with ((q * 512 + r * 512 + 4 * (Z.of_nat j mod 128)) * 8) by lia.
    by rewrite Z.mod_mul. }
  destruct Ha as [->|[->|[->|[->|[]]]]]; [done|..].
  - by rewrite <- Zplus_mod_idemp_l, Hs.
  - by rewrite <- Zplus_mod_idemp_l, Hs.
  - by rewrite <- Zplus_mod_idemp_l, Hs.
Qed.

Lemma flush_batch_run j n m :
  (n <= 127)%nat ->
  exists F, nova_flush_journal_in_batch sbi (pos P j) (pos P (j + n)) m = ((), F ++ [Fence])
    /\ (forall a, untouched a F)
    /\ (forall k a, (k < n)%nat -> a ∈ entry_words (slot (j + k)) ->
          exists b, Clwb b ∈ F /\ line a = line b).
Proof.
  intros Hn. unfold nova_flush_journal_in_batch.
  pose proof G as [[Hms0 Hms] Hpg Hlo Htop _ _].
  pose proof (Z.mod_pos_bound (Z.of_nat j) 128 ltac:(lia)) as Hjb.
  pose proof (pos_page P j Hpg) as Epj. pose proof (pos_page P (j + n) Hpg) as Epn.
  rewrite !land_4095, Epj, Epn. rewrite !maddr_pos. change PAGE_SIZE with 4096.
  change (4096 - 1) with (PAGE_SIZE - 1). rewrite land_not_4095.
  assert (Eslot : slot (j + n) - slot (j + n) mod 4096 = ms + P).
  { unfold slot. rewrite <- Zplus_mod_idemp_l, Hms, Z.add_0_l, Epn. unfold pos. lia. }
  rewrite Eslot. set (hj := Z.of_nat j mod 128) in *. set (tj := Z.of_nat (j + n) mod 128) in *.
  assert (Hslot : forall k, slot (j + k) = ms + P + 32 * (Z.of_nat (j + k) mod 128)).
  { intros k. unfold slot, pos. lia. }
  assert (Ecmp : (pos P j <? pos P (j + n)) = (hj <? tj)).
  { unfold pos. fold hj tj. destruct (Z.ltb_spec hj tj); [apply Z.ltb_lt|apply Z.ltb_ge]; lia. }
  assert (Ediff : pos P (j + n) - pos P j = 32 * (tj - hj)) by (unfold pos; fold hj tj; lia).
  assert (Hs0 : slot j = ms + P + 32 * hj) by (unfold slot, pos; fold hj; lia).
  rewrite Ecmp, Ediff.
  destruct (pos_step j n Hn) as [[Hw Et]|[Hw Et]]; fold hj tj in Hw, Et.
  - destruct (Z.ltb_spec hj tj) as [Hlt|Hge].
    + exists (flush_acts (slot j) (32 * (tj - hj))). split_and!.
      * eapply bind_run; [apply flush_only_run|done].
      * apply flush_acts_untouched.
      * intros k a Hk Ha. apply slot_words_range in Ha as [Ha _]. rewrite Hslot in Ha.
        assert (Z.of_nat (j + k) mod 128 = hj + Z.of_nat k) as Ek.
        { destruct (pos_step j k ltac:(lia)) as [[? ->]|[? _]]; [done|unfold hj in *; lia]. }
        rewrite Ek in Ha. apply flush_acts_covers; lia.
    + assert (n = 0)%nat as -> by lia.
      eexists. split_and!.
      * eapply bind_run; [|done]. eapply bind_run; [apply flush_only_run|apply flush_only_run].
      * intros a. rewrite !untouched_app. split; apply flush_acts_untouched.
      * intros k a Hk. lia.
  - destruct (Z.ltb_spec hj tj) as [Hlt|Hge]; [lia|].
    eexists. split_and!.
    + eapply bind_run; [|done]. eapply bind_run; [apply flush_only_run|apply flush_only_run].
    + intros a. rewrite !untouched_app. split; apply flush_acts_untouched.
    + intros k a Hk Ha. apply slot_words_range in Ha as [Ha _]. rewrite Hslot in Ha.
      destruct (pos_step j k ltac:(lia)) as [[Hk1 Ek]|[Hk1 Ek]]; fold hj in Hk1, Ek; rewrite Ek in Ha.
      * destruct (flush_acts_covers (slot j) (4096 - 32 * hj) a) as (b & Hb & Hl); [lia..|].
        exists b. split; [|done]. set_solver.
      * destruct (flush_acts_covers (ms + P) (32 * tj) a) as (b & Hb & Hl); [lia..|].
        exists b. split; [|done]. set_solver.
Qed.
End geom.
End journal.
