(* ===== verification/JournalCrash.v ===== *)
(** Crash consistency of the lite journal: the states a crash can leave behind
    a transaction, and what recovery makes of them. *)

From S2P Require Import Prelude.
From S2P Require Import Kernel.
From S2P Require Import Checksum.
From S2P Require Import Layout.
From S2P Require Import Pmem.
From S2P Require Import PmemSpec.
From S2P Require Import Journal.
From S2P Require Import JournalSpec.

Lemma persisted_in a b F t m :
  mem_ok m -> a mod 8 = 0 -> line a = line b -> Clwb b ∈ F -> untouched a F -> untouched a t ->
  settled (exec (F ++ Fence :: t) m) a.
Proof.
  intros Hok Ha Hl Hin HF Ht. apply list_elem_of_split in Hin as (f1 & f2 & ->).
  rewrite <- app_assoc. simpl. apply persisted; try done.
  apply untouched_app in HF as [? HF]. apply Forall_cons in HF as [_ HF].
  apply untouched_app. split; [done|]. constructor; [done|].
  change (untouched a (f2 ++ Fence :: t)). apply untouched_app. split; [done|]. by constructor.
Qed.

Lemma entries_ok_ext `{CrcOps} sbi P g g' j fs old :
  (forall k a, (k < length fs)%nat -> a ∈ entry_words (slot sbi P (j + k)) -> g' a = g a) ->
  entries_ok sbi P g j fs old -> entries_ok sbi P g' j fs old.
Proof.
  intros Hext He k f Hk. pose proof (lookup_lt_Some _ _ _ Hk).
  specialize (He k f Hk). unfold entry_ok in He |- *.
  rewrite !(Hext k) by (done || (unfold entry_words; set_solver)). done.
Qed.

Section crash.
Context {RB : RbOps} {KM : KmemOps} {CR : CrcOps} {CRL : CrcLaws} {MP : ModParams}.
Context (sbi : nova_sb_info) (cpu P : Z) (G : jgeom sbi cpu P).

Abbreviation jp := (pair_addr sbi cpu).
Abbreviation area := (in_area sbi P).
Abbreviation slotw := (slot sbi P).

(** The journal of [cpu] is idle at slot [j] and durable. *)
Record idle (m : mem) (j : nat) : Prop := {
  id_ok : mem_ok m;
  id_head : cur m jp = pos P j;
  id_tail : cur m (jp + 8) = pos P j;
  id_head_settled : settled m jp;
  id_tail_settled : settled m (jp + 8)
}.

Definition transaction (fs : list Z) : PM (option Z) :=
  run_transaction sbi cpu (append_fields sbi fs).

Lemma pair_aligned : jp mod 8 = 0 /\ (jp + 8) mod 8 = 0.
Proof.
  destruct G as [[? Hms] ? ? ? ? ?]. apply Z.mod_divide in Hms as [q Hq]; [|lia].
  unfold pair_addr. rewrite Hq.
  replace (q * 4096 + 4096 * 48 + cpu * 64) with ((q * 512 + 24576 + cpu * 8) * 8) by lia.
  split; [by rewrite Z.mod_mul|]. rewrite <- Zplus_mod_idemp_l, Z.mod_mul by lia. done.
Qed.

Lemma pairs_not_slot i j a :
  0 <= i < cpus sbi -> a = pair_addr sbi i \/ a = pair_addr sbi i + 8 ->
  a ∉ entry_words (slotw j).
Proof.
  destruct G. unfold entry_words, slot, pair_addr. pose proof (pos_range P j).
  set_unfold. lia.
Qed.

Lemma pair_not_slot j a : a = jp \/ a = jp + 8 -> a ∉ entry_words (slotw j).
Proof. apply pairs_not_slot, G. Qed.

Lemma pos_neq j n : (0 < n <= 127)%nat -> pos P j <> pos P (j + n).
Proof. intros Hn. apply pos_inj; lia. Qed.

(** What a transaction does, in order: the entries, their flush, a fence, the
    tail, its flush, a fence. *)
Lemma transaction_run fs m j :
  idle m j -> (length fs <= 127)%nat -> (forall f, f ∈ fs -> ~ area (af f)) ->
  exists te F,
    transaction fs m = (Some (pos P (j + length fs)),
      (te ++ F ++ [Fence]) ++ Store (jp + 8) (pos P (j + length fs)) :: flush_acts jp 64 ++ [Fence])
    /\ (forall a, ~ area a -> untouched a te)
    /\ (forall i a, 0 <= i < cpus sbi -> a = pair_addr sbi i \/ a = pair_addr sbi i + 8 ->
          untouched a te)
    /\ entries_ok sbi P (cur (exec te m)) j fs (cur m)
    /\ (forall a, untouched a F)
    /\ (forall k a, (k < length fs)%nat -> a ∈ entry_words (slotw (j + k)) ->
          exists b, Clwb b ∈ F /\ line a = line b).
Proof.
  intros Hid Hlen Hf. pose proof G as [[? ?] ? ? ? ? ?].
  destruct (append_fields_run sbi cpu P G fs m j (cur m)) as (te & Hrun & Hna & Hu & He);
    [lia|done|done|].
  destruct (flush_batch_run sbi cpu P G j (length fs) (exec te m) Hlen) as (F & HF & HuF & Hcov).
  assert (Hup : forall i a, 0 <= i < cpus sbi ->
    a = pair_addr sbi i \/ a = pair_addr sbi i + 8 -> untouched a te).
  { intros i a Hi Ha. apply Hu. intros k _. by eapply pairs_not_slot. }
  assert (Hu1 : untouched jp te) by (eapply Hup; eauto).
  exists te, F. split_and!; auto.
  unfold transaction, run_transaction. rewrite (journal_pointers sbi cpu P G) by done.
  rewrite !bind_load, (id_head _ _ Hid), (id_tail _ _ Hid).
  assert (pos P j =? 0 = false) as ->.
  { apply Z.eqb_neq. pose proof (pos_range P j). lia. }
  rewrite Z.eqb_refl. simpl orb. cbv iota.
  rewrite <- app_assoc. eapply bind_run; [exact Hrun|]. rewrite bind_load, cur_untouched by done.
  rewrite (id_head _ _ Hid).
  eapply bind_run; [exact HF|]. apply bind_store.
  rewrite <- (app_nil_r (flush_acts jp 64 ++ [Fence])).
  eapply bind_run; [apply flush_fence_run|done].
Qed.

(** ** The crash states *)

(** Either the journal is empty and every journaled word has its old value, or
    the journal holds an entry for each of them. *)
Definition undoable (s : Z -> Z) (j : nat) (fs : list Z) (old : Z -> Z) : Prop :=
  s jp = pos P j /\
  (s (jp + 8) = pos P j /\ (forall f, f ∈ fs -> s (af f) = old (af f))
   \/ s (jp + 8) = pos P (j + length fs) /\ entries_ok sbi P s j fs old).

(** The tail is durable once flushed and fenced. *)
Lemma tail_settled x t m :
  mem_ok m -> untouched (jp + 8) t ->
  settled (exec (Store (jp + 8) x :: flush_acts jp 64 ++ Fence :: t) m) (jp + 8)
  /\ cur (exec (Store (jp + 8) x :: flush_acts jp 64 ++ Fence :: t) m) (jp + 8) = x.
Proof.
  intros Hok Hu. pose proof pair_aligned as [_ Hal]. pose proof G as [[? ?] ? ? ? ? ?].
  assert (Hj : 0 <= jp) by (unfold pair_addr; lia).
  change (exec (?p :: ?l) m) with (exec l (exec1 p m)). split.
  - pose proof (flush_fence_settled jp 64 (jp + 8) [] t (exec1 (Store (jp + 8) x) m)) as Hs.
    apply Hs; try done; try lia; [by apply mem_ok_exec1|constructor].
  - rewrite cur_untouched.
    + by rewrite cur_store, decide_True.
    + apply untouched_app. split; [apply flush_acts_untouched|]. by constructor.
Qed.

(** The entries of [fs] are in the ring and durable. *)
Definition written (m : mem) (j : nat) (fs : list Z) (old : Z -> Z) : Prop :=
  entries_ok sbi P (cur m) j fs old
  /\ forall k a, (k < length fs)%nat -> a ∈ entry_words (slotw (j + k)) -> settled m a.

Lemma written_untouched m j fs old t :
  (forall k a, a ∈ entry_words (slotw k) -> untouched a t) ->
  written m j fs old -> written (exec t m) j fs old.
Proof.
  intros Hu [He Hs]. split.
  - eapply entries_ok_ext; [|exact He]. intros k a _ Ha. apply cur_untouched. eauto.
  - intros k a Hk Ha. apply settled_untouched; eauto.
Qed.

Lemma written_crash m j fs old s :
  written m j fs old -> crashed m s -> entries_ok sbi P s j fs old.
Proof.
  intros [He Hs] Hc. eapply entries_ok_ext; [|exact He]. intros k a Hk Ha.
  apply crashed_settled; eauto.
Qed.

(** After the flush in batch. *)
Lemma entries_written fs m j te F old :
  mem_ok m -> entries_ok sbi P (cur (exec te m)) j fs old -> (forall a, untouched a F) ->
  (forall k a, (k < length fs)%nat -> a ∈ entry_words (slotw (j + k)) ->
     exists b, Clwb b ∈ F /\ line a = line b) ->
  written (exec (te ++ F ++ [Fence]) m) j fs old.
Proof.
  intros Hok He HuF Hcov. rewrite exec_app. split.
  - eapply entries_ok_ext; [|exact He]. intros k a _ _. apply cur_untouched.
    apply untouched_app. split; [done|by constructor].
  - intros k a Hk Ha. destruct (Hcov k a Hk Ha) as (b & Hb & Hl).
    eapply persisted_in; eauto; [by apply mem_ok_exec| |constructor].
    by eapply slot_words_range.
Qed.

(** A transaction is open: head and tail delimit its entries, all durable. *)
Record armed (m : mem) (j : nat) (fs : list Z) (old : Z -> Z) : Prop := {
  ar_ok : mem_ok m;
  ar_head : cur m jp = pos P j /\ settled m jp;
  ar_tail : cur m (jp + 8) = pos P (j + length fs) /\ settled m (jp + 8);
  ar_entries : written m j fs old
}.

Lemma armed_untouched m j fs old t :
  off_area sbi P t -> armed m j fs old -> armed (exec t m) j fs old.
Proof.
  intros Hoff [Hok [Hh Hhs] [Ht Hts] Hw].
  pose proof (pair_area sbi cpu P G cpu (jg_cpu _ _ _ G)) as [Ha1 Ha2].
  assert (Hu : forall a, area a -> untouched a t) by (intros; by eapply off_area_untouched).
  split.
  - by apply mem_ok_exec.
  - rewrite cur_untouched by auto. split; [done|]. apply settled_untouched; auto.
  - rewrite cur_untouched by auto. split; [done|]. apply settled_untouched; auto.
  - apply written_untouched; [|done]. intros k a Ha. apply Hu. by eapply entry_words_area.
Qed.

Lemma armed_crash m j fs old s :
  armed m j fs old -> crashed m s -> undoable s j fs old.
Proof.
  intros [_ [Hh Hhs] [Ht Hts] Hw] Hc. split.
  - by rewrite (crashed_settled _ _ _ Hc Hhs).
  - right. split; [by rewrite (crashed_settled _ _ _ Hc Hts)|]. by eapply written_crash.
Qed.

(** The state when the tail is about to move. *)
Record filled (m : mem) (j : nat) (fs : list Z) (old : Z -> Z) : Prop := {
  fi_idle : idle m j;
  fi_entries : written m j fs old;
  fi_fields : forall f, f ∈ fs -> settled m (af f) /\ cur m (af f) = old (af f)
}.

Lemma filled_crash_tail m j fs old x F s :
  filled m j fs old -> (forall f, f ∈ fs -> ~ area (af f)) -> x = pos P (j + length fs) ->
  (forall a, untouched a F) -> crashed (exec (Store (jp + 8) x :: F) m) s ->
  undoable s j fs old.
Proof.
  intros [Hid Hw Hfs] Hf -> HF Hc.
  pose proof (pair_area sbi cpu P G cpu (jg_cpu _ _ _ G)) as [Ha1 Ha2].
  assert (Hu : forall a, a <> jp + 8 -> untouched a (Store (jp + 8) (pos P (j + length fs)) :: F)).
  { intros a Ha. constructor; [simpl; congruence|apply HF]. }
  assert (Hst : forall a, a <> jp + 8 -> settled m a -> s a = cur m a).
  { intros a Ha Hs. rewrite (crashed_settled _ _ a Hc); [by apply cur_untouched, Hu|].
    by apply settled_untouched; [apply Hu|]. }
  split; [rewrite Hst; [apply Hid|lia|apply Hid]|].
  assert (HF' : forall p v, p ∈ F -> stores_to p <> Some v).
  { intros p v Hp. pose proof (HF v) as Hv. unfold untouched in Hv.
    rewrite Forall_forall in Hv. by apply Hv. }
  destruct (crashed_stored (jp + 8) _ _ _ Hc) as [Hin|[Hin|Hin]].
  - left. split.
    + rewrite (id_tail_settled _ _ Hid) in Hin. apply list_elem_of_singleton in Hin.
      rewrite Hin. apply Hid.
    + intros f Hin'. destruct (Hfs f Hin') as [Hs <-]. apply Hst; [|done].
      intros E. apply (Hf f Hin'). by rewrite E.
  - right. split.
    + apply elem_of_cons in Hin as [[= ->]|Hin]; [done|]. by destruct (HF' _ (jp + 8) Hin).
    + eapply written_crash; [|exact Hc]. apply written_untouched; [|done].
      intros k a Ha. apply Hu. intros ->. eapply pair_not_slot; [|exact Ha]. auto.
  - exfalso. apply elem_of_cons in Hin as [?|Hin]; [done|]. by destruct (HF' _ (jp + 8) Hin).
Qed.

Lemma filled_armed m j fs old x :
  filled m j fs old -> x = pos P (j + length fs) ->
  armed (exec (Store (jp + 8) x :: flush_acts jp 64 ++ [Fence]) m) j fs old.
Proof.
  intros [Hid Hw Hfs] ->.
  assert (Hu : forall a, a <> jp + 8 ->
    untouched a (Store (jp + 8) (pos P (j + length fs)) :: flush_acts jp 64 ++ [Fence])).
  { intros a Ha. constructor; [simpl; congruence|].
    change (untouched a (flush_acts jp 64 ++ [Fence])). apply untouched_app.
    split; [apply flush_acts_untouched|by constructor]. }
  destruct (tail_settled (pos P (j + length fs)) [] m) as [Hts Htc]; [apply Hid|constructor|].
  split.
  - apply mem_ok_exec, Hid.
  - rewrite cur_untouched by (apply Hu; lia).
    split; [apply Hid|]. apply settled_untouched; [apply Hu; lia|apply Hid].
  - done.
  - apply written_untouched; [|done].
    intros k a Ha. apply Hu. intros ->. eapply pair_not_slot; [|exact Ha]. auto.
Qed.

(** ** Every crash point of a transaction *)
Section points.
Context (fs : list Z) (m : mem) (j : nat) (te F : list pact).
Context (Hid : idle m j) (Hlen : (0 < length fs <= 127)%nat).
Context (Hf : forall f, f ∈ fs -> ~ area (af f)) (Hfs : forall f, f ∈ fs -> settled m (af f)).
Context (Hna : forall a, ~ area a -> untouched a te).
Context (Hu1 : untouched jp te) (Hu2 : untouched (jp + 8) te).
Context (He : entries_ok sbi P (cur (exec te m)) j fs (cur m)).
Context (HuF : forall a, untouched a F).
Context (Hcov : forall k a, (k < length fs)%nat -> a ∈ entry_words (slotw (j + k)) ->
                  exists b, Clwb b ∈ F /\ line a = line b).

Abbreviation A := (te ++ F ++ [Fence]).
Abbreviation x := (pos P (j + length fs)).
Abbreviation B := (Store (jp + 8) x :: flush_acts jp 64 ++ [Fence]).

Lemma A_untouched a : ~ area a \/ a = jp \/ a = jp + 8 -> untouched a A.
Proof.
  intros Ha. rewrite !untouched_app. split_and!; auto; [|by constructor].
  destruct Ha as [?|[->| ->]]; auto.
Qed.

Lemma A_filled : filled (exec A m) j fs (cur m).
Proof.
  split.
  - split.
    + apply mem_ok_exec, Hid.
    + rewrite cur_untouched by (apply A_untouched; auto). apply Hid.
    + rewrite cur_untouched by (apply A_untouched; auto). apply Hid.
    + apply settled_untouched; [apply A_untouched; auto|apply Hid].
    + apply settled_untouched; [apply A_untouched; auto|apply Hid].
  - apply entries_written; auto. apply Hid.
  - intros f Hin. rewrite cur_untouched by (apply A_untouched; auto).
    split; [|done]. apply settled_untouched; [apply A_untouched; auto|auto].
Qed.

(** Up to the fence the journal is still empty. *)
Lemma crash_before_tail k s : crashed (exec (take k A) m) s -> undoable s j fs (cur m).
Proof.
  intros Hc.
  assert (Hs : forall a, ~ area a \/ a = jp \/ a = jp + 8 -> settled m a -> s a = cur m a).
  { intros a Ha Hst. pose proof (untouched_take _ k _ (A_untouched a Ha)) as Hu.
    rewrite (crashed_settled _ _ a Hc); [by apply cur_untouched|by apply settled_untouched]. }
  split; [rewrite Hs; [apply Hid|auto|apply Hid]|]. left. split.
  - rewrite Hs; [apply Hid|auto|apply Hid].
  - intros f Hin. auto.
Qed.

Lemma crash_undoable u k s :
  off_area sbi P u -> crashed (exec (take k ((A ++ B) ++ u)) m) s -> undoable s j fs (cur m).
Proof.
  intros Hu Hc. rewrite <- app_assoc, take_app in Hc.
  destruct (decide (k <= length A)%nat) as [Hk|Hk].
  { replace (k - length A)%nat with 0%nat in Hc by lia. rewrite take_0, app_nil_r in Hc.
    by eapply crash_before_tail. }
  rewrite (take_ge A), exec_app in Hc by lia. set (i := (k - length A)%nat) in *.
  pose proof A_filled as Hfi. set (m1 := exec A m) in *. rewrite take_app in Hc.
  destruct (decide (i < length B)%nat) as [Hi|Hi].
  - replace (i - length B)%nat with 0%nat in Hc by lia. rewrite take_0, app_nil_r in Hc.
    destruct i as [|i'] eqn:Ei; [lia|]. cbn [take] in Hc.
    eapply filled_crash_tail; [exact Hfi|done|done| |exact Hc].
    intros a. apply untouched_take, untouched_app.
    split; [apply flush_acts_untouched|by constructor].
  - rewrite (take_ge B), exec_app in Hc by lia.
    eapply armed_crash; [|exact Hc]. apply armed_untouched.
    + apply Forall_take. exact Hu.
    + by apply filled_armed.
Qed.

Lemma transaction_armed u : off_area sbi P u -> armed (exec ((A ++ B) ++ u) m) j fs (cur m).
Proof.
  intros Hu. rewrite !exec_app. apply armed_untouched; [done|].
  pose proof A_filled as Hfi. rewrite !exec_app in Hfi. by apply filled_armed.
Qed.
End points.

(** ** Commit *)

Definition commit_acts (x : Z) : list pact := Store jp x :: flush_acts jp 64 ++ [Fence].

Lemma commit_run m j fs old :
  armed m j fs old ->
  nova_commit_lite_transaction sbi (pos P (j + length fs)) cpu m
  = (Some (), commit_acts (pos P (j + length fs))).
Proof.
  intros [_ _ [Ht _] _]. unfold nova_commit_lite_transaction.
  rewrite (journal_pointers sbi cpu P G) by apply G. rewrite bind_load, Ht, Z.eqb_refl.
  simpl negb. cbv iota. apply bind_store.
  rewrite <- (app_nil_r (flush_acts jp 64 ++ [Fence])). eapply bind_run; [apply flush_fence_run|done].
Qed.

Lemma commit_untouched a x : a <> jp -> untouched a (commit_acts x).
Proof.
  intros Ha. constructor; [simpl; congruence|].
  change (untouched a (flush_acts jp 64 ++ [Fence])). apply untouched_app.
  split; [apply flush_acts_untouched|by constructor].
Qed.

(** A crash during the commit: the journal is still open, or it is closed and
    every word has its new value. *)
Lemma commit_crash m j fs old k s :
  armed m j fs old -> (forall f, f ∈ fs -> ~ area (af f)) ->
  (forall f, f ∈ fs -> settled m (af f)) ->
  crashed (exec (take k (commit_acts (pos P (j + length fs)))) m) s ->
  undoable s j fs old
  \/ s jp = s (jp + 8) /\ (forall f, f ∈ fs -> s (af f) = cur m (af f)).
Proof.
  intros Har Hf Hfs Hc. pose proof Har as [Hok [Hh Hhs] [Ht Hts] Hw].
  pose proof (pair_area sbi cpu P G cpu (jg_cpu _ _ _ G)) as [Ha1 Ha2].
  set (x := pos P (j + length fs)) in *.
  assert (Hst : forall a, a <> jp -> settled m a -> s a = cur m a).
  { intros a Ha Hs. pose proof (untouched_take _ k _ (commit_untouched a x Ha)) as Hu.
    rewrite (crashed_settled _ _ a Hc); [by apply cur_untouched|by apply settled_untouched]. }
  assert (Hnew : forall f, f ∈ fs -> s (af f) = cur m (af f)).
  { intros f Hin. apply Hst; [|auto]. intros E. apply (Hf f Hin). by rewrite E. }
  assert (Hent : entries_ok sbi P s j fs old).
  { destruct Hw as [He Hs]. eapply entries_ok_ext; [|exact He]. intros i a Hi Ha.
    apply Hst; [|eauto]. intros ->. eapply pair_not_slot; [|exact Ha]. auto. }
  assert (Htail : s (jp + 8) = x) by (rewrite Hst; [done|lia|done]).
  destruct (crashed_stored jp _ _ _ Hc) as [Hin|Hin].
  - left. rewrite Hhs in Hin. apply list_elem_of_singleton in Hin. rewrite Hh in Hin.
    split; [done|]. right. done.
  - right. split; [|done]. rewrite Htail.
    assert (Hin' : Store jp (s jp) ∈ commit_acts x \/ StoreNt jp (s jp) ∈ commit_acts x).
    { rewrite <- (take_drop k (commit_acts x)). set_solver. }
    assert (HF : forall p v, p ∈ flush_acts jp 64 ++ [Fence] -> stores_to p <> Some v).
    { intros p v [Hp|Hp]%elem_of_app.
      - pose proof (flush_acts_untouched jp 64 v) as Hv. unfold untouched in Hv.
        rewrite Forall_forall in Hv. by apply Hv.
      - apply list_elem_of_singleton in Hp as ->. done. }
    destruct Hin' as [Hin'|Hin']; apply elem_of_cons in Hin' as [E|Hin'];
      try (by injection E); try done; by destruct (HF _ jp Hin').
Qed.

(** After the commit the journal is idle again. *)
Lemma commit_idle m j fs old :
  armed m j fs old ->
  idle (exec (commit_acts (pos P (j + length fs))) m) (j + length fs).
Proof.
  intros [Hok _ [Ht Hts] _]. pose proof pair_aligned as [Hal _]. pose proof G as [[? ?] ? ? ? ? ?].
  set (x := pos P (j + length fs)) in *.
  assert (Hcur : cur (exec (commit_acts x) m) jp = x).
  { unfold commit_acts. change (exec (?p :: ?l) m) with (exec l (exec1 p m)).
    rewrite cur_untouched; [by rewrite cur_store, decide_True|]. apply untouched_app.
    split; [apply flush_acts_untouched|by constructor]. }
  split; try done.
  - by apply mem_ok_exec.
  - rewrite cur_untouched by (apply commit_untouched; lia). done.
  - unfold commit_acts. change (exec (?p :: ?l) m) with (exec l (exec1 p m)).
    pose proof (flush_fence_settled jp 64 jp [] [] (exec1 (Store jp x) m)) as Hs.
    apply Hs; try done; try (unfold pair_addr; lia); [by apply mem_ok_exec1|constructor..].
  - apply settled_untouched; [|done]. apply commit_untouched. lia.
Qed.
End crash.
