(* ===== verification/JournalRecover.v ===== *)
(** Recovery of the lite journal: the walks over the ring, the undo of every
    entry and the loop over the CPUs. *)

From S2P Require Import Prelude.
From S2P Require Import Kernel.
From S2P Require Import Checksum.
From S2P Require Import Layout.
From S2P Require Import Pmem.
From S2P Require Import PmemSpec.
From S2P Require Import Journal.
From S2P Require Import JournalSpec.
From S2P Require Import JournalCrash.

Section recover.
Context {RB : RbOps} {KM : KmemOps} {CR : CrcOps} {CRL : CrcLaws} {MP : ModParams}.
Context (sbi : nova_sb_info) (cpu P : Z) (G : jgeom sbi cpu P).

Abbreviation jp := (pair_addr sbi cpu).
Abbreviation area := (in_area sbi P).
Abbreviation slotw := (slot sbi P).

Lemma entries_ok_tail g j f fs old :
  entries_ok sbi P g j (f :: fs) old ->
  entry_ok g (slotw j) (field_off sbi f) (old (af f)) /\ entries_ok sbi P g (S j) fs old.
Proof.
  intros He. split.
  - pose proof (He 0%nat f eq_refl) as H. by rewrite Nat.add_0_r in H.
  - intros k f' Hk. replace (S j + k)%nat with (j + S k)%nat by lia. by apply He.
Qed.

Lemma page_range : 0 <= P < TWO64 - 4096.
Proof. destruct G as [[? ?] ? ? ? ? ?]. lia. Qed.

(** The integrity walk passes over genuine entries and writes nothing. *)
Lemma check_walk_run fs fuel j old m :
  (length fs <= 127)%nat -> (length fs <= fuel)%nat ->
  entries_ok sbi P (cur m) j fs old ->
  check_walk sbi fuel (pos P j) (pos P (j + length fs)) m = (Some 0, []).
Proof.
  revert fuel j. induction fs as [|f fs IH]; intros fuel j Hl Hf He; simpl in *.
  { rewrite Nat.add_0_r. destruct fuel; simpl; by rewrite Z.eqb_refl. }
  destruct fuel as [|fuel]; [lia|]. apply entries_ok_tail in He as [He1 He2].
  cbn [check_walk]. rewrite (proj2 (Z.eqb_neq _ _)) by (apply pos_neq; lia).
  eapply (bind_run _ _ _ 0 [] _ []).
  - rewrite (maddr_pos sbi cpu P G). by eapply entry_check.
  - simpl exec. cbv iota. rewrite next_pos by (apply G || apply page_range).
    replace (j + S (length fs))%nat with (S j + length fs)%nat by lia. apply IH; [lia..|done].
Qed.

(** One undo. *)
Lemma undo_entry_run m j f v :
  0 <= f < TWO64 -> entry_ok (cur m) (slotw j) (field_off sbi f) v ->
  nova_undo_lite_journal_entry sbi (slotw j) m
  = ((), Store (af f) v :: flush_acts (af f) 64).
Proof.
  intros Hf (H0 & H1 & H2 & _). unfold nova_undo_lite_journal_entry.
  rewrite bind_load, H0. change (JOURNAL_ENTRY =? JOURNAL_INODE) with false.
  change (JOURNAL_ENTRY =? JOURNAL_ENTRY) with true. cbv iota.
  unfold nova_undo_journal_entry. rewrite !bind_load, H1, H2.
  rewrite (field_addr sbi f) by done. apply bind_store. apply flush_only_run.
Qed.

Lemma undo_walk_run fs fuel j old m :
  (length fs <= 127)%nat -> (length fs <= fuel)%nat ->
  (forall f, f ∈ fs -> ~ area (af f) /\ 0 <= f < TWO64) ->
  cur m (jp + 8) = pos P (j + length fs) -> entries_ok sbi P (cur m) j fs old ->
  exists t, undo_walk sbi fuel (pos P j) jp m = (Some (), t)
    /\ off_area sbi P t
    /\ (forall a, cur (exec t m) a = if decide (a ∈ af <$> fs) then old a else cur m a).
Proof.
  pose proof (pair_area sbi cpu P G cpu (jg_cpu _ _ _ G)) as [Ha1 Ha2].
  revert fuel j m. induction fs as [|f fs IH]; intros fuel j m Hl Hfu Hf Ht He.
  { exists []. simpl in *. rewrite Nat.add_0_r in Ht. split_and!.
    - destruct fuel; simpl; rewrite bind_load, Ht, Z.eqb_refl; done.
    - constructor.
    - done. }
  cbn [length] in *. destruct fuel as [|fuel]; [lia|].
  apply entries_ok_tail in He as [He1 He2]. destruct (Hf f) as [Hfa Hfr]; [set_solver|].
  cbn [undo_walk].
  set (t1 := Store (af f) (old (af f)) :: flush_acts (af f) 64).
  assert (Hu1 : forall a, a <> af f -> untouched a t1).
  { intros a Ha. constructor; [simpl; congruence|apply flush_acts_untouched]. }
  assert (Huarea : forall a, area a -> untouched a t1).
  { intros a Ha. apply Hu1. by intros ->. }
  destruct (IH fuel (S j) (exec t1 m)) as (t2 & Hr & Hoff & Hcur); [lia..|set_solver| | |].
  { rewrite cur_untouched by auto. rewrite Ht. f_equal. lia. }
  { eapply entries_ok_ext; [|exact He2]. intros k a _ Hin. apply cur_untouched, Huarea.
    by eapply entry_words_area. }
  exists (t1 ++ t2). split_and!.
  - rewrite bind_load, Ht. rewrite (proj2 (Z.eqb_neq _ _)) by (apply pos_neq; lia).
    eapply bind_run.
    + rewrite (maddr_pos sbi cpu P G). by apply undo_entry_run.
    + rewrite next_pos by (apply G || apply page_range). exact Hr.
  - apply Forall_app. split; [|exact Hoff]. constructor; [done|].
    apply Forall_forall. intros p Hp.
    pose proof (flush_acts_untouched (af f) 64) as Hfl. unfold untouched in Hfl.
    destruct (stores_to p) as [a|] eqn:E; [|done].
    specialize (Hfl a). rewrite Forall_forall in Hfl. by destruct (Hfl p Hp).
  - intros a. rewrite exec_app, Hcur. rewrite fmap_cons.
    destruct (decide (a ∈ af <$> fs)) as [Hin|Hin].
    { by rewrite decide_True by set_solver. }
    destruct (decide (a = af f)) as [->|Hne].
    + rewrite decide_True by set_solver. unfold t1.
      change (exec (?p :: ?l) m) with (exec l (exec1 p m)).
      rewrite cur_untouched by apply flush_acts_untouched. by rewrite cur_store, decide_True.
    + rewrite decide_False by set_solver. apply cur_untouched. auto.
Qed.

Lemma recover_run fs fuel j old m :
  (length fs <= 127)%nat -> (length fs <= fuel)%nat ->
  (forall f, f ∈ fs -> ~ area (af f) /\ 0 <= f < TWO64) ->
  cur m jp = pos P j -> cur m (jp + 8) = pos P (j + length fs) ->
  entries_ok sbi P (cur m) j fs old ->
  exists t, nova_recover_lite_journal sbi fuel jp m
            = (Some 0, t ++ Store (jp + 8) (pos P j) :: flush_acts jp 64 ++ [Fence])
    /\ off_area sbi P t
    /\ (forall a, cur (exec t m) a = if decide (a ∈ af <$> fs) then old a else cur m a).
Proof.
  intros Hl Hfu Hf Hh Ht He.
  pose proof (pair_area sbi cpu P G cpu (jg_cpu _ _ _ G)) as [Ha1 _].
  destruct (undo_walk_run fs fuel j old m Hl Hfu Hf Ht He) as (t & Hr & Hoff & Hcur).
  exists t. split_and!; [|done..]. unfold nova_recover_lite_journal. rewrite bind_load, Hh.
  eapply bind_run; [exact Hr|]. cbv iota. rewrite bind_load.
  rewrite cur_untouched by (by eapply off_area_untouched). rewrite Hh. apply bind_store.
  rewrite <- (app_nil_r (flush_acts jp 64 ++ [Fence])). eapply bind_run; [apply flush_fence_run|done].
Qed.

(** ** The loop over the CPUs *)

Definition idle_at (m : mem) (i : Z) : Prop :=
  cur m (pair_addr sbi i) = cur m (pair_addr sbi i + 8).

Lemma soft_init_skip fuel n i ret m :
  0 <= i -> i + Z.of_nat n <= cpus sbi ->
  (forall k, i <= k < i + Z.of_nat n -> idle_at m k) ->
  soft_init_loop sbi fuel n i ret m = (Some ret, []).
Proof.
  revert i. induction n as [|n IH]; intros i Hi Hn Hid; [done|].
  cbn [soft_init_loop]. rewrite (journal_pointers sbi cpu P G) by lia.
  rewrite !bind_load, (Hid i) by lia. rewrite Z.eqb_refl. apply IH; [lia..|].
  intros k Hk. apply Hid. lia.
Qed.

Lemma pair_addr_ne i : i <> cpu ->
  pair_addr sbi i <> jp + 8 /\ pair_addr sbi i + 8 <> jp + 8.
Proof. unfold pair_addr. lia. Qed.

(** Memory after recovery: old values at the journaled words, the rest as it
    was, outside the journal's own words. *)
Definition rolled_back (m m' : mem) (fs : list Z) (old : Z -> Z) : Prop :=
  (forall f, f ∈ fs -> cur m' (af f) = old (af f))
  /\ (forall a, ~ area a -> a ∉ af <$> fs -> cur m' a = cur m a).

Lemma soft_init_run fs fuel n i j old m :
  (0 < length fs <= 127)%nat -> (length fs <= fuel)%nat ->
  (forall f, f ∈ fs -> ~ area (af f) /\ 0 <= f < TWO64) ->
  undoable sbi cpu P (cur m) j fs old ->
  0 <= i <= cpu -> cpu < i + Z.of_nat n -> i + Z.of_nat n <= cpus sbi ->
  (forall k, 0 <= k < cpus sbi -> k <> cpu -> idle_at m k) ->
  exists t, soft_init_loop sbi fuel n i 0 m = (Some 0, t) /\ rolled_back m (exec t m) fs old.
Proof.
  intros Hl Hfu Hf [Hh Hcase] Hi Hn1 Hn2 Hoth. revert i Hi Hn1 Hn2.
  induction n as [|n IH]; intros i Hi Hn1 Hn2; [lia|].
  destruct Hcase as [[Ht Hold]|[Ht He]].
  { (* the journal is empty *)
    exists []. split.
    - apply soft_init_skip; [lia..|]. intros k Hk. destruct (decide (k = cpu)) as [->|Hne].
      + unfold idle_at. by rewrite Hh, Ht.
      + apply Hoth; [lia|done].
    - by split. }
  cbn [soft_init_loop]. rewrite (journal_pointers sbi cpu P G) by lia.
  destruct (decide (i = cpu)) as [->|Hne].
  - rewrite !bind_load, Hh, Ht.
    rewrite (proj2 (Z.eqb_neq (pos P j) _)) by (apply pos_neq; lia).
    destruct (recover_run fs fuel j old m) as (t & Hr & Hoff & Hcur); try done; [lia|].
    set (t' := t ++ _) in Hr.
    assert (Hu : forall a, a <> jp + 8 -> untouched a t -> untouched a t').
    { intros a Ha Hu. unfold t'. apply untouched_app. split; [done|].
      constructor; [simpl; congruence|].
      change (untouched a (flush_acts jp 64 ++ [Fence])). apply untouched_app.
      split; [apply flush_acts_untouched|by constructor]. }
    exists t'. split.
    + eapply (bind_run _ _ _ (Some 0) [] _ t').
      { unfold nova_check_journal_entries. rewrite !bind_load, Hh, Ht.
        eapply check_walk_run; [lia|done|exact He]. }
      simpl exec. cbv iota. simpl negb. cbv iota.
      rewrite <- (app_nil_r t'). eapply bind_run; [exact Hr|]. cbv iota.
      apply soft_init_skip; [lia..|]. intros k Hk. unfold idle_at.
      destruct (pair_addr_ne k ltac:(lia)).
      destruct (pair_area sbi cpu P G k ltac:(lia)).
      rewrite !cur_untouched by (apply Hu; [done|]; by eapply off_area_untouched).
      apply Hoth; lia.
    + pose proof (pair_area sbi cpu P G cpu (jg_cpu _ _ _ G)) as [_ Ha2].
      assert (Hend : forall a, a <> jp + 8 -> cur (exec t' m) a = cur (exec t m) a).
      { intros a Ha. unfold t'. rewrite exec_app. apply cur_untouched.
        constructor; [simpl; congruence|].
        change (untouched a (flush_acts jp 64 ++ [Fence])). apply untouched_app.
        split; [apply flush_acts_untouched|by constructor]. }
      split.
      * intros f Hin. rewrite Hend, Hcur.
        { rewrite decide_True; [done|]. apply list_elem_of_fmap. eauto. }
        intros E. destruct (Hf f Hin) as [Hfa _]. apply Hfa. by rewrite E.
      * intros a Ha Hn. rewrite Hend, Hcur by (by intros ->). by rewrite decide_False.
  - rewrite !bind_load, (Hoth i) by lia. rewrite Z.eqb_refl.
    apply IH; lia.
Qed.
End recover.
