(* ===== verification/JournalTheorems.v ===== *)
(** The properties of persistent memory and of the lite journal. *)

From S2P Require Import Prelude.
From S2P Require Import Kernel.
From S2P Require Import Checksum.
From S2P Require Import Layout.
From S2P Require Import Pmem.
From S2P Require Import PmemSpec.
From S2P Require Import Journal.
From S2P Require Import JournalSpec.
From S2P Require Import JournalCrash.
From S2P Require Import JournalRecover.

(** [nova_flush_buffer] followed by its fence makes every word of the
    buffer durable, whatever the alignment of the buffer. *)
Theorem flush_buffer_durable m buf len a :
  mem_ok m -> 0 <= buf -> 0 <= len <= TWO32 - 128 -> buf <= a < buf + len -> a mod 8 = 0 ->
  settled (exec (snd (nova_flush_buffer buf len true m)) m) a.
Proof.
  intros Hok Hb Hlen Ha Hal. rewrite flush_buffer_run. simpl.
  apply (flush_fence_settled buf len a [] []); try done; constructor.
Qed.

(** [next_lite_journal] walks the journal page as a ring of 128 entries:
    from any entry of a page it reaches the next one, stays in the page, and
    comes back after exactly 128 steps. *)
Theorem next_lite_journal_ring P i j :
  P mod 4096 = 0 -> 0 <= P < TWO64 - 4096 ->
  next_lite_journal (pos P j) = pos P (S j)
  /\ P <= next_lite_journal (pos P j) <= P + 4096 - JOURNAL_ENTRY_SIZE
  /\ Nat.iter 128 next_lite_journal (pos P j) = pos P j
  /\ ((0 < i < 128)%nat -> Nat.iter i next_lite_journal (pos P j) <> pos P j).
Proof.
  intros HP Hr.
  assert (Hit : forall n, Nat.iter n next_lite_journal (pos P j) = pos P (n + j)).
  { induction n as [|n IH]; [done|]. simpl. by rewrite IH, next_pos. }
  split_and!; rewrite ?Hit, ?next_pos by done; [done| | | |].
  - apply pos_range.
  - pose proof (pos_range P (S j)). change JOURNAL_ENTRY_SIZE with 32. lia.
  - unfold pos. do 2 f_equal. rewrite Nat2Z.inj_add, <- Zplus_mod_idemp_l. done.
  - intros Hi E. symmetry in E. by apply pos_inj in E; [|lia..].
Qed.

Section theorems.
Context {RB : RbOps} {KM : KmemOps} {CR : CrcOps} {CRL : CrcLaws} {MP : ModParams}.
Context (sbi : nova_sb_info).

(** [tx] journals the words of [fs]. *)
Definition journals (cpu : Z) (tx : PM (option Z)) (fs : list Z) : Prop :=
  forall m, tx m = transaction sbi cpu fs m.

(** ** Which words the transactions journal *)

Definition inode_fields (inode : journal_inode) (new_inode invalidate is_dir : bool) : list Z :=
  let pi := meta_addr sbi (pi_addr inode) in
  if is_dir then [pi + off_log_tail]
  else if new_inode then [pi + off_valid]
  else (pi + off_log_tail) :: if invalidate then [pi + off_valid; pi + off_delete_epoch_id] else [].

Definition dentry_fields (d : Z) : list Z :=
  [d + off_ino; d + off_dentry_csum; d + off_reassigned; d + off_invalid].

Definition opt_fields {A} (o : option A) (f : A -> list Z) : list Z :=
  match o with Some x => f x | None => [] end.

Lemma append_fields_one f temp m :
  append_fields sbi [f] temp m = nova_append_entry_journal sbi temp f m.
Proof.
  cbn [append_fields]. destruct (nova_append_entry_journal sbi temp f m) as [a t] eqn:E.
  rewrite (bind_run _ _ _ a t a [] E) by done. by rewrite app_nil_r.
Qed.

Lemma append_fields_app fs1 fs2 temp m (x : PM Z) (f : Z -> PM Z) :
  x m = append_fields sbi fs1 temp m ->
  (forall temp m, f temp m = append_fields sbi fs2 temp m) ->
  (x ≫= f) m = append_fields sbi (fs1 ++ fs2) temp m.
Proof.
  intros H1 H2. destruct (x m) as [a t] eqn:E1. symmetry in H1.
  destruct (f a (exec t m)) as [b t2] eqn:E2.
  rewrite (bind_run _ _ _ _ _ _ _ E1 E2). rewrite H2 in E2. clear E1 H2 x f.
  revert temp m a t H1 E2. induction fs1 as [|f fs1 IH]; intros temp m a t E1 E2.
  - simpl in E1. injection E1 as <- <-. simpl in E2 |- *. by rewrite E2.
  - cbn [append_fields app] in *.
    destruct (nova_append_entry_journal sbi temp f m) as [c tc] eqn:Ec.
    destruct (append_fields sbi fs1 c (exec tc m)) as [d td] eqn:Ed.
    assert (X : (a, t) = (d, tc ++ td)) by (rewrite <- E1; by eapply bind_run).
    injection X as -> ->.
    rewrite exec_app in E2. symmetry. rewrite <- app_assoc.
    eapply bind_run; [exact Ec|]. symmetry. by eapply IH.
Qed.

Lemma append_two f1 f2 temp m :
  (temp ← nova_append_entry_journal sbi temp f1; nova_append_entry_journal sbi temp f2) m
  = append_fields sbi [f1; f2] temp m.
Proof.
  apply (append_fields_app [f1] [f2]); intros; by rewrite append_fields_one.
Qed.

Section no_csum.
Context (Hcsum : metadata_csum = false).

Lemma append_inode_fields inode new inv dir temp m :
  nova_append_inode_journal sbi temp inode new inv dir m
  = append_fields sbi (inode_fields inode new inv dir) temp m.
Proof.
  unfold nova_append_inode_journal, inode_fields, nova_journal_inode_tail. rewrite Hcsum.
  set (pi := meta_addr sbi (pi_addr inode)).
  assert (Htail : forall temp m,
    (curr_p ← nova_append_entry_journal sbi temp (pi + off_log_tail); mret curr_p) m
    = append_fields sbi [pi + off_log_tail] temp m) by done.
  destruct dir; [done|]. destruct new; [by rewrite append_fields_one|].
  change (?x :: if inv then ?y else []) with ([x] ++ if inv then y else []).
  apply append_fields_app; [done|].
  intros t2 m2. destruct inv; [|done]. apply append_two.
Qed.

Lemma append_dentry_fields temp d m :
  nova_append_dentry_journal sbi temp d m = append_fields sbi (dentry_fields d) temp m.
Proof.
  unfold nova_append_dentry_journal, dentry_fields.
  apply (append_fields_app [_] [_; _; _]); [by rewrite append_fields_one|].
  intros t2 m2. apply (append_fields_app [_] [_; _]); [by rewrite append_fields_one|].
  intros. apply append_two.
Qed.

Lemma append_opt_fields {A} (o : option A) f (g : A -> list Z) temp m :
  (forall temp x m, f temp x m = append_fields sbi (g x) temp m) ->
  append_opt o f temp m = append_fields sbi (opt_fields o g) temp m.
Proof. intros H. destruct o; [apply H|done]. Qed.

Lemma append_words_fields n i entry temp m :
  append_words sbi n i entry temp m
  = append_fields sbi ((fun k : nat => entry + (i + Z.of_nat k) * 8) <$> seq 0 n) temp m.
Proof.
  revert i temp m. induction n as [|n IH]; intros i temp m; [done|].
  cbn [append_words seq]. rewrite fmap_cons, Z.add_0_r. cbn [append_fields].
  destruct (nova_append_entry_journal sbi temp (entry + i * 8) m) as [a t] eqn:E.
  destruct (append_words sbi n (i + 1) entry a (exec t m)) as [b t2] eqn:E2.
  transitivity (b, t ++ t2); [by eapply bind_run|]. symmetry. eapply bind_run; [exact E|].
  rewrite IH in E2. rewrite <- E2. f_equal. rewrite <- (fmap_S_seq 0 n), <- list_fmap_compose.
  apply list_fmap_ext. intros k x _. simpl. lia.
Qed.

Lemma run_transaction_ext cpu e1 e2 m :
  (forall temp m, e1 temp m = e2 temp m) ->
  run_transaction sbi cpu e1 m = run_transaction sbi cpu e2 m.
Proof.
  intros He. unfold run_transaction. destruct (nova_get_journal_pointers sbi cpu); [|done].
  rewrite !bind_load. case_match; [done|].
  destruct (e1 (cur m z) m) as [a t] eqn:E1. pose proof E1 as E2. rewrite He in E2.
  match goal with |- (_ ≫= ?f) m = _ => destruct (f a (exec t m)) as [b t2] eqn:Ef end.
  transitivity (b, t ++ t2); [by eapply bind_run|]. symmetry. by eapply bind_run.
Qed.

(** What the ring holds after the transaction [r] over the words [fs], opened
    at slot [j] of an idle journal in memory [m]: an entry for each of the words,
    in this order, that says where the word is and which value it has in [m],
    with a good checksum; the tail behind the last of them; all durable; and
    nothing outside the journal is stored to. *)
Record journaled (cpu P : Z) (m : mem) (j : nat) (fs : list Z) (r : option Z * list pact) : Prop := {
  jd_result : r.1 = Some (pos P (j + length fs));
  jd_head : cur (exec r.2 m) (pair_addr sbi cpu) = pos P j;
  jd_tail : cur (exec r.2 m) (pair_addr sbi cpu + 8) = pos P (j + length fs);
  jd_entries : forall k f, fs !! k = Some f ->
    let m' := exec r.2 m in
    let e := slot sbi P (j + k) in
    cur m' e = JOURNAL_ENTRY /\ meta_addr sbi (cur m' (e + 8)) = af f
    /\ cur m' (e + 16) = cur m (af f) /\ nova_check_entry_integrity e m' = (0, []);
  jd_durable : settled (exec r.2 m) (pair_addr sbi cpu + 8)
    /\ forall k a, (k < length fs)%nat -> a ∈ entry_words (slot sbi P (j + k)) -> settled (exec r.2 m) a;
  jd_rest : forall a, ~ in_area sbi P a -> untouched a r.2
}.

(** The words are outside the journal. *)
Definition fields_outside (P : Z) (fs : list Z) : Prop :=
  forall f, f ∈ fs -> ~ in_area sbi P (af f) /\ 0 <= f < TWO64.

Lemma transaction_journaled cpu P m j fs :
  jgeom sbi cpu P -> idle sbi cpu P m j -> (length fs <= 127)%nat -> fields_outside P fs ->
  journaled cpu P m j fs (transaction sbi cpu fs m).
Proof.
  intros G Hid Hlen Hf.
  destruct (transaction_run sbi cpu P G fs m j Hid Hlen) as (te & F & -> & Hna & Hup & He & HuF & Hcov).
  { intros f Hin. by apply Hf. }
  pose proof (jg_cpu _ _ _ G) as Hcpu. set (jp := pair_addr sbi cpu) in *. set (x := pos P (j + length fs)).
  pose proof (pair_area sbi cpu P G cpu Hcpu) as [Ha1 Ha2]. fold jp in Ha1, Ha2.
  set (A := te ++ F ++ [Fence]). set (B := Store (jp + 8) x :: flush_acts jp 64 ++ [Fence]).
  assert (HA : forall a, untouched a te -> untouched a A).
  { intros a Ha. unfold A. rewrite !untouched_app. split_and!; [done|apply HuF|by constructor]. }
  assert (HB : forall a, a <> jp + 8 -> untouched a B).
  { intros a Ha. constructor; [simpl; congruence|]. change (untouched a (flush_acts jp 64 ++ [Fence])).
    apply untouched_app. split; [apply flush_acts_untouched|by constructor]. }
  destruct (tail_settled sbi cpu P G x [] (exec A m)) as [Hts Htc];
    [apply mem_ok_exec, Hid|constructor|]. fold jp in Hts, Htc.
  destruct (written_untouched sbi P (exec A m) j fs (cur m) B) as [Hent Hdur].
  { intros k a Ha. apply HB. intros ->. eapply (pair_not_slot sbi cpu P G); [|exact Ha]. auto. }
  { apply (entries_written sbi cpu P G); try done. apply Hid. }
  split; cbn [fst snd]; rewrite ?exec_app.
  - done.
  - rewrite !cur_untouched by (first [apply HB; lia|apply HA; eapply Hup; eauto]). apply Hid.
  - exact Htc.
  - intros k f Hk. cbv zeta. pose proof (Hent k f Hk) as Hok.
    split_and!; [apply Hok| |apply Hok|by eapply entry_check].
    destruct Hok as (_ & -> & _). apply field_addr, Hf. by eapply list_elem_of_lookup_2.
  - split; [exact Hts|exact Hdur].
  - intros a Ha. apply untouched_app. split; [by apply HA, Hna|]. apply HB. by intros ->.
Qed.

(** The three transactions. *)
Lemma create_inode_fields cpu inode dir new inv :
  journals cpu (nova_create_inode_transaction sbi inode dir cpu new inv)
    (inode_fields inode new inv false ++ inode_fields dir new inv true).
Proof.
  intros m. apply run_transaction_ext. intros temp m'. apply append_fields_app; intros; apply append_inode_fields.
Qed.

Definition rename_fields (old_inode old_dir : journal_inode) (new_inode new_dir : option journal_inode)
    (father newd oldd : option Z) (inv : bool) : list Z :=
  inode_fields old_inode false false false ++ inode_fields old_dir false false true
  ++ opt_fields new_inode (fun i => inode_fields i false inv false)
  ++ opt_fields new_dir (fun i => inode_fields i false false true)
  ++ opt_fields father dentry_fields ++ opt_fields newd dentry_fields ++ opt_fields oldd dentry_fields.

Lemma create_rename_fields cpu old_inode old_dir new_inode new_dir father newd oldd inv :
  journals cpu (nova_create_rename_transaction sbi old_inode old_dir new_inode new_dir father newd oldd inv cpu)
    (rename_fields old_inode old_dir new_inode new_dir father newd oldd inv).
Proof.
  intros m. apply run_transaction_ext. intros temp m'.
  repeat (apply append_fields_app; intros;
          first [apply append_inode_fields
                | apply append_opt_fields; intros; apply append_inode_fields
                | apply append_opt_fields; intros; apply append_dentry_fields
                | idtac]).
Qed.

Definition logentry_fields (entry : Z) (type : nova_entry_type) : list Z :=
  (fun k : nat => entry + Z.of_nat k * 8) <$> seq 0 (Z.to_nat (nova_get_log_entry_size type / 8)).

Lemma create_logentry_fields cpu entry type :
  journals cpu (nova_create_logentry_transaction sbi entry type cpu) (logentry_fields entry type).
Proof. intros m. apply run_transaction_ext. intros temp m'. apply append_words_fields. Qed.

Lemma rename_fields_length old_inode old_dir new_inode new_dir father newd oldd inv :
  (length (rename_fields old_inode old_dir new_inode new_dir father newd oldd inv) <= 127)%nat.
Proof.
  unfold rename_fields. rewrite !length_app. destruct new_inode, new_dir, father, newd, oldd, inv; apply Nat.leb_le; done.
Qed.

(** C14. Without metadata replication: a transaction on an idle journal leaves
    in the ring an entry for each of these words, in this order, with the value
    the word has then, checksummed, durable and published by the tail, and
    stores to nothing outside the journal.  For an inode creation the words are
    those of the inode and of the directory; for a rename those of every inode
    and directory entry involved; for an in-place update of a log entry all
    words of the entry. *)
Theorem transactions_journal cpu P m j :
  jgeom sbi cpu P -> idle sbi cpu P m j ->
  (forall inode dir new inv,
     let fs := inode_fields inode new inv false ++ inode_fields dir new inv true in
     fields_outside P fs ->
     journaled cpu P m j fs (nova_create_inode_transaction sbi inode dir cpu new inv m))
  /\ (forall old_inode old_dir new_inode new_dir father newd oldd inv,
     let fs := rename_fields old_inode old_dir new_inode new_dir father newd oldd inv in
     fields_outside P fs ->
     journaled cpu P m j fs
       (nova_create_rename_transaction sbi old_inode old_dir new_inode new_dir father newd oldd inv cpu m))
  /\ (forall entry type,
     fields_outside P (logentry_fields entry type) ->
     journaled cpu P m j (logentry_fields entry type)
       (nova_create_logentry_transaction sbi entry type cpu m)).
Proof.
  intros G Hid. split_and!.
  - intros inode dir new inv fs Hf. rewrite (create_inode_fields cpu inode dir new inv m).
    apply transaction_journaled; try done. unfold fs. rewrite length_app. destruct new, inv; apply Nat.leb_le; done.
  - intros old_inode old_dir new_inode new_dir father newd oldd inv fs Hf.
    rewrite (create_rename_fields cpu old_inode old_dir new_inode new_dir father newd oldd inv m).
    apply transaction_journaled; try done. apply rename_fields_length.
  - intros entry type Hf. rewrite (create_logentry_fields cpu entry type m).
    apply transaction_journaled; try done. by destruct type; apply Nat.leb_le.
Qed.
End no_csum.

(** What the theorems below assume of the state before a transaction: the
    journal geometry, an idle journal, the other CPUs' journals idle, the
    journaled words durable and outside the journal's own words. *)
Record starts (cpu P : Z) (m : mem) (j : nat) (fs : list Z) (fuel : nat) : Prop := {
  st_geom : jgeom sbi cpu P;
  st_idle : idle sbi cpu P m j;
  st_others : forall i, 0 <= i < cpus sbi -> i <> cpu ->
    idle_at sbi m i /\ settled m (pair_addr sbi i) /\ settled m (pair_addr sbi i + 8);
  st_len : (0 < length fs <= 127)%nat;
  st_fuel : (length fs <= fuel)%nat;
  st_fields : forall f, f ∈ fs ->
    ~ in_area sbi P (af f) /\ 0 <= f < TWO64 /\ settled m (af f)
}.

(** The trace of a transaction, as the lemmas on crashes want it. *)
Lemma starts_run cpu P m j fs fuel tx :
  starts cpu P m j fs fuel -> journals cpu tx fs ->
  exists T, tx m = (Some (pos P (j + length fs)), T)
    /\ (forall i a, 0 <= i < cpus sbi -> i <> cpu ->
          a = pair_addr sbi i \/ a = pair_addr sbi i + 8 -> untouched a T)
    /\ (forall u k s, off_area sbi P u -> crashed (exec (take k (T ++ u)) m) s ->
          undoable sbi cpu P s j fs (cur m))
    /\ (forall u, off_area sbi P u -> armed sbi cpu P (exec (T ++ u) m) j fs (cur m)).
Proof.
  intros [G Hid Hoth Hlen Hfu Hf] Htx.
  destruct (transaction_run sbi cpu P G fs m j Hid) as (te & F & Hr & Hna & Hup & He & HuF & Hcov);
    [lia|intros f Hin; by apply Hf|].
  rewrite <- (Htx m) in Hr.
  assert (Hu1 : untouched (pair_addr sbi cpu) te) by (eapply Hup; [apply G|auto]).
  assert (Hu2 : untouched (pair_addr sbi cpu + 8) te) by (eapply Hup; [apply G|auto]).
  eexists. split; [exact Hr|]. split_and!.
  - intros i a Hi Hne Ha. apply untouched_app. split.
    + rewrite !untouched_app. split_and!; [by eapply Hup|done|by constructor].
    + constructor; [simpl; unfold pair_addr in *; intros [= E]; lia|].
      apply untouched_app. split; [apply flush_acts_untouched|by constructor].
  - intros u k s Hu Hc. eapply crash_undoable; eauto; intros f Hin; by apply Hf.
  - intros u Hu. eapply transaction_armed; eauto; intros f Hin; by apply Hf.
Qed.

(** The other CPUs' journals are idle after the crash too. *)
Lemma others_idle cpu P m j fs fuel t s :
  starts cpu P m j fs fuel ->
  (forall i a, 0 <= i < cpus sbi -> i <> cpu ->
     a = pair_addr sbi i \/ a = pair_addr sbi i + 8 -> untouched a t) ->
  crashed (exec t m) s ->
  forall i, 0 <= i < cpus sbi -> i <> cpu -> idle_at sbi (reboot (exec t m) s) i.
Proof.
  intros Hst Hu Hc i Hi Hne. destruct (st_others _ _ _ _ _ _ Hst i Hi Hne) as (He & H1 & H2).
  unfold idle_at in *. rewrite !cur_reboot by done.
  rewrite !(crashed_settled _ _ _ Hc) by (apply settled_untouched; [eapply Hu; eauto|done]).
  rewrite !cur_untouched by (eapply Hu; eauto). done.
Qed.

Lemma recovers cpu P m j fs fuel s m1 :
  starts cpu P m j fs fuel -> crashed m1 s ->
  undoable sbi cpu P s j fs (cur m) ->
  (forall i, 0 <= i < cpus sbi -> i <> cpu -> idle_at sbi (reboot m1 s) i) ->
  exists t, nova_lite_journal_soft_init sbi true fuel (reboot m1 s) = (Some 0, t)
    /\ rolled_back sbi P (reboot m1 s) (exec t (reboot m1 s)) fs (cur m).
Proof.
  intros [G Hid _ Hlen Hfu Hf] Hc Hun Hoth. pose proof (jg_cpu _ _ _ G).
  apply (soft_init_run sbi cpu P G) with j; auto; try lia.
  - intros f Hin. destruct (Hf f Hin) as (? & ? & _). done.
  - destruct Hun as [Hh Hcase]. split; [by rewrite cur_reboot|].
    destruct Hcase as [[Ht Ho]|[Ht He]]; [left|right]; rewrite cur_reboot by done;
      (split; [done|]).
    + intros f Hin. rewrite cur_reboot by done. auto.
    + eapply entries_ok_ext; [|exact He]. intros. by apply cur_reboot.
Qed.

(** C15. Undo: a transaction is opened and then any sequence [u] of stores,
    flushes and fences outside the journal follows.  Whatever the point of the
    crash, inside the transaction or after it, and whatever part of the
    unflushed stores reached the media, mounting again succeeds and every
    journaled word has the value it had before the transaction; other words
    are left as the crash left them. *)
Theorem journal_rollback cpu P m j fs fuel tx u k s :
  starts cpu P m j fs fuel -> journals cpu tx fs -> off_area sbi P u ->
  let m1 := exec (take k (snd (tx m) ++ u)) m in
  crashed m1 s ->
  exists t, nova_lite_journal_soft_init sbi true fuel (reboot m1 s) = (Some 0, t)
    /\ rolled_back sbi P (reboot m1 s) (exec t (reboot m1 s)) fs (cur m).
Proof.
  intros Hst Htx Hu. destruct (starts_run _ _ _ _ _ _ _ Hst Htx) as (T & -> & HuT & Hun & _).
  simpl. intros Hc. eapply recovers; eauto. eapply others_idle; eauto.
  intros i a Hi Hne Ha. apply untouched_take, untouched_app. split; [eauto|].
  eapply off_area_untouched; [exact Hu|].
  destruct (pair_area sbi cpu P (st_geom _ _ _ _ _ _ Hst) i Hi).
  by destruct Ha as [->| ->].
Qed.

(** C16. All or nothing: when the updates [u] are durable, the commit closes
    the transaction; a crash at any point of the commit leaves, after
    recovery, either all journaled words as before the transaction or all of
    them updated, and a completed commit leaves the journal idle again. *)
Theorem journal_commit_atomic cpu P m j fs fuel tx u k s :
  starts cpu P m j fs fuel -> journals cpu tx fs -> off_area sbi P u ->
  let m2 := exec (snd (tx m) ++ u) m in
  (forall f, f ∈ fs -> settled m2 (af f)) ->
  exists C, nova_commit_lite_transaction sbi (pos P (j + length fs)) cpu m2 = (Some (), C)
    /\ idle sbi cpu P (exec C m2) (j + length fs)
    /\ (let m3 := exec (take k C) m2 in crashed m3 s ->
        exists t, nova_lite_journal_soft_init sbi true fuel (reboot m3 s) = (Some 0, t)
          /\ ((forall f, f ∈ fs -> cur (exec t (reboot m3 s)) (af f) = cur m (af f))
              \/ (forall f, f ∈ fs -> cur (exec t (reboot m3 s)) (af f) = cur m2 (af f)))).
Proof.
  intros Hst Htx Hu m2 Hset. pose proof (st_geom _ _ _ _ _ _ Hst) as G.
  destruct (starts_run _ _ _ _ _ _ _ Hst Htx) as (T & E & HuT & _ & Har).
  unfold m2 in *. rewrite E in *. simpl in *. specialize (Har u Hu).
  exists (commit_acts sbi cpu (pos P (j + length fs))). split_and!.
  - by eapply commit_run.
  - by eapply commit_idle.
  - intros Hc.
    assert (Hoth : forall i, 0 <= i < cpus sbi -> i <> cpu -> idle_at sbi (reboot
       (exec (take k (commit_acts sbi cpu (pos P (j + length fs)))) (exec (T ++ u) m)) s) i).
    { rewrite <- exec_app in Hc |- *. eapply others_idle; eauto. intros i a Hi Hne Ha.
      destruct (pair_area sbi cpu P G i Hi). rewrite !untouched_app. split_and!; [eauto| |].
      - eapply off_area_untouched; [exact Hu|]. by destruct Ha as [->| ->].
      - apply untouched_take, commit_untouched. unfold pair_addr in *. lia. }
    destruct (commit_crash sbi cpu P G _ _ _ _ k s Har) as [Hun|[Heq Hnew]]; auto.
    + intros f Hin. by apply (st_fields _ _ _ _ _ _ Hst).
    + destruct (recovers _ _ _ _ _ _ _ _ Hst Hc Hun Hoth) as (t & -> & Hrb & _).
      exists t. auto.
    + exists []. split.
      * pose proof (jg_cpu _ _ _ G).
        apply (soft_init_skip sbi cpu P G); [lia|lia|]. intros i Hi.
        destruct (decide (i = cpu)) as [->|Hne]; [|apply Hoth; lia].
        unfold idle_at. by rewrite !cur_reboot by done.
      * right. intros f Hin. simpl. rewrite cur_reboot by done. auto.
Qed.




End theorems.

(** ** Instances: one CPU, its journal page at offset 0x50000 *)
Module JDemo.
#[export] Existing Instances Concrete.rb_ops Concrete.rb_laws Concrete.kmem_ops
  Concrete.kmem_laws Concrete.crc_ops Concrete.crc_laws Concrete.params.

Definition sbi : nova_sb_info := set_meta_start_virt 0x100000000 (set_cpus 1 zero_sb_info).
Definition page : Z := 0x50000.

(** A memory in which everything is durable. *)
Definition mem_of (l : list (Z * Z)) : mem :=
  list_to_map ((fun av => (av.1, Cell [av.2] None)) <$> l).

Lemma mem_of_settled l a : settled (mem_of l) a.
Proof.
  unfold settled, chist, cur, cell_at.
  destruct (mem_of l !! a) as [c|] eqn:E; [|done]. simpl.
  apply elem_of_list_to_map_2, list_elem_of_fmap in E as ([b v] & [= -> ->] & _). done.
Qed.

Lemma mem_of_ok l : mem_ok (mem_of l).
Proof. intros a. by rewrite mem_of_settled. Qed.

Definition pr : Z := pair_addr sbi 0.
Definition inode : journal_inode := JournalInode 0x60000 0.
Definition dir : journal_inode := JournalInode 0x61000 0.

(** The journal is idle at its first slot; the directory's log tail is 7. *)
Definition m0 : mem := mem_of [(pr, page); (pr + 8, page); (0x100061048, 7)].

Definition fields : list Z := inode_fields sbi inode true false false ++ inode_fields sbi dir true false true.

Lemma geom : jgeom sbi 0 page.
Proof. split; vm_compute; split_and?; done. Qed.

Lemma m0_starts : starts sbi 0 page m0 0 fields 128.
Proof.
  split.
  - apply geom.
  - split; [apply mem_of_ok|done|done|apply mem_of_settled..].
  - intros i Hi Hne. change (cpus sbi) with 1 in Hi. lia.
  - vm_compute. lia.
  - vm_compute. lia.
  - intros f Hf. split_and!; [| | |apply mem_of_settled]; revert f Hf; apply Forall_forall.
    + repeat constructor; vm_compute; intros [[? ?]|[? ?]]; congruence.
    + repeat constructor; vm_compute; congruence.
    + repeat constructor; vm_compute; congruence.
Qed.

Definition tx : PM (option Z) := nova_create_inode_transaction sbi inode dir 0 true false.

(** The update the transaction protects: the directory's tail becomes 9. *)
Definition update : list pact := [Store 0x100061048 9; Clwb 0x100061048; Fence].

Lemma update_off : off_area sbi page update.
Proof.
  repeat constructor. simpl. unfold in_area. vm_compute. intros [[? ?]|[? ?]]; congruence.
Qed.
End JDemo.

Section witnesses.
Import JDemo.

Lemma flush_buffer_durable_witness :
  settled (exec (snd (nova_flush_buffer 100 200 true m0)) m0) 200.
Proof. apply flush_buffer_durable; [apply mem_of_ok|lia..|reflexivity]. Defined.

Lemma next_lite_journal_ring_witness :
  next_lite_journal (pos page 127) = pos page 128.
Proof.
  destruct (next_lite_journal_ring page 0 127) as [H _]; [reflexivity|vm_compute; split; congruence|].
  exact H.
Defined.

(** The first entry of the ring holds the [valid] word of the new inode, the
    second the log tail of the directory, which is 7. *)
Lemma transactions_journal_witness :
  (tx m0).1 = Some (pos page 2)
  /\ cur (exec (tx m0).2 m0) (slot sbi page 1 + 16) = 7
  /\ meta_addr sbi (cur (exec (tx m0).2 m0) (slot sbi page 1 + 8)) = 0x100061048.
Proof.
  destruct (transactions_journal (MP := Concrete.params) sbi eq_refl 0 page m0 0 geom (st_idle _ _ _ _ _ _ _ m0_starts))
    as [H _].
  destruct (H inode dir true false) as [Hr _ _ He _ _].
  { intros f Hf. destruct (st_fields _ _ _ _ _ _ _ m0_starts f Hf) as (? & ? & _). by split. }
  destruct (He 1%nat (0x100061048) eq_refl) as (_ & Ha & Hv & _).
  split; [exact Hr|]. split; [exact Hv|exact Ha].
Defined.

Lemma journals_tx : journals sbi 0 tx fields.
Proof. apply create_inode_fields. reflexivity. Qed.

Lemma crashed_cur m : mem_ok m -> crashed m (cur m).
Proof.
  intros Hok a. specialize (Hok a). unfold cur. unfold chist in Hok.
  destruct (hist (cell_at m a)); [done|]. simpl. set_solver.
Qed.

(** A crash after the update, everything written back: the old value returns. *)
Lemma journal_rollback_witness :
  let m1 := exec (take 100 (snd (tx m0) ++ update)) m0 in
  exists t, nova_lite_journal_soft_init sbi true 128 (reboot m1 (cur m1)) = (Some 0, t)
    /\ rolled_back sbi page (reboot m1 (cur m1)) (exec t (reboot m1 (cur m1))) fields (cur m0).
Proof.
  cbv zeta.
  apply (journal_rollback sbi 0 page m0 0 fields 128 tx update 100
           (cur (exec (take 100 (snd (tx m0) ++ update)) m0))).
  - apply m0_starts.
  - apply journals_tx.
  - apply update_off.
  - apply crashed_cur, mem_ok_exec, mem_of_ok.
Defined.

Lemma journal_commit_atomic_witness :
  exists C, nova_commit_lite_transaction sbi (pos page 2) 0 (exec (snd (tx m0) ++ update) m0)
            = (Some (), C).
Proof.
  destruct (journal_commit_atomic sbi 0 page m0 0 fields 128 tx update 0 (fun _ => 0))
    as (C & E & _).
  - apply m0_starts.
  - apply journals_tx.
  - apply update_off.
  - intros f Hf. revert f Hf. apply Forall_forall.
    repeat constructor; vm_compute; reflexivity.
  - exists C. exact E.
Defined.


End witnesses.

(** ** An ordering the code does not enforce *)
Section observations.
Import JDemo.

(** The state of a mount after a crash inside the update: the journal is
    open and the directory's tail is already 9. *)
Definition m_crashed : mem :=
  let m1 := exec (snd (tx m0) ++ update) m0 in reboot m1 (cur m1).

(** What the media may hold if power fails again right after recovery moved
    the tail (journal.c:187), before its flush: the new tail is there, the
    restored word is not. *)
Definition s_again (a : Z) : Z :=
  if a =? 0x100061048 then 9 else if a =? pr + 8 then page else cur m_crashed a.

Definition recovery_trace : list pact := snd (nova_lite_journal_soft_init sbi true 128 m_crashed).

(** [nova_recover_lite_journal] flushes the restored words without a fence
    before it empties the journal (journal.c:146, 187): a second crash can
    leave an empty journal and a word that was not restored. *)
Definition m_again : mem :=
  exec (take (length recovery_trace - 2) recovery_trace) m_crashed.

Lemma recovery_not_restartable :
  crashed m_again s_again
  /\ s_again pr = s_again (pr + 8) /\ s_again 0x100061048 = 9 /\ cur m0 0x100061048 = 7.
Proof.
  split_and!; try (vm_compute; reflexivity). intros a. unfold cell_at.
  destruct (m_again !! a) as [c|] eqn:E; simpl.
  - assert (H : map_Forall (fun a c => s_again a ∈ hist c) m_again)
      by (apply (bool_decide_unpack _); vm_compute; exact I).
    by apply (H a c).
  - apply list_elem_of_singleton. apply not_elem_of_dom in E.
    assert (Hd : dom m_crashed ⊆ dom m_again) by (apply (bool_decide_unpack _); vm_compute; exact I).
    assert (H1 : 0x100061048 ∈ dom m_again) by (apply (bool_decide_unpack _); vm_compute; exact I).
    assert (H2 : pr + 8 ∈ dom m_again) by (apply (bool_decide_unpack _); vm_compute; exact I).
    assert (Hn : m_crashed !! a = None)
      by (apply not_elem_of_dom; intros Ha; exact (E (Hd a Ha))).
    clear Hd. unfold s_again.
    rewrite (proj2 (Z.eqb_neq a 0x100061048)) by (intros ->; exact (E H1)).
    rewrite (proj2 (Z.eqb_neq a (pr + 8))) by (intros ->; exact (E H2)).
    unfold cur, cell_at. rewrite Hn. reflexivity.
Qed.
End observations.
