(* ===== verification/InodeLog.v ===== *)
(** The inode log (log.c, nova.h): a linked list of 4K pages in the metadata
    region; the last 32 bytes of a page hold its counters, the page of the
    replica log and the next page.

    The operations that also change the allocator's lists or the inode's
    header in DRAM are [LM] computations: a [PM] computation over an
    [lstate].  [None] stands for [BUG()] or a walk that ran out of fuel.
    [memcpy_mcsafe] is [memcpy] and returns 0; the write-protection window of
    [nova_memunlock_*] does not change the contents of memory. *)

From S2P Require Import Prelude.
From S2P Require Import Kernel.
From S2P Require Import Checksum.
From S2P Require Import Layout.
From S2P Require Import FreeList.
From S2P Require Import Balloc.
From S2P Require Import Pmem.
From S2P Require Import Journal.

Definition MAIN_LOG : Z := 0.
Definition ALTER_LOG : Z := 1.
Definition PAGE_OFFSET_MASK : Z := 4095.
Definition BLOCK_OFF (p : Z) : Z := Z.land p (Z.lnot PAGE_OFFSET_MASK).
Definition ENTRY_LOC (p : Z) : Z := Z.land p PAGE_OFFSET_MASK.
Definition LOG_BLOCK_TAIL : Z := 4064.
Definition EXTEND_THRESHOLD : Z := 256 * 1024.

(** [struct nova_inode_page_tail]: [invalid_entries] and [num_entries] share
    the first word (low and high half), then [epoch_id], [alter_page],
    [next_page]. *)
Definition off_entries : Z := LOG_BLOCK_TAIL.
Definition off_alter_page : Z := LOG_BLOCK_TAIL + 16.
Definition off_next_page : Z := LOG_BLOCK_TAIL + 24.
Definition PAGE_TAIL_SIZE : Z := 32.

(** [struct nova_inode]. *)
Definition off_log_head : Z := 64.
Definition off_alter_log_head : Z := 80.
Definition SIZEOF_NOVA_INODE : Z := 120.

(** The fields of [struct nova_inode_info_header] the log operations use. *)
Record nova_inode_info_header := Sih {
  i_blk_type : Z;
  sih_alter_pi_addr : Z;
  log_pages : Z;
  log_head : Z;
  log_tail : Z;
  alter_log_head : Z;
  alter_log_tail : Z
}.

Definition set_log (new_block : Z) (s : nova_inode_info_header) : nova_inode_info_header :=
  Sih (i_blk_type s) (sih_alter_pi_addr s) 1 new_block new_block
    (alter_log_head s) (alter_log_tail s).
Definition set_alter_log (new_block : Z) (s : nova_inode_info_header)
    : nova_inode_info_header :=
  Sih (i_blk_type s) (sih_alter_pi_addr s) (u64 (log_pages s + 1)) (log_head s) (log_tail s)
    new_block new_block.

(** What the operations change besides persistent memory. *)
Record lstate := LState { fls : list free_list; sih : nova_inode_info_header }.

Definition LM (A : Type) : Type := lstate -> PM (option (A * lstate)).

#[export] Instance lm_ret : MRet LM := fun A x st => mret (Some (x, st)).
#[export] Instance lm_bind : MBind LM := fun A B f x st =>
  r ← x st;
  match r with
  | None => mret None
  | Some (a, st') => f a st'
  end.
Definition pm {A} (x : PM A) : LM A := fun st => a ← x; mret (Some (a, st)).
Definition stuck {A} : LM A := fun _ => mret None.
Definition get_sih : LM nova_inode_info_header := fun st => mret (Some (sih st, st)).
Definition edit_sih (f : nova_inode_info_header -> nova_inode_info_header) : LM () :=
  fun st => mret (Some ((), LState (fls st) (f (sih st)))).

(** A one-byte store. *)
Definition store8 (p v : Z) : PM () :=
  let a := Z.land p (Z.lnot 7) in
  let sh := 8 * (p mod 8) in
  w ← load a;
  store64 a (Z.lor (Z.ldiff w (Z.shiftl 255 sh)) (Z.shiftl (u8 v) sh)).
Definition load8 (p : Z) : PM Z :=
  w ← load (Z.land p (Z.lnot 7)); mret (u8 (Z.shiftr w (8 * (p mod 8)))).

(** [enum nova_entry_type] starts at 1. *)
Definition entry_type_code (type : nova_entry_type) : Z :=
  match type with
  | FILE_WRITE => 1 | DIR_LOG => 2 | SET_ATTR => 3 | LINK_CHANGE => 4 | MMAP_WRITE => 5
  | SNAPSHOT_INFO => 6 | NEXT_PAGE => 7
  end.

Definition nova_get_entry_type (p : Z) : PM Z := load8 p.
Definition nova_set_entry_type (p : Z) (type : nova_entry_type) : PM () :=
  store8 p (entry_type_code type).

Definition is_last_entry (curr_p size : Z) : bool :=
  LOG_BLOCK_TAIL <? u32 (ENTRY_LOC curr_p + size).

Section inode_log.
Context {RB : RbOps} {KM : KmemOps} {CR : CrcOps} {MP : ModParams}.
Context (sbi : nova_sb_info).

(** The page that holds offset [curr]. *)
Definition log_page (curr : Z) : Z := meta_addr sbi (BLOCK_OFF curr).

Definition next_log_page (curr : Z) : PM Z := load (log_page curr + off_next_page).

Definition alter_log_page (curr : Z) : PM Z :=
  if negb metadata_csum then mret 0 else load (log_page curr + off_alter_page).

Definition alter_log_entry (curr_p : Z) : PM Z :=
  let page := BLOCK_OFF (meta_addr sbi curr_p) in
  if negb metadata_csum then mret 0
  else alter_page ← load (page + off_alter_page); mret (u64 (alter_page + ENTRY_LOC curr_p)).

Definition nova_set_next_page_flag (curr_off : Z) : PM () :=
  if LOG_BLOCK_TAIL <=? ENTRY_LOC curr_off then mret ()
  else
    let p := meta_addr sbi curr_off in
    nova_set_entry_type p NEXT_PAGE;;
    nova_flush_buffer p CACHELINE_SIZE false.

Definition flush_page_tail (page : Z) (fence : bool) : PM () :=
  nova_flush_buffer (page + LOG_BLOCK_TAIL) PAGE_TAIL_SIZE fence.

Definition nova_set_next_page_address (curr_page next_page : Z) (fence : bool) : PM () :=
  store64 (curr_page + off_next_page) next_page;; flush_page_tail curr_page fence.

Definition nova_set_page_num_entries (curr_page num : Z) (flush : bool) : PM () :=
  store32_hi (curr_page + off_entries) num;;
  if flush then flush_page_tail curr_page false else mret ().

Definition nova_set_page_invalid_entries (curr_page num : Z) (flush : bool) : PM () :=
  store32_lo (curr_page + off_entries) num;;
  if flush then flush_page_tail curr_page false else mret ().

Definition nova_inc_page_num_entries (curr : Z) : PM () :=
  let curr_page := log_page curr in
  w ← load (curr_page + off_entries);
  store32_hi (curr_page + off_entries) (Z.shiftr w 32 + 1);;
  flush_page_tail curr_page false.

Definition nova_inc_page_invalid_entries (curr : Z) : PM () :=
  let curr_page := log_page curr in
  w ← load (curr_page + off_entries);
  store32_lo (curr_page + off_entries) (u32 w + 1);;
  flush_page_tail curr_page false.

Definition nova_set_alter_page_address (curr_off alter_curr_off : Z) : PM () :=
  if negb metadata_csum then mret ()
  else
    let curr_page := log_page curr_off in
    let alter_page := log_page alter_curr_off in
    store64 (curr_page + off_alter_page) alter_curr_off;;
    flush_page_tail curr_page false;;
    store64 (alter_page + off_alter_page) curr_off;;
    flush_page_tail alter_page false.

(** Each kind of entry takes at least 32 bytes. *)
Definition goto_next_page (curr_off : Z) : PM bool :=
  if LOG_BLOCK_TAIL <? ENTRY_LOC curr_off + 32 then mret true
  else
    type ← load8 (meta_addr sbi curr_off);
    mret (type =? entry_type_code NEXT_PAGE).

(** ** The inode's checksum (inode.h) *)

(** [csum] is the high half of the last word of the inode. *)
Definition nova_update_inode_checksum (pi : Z) (faf : bool) : PM () :=
  (if negb metadata_csum then mret ()
   else
     ws ← load_words pi NOVA_INODE_WORDS;
     let bytes := take 116 (ws ≫= le_bytes 8) in
     store32_hi (pi + 112) (nova_crc32c (TWO32 - 1) bytes));;
  if faf then nova_flush_buffer pi SIZEOF_NOVA_INODE true else mret ().

(** ** Linking pages *)

(** The [while] loop of [nova_update_alter_pages]. *)
Fixpoint alter_loop (fuel : nat) (curr alter_curr : Z) : PM (option (Z * Z)) :=
  if (curr =? 0) || (alter_curr =? 0) then mret (Some (curr, alter_curr))
  else
    match fuel with
    | O => mret None
    | S fuel' =>
        nova_set_alter_page_address curr alter_curr;;
        curr ← next_log_page curr;
        alter_curr ← next_log_page alter_curr;
        alter_loop fuel' curr alter_curr
    end.

Definition nova_update_alter_pages (fuel : nat) (curr alter_curr : Z) : PM (option Z) :=
  if (curr =? 0) || (alter_curr =? 0) || negb metadata_csum then mret (Some 0)
  else
    r ← alter_loop fuel curr alter_curr;
    match r with
    | Some (0, 0) => mret (Some 0)
    | _ => mret None
    end.

Definition page_of (blocknr btype : Z) : Z :=
  meta_addr sbi (nova_get_block_off sbi blocknr btype true).

Definition init_log_page (page next_page : Z) (fence : bool) : PM () :=
  nova_set_page_num_entries page 0 false;;
  nova_set_page_invalid_entries page 0 false;;
  nova_set_next_page_address page next_page fence.

(** The loop that links the new pages. *)
Fixpoint link_loop (n : nat) (first_blocknr i btype : Z) : PM () :=
  match n with
  | O => mret ()
  | S n' =>
      init_log_page (page_of (u64 (first_blocknr + i)) btype)
        (nova_get_block_off sbi (u64 (first_blocknr + i + 1)) btype true) false;;
      link_loop n' first_blocknr (i + 1) btype
  end.

Definition nova_coalesce_log_pages (prev_blocknr first_blocknr btype num_pages : Z) : PM () :=
  (if prev_blocknr =? 0 then mret ()
   else nova_set_next_page_address (page_of prev_blocknr btype)
          (nova_get_block_off sbi first_blocknr btype true) false);;
  link_loop (Z.to_nat (u64 (num_pages - 1))) first_blocknr 0 btype;;
  init_log_page (page_of (u64 (first_blocknr + num_pages - 1)) btype) 0 true.

(** ** Allocation of log pages *)

(** [this_cpu] is [smp_processor_id()]; [fuel] bounds the walks over free
    lists and logs. *)
Context (fuel : nat) (this_cpu : Z).

Definition new_log_blocks (num cpuid : Z) (from_tail : nova_alloc_direction) : LM (Z * Z) :=
  fun st =>
    match nova_new_log_blocks fuel sbi false (fun _ => 0) this_cpu (fls st) 0
            (i_blk_type (sih st)) num ALLOC_NO_INIT cpuid from_tail with
    | None => mret None
    | Some (allocated, blocknr, ls, _) => mret (Some ((allocated, blocknr), LState ls (sih st)))
    end.

(** The [while (num_pages)] loop. *)
Fixpoint remaining_loop (rounds : nat) (num_pages prev_blocknr ret_pages cpuid : Z)
    (from_tail : nova_alloc_direction) : LM Z :=
  if num_pages =? 0 then mret ret_pages
  else
    match rounds with
    | O => stuck
    | S rounds' =>
        '(allocated, new_blocknr) ← new_log_blocks num_pages cpuid from_tail;
        if allocated <=? 0 then mret ret_pages
        else
          h ← get_sih;
          pm (nova_coalesce_log_pages prev_blocknr new_blocknr (i_blk_type h) allocated);;
          remaining_loop rounds' (u64 (num_pages - allocated))
            (u64 (new_blocknr + allocated - 1)) (s32 (ret_pages + allocated)) cpuid from_tail
    end.

(** The number of pages, or an error, and [*new_block], which an error leaves
    unset. *)
Definition nova_allocate_inode_log_pages (num_pages cpuid : Z)
    (from_tail : nova_alloc_direction) : LM (Z * option Z) :=
  '(allocated, first_blocknr) ← new_log_blocks num_pages cpuid from_tail;
  if allocated <=? 0 then mret (allocated, None)
  else
    h ← get_sih;
    pm (nova_coalesce_log_pages 0 first_blocknr (i_blk_type h) allocated);;
    ret_pages ← remaining_loop fuel (u64 (num_pages - allocated))
                  (u64 (first_blocknr + allocated - 1)) allocated cpuid from_tail;
    mret (ret_pages, Some (nova_get_block_off sbi first_blocknr (i_blk_type h) true)).

(** ** Initialising and extending a log *)

(** [pic] is the copy of the inode in DRAM: no flush. *)
Definition nova_init_pic_log (pic log_id new_block : Z) : LM () :=
  (if log_id =? MAIN_LOG then
     pm (store64 (pic + off_log_tail) new_block;; store64 (pic + off_log_head) new_block);;
     edit_sih (set_log new_block)
   else
     pm (store64 (pic + off_alter_log_tail) new_block;;
         store64 (pic + off_alter_log_head) new_block);;
     edit_sih (set_alter_log new_block));;
  pm (nova_update_inode_checksum pic false).

Definition nova_init_pi_log (pi log_id new_block : Z) : LM () :=
  (if log_id =? MAIN_LOG then
     pm (store64 (pi + off_log_tail) new_block;; store64 (pi + off_log_head) new_block;;
         nova_flush_buffer (pi + off_log_tail) CACHELINE_SIZE false;;
         nova_flush_buffer (pi + off_log_head) CACHELINE_SIZE true);;
     edit_sih (set_log new_block)
   else
     pm (store64 (pi + off_alter_log_tail) new_block;;
         store64 (pi + off_alter_log_head) new_block;;
         nova_flush_buffer (pi + off_alter_log_tail) CACHELINE_SIZE false;;
         nova_flush_buffer (pi + off_alter_log_head) CACHELINE_SIZE true);;
     edit_sih (set_alter_log new_block));;
  pm (nova_update_inode_checksum pi true).

Definition nova_initialize_inode_log (pi : Z) (pic : option Z) (log_id : Z) : LM Z :=
  '(allocated, new_block) ← nova_allocate_inode_log_pages 1 ANY_CPU
     (if log_id =? MAIN_LOG then ALLOC_FROM_HEAD else ALLOC_FROM_TAIL);
  match new_block with
  | Some new_block =>
      if negb (allocated =? 1) then mret (- ENOSPC)
      else
        match pic with
        | Some pic => nova_init_pic_log pic log_id new_block
        | None => nova_init_pi_log pi log_id new_block
        end;;
        mret 0
  | None => mret (- ENOSPC)
  end.

(** [while (next_log_page(alter_curr) > 0)]. *)
Fixpoint last_page_loop (rounds : nat) (curr : Z) : PM (option Z) :=
  next ← next_log_page curr;
  if negb (0 <? next) then mret (Some curr)
  else
    match rounds with
    | O => mret None
    | S rounds' => last_page_loop rounds' next
    end.

Definition pm_opt {A} (x : PM (option A)) : LM A :=
  r ← pm x; match r with Some a => mret a | None => stuck end.

Definition nova_extend_inode_log (pi : Z) (pic : option Z) (curr_p : Z) : LM Z :=
  if curr_p =? 0 then
    ret ← nova_initialize_inode_log pi pic MAIN_LOG;
    if negb (ret =? 0) then mret 0
    else if metadata_csum then
      ret ← nova_initialize_inode_log pi pic ALTER_LOG;
      if negb (ret =? 0) then mret 0
      else
        h ← get_sih;
        pm_opt (nova_update_alter_pages fuel (log_head h) (alter_log_head h));;
        mret (log_head h)
    else h ← get_sih; mret (log_head h)
  else
    h ← get_sih;
    let num_pages :=
      if EXTEND_THRESHOLD <=? log_pages h then EXTEND_THRESHOLD else log_pages h in
    '(_, new_block) ← nova_allocate_inode_log_pages num_pages ANY_CPU ALLOC_FROM_HEAD;
    match new_block with
    | None => mret 0
    | Some new_block =>
        pm (nova_set_next_page_address (log_page curr_p) new_block false);;
        if metadata_csum then
          '(_, alter_new_block) ← nova_allocate_inode_log_pages num_pages ANY_CPU ALLOC_FROM_TAIL;
          match alter_new_block with
          | None => mret 0
          | Some alter_new_block =>
              alter_curr ← pm_opt (last_page_loop fuel (BLOCK_OFF (alter_log_tail h)));
              pm (nova_set_next_page_address (meta_addr sbi alter_curr) alter_new_block false);;
              pm_opt (nova_update_alter_pages fuel new_block alter_new_block);;
              mret new_block
          end
        else mret new_block
    end.

(** For thorough GC: one more page. *)
Definition nova_append_one_log_page (curr_p : Z) : LM Z :=
  '(allocated, new_block) ← nova_allocate_inode_log_pages 1 ANY_CPU ALLOC_FROM_HEAD;
  match new_block with
  | Some new_block =>
      if negb (allocated =? 1) then mret 0
      else if curr_p =? 0 then mret new_block
      else pm (nova_set_next_page_address (log_page curr_p) new_block true);; mret curr_p
  | None => mret 0
  end.

(** The position, and whether [*extended] was set to 1. *)
Definition nova_get_append_head (pi : Z) (pic : option Z) (tail size log_id : Z)
    (thorough_gc : bool) : LM (Z * bool) :=
  h ← get_sih;
  let curr_p :=
    if negb (tail =? 0) then tail
    else if log_id =? MAIN_LOG then log_tail h else alter_log_tail h in
  next ← (if (curr_p =? 0) || negb (is_last_entry curr_p size) then mret 0
          else pm (next_log_page curr_p));
  '(curr_p, extended) ←
    (if (curr_p =? 0) || (is_last_entry curr_p size && (next =? 0)) then
       (if is_last_entry curr_p size then pm (nova_set_next_page_flag curr_p) else mret ());;
       if negb (log_id =? MAIN_LOG) then mret (0, false)
       else if negb thorough_gc then
         curr_p ← nova_extend_inode_log pi pic curr_p; mret (curr_p, false)
       else
         curr_p ← nova_append_one_log_page curr_p; mret (curr_p, true)
     else mret (curr_p, false));
  if curr_p =? 0 then mret (0, extended)
  else if is_last_entry curr_p size then
    pm (nova_set_next_page_flag curr_p);;
    next ← pm (next_log_page curr_p);
    mret (next, extended)
  else mret (curr_p, extended).

(** ** Freeing a log *)

Definition free_log_blocks (blocknr num : Z) : LM Z :=
  fun st =>
    match nova_free_log_blocks sbi (fls st) (i_blk_type (sih st)) blocknr num with
    | None => mret None
    | Some (ret, ls) => mret (Some (ret, LState ls (sih st)))
    end.

(** The loop over the pages: [start_blocknr], [num_free] and [freed] as in the
    source. *)
Fixpoint free_chain_loop (rounds : nat) (curr_block start_blocknr num_free freed : Z)
    : LM (Z * Z * Z) :=
  if negb (0 <? curr_block) || negb (ENTRY_LOC curr_block =? 0)
  then mret (start_blocknr, num_free, freed)
  else
    match rounds with
    | O => stuck
    | S rounds' =>
        let blocknr := nova_get_blocknr curr_block in
        curr_block ← pm (next_log_page curr_block);
        if start_blocknr =? 0 then free_chain_loop rounds' curr_block blocknr 1 freed
        else if blocknr =? u64 (start_blocknr + num_free) then
          free_chain_loop rounds' curr_block start_blocknr (s32 (num_free + 1)) freed
        else
          free_log_blocks start_blocknr num_free;;
          free_chain_loop rounds' curr_block blocknr 1 (s32 (freed + num_free))
    end.

Definition nova_free_contiguous_log_blocks (head : Z) : LM Z :=
  '(start_blocknr, num_free, freed) ← free_chain_loop fuel head 0 0 0;
  if negb (start_blocknr =? 0) then
    free_log_blocks start_blocknr num_free;;
    mret (s32 (freed + num_free))
  else mret freed.

(** [pi] is NULL for an inode that has no persistent image. *)
Definition nova_free_inode_log (pi : option Z) : LM Z :=
  h ← get_sih;
  if (log_head h =? 0) || (log_tail h =? 0) then mret 0
  else
    match pi with
    | None => mret ()
    | Some pi =>
        pm (store64 (pi + off_log_tail) 0;; store64 (pi + off_log_head) 0;;
            store64 (pi + off_alter_log_tail) 0;; store64 (pi + off_alter_log_head) 0;;
            nova_update_inode_checksum pi false;;
            if metadata_csum then
              let alter_pi := meta_addr sbi (sih_alter_pi_addr h) in
              if alter_pi =? 0 then mret ()
              else memcpy_to_pmem_nocache alter_pi pi NOVA_INODE_WORDS
            else mret ())
    end;;
    nova_free_contiguous_log_blocks (log_head h);;
    (if metadata_csum then
       nova_free_contiguous_log_blocks (alter_log_head h);; mret ()
     else mret ());;
    mret 0.
End inode_log.
