(* ===== verification/InodeLogSpec.v ===== *)
(** The pages of an inode log: what linking them writes, in which order the
    links become durable, and which blocks the allocation takes. *)

From S2P Require Import Prelude.
From S2P Require Import Kernel.
From S2P Require Import Layout.
From S2P Require Import FreeList.
From S2P Require Import FreeListSpec.
From S2P Require Import Balloc.
From S2P Require Import RangeTree.
From S2P Require Import BallocSpec.
From S2P Require Import CsumArea.
From S2P Require Import Pmem.
From S2P Require Import PmemSpec.
From S2P Require Import Journal.
From S2P Require Import JournalSpec.
From S2P Require Import InodeLog.

(** ** Running [LM] computations *)

Lemma lbind_run {A B} (x : LM A) (f : A -> LM B) st m a st1 t1 r t2 :
  x st m = (Some (a, st1), t1) -> f a st1 (exec t1 m) = (r, t2) ->
  (x ≫= f) st m = (r, t1 ++ t2).
Proof. intros Hx Hf. unfold mbind, lm_bind. by eapply bind_run; [exact Hx|]. Qed.

Lemma pm_run {A} (x : PM A) st m a t : x m = (a, t) -> pm x st m = (Some (a, st), t).
Proof.
  intros Hx. unfold pm. rewrite <- (app_nil_r t). by eapply bind_run; [exact Hx|].
Qed.

Lemma lbind_sih {B} (f : nova_inode_info_header -> LM B) st m :
  (get_sih ≫= f) st m = f (sih st) st m.
Proof. exact (bind_mret (Some (sih st, st)) _ m). Qed.

Lemma lbind_mret {A B} (x : A) (f : A -> LM B) st m : (mret x ≫= f) st m = f x st m.
Proof. exact (bind_mret (Some (x, st)) _ m). Qed.

(** ** Cells on their way to the media *)

Lemma flushed_cur x m a : flushed x (cell_at m a) -> cur m a = x.
Proof. intros [Hh _]. unfold cur. by rewrite Hh. Qed.

Lemma flushed_exec x m a t :
  untouched a t -> flushed x (cell_at m a) -> flushed x (cell_at (exec t m) a).
Proof. intros. rewrite cell_at_exec. by apply flushed_fold. Qed.

Lemma flushed_fence x m a :
  flushed x (cell_at m a) -> settled (exec1 Fence m) a /\ cur (exec1 Fence m) a = x.
Proof.
  intros [Hh Hf]. unfold settled, chist, cur. rewrite cell_at_exec1. simpl. unfold fence_cell.
  destruct Hf as [->|Hl].
  - cbn [hist]. destruct (hist (cell_at m a)) as [|y l]; simplify_eq/=. done.
  - destruct (mark (cell_at m a)) as [k|]; cbn [hist]; rewrite Hl; [|done].
    cbn [take]. by rewrite take_nil.
Qed.

Lemma settled_flushed m a : settled m a -> flushed (cur m a) (cell_at m a).
Proof. unfold settled, chist. intros H. unfold flushed. rewrite H. auto. Qed.

(** A line written back right after the store. *)
Lemma clwb_flushed m a b v :
  mem_ok m -> cur m a = v -> a mod 8 = 0 -> line a = line b ->
  flushed v (cell_at (exec1 (Clwb b) m) a).
Proof.
  intros Hok Hc Ha Hl. rewrite cell_at_exec1. simpl.
  rewrite decide_True by (by apply elem_line_words). split; [|by left]. simpl.
  specialize (Hok a). unfold chist in Hok. unfold cur in Hc.
  destruct (hist (cell_at m a)); [done|]. simpl in *. by subst.
Qed.

(** ** Addresses *)

Lemma block_off b x : 0 <= x < 4096 -> BLOCK_OFF (b * 4096 + x) = b * 4096.
Proof.
  intros Hx. unfold BLOCK_OFF. change PAGE_OFFSET_MASK with (PAGE_SIZE - 1).
  rewrite land_not_4095, Z.add_comm, Z_mod_plus_full, Z.mod_small by lia. lia.
Qed.

Lemma entry_loc b x : 0 <= x < 4096 -> ENTRY_LOC (b * 4096 + x) = x.
Proof.
  intros Hx. unfold ENTRY_LOC. change PAGE_OFFSET_MASK with (PAGE_SIZE - 1).
  rewrite land_4095, Z.add_comm, Z_mod_plus_full, Z.mod_small by lia. lia.
Qed.

Lemma block_off_page b : BLOCK_OFF (b * 4096) = b * 4096.
Proof. rewrite <- (Z.add_0_r (b * 4096)). rewrite block_off; lia. Qed.

Lemma entry_loc_page b : ENTRY_LOC (b * 4096) = 0.
Proof. rewrite <- (Z.add_0_r (b * 4096)). rewrite entry_loc; lia. Qed.

Lemma blocknr_page b : nova_get_blocknr (b * 4096) = b.
Proof.
  unfold nova_get_blocknr. rewrite Z.shiftr_div_pow2 by done. change (2 ^ PAGE_SHIFT) with 4096.
  by rewrite Z.div_mul.
Qed.

(** The metadata device and where it is mapped. *)
Record log_geometry (sbi : nova_sb_info) : Prop := {
  lg_device : one_meta_device sbi;
  lg_aligned : meta_start_virt sbi mod 4096 = 0;
  lg_range : 0 < meta_start_virt sbi <= TWO64 - 0x100000000000
}.

(** A block number a log page may have. *)
Definition log_block (b : Z) : Prop := 0 < b < TWO31 - 1.

(** Some lemmas of the sections below are about lists only; they drop the
    hypotheses that [set_solver] would otherwise pull in. *)
Ltac lists_only :=
  repeat match goal with
  | H : log_geometry _ |- _ => clear H
  | H : forall T, is_Some (nova_alloc_range_node T) |- _ => clear H
  | H : 0 <= ?x |- _ => clear H
  | H : RbLaws |- _ => clear H
  | H : KmemLaws |- _ => clear H
  | H : metadata_csum = _ |- _ => clear H
  end.

Section pages.
Context {RB : RbOps} {KM : KmemOps} {CR : CrcOps} {MP : ModParams}.
Context (sbi : nova_sb_info) (G : log_geometry sbi).

Definition base (b : Z) : Z := meta_start_virt sbi + b * 4096.
(** The words of the page tail: counters, next page. *)
Definition cn (b : Z) : Z := base b + LOG_BLOCK_TAIL.
Definition nx (b : Z) : Z := base b + off_next_page.

Lemma base_addr b : log_block b -> meta_addr sbi (b * 4096) = base b.
Proof.
  intros Hb. unfold log_block in Hb. unfold meta_addr, nova_get_virt_addr_from_offset, base.
  pose proof (lg_range _ G). apply u64_small. lia.
Qed.

Lemma off_val b : log_block b -> nova_get_block_off sbi b 0 true = b * 4096.
Proof.
  intros Hb. unfold log_block in Hb. change 0 with NOVA_BLOCK_TYPE_4K.
  apply meta_block_off; [apply G|lia].
Qed.

Lemma page_of_val b : log_block b -> page_of sbi b 0 = base b.
Proof. intros Hb. unfold page_of. rewrite off_val by done. by apply base_addr. Qed.

Lemma log_page_val b x : log_block b -> 0 <= x < 4096 -> log_page sbi (b * 4096 + x) = base b.
Proof. intros Hb Hx. unfold log_page. rewrite block_off by done. by apply base_addr. Qed.

Lemma log_page_start b : log_block b -> log_page sbi (b * 4096) = base b.
Proof. intros Hb. unfold log_page. rewrite block_off_page. by apply base_addr. Qed.

Lemma base_aligned b : base b mod 4096 = 0.
Proof. unfold base. rewrite Z_mod_plus_full. apply G. Qed.

Lemma tail_line b a :
  base b + LOG_BLOCK_TAIL <= a < base b + 4096 -> line a = line (base b + LOG_BLOCK_TAIL).
Proof.
  intros Ha. pose proof (base_aligned b) as Hb. unfold LOG_BLOCK_TAIL in *. unfold line, CACHELINE_SIZE.
  pose proof (Z.div_mod (base b) 4096 ltac:(lia)) as Hd. rewrite Hb, Z.add_0_r in Hd.
  set (q := base b / 4096) in *.
  assert (forall r, 0 <= r < 64 -> (4096 * q + 4032 + r) / 64 = 64 * q + 63) as Hq.
  { intros r Hr. symmetry. apply Z.div_unique with r; lia. }
  replace a with (4096 * q + 4032 + (a - base b - 4032)) by lia. rewrite Hq by lia.
  replace (base b + 4064) with (4096 * q + 4032 + 32) by lia. by rewrite Hq by lia.
Qed.

Lemma word_aligned b k : (base b + 8 * k) mod 8 = 0.
Proof.
  pose proof (base_aligned b) as Hb. pose proof (Z.div_mod (base b) 4096 ltac:(lia)) as Hd.
  rewrite Hb, Z.add_0_r in Hd. rewrite Hd.
  replace (4096 * (base b / 4096) + 8 * k) with ((512 * (base b / 4096) + k) * 8) by lia.
  by rewrite Z.mod_mul.
Qed.

Lemma cn_aligned b : cn b mod 8 = 0.
Proof. apply (word_aligned b 508). Qed.
Lemma nx_aligned b : nx b mod 8 = 0.
Proof. apply (word_aligned b 511). Qed.
Lemma nx_line b : line (nx b) = line (cn b).
Proof. apply tail_line. unfold nx, off_next_page, LOG_BLOCK_TAIL. lia. Qed.

(** Tail words of different pages differ. *)
Definition tail_words (b : Z) : list Z := [cn b; nx b].

Lemma tails_disjoint b b' a : a ∈ tail_words b -> a ∈ tail_words b' -> b = b'.
Proof.
  unfold tail_words, cn, nx, base, off_next_page, LOG_BLOCK_TAIL.
  rewrite !elem_of_cons, !elem_of_nil. intuition lia.
Qed.

Lemma cn_nx b b' : cn b <> nx b'.
Proof. unfold cn, nx, base, off_next_page, LOG_BLOCK_TAIL. lia. Qed.

(** ** Initialising one page *)

Lemma flush_tail_acts b : flush_acts (cn b) PAGE_TAIL_SIZE = [Clwb (cn b)].
Proof.
  unfold flush_acts. assert (E : Z.land (cn b) (CACHELINE_SIZE - 1) = 32).
  { change (CACHELINE_SIZE - 1) with (Z.ones 6). rewrite Z.land_ones by lia. change (2 ^ 6) with 64.
    unfold cn, LOG_BLOCK_TAIL. pose proof (base_aligned b) as Hb.
    pose proof (Z.div_mod (base b) 4096 ltac:(lia)) as Hd. rewrite Hb, Z.add_0_r in Hd. rewrite Hd.
    replace (4096 * (base b / 4096) + 4064) with (32 + (64 * (base b / 4096) + 63) * 64) by lia.
    by rewrite Z_mod_plus_full. }
  rewrite E. change (u32 (PAGE_TAIL_SIZE + 32)) with 64. simpl.
  by rewrite Z.add_0_r.
Qed.

Definition fence_acts (fence : bool) : list pact := if fence then [Fence] else [].

Definition link_acts (b next : Z) (fence : bool) : list pact :=
  Store (nx b) next :: Clwb (cn b) :: fence_acts fence.

Lemma set_next_run b next fence m :
  nova_set_next_page_address (base b) next fence m = ((), link_acts b next fence).
Proof.
  unfold nova_set_next_page_address. apply bind_store. unfold flush_page_tail.
  fold (cn b). by rewrite flush_buffer_run, flush_tail_acts.
Qed.

Definition page_acts (w b next : Z) (fence : bool) : list pact :=
  Store (cn b) (u32 w) :: Store (cn b) 0 :: link_acts b next fence.

Lemma init_page_run b next fence m :
  init_log_page (base b) next fence m = ((), page_acts (cur m (cn b)) b next fence).
Proof.
  unfold init_log_page, nova_set_page_num_entries, nova_set_page_invalid_entries.
  unfold off_entries. fold (cn b). unfold page_acts.
  set (w := cur m (cn b)). set (m1 := exec1 (Store (cn b) (u32 w)) m).
  set (m2 := exec1 (Store (cn b) 0) m1).
  eapply (bind_run _ _ m () [Store (cn b) (u32 w)] () _).
  { unfold store32_hi. rewrite <- (app_nil_r [_]). eapply (bind_run _ _ m () [Store (cn b) (u32 w)]); [|done].
    rewrite bind_load. fold w. done. }
  change (exec [Store (cn b) (u32 w)] m) with m1.
  eapply (bind_run _ _ m1 () [Store (cn b) 0] () _); [|apply set_next_run].
  unfold store32_lo. rewrite <- (app_nil_r [_]). eapply (bind_run _ _ m1 () [Store (cn b) 0]); [|done].
  rewrite bind_load. unfold m1. rewrite cur_store, decide_True by done.
  unfold store64, act. pose proof (u32_range w).
  rewrite Z.shiftr_div_pow2, Z.div_small by lia. done.
Qed.

(** ** Chains of pages *)

(** Both tail words have their value and are on their way to the media. *)
Definition page_flushed (m : mem) (b next : Z) : Prop :=
  flushed 0 (cell_at m (cn b)) /\ flushed next (cell_at m (nx b)).

(** The page is empty, linked to [next], and durable. *)
Definition page_durable (m : mem) (b next : Z) : Prop :=
  (settled m (cn b) /\ cur m (cn b) = 0) /\ (settled m (nx b) /\ cur m (nx b) = next).

(** [R b next] for every page of [bs] and the offset of the page after it, [e]
    after the last one. *)
Fixpoint chained (R : Z -> Z -> Prop) (bs : list Z) (e : Z) : Prop :=
  match bs with
  | [] => True
  | b :: bs' => R b (match bs' with [] => e | b' :: _ => b' * 4096 end) /\ chained R bs' e
  end.

Lemma chained_app R bs1 bs2 e :
  chained R (bs1 ++ bs2) e
  <-> chained R bs1 (match bs2 with [] => e | b :: _ => b * 4096 end) /\ chained R bs2 e.
Proof using Type.
  lists_only.
  induction bs1 as [|b bs1 IH]; simpl; [tauto|]. rewrite IH.
  destruct bs1; simpl; [destruct bs2; tauto|tauto].
Qed.

Lemma chained_impl (R R' : Z -> Z -> Prop) bs e :
  (forall b n, b ∈ bs -> R b n -> R' b n) -> chained R bs e -> chained R' bs e.
Proof using Type.
  lists_only.
  induction bs as [|b bs IH]; simpl; [done|]. intros Hi [Hb Hc].
  split; [apply Hi; [set_solver|done]|]. apply IH; [|done]. intros; apply Hi; [set_solver|done].
Qed.

(** Words of the tails of [bs] only. *)
Definition outside (bs : list Z) (a : Z) : Prop := forall b, b ∈ bs -> a ∉ tail_words b.

Lemma outside_cons b bs a : outside (b :: bs) a <-> (a <> cn b /\ a <> nx b) /\ outside bs a.
Proof using Type.
  lists_only.
  unfold outside, tail_words. split.
  - intros H. split; [|set_solver]. specialize (H b). set_solver.
  - intros [? H] b' [->|Hb]%elem_of_cons; [set_solver|by apply H].
Qed.

Lemma outside_app bs bs' a : outside (bs ++ bs') a <-> outside bs a /\ outside bs' a.
Proof using Type.
  lists_only. unfold outside. set_solver. Qed.

Lemma outside_tail b bs a : b ∉ bs -> a ∈ tail_words b -> outside bs a.
Proof using Type.
  lists_only. intros Hb Ha b' Hb' Ha'. by pose proof (tails_disjoint _ _ _ Ha Ha') as ->. Qed.

Lemma flushed_keep m b n t :
  (forall a, a ∈ tail_words b -> untouched a t) -> page_flushed m b n -> page_flushed (exec t m) b n.
Proof using Type.
  lists_only.
  intros Hu [H1 H2]. split; apply flushed_exec; try done; apply Hu; set_solver.
Qed.

Lemma durable_keep m b n t :
  (forall a, a ∈ tail_words b -> untouched a t) -> page_durable m b n -> page_durable (exec t m) b n.
Proof using Type.
  lists_only.
  intros Hu [[H1 E1] [H2 E2]].
  assert (untouched (cn b) t) by (apply Hu; set_solver).
  assert (untouched (nx b) t) by (apply Hu; set_solver).
  split; (split; [by apply settled_untouched|by rewrite cur_untouched]).
Qed.

Lemma flushed_durable m b n : page_flushed m b n -> page_durable (exec1 Fence m) b n.
Proof. intros [H1 H2]. split; by apply flushed_fence. Qed.

(** Traces that store to the listed words only. *)
Lemma link_acts_untouched b next fence a : a <> nx b -> untouched a (link_acts b next fence).
Proof.
  intros Ha. unfold link_acts. constructor; [simpl; congruence|]. constructor; [done|].
  destruct fence; repeat constructor. done.
Qed.

Lemma page_acts_untouched w b next fence a :
  a <> cn b -> a <> nx b -> untouched a (page_acts w b next fence).
Proof.
  intros. unfold page_acts. constructor; [simpl; congruence|]. constructor; [simpl; congruence|].
  by apply link_acts_untouched.
Qed.

Lemma link_acts_flushed m b next :
  mem_ok m -> flushed next (cell_at (exec (link_acts b next false) m) (nx b)).
Proof.
  intros Hok. unfold link_acts.
  change (exec _ m) with (exec1 (Clwb (cn b)) (exec1 (Store (nx b) next) m)).
  apply clwb_flushed; [by apply mem_ok_exec1| |apply nx_aligned|apply nx_line].
  by rewrite cur_store, decide_True.
Qed.

Lemma page_acts_flushed m w b next :
  mem_ok m -> page_flushed (exec (page_acts w b next false) m) b next.
Proof.
  intros Hok. unfold page_acts, link_acts.
  change (exec _ m) with (exec1 (Clwb (cn b)) (exec1 (Store (nx b) next)
    (exec1 (Store (cn b) 0) (exec1 (Store (cn b) (u32 w)) m)))).
  pose proof (cn_nx b b).
  split; apply clwb_flushed; repeat apply mem_ok_exec1; try done.
  - rewrite cur_store, decide_False by done. by rewrite cur_store, decide_True.
  - apply cn_aligned.
  - by rewrite cur_store, decide_True.
  - apply nx_aligned.
  - apply nx_line.
Qed.

(** [n] consecutive blocks. *)
Fixpoint run (first : Z) (n : nat) : list Z :=
  match n with O => [] | S n' => first :: run (first + 1) n' end.

Lemma elem_run first n b : b ∈ run first n <-> first <= b < first + Z.of_nat n.
Proof using Type.
  lists_only.
  revert first. induction n as [|n IH]; intros first; simpl.
  - rewrite elem_of_nil. lia.
  - rewrite elem_of_cons, IH. lia.
Qed.

Lemma length_run first n : length (run first n) = n.
Proof using Type.
  lists_only. revert first. induction n; simpl; auto. Qed.

Lemma run_nodup first n : NoDup (run first n).
Proof using Type.
  lists_only.
  revert first. induction n as [|n IH]; intros first; simpl; constructor; [|done].
  rewrite elem_run. lia.
Qed.

Lemma run_snoc first n : run first (S n) = run first n ++ [first + Z.of_nat n].
Proof using Type.
  lists_only.
  revert first. induction n as [|n IH]; intros first; [simpl; f_equal; lia|].
  change (run first (S (S n))) with (first :: run (first + 1) (S n)). rewrite IH. simpl.
  do 3 f_equal. lia.
Qed.

(** The linking loop. *)
Lemma link_loop_run n first i m :
  mem_ok m -> 0 <= i ->
  (forall b, first + i <= b <= first + i + Z.of_nat n -> log_block b) ->
  exists t, link_loop sbi n first i 0 m = ((), t)
    /\ (forall a, outside (run (first + i) n) a -> untouched a t)
    /\ chained (page_flushed (exec t m)) (run (first + i) n) ((first + i + Z.of_nat n) * 4096).
Proof.
  revert i m. induction n as [|n IH]; intros i m Hok Hi Hb.
  { exists []. split_and!; [done|constructor|done]. }
  set (t1 := page_acts (cur m (cn (first + i))) (first + i) ((first + i + 1) * 4096) false).
  destruct (IH (i + 1) (exec t1 m)) as (t2 & E2 & Hu2 & Hc2);
    [by apply mem_ok_exec|lia|intros b Hbb; apply Hb; lia|].
  rewrite Z.add_assoc in Hu2, Hc2.
  assert (log_block (first + i)) as Hb1 by (apply Hb; lia).
  assert (log_block (first + i + 1)) as Hb2 by (apply Hb; lia).
  pose proof Hb1 as Hr1. pose proof Hb2 as Hr2. unfold log_block in Hr1, Hr2.
  exists (t1 ++ t2). split_and!.
  - cbn [link_loop]. rewrite !u64_small by lia. rewrite page_of_val, off_val by done.
    eapply bind_run; [apply init_page_run|exact E2].
  - intros a [[? ?] Ho]%outside_cons. apply untouched_app.
    split; [by apply page_acts_untouched|by apply Hu2].
  - rewrite exec_app. replace (first + i + Z.of_nat (S n)) with (first + i + 1 + Z.of_nat n) by lia.
    change (run (first + i) (S n)) with ([first + i] ++ run (first + i + 1) n).
    apply chained_app. split; [|done]. simpl. split; [|done].
    apply flushed_keep.
    + intros a Ha. apply Hu2. eapply outside_tail; [|exact Ha]. rewrite elem_run. lia.
    + assert (E : match run (first + i + 1) n with
        | [] => (first + i + 1 + Z.of_nat n) * 4096 | b :: _ => b * 4096 end
        = (first + i + 1) * 4096) by (destruct n; simpl; [f_equal; lia|done]).
      rewrite E. apply page_acts_flushed. done.
Qed.

(** The word [coalesce] overwrites in the page before the new ones. *)
Definition not_prev (prev a : Z) : Prop := prev <> 0 -> a <> nx prev.

Definition prev_acts (prev first : Z) : list pact :=
  if prev =? 0 then [] else link_acts prev (first * 4096) false.

Lemma coalesce_run prev first n m :
  mem_ok m -> (prev = 0 \/ log_block prev /\ prev ∉ run first (S n)) ->
  (forall b, b ∈ run first (S n) -> log_block b) ->
  exists t, nova_coalesce_log_pages sbi prev first 0 (Z.of_nat (S n)) m = ((), t)
    /\ (forall a, outside (run first (S n)) a -> not_prev prev a -> untouched a t)
    /\ chained (page_durable (exec t m)) (run first (S n)) 0
    /\ (prev <> 0 -> settled (exec t m) (nx prev) /\ cur (exec t m) (nx prev) = first * 4096).
Proof.
  intros Hok Hprev Hb. set (N := Z.of_nat (S n)).
  assert (Hf : log_block first) by (apply Hb; rewrite elem_run; lia).
  assert (Hl : log_block (first + Z.of_nat n)) by (apply Hb; rewrite elem_run; lia).
  pose proof Hf as Hfr. pose proof Hl as Hlr. unfold log_block in Hfr, Hlr.
  set (t0 := prev_acts prev first). set (m0 := exec t0 m).
  assert (Hok0 : mem_ok m0) by (by apply mem_ok_exec).
  destruct (link_loop_run n first 0 m0 Hok0) as (t1 & E1 & Hu1 & Hc1); [done| |].
  { intros b Hbb. apply Hb. rewrite elem_run. lia. }
  rewrite Z.add_0_r in Hu1, Hc1. set (m1 := exec t1 m0) in *.
  set (last := first + Z.of_nat n) in *.
  set (t2 := page_acts (cur m1 (cn last)) last 0 false).
  assert (Hok1 : mem_ok m1) by (by apply mem_ok_exec).
  assert (Hu2 : forall a, a <> cn last -> a <> nx last -> untouched a t2)
    by (intros; by apply page_acts_untouched).
  assert (Hrs : run first (S n) = run first n ++ [last]) by apply run_snoc.
  assert (Hfl : chained (page_flushed (exec t2 m1)) (run first (S n)) 0).
  { rewrite Hrs. apply chained_app. split; [|split; [by apply page_acts_flushed|done]].
    eapply chained_impl; [|exact Hc1]. intros b nn Hbn. apply flushed_keep. intros a Ha.
    assert (Ho : outside [last] a) by (eapply outside_tail; [|exact Ha]; rewrite elem_run in Hbn; set_solver by lia).
    apply outside_cons in Ho as [[? ?] _]. by apply Hu2. }
  exists (t0 ++ t1 ++ t2 ++ [Fence]). split_and!.
  - unfold nova_coalesce_log_pages. eapply bind_run.
    { unfold t0, prev_acts. instantiate (1 := ()). destruct (Z.eqb_spec prev 0); [done|].
      destruct Hprev as [?|[Hpb _]]; [done|]. rewrite page_of_val, off_val by done. apply set_next_run. }
    replace (Z.to_nat (u64 (N - 1))) with n by (rewrite u64_small; lia).
    eapply bind_run; [exact E1|]. fold m1.
    rewrite u64_small by lia. replace (first + N - 1) with last by lia.
    rewrite page_of_val by done. rewrite init_page_run. done.
  - intros a Ho Hp. rewrite Hrs, outside_app, outside_cons in Ho. destruct Ho as (Ho & [? ?] & _).
    rewrite !untouched_app. split_and!; auto.
    + unfold t0, prev_acts. case_match eqn:Hz; [constructor|]. apply link_acts_untouched. zbool. auto.
    + by repeat constructor.
  - rewrite !exec_app. fold m0. fold m1. eapply chained_impl; [|exact Hfl].
    intros b nn _. apply flushed_durable.
  - intros Hne. destruct Hprev as [?|[Hpb Hnp]]; [done|].
    assert (Ho : outside (run first (S n)) (nx prev)) by (eapply outside_tail; [done|unfold tail_words; set_solver]).
    rewrite Hrs, outside_app, outside_cons in Ho. destruct Ho as (Ho & [? ?] & _).
    rewrite !exec_app. apply flushed_fence. fold m0. fold m1.
    apply flushed_exec; [auto|]. apply flushed_exec; [auto|].
    unfold m0, t0, prev_acts. rewrite (proj2 (Z.eqb_neq prev 0)) by done. by apply link_acts_flushed.
Qed.

(** ** The blocks an allocation takes *)

Context {RBL : RbLaws} {KML : KmemLaws} (Hslab : forall T, is_Some (nova_alloc_range_node T)).
Context (fuel : nat) (this_cpu : Z) (Hthis : 0 <= this_cpu).

(** The lists are well formed, the walks have fuel, block 0 (the superblock)
    is not free. *)
Record log_ready (ls : list free_list) : Prop := {
  lr_wf : lists_wf sbi ls;
  lr_fuel : forall meta, sum_free meta ls <= Z.of_nat fuel;
  lr_zero : ~ free_block ls true 0
}.

(** [bs] were free and are allocated. *)
Record pages_allocated (ls : list free_list) (bs : list Z) (ls' : list free_list) : Prop := {
  pa_nodup : NoDup bs;
  pa_was_free : forall b, b ∈ bs -> free_block ls true b;
  pa_free : forall meta x, free_block ls' meta x
    <-> free_block ls meta x /\ ~ (meta = true /\ x ∈ bs);
  pa_frame : forall meta i x, in_list ls meta i x -> in_list ls' meta i x
}.

Lemma list_sum ls i fl meta :
  lists_wf sbi ls -> ls !! i = Some fl ->
  num_free_blocks (sub_list meta fl) <= sum_free meta ls.
Proof.
  intros Hw Hi. assert (Hl : forall j fl', ls !! j = Some fl' -> list_wf (sub_list meta fl')).
  { intros j fl' Hj. by destruct (lw_list _ _ Hw _ _ meta Hj). }
  clear Hw. revert i Hi. induction ls as [|f ls IH]; intros i Hi; [done|].
  pose proof (num_free_range _ (Hl 0%nat f eq_refl)).
  pose proof (sum_range ls meta (fun j => Hl (S j))). simpl. destruct i as [|i]; simplify_eq/=; [lia|].
  specialize (IH (fun j => Hl (S j)) i Hi). lia.
Qed.

Lemma ready_fuel ls : log_ready ls -> enough_fuel ls fuel.
Proof.
  intros [Hw Hf _] i fl meta Hi. destruct (lw_list _ _ Hw _ _ meta Hi) as [Hl _].
  pose proof (total_max _ _ Hl). pose proof (li_count _ _ Hl).
  pose proof (list_sum _ _ _ meta Hw Hi). specialize (Hf meta). lia.
Qed.

Lemma ready_block ls b : log_ready ls -> free_block ls true b -> log_block b.
Proof.
  intros [Hw _ H0] Hf. pose proof Hf as (i & fl & Hi & Hx).
  destruct (lw_list _ _ Hw _ _ true Hi) as [Hl _].
  pose proof (is_free_bounds _ _ _ Hl Hx) as Hbd.
  destruct (cpu_of_block sbi ls true i b Hw) as [_ Hr]; [by exists fl|].
  assert (b <> 0) by (by intros ->). unfold log_block. lia.
Qed.

Lemma allocated_pages ls n b ls' :
  log_ready ls -> 0 <= n -> allocated sbi ls true n b ls' ->
  pages_allocated ls (run b (Z.to_nat n)) ls' /\ log_ready ls'.
Proof.
  intros Hr Hn Ha. split.
  - split; [apply run_nodup| | |apply Ha].
    + intros x. rewrite elem_run, Z2Nat.id by done. apply Ha.
    + intros meta x. rewrite elem_run, Z2Nat.id by done. apply Ha.
  - split; [apply Ha| |].
    + intros meta. rewrite (al_sum _ _ _ _ _ _ Ha). pose proof (lr_fuel _ Hr meta). case_decide; lia.
    + rewrite (al_free _ _ _ _ _ _ Ha). intros [? _]. by apply (lr_zero _ Hr).
Qed.

Lemma pages_allocated_app ls bs1 ls1 bs2 ls2 :
  pages_allocated ls bs1 ls1 -> pages_allocated ls1 bs2 ls2 ->
  pages_allocated ls (bs1 ++ bs2) ls2.
Proof using Type.
  lists_only.
  intros H1 H2. split.
  - apply NoDup_app. split_and!; [apply H1| |apply H2]. intros x Hx1 Hx2.
    apply (pa_was_free _ _ _ H2), (pa_free _ _ _ H1) in Hx2. tauto.
  - intros b [Hb|Hb]%elem_of_app; [by apply H1|].
    apply (pa_was_free _ _ _ H2), (pa_free _ _ _ H1) in Hb. tauto.
  - intros meta x. rewrite (pa_free _ _ _ H2), (pa_free _ _ _ H1), elem_of_app. tauto.
  - intros meta i x Hx. by apply H2, H1.
Qed.

Lemma pages_allocated_nil ls : pages_allocated ls [] ls.
Proof using Type.
  lists_only.
  split; [constructor|set_solver| |done]. intros meta x. rewrite elem_of_nil. tauto.
Qed.

Definition any_cpu (cpuid : Z) : Prop := cpuid = ANY_CPU \/ 0 <= cpuid < cpus sbi.

Lemma new_log_blocks_run num cpuid dir st m :
  log_ready (fls st) -> i_blk_type (sih st) = 0 -> any_cpu cpuid -> 0 < num < TWO31 ->
  exists r b st',
    new_log_blocks sbi fuel this_cpu num cpuid dir st m = (Some ((r, b), st'), [])
    /\ sih st' = sih st
    /\ (r = - ENOSPC /\ st' = st
        \/ 0 < r <= num /\ pages_allocated (fls st) (run b (Z.to_nat r)) (fls st')
           /\ log_ready (fls st')).
Proof.
  intros Hr Hb Hcpu Hn. unfold new_log_blocks, nova_new_log_blocks. rewrite Hb.
  destruct (new_blocks_spec fuel sbi false (fun _ => 0) this_cpu (fls st) 0 num 0 false LOG cpuid dir
              (lr_wf _ Hr) Hslab Hthis Hcpu) as (r & b & ls' & z & E & Hres);
    [change (nova_get_numblocks 0) with 1; lia|by apply ready_fuel|].
  rewrite E. eexists r, b, _. split; [reflexivity|]. split; [done|].
  destruct Hres as [(-> & _ & -> & _)|(n & Hn1 & Hrn & _ & Hal & _)].
  { left. split; [done|]. by destruct st. }
  right. change (nova_get_numblocks 0) with 1 in *. rewrite Z.div_1_r in Hrn. subst r.
  split; [lia|]. by apply allocated_pages; [|lia|].
Qed.

(** Linking a new run behind a durable chain. *)
Lemma coalesce_extends m bs prev first n :
  mem_ok m -> (forall b, b ∈ bs ++ [prev] -> log_block b) ->
  (forall b, b ∈ run first (S n) -> log_block b) ->
  NoDup ((bs ++ [prev]) ++ run first (S n)) ->
  chained (page_durable m) (bs ++ [prev]) 0 ->
  exists t, nova_coalesce_log_pages sbi prev first 0 (Z.of_nat (S n)) m = ((), t)
    /\ (forall a, outside ((bs ++ [prev]) ++ run first (S n)) a -> untouched a t)
    /\ chained (page_durable (exec t m)) ((bs ++ [prev]) ++ run first (S n)) 0.
Proof.
  intros Hok Hbs Hrun Hnd Hc. pose proof Hnd as (Hnd1 & Hdis & _)%NoDup_app.
  assert (Hp : log_block prev) by (apply Hbs; set_solver).
  assert (Hp0 : prev <> 0) by (unfold log_block in Hp; lia).
  assert (Hpn : prev ∉ run first (S n)) by (apply Hdis; set_solver).
  apply NoDup_app in Hnd1 as (_ & Hd1 & _).
  destruct (coalesce_run prev first n m Hok) as (t & E & Hu & Hch & Hpr); [by right|done|].
  exists t. split; [done|]. split.
  { intros a Ho. rewrite !outside_app, outside_cons in Ho. destruct Ho as ((_ & [? ?] & _) & Ho).
    apply Hu; [done|]. by intros _. }
  apply chained_app. split; [|done]. apply chained_app in Hc as [Hc1 Hc2].
  cbn [run]. apply chained_app. split.
  - eapply chained_impl; [|exact Hc1]. intros b nn Hb. apply durable_keep. intros a Ha.
    apply Hu; [eapply outside_tail; [|exact Ha]; apply Hdis; set_solver|].
    intros _ ->. assert (b = prev) as -> by (eapply tails_disjoint; [exact Ha|unfold tail_words; set_solver]).
    apply (Hd1 prev Hb). set_solver.
  - simpl. split; [|done]. destruct Hc2 as [[[Hs Hz] _] _].
    assert (Huc : untouched (cn prev) t).
    { apply Hu; [eapply outside_tail; [exact Hpn|unfold tail_words; set_solver]|].
      intros _. apply cn_nx. }
    split; [split; [by apply settled_untouched|by rewrite cur_untouched]|]. by apply Hpr.
Qed.

Abbreviation remaining := (remaining_loop sbi fuel this_cpu).

Lemma remaining_loop_run rounds num bs prev cpuid dir st m :
  log_ready (fls st) -> i_blk_type (sih st) = 0 -> any_cpu cpuid ->
  0 <= num <= Z.of_nat rounds -> Z.of_nat (length (bs ++ [prev])) + num < TWO31 ->
  mem_ok m -> NoDup (bs ++ [prev]) ->
  (forall b, b ∈ bs ++ [prev] -> log_block b /\ ~ free_block (fls st) true b) ->
  chained (page_durable m) (bs ++ [prev]) 0 ->
  exists new st' t,
    remaining rounds num prev (Z.of_nat (length (bs ++ [prev]))) cpuid dir st m
      = (Some (Z.of_nat (length ((bs ++ [prev]) ++ new)), st'), t)
    /\ sih st' = sih st /\ log_ready (fls st') /\ pages_allocated (fls st) new (fls st')
    /\ Z.of_nat (length new) <= num
    /\ (forall a, outside ((bs ++ [prev]) ++ new) a -> untouched a t)
    /\ chained (page_durable (exec t m)) ((bs ++ [prev]) ++ new) 0.
Proof.
  revert num bs prev st m.
  induction rounds as [|rounds IH]; intros num bs prev st m Hr Hb0 Hcpu Hnum Hlen Hok Hnd Hbs Hc;
    cbn [remaining_loop]; destruct (Z.eqb_spec num 0) as [->|Hne]; try lia.
  1, 2: exists [], st, []; rewrite app_nil_r; split_and!; try done;
    [apply pages_allocated_nil|intros; constructor].
  destruct (new_log_blocks_run num cpuid dir st m Hr Hb0 Hcpu) as (r & b & st1 & E1 & Hs1 & Hres);
    [lia|].
  destruct Hres as [[-> ->]|(Hrn & Hpa & Hr1)].
  { exists [], st, []. rewrite app_nil_r. split_and!; try done;
      [|apply pages_allocated_nil|simpl; lia|intros; constructor].
    by eapply (lbind_run _ _ _ _ _ _ [] _ []); [exact E1|]. }
  destruct (Z.to_nat r) as [|n] eqn:En; [lia|].
  assert (Hrun : forall x, x ∈ run b (S n) -> log_block x)
    by (intros x Hx; eapply ready_block; [exact Hr|]; by apply (pa_was_free _ _ _ Hpa)).
  assert (Hnd' : NoDup ((bs ++ [prev]) ++ run b (S n))).
  { apply NoDup_app. split_and!; [done| |apply run_nodup]. intros x Hx Hx'.
    apply (Hbs x Hx), (pa_was_free _ _ _ Hpa), Hx'. }
  destruct (coalesce_extends m bs prev b n Hok) as (t1 & Et1 & Hu1 & Hc1); try done.
  { intros x Hx. by apply Hbs. }
  set (bs1 := (bs ++ [prev]) ++ run b n). set (last := b + Z.of_nat n).
  assert (Eb : (bs ++ [prev]) ++ run b (S n) = bs1 ++ [last])
    by (unfold bs1; rewrite run_snoc; by rewrite app_assoc).
  rewrite Eb in *.
  assert (El : Z.of_nat (length (bs1 ++ [last])) = Z.of_nat (length (bs ++ [prev])) + r)
    by (rewrite <- Eb, length_app, length_run; lia).
  destruct (IH (num - r) bs1 last st1 (exec t1 m)) as (new & st' & t2 & E2 & Hs' & Hr' & Hpa' & Hln & Hu2 & Hc2);
    try done; try lia.
  - by rewrite Hs1.
  - by apply mem_ok_exec.
  - intros x Hx. rewrite <- Eb in Hx. apply elem_of_app in Hx as [Hx|Hx].
    + destruct (Hbs x Hx) as [? Hf]. split; [done|]. intros Hf'.
      apply (pa_free _ _ _ Hpa) in Hf'. tauto.
    + split; [by apply Hrun|]. intros Hf'. apply (pa_free _ _ _ Hpa) in Hf'. tauto.
  - assert (Hbl : log_block b) by (apply Hrun; rewrite elem_run; lia).
    assert (Hll : log_block last) by (apply Hrun; rewrite elem_run; lia).
    unfold log_block in Hbl, Hll.
    exists (run b (S n) ++ new), st', (t1 ++ t2). rewrite app_assoc, Eb. split_and!; auto.
    + eapply (lbind_run _ _ _ _ _ _ [] _ (t1 ++ t2)); [exact E1|]. simpl exec. cbv beta iota.
      rewrite (proj2 (Z.leb_gt r 0)) by lia. rewrite lbind_sih, Hs1, Hb0.
      replace r with (Z.of_nat (S n)) at 1 by lia.
      eapply lbind_run; [by apply pm_run|].
      rewrite (u64_small (num - r)) by lia. rewrite s32_small by lia. rewrite <- El.
      rewrite u64_small by lia. replace (b + r - 1) with last by lia. exact E2.
    + by rewrite Hs'.
    + by eapply pages_allocated_app.
    + rewrite length_app, length_run. lia.
    + intros a Ho. apply untouched_app. split; [|by apply Hu2].
      apply Hu1. by apply outside_app in Ho as [? _].
    + by rewrite exec_app.
Qed.

(** What [nova_allocate_inode_log_pages] delivers: the pages [bs], linked in
    this order, empty, durable, and nothing else written. *)
Record new_pages (num : Z) (st : lstate) (m : mem) (bs : list Z) (st' : lstate)
    (t : list pact) : Prop := {
  np_count : 0 < Z.of_nat (length bs) <= num;
  np_alloc : pages_allocated (fls st) bs (fls st');
  np_blocks : forall b, b ∈ bs -> log_block b;
  np_chain : chained (page_durable (exec t m)) bs 0;
  np_only : forall a, outside bs a -> untouched a t
}.

Lemma allocate_pages_run num cpuid dir st m :
  log_ready (fls st) -> i_blk_type (sih st) = 0 -> any_cpu cpuid ->
  0 < num < TWO31 -> num <= Z.of_nat fuel -> mem_ok m ->
  exists r st' t,
    nova_allocate_inode_log_pages sbi fuel this_cpu num cpuid dir st m = (Some (r, st'), t)
    /\ sih st' = sih st /\ log_ready (fls st')
    /\ (r = (- ENOSPC, None) /\ st' = st /\ t = []
        \/ exists b bs, r = (Z.of_nat (length (b :: bs)), Some (b * 4096))
             /\ new_pages num st m (b :: bs) st' t).
Proof.
  intros Hr Hb0 Hcpu Hn Hfu Hok. unfold nova_allocate_inode_log_pages.
  destruct (new_log_blocks_run num cpuid dir st m Hr Hb0 Hcpu Hn) as (r & b & st1 & E1 & Hs1 & Hres).
  destruct Hres as [[-> ->]|(Hrn & Hpa & Hr1)].
  { exists (- ENOSPC, None), st, []. split_and!; auto.
    by eapply (lbind_run _ _ _ _ _ _ [] _ []); [exact E1|]. }
  destruct (Z.to_nat r) as [|n] eqn:En; [lia|].
  assert (Hrun : forall x, x ∈ run b (S n) -> log_block x)
    by (intros x Hx; eapply ready_block; [exact Hr|]; by apply (pa_was_free _ _ _ Hpa)).
  destruct (coalesce_run 0 b n m Hok (or_introl eq_refl) Hrun) as (t1 & Et1 & Hu1 & Hc1 & _).
  assert (Hbl : log_block b) by (apply Hrun; rewrite elem_run; lia).
  assert (Hll : log_block (b + Z.of_nat n)) by (apply Hrun; rewrite elem_run; lia).
  pose proof Hbl as Hbr. unfold log_block in Hbr, Hll.
  pose proof (run_snoc b n) as Eb. pose proof (length_run b (S n)) as El.
  destruct (remaining_loop_run fuel (num - r) (run b n) (b + Z.of_nat n) cpuid dir st1 (exec t1 m))
    as (new & st' & t2 & E2 & Hs2 & Hr2 & Hpa2 & Hln & Hu2 & Hc2); try done.
  - by rewrite Hs1.
  - lia.
  - rewrite <- Eb, El. lia.
  - by apply mem_ok_exec.
  - rewrite <- Eb. apply run_nodup.
  - intros x. rewrite <- Eb. intros Hx. split; [by apply Hrun|].
    rewrite (pa_free _ _ _ Hpa). tauto.
  - by rewrite <- Eb.
  - rewrite <- Eb in *. exists (Z.of_nat (length (run b (S n) ++ new)), Some (b * 4096)), st', (t1 ++ t2).
    split; [|split_and!; [by rewrite Hs2|done|right]].
    + eapply (lbind_run _ _ _ _ _ _ [] _ (t1 ++ t2)); [exact E1|]. simpl exec. cbv beta iota.
      rewrite (proj2 (Z.leb_gt r 0)) by lia. rewrite lbind_sih, Hs1, Hb0.
      replace r with (Z.of_nat (S n)) at 1 by lia. eapply lbind_run; [by apply pm_run|].
      rewrite <- (app_nil_r t2). eapply lbind_run.
      * rewrite (u64_small (num - r)), u64_small by lia.
        replace (b + r - 1) with (b + Z.of_nat n) by lia.
        replace r with (Z.of_nat (length (run b (S n)))) at 2 by lia. exact E2.
      * by rewrite off_val.
    + exists b, (run (b + 1) n ++ new). split; [done|].
      change (b :: run (b + 1) n ++ new) with (run b (S n) ++ new).
      split; try done.
      * rewrite length_app, El. lia.
      * by eapply pages_allocated_app.
      * intros x [Hx|Hx]%elem_of_app; [by apply Hrun|].
        eapply ready_block; [exact Hr1|]. by apply (pa_was_free _ _ _ Hpa2).
      * by rewrite exec_app.
      * intros a Ho. apply untouched_app. split; [|by apply Hu2].
        apply outside_app in Ho as [Ho _]. apply Hu1; [done|]. by intros ?.
Qed.
End pages.
