(* ===== verification/InodeLogOps.v ===== *)
(** Extending a log, finding the place of the next entry, freeing a log. *)

From S2P Require Import Prelude.
From S2P Require Import Kernel.
From S2P Require Import Layout.
From S2P Require Import FreeList.
From S2P Require Import FreeListSpec.
From S2P Require Import Balloc.
From S2P Require Import RangeTree.
From S2P Require Import BallocSpec.
From S2P Require Import BallocInit.
From S2P Require Import CsumArea.
From S2P Require Import Pmem.
From S2P Require Import PmemSpec.
From S2P Require Import Journal.
From S2P Require Import JournalSpec.
From S2P Require Import InodeLog.
From S2P Require Import InodeLogSpec.

(** ** One-byte stores *)

Lemma byte_store_load w v sh :
  0 <= sh -> 0 <= v < 256 ->
  u8 (Z.shiftr (Z.lor (Z.ldiff w (Z.shiftl 255 sh)) (Z.shiftl v sh)) sh) = v.
Proof.
  intros Hs Hv. unfold u8. change 256 with (2 ^ 8) in *. rewrite <- Z.land_ones by lia.
  apply Z.bits_inj'. intros i Hi. rewrite Z.land_spec, Z.shiftr_spec, Z.lor_spec, Z.ldiff_spec by lia.
  rewrite !Z.shiftl_spec by lia. replace (i + sh - sh) with i by lia.
  destruct (Z.ltb_spec i 8) as [Hlt|Hge].
  - rewrite Z.ones_spec_low by lia. change 255 with (Z.ones 8). rewrite Z.ones_spec_low by lia.
    by rewrite andb_false_r, andb_true_r.
  - rewrite Z.ones_spec_high by lia. rewrite andb_false_r. symmetry.
    rewrite <- (Z.mod_small v (2 ^ 8)) by lia. apply Z.mod_pow2_bits_high. lia.
Qed.

Section ops.
Context {RB : RbOps} {KM : KmemOps} {CR : CrcOps} {MP : ModParams}.
Context (sbi : nova_sb_info) (G : log_geometry sbi).

Abbreviation base := (base sbi).
Abbreviation cn := (cn sbi).
Abbreviation nx := (nx sbi).
Abbreviation outside := (outside sbi).
Abbreviation tail_words := (tail_words sbi).

Lemma next_page_run b x m :
  log_block b -> 0 <= x < 4096 -> next_log_page sbi (b * 4096 + x) m = (cur m (nx b), []).
Proof. intros Hb Hx. unfold next_log_page. by rewrite (log_page_val sbi G). Qed.

Lemma next_page_start b m : log_block b -> next_log_page sbi (b * 4096) m = (cur m (nx b), []).
Proof. intros Hb. rewrite <- (Z.add_0_r (b * 4096)). by apply next_page_run; [|lia]. Qed.

(** ** The chain a reader follows *)

(** [g] is the contents of memory, [p] the offset of the first page. *)
Fixpoint log_chain (g : Z -> Z) (p : Z) (bs : list Z) : Prop :=
  match bs with
  | [] => p = 0
  | b :: bs' => p = b * 4096 /\ log_block b /\ log_chain g (g (nx b)) bs'
  end.

Definition head_off (bs : list Z) : Z := match bs with [] => 0 | b :: _ => b * 4096 end.

Lemma log_chain_head g p bs : log_chain g p bs -> p = head_off bs.
Proof. destruct bs; simpl; tauto. Qed.

Lemma log_chain_ext g g' p bs :
  (forall b, b ∈ bs -> g' (nx b) = g (nx b)) -> log_chain g p bs -> log_chain g' p bs.
Proof using Type.
  lists_only.
  revert p. induction bs as [|b bs IH]; intros p He; simpl; [done|].
  intros (? & ? & Hc). split_and!; [done..|]. rewrite He by set_solver.
  apply IH; [|done]. intros; apply He; set_solver.
Qed.

Lemma log_chain_durable m bs :
  (forall b, b ∈ bs -> log_block b) -> chained (page_durable sbi m) bs 0 ->
  log_chain (cur m) (head_off bs) bs.
Proof using Type.
  lists_only.
  induction bs as [|b bs IH]; simpl; [done|]. intros Hb [[_ [_ Hn]] Hc].
  split_and!; [done|apply Hb; set_solver|]. rewrite Hn. apply IH; [set_solver|done].
Qed.

Lemma log_chain_blocks g p bs b : log_chain g p bs -> b ∈ bs -> log_block b.
Proof using Type.
  lists_only.
  revert p. induction bs as [|c bs IH]; intros p Hc Hb; [set_solver|]. simpl in Hc.
  destruct Hc as (_ & ? & Hc). apply elem_of_cons in Hb as [->|Hb]; [done|by eapply IH].
Qed.

(** Linking a chain behind the last page. *)
Lemma log_chain_link g g' p bs c new :
  log_chain g p (bs ++ [c]) -> (forall b, b ∈ bs -> g' (nx b) = g (nx b)) ->
  log_chain g' (g' (nx c)) new -> log_chain g' p ((bs ++ [c]) ++ new).
Proof using Type.
  lists_only.
  revert p. induction bs as [|b bs IH]; intros p; simpl.
  - intros (? & ? & _) _ Hn. done.
  - intros (? & ? & Hc) He Hn. split_and!; [done..|]. rewrite He by set_solver.
    apply IH; [done| |done]. intros; apply He; set_solver.
Qed.

(** ** The end-of-page mark *)

Definition word_of (p : Z) : Z := Z.land p (Z.lnot 7).

Lemma word_of_val p : word_of p = p - p mod 8.
Proof.
  unfold word_of. change 7 with (Z.ones 3).
  rewrite <- Z.ldiff_land, Z.ldiff_ones_r, Z.shiftl_mul_pow2, Z.shiftr_div_pow2 by lia.
  change (2 ^ 3) with 8. pose proof (Z.div_mod p 8). lia.
Qed.

Lemma entry_addr b x : log_block b -> 0 <= x < 4096 -> meta_addr sbi (b * 4096 + x) = base b + x.
Proof.
  intros Hb Hx. unfold log_block in Hb. unfold meta_addr, nova_get_virt_addr_from_offset.
  pose proof (lg_range _ G). unfold InodeLogSpec.base. rewrite u64_small; lia.
Qed.

(** The word of an entry is no word of a page tail. *)
Lemma entry_not_tail b x b' a :
  0 <= x < LOG_BLOCK_TAIL -> a ∈ tail_words b' -> a <> word_of (base b + x).
Proof.
  intros Hx Ha E. rewrite word_of_val in E. pose proof (base_aligned sbi G b) as Hb.
  pose proof (Z.div_mod (base b) 4096 ltac:(lia)) as Hd. rewrite Hb, Z.add_0_r in Hd.
  assert (Hm : (base b + x) mod 8 = x mod 8).
  { rewrite Hd. replace (4096 * (base b / 4096) + x) with (x + (512 * (base b / 4096)) * 8) by lia.
    by rewrite Z_mod_plus_full. }
  rewrite Hm in E. pose proof (Z.mod_pos_bound x 8). pose proof (Z.mod_le x 8).
  unfold InodeLogSpec.tail_words, InodeLogSpec.cn, InodeLogSpec.nx, InodeLogSpec.base,
    off_next_page, LOG_BLOCK_TAIL in *.
  rewrite !elem_of_cons, elem_of_nil in Ha. destruct Ha as [Ha|[Ha|[]]]; lia.
Qed.

Lemma set_flag_run b x m :
  log_block b -> 0 <= x < 4096 ->
  exists t, nova_set_next_page_flag sbi (b * 4096 + x) m = ((), t)
    /\ (forall a, a <> word_of (base b + x) -> untouched a t)
    /\ (forall b' a, a ∈ tail_words b' -> untouched a t)
    /\ (forall t', (x < LOG_BLOCK_TAIL -> untouched (word_of (base b + x)) t') ->
        (goto_next_page sbi (b * 4096 + x) (exec t' (exec t m))).1 = true).
Proof.
  intros Hb Hx. unfold nova_set_next_page_flag. rewrite entry_loc by done.
  destruct (Z.leb_spec LOG_BLOCK_TAIL x) as [Hge|Hlt].
  { exists []. split_and!; [done|constructor..|]. intros t' _. unfold goto_next_page.
    rewrite entry_loc by done. by rewrite (proj2 (Z.ltb_lt _ _)) by lia. }
  rewrite entry_addr by done. set (p := base b + x).
  set (w := cur m (word_of p)).
  set (v := Z.lor (Z.ldiff w (Z.shiftl 255 (8 * (p mod 8)))) (Z.shiftl (u8 7) (8 * (p mod 8)))).
  exists (Store (word_of p) v :: flush_acts p CACHELINE_SIZE). split.
  { eapply (bind_run _ _ m () [Store (word_of p) v]); [|by rewrite flush_only_run].
    unfold nova_set_entry_type, store8. by rewrite bind_load. }
  assert (Hu : forall a, a <> word_of p -> untouched a (Store (word_of p) v :: flush_acts p CACHELINE_SIZE)).
  { intros a Ha. constructor; [simpl; congruence|]. apply flush_acts_untouched. }
  split; [exact Hu|]. split.
  { intros b' a Ha. apply Hu. eapply entry_not_tail; [|exact Ha]. lia. }
  intros t' Ht'. unfold goto_next_page. rewrite entry_loc by done. case_match; [done|].
  rewrite entry_addr by done. fold p. unfold load8. fold (word_of p).
  set (m' := exec t' _).
  assert (Hw : cur m' (word_of p) = v).
  { unfold m'. rewrite cur_untouched by (apply Ht'; lia).
    change (exec (_ :: ?f) m) with (exec f (exec1 (Store (word_of p) v) m)).
    rewrite cur_untouched by apply flush_acts_untouched. by rewrite cur_store, decide_True. }
  pose (y := u8 (Z.shiftr v (8 * (p mod 8)))).
  rewrite (bind_run _ _ m' y [] (y =? 7) []); [|by rewrite bind_load, Hw|done]. unfold y.
  simpl. apply Z.eqb_eq. pose proof (Z.mod_pos_bound p 8). by apply (byte_store_load w 7); [lia|].
Qed.

(** ** Extending the log *)

Context {RBL : RbLaws} {KML : KmemLaws} (Hslab : forall T, is_Some (nova_alloc_range_node T)).
Context (fuel : nat) (this_cpu : Z) (Hthis : 0 <= this_cpu).
Context (Hnocsum : metadata_csum = false).

(** An inode log with pages [bs ++ [c]] from offset [h] on, all links durable,
    its pages in use. *)
Record log_ok (st : lstate) (m : mem) (h : Z) (bs : list Z) (c : Z) : Prop := {
  lo_mem : mem_ok m;
  lo_ready : log_ready sbi fuel (fls st);
  lo_btype : i_blk_type (sih st) = 0;
  lo_chain : log_chain (cur m) h (bs ++ [c]);
  lo_nodup : NoDup (bs ++ [c]);
  lo_durable : forall b, b ∈ bs ++ [c] -> settled m (nx b);
  lo_used : forall b, b ∈ bs ++ [c] -> ~ free_block (fls st) true b
}.

Lemma log_ok_last st m h bs c : log_ok st m h bs c -> log_block c /\ cur m (nx c) = 0.
Proof using Type.
  lists_only.
  intros [_ _ _ Hc _ _ _]. revert h Hc. induction bs as [|b bs IH]; intros h; simpl; [tauto|].
  intros (_ & _ & Hc). by apply (IH (cur m (nx b))).
Qed.

(** The pages a step extends the log by. *)
Definition extension (h : nova_inode_info_header) : Z :=
  if EXTEND_THRESHOLD <=? log_pages h then EXTEND_THRESHOLD else log_pages h.

Lemma extend_run pi pic c x st m :
  mem_ok m -> log_ready sbi fuel (fls st) -> i_blk_type (sih st) = 0 ->
  log_block c -> 0 <= x < 4096 ->
  0 < log_pages (sih st) -> extension (sih st) <= Z.of_nat fuel ->
  exists r st' t,
    nova_extend_inode_log sbi fuel this_cpu pi pic (c * 4096 + x) st m = (Some (r, st'), t)
    /\ sih st' = sih st /\ log_ready sbi fuel (fls st')
    /\ (r = 0 /\ st' = st /\ t = []
        \/ exists b new t0, r = b * 4096 /\ t = t0 ++ link_acts sbi c (b * 4096) false
             /\ new_pages sbi (extension (sih st)) st m (b :: new) st' t0).
Proof.
  intros Hok Hr Hb0 Hc Hx Hlp Hfu. pose proof Hc as Hcr. unfold log_block in Hcr.
  unfold nova_extend_inode_log. rewrite (proj2 (Z.eqb_neq (c * 4096 + x) 0)) by lia.
  assert (Hnum : 0 < extension (sih st) < TWO31).
  { unfold extension. change EXTEND_THRESHOLD with 262144. case_match eqn:E; zbool; lia. }
  destruct (allocate_pages_run sbi G Hslab fuel this_cpu Hthis (extension (sih st)) ANY_CPU
    ALLOC_FROM_HEAD st m Hr Hb0 (or_introl eq_refl) Hnum Hfu Hok)
    as (r & st' & t & E & Hs & Hr' & Hres).
  destruct Hres as [(-> & -> & ->)|(b & new & -> & Hnp)].
  - exists 0, st, []. split_and!; auto. rewrite lbind_sih. fold (extension (sih st)).
    by eapply (lbind_run _ _ _ _ _ _ [] _ []); [exact E|].
  - exists (b * 4096), st', (t ++ link_acts sbi c (b * 4096) false). split_and!; try done.
    + rewrite lbind_sih. fold (extension (sih st)). eapply lbind_run; [exact E|]. cbv beta iota.
      rewrite Hnocsum, log_page_val by done. rewrite <- (app_nil_r (link_acts _ _ _ _)).
      by eapply lbind_run; [apply pm_run, set_next_run|].
    + right. by exists b, new, t.
Qed.

(** Old and new pages are different. *)
Lemma new_outside num st m bs st' t b :
  new_pages sbi num st m bs st' t -> ~ free_block (fls st) true b ->
  forall a, a ∈ tail_words b -> untouched a t.
Proof using Type.
  lists_only.
  intros Hnp Hb a Ha. apply (np_only _ _ _ _ _ _ _ Hnp). eapply outside_tail; [|exact Ha].
  intros Hin. by apply Hb, (pa_was_free _ _ _ (np_alloc _ _ _ _ _ _ _ Hnp)).
Qed.

Lemma nx_tail b : nx b ∈ tail_words b.
Proof using Type.
  lists_only. unfold InodeLogSpec.tail_words. set_solver. Qed.

Lemma nx_ne b c : b <> c -> nx b <> nx c.
Proof. unfold InodeLogSpec.nx, InodeLogSpec.base. lia. Qed.

(** A crash while the new pages are being prepared. *)
Lemma extend_crash_before num st m h bs c new st' t0 k s :
  log_ok st m h bs c -> new_pages sbi num st m new st' t0 ->
  crashed (exec (take k t0) m) s -> log_chain s h (bs ++ [c]).
Proof using Type.
  lists_only.
  intros Hlog Hnp Hs. eapply log_chain_ext; [|apply (lo_chain _ _ _ _ _ Hlog)].
  intros b Hb. assert (Hu : untouched (nx b) (take k t0)).
  { apply untouched_take. eapply new_outside; [exact Hnp| |apply nx_tail]. by apply Hlog. }
  rewrite (crashed_settled _ _ _ Hs); [by apply cur_untouched|].
  apply settled_untouched; [done|]. by apply Hlog.
Qed.

(** A crash while the link is being written, and the state behind it. *)
Lemma extend_linked num st m h bs c b new st' t0 g :
  log_ok st m h bs c -> new_pages sbi num st m (b :: new) st' t0 ->
  (forall x, x <> c -> x ∈ bs ++ b :: new -> g (nx x) = cur (exec t0 m) (nx x)) ->
  g (nx c) = b * 4096 -> log_chain g h ((bs ++ [c]) ++ b :: new).
Proof using Type.
  lists_only.
  intros Hlog Hnp Hg Hc. pose proof (lo_nodup _ _ _ _ _ Hlog) as (_ & Hd & _)%NoDup_app.
  assert (Hcn : c ∉ b :: new).
  { intros Hin. apply (lo_used _ _ _ _ _ Hlog c); [set_solver|].
    by apply (pa_was_free _ _ _ (np_alloc _ _ _ _ _ _ _ Hnp)). }
  eapply log_chain_link; [apply Hlog| |].
  - intros x Hx. assert (x <> c) by (intros ->; apply (Hd c Hx); set_solver).
    rewrite Hg by (done || set_solver). apply cur_untouched.
    eapply new_outside; [exact Hnp| |apply nx_tail]. apply (lo_used _ _ _ _ _ Hlog). set_solver.
  - rewrite Hc. change (b * 4096) with (head_off (b :: new)).
    eapply (log_chain_ext (cur (exec t0 m))).
    + intros x Hx. apply Hg; [|set_solver]. by intros ->.
    + apply log_chain_durable; [apply Hnp|apply Hnp].
Qed.

Lemma extend_crash num st m h bs c b new st' t0 fence k s :
  log_ok st m h bs c -> new_pages sbi num st m (b :: new) st' t0 ->
  crashed (exec (take k (t0 ++ link_acts sbi c (b * 4096) fence)) m) s ->
  log_chain s h (bs ++ [c]) \/ log_chain s h ((bs ++ [c]) ++ b :: new).
Proof using Type.
  lists_only.
  intros Hlog Hnp. rewrite take_app. set (L := take (k - length t0) _).
  destruct (decide (k <= length t0)%nat) as [Hk|Hk].
  { assert (L = []) as -> by (unfold L; by replace (k - length t0)%nat with 0%nat by lia).
    rewrite app_nil_r. intros Hs. left. by eapply extend_crash_before. }
  rewrite take_ge, exec_app by lia. intros Hs.
  assert (HL : forall a, a <> nx c -> untouched a L)
    by (intros; by apply untouched_take, link_acts_untouched).
  assert (Hset : forall x, x ∈ (bs ++ [c]) ++ b :: new -> settled (exec t0 m) (nx x)).
  { intros x [Hx|Hx]%elem_of_app.
    - apply settled_untouched; [|by apply Hlog].
      eapply new_outside; [exact Hnp| |apply nx_tail]. by apply Hlog.
    - pose proof (np_chain _ _ _ _ _ _ _ Hnp) as Hch.
      apply list_elem_of_split in Hx as (l1 & l2 & E). rewrite E in Hch.
      apply chained_app in Hch as [_ [[_ [? _]] _]]. done. }
  assert (Hsame : forall x, x <> c -> x ∈ (bs ++ [c]) ++ b :: new -> s (nx x) = cur (exec t0 m) (nx x)).
  { intros x Hne Hx. assert (Hu : untouched (nx x) L) by (by apply HL, nx_ne).
    rewrite (crashed_settled _ _ _ Hs); [by apply cur_untouched|].
    apply settled_untouched; [done|]. by apply Hset. }
  assert (Hcc : s (nx c) = cur m (nx c) \/ s (nx c) = b * 4096).
  { destruct (crashed_stored (nx c) L _ _ Hs) as [Hin|Hin].
    - rewrite (Hset c) in Hin by set_solver. apply list_elem_of_singleton in Hin. left.
      rewrite Hin. apply cur_untouched. eapply new_outside; [exact Hnp| |apply nx_tail].
      apply Hlog. set_solver.
    - right. assert (HLs : forall p, p ∈ L -> p ∈ link_acts sbi c (b * 4096) fence)
        by (intros p Hp; eapply elem_of_sublist; [exact Hp|apply sublist_take]).
      destruct Hin as [Hin|Hin]; apply HLs in Hin; unfold link_acts in Hin;
        destruct fence; set_solver. }
  destruct Hcc as [Hcc|Hcc]; [left|right].
  - eapply log_chain_ext; [|apply Hlog]. intros x Hx. destruct (decide (x = c)) as [->|Hne]; [done|].
    rewrite Hsame by (done || set_solver). apply cur_untouched.
    eapply new_outside; [exact Hnp| |apply nx_tail]. by apply Hlog.
  - eapply extend_linked; [done..| |done]. intros x Hne Hx. apply Hsame; [done|set_solver].
Qed.

Lemma append_one_run c x st m :
  mem_ok m -> log_ready sbi fuel (fls st) -> i_blk_type (sih st) = 0 ->
  log_block c -> 0 <= x < 4096 -> (0 < fuel)%nat ->
  exists r st' t,
    nova_append_one_log_page sbi fuel this_cpu (c * 4096 + x) st m = (Some (r, st'), t)
    /\ sih st' = sih st /\ log_ready sbi fuel (fls st')
    /\ (r = 0 /\ st' = st /\ t = []
        \/ exists b t0, r = c * 4096 + x /\ t = t0 ++ link_acts sbi c (b * 4096) true
             /\ new_pages sbi 1 st m [b] st' t0).
Proof.
  intros Hok Hr Hb0 Hc Hx Hfu. pose proof Hc as Hcr. unfold log_block in Hcr.
  destruct (allocate_pages_run sbi G Hslab fuel this_cpu Hthis 1 ANY_CPU
    ALLOC_FROM_HEAD st m Hr Hb0 (or_introl eq_refl)) as (r & st' & t & E & Hs & Hr' & Hres);
    [lia|lia|done|].
  unfold nova_append_one_log_page.
  destruct Hres as [(-> & -> & ->)|(b & new & -> & Hnp)].
  - exists 0, st, []. split_and!; auto.
    by eapply (lbind_run _ _ _ _ _ _ [] _ []); [exact E|].
  - pose proof (np_count _ _ _ _ _ _ _ Hnp) as Hlen. destruct new as [|? ?]; simpl in Hlen; [|lia].
    exists (c * 4096 + x), st', (t ++ link_acts sbi c (b * 4096) true). split_and!; try done.
    + eapply lbind_run; [exact E|]. cbv beta iota. simpl length.
      change (negb (Z.of_nat 1 =? 1)) with false. cbv iota.
      rewrite (proj2 (Z.eqb_neq _ 0)) by lia. rewrite log_page_val by done.
      rewrite <- (app_nil_r (link_acts _ _ _ _)). by eapply lbind_run; [apply pm_run, set_next_run|].
    + right. by exists b, t.
Qed.

Lemma last_entry_val c x size :
  0 <= x < 4096 -> 0 <= size <= 4064 ->
  is_last_entry (c * 4096 + x) size = negb (x + size <=? 4064).
Proof.
  intros Hx Hs. unfold is_last_entry. rewrite entry_loc, u32_small by lia.
  unfold LOG_BLOCK_TAIL. destruct (Z.leb_spec (x + size) 4064); simpl;
    [apply Z.ltb_ge|apply Z.ltb_lt]; lia.
Qed.

Lemma last_entry_start b size : 0 <= size <= 4064 -> is_last_entry (b * 4096) size = false.
Proof.
  intros Hs. rewrite <- (Z.add_0_r (b * 4096)), last_entry_val by lia.
  by rewrite (proj2 (Z.leb_le _ _)) by lia.
Qed.

(** The page after [c], already there or new. *)
Definition next_page_for (c : Z) (st : lstate) (m : mem) (b : Z) (st' : lstate) (m' : mem) : Prop :=
  log_block b /\ cur m' (nx c) = b * 4096
  /\ (cur m (nx c) = b * 4096 /\ st' = st
      \/ cur m (nx c) = 0
         /\ exists new, pages_allocated (fls st) (b :: new) (fls st')
              /\ log_chain (cur m') (b * 4096) (b :: new)).

(** New pages linked behind [c]. *)
Lemma linked_next num st m c b new st' t0 fence :
  new_pages sbi num st m (b :: new) st' t0 -> ~ free_block (fls st) true c -> cur m (nx c) = 0 ->
  next_page_for c st m b st' (exec (t0 ++ link_acts sbi c (b * 4096) fence) m).
Proof using Type.
  lists_only.
  intros Hnp Hc H0. pose proof (np_blocks _ _ _ _ _ _ _ Hnp) as Hb.
  assert (Hcn : c ∉ b :: new).
  { intros Hin. by apply Hc, (pa_was_free _ _ _ (np_alloc _ _ _ _ _ _ _ Hnp)). }
  rewrite exec_app. split_and!; [apply Hb; set_solver| |right].
  - unfold link_acts. change (exec (?p :: ?t) ?m) with (exec t (exec1 p m)).
    rewrite cur_untouched by (constructor; [done|]; destruct fence; repeat constructor; done).
    by rewrite cur_store, decide_True.
  - split; [done|]. exists new. split; [apply Hnp|].
    change (b * 4096) with (head_off (b :: new)) at 2. eapply (log_chain_ext (cur (exec t0 m))).
    + intros x Hx. apply cur_untouched, link_acts_untouched, nx_ne. by intros ->.
    + apply log_chain_durable; apply Hnp.
Qed.

(** No allocation writes to the entry at [x]. *)
Lemma linked_entry num st m c b new st' t0 fence x :
  new_pages sbi num st m (b :: new) st' t0 -> x < LOG_BLOCK_TAIL -> 0 <= x ->
  untouched (word_of (base c + x)) (t0 ++ link_acts sbi c (b * 4096) fence).
Proof.
  intros Hnp Hx Hx0. apply untouched_app. split.
  - apply (np_only _ _ _ _ _ _ _ Hnp). intros b' Hb' Ha.
    by eapply (entry_not_tail c x b'); [|exact Ha|].
  - apply link_acts_untouched. intros E. by eapply (entry_not_tail c x c); [|apply nx_tail|].
Qed.

(** ** The place of the next entry *)

(** Where the caller asks to append, in the main log. *)
Definition append_pos (h : nova_inode_info_header) (tail : Z) : Z :=
  if negb (tail =? 0) then tail else log_tail h.

Abbreviation append_head := (nova_get_append_head sbi fuel this_cpu).

Section append.
Context (pi : Z) (pic : option Z) (tail size c x : Z) (st : lstate) (m : mem).
Context (Hpos : append_pos (sih st) tail = c * 4096 + x).
Context (Hc : log_block c) (Hx : 0 <= x < 4096) (Hsize : 0 <= size <= 4064).

Lemma append_pos_nz : c * 4096 + x <> 0.
Proof. unfold log_block in Hc. lia. Qed.

Lemma append_head_fits gc :
  x + size <= 4064 ->
  append_head pi pic tail size MAIN_LOG gc st m = (Some ((c * 4096 + x, false), st), []).
Proof.
  intros Hfit. pose proof append_pos_nz as Hnz. unfold nova_get_append_head. rewrite lbind_sih.
  change (MAIN_LOG =? MAIN_LOG) with true. cbv iota. fold (append_pos (sih st) tail). rewrite Hpos.
  rewrite last_entry_val, (proj2 (Z.leb_le _ _)), (proj2 (Z.eqb_neq _ 0)) by done.
  cbn [negb orb andb]. rewrite !lbind_mret, (proj2 (Z.eqb_neq _ 0)) by done.
  by rewrite last_entry_val, (proj2 (Z.leb_le _ _)) by done.
Qed.

Lemma append_head_next b gc :
  4064 < x + size -> cur m (nx c) = b * 4096 -> log_block b ->
  exists t, append_head pi pic tail size MAIN_LOG gc st m = (Some ((b * 4096, false), st), t)
    /\ (forall b' a, a ∈ tail_words b' -> untouched a t)
    /\ (goto_next_page sbi (c * 4096 + x) (exec t m)).1 = true
    /\ (forall a, a <> word_of (base c + x) -> untouched a t).
Proof.
  intros Hfit Hn Hb. pose proof append_pos_nz as Hnz. unfold log_block in Hb.
  destruct (set_flag_run c x m Hc Hx) as (t & Et & Hu & Hut & Hg).
  exists t. split; [|split; [exact Hut|split; [apply (Hg []); intros; constructor|exact Hu]]].
  unfold nova_get_append_head. rewrite lbind_sih.
  change (MAIN_LOG =? MAIN_LOG) with true. cbv iota. fold (append_pos (sih st) tail). rewrite Hpos.
  rewrite last_entry_val, (proj2 (Z.leb_gt _ _)), (proj2 (Z.eqb_neq _ 0)) by done.
  cbn [negb orb andb].
  eapply (lbind_run _ _ _ _ _ _ [] _ t); [apply pm_run; by apply next_page_run|]. simpl exec.
  rewrite Hn, (proj2 (Z.eqb_neq (b * 4096) 0)) by lia. rewrite lbind_mret.
  rewrite (proj2 (Z.eqb_neq _ 0)), last_entry_val, (proj2 (Z.leb_gt _ _)) by done.
  rewrite <- (app_nil_r t).
  eapply lbind_run; [by apply pm_run|]. eapply (lbind_run _ _ _ _ _ _ [] _ []).
  - apply pm_run. by apply next_page_run.
  - rewrite cur_untouched by (by apply (Hut c), nx_tail). by rewrite Hn.
Qed.

Lemma append_head_extend :
  4064 < x + size -> cur m (nx c) = 0 -> ~ free_block (fls st) true c ->
  mem_ok m -> log_ready sbi fuel (fls st) -> i_blk_type (sih st) = 0 ->
  0 < log_pages (sih st) -> extension (sih st) <= Z.of_nat fuel ->
  exists p st' t, append_head pi pic tail size MAIN_LOG false st m = (Some ((p, false), st'), t)
    /\ sih st' = sih st
    /\ (p = 0 /\ st' = st /\ (forall b' a, a ∈ tail_words b' -> untouched a t)
        \/ (exists b, p = b * 4096 /\ next_page_for c st m b st' (exec t m))
           /\ (goto_next_page sbi (c * 4096 + x) (exec t m)).1 = true)
    /\ log_ready sbi fuel (fls st')
    /\ (forall a, a <> word_of (base c + x) ->
        (forall b', a ∈ tail_words b' -> b' <> c /\ ~ free_block (fls st) true b') -> untouched a t).
Proof.
  intros Hfit Hn Hused Hok Hr Hb0 Hlp Hfu. pose proof append_pos_nz as Hnz.
  destruct (set_flag_run c x m Hc Hx) as (t1 & Et & Hu1 & Hut & Hg).
  destruct (extend_run pi pic c x st (exec t1 m)) as (r & st' & t2 & E2 & Hs & Hr' & Hres); try done;
    [by apply mem_ok_exec|].
  assert (Hn1 : cur (exec t1 m) (nx c) = 0) by (rewrite cur_untouched; [done|by apply (Hut c), nx_tail]).
  exists r, st', (t1 ++ t2). split_and!; [|done| |done|].
  - unfold nova_get_append_head. rewrite lbind_sih.
    change (MAIN_LOG =? MAIN_LOG) with true. cbv iota. fold (append_pos (sih st) tail). rewrite Hpos.
    rewrite last_entry_val, (proj2 (Z.leb_gt _ _)), (proj2 (Z.eqb_neq _ 0)) by done.
    cbn [negb orb andb].
    eapply (lbind_run _ _ _ _ _ _ [] _ (t1 ++ t2)); [apply pm_run; by apply next_page_run|]. simpl exec.
    rewrite Hn. change (0 =? 0) with true. cbv iota.
    rewrite <- (app_nil_r (t1 ++ t2)). eapply (lbind_run _ _ _ _ (r, false) st').
    + eapply lbind_run; [by apply pm_run|]. rewrite <- (app_nil_r t2).
      by eapply lbind_run; [exact E2|].
    + cbv beta iota. destruct Hres as [(-> & _)|(b & new & t0 & -> & _ & Hnp)]; [done|].
      pose proof (np_blocks _ _ _ _ _ _ _ Hnp b ltac:(set_solver)) as Hbb. unfold log_block in Hbb.
      rewrite (proj2 (Z.eqb_neq _ 0)) by lia. by rewrite last_entry_start.
  - destruct Hres as [(-> & -> & ->)|(b & new & t0 & -> & -> & Hnp)]; [left|right].
    + rewrite app_nil_r. done.
    + rewrite exec_app. split.
      * exists b. split; [done|].
        destruct (linked_next _ _ _ c _ _ _ _ false Hnp Hused Hn1) as (? & ? & Hor).
        split_and!; [done..|]. rewrite Hn1 in Hor. rewrite Hn.
        destruct Hor as [?|Hor]; [by left|by right].
      * apply Hg. intros Hxt. by eapply linked_entry; [exact Hnp|done|lia].
  - intros a Ha Hnt. apply untouched_app. split; [by apply Hu1|].
    destruct Hres as [(_ & _ & ->)|(b & new & t0 & _ & -> & Hnp)]; [constructor|].
    apply untouched_app. split.
    + apply (np_only _ _ _ _ _ _ _ Hnp). intros b' Hb' [_ Hf]%Hnt.
      by apply Hf, (pa_was_free _ _ _ (np_alloc _ _ _ _ _ _ _ Hnp)).
    + apply link_acts_untouched. intros ->. by destruct (Hnt c (nx_tail c)).
Qed.

Lemma append_head_append_one :
  4064 < x + size -> cur m (nx c) = 0 -> ~ free_block (fls st) true c ->
  mem_ok m -> log_ready sbi fuel (fls st) -> i_blk_type (sih st) = 0 -> (0 < fuel)%nat ->
  exists p st' t, append_head pi pic tail size MAIN_LOG true st m = (Some ((p, true), st'), t)
    /\ sih st' = sih st
    /\ (p = 0 /\ st' = st /\ (forall b' a, a ∈ tail_words b' -> untouched a t)
        \/ (exists b, p = b * 4096 /\ next_page_for c st m b st' (exec t m))
           /\ (goto_next_page sbi (c * 4096 + x) (exec t m)).1 = true).
Proof.
  intros Hfit Hn Hused Hok Hr Hb0 Hfu. pose proof append_pos_nz as Hnz.
  destruct (set_flag_run c x m Hc Hx) as (t1 & Et & _ & Hut & Hg).
  destruct (append_one_run c x st (exec t1 m)) as (r & st' & t2 & E2 & Hs & _ & Hres); try done;
    [by apply mem_ok_exec|].
  assert (Hn1 : cur (exec t1 m) (nx c) = 0) by (rewrite cur_untouched; [done|by apply (Hut c), nx_tail]).
  destruct (set_flag_run c x (exec (t1 ++ t2) m) Hc Hx) as (t3 & Et3 & _ & Hut3 & Hg3).
  assert (Hpre : forall p t',
    (if r =? 0 then mret (0, true) else
       if is_last_entry r size then
         pm (nova_set_next_page_flag sbi r);; next ← pm (next_log_page sbi r); mret (next, true)
       else mret (r, true)) st' (exec (t1 ++ t2) m) = (Some (p, st'), t') ->
    append_head pi pic tail size MAIN_LOG true st m = (Some (p, st'), (t1 ++ t2) ++ t')).
  { intros p t' Hrest. unfold nova_get_append_head. rewrite lbind_sih.
    change (MAIN_LOG =? MAIN_LOG) with true. cbv iota. fold (append_pos (sih st) tail). rewrite Hpos.
    rewrite last_entry_val, (proj2 (Z.leb_gt _ _)), (proj2 (Z.eqb_neq _ 0)) by done.
    cbn [negb orb andb].
    eapply (lbind_run _ _ _ _ _ _ [] _ ((t1 ++ t2) ++ t')); [apply pm_run; by apply next_page_run|].
    simpl exec. rewrite Hn. change (0 =? 0) with true. cbv iota.
    eapply (lbind_run _ _ _ _ (r, true) st'); [|exact Hrest].
    eapply lbind_run; [by apply pm_run|]. rewrite <- (app_nil_r t2).
    by eapply lbind_run; [exact E2|]. }
  destruct Hres as [(-> & -> & ->)|(b & t0 & -> & -> & Hnp)].
  - exists 0, st, ((t1 ++ []) ++ []). split; [by apply Hpre|]. split; [done|]. left. by rewrite !app_nil_r.
  - set (t2 := t0 ++ link_acts sbi c (b * 4096) true) in *.
    destruct (linked_next _ _ _ c _ _ _ _ true Hnp Hused Hn1) as (Hbb & Hl & Hor). fold t2 in Hl, Hor.
    assert (Hu3 : forall y, untouched (nx y) t3) by (intros y; apply (Hut3 y), nx_tail).
    exists (b * 4096), st', ((t1 ++ t2) ++ t3). split; [|split; [done|right]].
    + apply Hpre. rewrite (proj2 (Z.eqb_neq _ 0)) by done.
      rewrite last_entry_val, (proj2 (Z.leb_gt _ _)) by done. cbn [negb].
      rewrite <- (app_nil_r t3). eapply lbind_run; [by apply pm_run|].
      eapply (lbind_run _ _ _ _ _ _ [] _ []); [apply pm_run; by apply next_page_run|].
      rewrite cur_untouched by done. rewrite exec_app, Hl. done.
    + rewrite (exec_app (t1 ++ t2)). split; [|by apply (Hg3 []); intros; constructor].
      exists b. split; [done|]. unfold next_page_for. rewrite cur_untouched by done.
      rewrite exec_app. split_and!; [done..|]. right. rewrite Hn1 in Hor.
      destruct Hor as [[Hz _]|(_ & new & Hpa & Hch)]; [unfold log_block in Hbb; lia|].
      split; [done|]. exists new. split; [done|]. eapply log_chain_ext; [|exact Hch].
      intros y _. by apply cur_untouched.
Qed.
End append.

(** ** Freeing a log *)

(** [bs] have become free. *)
Record freed_pages (ls : list free_list) (bs : list Z) (ls' : list free_list) : Prop := {
  fp_wf : lists_wf sbi ls';
  fp_free : forall meta x, free_block ls' meta x
    <-> free_block ls meta x \/ (meta = true /\ x ∈ bs);
  fp_frame : forall i x, in_list ls true i x -> in_list ls' true i x
}.

(** Pages in use, each in the range of a list; a run of neighbouring pages does
    not cross the border between two CPUs. *)
Record freeable (ls : list free_list) (bs : list Z) : Prop := {
  fb_wf : lists_wf sbi ls;
  fb_nodup : NoDup bs;
  fb_block : forall b, b ∈ bs -> log_block b;
  fb_used : forall b, b ∈ bs -> ~ free_block ls true b;
  fb_list : forall b, b ∈ bs -> exists i, in_list ls true i b;
  fb_border : forall b i, b ∈ bs -> b + 1 ∈ bs -> in_list ls true i b -> in_list ls true i (b + 1)
}.

Lemma freed_pages_nil ls : lists_wf sbi ls -> freed_pages ls [] ls.
Proof using Type.
  lists_only. intros Hw. split; [done| |done]. intros meta x. rewrite elem_of_nil. tauto. Qed.

Lemma freed_pages_app ls bs1 ls1 bs2 ls2 :
  freed_pages ls bs1 ls1 -> freed_pages ls1 bs2 ls2 -> freed_pages ls (bs1 ++ bs2) ls2.
Proof using Type.
  lists_only.
  intros H1 H2. split; [apply H2| |].
  - intros meta x. rewrite (fp_free _ _ _ H2), (fp_free _ _ _ H1), elem_of_app. tauto.
  - intros i x Hx. by apply H2, H1.
Qed.

Lemma freeable_rest ls bs1 ls1 bs2 :
  freeable ls (bs1 ++ bs2) -> freed_pages ls bs1 ls1 -> freeable ls1 bs2.
Proof using Type.
  lists_only.
  intros Hf H1. pose proof (fb_nodup _ _ Hf) as (_ & Hd & Hn)%NoDup_app.
  split; [apply H1|done|intros; apply (fb_block _ _ Hf); set_solver| | |].
  - intros b Hb. rewrite (fp_free _ _ _ H1). intros [Hx|[_ Hx]]; [|by apply (Hd b)].
    apply (fb_used _ _ Hf b); set_solver.
  - intros b Hb. destruct (fb_list _ _ Hf b) as [i Hi]; [set_solver|]. exists i. by apply H1.
  - intros b i Hb Hb1 Hi. destruct (fb_list _ _ Hf b) as [j Hj]; [set_solver|].
    assert (Hij : i = j).
    { assert (Hj' : in_list ls1 true j b) by (by apply H1). pose proof (fp_wf _ _ _ H1) as Hw.
      destruct (cpu_of_block _ _ _ _ _ Hw Hi), (cpu_of_block _ _ _ _ _ Hw Hj'). lia. }
    subst j. apply H1. apply (fb_border _ _ Hf); [set_solver..|done].
Qed.

Lemma freeable_perm ls bs bs' : bs ≡ₚ bs' -> freeable ls bs -> freeable ls bs'.
Proof using Type.
  lists_only.
  intros Hp []. split; [done|by rewrite <- Hp| | | |]; setoid_rewrite <- Hp; done.
Qed.

Lemma run_one_list ls bs start n i :
  freeable ls bs -> (forall b, b ∈ run start (S n) -> b ∈ bs) ->
  in_list ls true i start -> in_list ls true i (start + Z.of_nat n).
Proof using Type.
  lists_only.
  intros Hf. revert start. induction n as [|n IH]; intros start Hsub Hi; [by rewrite Z.add_0_r|].
  replace (start + Z.of_nat (S n)) with (start + 1 + Z.of_nat n) by lia. apply IH.
  - intros b Hb. apply Hsub. rewrite elem_run in *. lia.
  - apply (fb_border _ _ Hf); [| |done]; apply Hsub; rewrite elem_run; lia.
Qed.

Lemma free_run_pages start n rest st m :
  i_blk_type (sih st) = 0 -> freeable (fls st) (run start (S n) ++ rest) ->
  exists st', free_log_blocks sbi start (Z.of_nat (S n)) st m = (Some (0, st'), [])
    /\ sih st' = sih st /\ freed_pages (fls st) (run start (S n)) (fls st').
Proof using G Hslab KML RBL.
  clear Hthis Hnocsum.
  intros Hb0 Hf.
  assert (Hst : start ∈ run start (S n) ++ rest) by (cbn [run]; set_solver).
  destruct (fb_list _ _ Hf start Hst) as [i Hi]. pose proof (fb_block _ _ Hf start Hst) as Hsb.
  unfold log_block in Hsb.
  destruct (free_blocks_spec sbi (fls st) true i start (Z.of_nat (S n)) 0) as (ls' & E & Hw & Hfr & _ & Hframe);
    [apply Hf|done|lia|done| | |].
  - change (nova_get_numblocks 0) with 1.
    replace (start + 1 * Z.of_nat (S n) - 1) with (start + Z.of_nat n) by lia.
    eapply run_one_list; [exact Hf|set_solver|done].
  - intros x Hx. apply (fb_used _ _ Hf). apply elem_of_app. left. apply elem_run.
    change (nova_get_numblocks 0) with 1 in Hx. lia.
  - exists (LState ls' (sih st)). split_and!; [|done|].
    + unfold free_log_blocks, nova_free_log_blocks. rewrite Hb0, (proj2 (Z.eqb_neq start 0)) by lia.
      by rewrite E.
    + split; [done| |by intros; apply Hframe]. intros meta x. simpl fls.
      rewrite Hfr, elem_run. change (nova_get_numblocks 0) with 1. rewrite Z.mul_1_l. tauto.
Qed.

(** The run of pages not handed to the allocator yet; [start = 0]: none. *)
Definition pending (start num : Z) : Prop :=
  (start = 0 /\ num = 0) \/ (0 < start /\ 0 < num).

Lemma free_loop_run rounds bs curr start num freed st m :
  i_blk_type (sih st) = 0 -> pending start num -> 0 <= freed ->
  freed + num + Z.of_nat (length bs) < TWO31 ->
  freeable (fls st) (run start (Z.to_nat num) ++ bs) ->
  log_chain (cur m) curr bs -> (length bs <= rounds)%nat ->
  exists start' num' gone st1,
    free_chain_loop sbi rounds curr start num freed st m
      = (Some ((start', num', freed + Z.of_nat (length gone)), st1), [])
    /\ sih st1 = sih st /\ pending start' num'
    /\ run start (Z.to_nat num) ++ bs ≡ₚ gone ++ run start' (Z.to_nat num')
    /\ freed_pages (fls st) gone (fls st1).
Proof using G Hslab KML RBL.
  clear Hthis Hnocsum.
  revert rounds curr start num freed st.
  induction bs as [|b bs IH]; intros rounds curr start num freed st Hb0 Hp Hfr Hmax Hf Hc Hr.
  { simpl in Hc. subst curr. exists start, num, [], st. rewrite app_nil_r in *.
    split_and!; try done; [|apply freed_pages_nil; apply Hf].
    rewrite Z.add_0_r. by destruct rounds. }
  destruct rounds as [|rounds]; simpl in Hr, Hmax; [lia|]. destruct Hc as (-> & Hbb & Hc).
  pose proof Hbb as Hbr. unfold log_block in Hbr.
  assert (Hstep : forall s' n' f' st' res,
    free_chain_loop sbi rounds (cur m (nx b)) s' n' f' st' m = (res, []) ->
    (if start =? 0 then st' = st /\ s' = b /\ n' = 1 /\ f' = freed
     else if b =? u64 (start + num) then st' = st /\ s' = start /\ n' = s32 (num + 1) /\ f' = freed
     else free_log_blocks sbi start num st m = (Some (0, st'), [])
          /\ s' = b /\ n' = 1 /\ f' = s32 (freed + num)) ->
    free_chain_loop sbi (S rounds) (b * 4096) start num freed st m = (res, [])).
  { intros s' n' f' st' res Hloop Hcase. cbn [free_chain_loop].
    rewrite (proj2 (Z.ltb_lt 0 (b * 4096))) by lia. rewrite entry_loc_page, blocknr_page. simpl negb.
    change (0 =? 0) with true. cbn [negb orb]. cbv iota.
    eapply (lbind_run _ _ _ _ _ _ [] _ []); [apply pm_run; by apply next_page_start|]. simpl exec.
    destruct (start =? 0); [by destruct Hcase as (-> & -> & -> & ->)|].
    destruct (b =? u64 (start + num)); [by destruct Hcase as (-> & -> & -> & ->)|].
    destruct Hcase as (Hfree & -> & -> & ->).
    by eapply (lbind_run _ _ _ _ _ _ [] _ []); [exact Hfree|]. }
  destruct Hp as [[-> ->]|[Hs Hn]].
  - destruct (IH rounds (cur m (nx b)) b 1 freed st) as (s' & n' & gone & st1 & E & H); try done; try lia.
    { right. lia. }
    exists s', n', gone, st1. split; [|exact H]. eapply Hstep; [exact E|done].
  - rewrite (proj2 (Z.eqb_neq start 0)) in Hstep by lia.
    assert (Hlast : log_block (start + num - 1)).
    { apply (fb_block _ _ Hf), elem_of_app. left. rewrite elem_run. lia. }
    unfold log_block in Hlast. rewrite u64_small in Hstep by lia.
    destruct (Z.eqb_spec b (start + num)) as [->|Hne].
    + rewrite s32_small in Hstep by lia.
      assert (Eb : run start (Z.to_nat num) ++ (start + num) :: bs
                   = run start (Z.to_nat (num + 1)) ++ bs).
      { replace (Z.to_nat (num + 1)) with (S (Z.to_nat num)) by lia.
        rewrite run_snoc, <- app_assoc. simpl. do 2 f_equal. lia. }
      rewrite Eb in *.
      destruct (IH rounds (cur m (nx (start + num))) start (num + 1) freed st)
        as (s' & n' & gone & st1 & E & H); try done; try lia.
      { right. lia. }
      exists s', n', gone, st1. split; [|exact H]. eapply Hstep; [exact E|done].
    + destruct (Z.to_nat num) as [|n] eqn:En; [lia|]. replace num with (Z.of_nat (S n)) in * by lia.
      destruct (free_run_pages start n (b :: bs) st m Hb0 Hf) as (st1 & Efree & Hs1 & Hfp).
      rewrite s32_small in Hstep by lia.
      destruct (IH rounds (cur m (nx b)) b 1 (freed + Z.of_nat (S n)) st1)
        as (s' & n' & gone & st2 & E & Hs2 & Hp2 & Hperm & Hfp2); try done; try lia.
      * by rewrite Hs1.
      * right. lia.
      * by eapply freeable_rest.
      * exists s', n', (run start (S n) ++ gone), st2. split_and!.
        -- rewrite length_app, length_run, Nat2Z.inj_add, Z.add_assoc. eapply Hstep; [exact E|done].
        -- by rewrite Hs2.
        -- done.
        -- rewrite <- app_assoc. by apply Permutation_app_head.
        -- by eapply freed_pages_app.
Qed.

Lemma free_contiguous_run bs h st m :
  i_blk_type (sih st) = 0 -> freeable (fls st) bs -> log_chain (cur m) h bs ->
  (length bs <= fuel)%nat -> Z.of_nat (length bs) < TWO31 ->
  exists st', nova_free_contiguous_log_blocks sbi fuel h st m
              = (Some (Z.of_nat (length bs), st'), [])
    /\ sih st' = sih st /\ freed_pages (fls st) bs (fls st').
Proof using G Hslab KML RBL.
  clear Hthis Hnocsum.
  intros Hb0 Hf Hc Hfu Hmax.
  destruct (free_loop_run fuel bs h 0 0 0 st m) as (s & n & gone & st1 & E & Hs & Hp & Hperm & Hfp);
    try done; [by left|].
  change (run 0 (Z.to_nat 0) ++ bs) with bs in Hperm. unfold nova_free_contiguous_log_blocks.
  pose proof (Permutation_length Hperm) as Hlen. rewrite length_app, length_run in Hlen.
  destruct Hp as [[-> ->]|[Hs0 Hn0]].
  - rewrite app_nil_r in Hperm. exists st1. split_and!; [|done|].
    + eapply (lbind_run _ _ _ _ _ _ [] _ []); [exact E|]. cbn. rewrite Hlen. by rewrite Nat.add_0_r.
    + split; [apply Hfp| |apply Hfp]. intros meta x. by rewrite (fp_free _ _ _ Hfp), <- Hperm.
  - destruct (Z.to_nat n) as [|k] eqn:En; [lia|]. replace n with (Z.of_nat (S k)) in * by lia.
    destruct (free_run_pages s k [] st1 m) as (st2 & E2 & Hs2 & Hfp2).
    + by rewrite Hs.
    + rewrite app_nil_r. eapply freeable_rest; [|exact Hfp]. by eapply freeable_perm.
    + exists st2. split_and!; [|by rewrite Hs2|].
      * eapply (lbind_run _ _ _ _ _ _ [] _ []); [exact E|]. cbv beta iota.
        rewrite (proj2 (Z.eqb_neq s 0)) by lia. cbn [negb].
        eapply (lbind_run _ _ _ _ _ _ [] _ []); [exact E2|]. simpl exec.
        rewrite s32_small by lia. replace (0 + Z.of_nat (length gone) + Z.of_nat (S k))
          with (Z.of_nat (length bs)) by lia. done.
      * pose proof (freed_pages_app _ _ _ _ _ Hfp Hfp2) as H.
        split; [apply H| |apply H]. intros meta x. by rewrite (fp_free _ _ _ H), <- Hperm.
Qed.

(** ** The first page of a log *)

(** The stores and flushes of [nova_init_pi_log], main log. *)
Definition init_acts (pi v : Z) : list pact :=
  Store (pi + off_log_tail) v :: Store (pi + off_log_head) v ::
  flush_acts (pi + off_log_tail) CACHELINE_SIZE ++ flush_acts (pi + off_log_head) CACHELINE_SIZE
  ++ [Fence] ++ flush_acts pi SIZEOF_NOVA_INODE ++ [Fence].

Lemma init_pi_log_run pi v st m :
  nova_init_pi_log pi MAIN_LOG v st m
  = (Some ((), LState (fls st) (set_log v (sih st))), init_acts pi v).
Proof.
  unfold nova_init_pi_log. change (MAIN_LOG =? MAIN_LOG) with true. cbv iota.
  assert (E : forall m, (store64 (pi + off_log_tail) v;; store64 (pi + off_log_head) v;;
     nova_flush_buffer (pi + off_log_tail) CACHELINE_SIZE false;;
     nova_flush_buffer (pi + off_log_head) CACHELINE_SIZE true) m
     = ((), Store (pi + off_log_tail) v :: Store (pi + off_log_head) v ::
          flush_acts (pi + off_log_tail) CACHELINE_SIZE
          ++ flush_acts (pi + off_log_head) CACHELINE_SIZE ++ [Fence])).
  { intros m'. do 2 apply bind_store. eapply bind_run; [apply flush_only_run|]. apply flush_fence_run. }
  unfold init_acts. rewrite !app_comm_cons, !app_assoc. rewrite <- app_assoc.
  eapply lbind_run.
  - rewrite <- (app_nil_r (_ ++ [Fence])). eapply lbind_run; [apply pm_run; rewrite E|done].
    simpl. by rewrite <- app_assoc.
  - apply pm_run. unfold nova_update_inode_checksum. rewrite Hnocsum. cbn [negb].
    rewrite bind_mret. apply flush_fence_run.
Qed.

Lemma init_acts_untouched pi v a :
  a <> pi + off_log_tail -> a <> pi + off_log_head -> untouched a (init_acts pi v).
Proof.
  intros. unfold init_acts. constructor; [simpl; congruence|]. constructor; [simpl; congruence|].
  fold (untouched a (flush_acts (pi + off_log_tail) CACHELINE_SIZE
    ++ flush_acts (pi + off_log_head) CACHELINE_SIZE ++ [Fence] ++ flush_acts pi SIZEOF_NOVA_INODE ++ [Fence])).
  rewrite !untouched_app. split_and!; try apply flush_acts_untouched; by repeat constructor.
Qed.

Lemma init_acts_durable pi v m a :
  mem_ok m -> 0 <= pi -> pi mod 8 = 0 -> a = pi + off_log_tail \/ a = pi + off_log_head ->
  cur (exec (init_acts pi v) m) a = v /\ settled (exec (init_acts pi v) m) a.
Proof.
  intros Hok Hpi Hal Ha. unfold init_acts.
  change (exec (?p :: ?q :: ?t) m) with (exec t (exec1 q (exec1 p m))).
  set (m2 := exec1 _ (exec1 _ m)). assert (Hok2 : mem_ok m2) by (by repeat apply mem_ok_exec1).
  set (F := flush_acts (pi + off_log_tail) CACHELINE_SIZE ++ flush_acts (pi + off_log_head) CACHELINE_SIZE).
  assert (Hu : untouched a (F ++ [Fence])).
  { rewrite untouched_app. unfold F. rewrite untouched_app.
    split_and!; try apply flush_acts_untouched. by repeat constructor. }
  change (flush_acts (pi + off_log_tail) CACHELINE_SIZE ++ flush_acts (pi + off_log_head) CACHELINE_SIZE
    ++ [Fence] ++ flush_acts pi SIZEOF_NOVA_INODE ++ [Fence])
    with (flush_acts (pi + off_log_tail) CACHELINE_SIZE ++ flush_acts (pi + off_log_head) CACHELINE_SIZE
    ++ ([Fence] ++ (flush_acts pi SIZEOF_NOVA_INODE ++ [Fence]))).
  rewrite (app_assoc _ _ ([Fence] ++ _)). fold F. rewrite app_assoc, exec_app.
  assert (Hu2 : untouched a (flush_acts pi SIZEOF_NOVA_INODE ++ [Fence])).
  { rewrite untouched_app. split; [apply flush_acts_untouched|by repeat constructor]. }
  assert (Hm8 : a mod 8 = 0).
  { unfold off_log_tail, off_log_head in Ha.
    destruct Ha as [->| ->]; rewrite Z.add_mod, Hal by lia; done. }
  split.
  - rewrite !cur_untouched by done. unfold m2. rewrite !cur_store.
    unfold off_log_tail, off_log_head in *. destruct Ha as [->| ->]; repeat case_decide; lia || done.
  - apply settled_untouched; [done|]. unfold F. rewrite <- app_assoc.
    unfold off_log_tail, off_log_head, CACHELINE_SIZE in *.
    destruct Ha as [->| ->].
    + apply flush_fence_settled; try done; try lia; [apply flush_acts_untouched|constructor].
    + rewrite exec_app. apply (flush_fence_settled (pi + 64) 64 _ [] []); try done; try lia;
        [by apply mem_ok_exec|constructor..].
Qed.

Lemma init_acts_stores pi v a x :
  Store a x ∈ init_acts pi v \/ StoreNt a x ∈ init_acts pi v -> x = v.
Proof.
  assert (Hno : forall buf len p, p ∈ flush_acts buf len -> stores_to p <> Some a).
  { intros buf len p Hp. pose proof (flush_acts_untouched buf len a) as Hu.
    unfold untouched in Hu. rewrite Forall_forall in Hu. by apply Hu. }
  unfold init_acts. rewrite !elem_of_cons, !elem_of_app, !list_elem_of_singleton.
  intros [Hin|Hin]; destruct Hin as [Hin|[Hin|[Hin|[Hin|[Hin|[Hin|Hin]]]]]];
    by simplify_eq || by apply Hno in Hin.
Qed.

(** A crash while the first page of a log is prepared and published. *)
Lemma first_page_crash st m st' t pi b k s :
  new_pages sbi 1 st m [b] st' t -> settled m (pi + off_log_head) ->
  pi + off_log_head ∉ tail_words b -> pi + off_log_tail ∉ tail_words b ->
  crashed (exec (take k (t ++ init_acts pi (b * 4096))) m) s ->
  s (pi + off_log_head) = cur m (pi + off_log_head)
  \/ log_chain s (s (pi + off_log_head)) [b].
Proof.
  intros Hnp Hset Ho1 Ho2. rewrite take_app. set (I := take (k - length t) _).
  assert (Hut : untouched (pi + off_log_head) t).
  { apply (np_only _ _ _ _ _ _ _ Hnp). intros b' Hb'. by apply list_elem_of_singleton in Hb' as ->. }
  destruct (decide (k <= length t)%nat) as [Hk|Hk].
  { assert (I = []) as -> by (unfold I; by replace (k - length t)%nat with 0%nat by lia).
    rewrite app_nil_r. intros Hs'. left. assert (Hut' := untouched_take _ k _ Hut).
    rewrite (crashed_settled _ _ _ Hs'); [by apply cur_untouched|by apply settled_untouched]. }
  rewrite take_ge, exec_app by lia. intros Hs'.
  destruct (crashed_stored (pi + off_log_head) I _ _ Hs') as [Hin|Hin].
  - left. rewrite (settled_untouched _ _ _ Hut Hset) in Hin. apply list_elem_of_singleton in Hin.
    rewrite Hin. by apply cur_untouched.
  - right. assert (HI : forall q, q ∈ I -> q ∈ init_acts pi (b * 4096))
      by (intros q Hq; eapply elem_of_sublist; [exact Hq|apply sublist_take]).
    assert (s (pi + off_log_head) = b * 4096) as ->
      by (apply (init_acts_stores pi _ (pi + off_log_head)); destruct Hin as [Hin|Hin]; auto).
    assert (Hun : untouched (nx b) I).
    { apply untouched_take, init_acts_untouched; intros Ex;
        [apply Ho2|apply Ho1]; rewrite <- Ex; apply nx_tail. }
    destruct (np_chain _ _ _ _ _ _ _ Hnp) as [[_ [Hnset Hnv]] _].
    simpl. split_and!; [done|apply Hnp; set_solver|].
    rewrite (crashed_settled _ _ _ Hs'); [by rewrite cur_untouched|by apply settled_untouched].
Qed.

(** The words of the inode [nova_free_inode_log] clears. *)
Definition log_pointers (pi : Z) : list Z :=
  [pi + off_log_tail; pi + off_log_head; pi + off_alter_log_tail; pi + off_alter_log_head].

Lemma free_inode_log_run pi bs st m :
  i_blk_type (sih st) = 0 -> freeable (fls st) bs ->
  log_chain (cur m) (log_head (sih st)) bs -> log_head (sih st) <> 0 -> log_tail (sih st) <> 0 ->
  (length bs <= fuel)%nat -> Z.of_nat (length bs) < TWO31 ->
  (forall b a, b ∈ bs -> a ∈ log_pointers pi -> a ∉ tail_words b) ->
  exists st', nova_free_inode_log sbi fuel (Some pi) st m
              = (Some (0, st'), (fun a => Store a 0) <$> log_pointers pi)
    /\ sih st' = sih st /\ freed_pages (fls st) bs (fls st').
Proof using G Hslab KML RBL Hnocsum.
  clear Hthis.
  intros Hb0 Hf Hc Hh Ht Hfu Hmax Hout. set (T := (fun a => Store a 0) <$> log_pointers pi).
  assert (HuT : forall a, a ∉ log_pointers pi -> untouched a T).
  { intros a Ha. unfold T, log_pointers in *. simpl. repeat constructor; simpl; set_solver. }
  destruct (free_contiguous_run bs (log_head (sih st)) st (exec T m)) as (st' & E & Hs & Hfp); try done.
  { eapply log_chain_ext; [|exact Hc]. intros b Hb. apply cur_untouched, HuT.
    intros Ha. by apply (Hout b _ Hb Ha), nx_tail. }
  exists st'. split_and!; try done. unfold nova_free_inode_log. rewrite lbind_sih.
  rewrite !(proj2 (Z.eqb_neq _ 0)) by done. cbn [orb]. rewrite <- (app_nil_r T).
  eapply (lbind_run _ _ _ _ () st).
  - apply pm_run. unfold T, log_pointers. simpl. do 4 apply bind_store.
    unfold nova_update_inode_checksum. by rewrite Hnocsum.
  - eapply (lbind_run _ _ _ _ _ _ [] _ []); [exact E|].
    rewrite Hnocsum. by rewrite lbind_mret.
Qed.

(** ** Allocated pages can be freed *)

(** The ranges of two CPUs do not touch. *)
Definition apart (ls : list free_list) : Prop :=
  forall b i j, in_list ls true i b -> in_list ls true j (b + 1) -> i = j.

Lemma free_in_list ls meta b :
  lists_wf sbi ls -> free_block ls meta b -> exists i, in_list ls meta i b.
Proof using Type.
  intros Hw (i & fl & Hi & Hf). exists i, fl. split; [done|].
  destruct (lw_list _ _ Hw _ _ meta Hi) as [Hl _]. by eapply is_free_bounds.
Qed.

Lemma same_cpu ls meta i j b :
  lists_wf sbi ls -> in_list ls meta i b -> in_list ls meta j b -> i = j.
Proof using Type.
  intros Hw Hi Hj.
  destruct (cpu_of_block _ _ _ _ _ Hw Hi), (cpu_of_block _ _ _ _ _ Hw Hj). lia.
Qed.

Lemma allocated_freeable ls bs ls' :
  log_ready sbi fuel ls -> apart ls -> pages_allocated ls bs ls' -> lists_wf sbi ls' ->
  freeable ls' bs.
Proof using Type.
  lists_only. intros Hr Hap Hpa Hw'. pose proof (lr_wf _ _ _ Hr) as Hw.
  assert (Hin : forall b, b ∈ bs -> exists i, in_list ls true i b)
    by (intros b Hb; eapply free_in_list; [done|by apply (pa_was_free _ _ _ Hpa)]).
  split; [done|apply Hpa| | | |].
  - intros b Hb. eapply ready_block; [exact Hr|]. by apply (pa_was_free _ _ _ Hpa).
  - intros b Hb Hf. apply (pa_free _ _ _ Hpa) in Hf. tauto.
  - intros b Hb. destruct (Hin b Hb) as [i Hi]. exists i. by apply (pa_frame _ _ _ Hpa).
  - intros b i Hb Hb1 Hi. destruct (Hin b Hb) as [j Hj]. destruct (Hin _ Hb1) as [k Hk].
    assert (j = k) as <- by (by eapply Hap).
    assert (i = j) as -> by (eapply same_cpu; [exact Hw'|done|by apply (pa_frame _ _ _ Hpa)]).
    by apply (pa_frame _ _ _ Hpa).
Qed.
End ops.

(** After mkfs the checksum area of a CPU lies before its pages. *)
Lemma ready_apart `{RB : RbOps, KM : KmemOps, CR : CrcOps, MP : ModParams} sbi ls :
  lists_wf sbi ls -> 0 < csum_share sbi -> 0 <= head_reserved_blocks sbi ->
  (forall k fl, ls !! k = Some fl -> list_ready sbi (Z.of_nat k) fl) -> apart ls.
Proof.
  intros Hw Hcs Hh Hr b i j (fl & Hi & Hb) (fl' & Hj & Hb').
  destruct (lw_list _ _ Hw _ _ true Hi) as (_ & Hi1 & Hi2).
  destruct (lw_list _ _ Hw _ _ true Hj) as (_ & Hj1 & Hj2).
  pose proof (rd_meta_start _ _ _ (Hr _ _ Hj)) as Hs. pose proof (rd_csum _ _ _ (Hr _ _ Hj)) as Hc.
  pose proof (lw_share _ _ Hw true) as Hsh. simpl sub_list in *. unfold share in *.
  assert (0 <= meta_head sbi (Z.of_nat j)) by (unfold meta_head; case_match; lia).
  destruct (lt_eq_lt_dec i j) as [[Hlt|Heq]|Hlt]; [nia|done|nia].
Qed.
