(* ===== verification/InodeLogTheorems.v ===== *)
(** The properties of inode logs. *)

From S2P Require Import Prelude.
From S2P Require Import Kernel.
From S2P Require Import RangeTree.
From S2P Require Import Layout.
From S2P Require Import FreeList.
From S2P Require Import FreeListSpec.
From S2P Require Import Balloc.
From S2P Require Import BallocSpec.
From S2P Require Import BallocInit.
From S2P Require Import CsumArea.
From S2P Require Import Pmem.
From S2P Require Import PmemSpec.
From S2P Require Import Journal.
From S2P Require Import JournalSpec.
From S2P Require Import InodeLog.
From S2P Require Import InodeLogSpec.
From S2P Require Import InodeLogOps.

Section theorems.
Context {RB : RbOps} {KM : KmemOps} {CR : CrcOps} {MP : ModParams}.
Context {RBL : RbLaws} {KML : KmemLaws}.

(** C18. [nova_allocate_inode_log_pages] always returns: either -ENOSPC, and
    nothing has changed, or at least one and at most [num] pages, in
    [*new_block] the first of them.  The pages were free, are allocated now,
    form a chain that ends with a zero link, have no entries, all of this is
    durable, and nothing but their tails has been written. *)
Theorem allocate_log_pages sbi fuel this_cpu num cpuid dir st m :
  log_geometry sbi -> (forall T, is_Some (nova_alloc_range_node T)) -> 0 <= this_cpu ->
  log_ready sbi fuel (fls st) -> i_blk_type (sih st) = 0 -> any_cpu sbi cpuid ->
  0 < num < TWO31 -> num <= Z.of_nat fuel -> mem_ok m ->
  exists r st' t,
    nova_allocate_inode_log_pages sbi fuel this_cpu num cpuid dir st m = (Some (r, st'), t)
    /\ sih st' = sih st /\ log_ready sbi fuel (fls st')
    /\ (r = (- ENOSPC, None) /\ st' = st /\ t = []
        \/ exists b bs, r = (Z.of_nat (length (b :: bs)), Some (b * 4096))
             /\ new_pages sbi num st m (b :: bs) st' t
             /\ log_chain sbi (cur (exec t m)) (b * 4096) (b :: bs)).
Proof.
  intros G Hslab Hthis Hr Hb Hcpu Hn Hfu Hok.
  destruct (allocate_pages_run sbi G Hslab fuel this_cpu Hthis num cpuid dir st m)
    as (r & st' & t & E & Hs & Hr' & Hres); try done.
  exists r, st', t. split_and!; try done. destruct Hres as [?|(b & bs & -> & Hnp)]; [by left|right].
  exists b, bs. split_and!; try done. apply (log_chain_durable sbi) with (bs := b :: bs); apply Hnp.
Qed.

(** C19. Extending a log ([nova_extend_inode_log] at a position in its last
    page [c], metadata replication off) allocates as many pages as [log_pages]
    says, at most [EXTEND_THRESHOLD], and links them behind [c]; without space
    it returns 0 and changes nothing.  At whatever point it is interrupted,
    the log found on the media is the old one or the old one with all the new
    pages.  [log_pages] itself keeps its value. *)
Theorem extend_log_crash_safe sbi fuel this_cpu pi pic h bs c x st m :
  log_geometry sbi -> (forall T, is_Some (nova_alloc_range_node T)) -> 0 <= this_cpu ->
  metadata_csum = false -> log_ok sbi fuel st m h bs c -> 0 <= x < 4096 ->
  0 < log_pages (sih st) -> extension (sih st) <= Z.of_nat fuel ->
  exists r st' t new,
    nova_extend_inode_log sbi fuel this_cpu pi pic (c * 4096 + x) st m = (Some (r, st'), t)
    /\ sih st' = sih st /\ r = head_off new
    /\ pages_allocated (fls st) new (fls st')
    /\ Z.of_nat (length new) <= extension (sih st)
    /\ log_chain sbi (cur (exec t m)) h ((bs ++ [c]) ++ new)
    /\ forall k s, crashed (exec (take k t) m) s ->
         log_chain sbi s h (bs ++ [c]) \/ log_chain sbi s h ((bs ++ [c]) ++ new).
Proof.
  intros G Hslab Hthis Hno Hlog Hx Hlp Hfu. destruct (log_ok_last _ _ _ _ _ _ _ Hlog) as [Hc Hz].
  destruct (extend_run sbi G Hslab fuel this_cpu Hthis Hno pi pic c x st m)
    as (r & st' & t & E & Hs & _ & Hres); try done; try apply Hlog.
  destruct Hres as [(-> & -> & ->)|(b & new & t0 & -> & -> & Hnp)].
  - exists 0, st, [], []. rewrite app_nil_r. split_and!; try done.
    + apply pages_allocated_nil.
    + unfold extension, EXTEND_THRESHOLD. simpl. case_match; lia.
    + apply Hlog.
    + intros k s Hc'. left. rewrite take_nil in Hc'. simpl in Hc'.
      eapply log_chain_ext; [|apply Hlog]. intros b Hb. apply crashed_settled; [done|]. by apply Hlog.
  - exists (b * 4096), st', (t0 ++ link_acts sbi c (b * 4096) false), (b :: new). split_and!; try done.
    + apply Hnp.
    + apply Hnp.
    + assert (Hu : ~ free_block (fls st) true c) by (apply Hlog; set_solver).
      destruct (linked_next sbi _ _ _ c _ _ _ _ false Hnp Hu Hz) as (_ & Hl & _).
      eapply extend_linked; [done|exact Hnp| |done]. intros y Hne _. rewrite exec_app.
      apply cur_untouched, link_acts_untouched. by apply nx_ne.
    + intros k s. eapply extend_crash; [done|exact Hnp].
Qed.

(** C20. [nova_get_append_head] for an entry of [size] bytes at the position
    the caller asks for, offset [x] of page [c] (main log, replication off):
    when the entry fits before the page tail the position itself is returned
    and nothing changes; otherwise the start of the next page is returned,
    which existed or has just been allocated and linked, and a reader that
    arrives at the old position ([goto_next_page]) goes on to it; or 0 when
    there is no next page and no space, with the log's links unchanged. *)
Theorem append_head_position sbi fuel this_cpu pi pic tail size gc c x st m :
  log_geometry sbi -> (forall T, is_Some (nova_alloc_range_node T)) -> 0 <= this_cpu ->
  metadata_csum = false -> append_pos (sih st) tail = c * 4096 + x ->
  log_block c -> 0 <= x < 4096 -> 0 <= size <= 4064 ->
  mem_ok m -> log_ready sbi fuel (fls st) -> i_blk_type (sih st) = 0 ->
  ~ free_block (fls st) true c ->
  (cur m (nx sbi c) = 0 \/ exists b, log_block b /\ cur m (nx sbi c) = b * 4096) ->
  0 < log_pages (sih st) -> extension (sih st) <= Z.of_nat fuel -> (0 < fuel)%nat ->
  exists p ext st' t,
    nova_get_append_head sbi fuel this_cpu pi pic tail size MAIN_LOG gc st m
      = (Some ((p, ext), st'), t)
    /\ sih st' = sih st
    /\ (p <> 0 -> ENTRY_LOC p + size <= LOG_BLOCK_TAIL)
    /\ (x + size <= LOG_BLOCK_TAIL -> p = c * 4096 + x /\ st' = st /\ t = [])
    /\ (LOG_BLOCK_TAIL < x + size ->
        p = 0 /\ cur m (nx sbi c) = 0 /\ st' = st
          /\ (forall b a, a ∈ tail_words sbi b -> untouched a t)
        \/ (exists b, p = b * 4096 /\ next_page_for sbi c st m b st' (exec t m))
           /\ (goto_next_page sbi (c * 4096 + x) (exec t m)).1 = true).
Proof.
  intros G Hslab Hthis Hno Hpos Hc Hx Hsz Hok Hr Hb0 Hu Hn Hlp Hfu Hf0. unfold LOG_BLOCK_TAIL.
  destruct (decide (x + size <= 4064)) as [Hfit|Hfit].
  { exists (c * 4096 + x), false, st, []. rewrite entry_loc by done. split; [by apply append_head_fits|].
    split_and!; auto; lia. }
  assert (Hpage : forall b, b * 4096 <> 0 -> ENTRY_LOC (b * 4096) + size <= 4064)
    by (intros; rewrite entry_loc_page; lia).
  destruct Hn as [Hz|(b & Hb & Hn)].
  - assert (Hres : exists p ext st' t,
      nova_get_append_head sbi fuel this_cpu pi pic tail size MAIN_LOG gc st m
        = (Some ((p, ext), st'), t) /\ sih st' = sih st
      /\ (p = 0 /\ st' = st /\ (forall b' a, a ∈ tail_words sbi b' -> untouched a t)
        \/ (exists b, p = b * 4096 /\ next_page_for sbi c st m b st' (exec t m))
           /\ (goto_next_page sbi (c * 4096 + x) (exec t m)).1 = true)).
    { destruct gc.
      - destruct (append_head_append_one sbi G Hslab fuel this_cpu Hthis pi pic tail size c x st m)
          as (p & st' & t & E); try done; [lia|]. by exists p, true, st', t.
      - destruct (append_head_extend sbi G Hslab fuel this_cpu Hthis Hno pi pic tail size c x st m)
          as (p & st' & t & E & Hs & Hres & _); try done; [lia|]. by exists p, false, st', t. }
    destruct Hres as (p & ext & st' & t & E & Hs & Hres). exists p, ext, st', t.
    split; [exact E|]. split; [exact Hs|]. split; [|split; [intros Hle; exfalso; lia|]].
    + destruct Hres as [(-> & _)|[(b & -> & _) _]]; [done|apply Hpage].
    + intros _. destruct Hres as [(?&?&?)|?]; [by left|by right].
  - destruct (append_head_next sbi G fuel this_cpu pi pic tail size c x st m Hpos Hc Hx Hsz b gc)
      as (t & E & Hut & Hg & _); [lia|done..|].
    exists (b * 4096), false, st, t. split; [exact E|]. split; [done|]. split; [apply Hpage|].
    split; [intros Hle; exfalso; lia|]. intros _. right.
    split; [|done]. exists b. split; [done|]. split_and!; [done| |by left].
    rewrite cur_untouched; [done|]. by apply (Hut c), nx_tail.
Qed.

(** C21. The first page of a log ([nova_extend_inode_log] at position 0, no
    DRAM copy of the inode, replication off): without space the result is 0
    and nothing changes; otherwise a free page becomes the log, [log_head] and
    [log_tail] of the inode point to it in DRAM and durably on the media, and
    a crash at any point leaves on the media the old [log_head] or one that
    leads to the initialised page. *)
Theorem first_page_crash_safe sbi fuel this_cpu pi st m :
  log_geometry sbi -> (forall T, is_Some (nova_alloc_range_node T)) -> 0 <= this_cpu ->
  metadata_csum = false -> mem_ok m -> log_ready sbi fuel (fls st) ->
  i_blk_type (sih st) = 0 -> (0 < fuel)%nat -> 0 <= pi -> pi mod 8 = 0 ->
  settled m (pi + off_log_head) ->
  (forall b, free_block (fls st) true b ->
     pi + off_log_head ∉ tail_words sbi b /\ pi + off_log_tail ∉ tail_words sbi b) ->
  exists p st' t,
    nova_extend_inode_log sbi fuel this_cpu pi None 0 st m = (Some (p, st'), t)
    /\ (p = 0 /\ st' = st /\ t = []
        \/ exists b, p = b * 4096 /\ pages_allocated (fls st) [b] (fls st')
             /\ sih st' = set_log p (sih st)
             /\ (forall a, a = pi + off_log_tail \/ a = pi + off_log_head ->
                  cur (exec t m) a = p /\ settled (exec t m) a)
             /\ forall k s, crashed (exec (take k t) m) s ->
                  s (pi + off_log_head) = cur m (pi + off_log_head)
                  \/ log_chain sbi s (s (pi + off_log_head)) [b]).
Proof.
  intros G Hslab Hthis Hno Hok Hr Hb0 Hf0 Hpi Hal Hset Hout.
  destruct (allocate_pages_run sbi G Hslab fuel this_cpu Hthis 1 ANY_CPU
    ALLOC_FROM_HEAD st m Hr Hb0 (or_introl eq_refl)) as (r & st1 & t & E & Hs & _ & Hres);
    [lia|lia|done|].
  unfold nova_extend_inode_log, nova_initialize_inode_log. change (0 =? 0) with true. cbv iota.
  change (MAIN_LOG =? MAIN_LOG) with true. cbv iota.
  destruct Hres as [(-> & -> & ->)|(b & new & -> & Hnp)].
  { exists 0, st, []. split; [|by left]. eapply (lbind_run _ _ _ _ (- ENOSPC) _ [] _ []); [|done].
    by eapply (lbind_run _ _ _ _ _ _ [] _ []); [exact E|]. }
  pose proof (np_count _ _ _ _ _ _ _ Hnp) as Hlen. destruct new as [|? ?]; simpl in Hlen; [|lia].
  set (st' := LState (fls st1) (set_log (b * 4096) (sih st1))).
  exists (b * 4096), st', (t ++ init_acts pi (b * 4096)). split.
  { rewrite <- (app_nil_r (t ++ _)). eapply (lbind_run _ _ _ _ 0 st').
    - eapply lbind_run; [exact E|]. simpl length. cbv beta iota.
      change (negb (Z.of_nat 1 =? 1)) with false. cbv iota.
      rewrite <- (app_nil_r (init_acts _ _)). by eapply lbind_run; [by apply init_pi_log_run|].
    - change (negb (0 =? 0)) with false. cbv iota. rewrite Hno. by rewrite lbind_sih. }
  right. exists b. pose proof (np_blocks _ _ _ _ _ _ _ Hnp b ltac:(set_solver)) as Hb.
  assert (Hfb : free_block (fls st) true b) by (apply Hnp; set_solver).
  destruct (Hout b Hfb) as [Ho1 Ho2].
  split_and!; [done|apply Hnp|by rewrite <- Hs| |].
  { intros a Ha. rewrite exec_app. apply init_acts_durable; try done. by apply mem_ok_exec. }
  intros k s. by eapply first_page_crash.
Qed.

(** C22. [nova_free_inode_log] (replication off) clears the inode's log pointers
    and returns exactly the pages of the log to the allocator: afterwards a
    metadata block is free when it was before or belongs to the log.  The pages
    are in use, and no two neighbouring ones belong to different CPUs. *)
Theorem free_log_frees sbi fuel pi bs st m :
  log_geometry sbi -> (forall T, is_Some (nova_alloc_range_node T)) -> metadata_csum = false ->
  i_blk_type (sih st) = 0 -> freeable sbi (fls st) bs ->
  log_chain sbi (cur m) (log_head (sih st)) bs ->
  log_head (sih st) <> 0 -> log_tail (sih st) <> 0 ->
  (length bs <= fuel)%nat -> Z.of_nat (length bs) < TWO31 ->
  (forall b a, b ∈ bs -> a ∈ log_pointers pi -> a ∉ tail_words sbi b) ->
  exists st' t, nova_free_inode_log sbi fuel (Some pi) st m = (Some (0, st'), t)
    /\ lists_wf sbi (fls st')
    /\ (forall meta x, free_block (fls st') meta x
          <-> free_block (fls st) meta x \/ (meta = true /\ x ∈ bs))
    /\ (forall a, a ∈ log_pointers pi -> cur (exec t m) a = 0).
Proof.
  intros G Hslab Hno Hb0 Hf Hc Hh Ht Hfu Hmax Hout.
  destruct (free_inode_log_run sbi G Hslab fuel Hno pi bs st m) as (st' & E & _ & Hfp); try done.
  eexists st', _. split; [exact E|]. split_and!; [apply Hfp|apply Hfp|].
  intros a Ha. unfold log_pointers in *. simpl fmap.
  change (exec [?p; ?q; ?r; ?u] m) with (exec1 u (exec1 r (exec1 q (exec1 p m)))).
  rewrite !cur_store. repeat case_decide; try done. set_solver.
Qed.

(** Round trip: freeing the pages [nova_allocate_inode_log_pages] has just
    returned, from the first one along the links, returns their number and
    restores the set of free blocks.  The pages of different CPUs must not
    touch, which the checksum areas ensure after mkfs. *)
Theorem log_pages_roundtrip sbi fuel this_cpu num cpuid dir st m n b st1 t :
  log_geometry sbi -> (forall T, is_Some (nova_alloc_range_node T)) -> 0 <= this_cpu ->
  log_ready sbi fuel (fls st) -> apart (fls st) -> i_blk_type (sih st) = 0 ->
  any_cpu sbi cpuid -> 0 < num < TWO31 -> num <= Z.of_nat fuel -> mem_ok m ->
  nova_allocate_inode_log_pages sbi fuel this_cpu num cpuid dir st m
    = (Some ((n, Some b), st1), t) ->
  exists st2, nova_free_contiguous_log_blocks sbi fuel b st1 (exec t m) = (Some (n, st2), [])
    /\ lists_wf sbi (fls st2)
    /\ forall meta x, free_block (fls st2) meta x <-> free_block (fls st) meta x.
Proof.
  intros G Hslab Hthis Hr Hap Hb0 Hcpu Hn Hfu Hok E.
  destruct (allocate_pages_run sbi G Hslab fuel this_cpu Hthis num cpuid dir st m)
    as (r & st' & t' & E' & Hs & Hr' & Hres); try done.
  rewrite E' in E. simplify_eq. destruct Hres as [(? & _)|(b' & bs & Hrb & Hnp)]; [done|].
  pose proof (np_alloc _ _ _ _ _ _ _ Hnp) as Hpa. pose proof (np_count _ _ _ _ _ _ _ Hnp) as Hlen.
  injection Hrb as -> ->. set (pages := b' :: bs) in *.
  destruct (free_contiguous_run sbi G Hslab fuel pages (b' * 4096) st1 (exec t m))
    as (st2 & E2 & _ & Hfp); try lia.
  - by rewrite Hs.
  - by eapply allocated_freeable; [exact Hr| | |apply Hr'].
  - apply (log_chain_durable sbi) with (bs := pages); apply Hnp.
  - exists st2. split; [exact E2|]. split; [apply Hfp|].
    intros meta x. rewrite (fp_free _ _ _ _ Hfp), (pa_free _ _ _ Hpa).
    destruct (decide (x ∈ pages)) as [Hx|Hx]; [|tauto].
    pose proof (pa_was_free _ _ _ Hpa x Hx). destruct meta; tauto || intuition congruence.
Qed.
End theorems.

(** ** A small device

    The device of the allocator's examples with all module parameters off. *)
Module LogDemo.
#[export] Existing Instances Concrete.rb_ops Concrete.rb_laws Concrete.kmem_ops
  Concrete.kmem_laws Concrete.crc_ops Concrete.crc_laws.
#[export] Instance params : ModParams := {|
  metadata_csum := false; data_csum := false; data_parity := false;
  dram_struct_csum := false; support_clwb := true
|}.

Definition sbi0 : nova_sb_info :=
  set_meta_start_virt 0x100000000 (set_data_start_virt 0x200000000
    (set_data_num_blocks 4096 (set_meta_num_blocks 1024
      (set_initsize (5120 * 4096) (set_blocksize_bits 12
        (set_head_reserved_blocks 64 (set_tail_reserved_blocks 2
          (set_cpus 2 (set_meta_nvm_num 1 (set_data_nvm_num 1
            (set_data_head_nvm_idx 1 zero_sb_info))))))))))).
Definition sbi : nova_sb_info := with_shares sbi0.
Definition lists : list free_list :=
  match nova_init_blockmap sbi0 (nova_alloc_block_free_lists sbi0) false with
  | Some (_, ls) => ls
  | None => []
  end.
Definition fuel : nat := 8192.
Definition header : nova_inode_info_header := Sih 0 0 1 (10 * 4096) (10 * 4096) 0 0.
(** An inode whose log is the one page 10, in the reserved area. *)
Abbreviation st0 := (LState lists header).

Lemma log_slab : forall T, is_Some (nova_alloc_range_node T).
Proof. intros T. by eexists. Qed.

Lemma geometry_ok : log_geometry sbi.
Proof. split; vm_compute; repeat split; discriminate. Qed.

Lemma empty_ok : mem_ok ∅.
Proof. by intros a. Qed.

Lemma empty_settled a : settled ∅ a.
Proof. done. Qed.

Lemma lists_ok :
  lists_wf sbi lists /\ forall k fl, lists !! k = Some fl -> list_ready sbi (Z.of_nat k) fl.
Proof.
  assert (G : geometry sbi0) by (split; vm_compute; split_and?; done).
  destruct (init_blockmap_ok sbi0 log_slab G) as (ls & E & Hw & Hr). unfold lists. by rewrite E.
Qed.

(** Conversion unfolds [lists] last. *)
#[global] Strategy 1000 [lists].

(** The reserved blocks are not free. *)
Lemma reserved_used b : b < 64 -> ~ free_block lists true b.
Proof.
  intros Hb (i & fl & Hi & Hf). destruct lists_ok as [_ Hr]. specialize (Hr _ _ Hi).
  apply (rd_free _ _ _ Hr true) in Hf. simpl in Hf.
  rewrite (rd_meta_start _ _ _ Hr), (rd_csum _ _ _ Hr) in Hf.
  assert (64 <= per_meta_list_blocks sbi * Z.of_nat i + meta_head sbi (Z.of_nat i) + csum_share sbi).
  { destruct i as [|[|i]]; [by apply Z.leb_le; vm_compute..|]. apply lookup_lt_Some in Hi.
    assert (length lists = 2%nat) by (by vm_compute). lia. }
  lia.
Qed.

Lemma ready : log_ready sbi fuel lists.
Proof.
  split; [apply lists_ok| |by apply reserved_used].
  intros []; by apply Z.leb_le; vm_compute.
Qed.

Lemma log_ok0 : log_ok sbi fuel st0 ∅ (10 * 4096) [] 10.
Proof.
  split.
  - apply empty_ok.
  - apply ready.
  - done.
  - by vm_compute.
  - apply NoDup_singleton.
  - intros b _. apply empty_settled.
  - intros b Hb. apply reserved_used. apply list_elem_of_singleton in Hb. lia.
Qed.

Lemma fuel_pos : (0 < fuel)%nat.
Proof. by apply Nat.ltb_lt; vm_compute. Qed.

Lemma page_ten : log_block 10.
Proof. by unfold log_block. Qed.
End LogDemo.

Section witnesses.
Import LogDemo.

Lemma allocate_log_pages_witness :
  exists r st' t,
    nova_allocate_inode_log_pages sbi fuel 0 3 ANY_CPU ALLOC_FROM_HEAD st0 ∅ = (Some (r, st'), t)
    /\ log_ready sbi fuel (fls st').
Proof.
  destruct (allocate_log_pages sbi fuel 0 3 ANY_CPU ALLOC_FROM_HEAD st0 ∅ geometry_ok log_slab
    ltac:(lia) ready eq_refl (or_introl eq_refl) ltac:(lia) ltac:(by vm_compute) empty_ok)
    as (r & st' & t & E & _ & Hr & _).
  exists r, st', t. exact (conj E Hr).
Defined.

Lemma extend_log_crash_safe_witness :
  exists r st' t new,
    nova_extend_inode_log sbi fuel 0 0 None (10 * 4096 + 4000) st0 ∅ = (Some (r, st'), t)
    /\ log_chain sbi (cur (exec t ∅)) (10 * 4096) ([10] ++ new).
Proof.
  destruct (extend_log_crash_safe (MP := params) sbi fuel 0 0 None (10 * 4096) [] 10 4000 st0 ∅ geometry_ok log_slab
    ltac:(lia) eq_refl log_ok0 ltac:(lia) ltac:(by vm_compute) ltac:(by vm_compute))
    as (r & st' & t & new & E & _ & _ & _ & _ & Hc & _).
  exists r, st', t, new. exact (conj E Hc).
Defined.

Lemma append_head_position_witness :
  exists p ext st' t,
    nova_get_append_head sbi fuel 0 0 None (10 * 4096 + 4000) 128 MAIN_LOG false st0 ∅
      = (Some ((p, ext), st'), t)
    /\ (p <> 0 -> ENTRY_LOC p + 128 <= LOG_BLOCK_TAIL).
Proof.
  destruct (append_head_position (MP := params) sbi fuel 0 0 None (10 * 4096 + 4000) 128 false 10 4000 st0 ∅
    geometry_ok log_slab ltac:(lia) eq_refl eq_refl page_ten ltac:(lia) ltac:(lia) empty_ok ready eq_refl
    (reserved_used 10 ltac:(lia)) (or_introl eq_refl) ltac:(by vm_compute) ltac:(by vm_compute)
    fuel_pos) as (p & ext & st' & t & E & _ & Hp & _).
  exists p, ext, st', t. exact (conj E Hp).
Defined.

Definition pi0 : Z := 0x100000000 + 2 * 4096.

Lemma free_above b : free_block (fls st0) true b -> 64 <= b.
Proof.
  intros Hf. destruct (decide (b < 64)) as [Hb|]; [|lia].
  destruct (reserved_used b Hb). exact Hf.
Qed.

Lemma pi0_outside b a : 64 <= b -> a ∈ log_pointers pi0 -> a ∉ tail_words sbi b.
Proof.
  intros Hb Ha Ht.
  assert (Hlo : a < 0x100000000 + 3 * 4096).
  { unfold log_pointers, pi0 in Ha. rewrite !elem_of_cons, elem_of_nil in Ha.
    unfold off_log_tail, off_log_head, off_alter_log_tail, off_alter_log_head in Ha. lia. }
  unfold tail_words, cn, nx, base, off_next_page, LOG_BLOCK_TAIL in Ht.
  rewrite !elem_of_cons, elem_of_nil in Ht.
  change (meta_start_virt sbi) with 0x100000000 in Ht. lia.
Qed.

Lemma first_page_crash_safe_witness :
  exists p st' t, nova_extend_inode_log sbi fuel 0 pi0 None 0 st0 ∅ = (Some (p, st'), t).
Proof.
  destruct (first_page_crash_safe (MP := params) sbi fuel 0 pi0 st0 ∅ geometry_ok log_slab ltac:(lia)
    eq_refl empty_ok
    ready eq_refl fuel_pos ltac:(by vm_compute) eq_refl (empty_settled _))
    as (p & st' & t & E & _).
  - intros b Hb. apply free_above in Hb.
    split; (apply pi0_outside; [done|unfold log_pointers; set_solver]).
  - exists p, st', t. exact E.
Defined.
End witnesses.

(** ** A log of three pages, freed again *)
Section freeing.
Import LogDemo.

(** Three pages allocated on CPU 0, as the log of an inode. *)
Definition grown : option ((Z * option Z) * lstate) * list pact :=
  nova_allocate_inode_log_pages sbi fuel 0 3 0 ALLOC_FROM_HEAD st0 ∅.
Definition st1 : lstate :=
  match grown.1 with
  | Some (_, st) => LState (fls st) (Sih 0 0 1 (84 * 4096) (84 * 4096) 0 0)
  | None => st0
  end.
Definition m1 : mem := exec grown.2 ∅.

Lemma grown_pages :
  pages_allocated lists [84; 85; 86] (fls st1) /\ log_ready sbi fuel (fls st1)
  /\ log_chain sbi (cur m1) (84 * 4096) [84; 85; 86].
Proof.
  destruct (allocate_pages_run sbi geometry_ok log_slab fuel 0 ltac:(lia) 3 0 ALLOC_FROM_HEAD st0 ∅
    ready eq_refl ltac:(by right) ltac:(lia) ltac:(by vm_compute) empty_ok)
    as (r & st' & t & E & _ & Hr & Hres).
  assert (Er : fst <$> grown.1 = Some (3, Some (84 * 4096))) by (by vm_compute).
  assert (Ec : cur m1 (nx sbi 84) = 85 * 4096 /\ cur m1 (nx sbi 85) = 86 * 4096)
    by (split; vm_compute; reflexivity).
  unfold st1, m1 in *. fold grown in E. rewrite E in *. simpl in Er.
  destruct Hres as [(-> & _)|(b & bs & -> & Hnp)]; [done|].
  injection Er as Hlen Hb. assert (b = 84) as -> by lia.
  pose proof (np_blocks _ _ _ _ _ _ _ Hnp) as Hbl. pose proof (np_chain _ _ _ _ _ _ _ Hnp) as Hch.
  pose proof (log_chain_durable sbi _ _ Hbl Hch) as Hc.
  destruct bs as [|b2 [|b3 [|? ?]]]; simpl in Hlen; try lia.
  simpl in Hc. destruct Hc as (_ & _ & Hb2 & _ & Hb3 & _). simpl snd in *.
  destruct Ec as [E2 E3]. assert (b2 = 85) as -> by lia. assert (b3 = 86) as -> by lia.
  split_and!; [apply Hnp|exact Hr|]. by apply (log_chain_durable sbi _ [84; 85; 86]).
Qed.

Lemma lists_apart : apart lists.
Proof.
  apply (ready_apart sbi); [apply lists_ok|by apply Z.ltb_lt; vm_compute
    |by apply Z.leb_le; vm_compute|apply lists_ok].
Qed.

Lemma free_log_frees_witness :
  exists st' t, nova_free_inode_log sbi fuel (Some pi0) st1 m1 = (Some (0, st'), t)
    /\ free_block (fls st') true 85.
Proof.
  destruct grown_pages as (Hpa & Hr & Hc).
  destruct (free_log_frees (MP := params) sbi fuel pi0 [84; 85; 86] st1 m1 geometry_ok log_slab eq_refl)
    as (st' & t & E & _ & Hf & _).
  - by vm_compute.
  - exact (allocated_freeable sbi fuel _ _ _ ready lists_apart Hpa (lr_wf _ _ _ Hr)).
  - exact Hc.
  - by vm_compute.
  - by vm_compute.
  - by apply Nat.leb_le; vm_compute.
  - by vm_compute.
  - intros b a Hb. apply pi0_outside. rewrite !elem_of_cons, elem_of_nil in Hb. lia.
  - exists st', t. split; [exact E|]. apply Hf. right.
    exact (conj eq_refl (list_elem_of_further _ _ _ (list_elem_of_here _ _))).
Defined.

Lemma log_pages_roundtrip_witness :
  exists st2, nova_free_contiguous_log_blocks sbi fuel (84 * 4096)
                (match grown.1 with Some (_, st) => st | None => st0 end) m1 = (Some (3, st2), [])
    /\ forall meta x, free_block (fls st2) meta x <-> free_block lists meta x.
Proof.
  pose proof (fun st' t => log_pages_roundtrip (MP := params) sbi fuel 0 3 0 ALLOC_FROM_HEAD
    (LState lists header) ∅ 3 (84 * 4096) st' t geometry_ok log_slab ltac:(lia) ready lists_apart eq_refl
    ltac:(by right) ltac:(lia) ltac:(by vm_compute) empty_ok) as Hround.
  assert (Er : fst <$> grown.1 = Some (3, Some (84 * 4096))) by (vm_compute; reflexivity).
  unfold m1. fold grown in Hround. destruct grown as [[[r st']|] t]; [|discriminate Er].
  injection Er as ->. destruct (Hround st' t eq_refl) as (st2 & E & _ & Hf).
  exists st2. exact (conj E Hf).
Defined.
End freeing.
