(* ===== verification/InodeMap.v ===== *)
(** Inode numbers (inode.c): the numbers in use are kept per CPU in a
    range-node tree; CPU [c] owns the numbers [x] with [x mod cpus = c] and its
    tree holds [x / cpus].

    [None] stands for a NULL dereference or an access outside [inode_maps];
    [NOVA_ASSERT] only prints a warning.  The mutex of the map makes each
    operation one step. *)

From S2P Require Import Prelude.
From S2P Require Import Kernel.
From S2P Require Import Checksum.
From S2P Require Import RangeTree.
From S2P Require Import Layout.

Definition NOVA_NORMAL_INODE_START : Z := 32.
(** [1UL << 31]. *)
Definition MAX_INODE : Z := TWO31.

(** [struct inode_map]; the counters [allocated] and [freed] are ints. *)
Record inode_map := InodeMap {
  inode_inuse_tree : rtree;
  num_range_node_inode : Z;
  first_inode_range : option ptr;
  im_allocated : Z;
  im_freed : Z
}.

Definition set_tree (T : rtree) (im : inode_map) : inode_map :=
  InodeMap T (num_range_node_inode im) (first_inode_range im) (im_allocated im) (im_freed im).
Definition add_range_nodes (d : Z) (im : inode_map) : inode_map :=
  InodeMap (inode_inuse_tree im) (u64 (num_range_node_inode im + d)) (first_inode_range im)
    (im_allocated im) (im_freed im).
Definition count_allocated (im : inode_map) : inode_map :=
  InodeMap (inode_inuse_tree im) (num_range_node_inode im) (first_inode_range im)
    (s32 (im_allocated im + 1)) (im_freed im).
Definition count_freed (im : inode_map) : inode_map :=
  InodeMap (inode_inuse_tree im) (num_range_node_inode im) (first_inode_range im)
    (im_allocated im) (s32 (im_freed im + 1)).

(** The fields of [struct nova_sb_info] that change here. *)
Record ino_state := InoState {
  s_inodes_used_count : Z;
  map_id : Z;
  inode_maps : list inode_map
}.

Definition map_at (st : ino_state) (cpu : Z) : option inode_map :=
  if cpu <? 0 then None else inode_maps st !! Z.to_nat cpu.
Definition store_map (cpu : Z) (im : inode_map) (st : ino_state) : ino_state :=
  InoState (s_inodes_used_count st) (map_id st) (<[Z.to_nat cpu := im]> (inode_maps st)).
Definition add_used (d : Z) (st : ino_state) : ino_state :=
  InoState (u64 (s_inodes_used_count st + d)) (map_id st) (inode_maps st).
Definition set_used (v : Z) (st : ino_state) : ino_state :=
  InoState v (map_id st) (inode_maps st).

Section inode_map.
Context {RB : RbOps} {KM : KmemOps} {CR : CrcOps} {MP : ModParams}.
Context (sbi : nova_sb_info).

Definition nova_alloc_inode_node (T : rtree) : option (ptr * rtree) := nova_alloc_range_node T.
Definition nova_free_inode_node (p : ptr) (T : rtree) : rtree := nova_free_range_node p T.

Definition nova_insert_inodetree (im : inode_map) (new_node : ptr) : Z * inode_map :=
  let '(ret, T) := nova_insert_range_node (inode_inuse_tree im) new_node NODE_INODE in
  (ret, set_tree T im).

(** [*ret_node] is NULL on entry. *)
Definition nova_search_inodetree (st : ino_state) (ino : Z) : option (Z * option ptr) :=
  if cpus sbi =? 0 then None else
  im ← map_at st (s32 (ino mod cpus sbi));
  Some (nova_find_range_node (inode_inuse_tree im) (ino / cpus sbi) NODE_INODE None).

(** ** mkfs *)

(** What [nova_fill_super] sets up: zeroed maps with empty trees. *)
Definition empty_inode_map : inode_map := InodeMap empty_rtree 0 None 0 0.
Definition init_inode_maps : list inode_map := replicate (Z.to_nat (cpus sbi)) empty_inode_map.

Definition init_range_high : Z :=
  let h := NOVA_NORMAL_INODE_START / cpus sbi in
  if negb (NOVA_NORMAL_INODE_START mod cpus sbi =? 0) then h + 1 else h.

(** The loop over the CPUs: [n] are left, the next is [i]. *)
Fixpoint init_inuse_loop (n : nat) (i : Z) (st : ino_state) : option (Z * ino_state) :=
  match n with
  | O => Some (0, st)
  | S n' =>
      im ← map_at st i;
      match nova_alloc_inode_node (inode_inuse_tree im) with
      | None => Some (- ENOMEM, st)
      | Some (range_node, T) =>
          let T := store_node range_node
                     (fun n => set_high init_range_high (set_low 0 n)) T in
          let '(ret, im) := nova_insert_inodetree (set_tree T im) range_node in
          if negb (ret =? 0) then
            Some (ret, store_map i
                    (set_tree (nova_free_inode_node range_node (inode_inuse_tree im)) im) st)
          else
            let im := InodeMap (inode_inuse_tree im) 1 (Some range_node)
                        (im_allocated im) (im_freed im) in
            init_inuse_loop n' (i + 1) (store_map i im st)
      end
  end.

Definition nova_init_inode_inuse_list (st : ino_state) : option (Z * ino_state) :=
  if cpus sbi =? 0 then None
  else init_inuse_loop (Z.to_nat (cpus sbi)) 0 (set_used NOVA_NORMAL_INODE_START st).

(** ** Allocation *)

(** The return value and [*ino], which an error leaves alone. *)
Definition nova_alloc_unused_inode (st : ino_state) (cpuid : Z)
    : option (Z * option Z * ino_state) :=
  im ← map_at st cpuid;
  i ← first_inode_range im;
  let T := inode_inuse_tree im in
  if negb (nova_range_node_checksum_ok (deref T i)) then Some (- EIO, None, st)
  else
    let next_i := rb_next i (root T) in
    let next_ok :=
      match next_i with
      | Some n => nova_range_node_checksum_ok (deref T n)
      | None => true
      end in
    if negb next_ok then Some (- EIO, None, st)
    else
      let next_range_low :=
        match next_i with Some n => range_low (deref T n) | None => MAX_INODE end in
      let new_ino := u64 (range_high (deref T i) + 1) in
      let found im :=
        let st := add_used 1 (store_map cpuid (count_allocated im) st) in
        Some (0, Some (u64 (new_ino * cpus sbi + cpuid)), st) in
      match next_i, new_ino =? u64 (next_range_low - 1) with
      | Some n, true =>
          (* fill the gap completely *)
          let T := store_node i (set_high (range_high (deref T n))) T in
          let T := nova_free_inode_node n (rb_erase_node n T) in
          found (add_range_nodes (-1) (set_tree T im))
      | _, _ =>
          if new_ino <? u64 (next_range_low - 1) then
            (* aligns to left *)
            found (set_tree (store_node i (set_high new_ino) T) im)
          else Some (- ENOSPC, None, st)
      end.

(** ** Freeing *)

(** The four cases: [None] for the [err] label. *)
Definition free_from_node (im : inode_map) (i : ptr) (internal_ino : Z)
    : (Z * inode_map) + (Z * inode_map) :=
  let T := inode_inuse_tree im in
  let low := range_low (deref T i) in
  let high := range_high (deref T i) in
  if (internal_ino =? low) && (internal_ino =? high) then
    (* fits entire node *)
    let T := nova_free_inode_node i (rb_erase_node i T) in
    inl (0, add_range_nodes (-1) (set_tree T im))
  else if (internal_ino =? low) && (internal_ino <? high) then
    (* aligns left *)
    inl (0, set_tree (store_node i (set_low (u64 (internal_ino + 1))) T) im)
  else if (low <? internal_ino) && (internal_ino =? high) then
    (* aligns right *)
    inl (0, set_tree (store_node i (set_high (u64 (internal_ino - 1))) T) im)
  else if (low <? internal_ino) && (internal_ino <? high) then
    (* somewhere in the middle *)
    match nova_alloc_inode_node T with
    | None => inl (0, im)           (* returning without freeing the number *)
    | Some (curr_node, T) =>
        let T := store_node curr_node (fun n =>
                   set_high (range_high (deref T i)) (set_low (u64 (internal_ino + 1)) n)) T in
        let T := store_node i (set_high (u64 (internal_ino - 1))) T in
        let '(ret, im) := nova_insert_inodetree (set_tree T im) curr_node in
        if negb (ret =? 0) then
          inr (ret, set_tree (nova_free_inode_node curr_node (inode_inuse_tree im)) im)
        else inl (ret, add_range_nodes 1 im)
    end
  else inr (0, im).

Definition nova_free_inuse_inode (st : ino_state) (ino : Z) : option (Z * ino_state) :=
  if cpus sbi =? 0 then None else
  let cpuid := s32 (ino mod cpus sbi) in
  let internal_ino := ino / cpus sbi in
  im ← map_at st cpuid;
  '(found, i) ← nova_search_inodetree st ino;
  if found =? 0 then Some (- EINVAL, st)
  else
    i ← i;
    match free_from_node im i internal_ino with
    | inl (ret, im) => Some (ret, add_used (-1) (store_map cpuid (count_freed im) st))
    | inr (ret, im) => Some (ret, store_map cpuid im st)
    end.
End inode_map.
