(* ===== verification/InodeMapSpec.v ===== *)
(** The invariant of the inode-number maps and what allocation and freeing do
    to the set of numbers in use. *)

From S2P Require Import Prelude.
From S2P Require Import Kernel.
From S2P Require Import Checksum.
From S2P Require Import RangeTree.
From S2P Require Import RangeTreeSpec.
From S2P Require Import Layout.
From S2P Require Import FreeList.
From S2P Require Import FreeListSpec.
From S2P Require Import InodeMap.

(** Ranges with a gap of at least one number between any two. *)
Definition widen (r : Z * Z) : Z * Z := (r.1, r.2 + 1).
Definition gapped (l : list (Z * Z)) : Prop := sorted_from (-1) (widen <$> l).

Lemma covers_add lo hi hi' l x :
  lo <= hi -> hi' = hi + 1 -> covers ((lo, hi') :: l) x <-> covers ((lo, hi) :: l) x \/ x = hi'.
Proof. intros. autorewrite with ranges. intuition lia. Qed.

Section spec.
Context {RB : RbOps} {KM : KmemOps} {CR : CrcOps} {MP : ModParams}.
Context {RBL : RbLaws} {KML : KmemLaws}.

Lemma link_walk_inode T t key n :
  link_walk T t key NODE_INODE n = link_walk T t key NODE_BLOCK n.
Proof. induction t as [|l IHl p r IHr]; [done|]. cbn [link_walk]. by rewrite IHl, IHr. Qed.

Lemma insert_inode T n :
  nova_insert_range_node T n NODE_INODE = nova_insert_range_node T n NODE_BLOCK.
Proof. unfold nova_insert_range_node. by rewrite link_walk_inode. Qed.

Record map_wf (im : inode_map) : Prop := {
  mw_tree : tree_wf (inode_inuse_tree im);
  mw_gaps : gapped (ranges (inode_inuse_tree im));
  mw_first : exists p l, ids (inode_inuse_tree im) = p :: l
    /\ first_inode_range im = Some p /\ range_low (deref (inode_inuse_tree im) p) = 0;
  mw_max : forall r, r ∈ ranges (inode_inuse_tree im) -> r.2 < MAX_INODE - 1;
  mw_num : num_range_node_inode im = Z.of_nat (length (ids (inode_inuse_tree im)))
}.

(** Number [x] of this CPU is in use. *)
Definition used (im : inode_map) (x : Z) : Prop := covers (ranges (inode_inuse_tree im)) x.

(** The node count stays far from the width of its counter. *)
Lemma map_nodes im : map_wf im -> 0 < num_range_node_inode im < TWO32.
Proof.
  intros [Hw _ (p & l & E & _) Hm Hn]. rewrite Hn. pose proof (wf_sorted _ Hw) as Hs.
  pose proof (total_length _ _ Hs) as Hl. pose proof (total_bound _ _ Hs) as Ht.
  assert (last_high (-1) (ranges (inode_inuse_tree im)) < TWO31).
  { apply last_high_lt; [lia|]. intros r Hr. specialize (Hm r Hr). unfold MAX_INODE in Hm. lia. }
  unfold ranges in Hl. rewrite length_fmap in Hl. fold (ranges (inode_inuse_tree im)) in Hl.
  rewrite E in *. simpl in *. lia.
Qed.

Lemma used_range im x : map_wf im -> used im x -> 0 <= x < MAX_INODE - 1.
Proof.
  intros Hw (r & Hr & Hx). pose proof (mw_max _ Hw r Hr). destruct r as [a b].
  destruct (sorted_from_bounds _ _ _ _ (wf_sorted _ (mw_tree _ Hw)) Hr) as (? & _). simpl in *. lia.
Qed.

(** Replacing the tree; the head node stays or changes in place. *)
Lemma map_wf_intro im T' num' p l r R :
  tree_wf T' -> ids T' = p :: l -> ranges T' = r :: R -> r.1 = 0 ->
  gapped (r :: R) -> (forall r', r' ∈ r :: R -> r'.2 < MAX_INODE - 1) ->
  first_inode_range im = Some p -> num' = Z.of_nat (length (ids T')) ->
  map_wf (InodeMap T' num' (Some p) (im_allocated im) (im_freed im)).
Proof.
  intros Hw E Er Hr Hg Hm Hf Hn. split; simpl; [done|by rewrite Er| |by rewrite Er|done].
  exists p, l. split_and!; [done..|]. unfold ranges in Er. rewrite E in Er. simpl in Er.
  injection Er as <- _. done.
Qed.

Lemma counted_wf im : map_wf im -> map_wf (count_allocated im).
Proof. intros []. by split. Qed.
Lemma freed_wf im : map_wf im -> map_wf (count_freed im).
Proof. intros []. by split. Qed.

(** Storing to one node and unlinking another commute. *)
Lemma erase_store n p f T : rb_erase_node n (store_node p f T) = store_node p f (rb_erase_node n T).
Proof.
  unfold store_node, nova_update_range_node_checksum, rb_erase_node. by destruct dram_struct_csum.
Qed.

(** ** The head of the tree *)

(** What [nova_alloc_unused_inode] finds. *)
Lemma head_ranges im :
  map_wf im -> exists p l h R, ids (inode_inuse_tree im) = p :: l
    /\ first_inode_range im = Some p /\ rng (inode_inuse_tree im) p = (0, h)
    /\ ranges (inode_inuse_tree im) = (0, h) :: R /\ R = rng (inode_inuse_tree im) <$> l
    /\ rb_next p (root (inode_inuse_tree im)) = head l /\ 0 <= h < MAX_INODE - 1.
Proof.
  intros Hw. destruct (mw_first _ Hw) as (p & l & E & Hf & H0).
  set (T := inode_inuse_tree im) in *. set (h := range_high (deref T p)).
  assert (Hr : rng T p = (0, h)) by (unfold rng; by rewrite H0).
  assert (Hrs : ranges T = (0, h) :: (rng T <$> l)) by (unfold ranges; rewrite E; simpl; by rewrite Hr).
  exists p, l, h, (rng T <$> l). split_and!; try done.
  - rewrite rb_next_inorder. fold (ids T). rewrite E. simpl. by rewrite decide_True.
  - pose proof (wf_sorted _ (mw_tree _ Hw)) as Hs. fold T in Hs. rewrite Hrs in Hs. simpl in Hs. lia.
  - apply (mw_max _ Hw (0, h)). fold T. rewrite Hrs. set_solver.
Qed.

(** ** Allocation *)

(** The head range, the rest of the tree and the node after the head. *)
Record head_at (im : inode_map) (p : ptr) (l : list ptr) (h : Z) : Prop := {
  ha_wf : map_wf im;
  ha_ids : ids (inode_inuse_tree im) = p :: l;
  ha_first : first_inode_range im = Some p;
  ha_rng : rng (inode_inuse_tree im) p = (0, h);
  ha_bound : 0 <= h < MAX_INODE - 1
}.

Lemma head_values im p l h :
  head_at im p l h ->
  let T := inode_inuse_tree im in
  range_low (deref T p) = 0 /\ range_high (deref T p) = h
  /\ ranges T = (0, h) :: (rng T <$> l)
  /\ sorted_from h (rng T <$> l) /\ sorted_from (h + 1) (widen <$> (rng T <$> l)).
Proof.
  intros [Hw E _ Hp Hh] T. assert (Er : ranges T = (0, h) :: (rng T <$> l))
    by (unfold ranges, T; rewrite E; cbn [fmap list_fmap]; by rewrite Hp).
  pose proof (wf_sorted _ (mw_tree _ Hw)) as Hs. pose proof (mw_gaps _ Hw) as Hg.
  fold T in Hs, Hg. unfold gapped in Hg. rewrite Er in Hs, Hg.
  unfold rng in Hp. injection Hp as H0 H1. by destruct Hs as (_ & _ & ?), Hg as (_ & _ & ?).
Qed.

(** The head range grows by one number. *)
Lemma extend_head im p l h :
  head_at im p l h -> h + 1 < MAX_INODE - 1 ->
  sorted_from (h + 2) (widen <$> (rng (inode_inuse_tree im) <$> l)) ->
  let im' := set_tree (store_node p (set_high (h + 1)) (inode_inuse_tree im)) im in
  map_wf im' /\ ~ used im (h + 1) /\ (forall x, used im' x <-> used im x \/ x = h + 1).
Proof.
  intros Ha Hmax Hgap im'. destruct (head_values _ _ _ _ Ha) as (H0 & H1 & Er & Hs & _).
  destruct Ha as [Hw E Hf Hp Hh]. set (T := inode_inuse_tree im) in *.
  assert (Hs' : sorted_from (h + 1) (rng T <$> l)).
  { eapply sorted_from_lower; [exact Hs|]. intros [a b] Hr.
    assert (Hin : widen (a, b) ∈ widen <$> (rng T <$> l)) by (by apply list_elem_of_fmap_2).
    destruct (sorted_from_bounds _ _ _ _ Hgap Hin). simpl in *. lia. }
  destruct (resize_node T [] p l (set_high (h + 1)) (mw_tree _ Hw) E) as (Hw' & Ei & Er').
  { simpl. rewrite H0. split_and!; [lia..|done]. }
  simpl in Er'. rewrite H0 in Er'. unfold used, im'. simpl inode_inuse_tree. fold T.
  rewrite Er, Er'. split_and!; [| |intros x; apply covers_add; lia].
  - unfold set_tree. rewrite Hf. eapply map_wf_intro; [exact Hw'|exact Ei|exact Er'|done| | |done|].
    + unfold gapped. cbn [fmap list_fmap widen fst snd sorted_from].
      split_and!; [lia..|]. by replace (h + 1 + 1) with (h + 2) by lia.
    + intros r' [->|Hr']%elem_of_cons; [done|]. apply (mw_max _ Hw r'). fold T. rewrite Er. set_solver.
    + rewrite Ei, (mw_num _ Hw). fold T. by rewrite E.
  - autorewrite with ranges. intros [?|Hu]; [lia|]. destruct (covers_lower _ _ _ Hs' Hu). lia.
Qed.

(** The gap before the second range is one number: the ranges merge. *)
Lemma fill_gap im p n l h a b :
  head_at im p (n :: l) h -> rng (inode_inuse_tree im) n = (a, b) -> h + 1 = a - 1 ->
  let im' := add_range_nodes (-1) (set_tree (nova_free_inode_node n
    (rb_erase_node n (store_node p (set_high b) (inode_inuse_tree im)))) im) in
  map_wf im' /\ ~ used im (h + 1) /\ (forall x, used im' x <-> used im x \/ x = h + 1).
Proof.
  intros Ha Hn Hgap im'. destruct (head_values _ _ _ _ Ha) as (H0 & H1 & Er & Hs & Hg).
  destruct Ha as [Hw E Hf Hp Hh]. pose proof (map_nodes _ Hw) as Hnum.
  set (T := inode_inuse_tree im) in *. cbn [fmap list_fmap] in *. rewrite Hn in *.
  cbn [widen fst snd sorted_from] in Hs, Hg. destruct Hs as (_ & Hab & Hs), Hg as (_ & _ & Hg).
  destruct (merge_hole T [] p n l (mw_tree _ Hw) E) as (Hw' & Ei & Er').
  assert (Hnb : range_high (deref T n) = b) by (unfold rng in Hn; congruence).
  rewrite Hnb, <- erase_store in Hw', Ei, Er'. simpl in Er'. rewrite H0 in Er'.
  unfold used, im', add_range_nodes, set_tree, nova_free_inode_node. simpl inode_inuse_tree.
  fold T. rewrite Er, Er'. split_and!; [| |intros x; autorewrite with ranges; intuition lia].
  - simpl. rewrite Hf. eapply map_wf_intro; [exact Hw'|exact Ei|exact Er'|done| | |done|].
    + unfold gapped. cbn [fmap list_fmap widen fst snd sorted_from]. split_and!; [lia..|done].
    + assert (Hin : forall r, r ∈ (a, b) :: (rng T <$> l) -> r.2 < MAX_INODE - 1).
      { intros r Hr. apply (mw_max _ Hw r). fold T. rewrite Er. set_solver. }
      intros r' [->|Hr']%elem_of_cons; [by apply (Hin (a, b)); left|]. apply Hin. set_solver.
    + rewrite Ei. pose proof (mw_num _ Hw) as Hnn. fold T in Hnn. rewrite E in Hnn.
      simpl length in *. rewrite u64_small; lia.
  - autorewrite with ranges. intros [?|[?|Hu]]; [lia..|]. destruct (covers_lower _ _ _ Hs Hu). lia.
Qed.

Lemma alloc_run sbi st cpuid im :
  map_at st cpuid = Some im -> map_wf im -> 0 <= cpuid < cpus sbi -> cpus sbi < TWO31 ->
  (exists im' n,
     nova_alloc_unused_inode sbi st cpuid
       = Some (0, Some (n * cpus sbi + cpuid),
               add_used 1 (store_map cpuid (count_allocated im') st))
     /\ map_wf im' /\ 0 < n /\ ~ used im n /\ (forall x, used im' x <-> used im x \/ x = n)
     /\ forall x, 0 <= x < n -> used im x)
  \/ (nova_alloc_unused_inode sbi st cpuid = Some (- ENOSPC, None, st)
      /\ forall x, 0 <= x < MAX_INODE - 1 -> used im x).
Proof.
  intros Hat Hw Hc Hcpus.
  destruct (head_ranges _ Hw) as (p & l & h & R & E & Hf & Hp & _ & _ & Hnx & Hh).
  assert (Ha : head_at im p l h) by (by split).
  destruct (head_values _ _ _ _ Ha) as (_ & Hhp & Hrs & _ & Hg).
  pose proof (mw_tree _ Hw) as Ht. pose proof (mw_max _ Hw) as Hm.
  unfold nova_alloc_unused_inode. rewrite Hat. cbn [mbind option_bind]. rewrite Hf.
  cbn [mbind option_bind]. cbv zeta. set (T := inode_inuse_tree im) in *.
  rewrite (wf_csum _ Ht p) by (rewrite E; set_solver). cbn [negb]. rewrite Hnx, Hhp.
  unfold MAX_INODE in *. rewrite (u64_small (h + 1)) by lia.
  assert (Hino : u64 ((h + 1) * cpus sbi + cpuid) = (h + 1) * cpus sbi + cpuid)
    by (apply u64_small; nia).
  assert (Hlow : forall x, 0 <= x < h + 1 -> used im x).
  { intros x Hx. unfold used. fold T. rewrite Hrs. autorewrite with ranges. lia. }
  destruct l as [|n l]; cbn [head].
  - rewrite (u64_small (TWO31 - 1)) by lia. destruct (Z.ltb_spec (h + 1) (TWO31 - 1)) as [Hlt|Hge].
    + destruct (extend_head im p [] h Ha) as (Hw' & Hu & Hx); [unfold MAX_INODE; lia|done|].
      left. eexists _, (h + 1). rewrite Hino. split; [done|]. split_and!; auto. lia.
    + right. split; [done|]. intros x Hx. unfold used. fold T. rewrite Hrs. autorewrite with ranges. lia.
  - cbn [fmap list_fmap] in *. destruct (rng T n) as [a b] eqn:Hn.
    pose proof Hn as Hn'. unfold rng in Hn'. injection Hn' as Hna Hnb. rewrite Hna, Hnb.
    cbn [widen fst snd sorted_from] in Hg. destruct Hg as (Hg1 & Hg2 & Hg3).
    rewrite (wf_csum _ Ht n) by (rewrite E; set_solver). cbn [negb].
    assert (Hb : b < TWO31 - 1) by (apply (Hm (a, b)); rewrite Hrs; set_solver).
    rewrite (u64_small (a - 1)) by lia.
    left. destruct (Z.eqb_spec (h + 1) (a - 1)) as [Heq|Hneq].
    + destruct (fill_gap im p n l h a b Ha Hn Heq) as (Hw' & Hu & Hx).
      eexists _, (h + 1). rewrite Hino. split; [done|]. split_and!; auto. lia.
    + rewrite (proj2 (Z.ltb_lt _ _)) by lia.
      destruct (extend_head im p (n :: l) h Ha) as (Hw' & Hu & Hx); [unfold MAX_INODE; lia| |].
      { cbn [fmap list_fmap]. fold T. rewrite Hn. simpl. split_and!; [lia..|done]. }
      eexists _, (h + 1). rewrite Hino. split; [done|]. split_and!; auto. lia.
Qed.

(** ** Freeing *)

(** The node [i] that holds [x], and what lies around it. *)
Record holds (im : inode_map) (l1 : list ptr) (i : ptr) (l2 : list ptr) (lo hi x : Z) : Prop := {
  ho_wf : map_wf im;
  ho_ids : ids (inode_inuse_tree im) = l1 ++ i :: l2;
  ho_rng : rng (inode_inuse_tree im) i = (lo, hi);
  ho_in : lo <= x <= hi;
  ho_pos : 0 < x
}.

Lemma holds_bounds im l1 i l2 lo hi x :
  holds im l1 i l2 lo hi x -> 0 <= lo /\ hi < MAX_INODE - 1 /\ (l1 = [] -> lo = 0)
  /\ (l1 = [] -> first_inode_range im = Some i)
  /\ (forall p l, l1 = p :: l -> first_inode_range im = Some p
        /\ range_low (deref (inode_inuse_tree im) p) = 0).
Proof.
  intros [Hw E Hr Hx _]. set (T := inode_inuse_tree im) in *.
  assert (Hin : (lo, hi) ∈ ranges T) by (rewrite <- Hr; apply list_elem_of_fmap_2; rewrite E; set_solver).
  pose proof (mw_max _ Hw _ Hin) as Hmx.
  destruct (sorted_from_bounds _ _ _ _ (wf_sorted _ (mw_tree _ Hw)) Hin) as (? & _).
  destruct (mw_first _ Hw) as (p & l & E' & Hf & H0). fold T in E', H0. rewrite E in E'.
  split_and!; [lia|done|..].
  - intros ->. simpl in E'. injection E' as -> _. unfold rng in Hr. congruence.
  - intros ->. simpl in E'. injection E' as -> _. done.
  - intros q k ->. simpl in E'. injection E' as -> _. done.
Qed.

(** Replacing the range of the node by the pieces [rs] left of it. *)
Lemma pieces_wf im l1 i l2 lo hi x T' m rs num' :
  holds im l1 i l2 lo hi x -> tree_wf T' -> ids T' = l1 ++ m ++ l2 ->
  ranges T' = (rng (inode_inuse_tree im) <$> l1) ++ rs ++ (rng (inode_inuse_tree im) <$> l2) ->
  sorted_from (lo - 1) (widen <$> rs) -> (forall r, r ∈ rs -> r.2 <= hi) ->
  (l1 = [] -> exists m' h rs', m = i :: m' /\ rs = (0, h) :: rs') ->
  (forall y, covers rs y <-> lo <= y <= hi /\ y <> x) ->
  num' = Z.of_nat (length (ids T')) ->
  let im' := InodeMap T' num' (first_inode_range im) (im_allocated im) (im_freed im) in
  map_wf im' /\ (forall y, used im' y <-> used im y /\ y <> x).
Proof.
  intros Hh Hw' E' Er' Hrs Hhi Hhead Hcov Hnum im'.
  destruct (holds_bounds _ _ _ _ _ _ _ Hh) as (Hlo & Hmax & Hl0 & Hf0 & Hf1).
  destruct Hh as [Hw E Hr Hx Hpos]. set (T := inode_inuse_tree im) in *.
  pose proof (ranges_split _ _ _ _ E) as Er. rewrite Hr in Er.
  assert (Hparts : gapped (ranges T)) by apply Hw. unfold gapped in Hparts.
  rewrite Er, fmap_app, fmap_cons, sorted_from_app in Hparts.
  cbn [widen fst snd sorted_from] in Hparts. destruct Hparts as (Hg1 & Hg2 & _ & Hg3).
  assert (Hs : sorted_from (-1) (ranges T)) by apply (mw_tree _ Hw).
  rewrite Er, sorted_from_app in Hs. cbn [sorted_from] in Hs. destruct Hs as (Hs1 & Hs2 & _ & Hs3).
  split.
  - split; simpl; [done| | | |done].
    + unfold gapped. rewrite Er', !fmap_app, !sorted_from_app. split_and!; [exact Hg1| |].
      * eapply sorted_from_weaken; [|exact Hrs]. lia.
      * eapply sorted_from_weaken; [|exact Hg3].
        assert (last_high (last_high (-1) (widen <$> (rng T <$> l1))) (widen <$> rs) < hi + 2); [|lia].
        apply last_high_lt; [lia|]. intros r' (r & -> & Hin)%list_elem_of_fmap.
        specialize (Hhi r Hin). simpl. lia.
    + destruct l1 as [|p l].
      * destruct (Hhead eq_refl) as (m' & h & rs' & -> & ->). exists i, (m' ++ l2).
        split_and!; [done|by apply Hf0|]. unfold ranges in Er'. rewrite E' in Er'. simpl in Er'.
        by injection Er' as ? _.
      * destruct (Hf1 p l eq_refl) as [? H0]. exists p, (l ++ m ++ l2). split_and!; [done..|].
        unfold ranges in Er'. rewrite E' in Er'. simpl in Er'. injection Er' as Ep _. by rewrite Ep.
    + intros r. rewrite Er', !elem_of_app. intros [Hin|[Hin|Hin]].
      * apply (mw_max _ Hw). fold T. rewrite Er. set_solver.
      * specialize (Hhi r Hin). lia.
      * apply (mw_max _ Hw). fold T. rewrite Er. set_solver.
  - intros y. unfold used. simpl. fold T. rewrite Er', Er, !covers_app, covers_cons, Hcov.
    assert (covers (rng T <$> l1) y -> y <> x)
      by (intros Hc; destruct (covers_lower _ _ _ Hs1 Hc); lia).
    assert (covers (rng T <$> l2) y -> y <> x)
      by (intros Hc; destruct (covers_lower _ _ _ Hs3 Hc); lia).
    intuition lia.
Qed.

(** The node is cut in two around [x]. *)
Lemma split_around T l1 i l2 lo hi x c T1 :
  tree_wf T -> ids T = l1 ++ i :: l2 -> rng T i = (lo, hi) -> lo < x < hi ->
  nova_alloc_range_node T = Some (c, T1) ->
  let T2 := store_node c (fun n => set_high hi (set_low (x + 1) n)) T1 in
  let T3 := store_node i (set_high (x - 1)) T2 in
  exists T', nova_insert_range_node T3 c NODE_INODE = (0, T')
    /\ tree_wf T' /\ ids T' = l1 ++ [i; c] ++ l2
    /\ ranges T' = (rng T <$> l1) ++ [(lo, x - 1); (x + 1, hi)] ++ (rng T <$> l2).
Proof.
  intros Hw E Hr Hx Hal T2 T3.
  destruct (wf_alloc_node _ _ _ Hw Hal) as (Hw1 & Hi1 & Hr1 & Hn1).
  destruct (alloc_node_spec _ _ _ Hal) as (_ & Hd & _ & Hde & _).
  destruct (wf_store_unlinked T1 c (fun n => set_high hi (set_low (x + 1) n)) Hw1 Hn1)
    as (Hw2 & Hi2 & _ & Hr2). fold T2 in Hw2, Hi2, Hr2.
  rewrite Hi1, E in Hi2. rewrite Hr1, (ranges_split _ _ _ _ E), Hr in Hr2.
  pose proof (ranges_split _ _ _ _ Hi2) as Hs2. rewrite Hr2 in Hs2.
  apply app_inj_1 in Hs2 as [Em1 Em2]; [|by rewrite !length_fmap]. injection Em2 as Ec1 Ec2 Em2.
  assert (Hne : c <> i) by (intros ->; apply Hn1; rewrite Hi1, E; set_solver).
  pose proof (wf_sorted _ Hw2) as Hs. rewrite Hr2, sorted_from_app in Hs.
  cbn [sorted_from] in Hs. destruct Hs as (Hs1 & Hlo & _ & Hs3).
  destruct (resize_node T2 l1 i l2 (set_high (x - 1)) Hw2 Hi2) as (Hw3 & Hi3 & Hr3).
  { rewrite <- Em1, <- Em2. simpl. rewrite <- Ec1, sorted_from_app. cbn [sorted_from].
    split_and!; [done|lia|lia|]. eapply sorted_from_weaken; [|exact Hs3]. lia. }
  fold T3 in Hw3, Hi3, Hr3. simpl in Hr3. rewrite <- Em1, <- Em2, <- Ec1 in Hr3.
  assert (Hc3 : deref T3 c = deref T2 c).
  { unfold T3. rewrite deref_store. by rewrite decide_False by congruence. }
  assert (Hrc : rng T3 c = (x + 1, hi)).
  { unfold rng. rewrite Hc3. unfold T2. rewrite deref_store, decide_True by done.
    by rewrite refreshed_low, refreshed_high. }
  assert (Hm : (rng T3 <$> (l1 ++ [i])) = (rng T <$> l1) ++ [(lo, x - 1)] /\ (rng T3 <$> l2) = rng T <$> l2).
  { unfold ranges in Hr3. rewrite Hi3 in Hr3.
    assert (El : l1 ++ i :: l2 = (l1 ++ [i]) ++ l2) by (by rewrite <- app_assoc).
    rewrite El, fmap_app in Hr3.
    assert (Er : (rng T <$> l1) ++ (lo, x - 1) :: (rng T <$> l2)
      = ((rng T <$> l1) ++ [(lo, x - 1)]) ++ (rng T <$> l2)) by (by rewrite <- app_assoc).
    rewrite Er in Hr3. apply app_inj_1 in Hr3; [done|]. rewrite !length_fmap, !length_app, length_fmap. done. }
  destruct Hm as [Hma Hmb]. rewrite insert_inode.
  destruct (wf_insert T3 c (l1 ++ [i]) l2) as (T' & -> & Hw' & Hi' & _ & Hr'); try done.
  - unfold T3, T2. rewrite !dom_store. set_solver.
  - rewrite Hi3, <- E, <- Hi1. done.
  - rewrite Hc3. unfold T2. rewrite deref_store, decide_True by done. apply refreshed_ok.
  - by rewrite Hi3, <- app_assoc.
  - rewrite Hma, Hmb, Hrc, <- app_assoc, sorted_from_app. cbn [app sorted_from].
    split_and!; [done|lia..|done].
  - exists T'. split_and!; [done|done|by rewrite Hi', <- app_assoc|].
    by rewrite Hr', Hma, Hmb, Hrc, <- app_assoc.
Qed.

(** The four ways to take [x] out. *)
Definition taken_out (im : inode_map) (x : Z) (im' : inode_map) : Prop :=
  map_wf im' /\ (forall y, used im' y <-> used im y /\ y <> x).

Lemma free_whole im l1 i l2 x :
  holds im l1 i l2 x x x ->
  let T := nova_free_inode_node i (rb_erase_node i (inode_inuse_tree im)) in
  taken_out im x (add_range_nodes (-1) (set_tree T im)).
Proof.
  intros Hh T'. destruct (holds_bounds _ _ _ _ _ _ _ Hh) as (Hlo & Hmax & Hl0 & _).
  pose proof Hh as [Hw E Hr Hx Hpos]. pose proof (mw_tree _ Hw) as Ht.
  pose proof (mw_num _ Hw) as Hnum. pose proof (map_nodes _ Hw) as Hnb.
  set (T := inode_inuse_tree im) in *. rewrite E, length_app in Hnum. cbn [length] in Hnum.
  assert (Ei : ids (rb_erase_node i T) = l1 ++ l2) by (by apply ids_unlink; [apply Ht|]).
  assert (Hni : i ∉ ids (rb_erase_node i T)).
  { rewrite Ei. destruct (wf_split_notin _ _ _ _ Ht E). set_solver. }
  unfold add_range_nodes, set_tree, T', nova_free_inode_node. simpl.
  apply (pieces_wf im l1 i l2 x x x _ [] []); try done.
  - apply wf_free; [by eapply wf_unlink|done].
  - rewrite ranges_free by done. by apply ranges_unlink; [apply Ht|].
  - set_solver.
  - intros ->. specialize (Hl0 eq_refl). lia.
  - intros y. rewrite covers_nil. lia.
  - change (ids (nova_free_range_node i ?t)) with (ids t). rewrite Ei, length_app.
    rewrite u64_small; lia.
Qed.

Lemma free_shrink im l1 i l2 lo hi x f lo' hi' :
  holds im l1 i l2 lo hi x ->
  range_low (f (deref (inode_inuse_tree im) i)) = lo' ->
  range_high (f (deref (inode_inuse_tree im) i)) = hi' ->
  (x = lo /\ lo' = lo + 1 /\ hi' = hi \/ x = hi /\ lo' = lo /\ hi' = hi - 1) -> lo' <= hi' ->
  taken_out im x (set_tree (store_node i f (inode_inuse_tree im)) im).
Proof.
  intros Hh El Er Hcase Hle. destruct (holds_bounds _ _ _ _ _ _ _ Hh) as (Hlo & Hmax & Hl0 & _).
  pose proof Hh as [Hw E Hr Hx Hpos]. pose proof (mw_tree _ Hw) as Ht.
  set (T := inode_inuse_tree im) in *.
  destruct (resize_node T l1 i l2 f Ht E) as (Hw' & Ei & Ers).
  { pose proof (wf_sorted _ Ht) as Hs. rewrite (ranges_split _ _ _ _ E), Hr, sorted_from_app in Hs.
    cbn [sorted_from] in Hs. rewrite El, Er, sorted_from_app. cbn [sorted_from].
    destruct Hs as (? & ? & ? & ?). split_and!; [done|lia|lia|].
    eapply sorted_from_weaken; [|done]. lia. }
  rewrite El, Er in Ers. unfold set_tree.
  apply (pieces_wf im l1 i l2 lo hi x _ [i] [(lo', hi')]); try done.
  - simpl. lia.
  - intros r Hin. apply list_elem_of_singleton in Hin. subst r. simpl. lia.
  - intros ->. specialize (Hl0 eq_refl). exists [], hi', []. split; [done|]. do 2 f_equal. lia.
  - intros y. rewrite covers_cons, covers_nil. lia.
  - rewrite Ei, (mw_num _ Hw). fold T. by rewrite E.
Qed.

Lemma free_split im l1 i l2 lo hi x c T1 :
  holds im l1 i l2 lo hi x -> lo < x < hi ->
  nova_alloc_range_node (inode_inuse_tree im) = Some (c, T1) ->
  let T2 := store_node c (fun n => set_high (range_high (deref T1 i)) (set_low (x + 1) n)) T1 in
  let T3 := store_node i (set_high (x - 1)) T2 in
  exists T', nova_insert_range_node T3 c NODE_INODE = (0, T')
    /\ taken_out im x (add_range_nodes 1 (set_tree T' im)).
Proof.
  intros Hh Hx2 Hal. destruct (holds_bounds _ _ _ _ _ _ _ Hh) as (Hlo & Hmax & Hl0 & _).
  pose proof Hh as [Hw E Hr Hx Hpos]. pose proof (mw_tree _ Hw) as Ht.
  pose proof (mw_num _ Hw) as Hnum. pose proof (map_nodes _ Hw) as Hnb.
  rewrite E, length_app in Hnum. cbn [length] in Hnum.
  assert (Ehi : range_high (deref T1 i) = hi).
  { destruct (alloc_node_spec _ _ _ Hal) as (Hf & _ & _ & Hd & _).
    rewrite Hd; [unfold rng in Hr; congruence|]. intros ->. apply Hf, (wf_alloc _ Ht).
    rewrite E. set_solver. }
  rewrite Ehi. destruct (split_around _ l1 i l2 lo hi x c T1 Ht E Hr Hx2 Hal) as (T' & Hins & Hw' & Ei & Er).
  exists T'. split; [exact Hins|]. unfold add_range_nodes, set_tree. simpl.
  apply (pieces_wf im l1 i l2 lo hi x T' [i; c] [(lo, x - 1); (x + 1, hi)]); try done.
  - simpl. lia.
  - intros r [->|[->|Hin]%elem_of_cons]%elem_of_cons; simpl; [lia|lia|set_solver].
  - intros ->. specialize (Hl0 eq_refl) as ->. by eexists _, _, _.
  - intros y. rewrite !covers_cons, covers_nil. lia.
  - rewrite Ei, !length_app. simpl length. rewrite u64_small; lia.
Qed.

Lemma free_node_run im l1 i l2 lo hi x :
  (forall T, is_Some (nova_alloc_range_node T)) -> holds im l1 i l2 lo hi x ->
  exists im', free_from_node im i x = inl (0, im') /\ taken_out im x im'.
Proof.
  intros Hslab Hh. destruct (holds_bounds _ _ _ _ _ _ _ Hh) as (Hlo & Hmax & _).
  pose proof Hh as [_ _ Hr Hx Hpos]. unfold free_from_node. cbv zeta. unfold MAX_INODE in Hmax.
  assert (Hlh : range_low (deref (inode_inuse_tree im) i) = lo
    /\ range_high (deref (inode_inuse_tree im) i) = hi) by (unfold rng in Hr; by simplify_eq).
  destruct Hlh as [Elo Ehi]. rewrite Elo, Ehi.
  destruct (Z.eqb_spec x lo) as [Hxl|Hxl]; destruct (Z.eqb_spec x hi) as [Hxh|Hxh]; cbn [andb].
  - assert (lo = x) as -> by lia. assert (hi = x) as -> by lia.
    eexists. split; [reflexivity|]. exact (free_whole im l1 i l2 x Hh).
  - rewrite (proj2 (Z.ltb_lt x hi)), u64_small by lia. eexists. split; [done|].
    by eapply (free_shrink _ l1 i l2 lo hi x _ (x + 1) hi); [done..|lia|lia].
  - rewrite (proj2 (Z.ltb_lt lo x)), u64_small by lia. eexists. split; [done|].
    by eapply (free_shrink _ l1 i l2 lo hi x _ lo (x - 1)); [done..|lia|lia].
  - rewrite !(proj2 (Z.ltb_lt _ _)) by lia. cbn [andb]. unfold nova_alloc_inode_node.
    destruct (Hslab (inode_inuse_tree im)) as [[c T1] Hal]. rewrite Hal. cbv zeta.
    rewrite (u64_small (x + 1)), (u64_small (x - 1)) by lia.
    destruct (free_split im l1 i l2 lo hi x c T1 Hh) as (T' & Hins & Ht); [lia|done|].
    unfold nova_insert_inodetree. simpl inode_inuse_tree. rewrite Hins. by eexists.
Qed.
End spec.
