(* ===== verification/InodeMapTheorems.v ===== *)
(** The properties of inode numbers: allocation, freeing, initialisation and
    the refinement of the per-CPU trees to one set of numbers. *)

From S2P Require Import Prelude.
From S2P Require Import Kernel.
From S2P Require Import Checksum.
From S2P Require Import RangeTree.
From S2P Require Import RangeTreeSpec.
From S2P Require Import Layout.
From S2P Require Import FreeList.
From S2P Require Import FreeListSpec.
From S2P Require Import InodeMap.
From S2P Require Import InodeMapSpec.

(** One well-formed map per CPU. *)
Record maps_wf {KM : KmemOps} {CR : CrcOps} {MP : ModParams}
    (sbi : nova_sb_info) (st : ino_state) : Prop := {
  ms_cpus : 0 < cpus sbi < TWO31;
  ms_len : Z.of_nat (length (inode_maps st)) = cpus sbi;
  ms_map : forall cpu im, map_at st cpu = Some im -> map_wf im
}.

(** Number [ino] is in use. *)
Definition in_use (sbi : nova_sb_info) (st : ino_state) (ino : Z) : Prop :=
  exists im, map_at st (ino mod cpus sbi) = Some im /\ used im (ino / cpus sbi).

(** ** Histories: the abstract allocator is one set of numbers *)

Inductive ino_op := OpAlloc (cpuid : Z) | OpFree (ino : Z).

(** What one operation may answer ([ret], [*ino]) when the numbers in use are
    [P], and the numbers in use after it. *)
Inductive spec_op (n : Z) (P : Z -> Prop) : ino_op -> Z * option Z -> (Z -> Prop) -> Prop :=
  | spec_alloc c ino :
      ino mod n = c -> ~ P ino ->
      spec_op n P (OpAlloc c) (0, Some ino) (fun y => P y \/ y = ino)
  | spec_full c :
      (forall y, y mod n = c -> 0 <= y < (MAX_INODE - 1) * n -> P y) ->
      spec_op n P (OpAlloc c) (- ENOSPC, None) P
  | spec_free ino :
      P ino -> spec_op n P (OpFree ino) (0, None) (fun y => P y /\ y <> ino)
  | spec_refuse ino :
      ~ P ino -> spec_op n P (OpFree ino) (- EINVAL, None) P.

Inductive spec_run (n : Z) : (Z -> Prop) -> list ino_op -> list (Z * option Z) -> (Z -> Prop) -> Prop :=
  | spec_nil P Q : (forall y, P y <-> Q y) -> spec_run n P [] [] Q
  | spec_cons P P' Q op ops r rs :
      spec_op n P op r P' -> spec_run n P' ops rs Q ->
      spec_run n P (op :: ops) (r :: rs) Q.

(** The operation is called the way the file system calls it. *)
Definition op_valid (sbi : nova_sb_info) (op : ino_op) : Prop :=
  match op with
  | OpAlloc cpuid => 0 <= cpuid < cpus sbi
  | OpFree ino => cpus sbi <= ino
  end.

Section histories.
Context {RB : RbOps} {KM : KmemOps} {CR : CrcOps} {MP : ModParams}.
Context (sbi : nova_sb_info).

Definition run_op (st : ino_state) (op : ino_op) : option (Z * option Z * ino_state) :=
  match op with
  | OpAlloc cpuid => nova_alloc_unused_inode sbi st cpuid
  | OpFree ino => '(ret, st') ← nova_free_inuse_inode sbi st ino; Some (ret, None, st')
  end.

Fixpoint run_ops (st : ino_state) (ops : list ino_op) : option (list (Z * option Z) * ino_state) :=
  match ops with
  | [] => Some ([], st)
  | op :: ops =>
      '(ret, ino, st) ← run_op st op;
      '(rs, st) ← run_ops st ops;
      Some ((ret, ino) :: rs, st)
  end.
End histories.

Section lemmas.
Context {RB : RbOps} {KM : KmemOps} {CR : CrcOps} {MP : ModParams}.
Context {RBL : RbLaws} {KML : KmemLaws}.
Context (sbi : nova_sb_info).

Lemma map_at_range st cpu im : map_at st cpu = Some im -> 0 <= cpu < Z.of_nat (length (inode_maps st)).
Proof.
  unfold map_at. destruct (Z.ltb_spec cpu 0); [done|]. intros E%lookup_lt_Some. lia.
Qed.

Lemma map_at_some st cpu :
  maps_wf sbi st -> 0 <= cpu < cpus sbi -> exists im, map_at st cpu = Some im /\ map_wf im.
Proof.
  intros Hw Hc. pose proof (ms_len _ _ Hw).
  destruct (lookup_lt_is_Some_2 (inode_maps st) (Z.to_nat cpu)) as [im Hi]; [lia|].
  assert (E : map_at st cpu = Some im).
  { unfold map_at. by rewrite (proj2 (Z.ltb_ge _ _)) by lia. }
  exists im. split; [done|]. by apply (ms_map _ _ Hw cpu).
Qed.

Lemma map_at_store st cpu im cpu' :
  0 <= cpu < Z.of_nat (length (inode_maps st)) -> 0 <= cpu' ->
  map_at (store_map cpu im st) cpu' = if decide (cpu' = cpu) then Some im else map_at st cpu'.
Proof.
  intros Hc Hc'. unfold map_at, store_map. simpl. rewrite (proj2 (Z.ltb_ge cpu' 0)) by lia.
  case_decide as Hd.
  - subst. by rewrite list_lookup_insert_eq by lia.
  - rewrite list_lookup_insert_ne; [done|]. intros ?. apply Hd. lia.
Qed.

Lemma map_at_add d st cpu : map_at (add_used d st) cpu = map_at st cpu.
Proof. done. Qed.

Lemma store_maps_wf st cpu im :
  maps_wf sbi st -> 0 <= cpu < cpus sbi -> map_wf im -> maps_wf sbi (store_map cpu im st).
Proof.
  intros Hw Hc Him. pose proof (ms_len _ _ Hw). split; [apply Hw| |].
  - simpl. by rewrite length_insert.
  - intros c im' Hat. pose proof (map_at_range _ _ _ Hat) as Hr.
    rewrite map_at_store in Hat by lia. case_decide; [by injection Hat as <-|].
    by apply (ms_map _ _ Hw c).
Qed.

Lemma add_maps_wf d st : maps_wf sbi st -> maps_wf sbi (add_used d st).
Proof. intros []. by split. Qed.

(** Changing the numbers of one CPU. *)
Lemma in_use_store st cpu im im' (P : Z -> Prop) :
  maps_wf sbi st -> map_at st cpu = Some im ->
  (forall x, used im' x <-> P (x * cpus sbi + cpu)) ->
  forall y, in_use sbi (store_map cpu im' st) y
    <-> if decide (y mod cpus sbi = cpu) then P y else in_use sbi st y.
Proof.
  intros Hw Hat HP y. pose proof (map_at_range _ _ _ Hat) as Hc. pose proof (ms_cpus _ _ Hw) as Hn.
  pose proof (Z.mod_pos_bound y (cpus sbi) ltac:(lia)) as Hm.
  pose proof (Z.div_mod y (cpus sbi) ltac:(lia)) as Hd. unfold in_use.
  rewrite map_at_store by lia. case_decide as He; [|done]. split.
  - intros (i & Hi & Hu). injection Hi as <-. apply HP in Hu. rewrite <- He in Hu.
    by replace (y / cpus sbi * cpus sbi + y mod cpus sbi) with y in Hu by lia.
  - intros HPy. exists im'. split; [done|]. apply HP. rewrite <- He.
    by replace (y / cpus sbi * cpus sbi + y mod cpus sbi) with y by lia.
Qed.

Lemma in_use_at st cpu im x :
  map_at st cpu = Some im -> 0 <= cpu < cpus sbi ->
  in_use sbi st (x * cpus sbi + cpu) <-> used im x.
Proof.
  intros Hat Hc. unfold in_use. rewrite (Z.add_comm (_ * _)), Z.mod_add, Z.mod_small by lia.
  rewrite Z.div_add, Z.div_small by lia. rewrite Hat. simpl. split; [by intros (i & [= <-] & ?)|eauto].
Qed.

Lemma search_inode st ino im :
  maps_wf sbi st -> map_at st (ino mod cpus sbi) = Some im ->
  nova_search_inodetree sbi st ino
    = Some (nova_find_range_node (inode_inuse_tree im) (ino / cpus sbi) NODE_INODE None).
Proof.
  intros Hw Hat. pose proof (ms_cpus _ _ Hw). unfold nova_search_inodetree.
  pose proof (Z.mod_pos_bound ino (cpus sbi) ltac:(lia)).
  rewrite (proj2 (Z.eqb_neq _ _)), s32_small by lia. by rewrite Hat.
Qed.
(** ** mkfs *)

Lemma range_high_bound : 0 < cpus sbi -> 0 < init_range_high sbi < 34.
Proof.
  intros Hc. unfold init_range_high, NOVA_NORMAL_INODE_START.
  pose proof (Z.div_mod 32 (cpus sbi) ltac:(lia)). pose proof (Z.mod_pos_bound 32 (cpus sbi) Hc).
  destruct (Z.eqb_spec (32 mod cpus sbi) 0); simpl; nia.
Qed.

Lemma init_map_one :
  (forall T, is_Some (nova_alloc_range_node T)) -> 0 < cpus sbi ->
  exists p T T', nova_alloc_inode_node empty_rtree = Some (p, T)
    /\ nova_insert_inodetree (set_tree (store_node p
         (fun n => set_high (init_range_high sbi) (set_low 0 n)) T) empty_inode_map) p
       = (0, set_tree T' empty_inode_map)
    /\ map_wf (InodeMap T' 1 (Some p) 0 0) /\ ranges T' = [(0, init_range_high sbi)].
Proof.
  intros Hslab Hc. pose proof (range_high_bound Hc) as Hh.
  assert (Hw0 : tree_wf empty_rtree).
  { split; [by apply NoDup_nil|set_solver|set_solver|done]. }
  unfold nova_alloc_inode_node. destruct (Hslab empty_rtree) as [[p T] Hal].
  exists p, T. destruct (wf_alloc_node _ _ _ Hw0 Hal) as (Hw & Hi & Hr & Hn).
  destruct (alloc_node_spec _ _ _ Hal) as (_ & Hdom & _).
  destruct (insert_filled T p (fun n => set_high (init_range_high sbi) (set_low 0 n)) [] [] Hw Hdom Hn)
    as (T' & Hins & Hw' & Hi' & _ & Hr'); [done|simpl; lia|].
  simpl in Hi', Hr'. exists T'. split; [exact Hal|]. unfold nova_insert_inodetree.
  simpl inode_inuse_tree. rewrite insert_inode. unfold nova_insert_blocktree in Hins.
  rewrite Hins. split; [done|]. split; [|exact Hr'].
  apply (map_wf_intro (InodeMap T' 1 (Some p) 0 0) T' 1 p [] (0, init_range_high sbi) []); try done.
  - unfold gapped. simpl. lia.
  - intros r ->%list_elem_of_singleton. simpl. unfold MAX_INODE. lia.
  - by rewrite Hi'.
Qed.

(** The map [nova_init_inode_inuse_list] leaves for a CPU. *)
Definition initial_map (im : inode_map) : Prop :=
  map_wf im /\ ranges (inode_inuse_tree im) = [(0, init_range_high sbi)].

Lemma init_loop_ok n i st :
  (forall T, is_Some (nova_alloc_range_node T)) -> 0 < cpus sbi -> 0 <= i ->
  i + Z.of_nat n = Z.of_nat (length (inode_maps st)) ->
  (forall c, i <= c < i + Z.of_nat n -> map_at st c = Some empty_inode_map) ->
  exists st', init_inuse_loop sbi n i st = Some (0, st')
    /\ length (inode_maps st') = length (inode_maps st)
    /\ s_inodes_used_count st' = s_inodes_used_count st
    /\ (forall c, 0 <= c < i -> map_at st' c = map_at st c)
    /\ (forall c, i <= c < i + Z.of_nat n -> exists im, map_at st' c = Some im /\ initial_map im).
Proof.
  intros Hslab Hc. revert i st. induction n as [|n IH]; intros i st Hi Hlen He.
  { exists st. split_and!; [done..|]. lia. }
  destruct (init_map_one Hslab Hc) as (p & T & T' & Hal & Hins & Hw & Hr).
  cbn [init_inuse_loop]. rewrite (He i) by lia. cbn [mbind option_bind].
  simpl inode_inuse_tree. rewrite Hal, Hins. cbn [Z.eqb negb].
  set (st1 := store_map i _ st). assert (Hlen1 : length (inode_maps st1) = length (inode_maps st))
    by apply length_insert.
  destruct (IH (i + 1) st1) as (st' & -> & Hl & Hcnt & Hlow & Hhigh); [lia|lia| |].
  { intros c Hcc. unfold st1. rewrite map_at_store, decide_False by lia. apply He. lia. }
  exists st'. split_and!; [done|lia|done| |].
  - intros c Hcc. rewrite Hlow by lia. unfold st1. by rewrite map_at_store, decide_False by lia.
  - intros c Hcc. destruct (decide (c = i)) as [->|Hne]; [|apply Hhigh; lia].
    eexists. rewrite Hlow by lia. unfold st1. rewrite map_at_store, decide_True by lia.
    split; [done|]. by split.
Qed.
(** ** The abstract allocator *)

Lemma spec_op_ext n P Q op r P' :
  (forall y, P y <-> Q y) -> spec_op n P op r P' ->
  exists Q', spec_op n Q op r Q' /\ forall y, P' y <-> Q' y.
Proof.
  intros HE H. destruct H as [c ino Hm Hu|c Hall|ino Hu|ino Hu].
  - eexists. split; [by apply spec_alloc; [|rewrite <- HE]|]. simpl. intros y. by rewrite HE.
  - exists Q. split; [|done]. apply spec_full. intros y Hy Hr. apply HE. by apply Hall.
  - eexists. split; [by apply spec_free, HE|]. simpl. intros y. by rewrite HE.
  - exists Q. split; [|done]. apply spec_refuse. by rewrite <- HE.
Qed.

Lemma spec_run_ext n P P0 ops rs Q :
  (forall y, P y <-> P0 y) -> spec_run n P ops rs Q -> spec_run n P0 ops rs Q.
Proof.
  intros HE H. revert P0 HE. induction H as [P Q H|P P' Q op ops r rs Hop _ IH]; intros P0 HE.
  - apply spec_nil. intros y. by rewrite <- HE.
  - destruct (spec_op_ext n P P0 op r P' HE Hop) as (Q' & Hop' & HE').
    eapply spec_cons; [exact Hop'|]. by apply IH.
Qed.
End lemmas.

Section operations.
Context {RB : RbOps} {KM : KmemOps} {CR : CrcOps} {MP : ModParams}.
Context {RBL : RbLaws} {KML : KmemLaws}.

(** The two operations on the whole state. *)
Lemma alloc_op sbi st cpuid :
  maps_wf sbi st -> 0 <= cpuid < cpus sbi ->
  (exists ino st', nova_alloc_unused_inode sbi st cpuid = Some (0, Some ino, st')
     /\ maps_wf sbi st' /\ ino mod cpus sbi = cpuid /\ cpus sbi <= ino
     /\ ~ in_use sbi st ino
     /\ (forall y, y mod cpus sbi = cpuid -> 0 <= y < ino -> in_use sbi st y)
     /\ (forall y, in_use sbi st' y <-> in_use sbi st y \/ y = ino)
     /\ s_inodes_used_count st' = u64 (s_inodes_used_count st + 1))
  \/ (nova_alloc_unused_inode sbi st cpuid = Some (- ENOSPC, None, st)
      /\ forall y, y mod cpus sbi = cpuid -> 0 <= y < (MAX_INODE - 1) * cpus sbi ->
           in_use sbi st y).
Proof.
  intros Hw Hc. destruct (map_at_some sbi st cpuid Hw Hc) as (im & Hat & Him).
  pose proof (ms_cpus _ _ Hw) as Hn.
  assert (Hsplit : forall y, y mod cpus sbi = cpuid -> y = y / cpus sbi * cpus sbi + cpuid).
  { intros y Hy. pose proof (Z.div_mod y (cpus sbi) ltac:(lia)). lia. }
  destruct (alloc_run sbi st cpuid im Hat Him Hc) as [(im' & n & -> & Hw' & Hpos & Hu & Hx & Hlow)|[-> Hall]];
    [lia|left|right].
  - set (ino := n * cpus sbi + cpuid).
    assert (Hm : ino mod cpus sbi = cpuid).
    { unfold ino. rewrite Z.add_comm, Z.mod_add, Z.mod_small; lia. }
    eexists ino, _. split; [done|]. split_and!; [| |nia| | | |done].
    + apply add_maps_wf, store_maps_wf; [done..|]. by apply counted_wf.
    + exact Hm.
    + unfold ino. by rewrite (in_use_at sbi st cpuid im).
    + intros y Hy Hlt. rewrite (Hsplit y Hy), (in_use_at sbi st cpuid im) by done.
      apply Hlow. pose proof (Hsplit y Hy). unfold ino in Hlt. nia.
    + intros y. change (in_use sbi (add_used 1 ?s)) with (in_use sbi s).
      rewrite (in_use_store sbi st cpuid im (count_allocated im')
        (fun y => in_use sbi st y \/ y = ino)); [|done|done|].
      * case_decide as Hd; [done|]. split; [by left|]. intros [?|Hy]; [done|]. subst y. done.
      * intros x. change (used (count_allocated im') x) with (used im' x).
        rewrite Hx, (in_use_at sbi st cpuid im) by done. unfold ino. split; intros [?|?]; auto; right; nia.
  - split; [done|]. intros y Hy Hb. rewrite (Hsplit y Hy), (in_use_at sbi st cpuid im) by done.
    apply Hall. pose proof (Hsplit y Hy). nia.
Qed.

Lemma free_op sbi st ino :
  maps_wf sbi st -> (forall T, is_Some (nova_alloc_range_node T)) -> cpus sbi <= ino ->
  (in_use sbi st ino ->
     exists st', nova_free_inuse_inode sbi st ino = Some (0, st') /\ maps_wf sbi st'
       /\ (forall y, in_use sbi st' y <-> in_use sbi st y /\ y <> ino)
       /\ s_inodes_used_count st' = u64 (s_inodes_used_count st - 1))
  /\ (~ in_use sbi st ino -> nova_free_inuse_inode sbi st ino = Some (- EINVAL, st)).
Proof.
  intros Hw Hslab Hino. pose proof (ms_cpus _ _ Hw) as Hn.
  pose proof (Z.mod_pos_bound ino (cpus sbi) ltac:(lia)) as Hm.
  pose proof (Z.div_mod ino (cpus sbi) ltac:(lia)) as Hdm.
  destruct (map_at_some sbi st _ Hw Hm) as (im & Hat & Him).
  pose proof (mw_tree _ Him) as Ht. set (c := ino mod cpus sbi) in *. set (x := ino / cpus sbi) in *.
  assert (Hu : in_use sbi st ino <-> used im x).
  { rewrite <- (in_use_at sbi st c im) by done. by replace (x * cpus sbi + c) with ino by lia. }
  rewrite Hu. unfold nova_free_inuse_inode.
  rewrite (proj2 (Z.eqb_neq (cpus sbi) 0)) by lia. fold c x. rewrite s32_small by lia.
  rewrite Hat. cbn [mbind option_bind]. rewrite (search_inode sbi st ino im Hw Hat).
  cbn [mbind option_bind]. fold x. split.
  - intros Hx. destruct (find_range_node_found _ x NODE_INODE None Ht ltac:(done) Hx)
      as (i & -> & Hin & Hb). apply list_elem_of_split in Hin as (l1 & l2 & E).
    destruct (free_node_run im l1 i l2 (range_low (deref (inode_inuse_tree im) i))
      (range_high (deref (inode_inuse_tree im) i)) x Hslab) as (im' & Hf & Hw' & Hux).
    { split; [done|done|done|done|]. nia. }
    cbn [Z.eqb mbind option_bind]. rewrite Hf. eexists. split; [done|]. split_and!; [| |done].
    + apply add_maps_wf, store_maps_wf; [done..|]. by apply freed_wf.
    + intros y. change (in_use sbi (add_used (-1) ?s)) with (in_use sbi s).
      rewrite (in_use_store sbi st c im (count_freed im') (fun y => in_use sbi st y /\ y <> ino));
        [|done|done|].
      * case_decide as Hd; [done|]. split; [|by intros [? _]]. intros ?. split; [done|].
        by intros ->.
      * intros z. change (used (count_freed im') z) with (used im' z).
        rewrite Hux, (in_use_at sbi st c im) by done. split; intros [? ?]; (split; [done|]); nia.
  - intros Hx. destruct (find_range_node_wf _ x NODE_INODE None Ht ltac:(done))
      as [(p & _ & Hp & Hk)|(? & ? & ? & -> & _)]; [|done].
    destruct Hx. apply covers_ranges. eauto.
Qed.

Lemma in_use_dec sbi st ino : Decision (in_use sbi st ino).
Proof.
  unfold in_use. destruct (map_at st (ino mod cpus sbi)) as [im|]; [|right; by intros (? & [=] & _)].
  destruct (decide (Exists (fun r => r.1 <= ino / cpus sbi <= r.2) (ranges (inode_inuse_tree im)))) as [Hd|Hd].
  - left. exists im. split; [done|]. by apply Exists_exists in Hd.
  - right. intros (im' & [= <-] & Hu). apply Hd, Exists_exists. exact Hu.
Qed.

Lemma init_op sbi st :
  (forall T, is_Some (nova_alloc_range_node T)) -> 0 < cpus sbi < TWO31 ->
  inode_maps st = init_inode_maps sbi ->
  exists st', nova_init_inode_inuse_list sbi st = Some (0, st') /\ maps_wf sbi st'
    /\ s_inodes_used_count st' = NOVA_NORMAL_INODE_START
    /\ (forall y, in_use sbi st' y <-> 0 <= y < (init_range_high sbi + 1) * cpus sbi)
    /\ (forall y, 0 <= y <= NOVA_NORMAL_INODE_START -> in_use sbi st' y).
Proof.
  intros Hslab Hc Hmaps. unfold nova_init_inode_inuse_list.
  rewrite (proj2 (Z.eqb_neq (cpus sbi) 0)) by lia.
  assert (Hlen : Z.of_nat (length (inode_maps st)) = cpus sbi).
  { rewrite Hmaps. unfold init_inode_maps. rewrite length_replicate. lia. }
  destruct (init_loop_ok sbi (Z.to_nat (cpus sbi)) 0 (set_used NOVA_NORMAL_INODE_START st) Hslab)
    as (st' & -> & Hl & Hcnt & _ & Hin); [lia|lia|simpl; lia| |].
  { intros c Hcc. unfold map_at. simpl. rewrite (proj2 (Z.ltb_ge c 0)) by lia. rewrite Hmaps.
    apply lookup_replicate_2. lia. }
  simpl in Hl. exists st'. split; [done|].
  assert (Hall : forall c, 0 <= c < cpus sbi -> exists im, map_at st' c = Some im /\ initial_map sbi im)
    by (intros; apply Hin; lia).
  assert (Huse : forall y, in_use sbi st' y <-> 0 <= y < (init_range_high sbi + 1) * cpus sbi).
  { intros y. pose proof (Z.mod_pos_bound y (cpus sbi) ltac:(lia)) as Hm.
    pose proof (Z.div_mod y (cpus sbi) ltac:(lia)) as Hd. unfold in_use.
    destruct (Hall _ Hm) as (im & Hat & _ & Hr). rewrite Hat. unfold used. split.
    - intros (i & Hi & Hu). injection Hi as <-. rewrite Hr in Hu. autorewrite with ranges in Hu. nia.
    - intros Hy. exists im. split; [done|]. rewrite Hr. autorewrite with ranges. left. nia. }
  split_and!; [|done|done|].
  - split; [done|lia|]. intros c im Hat. pose proof (map_at_range _ _ _ Hat).
    destruct (Hall c) as (im' & Hat' & Hw & _); [lia|]. by simplify_eq.
  - intros y Hy. apply Huse. unfold init_range_high, NOVA_NORMAL_INODE_START in *.
    pose proof (Z.div_mod 32 (cpus sbi) ltac:(lia)). pose proof (Z.mod_pos_bound 32 (cpus sbi) ltac:(lia)).
    destruct (Z.eqb_spec (32 mod cpus sbi) 0); simpl; nia.
Qed.
End operations.

Section theorems.
Context {RB : RbOps} {KM : KmemOps} {CR : CrcOps} {MP : ModParams}.
Context {RBL : RbLaws} {KML : KmemLaws}.

(** C24. [nova_alloc_unused_inode] (inode.c) hands out the smallest number of
    the CPU that is not in use and marks exactly it, whether the number extends
    the first range or closes the gap to the second; the per-CPU maps stay well
    formed and the count of used numbers grows by one.  It fails only with
    -ENOSPC, without any change, and only when all numbers of the CPU are in
    use. *)
Theorem alloc_unused_inode_fresh sbi st cpuid :
  maps_wf sbi st -> 0 <= cpuid < cpus sbi ->
  (exists ino st', nova_alloc_unused_inode sbi st cpuid = Some (0, Some ino, st')
     /\ maps_wf sbi st' /\ ino mod cpus sbi = cpuid /\ cpus sbi <= ino
     /\ ~ in_use sbi st ino
     /\ (forall y, y mod cpus sbi = cpuid -> 0 <= y < ino -> in_use sbi st y)
     /\ (forall y, in_use sbi st' y <-> in_use sbi st y \/ y = ino)
     /\ s_inodes_used_count st' = u64 (s_inodes_used_count st + 1))
  \/ (nova_alloc_unused_inode sbi st cpuid = Some (- ENOSPC, None, st)
      /\ forall y, y mod cpus sbi = cpuid -> 0 <= y < (MAX_INODE - 1) * cpus sbi ->
           in_use sbi st y).
Proof. apply alloc_op. Qed.

(** [nova_free_inuse_inode] takes a number that is in use out, and no
    other, in each of its four cases (whole node, left end, right end, split);
    the maps stay well formed and the count drops by one.  A number that is
    not in use is refused with -EINVAL and nothing changes.  The numbers below
    the number of CPUs are reserved and stay in use. *)
Theorem free_inuse_inode_frees sbi st ino :
  maps_wf sbi st -> (forall T, is_Some (nova_alloc_range_node T)) -> cpus sbi <= ino ->
  (in_use sbi st ino ->
     exists st', nova_free_inuse_inode sbi st ino = Some (0, st') /\ maps_wf sbi st'
       /\ (forall y, in_use sbi st' y <-> in_use sbi st y /\ y <> ino)
       /\ s_inodes_used_count st' = u64 (s_inodes_used_count st - 1))
  /\ (~ in_use sbi st ino -> nova_free_inuse_inode sbi st ino = Some (- EINVAL, st)).
Proof. apply free_op. Qed.
(** mkfs ([nova_init_inode_inuse_list] on the maps [nova_fill_super]
    allocated) yields well-formed maps in which the reserved numbers, 0 up to
    [NOVA_NORMAL_INODE_START], are in use, together with the rest of the rows
    of [cpus] numbers that hold them, and no other. *)
Theorem init_inuse_list_reserves sbi st :
  (forall T, is_Some (nova_alloc_range_node T)) -> 0 < cpus sbi < TWO31 ->
  inode_maps st = init_inode_maps sbi ->
  exists st', nova_init_inode_inuse_list sbi st = Some (0, st') /\ maps_wf sbi st'
    /\ s_inodes_used_count st' = NOVA_NORMAL_INODE_START
    /\ (forall y, in_use sbi st' y <-> 0 <= y < (init_range_high sbi + 1) * cpus sbi)
    /\ (forall y, 0 <= y <= NOVA_NORMAL_INODE_START -> in_use sbi st' y).
Proof. apply init_op. Qed.
(** One operation of the code is one operation of the abstract allocator. *)
Lemma run_op_refines sbi st op :
  maps_wf sbi st -> (forall T, is_Some (nova_alloc_range_node T)) -> op_valid sbi op ->
  exists ret ino st' P', run_op sbi st op = Some (ret, ino, st') /\ maps_wf sbi st'
    /\ spec_op (cpus sbi) (in_use sbi st) op (ret, ino) P'
    /\ forall y, in_use sbi st' y <-> P' y.
Proof.
  intros Hw Hslab Hv. destruct op as [c|ino]; simpl in Hv |- *.
  - destruct (alloc_op sbi st c Hw Hv) as [(ino & st' & E & Hw' & Hm & _ & Hu & _ & Hx & _)|[E Hall]]; rewrite E.
    + eexists _, _, _, _. split_and!; [done|done|by apply spec_alloc|done].
    + eexists _, _, _, _. split_and!; [done|done|by apply spec_full|done].
  - destruct (free_op sbi st ino Hw Hslab Hv) as [Hin Hout].
    destruct (in_use_dec sbi st ino) as [Hu|Hu].
    + destruct (Hin Hu) as (st' & -> & Hw' & Hx & _).
      eexists _, _, _, _. split_and!; [done|done|by apply spec_free|done].
    + rewrite (Hout Hu). eexists _, _, _, _. split_and!; [done|done|by apply spec_refuse|done].
Qed.

(** C27. Refinement: any history of allocations and frees on well-formed maps
    runs to its end and behaves as the abstract allocator on one set of
    numbers. Each allocation answers a number of its CPU that is not in use
    (or -ENOSPC when there is none), each free takes out its number (or answers
    -EINVAL), and the numbers in use at the end are those of the abstract
    allocator. *)
Theorem inode_history_refines sbi st ops :
  maps_wf sbi st -> (forall T, is_Some (nova_alloc_range_node T)) -> Forall (op_valid sbi) ops ->
  exists rs st', run_ops sbi st ops = Some (rs, st') /\ maps_wf sbi st'
    /\ spec_run (cpus sbi) (in_use sbi st) ops rs (in_use sbi st').
Proof.
  intros Hw Hslab Hv. revert st Hw. induction Hv as [|op ops Hop _ IH]; intros st Hw.
  { exists [], st. split_and!; [done..|]. by apply spec_nil. }
  destruct (run_op_refines sbi st op Hw Hslab Hop) as (ret & ino & st1 & P' & E & Hw1 & Hs & HP).
  destruct (IH st1 Hw1) as (rs & st' & Er & Hw' & Hr).
  exists ((ret, ino) :: rs), st'. cbn [run_ops]. rewrite E. cbn [mbind option_bind]. rewrite Er.
  split_and!; [done..|]. eapply spec_cons; [exact Hs|]. by eapply spec_run_ext.
Qed.
End theorems.

(** ** Instances: two CPUs after mkfs *)
Module InoDemo.
#[export] Existing Instances Concrete.rb_ops Concrete.rb_laws Concrete.kmem_ops
  Concrete.kmem_laws Concrete.crc_ops Concrete.crc_laws Concrete.params.

Definition sbi : nova_sb_info := set_cpus 2 zero_sb_info.
Definition blank : ino_state := InoState 0 0 (init_inode_maps sbi).
Definition booted : ino_state :=
  match nova_init_inode_inuse_list sbi blank with Some (_, st) => st | None => blank end.

Lemma ino_slab : forall T, is_Some (nova_alloc_range_node T).
Proof. intros T. by eexists. Qed.

Lemma booted_ready : maps_wf sbi booted
  /\ forall y, in_use sbi booted y <-> 0 <= y < (init_range_high sbi + 1) * cpus sbi.
Proof.
  destruct (init_op sbi blank ino_slab) as (st' & E & Hw & _ & Hu & _); [done|done|].
  unfold booted. rewrite E. by split.
Qed.
End InoDemo.

Section witnesses.
Import InoDemo.

Lemma alloc_unused_inode_fresh_witness :
  exists st', nova_alloc_unused_inode sbi booted 1 = Some (0, Some 35, st')
    /\ maps_wf sbi st' /\ ~ in_use sbi booted 35 /\ in_use sbi st' 35.
Proof.
  assert (Ec : fst <$> nova_alloc_unused_inode sbi booted 1 = Some (0, Some 35))
    by (vm_compute; reflexivity).
  destruct (alloc_unused_inode_fresh sbi booted 1 (proj1 booted_ready))
    as [(ino & st' & E & Hw & _ & _ & Hn & _ & Hu & _)|[E _]]; [done|..]; rewrite E in Ec.
  - assert (ino = 35) as -> by (injection Ec; auto). exists st'.
    split_and!; [exact E|exact Hw|exact Hn|]. apply Hu. by right.
  - discriminate Ec.
Defined.

Lemma free_inuse_inode_frees_witness :
  (exists st', nova_free_inuse_inode sbi booted 33 = Some (0, st') /\ maps_wf sbi st'
     /\ ~ in_use sbi st' 33)
  /\ nova_free_inuse_inode sbi booted 100 = Some (- EINVAL, booted).
Proof.
  destruct booted_ready as [Hw Hb]. split.
  - destruct (free_inuse_inode_frees sbi booted 33 Hw ino_slab) as [H _]; [done|].
    destruct H as (st' & E & Hw' & Hu & _); [apply Hb; vm_compute; done|].
    exists st'. split_and!; [exact E|exact Hw'|]. intros Hc. by apply Hu in Hc as [_ ?].
  - apply (free_inuse_inode_frees sbi booted 100 Hw ino_slab); [done|].
    intros [_ Hc]%Hb. by vm_compute in Hc.
Defined.

Lemma init_inuse_list_reserves_witness :
  exists st', nova_init_inode_inuse_list sbi blank = Some (0, st') /\ maps_wf sbi st'
    /\ in_use sbi st' 32.
Proof.
  destruct (init_inuse_list_reserves sbi blank ino_slab) as (st' & E & Hw & _ & _ & Hu); [done|done|].
  exists st'. split_and!; [exact E|exact Hw|]. by apply Hu.
Defined.

Lemma inode_history_refines_witness :
  exists rs st', run_ops sbi booted [OpAlloc 0; OpFree 34; OpAlloc 0; OpFree 35] = Some (rs, st')
    /\ rs = [(0, Some 34); (0, None); (0, Some 34); (- EINVAL, None)]
    /\ spec_run 2 (in_use sbi booted) [OpAlloc 0; OpFree 34; OpAlloc 0; OpFree 35] rs (in_use sbi st').
Proof.
  destruct (inode_history_refines sbi booted [OpAlloc 0; OpFree 34; OpAlloc 0; OpFree 35]
    (proj1 booted_ready) ino_slab) as (rs & st' & E & _ & Hr).
  { repeat constructor; done. }
  exists rs, st'. split; [exact E|]. split; [|exact Hr].
  assert (Ec : fst <$> run_ops sbi booted [OpAlloc 0; OpFree 34; OpAlloc 0; OpFree 35]
    = Some [(0, Some 34); (0, None); (0, Some 34); (- EINVAL, None)]) by (vm_compute; reflexivity).
  rewrite E in Ec. injection Ec. auto.
Defined.
End witnesses.
