(* ===== verification/DataGuard.v ===== *)
(** Checksums and parity of file data (checksum.c, parity.c): eight stripes of
    512 bytes per block, a CRC-32C of each in the checksum area of the block's
    CPU, and one parity stripe per block.

    A stripe is 64 words.  [None] stands for an access through a NULL
    pointer: an address function that refuses the block. *)

From S2P Require Import Prelude.
From S2P Require Import Kernel.
From S2P Require Import Checksum.
From S2P Require Import Layout.
From S2P Require Import FreeList.
From S2P Require Import Balloc.
From S2P Require Import Pmem.

Definition NOVA_INIT_CSUM : Z := 1.
Definition STRIPE_WORDS : nat := 64.
Definition STRIPES_PER_BLOCK : nat := 8.

(** The bytes of some words, and back. *)
Definition bytes_of (ws : list Z) : list Z := ws ≫= le_bytes 8.
Fixpoint words_of (bs : list Z) : list Z :=
  match bs with
  | b0 :: b1 :: b2 :: b3 :: b4 :: b5 :: b6 :: b7 :: tl =>
      le_combine [b0; b1; b2; b3; b4; b5; b6; b7] :: words_of tl
  | _ => []
  end.

(** An array of [u32] as words. *)
Fixpoint pack32 (l : list Z) : list Z :=
  match l with
  | lo :: hi :: tl => Z.lor (Z.shiftl (u32 hi) 32) (u32 lo) :: pack32 tl
  | _ => []
  end.

Section data_guard.
Context {CR : CrcOps} {MP : ModParams}.
Context (sbi : nova_sb_info) (ls : list free_list).

(** ** Checksums *)

Definition stripe_csum (ws : list Z) : Z := nova_crc32c NOVA_INIT_CSUM (bytes_of ws).

(** [sbi->zero_csum], as [nova_fill_super] fills it. *)
Definition zero_csum : list Z :=
  replicate STRIPES_PER_BLOCK (nova_crc32c NOVA_INIT_CSUM (replicate 512 0)).

Fixpoint crc_stripes (p : Z) (n : nat) : PM (list Z) :=
  match n with
  | O => mret []
  | S n' =>
      ws ← load_words p STRIPE_WORDS;
      cs ← crc_stripes (p + NOVA_STRIPE_SIZE) n';
      mret (stripe_csum ws :: cs)
  end.

(** The [while (strps >= 8)] loop: what is left of [strps], [blocknr] and
    [strp_ptr]. *)
Fixpoint csum_pages_loop (fuel : nat) (strps blocknr strp_ptr : Z) (zero : bool)
    : PM (option (Z * Z * Z)) :=
  if strps <? 8 then mret (Some (strps, blocknr, strp_ptr))
  else
    match fuel with
    | O => mret None
    | S fuel' =>
        crc ← (if zero then mret zero_csum else crc_stripes strp_ptr STRIPES_PER_BLOCK);
        match nova_get_data_csum_addr sbi ls blocknr false with
        | None => mret None
        | Some csum_addr =>
            (if support_clwb then store_words csum_addr (pack32 crc)
             else store_nt_words csum_addr (pack32 crc));;
            (if support_clwb then nova_flush_buffer csum_addr (NOVA_DATA_CSUM_LEN * 8) false
             else mret ());;
            csum_pages_loop fuel' (strps - 8) (u64 (blocknr + 1))
              (if zero then strp_ptr else u64 (strp_ptr + NOVA_STRIPE_SIZE * 8)) zero
        end
    end.

(** The stripes of a last, partial page. *)
Fixpoint csum_rest_loop (n : nat) (csum_addr strp_ptr : Z) (zero : bool) : PM () :=
  match n with
  | O => mret ()
  | S n' =>
      csum ← (if zero then mret (nth 0 zero_csum 0)
              else ws ← load_words strp_ptr STRIPE_WORDS; mret (stripe_csum ws));
      store_nt32 csum_addr csum;;
      csum_rest_loop n' (csum_addr + NOVA_DATA_CSUM_LEN)
        (if zero then strp_ptr else u64 (strp_ptr + NOVA_STRIPE_SIZE)) zero
  end.

Definition nova_stripe_csum_crc (strps blocknr strp_ptr : Z) (zero : bool) : PM (option Z) :=
  r ← csum_pages_loop (S (Z.to_nat (strps / 8))) strps blocknr strp_ptr zero;
  match r with
  | None => mret None
  | Some (strps, blocknr, strp_ptr) =>
      if strps =? 0 then mret (Some 0)
      else
        match nova_get_data_csum_addr sbi ls blocknr false with
        | None => mret None
        | Some csum_addr =>
            csum_rest_loop (Z.to_nat strps) csum_addr strp_ptr zero;; mret (Some 0)
        end
  end.

Definition nova_update_block_csum (bytes start_blknr strp_ptr : Z) (zero : bool)
    : PM (option Z) :=
  if negb (Z.land bytes (NOVA_STRIPE_SIZE - 1) =? 0) then mret (Some (- EINVAL))
  else nova_stripe_csum_crc (Z.shiftr bytes NOVA_STRIPE_SHIFT) start_blknr strp_ptr zero.

(** Where the data of a block is mapped. *)
Definition block_ptr (blocknr btype : Z) : Z :=
  nova_get_virt_addr_from_offset sbi (nova_get_block_off sbi blocknr btype false) false.

(** The loop over the stripes of one block, [n] left, the next is [strp]. *)
Fixpoint verify_stripes (n : nat) (strp blocknr blockptr : Z) : PM (option bool) :=
  match n with
  | O => mret (Some true)
  | S n' =>
      match nova_get_data_csum_addr sbi ls blocknr false with
      | None => mret None
      | Some a =>
          csum_nvmm ← load32 (a + strp * NOVA_DATA_CSUM_LEN);
          strip ← load_words (blockptr + strp * NOVA_STRIPE_SIZE) STRIPE_WORDS;
          if stripe_csum strip =? csum_nvmm then verify_stripes n' (strp + 1) blocknr blockptr
          else mret (Some false)
      end
  end.

(** The loop over the blocks; [kmalloc block] is the outcome of the allocation
    of the stripe buffer.  The checksums are looked up at [blocknr] in every
    iteration. *)
Fixpoint verify_blocks (n : nat) (kmalloc : Z -> bool) (block blocknr btype : Z)
    : PM (option bool) :=
  match n with
  | O => mret (Some true)
  | S n' =>
      let blockptr := block_ptr (u64 (blocknr + block)) btype in
      if negb (kmalloc block) then mret (Some false)
      else
        r ← verify_stripes STRIPES_PER_BLOCK 0 blocknr blockptr;
        match r with
        | Some true => verify_blocks n' kmalloc (block + 1) blocknr btype
        | _ => mret r
        end
  end.

Definition nova_verify_data_csum (kmalloc : Z -> bool) (btype blocknr bytes : Z)
    : PM (option bool) :=
  verify_blocks (Z.to_nat (Z.shiftr (u64 (bytes - 1)) PAGE_SHIFT + 1)) kmalloc 0 blocknr btype.

(** ** Parity *)

Definition word (block : list Z) (i : nat) : Z := nth i block 0.

(** One quad word of the parity: the [xor] over the stripes. *)
Definition parity_qword (block : list Z) (i : nat) : Z :=
  fold_left (fun x strp => Z.lxor x (word block (STRIPE_WORDS * strp + i)))
    (seq 1 (STRIPES_PER_BLOCK - 1)) (word block i).

(** A 16-byte load ([movdqa]) and the parity of two quad words at a time. *)
Definition dqword (block : list Z) (i : nat) : Z :=
  Z.lor (Z.shiftl (word block (S i)) 64) (word block i).
Definition parity_dqword (block : list Z) (i : nat) : Z :=
  fold_left (fun x strp => Z.lxor x (dqword block (STRIPE_WORDS * strp + i)))
    (seq 1 (STRIPES_PER_BLOCK - 1)) (dqword block i).

(** [xmm2] is [static_cpu_has(X86_FEATURE_XMM2)]. *)
Definition nova_calculate_block_parity (xmm2 : bool) (block : list Z) : list Z :=
  if xmm2 then
    seq 0 32 ≫= (fun i => let x := parity_dqword block (2 * i) in [u64 x; Z.shiftr x 64])
  else parity_qword block <$> seq 0 STRIPE_WORDS.

(** [block = None] is a NULL pointer; [kmalloc] the outcome of the
    allocation.  The error codes are set and then dropped. *)
Definition nova_update_block_parity (xmm2 kmalloc : bool) (block : option Z) (blocknr : Z)
    (zero : bool) : PM (option Z) :=
  if negb kmalloc then mret (Some 0)
  else
    match block with
    | None => mret (Some 0)
    | Some p =>
        parity ← (if zero then mret (replicate STRIPE_WORDS 0)
                  else ws ← load_words p (STRIPE_WORDS * STRIPES_PER_BLOCK);
                       mret (nova_calculate_block_parity xmm2 ws));
        match nova_get_parity_addr sbi ls blocknr with
        | None => mret None
        | Some nvmmptr => store_nt_words nvmmptr parity;; mret (Some 0)
        end
    end.

(** The block with the parity stripe in place of the bad one. *)
Fixpoint gather_loop (n : nat) (i : Z) (badstrip_id blockptr parity : Z) : PM (list Z) :=
  match n with
  | O => mret []
  | S n' =>
      ws ← load_words (if i =? badstrip_id then parity else blockptr + i * NOVA_STRIPE_SIZE)
             STRIPE_WORDS;
      tl ← gather_loop n' (i + 1) badstrip_id blockptr parity;
      mret (ws ++ tl)
  end.

(** The search for a prefix of [badstrip] that is still good: the stripe and
    its checksum on success. *)
Fixpoint restore_loop (fuel : nat) (i : nat) (strip badstrip : list Z) (nvmmerr last : bool)
    (csum0 csum1 : Z) : option (list Z * Z) :=
  match fuel with
  | O => None
  | S fuel' =>
      let strip := take i badstrip ++ drop i strip in
      let csum_calc := nova_crc32c NOVA_INIT_CSUM strip in
      if (csum_calc =? csum0) || (csum_calc =? csum1) then Some (strip, csum_calc)
      else if nvmmerr then None
      else if last then None
      else restore_loop fuel' (S i) strip badstrip nvmmerr last csum0 csum1
  end.

(** The result and [*csum_good]; [badstrip] is the copy of the bad stripe. *)
Definition nova_restore_data (xmm2 kmalloc : bool) (blocknr badstrip_id : Z)
    (badstrip : list Z) (nvmmerr : bool) (csum0 csum1 : Z) : PM (Z * option Z) :=
  let blockptr := block_ptr blocknr NOVA_BLOCK_TYPE_4K in
  let stripptr := u64 (blockptr + u32 (Z.shiftl badstrip_id NOVA_STRIPE_SHIFT)) in
  if negb kmalloc then mret (- ENOMEM, None)
  else
    match nova_get_parity_addr sbi ls blocknr with
    | None => mret (- EIO, None)
    | Some parity =>
        block ← gather_loop STRIPES_PER_BLOCK 0 badstrip_id blockptr parity;
        let strip := bytes_of (nova_calculate_block_parity xmm2 block) in
        match restore_loop 512 0 strip badstrip nvmmerr
                (badstrip_id =? Z.of_nat STRIPES_PER_BLOCK - 1) csum0 csum1 with
        | Some (strip, csum_calc) =>
            store_nt_words stripptr (words_of strip);; mret (0, Some csum_calc)
        | None => mret (- EIO, None)
        end
    end.
End data_guard.
