(* ===== verification/DataGuardSpec.v ===== *)
(** What the checksums and the parity of a block promise: stripes and bytes,
    the parity as a sum, the restored stripe, the stored checksums. *)

From S2P Require Import Prelude.
From S2P Require Import Kernel.
From S2P Require Import Checksum.
From S2P Require Import Layout.
From S2P Require Import FreeList.
From S2P Require Import Balloc.
From S2P Require Import Pmem.
From S2P Require Import PmemSpec.
From S2P Require Import DataGuard.

(** ** Words and bytes *)

Abbreviation is_byte b := (0 <= b < 256).

Lemma bytes_of_cons w ws : bytes_of (w :: ws) = le_bytes 8 w ++ bytes_of ws.
Proof. done. Qed.

Lemma length_bytes_of ws : length (bytes_of ws) = (8 * length ws)%nat.
Proof.
  induction ws as [|w ws IH]; [done|].
  rewrite bytes_of_cons, length_app, IH, length_le_bytes. simpl length. lia.
Qed.

Lemma bytes_of_range ws : Forall (fun b => is_byte b) (bytes_of ws).
Proof.
  induction ws as [|w ws IH]; [constructor|]. rewrite bytes_of_cons.
  apply Forall_app. split; [apply le_bytes_range|done].
Qed.

Lemma words_of_bytes ws : Forall is_u64 ws -> words_of (bytes_of ws) = ws.
Proof.
  induction 1 as [|w ws Hw _ IH]; [done|]. rewrite bytes_of_cons.
  transitivity (le_combine (le_bytes 8 w) :: words_of (bytes_of ws)); [done|].
  rewrite IH, le_combine_bytes. f_equal. apply Z.mod_small. exact Hw.
Qed.

Lemma bytes_of_words n bs :
  length bs = (8 * n)%nat -> Forall (fun b => is_byte b) bs ->
  bytes_of (words_of bs) = bs /\ length (words_of bs) = n.
Proof.
  revert bs. induction n as [|n IH]; intros bs Hl Hb.
  { destruct bs; [done|]. simpl in Hl. lia. }
  do 8 (destruct bs as [|? bs]; [simpl in Hl; lia|]).
  destruct (IH bs) as [E Hn]; [simpl in Hl; lia|by do 8 (apply Forall_cons in Hb as [_ Hb])|].
  cbn [words_of length]. rewrite bytes_of_cons, E, Hn. split; [|done].
  change (?a :: ?b :: ?c :: ?d :: ?e :: ?f :: ?g :: ?h :: bs)
    with ([a; b; c; d; e; f; g; h] ++ bs). f_equal.
  match goal with |- le_bytes 8 (le_combine ?l) = _ => change 8%nat with (length l) end.
  apply Concrete.le_bytes_combine.
  do 8 (apply Forall_cons in Hb as [? Hb]). repeat constructor; lia.
Qed.

(** ** Parity *)

Lemma lxor_u64 a b : is_u64 a -> is_u64 b -> is_u64 (Z.lxor a b).
Proof.
  unfold is_u64. intros Ha Hb. assert (Hp : 0 <= Z.lxor a b) by (apply Z.lxor_nonneg; lia).
  split; [done|].
  destruct (decide (Z.lxor a b = 0)) as [->|Hne]; [lia|].
  apply (Z.log2_lt_pow2 _ 64); [lia|].
  pose proof (Z.log2_lxor a b ltac:(lia) ltac:(lia)) as Hl.
  assert (H64 : forall x, 0 <= x < 2 ^ 64 -> Z.log2 x < 64).
  { intros x Hx. destruct (decide (x = 0)) as [->|?]; [done|]. apply Z.log2_lt_pow2; lia. }
  pose proof (H64 a Ha). pose proof (H64 b Hb). lia.
Qed.

Lemma word_u64 block i : Forall is_u64 block -> is_u64 (word block i).
Proof.
  intros Hb. unfold word. destruct (decide (i < length block)%nat) as [Hi|Hi].
  - eapply Forall_forall; [exact Hb|]. apply list_elem_of_In. by apply nth_In.
  - rewrite nth_overflow by lia. unfold is_u64. lia.
Qed.

(** Two quad words side by side. *)
Definition pair64 (hi lo : Z) : Z := Z.lor (Z.shiftl hi 64) lo.

Lemma pair64_bit hi lo n : is_u64 lo -> 0 <= n ->
  Z.testbit (pair64 hi lo) n = if n <? 64 then Z.testbit lo n else Z.testbit hi (n - 64).
Proof.
  intros Hlo Hn. unfold pair64. rewrite Z.lor_spec, Z.shiftl_spec by done.
  destruct (Z.ltb_spec n 64) as [Hlt|Hge].
  - by rewrite (Z.testbit_neg_r hi) by lia.
  - assert (E : Z.testbit lo n = false); [|by rewrite E, orb_false_r].
    replace lo with (lo mod 2 ^ 64) by (apply Z.mod_small; exact Hlo).
    by apply Z.mod_pow2_bits_high.
Qed.

Lemma pair64_lxor a b c d :
  is_u64 b -> is_u64 d -> Z.lxor (pair64 a b) (pair64 c d) = pair64 (Z.lxor a c) (Z.lxor b d).
Proof.
  intros Hb Hd. apply Z.bits_inj'. intros n Hn.
  rewrite Z.lxor_spec, !pair64_bit by (done || by apply lxor_u64).
  destruct (n <? 64); by rewrite Z.lxor_spec.
Qed.

Lemma pair64_low hi lo : is_u64 lo -> u64 (pair64 hi lo) = lo.
Proof.
  intros Hlo. unfold u64. change TWO64 with (2 ^ 64). apply Z.bits_inj'. intros n Hn.
  destruct (Z.ltb_spec n 64) as [Hlt|Hge].
  - rewrite Z.mod_pow2_bits_low, pair64_bit by done. by rewrite (proj2 (Z.ltb_lt _ _)).
  - rewrite Z.mod_pow2_bits_high by lia. symmetry.
    replace lo with (lo mod 2 ^ 64) by (apply Z.mod_small; exact Hlo).
    by apply Z.mod_pow2_bits_high.
Qed.

Lemma pair64_high hi lo : is_u64 lo -> Z.shiftr (pair64 hi lo) 64 = hi.
Proof.
  intros Hlo. apply Z.bits_inj'. intros n Hn. rewrite Z.shiftr_spec, pair64_bit by (done || lia).
  rewrite (proj2 (Z.ltb_ge _ _)) by lia. f_equal. lia.
Qed.

Lemma fold_lxor_u64 (l : list nat) block f x :
  Forall is_u64 block -> is_u64 x ->
  is_u64 (fold_left (fun x s => Z.lxor x (word block (f s))) l x).
Proof.
  intros Hb. revert x. induction l as [|s l IH]; intros x Hx; [done|].
  apply IH, lxor_u64; [done|by apply word_u64].
Qed.

Lemma parity_u64 block i : Forall is_u64 block -> is_u64 (parity_qword block i).
Proof. intros Hb. apply fold_lxor_u64; [done|by apply word_u64]. Qed.

Lemma parity_dqword_pair block i :
  Forall is_u64 block ->
  parity_dqword block i = pair64 (parity_qword block (S i)) (parity_qword block i).
Proof.
  intros Hb. unfold parity_dqword, parity_qword.
  change (dqword block i) with (pair64 (word block (S i)) (word block i)).
  generalize (word_u64 block i Hb). generalize (word block i) (word block (S i)).
  induction (seq 1 (STRIPES_PER_BLOCK - 1)) as [|s l IH]; intros lo hi Hlo; [done|].
  cbn [fold_left]. change (dqword block (STRIPE_WORDS * s + i))
    with (pair64 (word block (S (STRIPE_WORDS * s + i))) (word block (STRIPE_WORDS * s + i))).
  rewrite pair64_lxor by (done || by apply word_u64).
  rewrite IH by (apply lxor_u64; [done|by apply word_u64]).
  by rewrite Nat.add_succ_r.
Qed.

(** The 16-byte loop and the 8-byte loop compute the same parity. *)
Lemma block_parity_xmm2 xmm2 block :
  Forall is_u64 block ->
  nova_calculate_block_parity xmm2 block = parity_qword block <$> seq 0 STRIPE_WORDS.
Proof.
  intros Hb. destruct xmm2; [|done]. unfold nova_calculate_block_parity.
  transitivity (seq 0 32 ≫= (fun i => [parity_qword block (2 * i); parity_qword block (S (2 * i))]));
    [|reflexivity].
  apply list_bind_ext; [|done]. intros i. cbv zeta. rewrite parity_dqword_pair by done.
  pose proof (parity_u64 block (2 * i) Hb). by rewrite pair64_low, pair64_high.
Qed.

(** The sum over the stripes of one column. *)
Definition column (w : nat -> Z) : Z := fold_left (fun x s => Z.lxor x (w s)) (seq 1 7) (w 0%nat).

Lemma parity_column block i :
  parity_qword block i = column (fun s => word block (STRIPE_WORDS * s + i)).
Proof. reflexivity. Qed.

(** A sum over any list of stripes. *)
Definition xsum (w : nat -> Z) (l : list nat) : Z := foldr (fun s r => Z.lxor (w s) r) 0 l.

Lemma xsum_app w l1 l2 : xsum w (l1 ++ l2) = Z.lxor (xsum w l1) (xsum w l2).
Proof.
  induction l1 as [|s l1 IH]; simpl; [by rewrite Z.lxor_0_l|]. by rewrite IH, Z.lxor_assoc.
Qed.

Lemma xsum_ext w w' l : (forall s, s ∈ l -> w s = w' s) -> xsum w l = xsum w' l.
Proof.
  induction l as [|s l IH]; intros H; [done|]. simpl. rewrite H, IH; [done| |]; set_solver.
Qed.

Lemma fold_xsum w l x : fold_left (fun x s => Z.lxor x (w s)) l x = Z.lxor x (xsum w l).
Proof.
  revert x. induction l as [|s l IH]; intros x; simpl; [by rewrite Z.lxor_0_r|].
  by rewrite IH, Z.lxor_assoc.
Qed.

Lemma column_xsum w : column w = xsum w (seq 0 8).
Proof. unfold column. by rewrite fold_xsum. Qed.

(** The sum with one summand replaced by the sum is that summand. *)
Lemma column_missing x y id :
  (id < 8)%nat -> (forall s, (s < 8)%nat -> s <> id -> y s = x s) -> y id = column x ->
  column y = x id.
Proof.
  intros Hid Hs Hy. rewrite column_xsum in *. clear - Hid Hs Hy.
  assert (E : seq 0 8 = seq 0 id ++ id :: seq (S id) (7 - id)).
  { replace 8%nat with (id + S (7 - id))%nat by lia. by rewrite seq_app. }
  rewrite E in *. rewrite !xsum_app in *. cbn [xsum foldr] in *. fold (xsum y) in *. fold (xsum x) in *.
  rewrite (xsum_ext y x (seq 0 id)) by (intros s Hin%elem_of_seq; apply Hs; lia).
  change (foldr (fun s r => Z.lxor (?w s) r) 0 ?l) with (xsum w l) in *.
  rewrite (xsum_ext y x (seq (S id) (7 - id))) by (intros s Hin%elem_of_seq; apply Hs; lia).
  rewrite Hy. generalize (xsum x (seq 0 id)) (xsum x (seq (S id) (7 - id))) (x id). intros a b c.
  rewrite Z.lxor_assoc, (Z.lxor_assoc c b b), Z.lxor_nilpotent, Z.lxor_0_r.
  by rewrite <- Z.lxor_assoc, Z.lxor_nilpotent, Z.lxor_0_l.
Qed.

Lemma length_block_parity xmm2 block :
  length (nova_calculate_block_parity xmm2 block) = STRIPE_WORDS.
Proof. by destruct xmm2. Qed.

(** ** Blocks in memory *)

Lemma seq_bind_S (f : nat -> list Z) a n : seq (S a) n ≫= f = seq a n ≫= (fun k => f (S k)).
Proof.
  revert a. induction n as [|n IH]; intros a; [done|].
  change (f (S a) ++ (seq (S (S a)) n ≫= f) = f (S a) ++ (seq (S a) n ≫= (fun k => f (S k)))).
  by rewrite IH.
Qed.

Lemma nth_chunks (f : nat -> list Z) n a s j :
  (forall k, length (f k) = STRIPE_WORDS) -> (s < n)%nat -> (j < STRIPE_WORDS)%nat ->
  nth (STRIPE_WORDS * s + j) (seq a n ≫= f) 0 = nth j (f (a + s)%nat) 0.
Proof.
  intros Hf. revert a s. induction n as [|n IH]; intros a s Hs Hj; [lia|].
  change (seq a (S n) ≫= f) with (f a ++ (seq (S a) n ≫= f)). destruct s as [|s].
  - rewrite Nat.mul_0_r, Nat.add_0_r. apply app_nth1. by rewrite Hf.
  - rewrite app_nth2 by (rewrite Hf; lia). rewrite Hf.
    replace (STRIPE_WORDS * S s + j - STRIPE_WORDS)%nat with (STRIPE_WORDS * s + j)%nat by lia.
    rewrite IH by lia. f_equal. f_equal. lia.
Qed.

Lemma nth_words m a n i : (i < n)%nat -> nth i (words m a n) 0 = cur m (a + 8 * Z.of_nat i).
Proof.
  intros Hi. pose proof (lookup_words m a n i Hi) as H.
  rewrite nth_lookup, H. done.
Qed.

(** The columns of the block at [p]. *)
Definition cell_of (m : mem) (p : Z) (s j : nat) : Z := cur m (p + Z.of_nat s * 512 + 8 * Z.of_nat j).

Lemma word_block m p s j :
  (s < 8)%nat -> (j < STRIPE_WORDS)%nat ->
  word (words m p (STRIPE_WORDS * STRIPES_PER_BLOCK)) (STRIPE_WORDS * s + j) = cell_of m p s j.
Proof.
  unfold STRIPE_WORDS, STRIPES_PER_BLOCK. intros Hs Hj. unfold word.
  rewrite nth_words by lia. unfold cell_of. f_equal. lia.
Qed.

Section guard.
Context {CR : CrcOps} {MP : ModParams}.
Context (sbi : nova_sb_info) (ls : list free_list).

Lemma gather_run n i id bp par m :
  gather_loop n i id bp par m
  = (seq 0 n ≫= (fun k => words m (if i + Z.of_nat k =? id then par else bp + (i + Z.of_nat k) * 512)
                            STRIPE_WORDS), []).
Proof.
  revert i. induction n as [|n IH]; intros i; [done|]. cbn [gather_loop].
  rewrite bind_load_words. eapply (bind_run _ _ _ _ [] _ []); [apply IH|].
  set (f := fun k : nat => words m (if i + Z.of_nat k =? id then par else bp + (i + Z.of_nat k) * 512)
    STRIPE_WORDS).
  change (seq 0 (S n) ≫= f) with (f 0%nat ++ (seq 1 n ≫= f)).
  unfold mret, pm_ret. do 2 f_equal.
  - unfold f. simpl. by rewrite Z.add_0_r.
  - rewrite seq_bind_S. apply list_bind_ext; [|done]. intros k. unfold f. simpl.
    replace (i + 1 + Z.of_nat k) with (i + Z.of_nat (S k)) by lia. done.
Qed.

(** The block as the restoration reads it. *)
Definition gathered (m : mem) (id : nat) (bp par : Z) : list Z :=
  seq 0 STRIPES_PER_BLOCK ≫= (fun k =>
    words m (if Z.of_nat k =? Z.of_nat id then par else bp + Z.of_nat k * 512) STRIPE_WORDS).

Lemma word_gathered m id bp par s j :
  (s < 8)%nat -> (j < STRIPE_WORDS)%nat ->
  word (gathered m id bp par) (STRIPE_WORDS * s + j)
  = if decide (s = id) then cur m (par + 8 * Z.of_nat j) else cell_of m bp s j.
Proof.
  intros Hs Hj. unfold word, gathered.
  rewrite nth_chunks by (done || intros; apply length_words). rewrite nth_words by done.
  unfold cell_of. simpl. case_decide as Hd.
  - by rewrite (proj2 (Z.eqb_eq _ _)) by lia.
  - by rewrite (proj2 (Z.eqb_neq _ _)) by lia.
Qed.

Lemma forall_words (P : Z -> Prop) m a n :
  Forall P (words m a n) <-> forall i, (i < n)%nat -> P (cur m (a + 8 * Z.of_nat i)).
Proof.
  unfold words. rewrite Forall_fmap, Forall_forall. split.
  - intros H i Hi. apply (H i). apply elem_of_seq. lia.
  - intros H i Hi. apply H. apply elem_of_seq in Hi. lia.
Qed.

(** The parity of the other stripes and the parity is the missing stripe. *)
Lemma restored_stripe xmm2 m m2 id bp par :
  (id < 8)%nat -> Forall is_u64 (words m bp (STRIPE_WORDS * STRIPES_PER_BLOCK)) ->
  (forall s j, (s < 8)%nat -> (j < STRIPE_WORDS)%nat -> s <> id -> cell_of m2 bp s j = cell_of m bp s j) ->
  (forall j, (j < STRIPE_WORDS)%nat -> cur m2 (par + 8 * Z.of_nat j)
     = parity_qword (words m bp (STRIPE_WORDS * STRIPES_PER_BLOCK)) j) ->
  nova_calculate_block_parity xmm2 (gathered m2 id bp par) = words m (bp + Z.of_nat id * 512) STRIPE_WORDS.
Proof.
  intros Hid Hu Hs Hp. set (B := words m bp (STRIPE_WORDS * STRIPES_PER_BLOCK)) in *.
  assert (Hg : Forall is_u64 (gathered m2 id bp par)).
  { unfold gathered. apply Forall_bind, Forall_forall. intros s Hin. apply elem_of_seq in Hin.
    apply forall_words. intros j Hj. destruct (Z.eqb_spec (Z.of_nat s) (Z.of_nat id)).
    - rewrite Hp by done. by apply parity_u64.
    - fold (cell_of m2 bp s j). rewrite Hs by (unfold STRIPES_PER_BLOCK in *; lia).
      rewrite <- word_block by (unfold STRIPES_PER_BLOCK in *; lia). by apply word_u64. }
  rewrite block_parity_xmm2 by done. unfold words at 1. apply list_fmap_ext. intros i j Hj.
  apply lookup_seq in Hj as [-> Hj]. simpl.
  rewrite parity_column.
  rewrite (column_missing (fun s => word B (STRIPE_WORDS * s + i)) _ id Hid).
  - unfold B. by rewrite word_block by done.
  - intros s Hs8 Hne. cbv beta. rewrite word_gathered, decide_False by done.
    unfold B. rewrite word_block by done. by apply Hs.
  - cbv beta. rewrite word_gathered, decide_True by done. rewrite Hp by done. apply parity_column.
Qed.

(** Writing the parity of a block. *)
Lemma update_parity_run xmm2 p blocknr a m :
  nova_get_parity_addr sbi ls blocknr = Some a ->
  nova_update_block_parity sbi ls xmm2 true (Some p) blocknr false m
  = (Some 0, store_nt_acts a (nova_calculate_block_parity xmm2
                                (words m p (STRIPE_WORDS * STRIPES_PER_BLOCK)))).
Proof.
  intros Ha. unfold nova_update_block_parity. cbn [negb].
  eapply (bind_run _ _ _ _ [] _ _).
  - rewrite bind_load_words. done.
  - rewrite Ha. rewrite <- (app_nil_r (store_nt_acts _ _)). by eapply bind_run.
Qed.

(** ** The search for the good prefix *)

Definition stripe_csum_bytes (strip : list Z) : Z := nova_crc32c NOVA_INIT_CSUM strip.

Lemma restore_loop_ok fuel i strip bad nv last c0 c1 strip' c n :
  restore_loop fuel i strip bad nv last c0 c1 = Some (strip', c) ->
  length strip = n -> length bad = n -> (i + fuel <= n)%nat ->
  Forall (fun b => is_byte b) strip -> Forall (fun b => is_byte b) bad ->
  (c = c0 \/ c = c1) /\ c = nova_crc32c NOVA_INIT_CSUM strip'
  /\ length strip' = n /\ Forall (fun b => is_byte b) strip'.
Proof.
  revert i strip. induction fuel as [|fuel IH]; intros i strip Hr Hls Hlb Hi Hs Hb; [done|].
  cbn [restore_loop] in Hr. cbv zeta in Hr. set (st := take i bad ++ drop i strip) in *.
  assert (Hl : length st = n).
  { unfold st. rewrite length_app, length_take, length_drop. lia. }
  assert (Hst : Forall (fun b => is_byte b) st)
    by (apply Forall_app; split; [by apply Forall_take|by apply Forall_drop]).
  destruct (_ || _) eqn:E.
  - injection Hr as <- <-. split_and!; try done. apply orb_true_iff in E. lia.
  - destruct nv; [done|]. destruct last; [done|]. apply (IH (S i) st); try done. lia.
Qed.

Lemma restore_loop_hit fuel strip bad nv last c0 c1 :
  (0 < fuel)%nat -> c0 = stripe_csum_bytes strip \/ c1 = stripe_csum_bytes strip ->
  restore_loop fuel 0 strip bad nv last c0 c1 = Some (strip, stripe_csum_bytes strip).
Proof.
  intros Hf Hc. destruct fuel as [|fuel]; [lia|]. cbn [restore_loop]. cbv zeta.
  change (take 0 bad ++ drop 0 strip) with strip.
  change (nova_crc32c NOVA_INIT_CSUM strip) with (stripe_csum_bytes strip).
  assert (E : (stripe_csum_bytes strip =? c0) || (stripe_csum_bytes strip =? c1) = true)
    by (apply orb_true_iff; rewrite !Z.eqb_eq; intuition).
  by rewrite E.
Qed.

(** Restoring writes the stripe whole, or nothing. *)
Lemma restore_run xmm2 kmalloc blocknr id bad nv c0 c1 m :
  length bad = 512%nat -> Forall (fun b => is_byte b) bad -> (id < 8)%nat ->
  let sp := u64 (block_ptr sbi blocknr NOVA_BLOCK_TYPE_4K + u32 (Z.shiftl (Z.of_nat id) NOVA_STRIPE_SHIFT)) in
  (exists ws c, nova_restore_data sbi ls xmm2 kmalloc blocknr (Z.of_nat id) bad nv c0 c1 m
       = ((0, Some c), store_nt_acts sp ws)
     /\ length ws = STRIPE_WORDS /\ (c = c0 \/ c = c1) /\ stripe_csum ws = c)
  \/ (exists ret, nova_restore_data sbi ls xmm2 kmalloc blocknr (Z.of_nat id) bad nv c0 c1 m
       = ((ret, None), []) /\ (ret = - ENOMEM \/ ret = - EIO)).
Proof.
  intros Hlb Hbb Hid sp. unfold nova_restore_data. fold sp. destruct kmalloc; cbn [negb]; [|eauto].
  destruct (nova_get_parity_addr sbi ls blocknr) as [par|]; [|eauto].
  erewrite bind_read by apply gather_run. change (seq 0 STRIPES_PER_BLOCK ≫= _) with
    (gathered m id (block_ptr sbi blocknr NOVA_BLOCK_TYPE_4K) par). cbv zeta.
  destruct (restore_loop _ _ _ _ _ _ _ _) as [[strip c]|] eqn:E; [|eauto]. left.
  destruct (restore_loop_ok _ _ _ _ _ _ _ _ _ _ 512 E) as (Hc & Hcrc & Hl & Hr);
    [|done|lia|apply bytes_of_range|done|].
  { rewrite length_bytes_of, length_block_parity. done. }
  destruct (bytes_of_words 64 strip) as [Eb Hn]; [done|done|].
  exists (words_of strip), c. split_and!; [|done|done|].
  - rewrite <- (app_nil_r (store_nt_acts _ _)). by eapply bind_run.
  - unfold stripe_csum. by rewrite Eb.
Qed.

(** The first attempt already succeeds when only one stripe is damaged. *)
Lemma restore_hit xmm2 blocknr id bad nv c0 c1 par strip m :
  nova_get_parity_addr sbi ls blocknr = Some par ->
  nova_calculate_block_parity xmm2 (gathered m id (block_ptr sbi blocknr NOVA_BLOCK_TYPE_4K) par) = strip ->
  Forall is_u64 strip -> c0 = stripe_csum strip \/ c1 = stripe_csum strip ->
  nova_restore_data sbi ls xmm2 true blocknr (Z.of_nat id) bad nv c0 c1 m
  = ((0, Some (stripe_csum strip)),
     store_nt_acts (u64 (block_ptr sbi blocknr NOVA_BLOCK_TYPE_4K
       + u32 (Z.shiftl (Z.of_nat id) NOVA_STRIPE_SHIFT))) strip).
Proof.
  intros Hp Hs Hu Hc. unfold nova_restore_data. cbn [negb]. rewrite Hp.
  erewrite bind_read by apply gather_run. change (seq 0 STRIPES_PER_BLOCK ≫= _) with
    (gathered m id (block_ptr sbi blocknr NOVA_BLOCK_TYPE_4K) par). cbv zeta. rewrite Hs.
  rewrite (restore_loop_hit 512 (bytes_of strip)) by (done || lia).
  rewrite words_of_bytes by done. change (stripe_csum_bytes (bytes_of strip)) with (stripe_csum strip).
  rewrite <- (app_nil_r (store_nt_acts _ _)). by eapply bind_run.
Qed.
End guard.

(** ** Stored checksums *)

Lemma land_not_7 x : Z.land x (Z.lnot 7) = x - x mod 8.
Proof.
  change 7 with (Z.ones 3).
  rewrite <- Z.ldiff_land, Z.ldiff_ones_r, Z.shiftl_mul_pow2, Z.shiftr_div_pow2 by lia.
  change (2 ^ 3) with 8. pose proof (Z.div_mod x 8). lia.
Qed.

(** The value a 4-byte load returns. *)
Definition half (m : mem) (p : Z) : Z :=
  let w := cur m (Z.land p (Z.lnot 7)) in
  if p mod 8 =? 0 then u32 w else u32 (Z.shiftr w 32).

Lemma load32_run p m : load32 p m = (half m p, []).
Proof. unfold load32. by rewrite bind_load. Qed.

Lemma pair32_low hi lo : is_u32 lo -> u32 (Z.lor (Z.shiftl (u32 hi) 32) (u32 lo)) = lo.
Proof.
  intros Hlo. unfold u32. change TWO32 with (2 ^ 32). apply Z.bits_inj'. intros n Hn.
  destruct (Z.ltb_spec n 32) as [Hlt|Hge].
  - rewrite Z.mod_pow2_bits_low, Z.lor_spec, Z.shiftl_spec by done.
    rewrite (Z.testbit_neg_r _ (n - 32)) by lia. simpl. by rewrite Z.mod_pow2_bits_low.
  - rewrite Z.mod_pow2_bits_high by lia. symmetry.
    replace lo with (lo mod 2 ^ 32) by (apply Z.mod_small; exact Hlo).
    by apply Z.mod_pow2_bits_high.
Qed.

Lemma pair32_high hi lo : is_u32 hi -> u32 (Z.shiftr (Z.lor (Z.shiftl (u32 hi) 32) (u32 lo)) 32) = hi.
Proof.
  intros Hhi. assert (E : Z.shiftr (Z.lor (Z.shiftl (u32 hi) 32) (u32 lo)) 32 = hi).
  - rewrite (u32_small hi) by exact Hhi. apply Z.bits_inj'. intros n Hn.
    rewrite Z.shiftr_spec, Z.lor_spec, Z.shiftl_spec by lia.
    unfold u32. change TWO32 with (2 ^ 32). rewrite Z.mod_pow2_bits_high by lia.
    rewrite orb_false_r. f_equal. lia.
  - rewrite E. by apply u32_small.
Qed.

Lemma half_even m a j : a mod 8 = 0 -> half m (a + 8 * j) = u32 (cur m (a + 8 * j)).
Proof.
  intros Ha. unfold half. rewrite land_not_7.
  assert (E : (a + 8 * j) mod 8 = 0) by (rewrite (Z.mul_comm 8 j), Z.mod_add; lia).
  by rewrite E, Z.sub_0_r.
Qed.

Lemma half_odd m a j :
  a mod 8 = 0 -> half m (a + 8 * j + 4) = u32 (Z.shiftr (cur m (a + 8 * j)) 32).
Proof.
  intros Ha. unfold half. rewrite land_not_7.
  assert (E : (a + 8 * j + 4) mod 8 = 4).
  { replace (a + 8 * j + 4) with (a + 4 + j * 8) by lia. rewrite Z.mod_add by lia.
    by rewrite <- Zplus_mod_idemp_l, Ha. }
  rewrite E. by replace (a + 8 * j + 4 - 4) with (a + 8 * j) by lia.
Qed.

Lemma nth_pack32 cs j :
  (j < 4)%nat -> length cs = 8%nat ->
  nth j (pack32 cs) 0 = Z.lor (Z.shiftl (u32 (nth (2 * j + 1) cs 0)) 32) (u32 (nth (2 * j) cs 0)).
Proof.
  intros Hj Hl. do 8 (destruct cs as [|? cs]; [done|]).
  do 4 (destruct j as [|j]; [reflexivity|]). lia.
Qed.

Lemma half_pack m a cs k :
  a mod 8 = 0 -> length cs = 8%nat -> Forall is_u32 cs -> words m a 4 = pack32 cs -> (k < 8)%nat ->
  half m (a + 4 * Z.of_nat k) = nth k cs 0.
Proof.
  intros Ha Hl Hu Hw Hk.
  assert (Hc : forall j, (j < 4)%nat -> cur m (a + 8 * Z.of_nat j)
    = Z.lor (Z.shiftl (u32 (nth (2 * j + 1) cs 0)) 32) (u32 (nth (2 * j) cs 0))).
  { intros j Hj. rewrite <- (nth_words m a 4), Hw by done. by apply nth_pack32. }
  assert (Hn : forall i, (i < 8)%nat -> is_u32 (nth i cs 0)).
  { intros i Hi. rewrite Forall_forall in Hu. apply Hu, list_elem_of_In, nth_In. lia. }
  destruct (Nat.Even_or_Odd k) as [[j ->]|[j ->]].
  - replace (a + 4 * Z.of_nat (2 * j)) with (a + 8 * Z.of_nat j) by lia.
    rewrite half_even, Hc by (done || lia). apply pair32_low, Hn. lia.
  - replace (a + 4 * Z.of_nat (2 * j + 1)) with (a + 8 * Z.of_nat j + 4) by lia.
    rewrite half_odd, Hc by (done || lia). apply pair32_high, Hn. lia.
Qed.

(** The CRC of every stripe of the page at [p]. *)
Definition page_csums {CR : CrcOps} (m : mem) (p : Z) : list Z :=
  (fun k : nat => stripe_csum (words m (p + 512 * Z.of_nat k) STRIPE_WORDS)) <$> seq 0 STRIPES_PER_BLOCK.

Section stored.
Context {CR : CrcOps} {CRL : CrcLaws} {MP : ModParams}.
Context (sbi : nova_sb_info) (ls : list free_list).
(** The checksums of block [x] are at [A x]. *)
Context (A : Z -> Z).

Lemma stripe_csum_u32 ws : is_u32 (stripe_csum ws).
Proof. apply nova_crc32c_range, bytes_of_range. Qed.

Lemma crc_stripes_run p n m :
  crc_stripes p n m
  = ((fun k : nat => stripe_csum (words m (p + 512 * Z.of_nat k) STRIPE_WORDS)) <$> seq 0 n, []).
Proof.
  revert p. induction n as [|n IH]; intros p; [done|]. cbn [crc_stripes].
  rewrite bind_load_words. erewrite bind_read by apply IH.
  cbn [seq fmap list_fmap]. rewrite Z.add_0_r, <- seq_shift. unfold mret, pm_ret. do 2 f_equal.
  change (S <$> seq 0 n) with (map S (seq 0 n)). rewrite <- list_fmap_compose.
  apply list_fmap_ext. intros i x _. simpl. change NOVA_STRIPE_SIZE with 512. do 2 f_equal. lia.
Qed.

(** The checksums that go with a page of data. *)
Definition source_csums (zero : bool) (m : mem) (p : Z) : list Z :=
  if zero then zero_csum else page_csums m p.

Lemma source_csums_ok zero m p :
  length (source_csums zero m p) = 8%nat /\ Forall is_u32 (source_csums zero m p).
Proof.
  unfold source_csums, page_csums, zero_csum. destruct zero; (split; [done|]).
  - apply Forall_replicate. apply nova_crc32c_range. apply Forall_replicate. lia.
  - apply Forall_fmap, Forall_forall. intros k _. apply stripe_csum_u32.
Qed.

Lemma length_pack32 zero m p : length (pack32 (source_csums zero m p)) = 4%nat.
Proof. unfold source_csums, page_csums. by destruct zero. Qed.

(** Blocks [b .. b + n - 1] have a place for their checksums, and the data at
    [p] is not in any of them. *)
Record csum_room (b : Z) (n : nat) (p : Z) (zero : bool) : Prop := {
  cr_addr : forall x, b <= x < b + Z.of_nat n -> nova_get_data_csum_addr sbi ls x false = Some (A x);
  cr_apart : forall x y, b <= x < b + Z.of_nat n -> b <= y < b + Z.of_nat n -> x <> y ->
    A x + 32 <= A y \/ A y + 32 <= A x;
  cr_source : zero = false -> forall x, b <= x < b + Z.of_nat n ->
    A x + 32 <= p \/ p + 4096 * Z.of_nat n <= A x;
  cr_width : b + Z.of_nat n < TWO64 /\ (zero = false -> 0 <= p /\ p + 4096 * Z.of_nat n < TWO64) /\ 0 <= b
}.

Lemma csum_room_next b n p zero :
  csum_room b (S n) p zero -> csum_room (b + 1) n (if zero then p else p + 4096) zero.
Proof.
  intros [Ha Hd Hs Hw]. split.
  - intros x Hx. apply Ha. lia.
  - intros x y Hx Hy. apply Hd; lia.
  - intros Hz x Hx. specialize (Hs Hz x ltac:(lia)). rewrite Hz. lia.
  - destruct Hw as (? & Hp & ?). split_and!; [lia| |lia].
    intros Hz. specialize (Hp Hz). rewrite Hz. lia.
Qed.

(** The store of one page's checksums, with or without [clwb]. *)
Definition page_trace (a : Z) (cs : list Z) : list pact :=
  if support_clwb then store_acts a (pack32 cs) ++ flush_acts a 32
  else store_nt_acts a (pack32 cs).

Lemma untouched_flush a b len : untouched b (flush_acts a len).
Proof. apply flush_acts_untouched. Qed.

Lemma page_trace_within a cs : length (pack32 cs) = 4%nat -> writes_within a 4 (page_trace a cs).
Proof.
  intros Hl b Hb. unfold page_trace. rewrite <- Hl in Hb. destruct support_clwb.
  - apply untouched_app. split; [by apply store_acts_within|apply untouched_flush].
  - by apply store_nt_acts_within.
Qed.

Lemma page_trace_words a cs m :
  length (pack32 cs) = 4%nat -> words (exec (page_trace a cs) m) a 4 = pack32 cs.
Proof.
  intros Hl. unfold page_trace. rewrite <- Hl. destruct support_clwb.
  - rewrite exec_app, words_untouched by (intros; apply untouched_flush). apply words_store.
  - apply words_store_nt.
Qed.

Lemma csum_pages_run n fuel b p zero m :
  csum_room b n p zero -> (n <= fuel)%nat ->
  exists t, csum_pages_loop sbi ls fuel (8 * Z.of_nat n) b p zero m
      = (Some (0, b + Z.of_nat n, if zero then p else p + 4096 * Z.of_nat n), t)
    /\ (forall a, (forall x, b <= x < b + Z.of_nat n -> a < A x \/ A x + 32 <= a) -> untouched a t)
    /\ (forall x, b <= x < b + Z.of_nat n ->
          words (exec t m) (A x) 4 = pack32 (source_csums zero m (p + 4096 * (x - b)))).
Proof.
  revert fuel b p m. induction n as [|n IH]; intros fuel b p m Hr Hf.
  { exists []. destruct fuel; simpl; (split; [|split; [constructor|lia]]);
      rewrite Z.add_0_r; by destruct zero; rewrite ?Z.add_0_r. }
  destruct fuel as [|fuel]; [lia|]. cbn [csum_pages_loop].
  rewrite (proj2 (Z.ltb_ge _ _)) by lia.
  pose proof (cr_addr _ _ _ _ Hr b ltac:(lia)) as Hab.
  pose proof (cr_width _ _ _ _ Hr) as (Hwb & Hwp & Hb0).
  set (cs := source_csums zero m p). destruct (source_csums_ok zero m p) as [Hlc _].
  pose proof (length_pack32 zero m p) as Hlp. fold cs in Hlc, Hlp.
  set (t0 := page_trace (A b) cs).
  set (p1 := if zero then p else p + 4096).
  destruct (IH fuel (b + 1) p1 (exec t0 m) (csum_room_next _ _ _ _ Hr) ltac:(lia))
    as (t & Ht & Hut & Hwt).
  assert (Hsame : zero = false -> forall k, p <= k < p + 4096 * Z.of_nat (S n) -> cur (exec t0 m) k = cur m k).
  { intros Hz k Hk. apply cur_untouched, page_trace_within; [done|].
    pose proof (cr_source _ _ _ _ Hr Hz b ltac:(lia)). lia. }
  exists (t0 ++ t). split_and!.
  - erewrite bind_read.
    2: { instantiate (1 := cs). unfold cs, source_csums, page_csums.
         destruct zero; [done|apply crc_stripes_run]. }
    rewrite Hab. change (NOVA_DATA_CSUM_LEN * 8) with 32.
    assert (Hlast : csum_pages_loop sbi ls fuel (8 * Z.of_nat (S n) - 8) (u64 (b + 1))
      (if zero then p else u64 (p + NOVA_STRIPE_SIZE * 8)) zero (exec t0 m)
      = (Some (0, b + Z.of_nat (S n), if zero then p else p + 4096 * Z.of_nat (S n)), t)).
    { replace (8 * Z.of_nat (S n) - 8) with (8 * Z.of_nat n) by lia.
      rewrite (u64_small (b + 1)) by lia. change (NOVA_STRIPE_SIZE * 8) with 4096.
      replace (if zero then p else u64 (p + 4096)) with p1.
      2: { unfold p1. destruct zero; [done|]. rewrite u64_small; [done|].
           destruct (Hwp eq_refl). lia. }
      rewrite Ht. f_equal. f_equal. f_equal; [f_equal; lia|].
      unfold p1. destruct zero; [done|lia]. }
    unfold t0, page_trace in *. destruct support_clwb.
    + rewrite <- app_assoc. eapply bind_run; [done|]. eapply bind_run; [apply flush_only_run|].
      rewrite <- exec_app. exact Hlast.
    + eapply bind_run; [done|]. rewrite bind_mret. exact Hlast.
  - intros a Ha. apply untouched_app. split.
    + apply page_trace_within; [done|]. specialize (Ha b ltac:(lia)). lia.
    + apply Hut. intros x Hx. apply Ha. lia.
  - intros x Hx. rewrite exec_app. destruct (decide (x = b)) as [->|Hne].
    + rewrite Z.sub_diag, Z.mul_0_r, Z.add_0_r. rewrite words_untouched; [by apply page_trace_words|].
      intros i Hi. apply Hut. intros y Hy.
      pose proof (cr_apart _ _ _ _ Hr b y ltac:(lia) ltac:(lia) ltac:(lia)). lia.
    + rewrite Hwt by lia. unfold source_csums, p1. destruct zero; [done|].
      f_equal. unfold page_csums. apply list_fmap_ext. intros i k Hk. apply lookup_seq in Hk as [-> Hk].
      unfold STRIPES_PER_BLOCK in Hk. simpl. f_equal. apply words_ext. intros j Hj.
      unfold STRIPE_WORDS in Hj. rewrite Hsame by (done || lia). f_equal. lia.
Qed.

Lemma update_csum_run n b p zero m :
  csum_room b n p zero -> 4096 * Z.of_nat n < TWO64 ->
  exists t, nova_update_block_csum sbi ls (4096 * Z.of_nat n) b p zero m = (Some 0, t)
    /\ (forall a, (forall x, b <= x < b + Z.of_nat n -> a < A x \/ A x + 32 <= a) -> untouched a t)
    /\ (forall x, b <= x < b + Z.of_nat n ->
          words (exec t m) (A x) 4 = pack32 (source_csums zero m (p + 4096 * (x - b)))).
Proof.
  intros Hr Hn. destruct (csum_pages_run n (S n) b p zero m Hr ltac:(lia)) as (t & Ht & Hu & Hw).
  exists t. split_and!; [|done|done]. unfold nova_update_block_csum, nova_stripe_csum_crc.
  assert (E1 : Z.land (4096 * Z.of_nat n) (NOVA_STRIPE_SIZE - 1) = 0).
  { change (NOVA_STRIPE_SIZE - 1) with (Z.ones 9). rewrite Z.land_ones by lia. change (2 ^ 9) with 512.
    replace (4096 * Z.of_nat n) with (8 * Z.of_nat n * 512) by lia. by apply Z.mod_mul. }
  assert (E2 : Z.shiftr (4096 * Z.of_nat n) NOVA_STRIPE_SHIFT = 8 * Z.of_nat n).
  { rewrite Z.shiftr_div_pow2 by done. change (2 ^ NOVA_STRIPE_SHIFT) with 512.
    replace (4096 * Z.of_nat n) with (8 * Z.of_nat n * 512) by lia. by apply Z.div_mul. }
  rewrite E1, E2. cbn [Z.eqb negb].
  replace (8 * Z.of_nat n / 8) with (Z.of_nat n) by (rewrite Z.mul_comm, Z.div_mul; lia).
  rewrite Nat2Z.id, <- (app_nil_r t). eapply bind_run; [exact Ht|]. done.
Qed.

Lemma verify_stripes_run n s x bp m :
  nova_get_data_csum_addr sbi ls x false = Some (A x) ->
  verify_stripes sbi ls n (Z.of_nat s) x bp m
  = (Some (forallb (fun k : nat => stripe_csum (words m (bp + 512 * Z.of_nat k) STRIPE_WORDS)
                      =? half m (A x + 4 * Z.of_nat k)) (seq s n)), []).
Proof.
  intros Ha. revert s. induction n as [|n IH]; intros s; [done|]. cbn [verify_stripes seq forallb].
  rewrite Ha. erewrite bind_read by apply load32_run. rewrite bind_load_words.
  change NOVA_STRIPE_SIZE with 512. change NOVA_DATA_CSUM_LEN with 4.
  rewrite (Z.mul_comm (Z.of_nat s) 512), (Z.mul_comm (Z.of_nat s) 4).
  destruct (_ =? _); [|done]. replace (Z.of_nat s + 1) with (Z.of_nat (S s)) by lia. apply IH.
Qed.

(** Verification of one block compares each stripe with its checksum. *)
Lemma verify_block_run kmalloc btype x m :
  nova_get_data_csum_addr sbi ls x false = Some (A x) -> kmalloc 0 = true -> 0 <= x < TWO64 ->
  nova_verify_data_csum sbi ls kmalloc btype x 4096 m
  = (Some (forallb (fun k : nat => stripe_csum (words m (block_ptr sbi x btype + 512 * Z.of_nat k) STRIPE_WORDS)
                      =? half m (A x + 4 * Z.of_nat k)) (seq 0 8)), []).
Proof.
  intros Ha Hk Hx. unfold nova_verify_data_csum.
  change (Z.to_nat (Z.shiftr (u64 (4096 - 1)) PAGE_SHIFT + 1)) with 1%nat. cbn [verify_blocks].
  rewrite Hk. cbn [negb]. rewrite Z.add_0_r, (u64_small x) by done.
  erewrite bind_read by apply (verify_stripes_run STRIPES_PER_BLOCK 0 x _ m Ha).
  unfold STRIPES_PER_BLOCK. by destruct (forallb _ _).
Qed.
End stored.
