(* ===== verification/DataGuardTheorems.v ===== *)
(** The properties of data checksums and parity. *)

From S2P Require Import Prelude.
From S2P Require Import Kernel.
From S2P Require Import Checksum.
From S2P Require Import RangeTree.
From S2P Require Import Layout.
From S2P Require Import FreeList.
From S2P Require Import Balloc.
From S2P Require Import BallocSpec.
From S2P Require Import BallocTheorems.
From S2P Require Import Pmem.
From S2P Require Import PmemSpec.
From S2P Require Import DataGuard.
From S2P Require Import DataGuardSpec.

Section theorems.
Context {CR : CrcOps} {CRL : CrcLaws} {MP : ModParams}.

(** C28. [nova_update_block_csum] on [n] whole blocks succeeds and writes
    nothing but the checksums of these blocks; from then on, as long as the
    checksums of a block stay, [nova_verify_data_csum] of that block answers
    true exactly when each of its eight stripes has the CRC of the data the
    update was given (of a zero stripe when asked for zeros). *)
Theorem data_csum_verifies sbi ls A n b p zero m :
  csum_room sbi ls A b n p zero -> 4096 * Z.of_nat n < TWO64 ->
  (forall x, b <= x < b + Z.of_nat n -> A x mod 8 = 0) ->
  exists t, nova_update_block_csum sbi ls (4096 * Z.of_nat n) b p zero m = (Some 0, t)
    /\ (forall a, (forall x, b <= x < b + Z.of_nat n -> a < A x \/ A x + 32 <= a) -> untouched a t)
    /\ forall m2 kmalloc btype x, b <= x < b + Z.of_nat n -> kmalloc 0 = true ->
         words m2 (A x) 4 = words (exec t m) (A x) 4 ->
         exists r, nova_verify_data_csum sbi ls kmalloc btype x 4096 m2 = (Some r, [])
           /\ (r = true <-> forall k, (k < 8)%nat ->
                 stripe_csum (words m2 (block_ptr sbi x btype + 512 * Z.of_nat k) STRIPE_WORDS)
                 = nth k (source_csums zero m (p + 4096 * (x - b))) 0).
Proof.
  intros Hr Hn Hal. destruct (update_csum_run sbi ls A n b p zero m Hr Hn) as (t & E & Hu & Hw).
  exists t. split_and!; [done..|]. intros m2 kmalloc btype x Hx Hk Hsame.
  pose proof (cr_addr _ _ _ _ _ _ _ Hr x Hx) as Ha.
  destruct (cr_width _ _ _ _ _ _ _ Hr) as (? & _ & ?).
  eexists. split; [apply (verify_block_run sbi ls A kmalloc btype x m2 Ha Hk ltac:(lia))|].
  rewrite (Hw x Hx) in Hsame. destruct (source_csums_ok zero m (p + 4096 * (x - b))) as [Hl Hu32].
  rewrite forallb_forall. split.
  - intros Hall k Hk8. rewrite <- (half_pack m2 (A x) _ k (Hal x Hx) Hl Hu32 Hsame Hk8).
    apply Z.eqb_eq, Hall. apply list_elem_of_In, elem_of_seq. lia.
  - intros Hall k Hin. apply list_elem_of_In, elem_of_seq in Hin. apply Z.eqb_eq.
    rewrite (half_pack m2 (A x) _ k (Hal x Hx) Hl Hu32 Hsame) by lia. apply Hall. lia.
Qed.

(** C29. Parity round trip: once [nova_update_block_parity] has written the
    parity of a block, with 16-byte or 8-byte operations, any damage confined
    to one stripe is repaired by [nova_restore_data], given either checksum of
    the lost stripe: the call succeeds, returns that checksum, writes nothing
    but the stripe, and the block reads as before. *)
Theorem parity_restores sbi ls xmm2 xmm2' b id par c0 c1 bad nvmmerr m :
  let bp := block_ptr sbi b NOVA_BLOCK_TYPE_4K in
  let lost := words m (bp + Z.of_nat id * 512) STRIPE_WORDS in
  (id < 8)%nat -> nova_get_parity_addr sbi ls b = Some par ->
  par + 512 <= bp \/ bp + 4096 <= par -> 0 <= bp -> bp + 4096 < TWO64 ->
  Forall is_u64 (words m bp 512) ->
  c0 = stripe_csum lost \/ c1 = stripe_csum lost ->
  exists t, nova_update_block_parity sbi ls xmm2 true (Some bp) b false m = (Some 0, t)
    /\ forall m2,
       (forall a, ~ (bp + Z.of_nat id * 512 <= a < bp + Z.of_nat id * 512 + 512) ->
          cur m2 a = cur (exec t m) a) ->
       exists t2, nova_restore_data sbi ls xmm2' true b (Z.of_nat id) bad nvmmerr c0 c1 m2
           = ((0, Some (stripe_csum lost)), t2)
         /\ writes_within (bp + Z.of_nat id * 512) 64 t2
         /\ words (exec t2 m2) bp 512 = words m bp 512.
Proof.
  intros bp lost Hid Hpar Hap Hbp Hbw Hu Hc.
  exists (store_nt_acts par (nova_calculate_block_parity xmm2 (words m bp 512))).
  split; [exact (update_parity_run sbi ls xmm2 bp b par m Hpar)|]. intros m2 Hm2.
  set (P := nova_calculate_block_parity xmm2 (words m bp 512)) in *.
  pose proof (length_block_parity xmm2 (words m bp 512)) as HlP. fold P in HlP.
  assert (Hout : forall a, a < par \/ par + 512 <= a -> cur (exec (store_nt_acts par P) m) a = cur m a).
  { intros a Ha. apply cur_untouched, store_nt_acts_within. rewrite HlP. unfold STRIPE_WORDS. lia. }
  assert (Hs : nova_calculate_block_parity xmm2' (gathered m2 id bp par) = lost).
  { apply restored_stripe; [done|exact Hu| |].
    - intros s j Hs Hj Hne. unfold cell_of, STRIPE_WORDS in *. rewrite Hm2 by lia. apply Hout. lia.
    - intros j Hj. unfold STRIPE_WORDS in Hj. rewrite Hm2 by lia.
      change (STRIPE_WORDS * STRIPES_PER_BLOCK)%nat with 512%nat.
      rewrite <- (nth_words (exec (store_nt_acts par P) m) par STRIPE_WORDS j) by done.
      rewrite <- HlP at 1. rewrite words_store_nt. unfold P. rewrite block_parity_xmm2 by exact Hu.
      rewrite nth_lookup, list_lookup_fmap, lookup_seq_lt by done. done. }
  assert (Hlu : Forall is_u64 lost).
  { apply forall_words. intros i Hi. unfold STRIPE_WORDS in Hi.
    pose proof (proj1 (forall_words is_u64 m bp 512) Hu (64 * id + i)%nat ltac:(lia)) as H.
    replace (bp + Z.of_nat id * 512 + 8 * Z.of_nat i) with (bp + 8 * Z.of_nat (64 * id + i)) by lia.
    exact H. }
  eexists. split; [exact (restore_hit sbi ls xmm2' b id bad nvmmerr c0 c1 par lost m2 Hpar Hs Hlu Hc)|].
  fold bp.
  assert (Esp : u64 (bp + u32 (Z.shiftl (Z.of_nat id) NOVA_STRIPE_SHIFT)) = bp + Z.of_nat id * 512).
  { rewrite Z.shiftl_mul_pow2 by done. change (2 ^ NOVA_STRIPE_SHIFT) with 512.
    rewrite u32_small, u64_small by lia. done. }
  rewrite Esp. assert (Hll : length lost = 64%nat) by apply length_words.
  pose proof (store_nt_acts_within (bp + Z.of_nat id * 512) lost) as Hwi. rewrite Hll in Hwi.
  split; [exact Hwi|]. apply words_ext. intros i Hi.
  destruct (decide (64 * id <= i < 64 * id + 64)%nat) as [Hin|Hnin].
  - replace (bp + 8 * Z.of_nat i) with (bp + Z.of_nat id * 512 + 8 * Z.of_nat (i - 64 * id)) by lia.
    rewrite <- (nth_words m (bp + Z.of_nat id * 512) STRIPE_WORDS (i - 64 * id))
      by (unfold STRIPE_WORDS; lia).
    rewrite <- (nth_words _ (bp + Z.of_nat id * 512) (length lost)) by lia.
    by rewrite words_store_nt.
  - rewrite cur_untouched by (apply Hwi; lia). rewrite Hm2 by lia. apply Hout. lia.
Qed.

(** C30. Whatever the damage, [nova_restore_data] never makes it worse: it
    either returns 0 with one of the two given checksums, having written one
    whole stripe that has that checksum and nothing else, or an error code
    without having written anything. *)
Theorem restore_writes_good_stripe sbi ls xmm2 kmalloc b id bad nvmmerr c0 c1 m :
  length bad = 512%nat -> Forall (fun x => 0 <= x < 256) bad -> (id < 8)%nat ->
  let sp := u64 (block_ptr sbi b NOVA_BLOCK_TYPE_4K + 512 * Z.of_nat id) in
  exists ret good t, nova_restore_data sbi ls xmm2 kmalloc b (Z.of_nat id) bad nvmmerr c0 c1 m
      = ((ret, good), t)
    /\ (ret = 0 /\ (exists c, good = Some c /\ (c = c0 \/ c = c1)
            /\ stripe_csum (words (exec t m) sp STRIPE_WORDS) = c) /\ writes_within sp 64 t
        \/ (ret = - ENOMEM \/ ret = - EIO) /\ good = None /\ t = []).
Proof.
  intros Hl Hb Hid sp.
  assert (Esp : u64 (block_ptr sbi b NOVA_BLOCK_TYPE_4K + u32 (Z.shiftl (Z.of_nat id) NOVA_STRIPE_SHIFT)) = sp).
  { rewrite Z.shiftl_mul_pow2 by done. change (2 ^ NOVA_STRIPE_SHIFT) with 512.
    rewrite u32_small by lia. unfold sp. f_equal. lia. }
  destruct (restore_run sbi ls xmm2 kmalloc b id bad nvmmerr c0 c1 m Hl Hb Hid)
    as [(ws & c & -> & Hlw & Hc & Hcs)|(ret & -> & Hr)].
  - rewrite Esp. exists 0, (Some c), (store_nt_acts sp ws). split; [done|]. left.
    split_and!; [done| |].
    + exists c. split_and!; [done|done|]. rewrite <- Hlw, words_store_nt. exact Hcs.
    + pose proof (store_nt_acts_within sp ws) as H. rewrite Hlw in H. exact H.
  - exists ret, None, []. split; [done|]. by right.
Qed.
End theorems.

(** [nova_verify_data_csum] of two blocks looks the checksums of both up under
    the first block number (checksum.c:872): it answers true only when the
    second block has the checksums of the first. *)
Lemma verify_two_blocks_first_csums {CR : CrcOps} {MP : ModParams} sbi ls A kmalloc btype x m :
  nova_get_data_csum_addr sbi ls x false = Some (A x) -> kmalloc 0 = true -> kmalloc 1 = true ->
  fst (nova_verify_data_csum sbi ls kmalloc btype x 8192 m) = Some true ->
  forall k, (k < 8)%nat ->
    stripe_csum (words m (block_ptr sbi (u64 (x + 1)) btype + 512 * Z.of_nat k) STRIPE_WORDS)
    = half m (A x + 4 * Z.of_nat k).
Proof.
  intros Ha H0 H1 Hr k Hk. unfold nova_verify_data_csum in Hr.
  change (Z.to_nat (Z.shiftr (u64 (8192 - 1)) PAGE_SHIFT + 1)) with 2%nat in Hr.
  cbn [verify_blocks] in Hr. rewrite H0 in Hr. cbn [negb] in Hr.
  erewrite bind_read in Hr by apply (verify_stripes_run sbi ls A STRIPES_PER_BLOCK 0 x _ m Ha).
  destruct (forallb _ (seq 0 STRIPES_PER_BLOCK)); [|done].
  change (0 + 1) with 1 in Hr. rewrite H1 in Hr. cbn [negb] in Hr.
  erewrite bind_read in Hr by apply (verify_stripes_run sbi ls A STRIPES_PER_BLOCK 0 x _ m Ha).
  destruct (forallb _ (seq 0 STRIPES_PER_BLOCK)) eqn:E; [|done].
  rewrite forallb_forall in E. apply Z.eqb_eq, E, list_elem_of_In, elem_of_seq.
  unfold STRIPES_PER_BLOCK. lia.
Qed.

(** ** Instances on the small device *)
Section witnesses.
Import Demo.

Definition where_csums (_ : Z) : Z := 0x100040000 + 160.
Definition source : Z := 0x300000000.

Lemma room_for_five : csum_room sbi lists where_csums 5 1 source false.
Proof.
  split.
  - intros x Hx. assert (x = 5) as -> by lia. vm_compute. reflexivity.
  - intros x y Hx Hy Hne. lia.
  - intros _ x Hx. unfold where_csums, source. lia.
  - unfold source. lia.
Qed.

Lemma data_csum_verifies_witness :
  exists t, nova_update_block_csum sbi lists 4096 5 source false ∅ = (Some 0, t)
    /\ exists r, nova_verify_data_csum sbi lists (fun _ => true) 0 5 4096 (exec t ∅) = (Some r, []).
Proof.
  destruct (data_csum_verifies sbi lists where_csums 1 5 source false ∅ room_for_five)
    as (t & E & _ & Hv); [lia|intros; unfold where_csums; reflexivity|].
  exists t. split; [exact E|].
  destruct (Hv (exec t ∅) (fun _ => true) 0 5) as (r & Er & _); [lia|reflexivity|reflexivity|].
  exists r. exact Er.
Defined.

Lemma empty_words a n : Forall is_u64 (words ∅ a n).
Proof.
  apply forall_words. intros i _. unfold cur, cell_at. rewrite lookup_empty. unfold is_u64. simpl. lia.
Qed.

Lemma parity_restores_witness :
  let bp := block_ptr sbi 5 NOVA_BLOCK_TYPE_4K in
  exists t, nova_update_block_parity sbi lists false true (Some bp) 5 false ∅ = (Some 0, t)
    /\ exists t2, nova_restore_data sbi lists true true 5 3 [] false 0
          (stripe_csum (words ∅ (bp + 3 * 512) STRIPE_WORDS)) (exec t ∅)
        = ((0, Some (stripe_csum (words ∅ (bp + 3 * 512) STRIPE_WORDS))), t2).
Proof.
  intros bp.
  destruct (parity_restores sbi lists false true 5 3 0x100000000 0
    (stripe_csum (words ∅ (bp + 3 * 512) STRIPE_WORDS)) [] false ∅) as (t & E & Hr).
  - lia.
  - vm_compute. reflexivity.
  - left. vm_compute. discriminate.
  - vm_compute. discriminate.
  - vm_compute. reflexivity.
  - apply empty_words.
  - right. reflexivity.
  - exists t. split; [exact E|]. destruct (Hr (exec t ∅) ltac:(reflexivity)) as (t2 & E2 & _).
    exists t2. exact E2.
Defined.

Lemma restore_writes_good_stripe_witness :
  exists ret good t, nova_restore_data sbi lists true true 5 3 (replicate 512 7) false 1 2 ∅
    = ((ret, good), t) /\ (ret = 0 \/ t = []).
Proof.
  destruct (restore_writes_good_stripe sbi lists true true 5 3 (replicate 512 7) false 1 2 ∅)
    as (ret & good & t & E & H); [reflexivity|apply Forall_replicate; lia|lia|].
  exists ret, good, t. split; [exact E|]. destruct H as [(Hret & _)|(_ & _ & Ht)]; [by left|by right].
Defined.
End witnesses.
