(* ===== verification/Replica.v ===== *)
(** Metadata integrity (checksum.c, inode.h): every inode and every log entry
    has a replica and a checksum; reading one checks both copies and repairs
    the bad one from the good one.

    The copies in DRAM are values: an inode is its 15 words, an entry its
    bytes.  [memcpy_mcsafe] (nova.h) is [memcpy]: it returns 0, so the
    branches for media errors are taken only when an entry has an unknown
    type.  [None] is an execution that reads an uninitialised variable or
    copies a negative number of bytes. *)

From S2P Require Import Prelude.
From S2P Require Import Kernel.
From S2P Require Import Checksum.
From S2P Require Import Layout.
From S2P Require Import Pmem.
From S2P Require Import Journal.
From S2P Require Import InodeLog.
From S2P Require Import DataGuard.

Definition POISON_RADIUS : Z := 512.
Definition POISON_MASK : Z := Z.lnot (POISON_RADIUS - 1).

(** The [n] bytes at [a], a multiple of 8. *)
Definition load_bytes (a : Z) (n : nat) : PM (list Z) :=
  ws ← load_words a ((n + 7) / 8); mret (take n (bytes_of ws)).

(** [memcpy_to_pmem_nocache] of a buffer of bytes: whole words, then the bytes
    of a last word. *)
Fixpoint store_nt_bytes (a : Z) (bs : list Z) : PM () :=
  match bs with
  | [] => mret ()
  | b0 :: b1 :: b2 :: b3 :: b4 :: b5 :: b6 :: b7 :: tl =>
      act (StoreNt a (le_combine [b0; b1; b2; b3; b4; b5; b6; b7]));;
      store_nt_bytes (a + 8) tl
  | _ =>
      w ← load a;
      act (StoreNt a (le_combine (bs ++ drop (length bs) (le_bytes 8 w))))
  end.

(** The return value and the copy. *)
Definition memcpy_mcsafe (p : Z) (n : nat) : PM (Z * list Z) :=
  ws ← load_words p n; mret (0, ws).
Definition memcpy_mcsafe_bytes (p : Z) (n : nat) : PM (Z * list Z) :=
  bs ← load_bytes p n; mret (0, bs).

(** A copy of the poison radius within persistent memory: 64 words, flushed. *)
Definition copy_radius (dst src : Z) : PM Z :=
  '(ret, ws) ← memcpy_mcsafe src 64;
  store_words dst ws;;
  nova_flush_buffer dst POISON_RADIUS false;;
  mret ret.

Section replica.
Context {CR : CrcOps} {MP : ModParams}.
Context (sbi : nova_sb_info).

(** ** Inodes *)

(** [csum] is the high half of the last word. *)
Definition inode_csum (pic : list Z) : Z := u32 (Z.shiftr (nth 14 pic 0) 32).
Definition inode_crc (pic : list Z) : Z := nova_crc32c (TWO32 - 1) (take 116 (bytes_of pic)).

(** 1 for a bad inode. *)
Definition nova_check_inode_checksum (pic : list Z) : Z :=
  if negb metadata_csum then 0
  else if inode_csum pic =? inode_crc pic then 0 else 1.

Definition nova_repair_inode_pr (bad_pi good_pi : Z) : PM Z :=
  ret ← copy_radius (Z.land bad_pi POISON_MASK) (Z.land good_pi POISON_MASK);
  mret (if ret <? 0 then -1 else 0).

Definition nova_repair_inode (bad_pi : Z) (good_copy : list Z) : PM Z :=
  store_nt_words bad_pi good_copy;; mret 0.

(** Repairing the poison radius and reading again. *)
Definition reread_inode (pi other : Z) : PM (option (list Z)) :=
  ret ← nova_repair_inode_pr pi other;
  if ret <? 0 then mret None
  else
    '(ret, pic) ← memcpy_mcsafe pi NOVA_INODE_WORDS;
    mret (if ret <? 0 then None else Some pic).

(** The return value and the copy ([None] when it may be partial). *)
Definition nova_copy_inode (pi_addr alter_pi_addr : Z) : PM (Z * option (list Z)) :=
  let pi := meta_addr sbi pi_addr in
  if negb metadata_csum then
    '(ret, pic) ← memcpy_mcsafe pi NOVA_INODE_WORDS; mret (ret, Some pic)
  else
    let alter_pi := meta_addr sbi alter_pi_addr in
    '(ret, pic) ← memcpy_mcsafe pi NOVA_INODE_WORDS;
    r ← (if ret <? 0 then reread_inode pi alter_pi else mret (Some pic));
    mret (match r with Some pic => (0, Some pic) | None => (- EIO, None) end).

Definition nova_check_inode_integrity (pi_addr alter_pi_addr : Z) (check_replica : bool)
    : PM (Z * option (list Z)) :=
  let pi := meta_addr sbi pi_addr in
  if negb metadata_csum then
    '(ret, pic) ← memcpy_mcsafe pi NOVA_INODE_WORDS; mret (ret, Some pic)
  else
    let alter_pi := meta_addr sbi alter_pi_addr in
    '(ret, pic) ← memcpy_mcsafe pi NOVA_INODE_WORDS;
    r ← (if ret <? 0 then reread_inode pi alter_pi else mret (Some pic));
    match r with
    | None => mret (- EIO, None)
    | Some pic =>
        let inode_bad := negb (nova_check_inode_checksum pic =? 0) in
        if negb inode_bad && negb check_replica then mret (0, Some pic)
        else
          '(ret, alter_pic) ← memcpy_mcsafe alter_pi NOVA_INODE_WORDS;
          r ← (if ret <? 0 then
                 if inode_bad then mret None else reread_inode alter_pi pi
               else mret (Some alter_pic));
          match r with
          | None => mret (- EIO, Some pic)
          | Some alter_pic =>
              let alter_bad := negb (nova_check_inode_checksum alter_pic =? 0) in
              if inode_bad && alter_bad then mret (- EIO, Some pic)
              else if inode_bad then
                ret ← nova_repair_inode pi alter_pic;
                mret (if negb (ret =? 0) then (- EIO, Some pic) else (0, Some alter_pic))
              else if alter_bad then
                ret ← nova_repair_inode alter_pi pic;
                mret (if negb (ret =? 0) then (- EIO, Some pic) else (0, Some pic))
              else if negb (bool_decide (pic = alter_pic)) then   (* stale replica *)
                ret ← nova_repair_inode alter_pi pic;
                mret (if negb (ret =? 0) then (- EIO, Some pic) else (0, Some pic))
              else mret (0, Some pic)
          end
    end.

(** ** Log entries *)

Definition NOVA_DENTRY_HEADER_LEN : Z := 48.
(** [NOVA_DIR_LOG_REC_LEN(NOVA_NAME_LEN)]. *)
Definition NOVA_MAX_ENTRY_LEN : Z := 304.

(** The types of [enum nova_entry_type] that carry a checksum. *)
Definition entry_type_of (code : Z) : option nova_entry_type :=
  match code with
  | 1 => Some FILE_WRITE | 2 => Some DIR_LOG | 3 => Some SET_ATTR | 4 => Some LINK_CHANGE
  | 5 => Some MMAP_WRITE | 6 => Some SNAPSHOT_INFO | _ => None
  end.

(** The offset of [csum] in an entry. *)
Definition csum_offset (type : nova_entry_type) : nat :=
  match type with
  | FILE_WRITE => 60 | DIR_LOG => 12 | SET_ATTR => 52 | _ => 36
  end%nat.

Definition read32 (bs : list Z) (off : nat) : Z := le_combine (take 4 (drop off bs)).
(** [de_len] of a [struct nova_dentry]. *)
Definition de_len (bs : list Z) : Z := le_combine (take 2 (drop 4 bs)).

(** What [get_entry_copy] fills in. *)
Record entry_copy := EntryCopy { ec_csum : Z; ec_size : nat; ec_bytes : list Z }.

(** The return value, and the copy when the function set its outputs: a
    dentry longer than [NOVA_MAX_ENTRY_LEN] returns 0 without setting them, a
    dentry shorter than its header copies [size_t] underflow many bytes. *)
Definition get_entry_copy (entry : Z) : PM (option (Z * option entry_copy)) :=
  '(ret, ty) ← memcpy_mcsafe_bytes entry 1;
  if ret <? 0 then mret (Some (ret, None))
  else
    match entry_type_of (nth 0 ty 0) with
    | None => mret (Some (- EINVAL, Some (EntryCopy 0 0 [])))
    | Some DIR_LOG =>
        '(ret, header) ← memcpy_mcsafe_bytes entry (Z.to_nat NOVA_DENTRY_HEADER_LEN);
        if (ret <? 0) || (NOVA_MAX_ENTRY_LEN <? de_len header) then mret (Some (ret, None))
        else if de_len header <? NOVA_DENTRY_HEADER_LEN then mret None
        else
          '(ret, tl) ← memcpy_mcsafe_bytes (entry + NOVA_DENTRY_HEADER_LEN)
                         (Z.to_nat (de_len header - NOVA_DENTRY_HEADER_LEN));
          if ret <? 0 then mret (Some (ret, None))
          else mret (Some (ret, Some (EntryCopy (read32 header (csum_offset DIR_LOG))
                                        (Z.to_nat (de_len header)) (header ++ tl))))
    | Some type =>
        let size := Z.to_nat (nova_get_log_entry_size type) in
        '(ret, bs) ← memcpy_mcsafe_bytes entry size;
        if ret <? 0 then mret (Some (ret, None))
        else mret (Some (ret, Some (EntryCopy (read32 bs (csum_offset type)) size bs)))
    end.

(** The CRC of an entry without its [csum] field. *)
Definition nova_calc_entry_csum (bs : list Z) : Z :=
  match entry_type_of (nth 0 bs 0) with
  | None => 0
  | Some type =>
      let entry_len := match type with
                       | DIR_LOG => Z.to_nat (de_len bs)
                       | _ => Z.to_nat (nova_get_log_entry_size type)
                       end in
      let check_len := csum_offset type in
      let csum := nova_crc32c NOVA_INIT_CSUM (take check_len bs) in
      let remain := take (entry_len - (check_len + 4)) (drop (check_len + 4) bs) in
      if bool_decide (entry_len = 0%nat) then 0
      else if bool_decide (entry_len - (check_len + 4) = 0)%nat then csum
      else nova_crc32c csum remain
  end.

(** The checksum of an entry in the log. *)
Definition nova_update_entry_csum (entry : Z) : PM () :=
  if negb metadata_csum then mret ()
  else
    ty ← load_bytes entry 1;
    match entry_type_of (nth 0 ty 0) with
    | None => mret ()
    | Some type =>
        header ← load_bytes entry 8;
        let entry_len := match type with
                         | DIR_LOG => Z.to_nat (de_len header)
                         | _ => Z.to_nat (nova_get_log_entry_size type)
                         end in
        bs ← load_bytes entry entry_len;
        store32_hi (entry + Z.of_nat (csum_offset type) - 4) (nova_calc_entry_csum bs);;
        if bool_decide (entry_len = 0%nat) then mret ()
        else nova_flush_buffer entry (Z.of_nat entry_len) false
    end.

(** The copy of an entry from the log to its replica. *)
Definition nova_update_alter_entry (entry : Z) : PM (option Z) :=
  if negb metadata_csum then mret (Some 0)
  else
    alter_curr ← alter_log_entry sbi (nova_get_addr_off sbi entry true);
    if alter_curr =? 0 then mret (Some (- EIO))
    else
      r ← get_entry_copy entry;
      match r with
      | Some (ret, c) =>
          if negb (ret =? 0) then mret (Some ret)
          else
            match c with
            | None => mret None
            | Some c => store_nt_bytes (meta_addr sbi alter_curr) (ec_bytes c);; mret (Some 0)
            end
      | None => mret None
      end.

Definition nova_repair_entry_pr (entry : Z) : PM Z :=
  let entry_off := nova_get_addr_off sbi entry true in
  alter_off ← alter_log_entry sbi entry_off;
  if alter_off =? 0 then mret (-1)
  else
    ret ← copy_radius (meta_addr sbi (Z.land entry_off POISON_MASK))
            (meta_addr sbi (Z.land alter_off POISON_MASK));
    mret (if ret <? 0 then -1 else 0).

Definition nova_repair_entry (bad : Z) (good : list Z) : PM Z := store_nt_bytes bad good;; mret 0.

(** A copy, once more after a repair of its poison radius; [inl] is the
    [fail] label. *)
Definition copy_or_repair (entry : Z) : PM (option (() + entry_copy)) :=
  r ← get_entry_copy entry;
  match r with
  | None => mret None
  | Some (ret, c) =>
      if ret <? 0 then
        ret ← nova_repair_entry_pr entry;
        if ret <? 0 then mret (Some (inl ()))
        else
          r ← get_entry_copy entry;
          match r with
          | None => mret None
          | Some (ret, c) =>
              if ret <? 0 then mret (Some (inl ()))
              else mret (match c with Some c => Some (inr c) | None => None end)
          end
      else mret (match c with Some c => Some (inr c) | None => None end)
  end.

(** The result and what was copied to [entryc]. *)
Definition nova_get_entry_copy (entry : Z) : PM (option (bool * option (list Z))) :=
  r ← copy_or_repair entry;
  mret (match r with
        | None => None
        | Some (inl _) => Some (false, None)
        | Some (inr c) => Some (true, Some (ec_bytes c))
        end).

Definition copy_csum_ok (c : entry_copy) : bool := ec_csum c =? nova_calc_entry_csum (ec_bytes c).

Definition nova_verify_entry_csum (entry : Z) : PM (option (bool * option (list Z))) :=
  if negb metadata_csum then mret (Some (true, None))
  else
    r ← copy_or_repair entry;
    match r with
    | None => mret None
    | Some (inl _) => mret (Some (false, None))
    | Some (inr ec) =>
        alter_off ← alter_log_entry sbi (nova_get_addr_off sbi entry true);
        if alter_off =? 0 then mret (Some (false, None))
        else
          let alter := meta_addr sbi alter_off in
          r ← copy_or_repair alter;
          match r with
          | None => mret None
          | Some (inl _) => mret (Some (false, None))
          | Some (inr ac) =>
              if negb (copy_csum_ok ec) && negb (copy_csum_ok ac) then mret (Some (false, None))
              else if negb (copy_csum_ok ec) then
                ret ← nova_repair_entry entry (ec_bytes ac);
                if negb (ret =? 0) then mret (Some (false, None))
                else mret (Some (true, Some (ec_bytes ac)))
              else if negb (copy_csum_ok ac) then
                ret ← nova_repair_entry alter (ec_bytes ec);
                if negb (ret =? 0) then mret (Some (false, None))
                else mret (Some (true, Some (ec_bytes ec)))
              else if negb (bool_decide (ec_bytes ec = take (ec_size ec) (ec_bytes ac))) then
                ret ← nova_repair_entry alter (ec_bytes ec);
                if negb (ret =? 0) then mret (Some (false, None))
                else mret (Some (true, Some (ec_bytes ec)))
              else mret (Some (true, Some (ec_bytes ec)))
          end
    end.
End replica.
