(* ===== verification/ReplicaTheorems.v ===== *)
(** The properties of metadata integrity: reading an inode or a log entry
    returns a good copy whenever one of the two is good, and leaves both
    good. *)

From S2P Require Import Prelude.
From S2P Require Import Kernel.
From S2P Require Import Checksum.
From S2P Require Import Layout.
From S2P Require Import Pmem.
From S2P Require Import PmemSpec.
From S2P Require Import Journal.
From S2P Require Import InodeLog.
From S2P Require Import DataGuard.
From S2P Require Import DataGuardSpec.
From S2P Require Import Replica.

Section inode.
Context {CR : CrcOps} {MP : ModParams}.
Context (sbi : nova_sb_info).

(** The stored checksum of an inode is right. *)
Definition inode_valid (pic : list Z) : Prop := inode_csum pic = inode_crc pic.

#[export] Instance inode_valid_dec pic : Decision (inode_valid pic).
Proof. unfold inode_valid. apply _. Defined.

Lemma check_inode_valid pic :
  metadata_csum = true -> (nova_check_inode_checksum pic =? 0) = bool_decide (inode_valid pic).
Proof.
  intros Hm. unfold nova_check_inode_checksum, inode_valid. rewrite Hm. cbn [negb].
  destruct (Z.eqb_spec (inode_csum pic) (inode_crc pic)); symmetry;
    [by apply bool_decide_eq_true|by apply bool_decide_eq_false].
Qed.

Lemma mcsafe_run p n m : memcpy_mcsafe p n m = ((0, words m p n), []).
Proof. unfold memcpy_mcsafe. by rewrite bind_load_words. Qed.

Lemma repair_inode_bind {B} p ws (f : Z -> PM B) m b :
  (forall m', f 0 m' = (b, [])) -> (nova_repair_inode p ws ≫= f) m = (b, store_nt_acts p ws).
Proof.
  intros Hf. rewrite <- (app_nil_r (store_nt_acts p ws)). eapply (bind_run _ _ _ 0); [|apply Hf].
  unfold nova_repair_inode. rewrite <- (app_nil_r (store_nt_acts p ws)). by eapply bind_run.
Qed.

(** What the check does, by the validity of the two copies. *)
Lemma check_integrity_run pi_addr alter_pi_addr check_replica m :
  metadata_csum = true ->
  let pi := meta_addr sbi pi_addr in
  let api := meta_addr sbi alter_pi_addr in
  let P := words m pi NOVA_INODE_WORDS in
  let A := words m api NOVA_INODE_WORDS in
  nova_check_inode_integrity sbi pi_addr alter_pi_addr check_replica m
  = if bool_decide (inode_valid P) then
      if negb check_replica then ((0, Some P), [])
      else if bool_decide (inode_valid A) && bool_decide (P = A) then ((0, Some P), [])
      else ((0, Some P), store_nt_acts api P)
    else if bool_decide (inode_valid A) then ((0, Some A), store_nt_acts pi A)
    else ((- EIO, Some P), []).
Proof.
  intros Hm pi api P A. unfold nova_check_inode_integrity. rewrite Hm. cbn [negb]. fold pi api.
  erewrite bind_read by apply mcsafe_run. cbn [Z.ltb Z.compare]. rewrite bind_mret.
  fold P. rewrite check_inode_valid by done.
  destruct (bool_decide (inode_valid P)); cbn [negb andb].
  - destruct check_replica; [|done]. cbn [negb]. erewrite bind_read by apply mcsafe_run.
    cbn [Z.ltb Z.compare]. rewrite bind_mret. fold A. rewrite check_inode_valid by done.
    destruct (bool_decide (inode_valid A)); cbn [negb andb].
    + destruct (bool_decide (P = A)); [done|]. cbn [negb]. by apply repair_inode_bind.
    + by apply repair_inode_bind.
  - erewrite bind_read by apply mcsafe_run. cbn [Z.ltb Z.compare]. rewrite bind_mret. fold A.
    rewrite check_inode_valid by done.
    destruct (bool_decide (inode_valid A)); cbn [negb]; [|done]. by apply repair_inode_bind.
Qed.
End inode.

(** ** Bytes of the log *)

Definition bytes_at (m : mem) (a : Z) (n : nat) : list Z :=
  take n (bytes_of (words m a ((n + 7) / 8))).

Lemma div_up_ge n : (n <= 8 * ((n + 7) / 8))%nat.
Proof. pose proof (Nat.div_mod_eq (n + 7) 8). pose proof (Nat.mod_upper_bound (n + 7) 8). lia. Qed.

Lemma length_bytes_at m a n : length (bytes_at m a n) = n.
Proof.
  unfold bytes_at. rewrite length_take, length_bytes_of, length_words. pose proof (div_up_ge n). lia.
Qed.

Lemma load_bytes_run a n m : load_bytes a n m = (bytes_at m a n, []).
Proof. unfold load_bytes. by rewrite bind_load_words. Qed.

Lemma mcsafe_bytes_run a n m : memcpy_mcsafe_bytes a n m = ((0, bytes_at m a n), []).
Proof. unfold memcpy_mcsafe_bytes. by erewrite bind_read by apply load_bytes_run. Qed.

Lemma bytes_of_app l1 l2 : bytes_of (l1 ++ l2) = bytes_of l1 ++ bytes_of l2.
Proof. apply bind_app. Qed.

Lemma bytes_at_more m a k N :
  (k <= 8 * N)%nat -> bytes_at m a k = take k (bytes_of (words m a N)).
Proof.
  intros Hk. unfold bytes_at. pose proof (div_up_ge k) as Hd.
  assert (E : (exists r, N = (k + 7) / 8 + r)%nat).
  { exists (N - (k + 7) / 8)%nat. assert ((k + 7) / 8 <= N)%nat; [|lia].
    enough ((k + 7) / 8 < N + 1)%nat by lia. apply Nat.Div0.div_lt_upper_bound. lia. }
  destruct E as [r ->]. rewrite words_add, bytes_of_app, take_app_le; [done|].
  rewrite length_bytes_of, length_words. lia.
Qed.

Lemma bytes_at_take m a k n : (k <= n)%nat -> bytes_at m a k = take k (bytes_at m a n).
Proof.
  intros Hk. pose proof (div_up_ge n). rewrite (bytes_at_more m a k ((n + 7) / 8)) by lia.
  unfold bytes_at. by rewrite take_take, Nat.min_l by lia.
Qed.

Lemma bytes_at_drop m a p k :
  bytes_at m (a + 8 * Z.of_nat p) k = drop (8 * p) (bytes_at m a (8 * p + k)).
Proof.
  pose proof (div_up_ge k).
  rewrite (bytes_at_more m a (8 * p + k) (p + (k + 7) / 8)) by lia.
  rewrite words_add, bytes_of_app, take_app_add' by (by rewrite length_bytes_of, length_words).
  by rewrite drop_app_length' by (by rewrite length_bytes_of, length_words).
Qed.

Lemma store_bytes_run k a bs m :
  length bs = (8 * k)%nat -> store_nt_bytes a bs m = ((), store_nt_acts a (words_of bs)).
Proof.
  revert a bs m. induction k as [|k IH]; intros a bs m Hl.
  { destruct bs; [done|]. simpl in Hl. lia. }
  do 8 (destruct bs as [|? bs]; [simpl in Hl; lia|]). cbn [store_nt_bytes words_of store_nt_acts].
  eapply (bind_run _ _ _ () [_]); [done|]. apply IH. simpl in Hl. lia.
Qed.

(** After the repair the bytes are there. *)
Lemma bytes_at_store k a bs m :
  length bs = (8 * k)%nat -> Forall (fun b => 0 <= b < 256) bs ->
  bytes_at (exec (store_nt_acts a (words_of bs)) m) a (8 * k) = bs
  /\ writes_within a k (store_nt_acts a (words_of bs)).
Proof.
  intros Hl Hb. destruct (bytes_of_words k bs Hl Hb) as [E Hn].
  pose proof (store_nt_acts_within a (words_of bs)) as Hw. rewrite Hn in Hw. split; [|exact Hw].
  rewrite (bytes_at_more _ _ _ k) by lia. rewrite <- Hn at 2. rewrite words_store_nt, E.
  apply take_ge. lia.
Qed.

(** ** Copies of entries *)

Section copies.
Context {CR : CrcOps} {MP : ModParams}.

(** [get_entry_copy] as a function of the bytes in memory. *)
Definition copied (m : mem) (a : Z) (type : nova_entry_type) : option (Z * option entry_copy) :=
  match type with
  | DIR_LOG =>
      let h := bytes_at m a 48 in
      if NOVA_MAX_ENTRY_LEN <? de_len h then Some (0, None)
      else if de_len h <? NOVA_DENTRY_HEADER_LEN then None
      else Some (0, Some (EntryCopy (read32 h (csum_offset DIR_LOG)) (Z.to_nat (de_len h))
                            (bytes_at m a (Z.to_nat (de_len h)))))
  | _ =>
      let size := Z.to_nat (nova_get_log_entry_size type) in
      Some (0, Some (EntryCopy (read32 (bytes_at m a size) (csum_offset type)) size (bytes_at m a size)))
  end.

Lemma entry_copy_run a m :
  get_entry_copy a m
  = (match entry_type_of (nth 0 (bytes_at m a 1) 0) with
     | None => Some (- EINVAL, Some (EntryCopy 0 0 []))
     | Some type => copied m a type
     end, []).
Proof.
  unfold get_entry_copy. erewrite bind_read by apply mcsafe_bytes_run. cbn [Z.ltb Z.compare].
  destruct (entry_type_of _) as [[]|]; try done;
    try (erewrite bind_read by apply mcsafe_bytes_run; done).
  erewrite bind_read by apply mcsafe_bytes_run. cbn [Z.ltb Z.compare orb]. unfold copied.
  change (Z.to_nat NOVA_DENTRY_HEADER_LEN) with 48%nat.
  destruct (_ <? _); [done|]. destruct (Z.ltb_spec (de_len (bytes_at m a 48)) NOVA_DENTRY_HEADER_LEN); [done|].
  erewrite bind_read by apply mcsafe_bytes_run. cbn [Z.ltb Z.compare].
  unfold NOVA_DENTRY_HEADER_LEN in *. set (n := Z.to_nat (de_len (bytes_at m a 48))).
  replace (Z.to_nat (de_len (bytes_at m a 48) - 48)) with (n - 48)%nat by lia.
  change 48 with (8 * Z.of_nat 6). rewrite bytes_at_drop.
  replace (8 * 6 + (n - 48))%nat with n by lia.
  rewrite (bytes_at_take m a 48 n) by lia. change (8 * 6)%nat with 48%nat. by rewrite take_drop.
Qed.

Lemma copy_inv a m c :
  get_entry_copy a m = (Some (0, Some c), []) ->
  exists type, entry_type_of (nth 0 (bytes_at m a 1) 0) = Some type /\ type <> NEXT_PAGE
    /\ copied m a type = Some (0, Some c).
Proof.
  rewrite entry_copy_run. destruct (entry_type_of _) as [type|] eqn:E; [|intros H; discriminate H].
  intros H. exists type. split_and!; [done| |congruence]. intros ->.
  revert E. generalize (nth 0 (bytes_at m a 1) 0). intros [|[[[[]|[]|]|[]|]|[[[]|[]|]|[[]|[]|]|]|]|]; done.
Qed.

Lemma copy_bytes a m c :
  get_entry_copy a m = (Some (0, Some c), []) ->
  ec_bytes c = bytes_at m a (ec_size c) /\ (8 <= ec_size c <= 304)%nat.
Proof.
  intros (type & _ & Hn & H)%copy_inv. destruct type; try (injection H as <-; by split; [|vm_compute; lia]); [|done].
  unfold copied in H. cbv zeta in H. unfold NOVA_MAX_ENTRY_LEN, NOVA_DENTRY_HEADER_LEN in H.
  destruct (Z.ltb_spec 304 (de_len (bytes_at m a 48))); [done|].
  destruct (Z.ltb_spec (de_len (bytes_at m a 48)) 48); [done|]. injection H as <-. simpl. split; [done|lia].
Qed.

(** The same bytes elsewhere are the same copy. *)
Lemma copy_transfer a m a' m' c :
  get_entry_copy a m = (Some (0, Some c), []) -> bytes_at m' a' (ec_size c) = ec_bytes c ->
  get_entry_copy a' m' = (Some (0, Some c), []).
Proof.
  intros H Hb. destruct (copy_bytes _ _ _ H) as [Hc Hs]. rewrite Hc in Hb.
  destruct (copy_inv _ _ _ H) as (type & Ht & Hn & E).
  assert (Hpre : forall k, (k <= ec_size c)%nat -> bytes_at m' a' k = bytes_at m a k).
  { intros k Hk. by rewrite (bytes_at_take m' a' k (ec_size c)), (bytes_at_take m a k (ec_size c)), Hb by done. }
  rewrite entry_copy_run, Hpre, Ht by lia.
  assert (E' : copied m' a' type = copied m a type); [|by rewrite E', E].
  destruct type; try (injection E as <-; simpl in Hpre |- *; by rewrite Hpre by done).
  unfold copied in *. cbv zeta in *. unfold NOVA_MAX_ENTRY_LEN, NOVA_DENTRY_HEADER_LEN in *.
  destruct (Z.ltb_spec 304 (de_len (bytes_at m a 48))); [done|].
  destruct (Z.ltb_spec (de_len (bytes_at m a 48)) 48); [done|]. injection E as <-. simpl in Hpre.
  rewrite (Hpre 48%nat) by lia. rewrite Hpre by lia.
  rewrite (proj2 (Z.ltb_ge _ _)), (proj2 (Z.ltb_ge _ _)) by lia. done.
Qed.

Lemma bytes_at_range m a n : Forall (fun b => 0 <= b < 256) (bytes_at m a n).
Proof. apply Forall_take, bytes_of_range. Qed.
End copies.

(** ** Verification of an entry *)
Section entries.
Context {CR : CrcOps} {MP : ModParams}.
Context (sbi : nova_sb_info).

Lemma copy_or_repair_run a m c :
  get_entry_copy a m = (Some (0, Some c), []) -> copy_or_repair sbi a m = (Some (inr c), []).
Proof. intros H. unfold copy_or_repair. by erewrite bind_read by exact H. Qed.

Lemma repair_entry_bind {B} p bs k (f : Z -> PM B) m b :
  length bs = (8 * k)%nat -> (forall m', f 0 m' = (b, [])) ->
  (nova_repair_entry p bs ≫= f) m = (b, store_nt_acts p (words_of bs)).
Proof.
  intros Hl Hf. rewrite <- (app_nil_r (store_nt_acts p _)). eapply (bind_run _ _ _ 0); [|apply Hf].
  unfold nova_repair_entry. rewrite <- (app_nil_r (store_nt_acts p _)).
  eapply bind_run; [by apply (store_bytes_run k)|done].
Qed.

(** Writing a copy over the other one: both are that copy afterwards, and
    nothing else changed. *)
Lemma repaired a b c m t :
  get_entry_copy a m = (Some (0, Some c), []) -> (ec_size c mod 8 = 0)%nat ->
  a + 304 <= b \/ b + 304 <= a -> t = store_nt_acts b (words_of (ec_bytes c)) ->
  get_entry_copy a (exec t m) = (Some (0, Some c), [])
  /\ get_entry_copy b (exec t m) = (Some (0, Some c), [])
  /\ writes_within b 38 t.
Proof.
  intros Hc Hm Hap ->. destruct (copy_bytes _ _ _ Hc) as [Hb Hs].
  pose proof (Nat.div_mod_eq (ec_size c) 8) as Hd. set (k := (ec_size c / 8)%nat) in *.
  assert (Hl : length (ec_bytes c) = (8 * k)%nat) by (rewrite Hb, length_bytes_at; lia).
  destruct (bytes_at_store k b (ec_bytes c) m Hl) as [E Hw]; [rewrite Hb; apply bytes_at_range|].
  replace (8 * k)%nat with (ec_size c) in E by lia. split_and!.
  - apply (copy_transfer a m); [done|]. transitivity (bytes_at m a (ec_size c)); [|by symmetry].
    unfold bytes_at. f_equal. f_equal.
    apply words_untouched. intros i Hi. apply Hw.
    assert ((ec_size c + 7) / 8 = k)%nat.
    { replace (ec_size c + 7)%nat with (7 + k * 8)%nat by lia. by rewrite Nat.div_add. }
    lia.
  - by apply (copy_transfer a m).
  - intros x Hx. apply Hw. lia.
Qed.

Lemma verify_entry_run entry alter_off ec ac m :
  metadata_csum = true ->
  let alter := meta_addr sbi alter_off in
  get_entry_copy entry m = (Some (0, Some ec), []) ->
  alter_log_entry sbi (nova_get_addr_off sbi entry true) m = (alter_off, []) -> alter_off <> 0 ->
  get_entry_copy alter m = (Some (0, Some ac), []) ->
  (ec_size ec mod 8 = 0)%nat -> (ec_size ac mod 8 = 0)%nat ->
  nova_verify_entry_csum sbi entry m
  = if copy_csum_ok ec then
      if copy_csum_ok ac && bool_decide (ec_bytes ec = take (ec_size ec) (ec_bytes ac))
      then (Some (true, Some (ec_bytes ec)), [])
      else (Some (true, Some (ec_bytes ec)), store_nt_acts alter (words_of (ec_bytes ec)))
    else if copy_csum_ok ac then (Some (true, Some (ec_bytes ac)), store_nt_acts entry (words_of (ec_bytes ac)))
    else (Some (false, None), []).
Proof.
  intros Hmd alter He Hal Hne Ha Hse Hsa.
  assert (Hlen : forall a c, get_entry_copy a m = (Some (0, Some c), []) -> (ec_size c mod 8 = 0)%nat ->
    length (ec_bytes c) = (8 * (ec_size c / 8))%nat).
  { intros a c Hc Hs. destruct (copy_bytes _ _ _ Hc) as [-> _]. rewrite length_bytes_at.
    pose proof (Nat.div_mod_eq (ec_size c) 8). lia. }
  pose proof (Hlen _ _ He Hse) as Hle. pose proof (Hlen _ _ Ha Hsa) as Hla.
  unfold nova_verify_entry_csum. rewrite Hmd. cbn [negb].
  rewrite (bind_read _ _ _ _ (copy_or_repair_run entry m ec He)). rewrite (bind_read _ _ _ _ Hal).
  rewrite (proj2 (Z.eqb_neq _ _)) by done. fold alter.
  rewrite (bind_read _ _ _ _ (copy_or_repair_run alter m ac Ha)).
  destruct (copy_csum_ok ec); cbn [negb andb].
  - destruct (copy_csum_ok ac); cbn [negb andb]; [|by eapply repair_entry_bind].
    destruct (bool_decide _); cbn [negb]; [done|]. by eapply repair_entry_bind.
  - destruct (copy_csum_ok ac); cbn [negb]; [|done]. by eapply repair_entry_bind.
Qed.
End entries.

Section theorems.
Context {CR : CrcOps} {MP : ModParams}.

(** C31. [nova_check_inode_integrity] with replication: a good primary that
    is only going to be written is returned as it is; otherwise, when one of
    the two copies is good, the call returns 0 with a good copy (the primary
    when it is good), both copies in memory are that copy afterwards and
    nothing else changed; when both are bad it returns -EIO and writes
    nothing. *)
Theorem inode_integrity_repairs sbi pi_addr alter_pi_addr check_replica m :
  let pi := meta_addr sbi pi_addr in
  let api := meta_addr sbi alter_pi_addr in
  let P := words m pi NOVA_INODE_WORDS in
  let A := words m api NOVA_INODE_WORDS in
  metadata_csum = true -> pi + 120 <= api \/ api + 120 <= pi ->
  exists ret pic t, nova_check_inode_integrity sbi pi_addr alter_pi_addr check_replica m = ((ret, pic), t)
    /\ (inode_valid P -> check_replica = false -> ret = 0 /\ pic = Some P /\ t = [])
    /\ (inode_valid P /\ check_replica = true \/ ~ inode_valid P /\ inode_valid A ->
          let good := if decide (inode_valid P) then P else A in
          ret = 0 /\ pic = Some good
          /\ words (exec t m) pi NOVA_INODE_WORDS = good /\ words (exec t m) api NOVA_INODE_WORDS = good
          /\ (forall b, b < pi \/ pi + 120 <= b -> b < api \/ api + 120 <= b -> untouched b t))
    /\ (~ inode_valid P -> ~ inode_valid A -> ret = - EIO /\ t = []).
Proof.
  intros pi api P A Hm Hap. rewrite check_integrity_run by done. fold pi api P A.
  assert (HlP : length P = 15%nat) by apply length_words.
  assert (HlA : length A = 15%nat) by apply length_words.
  assert (Hw : forall a b l, length l = 15%nat -> a + 120 <= b \/ b + 120 <= a ->
    words (exec (store_nt_acts a l) m) a NOVA_INODE_WORDS = l
    /\ words (exec (store_nt_acts a l) m) b NOVA_INODE_WORDS = words m b NOVA_INODE_WORDS
    /\ (forall c, c < a \/ a + 120 <= c -> untouched c (store_nt_acts a l))).
  { intros a b l Hl Hab. pose proof (store_nt_acts_within a l) as Hwi. rewrite Hl in Hwi. split_and!.
    - unfold NOVA_INODE_WORDS. rewrite <- Hl. apply words_store_nt.
    - apply words_untouched. intros i Hi. unfold NOVA_INODE_WORDS in Hi. apply Hwi. lia.
    - intros c Hc. apply Hwi. lia. }
  destruct (Hw api pi P HlP ltac:(lia)) as (HP1 & HP2 & HP3).
  destruct (Hw pi api A HlA ltac:(lia)) as (HA1 & HA2 & HA3).
  destruct (bool_decide_reflect (inode_valid P)) as [HP|HP].
  - destruct check_replica; cbn [negb].
    + rewrite decide_True by done. destruct (bool_decide _ && _) eqn:E.
      * apply andb_true_iff in E as [_ E%bool_decide_eq_true]. eexists _, _, _. split; [done|].
        split_and!; [done| |done]. intros _. split_and!; [done|done|done|by rewrite E at 1|constructor].
      * eexists _, _, _. split; [done|]. split_and!; [done| |done]. intros _. split_and!; try done.
        intros b _ Hb. by apply HP3.
    + eexists _, _, _. split; [done|]. split_and!; [done| |done]. intros [[_ ?]|[? _]]; done.
  - destruct (bool_decide_reflect (inode_valid A)) as [HA|HA].
    + eexists _, _, _. split; [done|]. rewrite decide_False by done.
      split_and!; [done| |done]. intros _. split_and!; try done. intros b Hb _. by apply HA3.
    + eexists _, _, _. split; [done|]. split_and!; [done| |done]. intros [[? _]|[_ ?]]; done.
Qed.

(** C32. [nova_verify_entry_csum] with replication: when the copy in the log
    or the one in the replica log has the right checksum, it returns true and
    that copy (the one in the log when it is right), both logs hold it
    afterwards and no other word changed; when both are wrong it returns
    false and writes nothing. *)
Theorem entry_csum_repairs sbi entry alter_off ec ac m :
  let alter := meta_addr sbi alter_off in
  metadata_csum = true ->
  get_entry_copy entry m = (Some (0, Some ec), []) ->
  alter_log_entry sbi (nova_get_addr_off sbi entry true) m = (alter_off, []) -> alter_off <> 0 ->
  get_entry_copy alter m = (Some (0, Some ac), []) ->
  (ec_size ec mod 8 = 0)%nat -> (ec_size ac mod 8 = 0)%nat ->
  entry + 304 <= alter \/ alter + 304 <= entry ->
  exists r out t, nova_verify_entry_csum sbi entry m = (Some (r, out), t)
    /\ (copy_csum_ok ec = true \/ copy_csum_ok ac = true ->
          let good := if copy_csum_ok ec then ec else ac in
          r = true /\ out = Some (ec_bytes good)
          /\ get_entry_copy entry (exec t m) = (Some (0, Some good), [])
          /\ get_entry_copy alter (exec t m) = (Some (0, Some good), [])
          /\ (forall b, b < entry \/ entry + 304 <= b -> b < alter \/ alter + 304 <= b -> untouched b t))
    /\ (copy_csum_ok ec = false -> copy_csum_ok ac = false -> r = false /\ out = None /\ t = []).
Proof.
  intros alter Hm He Hal Hne Ha Hse Hsa Hap.
  rewrite (verify_entry_run sbi entry alter_off ec ac m) by done. fold alter.
  destruct (copy_csum_ok ec) eqn:Eo.
  - destruct (copy_csum_ok ac && _) eqn:E.
    + apply andb_true_iff in E as [Ea Eb%bool_decide_eq_true]. eexists _, _, _. split; [done|].
      split; [|done]. intros _. split_and!; [done|done|exact He| |constructor].
      apply (copy_transfer entry m); [exact He|]. change (exec [] m) with m.
      destruct (copy_bytes _ _ _ He) as [Hbe _]. destruct (copy_bytes _ _ _ Ha) as [Hba _].
      assert (Hle : (ec_size ec <= ec_size ac)%nat).
      { pose proof (f_equal length Eb) as Hl. rewrite length_take, Hbe, Hba, !length_bytes_at in Hl. lia. }
      by rewrite (bytes_at_take m alter _ (ec_size ac)), <- Hba, <- Eb.
    + destruct (repaired entry alter ec m _ He Hse Hap eq_refl) as (H1 & H2 & H3).
      eexists _, _, _. split; [done|]. split; [|done]. intros _. split_and!; try done.
      intros b _ Hb. apply H3. lia.
  - destruct (copy_csum_ok ac) eqn:Ea.
    + destruct (repaired alter entry ac m _ Ha Hsa ltac:(lia) eq_refl) as (H1 & H2 & H3).
      eexists _, _, _. split; [done|]. split; [|done]. intros _. split_and!; try done.
      intros b Hb _. apply H3. lia.
    + eexists _, _, _. split; [done|]. split; [|done]. intros [?|?]; done.
Qed.
End theorems.

(** ** Instances: an inode and an entry whose primary copy is damaged *)
Section witnesses.
#[local] Existing Instances Concrete.crc_ops.
#[local] Instance params : ModParams := {|
  metadata_csum := true; data_csum := false; data_parity := false;
  dram_struct_csum := false; support_clwb := true
|}.

Definition sb0 : nova_sb_info := zero_sb_info.

Definition good_inode : list Z :=
  replicate 14 0 ++ [Z.shiftl (inode_crc (replicate 15 0)) 32].
Definition inodes : mem := exec (store_acts 8192 good_inode) ∅.

Lemma inode_integrity_repairs_witness :
  exists t, nova_check_inode_integrity sb0 4096 8192 true inodes = ((0, Some good_inode), t)
    /\ words (exec t inodes) 4096 NOVA_INODE_WORDS = good_inode.
Proof.
  destruct (inode_integrity_repairs sb0 4096 8192 true inodes) as (ret & pic & t & E & _ & Hg & _).
  - reflexivity.
  - left. vm_compute. discriminate.
  - assert (HP : bool_decide (inode_valid (words inodes 4096 NOVA_INODE_WORDS)) = false)
      by (vm_compute; reflexivity).
    assert (HA : bool_decide (inode_valid (words inodes 8192 NOVA_INODE_WORDS)) = true)
      by (vm_compute; reflexivity).
    apply bool_decide_eq_false in HP. apply bool_decide_eq_true in HA.
    change (meta_addr sb0 4096) with 4096 in Hg. change (meta_addr sb0 8192) with 8192 in Hg.
    destruct Hg as (Hr & Hp & H1 & _); [right; exact (conj HP HA)|]. rewrite decide_False in Hp, H1 by exact HP.
    assert (EA : words inodes 8192 NOVA_INODE_WORDS = good_inode) by (vm_compute; reflexivity).
    rewrite EA in Hp, H1. exists t. split; [|exact H1]. rewrite E, Hr, Hp. reflexivity.
Defined.

(** A link-change entry, its replica in the next page, damage in the first. *)
Definition link_change (x csum : Z) : list Z := [4; x; 0; 0; Z.shiftl csum 32].
Definition good_link : list Z :=
  link_change 1 (nova_calc_entry_csum (bytes_of (link_change 1 0))).
Definition logs : mem :=
  exec (store_acts 8176 [8192] ++ store_acts 8192 good_link ++ store_acts 4096 (link_change 2 0)) ∅.
Definition copy_in (a : Z) : entry_copy :=
  match fst (get_entry_copy a logs) with Some (_, Some c) => c | _ => EntryCopy 0 0 [] end.

Lemma entry_csum_repairs_witness :
  exists t, nova_verify_entry_csum sb0 4096 logs = (Some (true, Some (bytes_of good_link)), t)
    /\ get_entry_copy 4096 (exec t logs) = (Some (0, Some (copy_in 8192)), []).
Proof.
  destruct (entry_csum_repairs sb0 4096 8192 (copy_in 4096) (copy_in 8192) logs)
    as (r & out & t & E & Hg & _).
  - reflexivity.
  - vm_compute. reflexivity.
  - vm_compute. reflexivity.
  - discriminate.
  - vm_compute. reflexivity.
  - vm_compute. reflexivity.
  - vm_compute. reflexivity.
  - left. vm_compute. discriminate.
  - assert (Ho : copy_csum_ok (copy_in 4096) = false) by (vm_compute; reflexivity).
    assert (Ha : copy_csum_ok (copy_in 8192) = true) by (vm_compute; reflexivity).
    destruct Hg as (Hr & Hout & H1 & _); [right; exact Ha|]. rewrite Ho in Hout, H1.
    assert (Eb : ec_bytes (copy_in 8192) = bytes_of good_link) by (vm_compute; reflexivity).
    rewrite Eb in Hout. exists t. split; [|exact H1]. rewrite E, Hr, Hout. reflexivity.
Defined.
End witnesses.
