(* ===== verification/InodeTable.v ===== *)
(** Where inodes are stored (inode.c, inode.h): the numbers below
    [NOVA_NORMAL_INODE_START] in a reserved page, the others in the inode
    tables.  Each CPU has a table (and, with metadata replication, a second
    one): a linked list of superpages of 2 MB, each with room for 16384 inodes
    of 128 bytes; the last 8 bytes of a superpage, behind the 120 bytes of its
    last inode, point to the next superpage.

    The operations are [LM] computations whose inode header is that of the
    inode of the tables ([table_sih]).  Superpages are zeroed by the calling
    thread (no delegation threads). *)

From S2P Require Import Prelude.
From S2P Require Import Kernel.
From S2P Require Import Checksum.
From S2P Require Import Layout.
From S2P Require Import RangeTree.
From S2P Require Import FreeList.
From S2P Require Import Balloc.
From S2P Require Import Pmem.
From S2P Require Import Journal.
From S2P Require Import InodeLog.
From S2P Require Import InodeMap.

Definition RESERVE_INODE_START : Z := 1.
Definition INODE_TABLE0_START : Z := 16.
Definition INODE_TABLE1_START : Z := 32.
Definition NOVA_INODE_BITS : Z := 7.
Definition NOVA_INODE_SIZE : Z := 128.
Definition NOVA_INODETABLE_INO : Z := 2.

Definition blk_type_to_shift (btype : Z) : Z := nth (Z.to_nat btype) [12; 15; 21; 30] 0.
Definition blk_type_to_size (btype : Z) : Z :=
  nth (Z.to_nat btype) [0x1000; 0x8000; 0x200000; 0x40000000] 0.
Definition nova_inode_blk_shift (h : nova_inode_info_header) : Z :=
  blk_type_to_shift (i_blk_type h).
Definition nova_inode_blk_size (h : nova_inode_info_header) : Z :=
  blk_type_to_size (i_blk_type h).

(** The header on the stack: only [ino] and [i_blk_type] are set. *)
Definition table_sih : nova_inode_info_header := Sih NOVA_BLOCK_TYPE_2M 0 0 0 0 0 0.

(** [memset_nt]: 64 bytes at a time, then 8, then 4. *)
Definition memset_nt (dest dword length : Z) : PM () :=
  let length := u32 length in
  let qword := Z.lor (Z.shiftl (u32 dword) 32) (u32 dword) in
  let n := Z.to_nat (8 * (length / 64) + length mod 64 / 8) in
  store_nt_words dest (replicate n qword);;
  if length mod 8 / 4 =? 0 then mret () else store_nt32 (dest + 8 * Z.of_nat n) dword.

(** A two-byte store at an even address. *)
Definition store16 (p v : Z) : PM () :=
  let a := Z.land p (Z.lnot 7) in
  let sh := 8 * (p mod 8) in
  w ← load a;
  store64 a (Z.lor (Z.ldiff w (Z.shiftl 65535 sh)) (Z.shiftl (v mod 65536) sh)).

Section inode_table.
Context {RB : RbOps} {KM : KmemOps} {CR : CrcOps} {MP : ModParams}.
Context (sbi : nova_sb_info).

(** ** Addresses *)

Definition nova_get_reserved_inode_addr (inode_number : Z) : Z :=
  u64 (PAGE_SIZE * RESERVE_INODE_START + inode_number * NOVA_INODE_SIZE).
Definition nova_get_alter_reserved_inode_addr (inode_number : Z) : Z :=
  u64 (nova_get_addr_off sbi (replica_reserved_inodes_addr sbi) true
       + inode_number * NOVA_INODE_SIZE).
Definition nova_get_reserved_inode (inode_number : Z) : Z :=
  u64 (meta_start_virt sbi + nova_get_reserved_inode_addr inode_number).
Definition nova_get_alter_reserved_inode (inode_number : Z) : Z :=
  u64 (meta_start_virt sbi + nova_get_alter_reserved_inode_addr inode_number).
Definition nova_get_inode_by_ino (ino : Z) : option Z :=
  if (ino =? 0) || (NOVA_NORMAL_INODE_START <=? ino) then None
  else Some (nova_get_reserved_inode ino).

(** The address of the [log_head] of the table of [cpu]. *)
Definition nova_get_inode_table (version cpu : Z) : option Z :=
  if cpus sbi <=? cpu then None
  else
    let table_start :=
      if Z.land version 1 =? 0 then INODE_TABLE0_START else INODE_TABLE1_START in
    Some (u64 (meta_addr sbi (PAGE_SIZE * table_start) + cpu * CACHELINE_SIZE)).

(** ** Allocation of superpages *)

Context (fuel : nat) (this_cpu : Z).

(** The areas the calling thread zeroes itself; [None] when delegation threads
    do. *)
Definition memset_area (z : zero_op) : option (Z * Z) :=
  match z with
  | MemsetNt bp length => Some (bp, length)
  | DelegateZero _ _ _ _ => None
  end.
Definition zero_areas (areas : list (Z * Z)) : PM () :=
  foldr (fun area k => memset_nt area.1 0 area.2;; k) (mret ()) areas.

(** [nova_new_log_blocks(sb, &sih, &blocknr, 1, ALLOC_INIT_ZERO, cpu, ...)]:
    replicas are allocated from the tail. *)
Definition new_superpage (cpuid version : Z) : LM (Z * Z) :=
  fun st =>
    match nova_new_log_blocks fuel sbi false (fun _ => 0) this_cpu (fls st) 0
            (i_blk_type (sih st)) 1 ALLOC_INIT_ZERO cpuid
            (if version =? 0 then ALLOC_FROM_HEAD else ALLOC_FROM_TAIL) with
    | None => mret None
    | Some (allocated, blocknr, ls, zs) =>
        match mapM memset_area zs with
        | None => mret None
        | Some areas => zero_areas areas;; mret (Some ((allocated, blocknr), LState ls (sih st)))
        end
    end.

(** The loop over the CPUs: [n] are left, the next is [i]. *)
Fixpoint alloc_table_loop (n : nat) (i version : Z) : LM Z :=
  match n with
  | O => mret 0
  | S n' =>
      match nova_get_inode_table version i with
      | None => mret (- EINVAL)
      | Some inode_table =>
          '(allocated, blocknr) ← new_superpage i version;
          if negb (allocated =? 1) || (blocknr =? 0) then mret (- ENOSPC)
          else
            let block := nova_get_block_off sbi blocknr NOVA_BLOCK_TYPE_2M true in
            pm (store64 inode_table block;;
                nova_flush_buffer inode_table CACHELINE_SIZE false);;
            alloc_table_loop n' (i + 1) version
      end
  end.
Definition nova_alloc_inode_table (version : Z) : LM Z :=
  alloc_table_loop (Z.to_nat (cpus sbi)) 0 version.

(** The stores to the inode of the tables; the offsets are those of
    [struct nova_inode]. *)
Definition init_table_inode (pi : Z) : PM () :=
  store16 (pi + 28) 0;;                       (* i_mode *)
  store32_lo (pi + 40) 0;;                    (* i_uid *)
  store32_hi (pi + 40) 0;;                    (* i_gid *)
  store16 (pi + 30) 1;;                       (* i_links_count *)
  store32_hi pi 0;;                           (* i_flags *)
  store64 (pi + 56) NOVA_INODETABLE_INO;;     (* nova_ino *)
  store8 (pi + 3) NOVA_BLOCK_TYPE_2M.         (* i_blk_type *)

Fixpoint init_tables_loop (n : nat) (i : Z) : LM Z :=
  match n with
  | O => pm PERSISTENT_BARRIER;; mret 0
  | S n' =>
      ret ← nova_alloc_inode_table i;
      if negb (ret =? 0) then mret ret else init_tables_loop n' (i + 1)
  end.
Definition nova_init_inode_table : LM Z :=
  match nova_get_inode_by_ino NOVA_INODETABLE_INO with
  | None => stuck
  | Some pi => pm (init_table_inode pi);; init_tables_loop (if metadata_csum then 2 else 1) 0
  end.

(** ** The address of an inode *)

Definition num_inodes_bits : Z :=
  blk_type_to_shift NOVA_BLOCK_TYPE_2M - NOVA_INODE_BITS.

(** The word that points to the next superpage. *)
Definition next_superpage (curr : Z) : Z :=
  u64 (meta_addr sbi curr + nova_inode_blk_size table_sih - 8).

(** [n] superpages to go from [curr]: an error, or the superpage reached and
    [extended]. *)
Fixpoint superpage_walk (n : nat) (curr cpuid version : Z) (extendable extended : bool)
    : LM (Z + Z * bool) :=
  match n with
  | O => mret (inr (curr, extended))
  | S n' =>
      if curr =? 0 then mret (inl (- EINVAL))
      else
        let curr_addr := next_superpage curr in
        curr ← pm (load curr_addr);
        if curr =? 0 then
          if negb extendable then mret (inl (- EINVAL))
          else
            '(allocated, blocknr) ← new_superpage cpuid version;
            if negb (allocated =? 1) then mret (inl allocated)
            else
              let curr := nova_get_block_off sbi blocknr NOVA_BLOCK_TYPE_2M true in
              pm (store64 curr_addr curr;; nova_flush_buffer curr_addr NOVA_INODE_SIZE true);;
              superpage_walk n' curr cpuid version extendable true
        else superpage_walk n' curr cpuid version extendable extended
  end.

(** [nova_get_inode_address] of a number that is not reserved, up to the
    extension of the replica. *)
Definition table_slot (ino version : Z) (extendable : bool) : LM (Z + Z * bool) :=
  if cpus sbi =? 0 then stuck
  else
    let cpuid := s32 (ino mod cpus sbi) in
    let internal_ino := ino / cpus sbi in
    match nova_get_inode_table version cpuid with
    | None => stuck
    | Some inode_table =>
        let superpage_count := u32 (Z.shiftr internal_ino num_inodes_bits) in
        curr ← pm (load inode_table);
        if curr =? 0 then mret (inl (- EINVAL))
        else superpage_walk (Z.to_nat superpage_count) curr cpuid version extendable false
    end.

(** The return value and [*pi_addr], which an error leaves alone. *)
Definition nova_get_inode_address (ino version : Z) (extendable extend_alternate : bool)
    : LM (Z * option Z) :=
  if ino <? NOVA_NORMAL_INODE_START then mret (0, Some (nova_get_reserved_inode_addr ino))
  else
    r ← table_slot ino version extendable;
    match r with
    | inl err => mret (err, None)
    | inr (curr, extended) =>
        (if extended && extend_alternate && metadata_csum then
           table_slot ino (version + 1) extendable;; mret ()
         else mret ());;
        let index := Z.land (ino / cpus sbi) (Z.shiftl 1 num_inodes_bits - 1) in
        mret (0, Some (u64 (curr + index * NOVA_INODE_SIZE)))
    end.

Definition nova_get_alter_inode_address (ino : Z) : LM (Z * option Z) :=
  if negb metadata_csum then mret (0, None)
  else if ino <? NOVA_NORMAL_INODE_START then
    mret (0, Some (nova_get_alter_reserved_inode_addr ino))
  else
    nova_get_inode_address ino 1 false false.

(** The new number (0 on failure), [*pi_addr] and the maps of numbers. *)
Definition nova_new_nova_inode (ns : ino_state) : LM (Z * option Z * ino_state) :=
  let cpu := map_id ns in
  if cpus sbi =? 0 then stuck
  else
    let ns := InoState (s_inodes_used_count ns) ((map_id ns + 1) mod cpus sbi)
                (inode_maps ns) in
    match nova_alloc_unused_inode sbi ns cpu with
    | None => stuck
    | Some (0, Some free_ino, ns) =>
        '(ret, pi_addr) ← nova_get_inode_address free_ino 0 true true;
        if negb (ret =? 0) then mret (0, pi_addr, ns)
        else mret (free_ino, pi_addr, ns)
    | Some (_, _, ns) => mret (0, None, ns)
    end.
End inode_table.
