(* ===== verification/InodeTableSpec.v ===== *)
(** The inode tables in memory: the lists of superpages, what a walk along
    one of them reads, and what extending it writes. *)

From S2P Require Import Prelude.
From S2P Require Import Kernel.
From S2P Require Import Layout.
From S2P Require Import RangeTree.
From S2P Require Import FreeList.
From S2P Require Import FreeListSpec.
From S2P Require Import Balloc.
From S2P Require Import BallocSpec.
From S2P Require Import CsumArea.
From S2P Require Import Pmem.
From S2P Require Import PmemSpec.
From S2P Require Import Journal.
From S2P Require Import JournalSpec.
From S2P Require Import InodeLog.
From S2P Require Import InodeLogSpec.
From S2P Require Import InodeMap.
From S2P Require Import InodeTable.

(** The words and the blocks of a superpage. *)
Lemma nat_of (z : Z) : 0 <= z -> {n : nat | Z.of_nat n = z}.
Proof. intros Hz. exists (Z.to_nat z). by apply Z2Nat.id. Qed.
Definition SP_WORDS : nat := proj1_sig (nat_of 262144 ltac:(lia)).
Definition SP_BLOCKS : nat := proj1_sig (nat_of 512 ltac:(lia)).

Lemma sp_words : Z.of_nat SP_WORDS = 262144.
Proof. exact (proj2_sig (nat_of 262144 _)). Qed.
Lemma sp_words_nat : Z.to_nat 262144 = SP_WORDS.
Proof. rewrite <- sp_words. apply Nat2Z.id. Qed.
Lemma sp_blocks : Z.of_nat SP_BLOCKS = 512.
Proof. exact (proj2_sig (nat_of 512 _)). Qed.
Lemma sp_blocks_nat : Z.to_nat 512 = SP_BLOCKS.
Proof. rewrite <- sp_blocks. apply Nat2Z.id. Qed.

Section table.
Context {RB : RbOps} {KM : KmemOps} {CR : CrcOps} {MP : ModParams}.
Context (sbi : nova_sb_info) (G : log_geometry sbi).

Abbreviation base := (base sbi).

(** A superpage behind the head of the metadata region. *)
Definition superpage (b : Z) : Prop := 64 <= b /\ b + 512 < TWO31.
(** The pointer to the next superpage. *)
Definition sp_link (b : Z) : Z := base b + 0x200000 - 8.
Definition sp_area (b a : Z) : Prop := base b <= a < base b + 0x200000.
Definition apart (b b' : Z) : Prop := b + 512 <= b' \/ b' + 512 <= b.

Lemma apart_area b b' a : apart b b' -> sp_area b a -> ~ sp_area b' a.
Proof. unfold apart, sp_area, base. lia. Qed.

Lemma link_in_area b : sp_area b (sp_link b).
Proof. unfold sp_area, sp_link. lia. Qed.

Lemma link_inj b b' : sp_link b = sp_link b' -> b = b'.
Proof. unfold sp_link, base. lia. Qed.

Lemma next_superpage_link b : superpage b -> next_superpage sbi (b * 4096) = sp_link b.
Proof.
  intros [? ?]. unfold next_superpage.
  rewrite (base_addr sbi G) by (unfold log_block; lia).
  change (nova_inode_blk_size table_sih) with 0x200000. unfold sp_link, base.
  destruct G as [_ _ Hr]. rewrite u64_small by lia. done.
Qed.

Lemma superpage_off b : superpage b -> nova_get_block_off sbi b NOVA_BLOCK_TYPE_2M true = b * 4096.
Proof.
  intros [? ?]. destruct G as [(Hn & Hh & Hb) _ _]. unfold nova_get_block_off, nova_blknr_to_nvmidx,
    nova_block_to_nvmoff, nova_blknr_to_blkidx.
  change (nova_get_numblocks NOVA_BLOCK_TYPE_2M) with 512.
  rewrite Hn, Hh, Z.div_1_r, Z.mod_1_r, Z.add_0_r.
  change (s32 0) with 0. rewrite Hb, Z.add_0_l.
  pose proof (Z.div_mod b 512 ltac:(lia)). pose proof (Z.mod_pos_bound b 512).
  rewrite (u64_small (b / 512 * 512)) by lia.
  replace (b / 512 * 512 + b mod 512) with b by lia.
  rewrite (u64_small b) by lia. rewrite Z.shiftl_mul_pow2 by done.
  change (2 ^ PAGE_SHIFT) with 4096. by rewrite u64_small by lia.
Qed.

(** ** Lists of superpages *)

Fixpoint sp_chain (g : Z -> Z) (p : Z) (sps : list Z) : Prop :=
  match sps with
  | [] => p = 0
  | b :: sps => p = b * 4096 /\ sp_chain g (g (sp_link b)) sps
  end.

Lemma sp_chain_ext g g' p sps :
  (forall b, b ∈ sps -> g' (sp_link b) = g (sp_link b)) -> sp_chain g p sps -> sp_chain g' p sps.
Proof.
  revert p. induction sps as [|b sps IH]; intros p Hg; simpl; [done|]. intros [-> Hc].
  split; [done|]. rewrite Hg by left. apply IH; [|done]. intros b' Hb'. apply Hg. by right.
Qed.

(** A beginning of a list: the pointer of the last superpage is open. *)
Fixpoint sp_path (g : Z -> Z) (p : Z) (sps : list Z) : Prop :=
  match sps with
  | [] => True
  | b :: sps => p = b * 4096 /\ sp_path g (g (sp_link b)) sps
  end.

Lemma chain_path g p sps new : sp_chain g p (sps ++ new) -> sp_path g p sps.
Proof.
  revert p. induction sps as [|b sps IH]; intros p; simpl; [done|]. intros [-> Hc].
  split; [done|]. by apply IH.
Qed.

Lemma sp_path_ext g g' p sps c :
  last sps = Some c -> (forall b, b ∈ sps -> b <> c -> g' (sp_link b) = g (sp_link b)) ->
  NoDup sps -> sp_path g p sps -> sp_path g' p sps.
Proof.
  revert p. induction sps as [|b sps IH]; intros p Hl Hg Hnd; simpl; [done|]. intros [-> Hc].
  split; [done|]. apply NoDup_cons in Hnd as [Hb Hnd]. destruct sps as [|b' sps]; [done|].
  rewrite Hg; [|by left|].
  - apply IH; [done| |done|done]. intros x Hx. apply Hg. by right.
  - intros ->. apply Hb. by apply last_Some_elem_of.
Qed.

Section walk.
Context (fuel : nat) (this_cpu cpuid version : Z).

Lemma walk_step n b extendable extended st m :
  superpage b ->
  superpage_walk sbi fuel this_cpu (S n) (b * 4096) cpuid version extendable extended st m
  = (let curr := cur m (sp_link b) in
     if curr =? 0 then
       if negb extendable then mret (inl (- EINVAL))
       else
         '(allocated, blocknr) ← new_superpage sbi fuel this_cpu cpuid version;
         if negb (allocated =? 1) then mret (inl allocated)
         else
           let curr := nova_get_block_off sbi blocknr NOVA_BLOCK_TYPE_2M true in
           pm (store64 (sp_link b) curr;; nova_flush_buffer (sp_link b) NOVA_INODE_SIZE true);;
           superpage_walk sbi fuel this_cpu n curr cpuid version extendable true
     else superpage_walk sbi fuel this_cpu n curr cpuid version extendable extended) st m.
Proof.
  intros Hs. cbn [superpage_walk]. rewrite (proj2 (Z.eqb_neq (b * 4096) 0)) by (destruct Hs; lia).
  rewrite (next_superpage_link b Hs).
  assert (Hbind : forall (f : Z -> LM (Z + Z * bool)),
    (pm (load (sp_link b)) ≫= f) st m = f (cur m (sp_link b)) st m).
  { intros f. destruct (f (cur m (sp_link b)) st m) as [r t] eqn:E.
    by apply (lbind_run (pm (load (sp_link b))) f st m (cur m (sp_link b)) st [] r t). }
  by rewrite Hbind.
Qed.

(** A walk that stays on the list, and one that comes to its end. *)
Lemma walk_stays n p sps b extendable extended st m :
  sp_path (cur m) p sps -> Forall superpage sps -> sps !! n = Some b ->
  superpage_walk sbi fuel this_cpu n p cpuid version extendable extended st m
  = (Some (inr (b * 4096, extended), st), []).
Proof.
  revert p sps. induction n as [|n IH]; intros p [|b0 sps] Hc Hs Hb; simplify_eq.
  - injection Hb as ->. by destruct Hc as [-> _].
  - apply Forall_cons in Hs as [Hs0 Hs]. destruct Hc as [-> Hc]. rewrite (walk_step _ _ _ _ _ _ Hs0).
    destruct sps as [|b1 sps]; [done|]. pose proof (proj1 Hc) as Hp.
    rewrite Hp in Hc |- *. pose proof (Forall_inv Hs) as [? _]. cbv zeta.
    rewrite (proj2 (Z.eqb_neq (b1 * 4096) 0)) by lia. by apply (IH _ (b1 :: sps)).
Qed.

Lemma walk_refuses n p b0 sps extended st m :
  sp_chain (cur m) p (b0 :: sps) -> Forall superpage (b0 :: sps) -> (length (b0 :: sps) <= n)%nat ->
  superpage_walk sbi fuel this_cpu n p cpuid version false extended st m
  = (Some (inl (- EINVAL), st), []).
Proof.
  revert p b0 sps. induction n as [|n IH]; intros p b0 sps [-> Hc] Hs Hn; [simpl in Hn; lia|].
  apply Forall_cons in Hs as [Hs0 Hs]. rewrite (walk_step _ _ _ _ _ _ Hs0).
  destruct sps as [|b1 sps]; [by rewrite Hc|]. pose proof (proj1 Hc) as Hp.
  rewrite Hp in Hc |- *. pose proof (Forall_inv Hs) as [? _]. cbv zeta.
  rewrite (proj2 (Z.eqb_neq (b1 * 4096) 0)) by lia. apply (IH _ b1 sps); [done|done|].
  simpl in *. lia.
Qed.
End walk.

(** ** Zeroing a superpage *)

Definition zero_acts (b : Z) : list pact := store_nt_acts (base b) (replicate SP_WORDS 0).

Lemma memset_superpage b m : memset_nt (base b) 0 0x200000 m = ((), zero_acts b).
Proof.
  unfold memset_nt. change (u32 0x200000) with 0x200000.
  change (Z.lor (Z.shiftl (u32 0) 32) (u32 0)) with 0.
  change (8 * (0x200000 / 64) + 0x200000 mod 64 / 8) with 262144.
  change (0x200000 mod 8 / 4 =? 0) with true. cbv beta iota zeta.
  rewrite sp_words_nat. unfold store_nt_words, zero_acts.
  rewrite <- (app_nil_r (store_nt_acts _ _)) at 2. by eapply bind_run.
Qed.

Lemma zero_acts_outside b a : ~ sp_area b a -> untouched a (zero_acts b).
Proof.
  intros Ha. apply store_nt_acts_within. rewrite length_replicate, sp_words.
  unfold sp_area in Ha. lia.
Qed.

Lemma zero_acts_flushed b m i : 0 <= i < 262144 ->
  flushed 0 (cell_at (exec (zero_acts b) m) (base b + 8 * i)).
Proof.
  intros Hi. rewrite <- (Z2Nat.id i) by lia. apply store_nt_flushed.
  apply lookup_replicate. split; [done|]. pose proof sp_words. lia.
Qed.

Lemma sp_link_index b : sp_link b = base b + 8 * 262143.
Proof. unfold sp_link. lia. Qed.

(** What linking the superpage [b] behind [c] writes. *)
Definition sp_link_acts (c b : Z) : list pact :=
  Store (sp_link c) (b * 4096) :: flush_acts (sp_link c) 128 ++ [Fence].

Lemma sp_link_run c b m :
  (store64 (sp_link c) (b * 4096);; nova_flush_buffer (sp_link c) NOVA_INODE_SIZE true) m
  = ((), sp_link_acts c b).
Proof. apply bind_store. apply flush_fence_run. Qed.

Lemma sp_link_acts_untouched c b a : a <> sp_link c -> untouched a (sp_link_acts c b).
Proof.
  intros Ha. constructor; [simpl; congruence|]. apply untouched_app.
  split; [apply flush_acts_untouched|by repeat constructor].
Qed.

Lemma sp_link_cur c b m : cur (exec (sp_link_acts c b) m) (sp_link c) = b * 4096.
Proof.
  change (sp_link_acts c b) with ([Store (sp_link c) (b * 4096)] ++ (flush_acts (sp_link c) 128 ++ [Fence])).
  rewrite exec_app, cur_untouched.
  - change (exec [Store (sp_link c) (b * 4096)] m) with (exec1 (Store (sp_link c) (b * 4096)) m).
    rewrite cur_store. by rewrite decide_True.
  - apply untouched_app. split; [apply flush_acts_untouched|by repeat constructor].
Qed.

(** ** Allocating superpages *)

Context {RBL : RbLaws} {KML : KmemLaws} (Hslab : forall T, is_Some (nova_alloc_range_node T)).
Context (fuel : nat) (this_cpu : Z) (Hthis : 0 <= this_cpu).

(** The head of the metadata region is reserved. *)
Record table_ready (ls : list free_list) : Prop := {
  tr_log : log_ready sbi fuel ls;
  tr_head : forall x, free_block ls true x -> 64 <= x
}.

(** A superpage that is in use. *)
Definition held (ls : list free_list) (b : Z) : Prop :=
  superpage b /\ forall x, b <= x < b + 512 -> ~ free_block ls true x.

(** [bs] are superpages taken from the free blocks. *)
Definition superpages_taken (ls : list free_list) (bs : list Z) (ls' : list free_list) : Prop :=
  pages_allocated ls (bs ≫= (fun b => run b SP_BLOCKS)) ls'.

Lemma elem_run_sp b x : x ∈ run b SP_BLOCKS <-> b <= x < b + 512.
Proof. rewrite elem_run, sp_blocks. done. Qed.

Lemma new_superpage_run cpuid version st m :
  table_ready (fls st) -> i_blk_type (sih st) = 2 -> 0 <= cpuid < cpus sbi ->
  exists r b st' t,
    new_superpage sbi fuel this_cpu cpuid version st m = (Some ((r, b), st'), t)
    /\ sih st' = sih st /\ table_ready (fls st')
    /\ (r = - ENOSPC /\ st' = st /\ t = []
        \/ r = 1 /\ t = zero_acts b /\ superpage b
           /\ pages_allocated (fls st) (run b SP_BLOCKS) (fls st')).
Proof.
  intros [Hr Hh] Hb Hcpu. unfold new_superpage, nova_new_log_blocks. rewrite Hb.
  match goal with |- context [nova_new_blocks _ _ _ _ _ _ _ _ _ _ _ _ ?d] =>
    destruct (new_blocks_spec fuel sbi false (fun _ => 0) this_cpu (fls st) 0 1 2 true LOG cpuid d
              (lr_wf _ _ _ Hr) Hslab Hthis (or_intror Hcpu)) as (r & b & ls' & z & E & Hres) end;
    [change (nova_get_numblocks 2) with 512; lia|by apply (ready_fuel sbi)|].
  rewrite E. clear E. change (nova_get_numblocks 2) with 512 in Hres.
  destruct Hres as [(-> & -> & -> & -> & _)|(n & Hn & Hrn & Hty & Hal & Hz)].
  { eexists _, _, _, []. split; [reflexivity|]. split; [done|]. split; [by split|].
    left. by destruct st. }
  destruct (Hty ltac:(lia)) as [Hr0 Hn512]. assert (r = 1) as -> by lia.
  assert (n = 512) as -> by lia. clear Hn Hrn Hty Hr0 Hn512.
  destruct (allocated_pages sbi fuel (fls st) 512 b ls' Hr ltac:(lia) Hal) as [Hp Hr'].
  rewrite sp_blocks_nat in Hp. change (is_LOG LOG) with true in Hz.
  assert (Hsp : superpage b).
  { assert (Hf : forall x, b <= x < b + 512 -> free_block (fls st) true x)
      by (intros x Hx; by apply (pa_was_free _ _ _ Hp), elem_run_sp).
    split; [by apply Hh, Hf; lia|].
    pose proof (ready_block sbi fuel _ (b + 511) Hr (Hf (b + 511) ltac:(lia))) as Hl.
    unfold log_block in Hl. lia. }
  eexists 1, b, (LState ls' (sih st)), (zero_acts b). split; [|split_and!; [done| |]].
  - rewrite Hz. unfold zero_blocks. change (seq 0 (Z.to_nat 1)) with [0%nat].
    cbn [fmap list_fmap mapM memset_area option_ret option_bind mret mbind].
    change (Z.of_nat 0 * nova_get_numblocks 2) with 0. rewrite Z.add_0_r.
    destruct Hsp as [? ?]. rewrite (u64_small b) by lia. change 2 with NOVA_BLOCK_TYPE_2M.
    rewrite superpage_off by (split; lia).
    change (nova_get_virt_addr_from_offset sbi (b * 4096) true) with (meta_addr sbi (b * 4096)).
    rewrite (base_addr sbi G) by (unfold log_block; lia).
    change (u64 (PAGE_SIZE * nova_get_numblocks NOVA_BLOCK_TYPE_2M)) with 0x200000.
    rewrite <- (app_nil_r (zero_acts b)). eapply bind_run; [|reflexivity].
    unfold zero_areas. cbn [foldr fst snd]. rewrite <- (app_nil_r (zero_acts b)).
    eapply bind_run; [apply memset_superpage|reflexivity].
  - split; [done|]. intros x. rewrite (pa_free _ _ _ Hp). intros [Hx _]. by apply Hh.
  - right. split_and!; done.
Qed.

(** A superpage in use stays in use, and is disjoint from one taken later. *)
Lemma held_taken ls b bs ls' : held ls b -> superpages_taken ls bs ls' -> held ls' b.
Proof.
  intros [Hs Hh] Hp. split; [done|]. intros x Hx. rewrite (pa_free _ _ _ Hp). intros [Hf _].
  by apply (Hh x).
Qed.

Lemma held_apart ls b b' :
  held ls b -> (forall x, x ∈ run b' SP_BLOCKS -> free_block ls true x) -> apart b b'.
Proof.
  intros [_ Hh] Hf. unfold apart.
  destruct (decide (b + 512 <= b')); [by left|]. destruct (decide (b' + 512 <= b)); [by right|].
  exfalso. apply (Hh (Z.max b b')); [lia|]. apply Hf, elem_run_sp. lia.
Qed.

Lemma taken_held ls b ls' :
  superpage b -> pages_allocated ls (run b SP_BLOCKS) ls' -> held ls' b.
Proof.
  intros Hs Hp. split; [done|]. intros x Hx. rewrite (pa_free _ _ _ Hp). intros [_ Hn].
  apply Hn. split; [done|]. by apply elem_run_sp.
Qed.

(** ** Extending a table *)

Definition outside_sps (bs : list Z) (a : Z) : Prop := forall b, b ∈ bs -> ~ sp_area b a.

Lemma extend_one c b m :
  mem_ok m -> superpage c -> superpage b -> apart c b ->
  let t := zero_acts b ++ sp_link_acts c b in
  cur (exec t m) (sp_link c) = b * 4096 /\ settled (exec t m) (sp_link c)
  /\ (forall i, 0 <= i < 262144 ->
        cur (exec t m) (base b + 8 * i) = 0 /\ settled (exec t m) (base b + 8 * i))
  /\ (forall a, ~ sp_area b a -> a <> sp_link c -> untouched a t).
Proof.
  intros Hok Hc Hb Hap t. unfold t. rewrite exec_app.
  pose proof (mem_ok_exec (zero_acts b) m Hok) as Hok1.
  set (m1 := exec (zero_acts b) m) in *. split; [apply sp_link_cur|]. split.
  { change (sp_link_acts c b) with ([Store (sp_link c) (b * 4096)] ++ (flush_acts (sp_link c) 128 ++ [Fence])).
    rewrite exec_app.
    change (flush_acts (sp_link c) 128 ++ [Fence]) with (flush_acts (sp_link c) 128 ++ [] ++ Fence :: []).
    apply flush_fence_settled; try (by constructor).
    - by apply mem_ok_exec.
    - unfold sp_link, InodeLogSpec.base. destruct G as [_ _ ?], Hc. lia.
    - clear. lia.
    - rewrite sp_link_index. by apply word_aligned. }
  split.
  - intros i Hi. assert (Hne : base b + 8 * i <> sp_link c).
    { intros E. apply (apart_area c b (sp_link c) Hap (link_in_area c)). unfold sp_area. lia. }
    pose proof (zero_acts_flushed b m i Hi) as Hf. fold m1 in Hf.
    change (sp_link_acts c b) with ((Store (sp_link c) (b * 4096) :: flush_acts (sp_link c) 128) ++ [Fence]).
    rewrite exec_app. apply and_comm, flushed_fence, flushed_exec; [|done].
    constructor; [simpl; congruence|]. apply flush_acts_untouched.
  - intros a Ha Hne. apply untouched_app. split; [by apply zero_acts_outside|].
    by apply sp_link_acts_untouched.
Qed.

(** What a walk that extends the table leaves: [sps] is the list before, [new]
    the superpages added, [c] the last of [sps]. *)
Record grown (p : Z) (sps new : list Z) (c : Z) (st : lstate) (m : mem) (st' : lstate)
    (t : list pact) : Prop := {
  gr_taken : superpages_taken (fls st) new (fls st');
  gr_super : Forall superpage new;
  gr_chain : sp_chain (cur (exec t m)) p (sps ++ new);
  gr_zero : forall b i, b ∈ new -> 0 <= i < 262143 ->
    cur (exec t m) (base b + 8 * i) = 0 /\ settled (exec t m) (base b + 8 * i);
  gr_links : forall b, new <> [] -> b ∈ c :: new -> settled (exec t m) (sp_link b);
  gr_frame : forall a, outside_sps new a -> a <> sp_link c -> untouched a t;
  gr_none : new = [] -> t = []
}.

Lemma grown_nil p sps c st m : sp_chain (cur m) p sps -> grown p sps [] c st m st [].
Proof.
  intros Hc. split; try done; [apply pages_allocated_nil|by rewrite app_nil_r| |constructor].
  by intros b i Hb%elem_of_nil.
Qed.

Lemma taken_run ls bs ls' b x :
  superpages_taken ls bs ls' -> b ∈ bs -> x ∈ run b SP_BLOCKS -> free_block ls true x.
Proof. intros Hp Hb Hx. apply (pa_was_free _ _ _ Hp), list_elem_of_bind. eauto. Qed.

Lemma held_outside ls bs ls' b a :
  superpages_taken ls bs ls' -> held ls b -> sp_area b a -> outside_sps bs a.
Proof.
  intros Hp Hh Ha b' Hb'. eapply apart_area; [|done]. eapply held_apart; [done|].
  intros x Hx. by eapply taken_run.
Qed.

Lemma grown_first p b0 b new st m st1 st' t2 :
  let t1 := zero_acts b ++ sp_link_acts b0 b in
  let m1 := exec t1 m in
  p = b0 * 4096 -> mem_ok m -> held (fls st) b0 -> superpage b ->
  pages_allocated (fls st) (run b SP_BLOCKS) (fls st1) ->
  grown (b * 4096) [b] new b st1 m1 st' t2 ->
  grown p [b0] (b :: new) b0 st m st' (t1 ++ t2).
Proof.
  intros t1 m1 -> Hok Hh0 Hb Hp Hg.
  assert (Hap : apart b0 b).
  { eapply held_apart; [exact Hh0|]. intros x Hx. by apply (pa_was_free _ _ _ Hp). }
  pose proof (taken_held _ _ _ Hb Hp) as Hhb.
  assert (Hh0' : held (fls st1) b0).
  { apply (held_taken (fls st) b0 [b]); [done|]. unfold superpages_taken. simpl. by rewrite app_nil_r. }
  destruct (extend_one b0 b m Hok (proj1 Hh0) Hb Hap) as (Hl & Hls & Hz & Hfr).
  fold t1 in Hl, Hls, Hz, Hfr. fold m1 in Hl, Hls, Hz.
  assert (Hu : forall x a, held (fls st1) x -> sp_area x a -> a <> sp_link b -> untouched a t2).
  { intros x a Hx Ha Hne. apply (gr_frame _ _ _ _ _ _ _ _ Hg); [|done].
    by eapply held_outside; [apply Hg| |]. }
  assert (Hne : sp_link b0 <> sp_link b).
  { intros E%link_inj. subst. unfold apart in Hap. lia. }
  pose proof (Hu b0 _ Hh0' (link_in_area b0) Hne) as Hu0.
  split.
  - unfold superpages_taken. simpl. eapply pages_allocated_app; [exact Hp|apply Hg].
  - constructor; [done|apply Hg].
  - split; [done|]. rewrite exec_app, cur_untouched by done. fold m1. rewrite Hl. apply Hg.
  - intros b' i [->|Hb']%elem_of_cons Hi; rewrite exec_app; fold m1; [|by apply Hg].
    assert (Hu' : untouched (base b + 8 * i) t2).
    { apply (Hu b); [done|unfold sp_area; lia|]. rewrite sp_link_index. lia. }
    rewrite cur_untouched by done. destruct (Hz i ltac:(lia)) as [-> Hs].
    split; [done|]. by apply settled_untouched.
  - intros b' _ Hb'. rewrite exec_app. fold m1. apply elem_of_cons in Hb' as [->|Hb'].
    { by apply settled_untouched. }
    destruct new as [|b1 new]; [|by apply (gr_links _ _ _ _ _ _ _ _ Hg)].
    apply list_elem_of_singleton in Hb' as ->. rewrite (gr_none _ _ _ _ _ _ _ _ Hg) by done.
    rewrite sp_link_index. apply Hz. lia.
  - intros a Ha Hna. apply untouched_app. split.
    + apply Hfr; [|done]. apply Ha. by left.
    + apply (gr_frame _ _ _ _ _ _ _ _ Hg).
      * intros b' Hb'. apply Ha. by right.
      * intros ->. apply (Ha b); [by left|apply link_in_area].
  - done.
Qed.

Lemma grown_behind p b0 b1 rest c new st m st' t :
  p = b0 * 4096 -> held (fls st) b0 -> b0 ∉ b1 :: rest -> last (b1 :: rest) = Some c ->
  grown (cur m (sp_link b0)) (b1 :: rest) new c st m st' t ->
  grown p (b0 :: b1 :: rest) new c st m st' t.
Proof.
  intros -> Hh Hnd Hc Hg.
  assert (Hu : untouched (sp_link b0) t).
  { apply (gr_frame _ _ _ _ _ _ _ _ Hg).
    - eapply held_outside; [apply Hg|done|apply link_in_area].
    - intros E%link_inj. subst. apply Hnd. by apply last_Some_elem_of. }
  destruct Hg as [H1 H2 H3 H4 H5 H6 H7]. split; try done.
  change ((b0 :: b1 :: rest) ++ new) with (b0 :: (b1 :: rest) ++ new). split; [done|].
  by rewrite (cur_untouched _ _ _ Hu).
Qed.

Lemma walk_extends n p b0 rest c cpuid version extended st m :
  sp_chain (cur m) p (b0 :: rest) -> Forall (held (fls st)) (b0 :: rest) -> NoDup (b0 :: rest) ->
  last (b0 :: rest) = Some c -> mem_ok m -> table_ready (fls st) -> i_blk_type (sih st) = 2 ->
  0 <= cpuid < cpus sbi -> (length (b0 :: rest) <= n)%nat ->
  exists r st' t new,
    superpage_walk sbi fuel this_cpu n p cpuid version true extended st m = (Some (r, st'), t)
    /\ sih st' = sih st /\ table_ready (fls st') /\ grown p (b0 :: rest) new c st m st' t
    /\ (r = inl (- ENOSPC) /\ (length (b0 :: rest ++ new) <= n)%nat
        \/ exists b, r = inr (b * 4096, true) /\ (b0 :: rest ++ new) !! n = Some b
             /\ length (b0 :: rest ++ new) = S n).
Proof.
  revert p b0 rest c extended st m. induction n as [|n IH];
    intros p b0 rest c extended st m Hc Hh Hnd Hl Hok Hr Hbt Hcpu Hlen; [simpl in Hlen; lia|].
  pose proof Hc as [Hp0 Hc']. apply Forall_cons in Hh as [Hh0 Hh]. pose proof Hh0 as [Hsp _].
  subst p. rewrite walk_step by exact Hsp. cbv zeta.
  destruct rest as [|b1 rest].
  - simpl in Hc'. rewrite Hc'. cbv beta iota zeta. change (0 =? 0) with true. cbv beta iota.
    change (negb true) with false. cbv beta iota.
    injection Hl as <-.
    destruct (new_superpage_run cpuid version st m Hr Hbt Hcpu)
      as (r & b & st1 & t1 & E1 & Hs1 & Hr1 & [(-> & -> & ->)|(-> & -> & Hb & Hp)]).
    { exists (inl (- ENOSPC)), st, [], []. split; [|split_and!; [done|done| |left; simpl in *; split; [done|lia]]].
      - exact (lbind_run _ _ _ _ _ _ [] _ [] E1 eq_refl).
      - by apply grown_nil. }
    pose proof (mem_ok_exec (zero_acts b ++ sp_link_acts b0 b) m Hok) as Hok1.
    assert (Hrest : exists r st' t new,
      superpage_walk sbi fuel this_cpu n (b * 4096) cpuid version true true st1
        (exec (zero_acts b ++ sp_link_acts b0 b) m) = (Some (r, st'), t)
      /\ sih st' = sih st1 /\ table_ready (fls st')
      /\ grown (b * 4096) [b] new b st1 (exec (zero_acts b ++ sp_link_acts b0 b) m) st' t
      /\ (r = inl (- ENOSPC) /\ (length (b :: new) <= n)%nat
          \/ exists b', r = inr (b' * 4096, true) /\ (b :: new) !! n = Some b' /\ length (b :: new) = S n)).
    { assert (Hap : apart b0 b).
      { eapply held_apart; [exact Hh0|]. intros x Hx. by apply (pa_was_free _ _ _ Hp). }
      destruct (extend_one b0 b m Hok Hsp Hb Hap) as (_ & _ & Hz & _).
      assert (Hcb : sp_chain (cur (exec (zero_acts b ++ sp_link_acts b0 b) m)) (b * 4096) [b]).
      { split; [done|]. rewrite sp_link_index. apply Hz. lia. }
      destruct n as [|n].
      - exists (inr (b * 4096, true)), st1, [], []. split; [reflexivity|].
        split_and!; [done|done|by apply grown_nil|]. right. by exists b.
      - apply (IH _ _ [] b true st1); try done.
        + constructor; [by eapply taken_held|constructor].
        + apply NoDup_singleton.
        + by rewrite Hs1.
        + simpl. lia. }
    destruct Hrest as (r & st' & t2 & new & E2 & Hs2 & Hr2 & Hg & Hres).
    exists r, st', ((zero_acts b ++ sp_link_acts b0 b) ++ t2), (b :: new).
    split; [|split_and!; [congruence|done|by eapply grown_first|]].
    + rewrite <- app_assoc. eapply lbind_run; [exact E1|]. cbv beta iota.
      change (negb (1 =? 1)) with false. cbv beta iota zeta. rewrite superpage_off by done.
      eapply lbind_run; [apply pm_run, sp_link_run|]. rewrite <- exec_app. exact E2.
    + destruct Hres as [[-> ?]|(b' & -> & ? & ?)]; simpl in *; [left|right]; [split; [done|lia]|].
      exists b'. split_and!; [done|done|lia].
  - pose proof (proj1 Hc') as Hp1. rewrite Hp1. cbv beta.
    pose proof (Forall_inv Hh) as [[? _] _].
    rewrite (proj2 (Z.eqb_neq (b1 * 4096) 0)) by lia.
    apply NoDup_cons in Hnd as [Hnd0 Hnd].
    destruct (IH (b1 * 4096) b1 rest c extended st m) as (r & st' & t & new & E & Hs & Hr' & Hg & Hres);
      try done; [by rewrite <- Hp1|simpl in *; lia|].
    exists r, st', t, new. split; [exact E|]. split_and!; [done|done| |].
    + eapply grown_behind; [done|done|done|done|]. by rewrite Hp1.
    + destruct Hres as [[-> ?]|(b' & -> & ? & ?)]; simpl in *; [left|right]; [split; [done|lia]|].
      exists b'. split_and!; [done|done|lia].
Qed.
End table.
