(* ===== verification/InodeTableTheorems.v ===== *)
(** The properties of the inode tables: where inodes are, how tables grow, and
    what a crash leaves of them. *)

From S2P Require Import Prelude.
From S2P Require Import Kernel.
From S2P Require Import Layout.
From S2P Require Import RangeTree.
From S2P Require Import FreeList.
From S2P Require Import FreeListSpec.
From S2P Require Import Balloc.
From S2P Require Import BallocSpec.
From S2P Require Import BallocInit.
From S2P Require Import CsumArea.
From S2P Require Import Pmem.
From S2P Require Import PmemSpec.
From S2P Require Import Journal.
From S2P Require Import JournalSpec.
From S2P Require Import InodeLog.
From S2P Require Import InodeLogSpec.
From S2P Require Import InodeMap.
From S2P Require Import InodeMapSpec.
From S2P Require Import InodeMapTheorems.
From S2P Require Import InodeTable.
From S2P Require Import InodeTableSpec.

(** The largest number a walk of [unsigned int] superpages can reach on one
    CPU is far above [MAX_INODE]. *)
Definition INO_LIMIT : Z := 0x400000000000.

(** [tbl v c] are the superpages of the table of CPU [c], version [v]. *)
Definition slot_of (n : Z) (tbl : Z -> Z -> list Z) (ino v : Z) : option Z :=
  b ← tbl v (ino mod n) !! Z.to_nat (ino / n / 16384);
  Some (b * 4096 + (ino / n) mod 16384 * 128).

Section tables.
Context {RB : RbOps} {KM : KmemOps} {CR : CrcOps} {MP : ModParams}.
Context (sbi : nova_sb_info).

Definition table_id (v c : Z) : Prop := (v = 0 \/ v = 1) /\ 0 <= c < cpus sbi.
Definition head_addr (v c : Z) : Z := meta_start_virt sbi + (16 + 16 * v) * 4096 + c * 64.
(** [b] is superpage number [i] of a table. *)
Definition tbl_at (tbl : Z -> Z -> list Z) (v c : Z) (i : nat) (b : Z) : Prop :=
  table_id v c /\ tbl v c !! i = Some b.

Record tables_ok (ls : list free_list) (m : mem) (tbl : Z -> Z -> list Z) : Prop := {
  to_chain : forall v c, table_id v c ->
    tbl v c <> [] /\ sp_chain sbi (cur m) (cur m (head_addr v c)) (tbl v c);
  to_held : forall v c i b, tbl_at tbl v c i b -> held ls b;
  to_apart : forall v c i b v' c' i' b', tbl_at tbl v c i b -> tbl_at tbl v' c' i' b' ->
    (v, c, i) <> (v', c', i') -> apart b b'
}.
End tables.

Section lemmas.
Context {RB : RbOps} {KM : KmemOps} {CR : CrcOps} {MP : ModParams}.
Context {RBL : RbLaws} {KML : KmemLaws}.
Context (sbi : nova_sb_info) (G : log_geometry sbi) (Hcpus : 0 < cpus sbi <= 1024).
Context (fuel : nat) (this_cpu : Z).

Lemma inode_table_addr v c : table_id sbi v c -> nova_get_inode_table sbi v c = Some (head_addr sbi v c).
Proof.
  intros [Hv Hc]. unfold nova_get_inode_table. rewrite (proj2 (Z.leb_gt _ _)) by lia.
  destruct G as [_ _ Hr]. unfold head_addr, meta_addr, nova_get_virt_addr_from_offset.
  change INODE_TABLE0_START with 16. change INODE_TABLE1_START with 32.
  change CACHELINE_SIZE with 64. change PAGE_SIZE with 4096.
  destruct Hv as [-> | ->].
  - change (Z.land 0 1 =? 0) with true. cbv beta iota zeta. f_equal.
    rewrite (u64_small (meta_start_virt sbi + _)) by lia. rewrite u64_small; lia.
  - change (Z.land 1 1 =? 0) with false. cbv beta iota zeta. f_equal.
    rewrite (u64_small (meta_start_virt sbi + _)) by lia. rewrite u64_small; lia.
Qed.

Lemma table_bounds ino : 32 <= ino < INO_LIMIT ->
  table_id sbi 0 (ino mod cpus sbi) /\ table_id sbi 1 (ino mod cpus sbi)
  /\ s32 (ino mod cpus sbi) = ino mod cpus sbi
  /\ u32 (Z.shiftr (ino / cpus sbi) num_inodes_bits) = ino / cpus sbi / 16384.
Proof.
  unfold INO_LIMIT. intros Hi. pose proof (Z.mod_pos_bound ino (cpus sbi) ltac:(lia)).
  split_and!; [unfold table_id; auto..| |].
  - apply s32_small. lia.
  - change num_inodes_bits with 14. rewrite Z.shiftr_div_pow2 by done. change (2 ^ 14) with 16384.
    pose proof (Z.div_pos ino (cpus sbi) ltac:(lia) ltac:(lia)).
    assert (ino / cpus sbi <= ino) by (apply Z.div_le_upper_bound; nia).
    apply u32_small. split; [by apply Z.div_pos|]. apply Z.div_lt_upper_bound; lia.
Qed.

Lemma table_slot_unfold ino v extendable st m p :
  32 <= ino < INO_LIMIT -> v = 0 \/ v = 1 -> cur m (head_addr sbi v (ino mod cpus sbi)) = p -> p <> 0 ->
  table_slot sbi fuel this_cpu ino v extendable st m
  = superpage_walk sbi fuel this_cpu (Z.to_nat (ino / cpus sbi / 16384)) p
      (ino mod cpus sbi) v extendable false st m.
Proof.
  intros Hi Hv Hp Hnz. destruct (table_bounds ino Hi) as (H0 & H1 & Hs & Hu).
  unfold table_slot. rewrite (proj2 (Z.eqb_neq _ _)) by lia. rewrite Hs, Hu.
  rewrite (inode_table_addr v) by (by destruct Hv as [-> | ->]).
  destruct (superpage_walk sbi fuel this_cpu (Z.to_nat (ino / cpus sbi / 16384)) p
      (ino mod cpus sbi) v extendable false st m) as [r t] eqn:E.
  apply (lbind_run _ _ _ _ p st [] r t); [by apply pm_run; rewrite <- Hp|].
  cbv beta. by rewrite (proj2 (Z.eqb_neq _ _)).
Qed.

Lemma chain_head g p sps : sp_chain sbi g p sps -> sps <> [] -> Forall superpage sps -> p <> 0.
Proof.
  destruct sps as [|b sps]; [done|]. intros [-> _] _ Hs. pose proof (Forall_inv Hs) as [? _]. lia.
Qed.

Lemma slot_index ino b :
  32 <= ino < INO_LIMIT -> superpage b ->
  u64 (b * 4096 + Z.land (ino / cpus sbi) (Z.shiftl 1 num_inodes_bits - 1) * NOVA_INODE_SIZE)
  = b * 4096 + (ino / cpus sbi) mod 16384 * 128.
Proof.
  intros Hi [? ?]. change (Z.shiftl 1 num_inodes_bits - 1) with (Z.ones 14).
  rewrite Z.land_ones by done. change (2 ^ 14) with 16384. change NOVA_INODE_SIZE with 128.
  pose proof (Z.mod_pos_bound (ino / cpus sbi) 16384 ltac:(lia)). apply u64_small. lia.
Qed.

(** The address of an inode whose superpage is there, and one that is not. *)
Lemma address_found ino v sps b ext alt st m :
  32 <= ino < INO_LIMIT -> v = 0 \/ v = 1 ->
  sp_path sbi (cur m) (cur m (head_addr sbi v (ino mod cpus sbi))) sps -> Forall superpage sps ->
  sps !! Z.to_nat (ino / cpus sbi / 16384) = Some b ->
  nova_get_inode_address sbi fuel this_cpu ino v ext alt st m
  = (Some ((0, Some (b * 4096 + (ino / cpus sbi) mod 16384 * 128)), st), []).
Proof.
  intros Hi Hv Hc Hs Hb. unfold nova_get_inode_address.
  rewrite (proj2 (Z.ltb_ge ino _)) by (unfold NOVA_NORMAL_INODE_START; lia).
  assert (Hnz : cur m (head_addr sbi v (ino mod cpus sbi)) <> 0).
  { destruct sps as [|b0 sps]; [done|]. destruct Hc as [-> _]. pose proof (Forall_inv Hs) as [? _]. lia. }
  apply (lbind_run _ _ _ _ (inr (b * 4096, false)) st [] _ []).
  - rewrite (table_slot_unfold _ _ _ _ _ _ Hi Hv eq_refl Hnz). by eapply walk_stays.
  - change (false && alt && metadata_csum) with false. cbv beta iota zeta.
    change (exec [] m) with m. rewrite lbind_mret.
    rewrite slot_index; [done|done|]. by eapply Forall_lookup_1.
Qed.

Lemma address_refused ino v sps alt st m :
  32 <= ino < INO_LIMIT -> v = 0 \/ v = 1 ->
  sp_chain sbi (cur m) (cur m (head_addr sbi v (ino mod cpus sbi))) sps -> sps <> [] ->
  Forall superpage sps -> sps !! Z.to_nat (ino / cpus sbi / 16384) = None ->
  nova_get_inode_address sbi fuel this_cpu ino v false alt st m = (Some ((- EINVAL, None), st), []).
Proof.
  intros Hi Hv Hc Hne Hs Hb. unfold nova_get_inode_address.
  rewrite (proj2 (Z.ltb_ge ino _)) by (unfold NOVA_NORMAL_INODE_START; lia).
  pose proof (chain_head _ _ _ Hc Hne Hs) as Hnz.
  apply (lbind_run _ _ _ _ (inl (- EINVAL)) st [] _ []); [|done].
  rewrite (table_slot_unfold _ _ _ _ _ _ Hi Hv eq_refl Hnz). destruct sps as [|b0 sps]; [done|].
  eapply walk_refuses; [done|done|done|]. by apply lookup_ge_None.
Qed.

Lemma tables_super ls m tbl v c : tables_ok sbi ls m tbl -> table_id sbi v c -> Forall superpage (tbl v c).
Proof.
  intros Hok Hid. apply Forall_lookup. intros i b Hb. by apply (to_held _ _ _ _ Hok v c i b).
Qed.

(** ** Growing tables *)

Definition extend_tbl (v c : Z) (new : list Z) (tbl : Z -> Z -> list Z) : Z -> Z -> list Z :=
  fun v' c' => if decide (v' = v /\ c' = c) then tbl v c ++ new else tbl v' c'.

(** [t] writes nothing of what the tables hold but the open ends. *)
Record keeps (tbl : Z -> Z -> list Z) (t : list pact) : Prop := {
  ke_head : forall v c, table_id sbi v c -> untouched (head_addr sbi v c) t;
  ke_link : forall v c i b, tbl_at sbi tbl v c i b -> is_Some (tbl v c !! S i) ->
    untouched (sp_link sbi b) t;
  ke_word : forall v c i b j, tbl_at sbi tbl v c i b -> 0 <= j < 262143 ->
    untouched (base sbi b + 8 * j) t
}.

Lemma keeps_nil tbl : keeps tbl [].
Proof. split; intros; constructor. Qed.

Lemma head_outside v c b : table_id sbi v c -> superpage b -> ~ sp_area sbi b (head_addr sbi v c).
Proof.
  intros [Hv Hc] [Hb _]. unfold sp_area, head_addr, base. lia.
Qed.

Lemma bind_apart (bs : list Z) i j b b' :
  NoDup (bs ≫= fun b => run b SP_BLOCKS) -> bs !! i = Some b -> bs !! j = Some b' -> i <> j ->
  apart b b'.
Proof.
  intros Hnd Hi Hj Hne. assert (Hx : forall x, x ∈ run b SP_BLOCKS -> x ∉ run b' SP_BLOCKS).
  { clear -Hnd Hi Hj Hne. revert i j Hi Hj Hne. induction bs as [|b0 bs IH]; intros i j Hi Hj Hne x; [done|].
    simpl in Hnd. apply NoDup_app in Hnd as (_ & Hd & Hnd).
    assert (Hin : forall k y, bs !! k = Some y -> x ∈ run y SP_BLOCKS ->
      x ∈ bs ≫= fun b => run b SP_BLOCKS).
    { intros k y Hk Hy. apply list_elem_of_bind. exists y. split; [done|].
      by apply list_elem_of_lookup_2 in Hk. }
    destruct i as [|i], j as [|j]; simplify_eq/=; [|..].
    - intros Hx Hx'. apply (Hd x Hx). by eapply Hin.
    - intros Hx Hx'. apply (Hd x Hx'). by eapply Hin.
    - apply (IH Hnd i j); [done|done|lia]. }
  unfold apart. destruct (decide (b + 512 <= b')); [by left|].
  destruct (decide (b' + 512 <= b)); [by right|]. exfalso.
  apply (Hx (Z.max b b')); apply elem_run_sp; lia.
Qed.

Lemma grown_keeps tbl v c new cl st m st' t :
  tables_ok sbi (fls st) m tbl -> table_id sbi v c -> last (tbl v c) = Some cl ->
  grown sbi (cur m (head_addr sbi v c)) (tbl v c) new cl st m st' t -> keeps tbl t.
Proof.
  intros Hok Hid Hl Hg.
  assert (Hcl : exists k, tbl_at sbi tbl v c k cl /\ k = pred (length (tbl v c))).
  { exists (pred (length (tbl v c))). split; [|done]. split; [done|]. by rewrite <- last_lookup. }
  destruct Hcl as (k & Hk & Hkl).
  assert (Hu : forall v' c' i b a, tbl_at sbi tbl v' c' i b -> sp_area sbi b a ->
    ((v', c', i) <> (v, c, k) \/ a <> sp_link sbi cl) -> untouched a t).
  { intros v' c' i b a Hb Ha Hor. apply (gr_frame _ _ _ _ _ _ _ _ _ Hg).
    - eapply held_outside; [apply Hg| |exact Ha]. by apply (to_held _ _ _ _ Hok v' c' i).
    - destruct Hor as [Hne|?]; [|done]. intros ->.
      pose proof (to_apart _ _ _ _ Hok _ _ _ _ _ _ _ _ Hb Hk Hne) as Hap.
      by apply (apart_area sbi _ _ _ Hap Ha), link_in_area. }
  split.
  - intros v' c' Hid'. apply (gr_frame _ _ _ _ _ _ _ _ _ Hg).
    + intros b Hb. apply head_outside; [done|].
      pose proof (gr_super _ _ _ _ _ _ _ _ _ Hg) as Hs. rewrite Forall_forall in Hs. by apply Hs.
    + intros E. apply (head_outside v' c' cl Hid'); [by apply (to_held _ _ _ _ Hok v c k)|].
      rewrite E. apply link_in_area.
  - intros v' c' i b Hb [b' Hb']. apply (Hu v' c' i b); [done|apply link_in_area|].
    left. intros E. simplify_eq. apply lookup_lt_Some in Hb'.
    destruct (tbl v c); simpl in *; [lia|]. lia.
  - intros v' c' i b j Hb Hj. apply (Hu v' c' i b); [done|unfold sp_area; lia|].
    destruct (decide ((v', c', i) = (v, c, k))) as [E|?]; [right|by left]. simplify_eq.
    destruct Hb as [_ Hb], Hk as [_ Hk]. simplify_eq. rewrite sp_link_index. lia.
Qed.

Lemma extend_at tbl v c new v' c' i b :
  tbl_at sbi (extend_tbl v c new tbl) v' c' i b ->
  tbl_at sbi tbl v' c' i b
  \/ v' = v /\ c' = c /\ (length (tbl v c) <= i)%nat /\ new !! (i - length (tbl v c))%nat = Some b.
Proof.
  intros [Hid Hb]. unfold extend_tbl in Hb. case_decide as Hd; [|by left]. destruct Hd as [-> ->].
  apply lookup_app_Some in Hb as [Hb|[? Hb]]; [left|right]; by split_and?.
Qed.

Lemma grown_tables tbl v c new cl st m st' t :
  tables_ok sbi (fls st) m tbl -> table_id sbi v c -> last (tbl v c) = Some cl ->
  grown sbi (cur m (head_addr sbi v c)) (tbl v c) new cl st m st' t ->
  tables_ok sbi (fls st') (exec t m) (extend_tbl v c new tbl).
Proof.
  intros Hok Hid Hl Hg. pose proof (grown_keeps _ _ _ _ _ _ _ _ _ Hok Hid Hl Hg) as Hk.
  pose proof (gr_taken _ _ _ _ _ _ _ _ _ Hg) as Ht.
  pose proof (gr_super _ _ _ _ _ _ _ _ _ Hg) as Hs. rewrite Forall_lookup in Hs.
  assert (Hfree : forall k b, new !! k = Some b -> forall x, x ∈ run b SP_BLOCKS -> free_block (fls st) true x).
  { intros k b Hb x Hx. eapply taken_run; [exact Ht| |done]. by apply list_elem_of_lookup_2 in Hb. }
  split.
  - intros v' c' Hid'. rewrite (cur_untouched _ _ _ (ke_head _ _ Hk v' c' Hid')).
    unfold extend_tbl. case_decide as Hd.
    + destruct Hd as [-> ->]. split; [|apply Hg]. destruct (to_chain _ _ _ _ Hok v c Hid) as [? _].
      by destruct (tbl v c).
    + destruct (to_chain _ _ _ _ Hok v' c' Hid') as [Hne Hc]. split; [done|].
      eapply sp_chain_ext; [|exact Hc]. intros b Hb. apply cur_untouched.
      apply list_elem_of_lookup_1 in Hb as [i Hb].
      apply (gr_frame _ _ _ _ _ _ _ _ _ Hg).
      * eapply held_outside; [exact Ht| |apply link_in_area].
        by apply (to_held _ _ _ _ Hok v' c' i).
      * intros E%link_inj. subst cl. rewrite last_lookup in Hl.
        assert (Hap : apart b b).
        { eapply (to_apart _ _ _ _ Hok v' c' i b v c); [by split|by split|]. intros E. simplify_eq. auto. }
        unfold apart in Hap. lia.
  - intros v' c' i b [Hb|(-> & -> & Hi & Hb)]%extend_at.
    + eapply held_taken; [|exact Ht]. by apply (to_held _ _ _ _ Hok v' c' i).
    + split; [by eapply Hs|]. intros x Hx. rewrite (pa_free _ _ _ Ht). intros [_ Hn]. apply Hn.
      split; [done|]. apply list_elem_of_bind. exists b. split; [by apply elem_run_sp|].
      by apply list_elem_of_lookup_2 in Hb.
  - intros v1 c1 i1 b1 v2 c2 i2 b2 H1%extend_at H2%extend_at Hne.
    destruct H1 as [H1|(-> & -> & Hi1 & H1)], H2 as [H2|(-> & -> & Hi2 & H2)].
    + by eapply (to_apart _ _ _ _ Hok).
    + eapply held_apart; [by apply (to_held _ _ _ _ Hok v1 c1 i1)|]. by eapply Hfree.
    + enough (apart b2 b1) by (unfold apart in *; lia).
      eapply held_apart; [by apply (to_held _ _ _ _ Hok v2 c2 i2)|]. by eapply Hfree.
    + eapply bind_apart; [apply Ht|exact H1|exact H2|]. intros E. apply Hne. f_equal. lia.
Qed.

Context (Hslab : forall T, is_Some (nova_alloc_range_node T)) (Hthis : 0 <= this_cpu).

(** [table_slot] of a number, with extension: the list of its table grows by
    [new], to the superpage of the number unless the blocks run out. *)
Lemma table_slot_run ino v st m tbl :
  32 <= ino < INO_LIMIT -> v = 0 \/ v = 1 -> tables_ok sbi (fls st) m tbl -> mem_ok m ->
  table_ready sbi fuel (fls st) -> i_blk_type (sih st) = 2 ->
  let c := ino mod cpus sbi in
  exists r st' t new cl,
    table_slot sbi fuel this_cpu ino v true st m = (Some (r, st'), t)
    /\ sih st' = sih st /\ table_ready sbi fuel (fls st') /\ last (tbl v c) = Some cl
    /\ grown sbi (cur m (head_addr sbi v c)) (tbl v c) new cl st m st' t
    /\ (r = inl (- ENOSPC) /\ tbl v c !! Z.to_nat (ino / cpus sbi / 16384) = None
        \/ exists b, r = inr (b * 4096, bool_decide (new <> []))
             /\ (tbl v c ++ new) !! Z.to_nat (ino / cpus sbi / 16384) = Some b
             /\ (new = [] \/ tbl v c !! Z.to_nat (ino / cpus sbi / 16384) = None)).
Proof.
  intros Hi Hv Hok Hmo Hr Hbt c. assert (Hid : table_id sbi v c).
  { by destruct (table_bounds ino Hi) as (? & ? & _), Hv as [-> | ->]. }
  destruct (to_chain _ _ _ _ Hok v c Hid) as [Hne Hc].
  pose proof (tables_super _ _ _ _ _ Hok Hid) as Hs.
  pose proof (chain_head _ _ _ Hc Hne Hs) as Hnz.
  rewrite (table_slot_unfold _ _ _ _ _ _ Hi Hv eq_refl Hnz).
  set (n := Z.to_nat (ino / cpus sbi / 16384)). fold c in Hc |- *.
  destruct (last (tbl v c)) as [cl|] eqn:Hl; [|by apply last_None in Hl].
  destruct (tbl v c !! n) as [b|] eqn:Hb.
  { exists (inr (b * 4096, false)), st, [], [], cl.
    split_and!; [|done|done|done|by apply grown_nil|].
    - eapply walk_stays; [done| |done|done]. apply (chain_path _ _ _ _ []). by rewrite app_nil_r.
    - right. exists b. split_and!; [by rewrite bool_decide_false by auto|by rewrite app_nil_r|by left]. }
  destruct (tbl v c) as [|b0 rest] eqn:Et; [done|]. apply lookup_ge_None in Hb as Hn.
  destruct (walk_extends sbi G Hslab fuel this_cpu Hthis n (cur m (head_addr sbi v c)) b0 rest cl c v
              false st m) as (r & st' & t & new & E & Hsi & Hr' & Hg & Hres); try done.
  - rewrite <- Et. apply Forall_lookup. intros i b Hbi. by apply (to_held _ _ _ _ Hok v c i).
  - rewrite <- Et. apply NoDup_alt. intros i j b Hbi Hbj. destruct (decide (i = j)) as [|Hij]; [done|].
    assert (Hap : apart b b).
    { eapply (to_apart _ _ _ _ Hok v c i b v c j); [by split|by split|congruence]. }
    unfold apart in Hap. lia.
  - apply Hid.
  - exists r, st', t, new, cl. split_and!; [done|done|done|done|done|].
    destruct Hres as [[-> _]|(b & -> & Hlk & _)]; [by left|right].
    exists b. assert (new <> []).
    { intros ->. rewrite app_nil_r in Hlk. congruence. }
    split_and!; [by rewrite bool_decide_true|done|by right].
Qed.

Lemma last_extend tbl v c new v' c' :
  (v', c') <> (v, c) -> extend_tbl v c new tbl v' c' = tbl v' c'.
Proof. intros Hne. unfold extend_tbl. rewrite decide_False; [done|]. intros [-> ->]. done. Qed.

Lemma extend_same tbl v c new : extend_tbl v c new tbl v c = tbl v c ++ new.
Proof. unfold extend_tbl. by rewrite decide_True. Qed.

Lemma extend_prefix tbl v c new v' c' : exists l, extend_tbl v c new tbl v' c' = tbl v' c' ++ l.
Proof.
  unfold extend_tbl. case_decide as Hd; [destruct Hd as [-> ->]; by exists new|].
  exists []. by rewrite app_nil_r.
Qed.

Lemma keeps_app tbl tbl' t1 t2 :
  (forall v c, exists l, tbl' v c = tbl v c ++ l) -> keeps tbl t1 -> keeps tbl' t2 ->
  keeps tbl (t1 ++ t2).
Proof.
  intros Hp H1 H2. assert (Hat : forall v c i b, tbl_at sbi tbl v c i b -> tbl_at sbi tbl' v c i b).
  { intros v c i b [? Hb]. split; [done|]. destruct (Hp v c) as [l ->]. by apply lookup_app_l_Some. }
  split.
  - intros v c Hid. apply untouched_app. split; [by apply H1|by apply H2].
  - intros v c i b Hb Hn. apply untouched_app. split; [by eapply (ke_link _ _ H1)|].
    eapply (ke_link _ _ H2); [by apply Hat|].
    destruct (Hp v c) as [l ->]. destruct Hn as [b' Hb']. exists b'. by apply lookup_app_l_Some.
  - intros v c i b j Hb Hj. apply untouched_app. split; [by eapply (ke_word _ _ H1)|].
    eapply (ke_word _ _ H2); [by apply Hat|done].
Qed.

(** The word [i] of the inode at offset [a]. *)
Definition inode_word (a i : Z) : Z := meta_start_virt sbi + a + 8 * i.

Lemma slot_at tbl ino v a :
  32 <= ino < INO_LIMIT -> v = 0 \/ v = 1 -> slot_of (cpus sbi) tbl ino v = Some a ->
  exists b, tbl_at sbi tbl v (ino mod cpus sbi) (Z.to_nat (ino / cpus sbi / 16384)) b
    /\ a = b * 4096 + (ino / cpus sbi) mod 16384 * 128
    /\ forall i, 0 <= i < 15 -> exists j, inode_word a i = base sbi b + 8 * j /\ 0 <= j < 262143.
Proof.
  intros Hi Hv Hs. unfold slot_of in Hs. apply bind_Some in Hs as (b & Hb & [= <-]).
  exists b. split; [|split; [done|]].
  - split; [|done]. by destruct (table_bounds ino Hi) as (? & ? & _), Hv as [-> | ->].
  - intros i Hi'. pose proof (Z.mod_pos_bound (ino / cpus sbi) 16384 ltac:(lia)).
    exists ((ino / cpus sbi) mod 16384 * 16 + i). unfold inode_word, base. lia.
Qed.

Lemma slot_keeps tbl t ino v a i :
  keeps tbl t -> 32 <= ino < INO_LIMIT -> v = 0 \/ v = 1 ->
  slot_of (cpus sbi) tbl ino v = Some a -> 0 <= i < 15 -> untouched (inode_word a i) t.
Proof.
  intros Hk Hi Hv Hs Hi'. destruct (slot_at _ _ _ _ Hi Hv Hs) as (b & Hb & _ & Hw).
  destruct (Hw i Hi') as (j & -> & Hj). by eapply (ke_word _ _ Hk).
Qed.

Lemma slot_prefix tbl tbl' ino v a :
  (forall v c, exists l, tbl' v c = tbl v c ++ l) ->
  slot_of (cpus sbi) tbl ino v = Some a -> slot_of (cpus sbi) tbl' ino v = Some a.
Proof.
  intros Hp. unfold slot_of. intros (b & Hb & Ha)%bind_Some. apply bind_Some. exists b.
  split; [|done]. destruct (Hp v (ino mod cpus sbi)) as [l ->]. by apply lookup_app_l_Some.
Qed.

(** What an address request with extension does. *)
Record address_given (ino : Z) (tbl : Z -> Z -> list Z) (m : mem) (r : Z * option Z)
    (st' : lstate) (t : list pact) (tbl' : Z -> Z -> list Z) : Prop := {
  ag_ready : table_ready sbi fuel (fls st');
  ag_tables : tables_ok sbi (fls st') (exec t m) tbl';
  ag_prefix : forall v c, exists new, tbl' v c = tbl v c ++ new;
  ag_keeps : keeps tbl t;
  ag_result : r = (- ENOSPC, None) /\ slot_of (cpus sbi) tbl ino 0 = None
    \/ exists a, r = (0, Some a) /\ slot_of (cpus sbi) tbl' ino 0 = Some a
         /\ (slot_of (cpus sbi) tbl ino 0 = Some a /\ t = []
             \/ slot_of (cpus sbi) tbl ino 0 = None /\ forall i, 0 <= i < 15 ->
                  cur (exec t m) (inode_word a i) = 0 /\ settled (exec t m) (inode_word a i))
}.

(** The words of a new slot are zero. *)
Lemma new_slot_zero ino tbl v c new cl st m st' t a i :
  32 <= ino < INO_LIMIT -> v = 0 \/ v = 1 -> c = ino mod cpus sbi ->
  grown sbi (cur m (head_addr sbi v c)) (tbl v c) new cl st m st' t ->
  slot_of (cpus sbi) (extend_tbl v c new tbl) ino v = Some a ->
  tbl v c !! Z.to_nat (ino / cpus sbi / 16384) = None -> 0 <= i < 15 ->
  cur (exec t m) (inode_word a i) = 0 /\ settled (exec t m) (inode_word a i).
Proof.
  intros Hi Hv -> Hg Hs Hn Hi'. destruct (slot_at _ _ _ _ Hi Hv Hs) as (b & Hb & _ & Hw).
  destruct (Hw i Hi') as (j & -> & Hj). apply (gr_zero _ _ _ _ _ _ _ _ _ Hg); [|done].
  apply extend_at in Hb as [[_ Hb]|(_ & _ & _ & Hb)]; [congruence|].
  by apply list_elem_of_lookup_2 in Hb.
Qed.

(** The request without the extension of the replica: [e] is [extended]. *)
Lemma address_main ino st m tbl :
  32 <= ino < INO_LIMIT -> tables_ok sbi (fls st) m tbl -> mem_ok m ->
  table_ready sbi fuel (fls st) -> i_blk_type (sih st) = 2 ->
  exists r st' t tbl',
    table_slot sbi fuel this_cpu ino 0 true st m = (Some (r, st'), t) /\ sih st' = sih st
    /\ ((r = inl (- ENOSPC) /\ address_given ino tbl m (- ENOSPC, None) st' t tbl')
        \/ exists b e, r = inr (b * 4096, e) /\ superpage b
             /\ (e = true -> slot_of (cpus sbi) tbl ino 0 = None)
             /\ address_given ino tbl m
                  (0, Some (b * 4096 + (ino / cpus sbi) mod 16384 * 128)) st' t tbl').
Proof.
  intros Hi Hok Hmo Hr Hbt.
  destruct (table_slot_run ino 0 st m tbl Hi (or_introl eq_refl) Hok Hmo Hr Hbt)
    as (r & st' & t & new & cl & E & Hs & Hr' & Hl & Hg & Hres).
  destruct (table_bounds ino Hi) as (Hid & _). set (c := ino mod cpus sbi) in *.
  pose proof (grown_tables _ _ _ _ _ _ _ _ _ Hok Hid Hl Hg) as Hok'.
  pose proof (grown_keeps _ _ _ _ _ _ _ _ _ Hok Hid Hl Hg) as Hk.
  exists r, st', t, (extend_tbl 0 c new tbl). split; [done|]. split; [done|].
  assert (Hnone : tbl 0 c !! Z.to_nat (ino / cpus sbi / 16384) = None ->
    slot_of (cpus sbi) tbl ino 0 = None).
  { intros Hn. unfold slot_of. fold c. by rewrite Hn. }
  destruct Hres as [[-> Hn]|(b & -> & Hb & Hor)]; [left|right].
  { split; [done|]. split; [done|done|apply extend_prefix|done|]. left. auto. }
  assert (Hsl : slot_of (cpus sbi) (extend_tbl 0 c new tbl) ino 0
    = Some (b * 4096 + (ino / cpus sbi) mod 16384 * 128)).
  { unfold slot_of. fold c. by rewrite extend_same, Hb. }
  exists b, (bool_decide (new <> [])). split; [done|]. split; [|split].
  - assert (Hat : tbl_at sbi (extend_tbl 0 c new tbl) 0 c (Z.to_nat (ino / cpus sbi / 16384)) b).
    { split; [done|]. by rewrite extend_same. }
    by apply (to_held _ _ _ _ Hok' _ _ _ _ Hat).
  - intros Hf%bool_decide_eq_true. destruct Hor as [?|Hn]; [done|]. auto.
  - split; [done|done|apply extend_prefix|done|].
    right. eexists. split; [done|]. split; [done|]. destruct Hor as [->|Hn]; [left|right].
    + rewrite app_nil_r in Hb. split; [|by apply (gr_none _ _ _ _ _ _ _ _ _ Hg)].
      unfold slot_of. fold c. by rewrite Hb.
    + split; [auto|]. intros i Hi'.
      exact (new_slot_zero ino tbl 0 c new cl st m st' t _ i Hi (or_introl eq_refl) eq_refl Hg Hsl Hn Hi').
Qed.

(** Extending the replica behind it. *)
Lemma address_replica ino a m st1 t1 tbl tbl1 st2 t2 tbl2 :
  32 <= ino < INO_LIMIT -> address_given ino tbl m (0, Some a) st1 t1 tbl1 ->
  t2 = [] \/ slot_of (cpus sbi) tbl ino 0 = None ->
  table_ready sbi fuel (fls st2) -> tables_ok sbi (fls st2) (exec t2 (exec t1 m)) tbl2 ->
  (forall v c, exists new, tbl2 v c = tbl1 v c ++ new) -> keeps tbl1 t2 ->
  address_given ino tbl m (0, Some a) st2 (t1 ++ t2) tbl2.
Proof.
  intros Hi Hg Hor Hr Hok Hp Hk. pose proof (ag_prefix _ _ _ _ _ _ _ Hg) as Hp1.
  destruct (ag_result _ _ _ _ _ _ _ Hg) as [[E _]|(a' & E & Ha & Hres)]; [discriminate E|].
  injection E as <-. split.
  - done.
  - by rewrite exec_app.
  - intros v c. destruct (Hp v c) as [l2 ->], (Hp1 v c) as [l1 ->]. rewrite <- app_assoc. eauto.
  - eapply keeps_app; [exact Hp1|apply Hg|done].
  - right. exists a. split; [done|]. split; [by eapply slot_prefix|].
    destruct Hres as [[Hs ->]|[Hn Hz]].
    + left. destruct Hor as [->|?]; [by split|congruence].
    + right. split; [done|]. intros i Hi'. rewrite exec_app.
      pose proof (slot_keeps tbl1 t2 ino 0 a i Hk Hi (or_introl eq_refl) Ha Hi') as Hu.
      rewrite cur_untouched by done. destruct (Hz i Hi') as [? ?].
      split; [done|by apply settled_untouched].
Qed.

Lemma address_run ino alt st m tbl :
  32 <= ino < INO_LIMIT -> tables_ok sbi (fls st) m tbl -> mem_ok m ->
  table_ready sbi fuel (fls st) -> i_blk_type (sih st) = 2 ->
  exists r st' t tbl',
    nova_get_inode_address sbi fuel this_cpu ino 0 true alt st m = (Some (r, st'), t)
    /\ sih st' = sih st /\ address_given ino tbl m r st' t tbl'.
Proof.
  intros Hi Hok Hmo Hr Hbt. unfold nova_get_inode_address.
  rewrite (proj2 (Z.ltb_ge ino _)) by (unfold NOVA_NORMAL_INODE_START; lia).
  destruct (address_main ino st m tbl Hi Hok Hmo Hr Hbt)
    as (r & st1 & t1 & tbl1 & E & Hs & [[-> Hg]|(b & e & -> & Hb & He & Hg)]).
  { exists (- ENOSPC, None), st1, (t1 ++ []), tbl1. rewrite app_nil_r. split; [|by split].
    rewrite <- (app_nil_r t1). eapply lbind_run; [exact E|reflexivity]. }
  set (a := b * 4096 + (ino / cpus sbi) mod 16384 * 128) in *.
  assert (Hex : exists st2 t2 tbl2,
    ((if e && alt && metadata_csum then table_slot sbi fuel this_cpu ino (0 + 1) true;; mret ()
     else mret ()) : LM ()) st1 (exec t1 m) = (Some ((), st2), t2) /\ sih st2 = sih st1
    /\ address_given ino tbl m (0, Some a) st2 (t1 ++ t2) tbl2).
  { destruct (e && alt && metadata_csum) eqn:Ee.
    - pose proof (mem_ok_exec t1 m Hmo) as Hmo1.
      assert (Hbt1 : i_blk_type (sih st1) = 2) by congruence.
      destruct (table_slot_run ino 1 st1 (exec t1 m) tbl1 Hi (or_intror eq_refl)
                  (ag_tables _ _ _ _ _ _ _ Hg) Hmo1 (ag_ready _ _ _ _ _ _ _ Hg) Hbt1)
        as (r2 & st2 & t2 & new & cl & E2 & Hs2 & Hr2 & Hl & Hgr & _).
      destruct (table_bounds ino Hi) as (_ & Hid & _).
      exists st2, (t2 ++ []), (extend_tbl 1 (ino mod cpus sbi) new tbl1). rewrite app_nil_r.
      split; [|split; [done|]].
      + rewrite <- (app_nil_r t2). eapply lbind_run; [exact E2|reflexivity].
      + apply (address_replica ino a m st1 t1 tbl tbl1); [done|done| |done| | |].
        * right. apply He. by destruct e.
        * eapply grown_tables; [apply Hg|exact Hid|exact Hl|exact Hgr].
        * apply extend_prefix.
        * eapply grown_keeps; [apply Hg|exact Hid|exact Hl|exact Hgr].
    - exists st1, [], tbl1. rewrite app_nil_r. by split. }
  destruct Hex as (st2 & t2 & tbl2 & E2 & Hs2 & Hg2).
  exists (0, Some a), st2, (t1 ++ t2), tbl2. split; [|split; [congruence|done]].
  eapply lbind_run; [exact E|]. cbv beta iota. rewrite <- (app_nil_r t2).
  eapply lbind_run; [exact E2|]. cbv beta iota zeta. rewrite slot_index by done. reflexivity.
Qed.

(** What a crash inside a trace that [keeps] the tables leaves. *)
Lemma keeps_take tbl t k : keeps tbl t -> keeps tbl (take k t).
Proof.
  intros Hk. split; intros; apply untouched_take.
  - by apply (ke_head _ _ Hk).
  - by eapply (ke_link _ _ Hk).
  - by eapply (ke_word _ _ Hk).
Qed.

Definition tables_settled (m : mem) (tbl : Z -> Z -> list Z) : Prop :=
  forall v c, table_id sbi v c ->
    settled m (head_addr sbi v c) /\ forall b, b ∈ tbl v c -> settled m (sp_link sbi b).

Lemma crash_path ls m tbl t s v c :
  tables_ok sbi ls m tbl -> tables_settled m tbl -> keeps tbl t -> crashed (exec t m) s ->
  table_id sbi v c ->
  let m' := reboot (exec t m) s in
  sp_path sbi (cur m') (cur m' (head_addr sbi v c)) (tbl v c).
Proof.
  intros Hok Hst Hk Hcr Hid m'. destruct (to_chain _ _ _ _ Hok v c Hid) as [Hne Hc].
  destruct (Hst v c Hid) as [Hsh Hsl].
  assert (Hcur : forall a, untouched a t -> settled m a -> cur m' a = cur m a).
  { intros a Hu Ha. unfold m'. rewrite cur_reboot by done.
    rewrite (crashed_settled (exec t m) s a Hcr) by by apply settled_untouched. by apply cur_untouched. }
  rewrite (Hcur _ (ke_head _ _ Hk v c Hid) Hsh).
  destruct (last (tbl v c)) as [cl|] eqn:Hl; [|by apply last_None in Hl].
  apply (sp_path_ext sbi (cur m) _ _ _ cl); [done| | |].
  - intros b Hb Hbc. apply Hcur; [|by apply Hsl].
    apply list_elem_of_lookup_1 in Hb as [i Hb]. apply (ke_link _ _ Hk v c i); [by split|].
    destruct (lookup_lt_is_Some_2 (tbl v c) (S i)) as [? ?]; [|done].
    apply lookup_lt_Some in Hb as Hlt. rewrite last_lookup in Hl.
    destruct (decide (S i = length (tbl v c))) as [E|]; [|lia].
    rewrite <- E in Hl. simpl in Hl. congruence.
  - apply NoDup_alt. intros i j b Hi Hj. destruct (decide (i = j)) as [|Hij]; [done|].
    assert (Hap : apart b b).
    { eapply (to_apart _ _ _ _ Hok v c i b v c j); [by split|by split|congruence]. }
    unfold apart in Hap. lia.
  - apply (chain_path _ _ _ _ []). by rewrite app_nil_r.
Qed.
End lemmas.

Section theorems.
Context {RB : RbOps} {KM : KmemOps} {CR : CrcOps} {MP : ModParams}.
Context {RBL : RbLaws} {KML : KmemLaws}.

(** C33. Where inodes are: for well-formed tables, [nova_get_inode_address]
    of a number that is not reserved, in either version, answers the slot
    [slot_of] computes when the table has it, reading only; and -EINVAL when
    it has not and may not be extended.  A slot lies within one superpage of
    its table, its 120 bytes end before the pointer to the next superpage, and
    the slots of two numbers, or of a number and its replica, are disjoint. *)
Theorem inode_slots_bounded sbi fuel this_cpu ls m tbl :
  log_geometry sbi -> 0 < cpus sbi <= 1024 -> tables_ok sbi ls m tbl ->
  forall ino v, 32 <= ino < INO_LIMIT -> v = 0 \/ v = 1 ->
  match slot_of (cpus sbi) tbl ino v with
  | None => forall alt st,
      nova_get_inode_address sbi fuel this_cpu ino v false alt st m
      = (Some ((- EINVAL, None), st), [])
  | Some a =>
      (forall ext alt st, nova_get_inode_address sbi fuel this_cpu ino v ext alt st m
         = (Some ((0, Some a), st), []))
      /\ (exists i b, tbl_at sbi tbl v (ino mod cpus sbi) i b
            /\ b * 4096 <= a /\ a + 120 <= b * 4096 + 0x200000 - 8 /\ a mod 128 = 0)
      /\ forall ino' v' a', 32 <= ino' < INO_LIMIT -> v' = 0 \/ v' = 1 ->
           slot_of (cpus sbi) tbl ino' v' = Some a' -> (ino, v) <> (ino', v') ->
           a + 128 <= a' \/ a' + 128 <= a
  end.
Proof.
  intros G Hc Hok ino v Hi Hv.
  assert (Hid : table_id sbi v (ino mod cpus sbi)).
  { by destruct (table_bounds sbi Hc ino Hi) as (? & ? & _), Hv as [-> | ->]. }
  destruct (to_chain _ _ _ _ Hok _ _ Hid) as [Hne Hch].
  pose proof (tables_super sbi _ _ _ _ _ Hok Hid) as Hs.
  destruct (slot_of (cpus sbi) tbl ino v) as [a|] eqn:Ha.
  - destruct (slot_at sbi Hc _ _ _ _ Hi Hv Ha) as (b & Hb & -> & _).
    pose proof (Z.mod_pos_bound (ino / cpus sbi) 16384 ltac:(lia)) as Hm.
    split; [|split].
    + intros ext alt st. apply (address_found sbi G Hc) with (sps := tbl v (ino mod cpus sbi)); try done.
      * apply (chain_path _ _ _ _ []). by rewrite app_nil_r.
      * apply Hb.
    + exists (Z.to_nat (ino / cpus sbi / 16384)), b. split; [done|]. split; [lia|]. split; [lia|].
      replace (b * 4096 + (ino / cpus sbi) mod 16384 * 128)
        with ((b * 32 + (ino / cpus sbi) mod 16384) * 128) by lia. by rewrite Z.mod_mul.
    + intros ino' v' a' Hi' Hv' Ha' Hne'.
      destruct (slot_at sbi Hc _ _ _ _ Hi' Hv' Ha') as (b' & Hb' & -> & _).
      pose proof (Z.mod_pos_bound (ino' / cpus sbi) 16384 ltac:(lia)) as Hm'.
      set (k := Z.to_nat (ino / cpus sbi / 16384)) in *.
      set (k' := Z.to_nat (ino' / cpus sbi / 16384)) in *.
      destruct (decide ((v, ino mod cpus sbi, k) = (v', ino' mod cpus sbi, k'))) as [E|Hd].
      * injection E as Ev Em Ek. subst v'. rewrite <- Em, <- Ek in Hb'. destruct Hb as [_ Hb], Hb' as [_ Hb'].
        rewrite Hb in Hb'. injection Hb' as <-.
        assert ((ino / cpus sbi) mod 16384 <> (ino' / cpus sbi) mod 16384); [|lia].
        intros E. apply Hne'. f_equal.
        pose proof (Z.div_mod ino (cpus sbi) ltac:(lia)). pose proof (Z.div_mod ino' (cpus sbi) ltac:(lia)).
        pose proof (Z.div_mod (ino / cpus sbi) 16384 ltac:(lia)).
        pose proof (Z.div_mod (ino' / cpus sbi) 16384 ltac:(lia)).
        pose proof (Z.div_pos ino (cpus sbi) ltac:(lia) ltac:(lia)).
        pose proof (Z.div_pos ino' (cpus sbi) ltac:(lia) ltac:(lia)).
        assert (ino / cpus sbi / 16384 = ino' / cpus sbi / 16384).
        { apply Z2Nat.inj; [by apply Z.div_pos|by apply Z.div_pos|done]. }
        nia.
      * pose proof (to_apart _ _ _ _ Hok _ _ _ _ _ _ _ _ Hb Hb' Hd) as Hap.
        unfold apart in Hap. lia.
  - intros alt st. apply (address_refused sbi G Hc) with (sps := tbl v (ino mod cpus sbi)); try done.
    unfold slot_of in Ha. by destruct (tbl v (ino mod cpus sbi) !! _).
Qed.

(** C34. Growing a table: [nova_get_inode_address] of a number whose slot is
    missing, with extension (of the replica table too when asked), always
    returns; it appends superpages of free blocks to the tables and leaves
    them well formed; it answers the slot, whose words are zero and durable
    when the slot is new, or -ENOSPC.  At whatever point it is interrupted,
    every inode that had a slot is found at its address after the reboot, with
    its contents. *)
Theorem inode_table_grows sbi fuel this_cpu ino alt st m tbl :
  log_geometry sbi -> 0 < cpus sbi <= 1024 -> (forall T, is_Some (nova_alloc_range_node T)) ->
  0 <= this_cpu -> 32 <= ino < INO_LIMIT -> tables_ok sbi (fls st) m tbl -> mem_ok m ->
  table_ready sbi fuel (fls st) -> i_blk_type (sih st) = 2 ->
  exists r st' t tbl',
    nova_get_inode_address sbi fuel this_cpu ino 0 true alt st m = (Some (r, st'), t)
    /\ address_given sbi fuel ino tbl m r st' t tbl'
    /\ (tables_settled sbi m tbl ->
        forall k s ino' v a, crashed (exec (take k t) m) s ->
        32 <= ino' < INO_LIMIT -> v = 0 \/ v = 1 -> slot_of (cpus sbi) tbl ino' v = Some a ->
        (forall ext alt st0,
           nova_get_inode_address sbi fuel this_cpu ino' v ext alt st0 (reboot (exec (take k t) m) s)
           = (Some ((0, Some a), st0), []))
        /\ forall i, 0 <= i < 15 -> s (inode_word sbi a i) ∈ chist m (inode_word sbi a i)).
Proof.
  intros G Hc Hslab Hthis Hi Hok Hmo Hr Hbt.
  destruct (address_run sbi G Hc fuel this_cpu Hslab Hthis ino alt st m tbl Hi Hok Hmo Hr Hbt)
    as (r & st' & t & tbl' & E & _ & Hg).
  exists r, st', t, tbl'. split; [done|]. split; [done|].
  intros Hset k s ino' v a Hcr Hi' Hv Ha.
  pose proof (keeps_take sbi _ _ k (ag_keeps _ _ _ _ _ _ _ _ _ Hg)) as Hk. split.
  - intros ext alt' st0.
    destruct (slot_at sbi Hc _ _ _ _ Hi' Hv Ha) as (b & [Hid Hb] & -> & _).
    apply (address_found sbi G Hc) with (sps := tbl v (ino' mod cpus sbi)); try done.
    + by eapply crash_path.
    + by eapply tables_super.
  - intros i Hi2. pose proof (slot_keeps sbi Hc tbl _ ino' v a i Hk Hi' Hv Ha Hi2) as Hu.
    destruct (chist_untouched _ _ m Hu) as [n Hn]. pose proof (Hcr (inode_word sbi a i)) as Hin.
    fold (chist (exec (take k t) m) (inode_word sbi a i)) in Hin. rewrite Hn in Hin.
    rewrite <- (take_drop n (chist m (inode_word sbi a i))). apply elem_of_app. by left.
Qed.

(** C35. A new inode: [nova_new_nova_inode] takes the smallest unused number of
    the next CPU in turn and finds it a slot.  It returns a number that was not
    in use and is now (alone), with the address of its slot, which no other
    number has; or 0, when the numbers of the CPU are all in use, or when the
    tables cannot grow: then the number stays marked in use. *)
Theorem new_inode_number_and_slot sbi fuel this_cpu ns st m tbl :
  log_geometry sbi -> cpus sbi <= 1024 -> (forall T, is_Some (nova_alloc_range_node T)) ->
  0 <= this_cpu -> tables_ok sbi (fls st) m tbl -> mem_ok m ->
  table_ready sbi fuel (fls st) -> i_blk_type (sih st) = 2 ->
  maps_wf sbi ns -> 0 <= map_id ns < cpus sbi -> (forall x, 0 <= x < 32 -> in_use sbi ns x) ->
  exists ino pi_addr ns' st' t tbl',
    nova_new_nova_inode sbi fuel this_cpu ns st m = (Some ((ino, pi_addr, ns'), st'), t)
    /\ maps_wf sbi ns' /\ map_id ns' = (map_id ns + 1) mod cpus sbi
    /\ table_ready sbi fuel (fls st') /\ tables_ok sbi (fls st') (exec t m) tbl'
    /\ ((ino = 0 /\ t = [] /\ (forall y, in_use sbi ns' y <-> in_use sbi ns y)
          /\ forall y, y mod cpus sbi = map_id ns -> 0 <= y < (MAX_INODE - 1) * cpus sbi ->
               in_use sbi ns y)
        \/ exists x, 32 <= x /\ x mod cpus sbi = map_id ns /\ ~ in_use sbi ns x
            /\ (forall y, in_use sbi ns' y <-> in_use sbi ns y \/ y = x)
            /\ address_given sbi fuel x tbl m (if ino =? 0 then - ENOSPC else 0, pi_addr) st' t tbl'
            /\ (ino = 0 \/ ino = x)).
Proof.
  intros G Hc Hslab Hthis Hok Hmo Hr Hbt Hw Hid Hres.
  pose proof (ms_cpus _ _ Hw) as Hcp. unfold nova_new_nova_inode. rewrite (proj2 (Z.eqb_neq _ _)) by lia.
  set (ns0 := InoState (s_inodes_used_count ns) ((map_id ns + 1) mod cpus sbi) (inode_maps ns)).
  assert (Hw0 : maps_wf sbi ns0) by (destruct Hw; by split).
  destruct (map_at_some sbi ns0 (map_id ns) Hw0 Hid) as (im & Hat & Him).
  destruct (alloc_run sbi ns0 (map_id ns) im Hat Him Hid ltac:(lia))
    as [(im' & n & E & Hw' & Hn & Hnu & Hu & _)|[E Hfull]].
  - rewrite E. set (x := n * cpus sbi + map_id ns).
    assert (Hnew : ~ in_use sbi ns x) by (by intros Hx%(in_use_at sbi ns0 (map_id ns) im n Hat Hid)).
    assert (Hx32 : 32 <= x).
    { destruct (Z.le_gt_cases 32 x); [done|]. exfalso. apply Hnew, Hres. nia. }
    assert (Hmax : n < MAX_INODE - 1).
    { eapply (used_range im' n Hw'), Hu. by right. }
    assert (Hxl : 32 <= x < INO_LIMIT) by (unfold INO_LIMIT, MAX_INODE in *; nia).
    assert (Hcim : map_wf (count_allocated im')) by (by apply counted_wf).
    pose proof (store_maps_wf sbi ns0 (map_id ns) _ Hw0 Hid Hcim) as Hws.
    assert (Hiu : forall y, in_use sbi (add_used 1 (store_map (map_id ns) (count_allocated im') ns0)) y
                    <-> in_use sbi ns y \/ y = x).
    { intros y.
      assert (HP : forall k, used (count_allocated im') k <-> in_use sbi ns (k * cpus sbi + map_id ns)
                     \/ k * cpus sbi + map_id ns = x).
      { intros k. change (in_use sbi ns) with (in_use sbi ns0).
        rewrite (in_use_at sbi ns0 (map_id ns) im k Hat Hid).
        change (used (count_allocated im') k) with (used im' k). rewrite Hu.
        assert (k = n <-> k * cpus sbi + map_id ns = x) by (unfold x; nia). tauto. }
      pose proof (in_use_store sbi ns0 (map_id ns) im (count_allocated im')
                    (fun y => in_use sbi ns y \/ y = x) Hw0 Hat HP y) as Hst.
      etransitivity; [exact Hst|]. clear Hst. case_decide as Hd; [done|]. change (in_use sbi ns0 y) with (in_use sbi ns y).
      split; [by left|]. intros [?| ->]; [done|]. exfalso. apply Hd. unfold x.
      by rewrite Z.add_comm, Z.mod_add, Z.mod_small by lia. }
    assert (Hmod : x mod cpus sbi = map_id ns).
    { unfold x. by rewrite Z.add_comm, Z.mod_add, Z.mod_small by lia. }
    destruct (address_run sbi G ltac:(lia) fuel this_cpu Hslab Hthis x true st m tbl Hxl Hok Hmo Hr Hbt)
      as (r & st' & t & tbl' & Er & _ & Hg).
    assert (Hgo : forall ino pi, (if negb (r.1 =? 0) then 0 else x) = ino -> r.2 = pi ->
      ('(ret, pi_addr) ← nova_get_inode_address sbi fuel this_cpu x 0 true true;
       (if negb (ret =? 0) then mret (0, pi_addr, add_used 1 (store_map (map_id ns) (count_allocated im') ns0))
        else mret (x, pi_addr, add_used 1 (store_map (map_id ns) (count_allocated im') ns0))) : LM _)
        st m = (Some ((ino, pi, add_used 1 (store_map (map_id ns) (count_allocated im') ns0)), st'), t)).
    { intros ino pi <- <-. rewrite <- (app_nil_r t). eapply lbind_run; [exact Er|].
      destruct r as [ret pi]. cbv beta iota. simpl fst. simpl snd. by destruct (negb (ret =? 0)). }
    eexists _, _, _, st', t, tbl'. split; [by apply Hgo|].
    split; [by apply add_maps_wf|]. split; [done|]. split; [apply Hg|]. split; [apply Hg|].
    right. exists x. split; [done|]. split; [done|]. split; [done|]. split; [exact Hiu|].
    destruct (ag_result _ _ _ _ _ _ _ _ _ Hg) as [[-> _]|(a & -> & _)]; simpl.
    + split; [done|by left].
    + rewrite (proj2 (Z.eqb_neq x 0)) by lia. split; [done|by right].
  - rewrite E. exists 0, None, ns0, st, [], tbl. split; [done|]. split; [done|]. split; [done|].
    split; [done|]. split; [done|]. left. split; [done|]. split; [done|]. split; [done|].
    intros y Hy Hyr. pose proof (Z.div_mod y (cpus sbi) ltac:(lia)) as Hd.
    replace y with (y / cpus sbi * cpus sbi + map_id ns) by lia.
    apply (in_use_at sbi ns0 (map_id ns) im _ Hat Hid), Hfull.
    split; [apply Z.div_pos; lia|]. apply Z.div_lt_upper_bound; lia.
Qed.
End theorems.

(** ** The zeroing is not fenced before the link *)

(** Without a fence no older value is given up. *)
Lemma unfenced_chist t m a x :
  Forall (fun p => p <> Fence) t -> x ∈ chist m a -> x ∈ chist (exec t m) a.
Proof.
  revert m. induction t as [|p t IH]; intros m Hf Hx; [done|].
  apply Forall_cons in Hf as [Hp Hf]. apply (IH (exec1 p m) Hf). unfold chist in *.
  rewrite cell_at_exec1. destruct p as [b v|b v|b|]; simpl; [..|done]; case_decide; try done;
    simpl; set_solver.
Qed.

(** A crash right after the store of the link may find the link on the media
    and the superpage as it was before it was zeroed. *)
Lemma superpage_linked_before_zero sbi c b m :
  mem_ok m ->
  let t := zero_acts sbi b ++ sp_link_acts sbi c b in
  exists k s, crashed (exec (take k t) m) s /\ s (sp_link sbi c) = b * 4096
    /\ forall a, a <> sp_link sbi c -> s a = cur m a.
Proof.
  intros Hok t. exists (length (zero_acts sbi b) + 1)%nat.
  exists (fun a => if decide (a = sp_link sbi c) then b * 4096 else cur m a).
  assert (Et : take (length (zero_acts sbi b) + 1) t
    = zero_acts sbi b ++ [Store (sp_link sbi c) (b * 4096)]).
  { unfold t. by rewrite take_app_add. }
  assert (Hz : Forall (fun p => p <> Fence) (zero_acts sbi b)).
  { unfold zero_acts. generalize (base sbi b) (replicate SP_WORDS 0). intros a ws. revert a.
    induction ws as [|w ws IH]; intros a; simpl; constructor; [done|apply IH]. }
  split; [|split; [by rewrite decide_True|intros a Ha; by rewrite decide_False]].
  intros a. rewrite Et. fold (chist (exec (zero_acts sbi b ++ [Store (sp_link sbi c) (b * 4096)]) m) a).
  case_decide as Hd.
  - subst a. rewrite exec_app. unfold chist. simpl. rewrite cell_at_insert, decide_True by done.
    simpl. by left.
  - apply unfenced_chist.
    + apply Forall_app. split; [done|]. by repeat constructor.
    + rewrite cur_chist. pose proof (Hok a) as Ha. destruct (chist m a); [done|]. by left.
Qed.

(** ** A device with small tables

    Two CPUs; the four tables (with replicas) have one superpage each, in the
    first 2112 metadata blocks, which the lists do not hold. *)
Module TableDemo.
#[export] Existing Instances Concrete.rb_ops Concrete.rb_laws Concrete.kmem_ops
  Concrete.kmem_laws Concrete.crc_ops Concrete.crc_laws.
#[export] Instance params : ModParams := {|
  metadata_csum := true; data_csum := false; data_parity := false;
  dram_struct_csum := false; support_clwb := true
|}.

Definition sbi0 : nova_sb_info :=
  set_meta_start_virt 0x100000000 (set_data_start_virt 0x200000000
    (set_data_num_blocks 4096 (set_meta_num_blocks 8192
      (set_initsize (12288 * 4096) (set_blocksize_bits 12
        (set_head_reserved_blocks 2112 (set_tail_reserved_blocks 2
          (set_cpus 2 (set_meta_nvm_num 1 (set_data_nvm_num 1
            (set_data_head_nvm_idx 1 zero_sb_info))))))))))).
Definition sbi : nova_sb_info := with_shares sbi0.
Definition lists : list free_list :=
  match nova_init_blockmap sbi0 (nova_alloc_block_free_lists sbi0) false with
  | Some (_, ls) => ls
  | None => []
  end.
Definition fuel : nat := 16384.
Definition tbl (v c : Z) : list Z := [64 + 512 * (2 * v + c)].
Definition head_words : list (Z * Z) :=
  (fun '(v, c) => (0x100000000 + (16 + 16 * v) * 4096 + c * 64, (64 + 512 * (2 * v + c)) * 4096))
    <$> [(0, 0); (0, 1); (1, 0); (1, 1)].
Definition m0 : mem := list_to_map ((fun '(a, x) => (a, Cell [x] None)) <$> head_words).
Abbreviation st0 := (LState lists table_sih).

Lemma table_slab : forall T, is_Some (nova_alloc_range_node T).
Proof. intros T. by eexists. Qed.
Lemma table_geometry : log_geometry sbi.
Proof. split; vm_compute; repeat split; discriminate. Qed.

Lemma table_lists_ok :
  lists_wf sbi lists /\ forall k fl, lists !! k = Some fl -> list_ready sbi (Z.of_nat k) fl.
Proof.
  assert (Gd : geometry sbi0) by (split; vm_compute; split_and?; done).
  destruct (init_blockmap_ok sbi0 table_slab Gd) as (ls & E & Hw & Hr). unfold lists. by rewrite E.
Qed.

(** Conversion unfolds [lists] last. *)
#[global] Strategy 1000 [lists].

Lemma table_reserved_used b : b < 2112 -> ~ free_block lists true b.
Proof.
  intros Hb (i & fl & Hi & Hf). destruct table_lists_ok as [_ Hr]. specialize (Hr _ _ Hi).
  apply (rd_free _ _ _ Hr true) in Hf. simpl in Hf.
  rewrite (rd_meta_start _ _ _ Hr), (rd_csum _ _ _ Hr) in Hf.
  assert (2112 <= per_meta_list_blocks sbi * Z.of_nat i + meta_head sbi (Z.of_nat i) + csum_share sbi).
  { destruct i as [|[|i]]; [by apply Z.leb_le; vm_compute..|]. apply lookup_lt_Some in Hi.
    assert (length lists = 2%nat) by (by vm_compute). lia. }
  lia.
Qed.

Lemma table_demo_ready : table_ready sbi fuel lists.
Proof.
  split; [split; [apply table_lists_ok| |apply table_reserved_used; lia]|].
  - intros []; by apply Z.leb_le; vm_compute.
  - intros x Hx. destruct (Z.le_gt_cases 64 x); [done|]. destruct (table_reserved_used x); [lia|done].
Qed.

Lemma cpus_two v c : table_id sbi v c -> (v = 0 \/ v = 1) /\ (c = 0 \/ c = 1).
Proof. intros [? ?]. assert (cpus sbi = 2) by done. lia. Qed.

Lemma tables_ok0 : tables_ok sbi lists m0 tbl.
Proof.
  assert (Hat : forall v c i b, tbl_at sbi tbl v c i b ->
    (v = 0 \/ v = 1) /\ (c = 0 \/ c = 1) /\ i = 0%nat /\ b = 64 + 512 * (2 * v + c)).
  { intros v c i b [Hid%cpus_two Hb]. destruct i; [|done]. injection Hb as <-. tauto. }
  split.
  - intros v c [[-> | ->] [-> | ->]]%cpus_two; (split; [done|split; vm_compute; reflexivity]).
  - intros v c i b (Hv & Hc & _ & ->)%Hat. split; [split; lia|].
    intros x Hx. apply table_reserved_used. lia.
  - intros v c i b v' c' i' b' (Hv & Hc & -> & ->)%Hat (Hv' & Hc' & -> & ->)%Hat Hne.
    unfold apart. destruct (decide (v = v' /\ c = c')) as [[-> ->]|]; [done|]. lia.
Qed.

Lemma mem_ok0 : mem_ok m0.
Proof.
  intros a. unfold chist, cell_at. destruct (m0 !! a) as [c|] eqn:E; [|done].
  apply elem_of_list_to_map_2 in E. apply list_elem_of_fmap in E as ([? ?] & [= -> ->] & _). done.
Qed.

(** The numbers after mkfs. *)
Definition blank : ino_state := InoState 0 0 (init_inode_maps sbi).
Definition booted : ino_state :=
  match nova_init_inode_inuse_list sbi blank with Some (_, st) => st | None => blank end.
Lemma table_booted_ready : maps_wf sbi booted
  /\ forall y, in_use sbi booted y <-> 0 <= y < (init_range_high sbi + 1) * cpus sbi.
Proof.
  destruct (init_op sbi blank table_slab) as (st' & E & Hw & _ & Hu & _); [done|done|].
  unfold booted. rewrite E. by split.
Qed.
End TableDemo.

Section witnesses.
Import TableDemo.

Lemma inode_slots_bounded_witness :
  nova_get_inode_address sbi fuel 0 100 0 false false st0 m0
    = (Some ((0, Some (64 * 4096 + 50 * 128)), st0), [])
  /\ nova_get_inode_address sbi fuel 0 40000 0 false false st0 m0 = (Some ((- EINVAL, None), st0), []).
Proof.
  pose proof (inode_slots_bounded sbi fuel 0 lists m0 tbl table_geometry ltac:(split; [done|by apply Z.leb_le])
    tables_ok0) as H. split.
  - exact (proj1 (H 100 0 ltac:(by vm_compute) (or_introl eq_refl)) false false st0).
  - exact (H 40000 0 ltac:(by vm_compute) (or_introl eq_refl) false st0).
Defined.

Lemma inode_table_grows_witness :
  exists r st' t tbl',
    nova_get_inode_address sbi fuel 0 40000 0 true true st0 m0 = (Some (r, st'), t)
    /\ tables_ok sbi (fls st') (exec t m0) tbl'.
Proof.
  destruct (inode_table_grows sbi fuel 0 40000 true st0 m0 tbl table_geometry
    ltac:(split; [done|by apply Z.leb_le]) table_slab ltac:(lia) ltac:(by vm_compute) tables_ok0 mem_ok0
    table_demo_ready eq_refl) as (r & st' & t & tbl' & E & Hg & _).
  exists r, st', t, tbl'. exact (conj E (ag_tables _ _ _ _ _ _ _ _ _ Hg)).
Defined.

Lemma new_inode_number_and_slot_witness :
  exists ino pi_addr ns' st' t tbl',
    nova_new_nova_inode sbi fuel 0 booted st0 m0 = (Some ((ino, pi_addr, ns'), st'), t)
    /\ maps_wf sbi ns' /\ tables_ok sbi (fls st') (exec t m0) tbl'.
Proof.
  destruct table_booted_ready as [Hw Hb].
  destruct (new_inode_number_and_slot sbi fuel 0 booted st0 m0 tbl table_geometry
    ltac:(by apply Z.leb_le) table_slab ltac:(lia) tables_ok0 mem_ok0 table_demo_ready eq_refl Hw
    ltac:(by vm_compute)) as (ino & pi & ns' & st' & t & tbl' & E & Hw' & _ & _ & Ht & _).
  - intros x Hx. apply Hb. assert (init_range_high sbi = 16) as -> by done.
    assert (cpus sbi = 2) as -> by done. lia.
  - exists ino, pi, ns', st', t, tbl'. exact (conj E (conj Hw' Ht)).
Defined.
End witnesses.
