(* ===== verification/ScanBitmap.v ===== *)
(** The block bitmaps of failure recovery and the free lists rebuilt from them
    (bbuild.c): each CPU marks the blocks it finds in use, the marks of all CPUs
    are merged, and the runs of clear bits become the nodes of the free lists.

    A bitmap is the set of its set bits; a bit outside the array is outside the
    model ([None]). *)

From S2P Require Import Prelude.
From S2P Require Import Kernel.
From S2P Require Import Checksum.
From S2P Require Import RangeTree.
From S2P Require Import Layout.
From S2P Require Import FreeList.
From S2P Require Import Balloc.

Definition PAGE_SHIFT_2M : Z := 21.
Definition PAGE_SHIFT_1G : Z := 30.

Inductive bm_type := BM_4K | BM_2M | BM_1G.

Record single_scan_bm := SingleScanBm { bitmap_size : Z; bitmap : gset Z }.
Record scan_bitmap := ScanBitmap {
  scan_bm_4K : single_scan_bm;
  scan_bm_2M : single_scan_bm;
  scan_bm_1G : single_scan_bm
}.

Definition scan_bm_of (type : bm_type) (bm : scan_bitmap) : single_scan_bm :=
  match type with
  | BM_4K => scan_bm_4K bm
  | BM_2M => scan_bm_2M bm
  | BM_1G => scan_bm_1G bm
  end.
Definition with_scan_bm (type : bm_type) (s : single_scan_bm) (bm : scan_bitmap) : scan_bitmap :=
  match type with
  | BM_4K => ScanBitmap s (scan_bm_2M bm) (scan_bm_1G bm)
  | BM_2M => ScanBitmap (scan_bm_4K bm) s (scan_bm_1G bm)
  | BM_1G => ScanBitmap (scan_bm_4K bm) (scan_bm_2M bm) s
  end.

(** The number of bits. *)
Definition bits_of (s : single_scan_bm) : Z := u64 (bitmap_size s * 8).

Definition set_scan_bm (bit : Z) (s : single_scan_bm) : option single_scan_bm :=
  if bit <? bits_of s then Some (SingleScanBm (bitmap_size s) ({[bit]} ∪ bitmap s)) else None.
Definition clear_scan_bm (bit : Z) (s : single_scan_bm) : option single_scan_bm :=
  if bit <? bits_of s then Some (SingleScanBm (bitmap_size s) (bitmap s ∖ {[bit]})) else None.

Definition set_bm (bit : Z) (bm : scan_bitmap) (type : bm_type) : option scan_bitmap :=
  (fun s => with_scan_bm type s bm) <$> set_scan_bm bit (scan_bm_of type bm).
Definition clear_bm (bit : Z) (bm : scan_bitmap) (type : bm_type) : option scan_bitmap :=
  (fun s => with_scan_bm type s bm) <$> clear_scan_bm bit (scan_bm_of type bm).

(** The bitmaps of one CPU; [kzalloc] and [kvzalloc] succeed. *)
Definition zero_scan_bm (size : Z) : single_scan_bm := SingleScanBm size ∅.
Definition new_scan_bitmap (initsize : Z) : scan_bitmap :=
  ScanBitmap (zero_scan_bm (Z.shiftr initsize (PAGE_SHIFT + 3)))
    (zero_scan_bm (Z.shiftr initsize (PAGE_SHIFT_2M + 3)))
    (zero_scan_bm (Z.shiftr initsize (PAGE_SHIFT_1G + 3))).
(** [global_bm]. *)
Definition alloc_bm (sbi : nova_sb_info) (initsize : Z) : list scan_bitmap :=
  replicate (Z.to_nat (cpus sbi)) (new_scan_bitmap initsize).

Section build.
Context {RB : RbOps} {KM : KmemOps} {CR : CrcOps} {MP : ModParams} {BO : BitOps}.

(** ** From large blocks to 4K blocks *)

(** The loop over the [int i] of a run. *)
Fixpoint mark_run (fuel : nat) (i high : Z) (bm : scan_bitmap) : option scan_bitmap :=
  if u64 i <? high then
    match fuel with
    | O => None
    | S fuel' => bm ← set_bm (u64 i) bm BM_4K; mark_run fuel' (s32 (i + 1)) high bm
    end
  else Some bm.

Fixpoint update_4K_loop (fuel : nat) (bits : gset Z) (bsize scale next : Z) (bm : scan_bitmap)
    : option scan_bitmap :=
  match fuel with
  | O => None
  | S fuel' =>
      let next := find_next_bit bits bsize next in
      if next =? bsize then Some bm
      else
        let low := next in
        let next := find_next_zero_bit bits bsize next in
        let first := u64 (Z.shiftl low scale) in
        let high := u64 (Z.shiftl next scale) in
        bm ← mark_run (Z.to_nat (high - first)) (s32 first) high bm;
        if next =? bsize then Some bm
        else update_4K_loop fuel' bits bsize scale next bm
  end.

(** [bits] and [bsize] are those of one of the bitmaps of [bm]; one round per
    run of set bits. *)
Definition nova_update_4K_map (bm : scan_bitmap) (bits : gset Z) (bsize scale : Z)
    : option scan_bitmap :=
  update_4K_loop (S (Z.to_nat bsize)) bits bsize scale 0 bm.

(** ** From the clear bits to the free lists *)

Definition nova_insert_blocknode_map (ls : list free_list) (cpuid : Z) (meta : bool)
    (low high : Z) : option (Z * list free_list) :=
  let num_blocks := u64 (high - low + 1) in
  fl ← nova_get_free_list ls cpuid;
  let l := sub_list meta fl in
  match nova_alloc_blocknode (block_free_tree l) with
  | None => Some (- ENOMEM, ls)
  | Some (blknode, T) =>
      let T := store_node blknode (fun n => set_high high (set_low low n)) T in
      let '(ret, T) := nova_insert_blocktree T blknode in
      if negb (ret =? 0) then
        Some (ret, store_free_list cpuid (set_sub_list meta
                     (set_block_free_tree (nova_free_blocknode blknode T) l) fl) ls)
      else
        let l := set_block_free_tree T l in
        let l := match first_node l with
                 | None => set_first_node (Some blknode) l
                 | Some _ => l
                 end in
        let l := set_last_node (Some blknode) l in
        let l := add_blocknodes 1 l in
        let l := set_num_free_blocks (u64 (num_free_blocks l + num_blocks)) l in
        Some (ret, store_free_list cpuid (set_sub_list meta l fl) ls)
  end.

(** The [while (1)] loop; [fin] is [end].  An insertion that fails is
    only reported. *)
Fixpoint build_loop (fuel : nat) (sbi : nova_sb_info) (bits : gset Z) (bsize scale : Z)
    (meta : bool) (cpuid start fin : Z) (ls : list free_list) : option (list free_list) :=
  match fuel with
  | O => None
  | S fuel' =>
      let next_cpu ls :=
        if cpuid =? cpus sbi - 1 then Some ls
        else
          l ← nova_get_sub_free_list ls (cpuid + 1) meta;
          build_loop fuel' sbi bits bsize scale meta (cpuid + 1)
            (block_start l) (u64 (block_end l + 1)) ls in
      let next := find_next_zero_bit bits fin start in
      if next =? bsize then Some ls
      else if next =? fin then next_cpu ls
      else
        let low := next in
        let next := find_next_bit bits fin next in
        '(_, ls) ← nova_insert_blocknode_map ls cpuid meta (u64 (Z.shiftl low scale))
                     (u64 (u64 (Z.shiftl next scale) - 1));
        if next =? bsize then Some ls
        else if next =? fin then next_cpu ls
        else build_loop fuel' sbi bits bsize scale meta cpuid next fin ls
  end.

(** A round inserts a node or goes to the next CPU. *)
Definition __nova_build_blocknode_map (sbi : nova_sb_info) (ls : list free_list)
    (bits : gset Z) (bsize scale : Z) (meta : bool) : option (Z * list free_list) :=
  l ← nova_get_sub_free_list ls 0 meta;
  ls ← build_loop (S (Z.to_nat (bsize + cpus sbi))) sbi bits bsize scale meta 0
         (block_start l) (u64 (block_end l + 1)) ls;
  Some (0, ls).

(** The bitmaps of one CPU after the 2M and 1G blocks were set in the 4K map. *)
Definition expand_bm (bm : scan_bitmap) : option scan_bitmap :=
  bm ← nova_update_4K_map bm (bitmap (scan_bm_2M bm)) (bits_of (scan_bm_2M bm))
         (PAGE_SHIFT_2M - 12);
  nova_update_4K_map bm (bitmap (scan_bm_1G bm)) (bits_of (scan_bm_1G bm))
    (PAGE_SHIFT_1G - 12).

(** [global_bm] has one element per CPU.  The return value, [global_bm] and the
    free lists. *)
Definition nova_build_blocknode_map (sbi : nova_sb_info) (global_bm : list scan_bitmap)
    (ls : list free_list) (initsize : Z) : option (Z * list scan_bitmap * list free_list) :=
  let size := Z.shiftr initsize (PAGE_SHIFT + 3) in
  bms ← mapM expand_bm global_bm;
  let final := foldl (fun dst bm => bitmap (scan_bm_4K bm) ∪ dst) ∅ bms in
  '(_, ls) ← __nova_build_blocknode_map sbi ls final (u64 (size * 8)) (PAGE_SHIFT - 12) false;
  '(ret, ls) ← __nova_build_blocknode_map sbi ls final (u64 (size * 8)) (PAGE_SHIFT - 12) true;
  Some (ret, bms, ls).
End build.
