(* ===== verification/ScanBitmapSpec.v ===== *)
(** What the bitmaps of recovery say and the free lists built from them. *)

From S2P Require Import Prelude.
From S2P Require Import Kernel.
From S2P Require Import Checksum.
From S2P Require Import RangeTree.
From S2P Require Import RangeTreeSpec.
From S2P Require Import Layout.
From S2P Require Import FreeList.
From S2P Require Import FreeListSpec.
From S2P Require Import Balloc.
From S2P Require Import BallocSpec.
From S2P Require Import BallocInit.
From S2P Require Import ScanBitmap.

(** ** Marks *)

(** The set bits are bits of the array. *)
Definition bits_in (s : single_scan_bm) : Prop := forall x, x ∈ bitmap s -> 0 <= x < bits_of s.

Record bm_ok (bm : scan_bitmap) : Prop := {
  bo_4K : bits_in (scan_bm_4K bm);
  bo_2M : bits_in (scan_bm_2M bm);
  bo_1G : bits_in (scan_bm_1G bm);
  bo_size : 0 <= bits_of (scan_bm_4K bm) < TWO31;
  bo_fit_2M : 0 <= bits_of (scan_bm_2M bm) * 512 <= bits_of (scan_bm_4K bm);
  bo_fit_1G : 0 <= bits_of (scan_bm_1G bm) * 262144 <= bits_of (scan_bm_4K bm)
}.

(** Block [x] is marked, by itself or as part of a large block. *)
Definition marked (bm : scan_bitmap) (x : Z) : Prop :=
  x ∈ bitmap (scan_bm_4K bm) \/ x / 512 ∈ bitmap (scan_bm_2M bm)
  \/ x / 262144 ∈ bitmap (scan_bm_1G bm).

(** Only 4K bits changed: those of [P] joined. *)
Record marks (bm : scan_bitmap) (P : Z -> Prop) (bm' : scan_bitmap) : Prop := {
  mk_size : bitmap_size (scan_bm_4K bm') = bitmap_size (scan_bm_4K bm);
  mk_2M : scan_bm_2M bm' = scan_bm_2M bm;
  mk_1G : scan_bm_1G bm' = scan_bm_1G bm;
  mk_bits : forall x, x ∈ bitmap (scan_bm_4K bm') <-> x ∈ bitmap (scan_bm_4K bm) \/ P x
}.

Lemma marks_bits bm P bm' : marks bm P bm' -> bits_of (scan_bm_4K bm') = bits_of (scan_bm_4K bm).
Proof. intros H. unfold bits_of. by rewrite (mk_size _ _ _ H). Qed.

Lemma marks_none bm P : (forall x, ~ P x) -> marks bm P bm.
Proof. intros HP. split; try done. intros x. specialize (HP x). tauto. Qed.

Lemma marks_trans bm P bm1 Q bm2 :
  marks bm P bm1 -> marks bm1 Q bm2 -> marks bm (fun x => P x \/ Q x) bm2.
Proof.
  intros [A1 B1 C1 D1] [A2 B2 C2 D2]. split; [congruence..|].
  intros x. rewrite D2, D1. tauto.
Qed.

Lemma marks_iff bm P Q bm' : (forall x, P x <-> Q x) -> marks bm P bm' -> marks bm Q bm'.
Proof. intros HPQ [A B C D]. split; try done. intros x. rewrite D, HPQ. done. Qed.

Lemma marks_ok bm P bm' :
  marks bm P bm' -> (forall x, P x -> 0 <= x < bits_of (scan_bm_4K bm)) -> bm_ok bm -> bm_ok bm'.
Proof.
  intros Hm HP Hok. pose proof (marks_bits _ _ _ Hm) as Hb. destruct Hok. destruct Hm as [A B C D].
  split; rewrite ?Hb, ?B, ?C; try done. intros x Hx. rewrite Hb. apply D in Hx as [Hx|Hx]; auto.
Qed.

Lemma set_bm_marks bit bm :
  bit < bits_of (scan_bm_4K bm) ->
  exists bm', set_bm bit bm BM_4K = Some bm' /\ marks bm (fun x => x = bit) bm'.
Proof.
  intros Hb. unfold set_bm, set_scan_bm. simpl. rewrite (proj2 (Z.ltb_lt _ _) Hb). simpl.
  eexists. split; [done|]. split; try done. intros x. simpl. set_solver.
Qed.

Lemma mark_run_marks fuel i high bm :
  0 <= i -> high <= bits_of (scan_bm_4K bm) -> high < TWO31 -> high - i <= Z.of_nat fuel ->
  i < TWO31 ->
  exists bm', mark_run fuel i high bm = Some bm' /\ marks bm (fun x => i <= x < high) bm'.
Proof.
  revert i bm. induction fuel as [|fuel IH]; intros i bm Hi Hh H31 Hf Hi31;
    cbn [mark_run]; rewrite u64_small by lia; destruct (Z.ltb_spec i high) as [Hlt|Hge].
  1: lia.
  1, 3: exists bm; split; [done|]; apply marks_none; lia.
  destruct (set_bm_marks i bm) as (bm1 & -> & Hm1); [lia|]. cbn [mbind option_bind].
  rewrite s32_small by lia.
  destruct (IH (i + 1) bm1) as (bm2 & E & Hm2); try lia.
  { rewrite (marks_bits _ _ _ Hm1). lia. }
  exists bm2. split; [done|].
  eapply marks_iff; [|by eapply marks_trans]. cbv beta. lia.
Qed.

Section expand.
Context {BO : BitOps} {BL : BitLaws}.

Lemma next_bit bm size off : off < size ->
  off <= find_next_bit bm size off <= size
  /\ (forall x, off <= x < find_next_bit bm size off -> x ∉ bm)
  /\ (find_next_bit bm size off < size -> find_next_bit bm size off ∈ bm).
Proof.
  intros Hlt. pose proof (find_next_bit_first bm size off) as H. unfold first_bit in H.
  by rewrite (proj2 (Z.leb_gt _ _) Hlt) in H.
Qed.

Lemma next_bit_end bm size : find_next_bit bm size size = size.
Proof.
  pose proof (find_next_bit_first bm size size) as H. unfold first_bit in H.
  by rewrite Z.leb_refl in H.
Qed.

Lemma next_zero_bit bm size off : off < size ->
  off <= find_next_zero_bit bm size off <= size
  /\ (forall x, off <= x < find_next_zero_bit bm size off -> x ∈ bm)
  /\ (find_next_zero_bit bm size off < size -> find_next_zero_bit bm size off ∉ bm).
Proof.
  intros Hlt. pose proof (find_next_zero_bit_first bm size off) as H. unfold first_bit in H.
  rewrite (proj2 (Z.leb_gt _ _) Hlt) in H. destruct H as (? & H & ?). split_and!; [lia|lia| |done].
  intros x Hx. destruct (decide (x ∈ bm)) as [|Hn]; [done|]. by destruct (H x Hx).
Qed.

Lemma next_zero_bit_end bm size : find_next_zero_bit bm size size = size.
Proof.
  pose proof (find_next_zero_bit_first bm size size) as H. unfold first_bit in H.
  by rewrite Z.leb_refl in H.
Qed.

Lemma shift_mul x scale : 0 <= scale -> Z.shiftl x scale = x * 2 ^ scale.
Proof. intros. by apply Z.shiftl_mul_pow2. Qed.

Lemma div_range x lo hi k : 0 < k -> lo <= x / k < hi <-> lo * k <= x < hi * k.
Proof.
  intros Hk. pose proof (Z.div_mod x k ltac:(lia)). pose proof (Z.mod_pos_bound x k Hk). nia.
Qed.

(** Every block of a large block whose bit is at [next] or after it. *)
Definition from_large (bits : gset Z) (bsize next scale x : Z) : Prop :=
  next <= x / 2 ^ scale < bsize /\ x / 2 ^ scale ∈ bits.

Lemma update_loop_marks fuel bits bsize scale next bm :
  0 <= scale -> 0 <= next <= bsize -> bsize * 2 ^ scale <= bits_of (scan_bm_4K bm) < TWO31 ->
  bsize - next < Z.of_nat fuel ->
  exists bm', update_4K_loop fuel bits bsize scale next bm = Some bm'
    /\ marks bm (from_large bits bsize next scale) bm'.
Proof.
  intros Hs. assert (Hp : 0 < 2 ^ scale) by (apply Z.pow_pos_nonneg; lia).
  revert next bm. induction fuel as [|fuel IH]; intros next bm Hn Hfit Hf; [lia|].
  cbn [update_4K_loop]. set (lo := find_next_bit bits bsize next).
  assert (Hlo : next <= lo <= bsize /\ (forall x, next <= x < lo -> x ∉ bits)
    /\ (lo < bsize -> lo ∈ bits)).
  { destruct (decide (next = bsize)) as [->|].
    - unfold lo. rewrite next_bit_end. split_and!; [lia|lia|intros; lia|lia].
    - apply next_bit. lia. }
  clearbody lo. destruct Hlo as (Hlb & Hclear & Hset).
  destruct (Z.eqb_spec lo bsize) as [->|Hne].
  { exists bm. split; [done|]. apply marks_none. intros x [Hx Hin]. by apply (Hclear (x / 2 ^ scale)). }
  destruct (next_zero_bit bits bsize lo) as (Hhb & Hones & Hzero); [lia|].
  set (hi := find_next_zero_bit bits bsize lo) in *. clearbody hi.
  assert (lo < hi).
  { destruct (decide (lo = hi)) as [<-|]; [|lia]. exfalso. apply Hzero; [lia|]. apply Hset. lia. }
  rewrite !shift_mul by done. assert (0 <= lo * 2 ^ scale < hi * 2 ^ scale) by nia.
  assert (hi * 2 ^ scale <= bsize * 2 ^ scale) by nia.
  rewrite !u64_small by lia. rewrite s32_small by lia.
  destruct (mark_run_marks (Z.to_nat (hi * 2 ^ scale - lo * 2 ^ scale)) (lo * 2 ^ scale)
              (hi * 2 ^ scale) bm) as (bm1 & -> & Hm1); try lia.
  cbn [mbind option_bind]. destruct (Z.eqb_spec hi bsize) as [->|Hne2].
  - exists bm1. split; [done|]. eapply marks_iff; [|exact Hm1]. intros x. cbv beta.
    rewrite <- div_range by done. unfold from_large. split.
    + intros Hx. split; [lia|]. by apply Hones.
    + intros [Hx Hin]. destruct (decide (x / 2 ^ scale < lo)); [|lia].
      exfalso. apply (Hclear (x / 2 ^ scale)); [lia|done].
  - destruct (IH hi bm1) as (bm2 & E & Hm2); [lia| |lia|].
    { by rewrite (marks_bits _ _ _ Hm1). }
    exists bm2. split; [done|]. eapply marks_iff; [|by eapply marks_trans]. intros x. cbv beta.
    rewrite <- div_range by done. unfold from_large. split.
    + intros [Hx|[Hx Hin]]; [|split; [lia|done]]. split; [lia|]. by apply Hones.
    + intros [Hx Hin]. destruct (decide (x / 2 ^ scale < lo)).
      { exfalso. apply (Hclear (x / 2 ^ scale)); [lia|done]. }
      destruct (decide (x / 2 ^ scale < hi)); [left; lia|right]. split; [lia|done].
Qed.

Lemma expand_marks bm :
  bm_ok bm ->
  exists bm', expand_bm bm = Some bm'
    /\ marks bm (fun x => x / 512 ∈ bitmap (scan_bm_2M bm) \/ x / 262144 ∈ bitmap (scan_bm_1G bm)) bm'.
Proof.
  intros Hok. unfold expand_bm, nova_update_4K_map.
  change (PAGE_SHIFT_2M - 12) with 9. change (PAGE_SHIFT_1G - 12) with 18.
  destruct Hok as [H4 H2 H1 Hs Hf2 Hf1].
  destruct (update_loop_marks (S (Z.to_nat (bits_of (scan_bm_2M bm)))) (bitmap (scan_bm_2M bm))
              (bits_of (scan_bm_2M bm)) 9 0 bm) as (bm1 & -> & Hm1);
    [lia|lia|change (2 ^ 9) with 512; lia|lia|].
  cbn [mbind option_bind]. rewrite (mk_1G _ _ _ Hm1).
  destruct (update_loop_marks (S (Z.to_nat (bits_of (scan_bm_1G bm)))) (bitmap (scan_bm_1G bm))
              (bits_of (scan_bm_1G bm)) 18 0 bm1) as (bm2 & -> & Hm2); [lia|lia| |lia|].
  { rewrite (marks_bits _ _ _ Hm1). change (2 ^ 18) with 262144. lia. }
  exists bm2. split; [done|]. eapply marks_iff; [|by eapply marks_trans].
  intros x. unfold from_large. change (2 ^ 9) with 512. change (2 ^ 18) with 262144. split.
  - intros [[_ ?]|[_ ?]]; auto.
  - intros [Hx|Hx]; [left|right]; (split; [|done]); [by apply H2|by apply H1].
Qed.
End expand.

(** ** The free lists *)

Section lists.
Context {RB : RbOps} {KM : KmemOps} {CR : CrcOps} {MP : ModParams}.
Context {RBL : RbLaws} {KML : KmemLaws} {BO : BitOps} {BL : BitLaws}.

Lemma empty_list_wf l :
  block_free_tree l = empty_rtree -> first_node l = None -> last_node l = None ->
  num_blocknode l = 0 -> num_free_blocks l = 0 ->
  0 <= block_start l <= block_end l + 1 -> block_end l < TWO31 - 1 ->
  list_wf l /\ forall x, ~ is_free l x.
Proof.
  intros Et Ef El En Ec Hb He. assert (Ei : fids l = []) by (unfold fids; by rewrite Et).
  assert (Er : franges l = []) by (unfold franges; by rewrite Et).
  assert (Hw : tree_wf empty_rtree).
  { split; [constructor| | |done]; intros q Hq; by apply not_elem_of_nil in Hq. }
  split.
  - split; rewrite ?Ei, ?Er; try done; [by rewrite Et|]. intros r Hr. by apply not_elem_of_nil in Hr.
  - intros x. unfold is_free. rewrite Er. rewrite covers_nil. tauto.
Qed.

(** A run after every free block. *)
Lemma insert_blocknode_ok ls i fl meta low high :
  (forall T, is_Some (nova_alloc_range_node T)) ->
  ls !! i = Some fl -> list_wf (sub_list meta fl) ->
  (forall x, is_free (sub_list meta fl) x -> x < low) ->
  block_start (sub_list meta fl) <= low <= high -> high <= block_end (sub_list meta fl) ->
  exists l', nova_insert_blocknode_map ls (Z.of_nat i) meta low high
      = Some (0, store_free_list (Z.of_nat i) (set_sub_list meta l' fl) ls)
    /\ freed (sub_list meta fl) (high - low + 1) low l'.
Proof.
  intros Hslab Hi Hw Hlt Hlo Hhi. unfold nova_insert_blocknode_map, nova_alloc_blocknode.
  unfold nova_get_free_list. rewrite (proj2 (Z.ltb_ge _ 0)) by lia. rewrite Nat2Z.id, Hi.
  cbn [mbind option_bind]. set (l := sub_list meta fl) in *.
  destruct (li_bounds _ _ Hw) as [Hbs Hbe].
  destruct (Hslab (block_free_tree l)) as [[p T] Hal]. rewrite Hal.
  destruct (wf_alloc_node _ _ _ (li_tree _ _ Hw) Hal) as (HwT & HiT & HrT & Hp).
  destruct (alloc_node_spec _ _ _ Hal) as (_ & Hd & _).
  assert (Hm : rng T <$> ids T = franges l) by exact HrT.
  destruct (insert_filled T p (fun n => set_high high (set_low low n)) (ids T) [] HwT Hd Hp)
    as (T' & -> & HwT' & HiT' & _ & HrT').
  { by rewrite app_nil_r. }
  { rewrite Hm, sorted_from_app. simpl. split_and!; [exact (wf_sorted _ (li_tree _ _ Hw))| |lia|done].
    apply last_high_lt; [lia|]. intros [a b] Hr. apply (Hlt b). exists (a, b). split; [done|]. destruct (sorted_from_bounds _ _ _ _ (wf_sorted _ (li_tree _ _ Hw)) Hr).
    simpl. lia. }
  simpl negb. cbv iota beta. eexists. split; [reflexivity|].
  cbn [fmap list_fmap] in HrT'. rewrite Hm in HrT'. rewrite HiT in HiT'. simpl in HrT'.
  assert (Hfree : forall x, covers (ranges T') x <-> is_free l x \/ low <= x < low + (high - low + 1)).
  { intros x. rewrite HrT'. autorewrite with ranges. fold (is_free l x).
    assert (covers (franges l) x <-> is_free l x) by done. intuition lia. }
  pose proof (li_first _ _ Hw) as Hf. pose proof (li_nodes _ _ Hw) as Hn.
  pose proof (li_count _ _ Hw) as Hc. pose proof (total_max _ _ Hw).
  pose proof (total_length _ _ (wf_sorted _ (li_tree _ _ Hw))) as Htl. fold (franges l) in Htl.
  unfold franges in Htl. unfold ranges in Htl. rewrite length_fmap in Htl.
  fold (franges l) (fids l) in Htl.
  change (ids (block_free_tree l)) with (fids l) in HiT'.
  apply (freed_intro l _ low (high - low + 1)); try done; try lia.
  - destruct (first_node (set_block_free_tree T' l)); exact HwT'.
  - unfold fids. destruct (first_node (set_block_free_tree T' l)) eqn:E; simpl in *;
      rewrite HiT', E in *; destruct (fids l); simplify_eq/=; done.
  - unfold fids. destruct (first_node (set_block_free_tree T' l)); simpl; by rewrite HiT', last_snoc.
  - unfold fids. destruct (first_node (set_block_free_tree T' l)); simpl; rewrite HiT', length_app;
      simpl; rewrite u64_small; unfold fids in *; lia.
  - destruct (first_node (set_block_free_tree T' l)); simpl; by rewrite (u64_small (high - low + 1)) by lia.
  - unfold franges at 1. destruct (first_node (set_block_free_tree T' l)); simpl; rewrite HrT', total_app; simpl; lia.
  - destruct (first_node (set_block_free_tree T' l)); done.
  - intros x. rewrite <- Hfree. by destruct (first_node (set_block_free_tree T' l)).
Qed.

(** The lists [ls] hold, of the blocks the lists [ls0] manage, the clear bits
    that satisfy [P] (list, block). *)
Record built (bits : gset Z) (meta : bool) (P : nat -> Z -> Prop) (ls0 ls : list free_list) : Prop := {
  bt_len : length ls = length ls0;
  bt_list : forall i fl0 fl, ls0 !! i = Some fl0 -> ls !! i = Some fl ->
    list_wf (sub_list meta fl) /\ same_frame (sub_list meta fl0) (sub_list meta fl)
    /\ sub_list (negb meta) fl = sub_list (negb meta) fl0
    /\ forall x, is_free (sub_list meta fl) x <->
         block_start (sub_list meta fl0) <= x <= block_end (sub_list meta fl0)
         /\ P i x /\ x ∉ bits
}.

Lemma built_at bits meta P ls0 ls i fl0 :
  built bits meta P ls0 ls -> ls0 !! i = Some fl0 -> exists fl, ls !! i = Some fl.
Proof.
  intros Hb Hi. apply lookup_lt_is_Some_2. rewrite (bt_len _ _ _ _ _ Hb). by eapply lookup_lt_Some.
Qed.

Lemma built_iff bits meta P Q ls0 ls :
  (forall i fl0 x, ls0 !! i = Some fl0 ->
    block_start (sub_list meta fl0) <= x <= block_end (sub_list meta fl0) -> x ∉ bits ->
    P i x <-> Q i x) ->
  built bits meta P ls0 ls -> built bits meta Q ls0 ls.
Proof.
  intros HPQ [Hl Ha]. split; [done|]. intros i fl0 fl H0 Hi.
  destruct (Ha _ _ _ H0 Hi) as (? & ? & ? & Hf). split_and!; try done.
  intros x. rewrite Hf. specialize (HPQ i fl0 x H0). tauto.
Qed.

(** The lists manage increasing blocks the bitmap covers. *)
Record in_order (bsize : Z) (meta : bool) (ls : list free_list) : Prop := {
  io_list : forall i fl, ls !! i = Some fl ->
    0 <= block_start (sub_list meta fl) <= block_end (sub_list meta fl) + 1
    /\ block_end (sub_list meta fl) + 1 <= bsize;
  io_next : forall i j fl fl', (i < j)%nat -> ls !! i = Some fl -> ls !! j = Some fl' ->
    block_end (sub_list meta fl) + 1 <= block_start (sub_list meta fl')
}.

(** List [i] is done up to block [x]: those before [c] are, [c] up to [start]. *)
Definition passed (c : nat) (start : Z) (i : nat) (x : Z) : Prop :=
  (i < c)%nat \/ i = c /\ x < start.

Context (Hslab : forall T, is_Some (nova_alloc_range_node T)).

(** One run of clear bits becomes a node. *)
Lemma built_step bits bsize meta ls0 ls c fl0 start lo hi :
  in_order bsize meta ls0 -> built bits meta (passed c start) ls0 ls -> ls0 !! c = Some fl0 ->
  block_start (sub_list meta fl0) <= start <= lo -> lo < hi -> hi <= block_end (sub_list meta fl0) + 1 ->
  (forall x, start <= x < lo -> x ∈ bits) -> (forall x, lo <= x < hi -> x ∉ bits) ->
  exists ls', nova_insert_blocknode_map ls (Z.of_nat c) meta lo (hi - 1) = Some (0, ls')
    /\ built bits meta (passed c hi) ls0 ls'.
Proof.
  intros Hio Hb Hc Hs Hlt Hhi Hones Hzeros. destruct (built_at _ _ _ _ _ _ _ Hb Hc) as [fl Hi].
  destruct (bt_list _ _ _ _ _ Hb _ _ _ Hc Hi) as (Hw & Hfr & Hoth & Hfree).
  pose proof Hfr as (Ebs & Ebe & _). pose proof (lookup_lt_Some _ _ _ Hi) as Hlen.
  destruct (insert_blocknode_ok ls c fl meta lo (hi - 1) Hslab Hi Hw) as (l' & -> & Hfd);
    [|rewrite Ebs; lia|rewrite Ebe; lia|].
  { intros x Hx. apply Hfree in Hx as (_ & [|[_ ?]] & _); lia. }
  eexists. split; [done|]. split.
  { unfold store_free_list. rewrite length_insert. apply Hb. }
  intros i g0 g H0 H1. unfold store_free_list in H1. rewrite Nat2Z.id in H1.
  destruct (decide (c = i)) as [<-|Hne].
  - rewrite list_lookup_insert_eq in H1 by done. simplify_eq.
    rewrite sub_set, decide_True by done. split_and!.
    + apply Hfd.
    + etrans; [exact Hfr|apply Hfd].
    + rewrite sub_set, decide_False by (by destruct meta). done.
    + intros x. rewrite (fr_free _ _ _ _ Hfd), Hfree. unfold passed. split.
      * intros [(Hx & Hp & Hn)|Hx].
        -- destruct Hp as [?|[_ ?]]; [lia|]. split; [lia|]. split; [right; lia|done].
        -- split; [lia|]. split; [right; lia|]. apply Hzeros. lia.
      * intros (Hx & Hp & Hn). destruct Hp as [?|[_ Hp]]; [lia|].
        destruct (decide (x < start)); [left; split; [lia|]; split; [by right|done]|right].
        destruct (decide (x < lo)); [|lia]. exfalso. apply Hn, Hones. lia.
  - rewrite list_lookup_insert_ne in H1 by done.
    destruct (bt_list _ _ _ _ _ Hb _ _ _ H0 H1) as (? & ? & ? & Hf). split_and!; try done.
    intros x. rewrite Hf. unfold passed. intuition lia.
Qed.

(** List [c] is done: the next list, and the last one. *)
Lemma built_next bits bsize meta ls0 ls c fl0 g0 :
  in_order bsize meta ls0 -> built bits meta (passed c (block_end (sub_list meta fl0) + 1)) ls0 ls ->
  ls0 !! c = Some fl0 -> ls0 !! S c = Some g0 ->
  exists l, nova_get_sub_free_list ls (Z.of_nat (S c)) meta = Some l
    /\ block_start l = block_start (sub_list meta g0) /\ block_end l = block_end (sub_list meta g0)
    /\ built bits meta (passed (S c) (block_start (sub_list meta g0))) ls0 ls.
Proof.
  intros Hio Hb Hc Hg0. destruct (built_at _ _ _ _ _ _ _ Hb Hg0) as [g Hg].
  destruct (bt_list _ _ _ _ _ Hb _ _ _ Hg0 Hg) as (_ & (Ebs & Ebe & _) & _).
  exists (sub_list meta g). split_and!; [|done|done|].
  - unfold nova_get_sub_free_list. by rewrite get_free_list, Hg.
  - eapply built_iff; [|exact Hb]. intros i k x Hk Hx _. unfold passed.
    destruct (decide (i = c)) as [->|]; [simplify_eq; lia|].
    destruct (decide (i = S c)) as [->|]; [simplify_eq; lia|]. lia.
Qed.

Lemma built_last bits bsize meta ls0 ls c fl0 :
  in_order bsize meta ls0 -> built bits meta (passed c (block_end (sub_list meta fl0) + 1)) ls0 ls ->
  ls0 !! c = Some fl0 -> length ls0 = S c \/ block_end (sub_list meta fl0) + 1 = bsize ->
  built bits meta (fun _ _ => True) ls0 ls.
Proof.
  intros Hio Hb Hc Hend. eapply built_iff; [|exact Hb]. intros i g x Hg Hx _.
  pose proof (lookup_lt_Some _ _ _ Hg). unfold passed. split; [done|intros _].
  destruct (decide (i = c)) as [->|]; [right; simplify_eq; lia|].
  destruct (decide (i < c)%nat); [by left|]. exfalso. destruct Hend as [?|Hend]; [lia|].
  pose proof (io_next _ _ _ Hio c i _ _ ltac:(lia) Hc Hg). pose proof (io_list _ _ _ Hio _ _ Hg). lia.
Qed.

(** Only set bits from [start] on. *)
Lemma built_skip bits meta ls0 ls c fl0 start :
  built bits meta (passed c start) ls0 ls -> ls0 !! c = Some fl0 ->
  start <= block_end (sub_list meta fl0) + 1 ->
  (forall x, start <= x <= block_end (sub_list meta fl0) -> x ∈ bits) ->
  built bits meta (passed c (block_end (sub_list meta fl0) + 1)) ls0 ls.
Proof.
  intros Hb Hc Hs Hones. eapply built_iff; [|exact Hb]. intros i g x Hg Hx Hn. unfold passed.
  split; [lia|]. intros [?|[-> ?]]; [lia|]. right. split; [done|].
  destruct (decide (x < start)); [lia|]. exfalso. apply Hn, Hones. simplify_eq. lia.
Qed.

(** The two searches of a round. *)
Lemma find_run bits start fin :
  start <= fin ->
  let lo := find_next_zero_bit bits fin start in
  let hi := find_next_bit bits fin lo in
  start <= lo <= fin /\ (forall x, start <= x < lo -> x ∈ bits)
  /\ (lo < fin -> lo < hi <= fin /\ forall x, lo <= x < hi -> x ∉ bits).
Proof.
  intros Hs. cbv zeta. destruct (decide (start = fin)) as [->|].
  { rewrite next_zero_bit_end. split_and!; [lia|lia|intros; lia|lia]. }
  destruct (next_zero_bit bits fin start) as (Hlo & Hones & Hzero); [lia|].
  set (lo := find_next_zero_bit bits fin start) in *. clearbody lo.
  split_and!; [lia|lia|done|]. intros Hlf.
  destruct (next_bit bits fin lo) as (Hhi & Hclear & Hset); [lia|].
  set (hi := find_next_bit bits fin lo) in *. clearbody hi. split; [|done].
  destruct (decide (lo = hi)) as [<-|]; [|lia]. exfalso. apply (Hzero Hlf), Hset. lia.
Qed.

Lemma build_loop_ok fuel sbi bits bsize meta ls0 ls c fl0 start :
  in_order bsize meta ls0 -> built bits meta (passed c start) ls0 ls -> ls0 !! c = Some fl0 ->
  Z.of_nat (length ls0) = cpus sbi -> bsize < TWO31 ->
  block_start (sub_list meta fl0) <= start <= block_end (sub_list meta fl0) + 1 ->
  (bsize - start) + (cpus sbi - 1 - Z.of_nat c) < Z.of_nat fuel ->
  exists ls', build_loop fuel sbi bits bsize 0 meta (Z.of_nat c) start
      (block_end (sub_list meta fl0) + 1) ls = Some ls'
    /\ built bits meta (fun _ _ => True) ls0 ls'.
Proof.
  intros Hio. revert ls c fl0 start.
  induction fuel as [|fuel IH]; intros ls c fl0 start Hb Hc Hlen Hsz Hs Hf;
    destruct (io_list _ _ _ Hio _ _ Hc) as [Hbd Hfit]; pose proof (lookup_lt_Some _ _ _ Hc); [lia|].
  cbn [build_loop]. set (fin := block_end (sub_list meta fl0) + 1) in *.
  assert (Hleave : forall ls1, built bits meta (passed c fin) ls0 ls1 -> exists ls',
    (if Z.of_nat c =? cpus sbi - 1 then Some ls1
     else l ← nova_get_sub_free_list ls1 (Z.of_nat c + 1) meta;
          build_loop fuel sbi bits bsize 0 meta (Z.of_nat c + 1) (block_start l)
            (u64 (block_end l + 1)) ls1) = Some ls'
    /\ built bits meta (fun _ _ => True) ls0 ls').
  { intros ls1 Hb1. destruct (Z.eqb_spec (Z.of_nat c) (cpus sbi - 1)) as [Hlast|Hlast].
    { exists ls1. split; [done|]. eapply built_last; [done..|]. left. lia. }
    destruct (lookup_lt_is_Some_2 ls0 (S c)) as [g0 Hg0]; [lia|].
    destruct (built_next _ _ _ _ _ _ _ _ Hio Hb1 Hc Hg0) as (l & El & Ebs & Ebe & Hb2).
    pose proof (io_list _ _ _ Hio _ _ Hg0). pose proof (io_next _ _ _ Hio c (S c) _ _ ltac:(lia) Hc Hg0).
    replace (Z.of_nat c + 1) with (Z.of_nat (S c)) by lia. rewrite El. cbn [mbind option_bind].
    rewrite Ebs, Ebe, u64_small by lia.
    apply (IH ls1 (S c) g0 (block_start (sub_list meta g0))); try done; lia. }
  destruct (find_run bits start fin) as (Hlo & Hones & Hrun); [lia|].
  set (lo := find_next_zero_bit bits fin start) in *. clearbody lo.
  assert (Hskip : lo = fin -> built bits meta (passed c fin) ls0 ls).
  { intros E. eapply built_skip; [done..|lia|]. intros x Hx. apply Hones. lia. }
  destruct (Z.eqb_spec lo bsize) as [Hlb|Hlb].
  { exists ls. split; [done|]. eapply built_last; [done|apply Hskip; lia|done|right; lia]. }
  destruct (Z.eqb_spec lo fin) as [Hlf|Hlf]; [by apply Hleave, Hskip|].
  destruct Hrun as (Hhi & Hclear); [lia|].
  set (hi := find_next_bit bits fin lo) in *. clearbody hi.
  rewrite !Z.shiftl_0_r, !(u64_small lo), !(u64_small hi), (u64_small (hi - 1)) by lia.
  destruct (built_step bits bsize meta ls0 ls c fl0 start lo hi) as (ls1 & -> & Hb1); try done; try lia.
  cbn [mbind option_bind]. destruct (Z.eqb_spec hi bsize) as [Hhb|Hhb].
  { exists ls1. split; [done|]. assert (Ef : hi = fin) by lia. rewrite Ef in Hb1.
    apply (built_last _ _ _ _ _ _ _ Hio Hb1 Hc). right. lia. }
  destruct (Z.eqb_spec hi fin) as [->|Hhf]; [by apply Hleave|].
  apply (IH ls1 c fl0 hi); try done; lia.
Qed.

(** One kind of list, from lists without nodes. *)
Lemma build_map_ok sbi bits bsize meta ls0 :
  in_order bsize meta ls0 -> built bits meta (passed 0 0) ls0 ls0 ->
  Z.of_nat (length ls0) = cpus sbi -> 0 < cpus sbi -> bsize < TWO31 ->
  exists ls', __nova_build_blocknode_map sbi ls0 bits bsize 0 meta = Some (0, ls')
    /\ built bits meta (fun _ _ => True) ls0 ls'.
Proof.
  intros Hio Hb Hlen Hcpu Hsz. unfold __nova_build_blocknode_map, nova_get_sub_free_list.
  destruct (lookup_lt_is_Some_2 ls0 0%nat) as [fl0 H0]; [lia|].
  change 0 with (Z.of_nat 0). rewrite get_free_list, H0.
  cbn [fmap option_fmap option_map mbind option_bind].
  destruct (io_list _ _ _ Hio _ _ H0) as [Hbd Hfit]. rewrite u64_small by lia.
  change (Z.of_nat 0) with 0 at 2.
  destruct (build_loop_ok (S (Z.to_nat (bsize + cpus sbi))) sbi bits bsize meta ls0 ls0 0 fl0
              (block_start (sub_list meta fl0))) as (ls' & -> & Hb'); try done; try lia.
  - eapply built_iff; [|exact Hb]. intros i g x Hg Hx _. unfold passed.
    destruct (decide (i = 0%nat)) as [->|]; [simplify_eq; lia|lia].
  - exists ls'. done.
Qed.
End lists.

(** ** From a fresh mount to the rebuilt lists *)

Section fresh.
Context {RB : RbOps} {KM : KmemOps} {CR : CrcOps} {MP : ModParams}.
Context {RBL : RbLaws} {KML : KmemLaws} {BO : BitOps} {BL : BitLaws}.

(** Lists with bounds and no node. *)
Definition vacant (l : sub_free_list) : Prop :=
  block_free_tree l = empty_rtree /\ first_node l = None /\ last_node l = None
  /\ num_blocknode l = 0 /\ num_free_blocks l = 0.

Lemma init_lists_recovery sbi i ls :
  init_lists sbi true i ls = Some (imap (fun k fl => nova_init_free_list sbi fl (i + Z.of_nat k)) ls).
Proof.
  revert i. induction ls as [|fl ls IH]; intros i; [done|]. cbn [init_lists init_one].
  unfold init_one. rewrite IH. cbn [fmap option_fmap option_map]. f_equal. cbn [imap]. f_equal; [f_equal; lia|].
  apply imap_ext. intros k x _. cbn [compose]. f_equal. lia.
Qed.

Lemma init_free_list_vacant sbi c i meta :
  vacant (sub_list meta (nova_init_free_list sbi (FreeListRec c zero_sub_free_list zero_sub_free_list) i)).
Proof.
  unfold nova_init_free_list, nova_data_csum_init_free_list.
  destruct (i =? 0), (i =? cpus sbi - 1), meta; done.
Qed.

(** What [nova_init_blockmap(sb, 1)] leaves. *)
Definition fresh_lists (sbi : nova_sb_info) : list free_list :=
  imap (fun k fl => nova_init_free_list sbi fl (Z.of_nat k)) (nova_alloc_block_free_lists sbi).

Lemma init_blockmap_recovery sbi : 0 < cpus sbi ->
  nova_init_blockmap sbi (nova_alloc_block_free_lists sbi) true
  = Some (with_shares sbi, fresh_lists (with_shares sbi)).
Proof.
  intros Hc. unfold nova_init_blockmap. rewrite (proj2 (Z.leb_gt _ _)) by lia. cbv zeta.
  change (set_per_meta_list_blocks _ _) with (with_shares sbi).
  by rewrite init_lists_recovery.
Qed.

Lemma fresh_length sbi : length (fresh_lists sbi) = Z.to_nat (cpus sbi).
Proof.
  unfold fresh_lists. rewrite length_imap. unfold nova_alloc_block_free_lists.
  by rewrite length_fmap, length_seq.
Qed.

Lemma fresh_at sbi i fl : fresh_lists sbi !! i = Some fl ->
  fl = nova_init_free_list sbi (FreeListRec (Z.of_nat i) zero_sub_free_list zero_sub_free_list) (Z.of_nat i)
  /\ 0 <= Z.of_nat i < cpus sbi.
Proof.
  intros Hi. pose proof (lookup_lt_Some _ _ _ Hi) as Hl. rewrite fresh_length in Hl.
  unfold fresh_lists, nova_alloc_block_free_lists in Hi.
  rewrite list_lookup_imap, list_lookup_fmap, lookup_seq_lt in Hi by lia. simpl in Hi. split; [congruence|lia].
Qed.

(** The bounds are those after mkfs. *)
Lemma fresh_bounds sbi i fl meta :
  geometry sbi -> shares_set sbi -> fresh_lists sbi !! i = Some fl ->
  share sbi meta * Z.of_nat i <= block_start (sub_list meta fl) <= block_end (sub_list meta fl)
  /\ block_end (sub_list meta fl) < share sbi meta * (Z.of_nat i + 1) < TWO31
  /\ forall fl', list_ready sbi (Z.of_nat i) fl' ->
       block_start (sub_list meta fl') = block_start (sub_list meta fl)
       /\ block_end (sub_list meta fl') = block_end (sub_list meta fl).
Proof.
  intros Hg [HD HM] Hi. destruct (fresh_at _ _ _ Hi) as [-> Hr].
  destruct (init_free_list_bounds sbi (FreeListRec (Z.of_nat i) zero_sub_free_list zero_sub_free_list)
              (Z.of_nat i) Hg Hr HD HM) as (B1&B2&B3&B4&B5&B6&_&_).
  set (fl := nova_init_free_list _ _ _) in *. clearbody fl.
  pose proof (ge_data _ Hg) as Hd. pose proof (ge_data_max _ Hg) as Hdm. rewrite <- HD in Hd, Hdm.
  pose proof (ge_meta _ Hg) as Hm. pose proof (ge_meta_max _ Hg) as Hmm. rewrite <- HM in Hm, Hmm.
  pose proof (ge_res _ Hg) as [Hh Ht]. destruct (ge_size _ Hg) as [Hsz _].
  pose proof (csum_share_nonneg sbi ltac:(lia) ltac:(lia)) as Hcs.
  assert (0 <= meta_head sbi (Z.of_nat i) <= head_reserved_blocks sbi) by (unfold meta_head; case_match; lia).
  assert (0 <= meta_tail sbi (Z.of_nat i) <= tail_reserved_blocks sbi) by (unfold meta_tail; case_match; lia).
  destruct meta; cbn [sub_list share].
  - rewrite B5, B6. split_and!; [lia|lia|lia|nia|].
    intros fl' Hrd. pose proof (rd_meta_start _ _ _ Hrd). pose proof (rd_csum _ _ _ Hrd).
    pose proof (rd_meta_end _ _ _ Hrd). simpl. lia.
  - rewrite B1, B2. split_and!; [lia|nia|nia|nia|].
    intros fl' Hrd. pose proof (rd_data_start _ _ _ Hrd). pose proof (rd_data_end _ _ _ Hrd). simpl. lia.
Qed.

Lemma fresh_in_order sbi bsize meta :
  geometry sbi -> shares_set sbi -> share sbi meta * cpus sbi <= bsize ->
  in_order bsize meta (fresh_lists sbi).
Proof.
  intros Hg Hsh Hfit. split.
  - intros i fl Hi. destruct (fresh_bounds _ _ _ meta Hg Hsh Hi) as (? & ? & _).
    destruct (fresh_at _ _ _ Hi) as [_ ?]. nia.
  - intros i j fl fl' Hij Hi Hj. destruct (fresh_bounds _ _ _ meta Hg Hsh Hi) as (? & ? & _).
    destruct (fresh_bounds _ _ _ meta Hg Hsh Hj) as (? & ? & _). nia.
Qed.

Lemma fresh_built sbi bits meta :
  geometry sbi -> shares_set sbi ->
  built bits meta (passed 0 0) (fresh_lists sbi) (fresh_lists sbi).
Proof.
  intros Hg Hsh. split; [done|]. intros i fl0 fl H0 Hi. assert (fl0 = fl) as -> by congruence.
  destruct (fresh_bounds _ _ _ meta Hg Hsh Hi) as (? & ? & _).
  destruct (fresh_at _ _ _ Hi) as [E ?].
  assert (Hv : vacant (sub_list meta fl)) by (rewrite E; apply init_free_list_vacant).
  destruct Hv as (? & ? & ? & ? & ?).
  destruct (empty_list_wf (sub_list meta fl)) as [Hw Hn]; try done; [nia|nia|].
  split_and!; [done|done|done|]. intros x. specialize (Hn x). unfold passed. split; [done|].
  intros (Hx & [?|[-> ?]] & _); [lia|]. nia.
Qed.

(** Building one kind of list leaves the other as it was. *)
Lemma built_other_order bits bsize meta P ls ls' :
  built bits meta P ls ls' -> in_order bsize (negb meta) ls -> in_order bsize (negb meta) ls'.
Proof.
  intros Hb Hio.
  assert (Hat : forall i fl', ls' !! i = Some fl' -> exists fl, ls !! i = Some fl
    /\ sub_list (negb meta) fl' = sub_list (negb meta) fl).
  { intros i fl' Hi. destruct (lookup_lt_is_Some_2 ls i) as [fl H0].
    { rewrite <- (bt_len _ _ _ _ _ Hb). by eapply lookup_lt_Some. }
    exists fl. split; [done|]. by destruct (bt_list _ _ _ _ _ Hb _ _ _ H0 Hi) as (_ & _ & ? & _). }
  split.
  - intros i fl' Hi. destruct (Hat _ _ Hi) as (fl & H0 & ->). by apply (io_list _ _ _ Hio i).
  - intros i j fl1 fl2 Hij H1 H2. destruct (Hat _ _ H1) as (g1 & G1 & ->), (Hat _ _ H2) as (g2 & G2 & ->).
    by apply (io_next _ _ _ Hio i j).
Qed.

Lemma built_other_start bits meta P Q ls ls' :
  built bits meta P ls ls' -> built bits (negb meta) Q ls ls -> built bits (negb meta) Q ls' ls'.
Proof.
  intros Hb Hq. split; [done|]. intros i fl0 fl H0 Hi. assert (fl0 = fl) as -> by congruence.
  destruct (lookup_lt_is_Some_2 ls i) as [g Hg].
  { rewrite <- (bt_len _ _ _ _ _ Hb). by eapply lookup_lt_Some. }
  destruct (bt_list _ _ _ _ _ Hb _ _ _ Hg Hi) as (_ & _ & E & _).
  destruct (bt_list _ _ _ _ _ Hq _ _ _ Hg Hg) as (Hw & _ & _ & Hf). rewrite E.
  split_and!; [done|done|done|exact Hf].
Qed.

(** Merging. *)
Lemma merged_bits (bms : list scan_bitmap) (acc : gset Z) x :
  x ∈ foldl (fun dst bm => bitmap (scan_bm_4K bm) ∪ dst) acc bms
  <-> x ∈ acc \/ exists bm, bm ∈ bms /\ x ∈ bitmap (scan_bm_4K bm).
Proof.
  revert acc. induction bms as [|bm bms IH]; intros acc; cbn [foldl].
  - set_solver.
  - rewrite IH. set_solver.
Qed.

Lemma expand_all bms :
  Forall bm_ok bms ->
  exists bms', mapM expand_bm bms = Some bms'
    /\ forall x, (exists bm, bm ∈ bms' /\ x ∈ bitmap (scan_bm_4K bm)) <-> exists bm, bm ∈ bms /\ marked bm x.
Proof.
  intros Hok. induction Hok as [|bm bms Hbm _ (bms' & E & Hx)].
  { exists []. split; [done|]. intros x. set_solver. }
  destruct (expand_marks bm Hbm) as (bm' & E' & Hm). exists (bm' :: bms'). split.
  { cbn [mapM]. rewrite E'. cbn [mbind option_bind]. by rewrite E. }
  intros x. specialize (Hx x). pose proof (mk_bits _ _ _ Hm x) as Hb. split.
  - intros (b & [->|Hin]%elem_of_cons & Hb').
    + exists bm. split; [left|]. unfold marked. tauto.
    + destruct (proj1 Hx) as (b' & ? & ?); [by exists b|]. exists b'. split; [by right|done].
  - intros (b & [->|Hin]%elem_of_cons & Hb').
    + exists bm'. split; [left|]. unfold marked in Hb'. tauto.
    + destruct (proj2 Hx) as (b' & ? & ?); [by exists b|]. exists b'. split; [by right|done].
Qed.
End fresh.
