(* ===== verification/Recovery.v ===== *)
(** Failure recovery, the scan (bbuild.c): after every mount each CPU walks the
    inodes of its table, marks the blocks they use in its bitmap and enters
    their numbers in its map of inode numbers.

    A thread is an [RM] computation: a [PM] computation over what it changes in
    DRAM (the [SM] below).  [None] stands for [BUG()], an access outside an array, the use of an
    unset variable or a walk that ran out of fuel.  The threads of different
    CPUs change different bitmaps, rings and maps; each is one computation.  The
    inode a thread looks at is a copy in DRAM ([fake_pi]): the stores to it
    change nothing in persistent memory. *)

From S2P Require Import Prelude.
From S2P Require Import Kernel.
From S2P Require Import Checksum.
From S2P Require Import RangeTree.
From S2P Require Import Layout.
From S2P Require Import FreeList.
From S2P Require Import Balloc.
From S2P Require Import Pmem.
From S2P Require Import Journal.
From S2P Require Import InodeLog.
From S2P Require Import InodeMap.
From S2P Require Import DataGuard.
From S2P Require Import Replica.
From S2P Require Import InodeTable.
From S2P Require Import ScanBitmap.

Definition MAX_PGOFF : Z := 262144.
Definition RING_SIZE : Z := 512.

(** [struct task_ring]: the inode superpages of a CPU, and for each page of
    the window of a file its write entry and its block (0: none). *)
Record task_ring := TaskRing {
  addr0 : gmap Z Z;
  addr1 : gmap Z Z;
  num : Z;
  inodes_used_count : Z;
  entry_array : gmap Z Z;
  nvmm_array : gmap Z Z
}.

Definition slot (a : gmap Z Z) (i : Z) : Z := default 0 (a !! i).

(** The fields of the inode header recovery uses. *)
Record scan_header := ScanHeader {
  sc_i_size : Z;
  sc_ino : Z;
  sc_i_mode : Z;
  sc_i_blk_type : Z;
  sc_trans_id : Z
}.
(** [nova_init_header]. *)
Definition nova_init_header (i_mode : Z) : scan_header :=
  ScanHeader 0 0 i_mode NOVA_BLOCK_TYPE_4K 0.

(** What a thread changes in DRAM. *)
Record rstate := RState {
  rs_bm : scan_bitmap;
  rs_ring : task_ring;
  rs_sih : scan_header;
  rs_maps : ino_state
}.

(** [PM] computations over a state in DRAM. *)
Definition SM (S A : Type) : Type := S -> PM (option (A * S)).
Abbreviation RM := (SM rstate).

#[export] Instance sm_ret {S} : MRet (SM S) := fun A x st => mret (Some (x, st)).
#[export] Instance sm_bind {S} : MBind (SM S) := fun A B f x st =>
  r ← x st;
  match r with
  | None => mret None
  | Some (a, st') => f a st'
  end.
Definition bug {S A} : SM S A := fun _ => mret None.
Definition mem_op {S A} (x : PM A) : SM S A := fun st => a ← x; mret (Some (a, st)).
Definition mem_opt {S A} (x : PM (option A)) : SM S A :=
  fun st => r ← x; mret (match r with Some a => Some (a, st) | None => None end).
Definition get_state {S} : SM S S := fun st => mret (Some (st, st)).
Definition put_ring (r : task_ring) : RM () :=
  fun st => mret (Some ((), RState (rs_bm st) r (rs_sih st) (rs_maps st))).
Definition put_sih (h : scan_header) : RM () :=
  fun st => mret (Some ((), RState (rs_bm st) (rs_ring st) h (rs_maps st))).
(** [set_bm(bit, bm, BM_4K)]. *)
Definition set_4K (bit : Z) : RM () :=
  fun st => mret ((fun bm => ((), RState bm (rs_ring st) (rs_sih st) (rs_maps st)))
                    <$> set_bm bit (rs_bm st) BM_4K).

Definition set_i_size (v : Z) (h : scan_header) : scan_header :=
  ScanHeader v (sc_ino h) (sc_i_mode h) (sc_i_blk_type h) (sc_trans_id h).
Definition set_trans_id (v : Z) (h : scan_header) : scan_header :=
  ScanHeader (sc_i_size h) (sc_ino h) (sc_i_mode h) (sc_i_blk_type h) v.
Definition set_inode (ino i_mode : Z) (h : scan_header) : scan_header :=
  ScanHeader (sc_i_size h) ino i_mode (sc_i_blk_type h) (sc_trans_id h).

(** A store to both arrays. *)
Definition set_slot (i entry nvmm : Z) (r : task_ring) : task_ring :=
  TaskRing (addr0 r) (addr1 r) (num r) (inodes_used_count r)
    (<[i := entry]> (entry_array r)) (<[i := nvmm]> (nvmm_array r)).
Definition count_inode (r : task_ring) : task_ring :=
  TaskRing (addr0 r) (addr1 r) (num r) (s32 (inodes_used_count r + 1))
    (entry_array r) (nvmm_array r).

(** The fields of [struct nova_inode] and of the log entries, from their
    words. *)
Record fake_pi := FakePi {
  pi_valid : Z; pi_deleted : Z; pi_i_blk_type : Z; pi_i_mode : Z;
  pi_nova_ino : Z; pi_log_head : Z; pi_log_tail : Z; pi_alter_log_head : Z
}.
Definition byte (w i : Z) : Z := u8 (Z.shiftr w (8 * i)).
Definition half (w i : Z) : Z := Z.shiftr w (16 * i) mod 65536.
Definition hi32 (w : Z) : Z := u32 (Z.shiftr w 32).
Definition decode_inode (ws : list Z) : fake_pi :=
  let w i := nth i ws 0 in
  FakePi (byte (w 0%nat) 1) (byte (w 0%nat) 2) (byte (w 0%nat) 3) (half (w 3%nat) 2)
    (w 7%nat) (w 8%nat) (w 9%nat) (w 10%nat).
Definition set_pi_tail (v : Z) (pi : fake_pi) : fake_pi :=
  FakePi (pi_valid pi) (pi_deleted pi) (pi_i_blk_type pi) (pi_i_mode pi) (pi_nova_ino pi)
    (pi_log_head pi) v (pi_alter_log_head pi).

Record write_entry := WriteEntry {
  we_num_pages : Z; we_blocknr : Z; we_pgoff : Z; we_invalid_pages : Z;
  we_size : Z; we_trans_id : Z
}.
Definition WENTRY (ws : list Z) : write_entry :=
  let w i := nth i ws 0 in
  WriteEntry (hi32 (w 0%nat)) (w 1%nat) (w 2%nat) (u32 (w 3%nat)) (w 4%nat) (w 6%nat).
(** [entry->size] of a [struct nova_setattr_logentry]. *)
Definition setattr_size (ws : list Z) : Z := nth 3 ws 0.
Definition ENTRY_WORDS : nat := 8.

Definition S_IFMT : Z := 0xF000.
Definition S_IFDIR : Z := 0x4000.

Section scan.
Context {RB : RbOps} {KM : KmemOps} {CR : CrcOps} {MP : ModParams}.
Context (sbi : nova_sb_info).

(** ** The pages of a log *)

(** [BUG_ON(curr_p & (PAGE_SIZE - 1))] and the mark of a page. *)
Definition mark_page (curr_p : Z) : RM () :=
  if Z.land curr_p (PAGE_SIZE - 1) =? 0 then set_4K (Z.shiftr curr_p PAGE_SHIFT) else bug.

Fixpoint pages_loop (fuel : nat) (next : Z) : RM () :=
  if next <=? 0 then mret ()
  else
    match fuel with
    | O => bug
    | S fuel' =>
        mark_page next;;
        next ← mem_op (next_log_page sbi next);
        pages_loop fuel' next
    end.

Definition nova_traverse_inode_log (fuel : nat) (head : Z) : RM () :=
  if head =? 0 then mret ()
  else
    mark_page head;;
    next ← mem_op (next_log_page sbi head);
    pages_loop fuel next.

Definition nova_traverse_dir_inode_log (fuel : nat) (pi : fake_pi) : RM () :=
  nova_traverse_inode_log fuel (pi_log_head pi);;
  if metadata_csum then nova_traverse_inode_log fuel (pi_alter_log_head pi) else mret ().

(** ** The blocks of a file *)

Definition get_nvmm (i_blk_type : Z) (e : write_entry) (pgoff : Z) : Z :=
  u64 (we_blocknr e + u64 (pgoff - we_pgoff e) * nova_get_numblocks i_blk_type).

(** The verified copy of the entry at [entry]: [None] when it is corrupt. *)
Definition verified (entry : Z) : RM (option (list Z)) :=
  if negb metadata_csum then ws ← mem_op (load_words entry ENTRY_WORDS); mret (Some ws)
  else
    r ← mem_opt (nova_verify_entry_csum sbi entry);
    match r with
    | (true, Some bs) => mret (Some (words_of bs))
    | _ => mret None
    end.

(** The loop of [nova_check_old_entry] over [n] slots. *)
Fixpoint mark_slots (n : nat) (index : Z) : RM () :=
  match n with
  | O => mret ()
  | S n' =>
      if MAX_PGOFF <=? index then bug
      else
        st ← get_state;
        let nvmm := slot (nvmm_array (rs_ring st)) index in
        (if nvmm =? 0 then mret () else set_4K nvmm);;
        mark_slots n' (u64 (index + 1))
  end.

Definition nova_check_old_entry (entry_addr pgoff num_free base : Z) : RM () :=
  if entry_addr =? 0 then mret ()
  else
    e ← verified entry_addr;
    match e with
    | None => mret ()
    | Some _ => mark_slots (Z.to_nat num_free) (u64 (pgoff - base))
    end.

(** The first loop of [nova_set_ring_array] and [nova_ring_setattr_entry] over
    [n] pages: the blocks about to be dropped, grouped by entry, are marked. *)
Fixpoint mark_replaced (n : nat) (pgoff base old_entry old_pgoff num_free : Z) : RM () :=
  match n with
  | O =>
      if old_entry =? 0 then mret () else nova_check_old_entry old_entry old_pgoff num_free base
  | S n' =>
      let index := u64 (pgoff - base) in
      if MAX_PGOFF <=? index then bug
      else
        st ← get_state;
        if slot (nvmm_array (rs_ring st)) index =? 0 then
          mark_replaced n' (u64 (pgoff + 1)) base old_entry old_pgoff num_free
        else
          let entry := slot (entry_array (rs_ring st)) index in
          if negb (entry =? old_entry) then
            (if old_entry =? 0 then mret ()
             else nova_check_old_entry old_entry old_pgoff num_free base);;
            mark_replaced n' (u64 (pgoff + 1)) base entry pgoff 1
          else
            mark_replaced n' (u64 (pgoff + 1)) base old_entry old_pgoff (u32 (num_free + 1))
  end.

(** The second loop: [n] slots from [pgoff] get the values [f pgoff]. *)
Fixpoint fill_slots (n : nat) (pgoff base : Z) (f : Z -> Z * Z) : RM () :=
  match n with
  | O => mret ()
  | S n' =>
      let index := u64 (pgoff - base) in
      if MAX_PGOFF <=? index then bug
      else
        st ← get_state;
        put_ring (set_slot index (f pgoff).1 (f pgoff).2 (rs_ring st));;
        fill_slots n' (u64 (pgoff + 1)) base f
  end.

(** [entry] is the address of the entry, [entryc] its verified copy. *)
Definition nova_set_ring_array (entry : Z) (entryc : write_entry) (base : Z) : RM () :=
  let start := if we_pgoff entryc <? base then base else we_pgoff entryc in
  let fin := u64 (we_pgoff entryc + we_num_pages entryc) in
  let fin := if base + MAX_PGOFF <? fin then base + MAX_PGOFF else fin in
  let n := Z.to_nat (fin - start) in
  mark_replaced n start base 0 0 0;;
  ws ← mem_op (load_words entry ENTRY_WORDS);
  st ← get_state;
  fill_slots n start base (fun pgoff => (entry, get_nvmm (sc_i_blk_type (rs_sih st)) (WENTRY ws) pgoff)).

Fixpoint file_bm_loop (n : nat) (pgoff : Z) : RM () :=
  match n with
  | O => mret ()
  | S n' =>
      if MAX_PGOFF <=? pgoff then bug
      else
        st ← get_state;
        let nvmm := slot (nvmm_array (rs_ring st)) pgoff in
        (if nvmm =? 0 then mret ()
         else set_4K nvmm;; st ← get_state; put_ring (set_slot pgoff 0 0 (rs_ring st)));;
        file_bm_loop n' (pgoff + 1)
  end.

Definition nova_set_file_bm (base last_blocknr : Z) : RM () :=
  let last_blocknr :=
    if base + MAX_PGOFF <=? last_blocknr then MAX_PGOFF - 1 else u64 (last_blocknr - base) in
  file_bm_loop (Z.to_nat (last_blocknr + 1)) 0.

(** [size] is that of the entry. *)
Definition nova_ring_setattr_entry (size base data_bits : Z) : RM () :=
  st ← get_state;
  let i_size := sc_i_size (rs_sih st) in
  (if i_size <=? size then mret ()
   else
     let first_blocknr := Z.shiftr (u64 (size + Z.shiftl 1 data_bits - 1)) data_bits in
     let last_blocknr := if 0 <? s64 i_size then Z.shiftr (s64 i_size - 1) data_bits else 0 in
     if last_blocknr <? first_blocknr then mret ()
     else
       let first_blocknr := if first_blocknr <? base then base else first_blocknr in
       let last_blocknr := if base + MAX_PGOFF - 1 <? last_blocknr
                           then base + MAX_PGOFF - 1 else last_blocknr in
       let n := Z.to_nat (last_blocknr + 1 - first_blocknr) in
       mark_replaced n first_blocknr base 0 0 0;;
       fill_slots n first_blocknr base (fun _ => (0, 0)));;
  st ← get_state;
  put_sih (set_i_size size (rs_sih st)).

Definition nova_traverse_file_write_entry (entry : Z) (entryc : write_entry) (base : Z) : RM Z :=
  st ← get_state;
  put_sih (set_i_size (we_size entryc) (rs_sih st));;
  if we_num_pages entryc =? we_invalid_pages entryc then mret 0
  else
    (if (we_pgoff entryc <? base + MAX_PGOFF)
        && (base <? u64 (we_pgoff entryc + we_num_pages entryc))
     then nova_set_ring_array entry entryc base else mret ());;
    mret (u64 (we_pgoff entryc + we_num_pages entryc - 1)).

(** [ls] are the free lists, which hold the addresses of the data checksums;
    [kmalloc block] is the outcome of the allocation of a stripe buffer. *)
Context (ls : list free_list) (kmalloc : Z -> bool).

(** The loop over [n] pages, the next is [i]; the return value is that of the
    last check. *)
Fixpoint valid_csum_loop (n : nat) (i : Z) (e : write_entry) (ret : option bool) : RM bool :=
  match n with
  | O => match ret with Some r => mret r | None => bug end
  | S n' =>
      st ← get_state;
      let h := rs_sih st in
      let nvmm := get_nvmm (sc_i_blk_type h) e (u64 (we_pgoff e + i)) in
      ret ← mem_opt (nova_verify_data_csum sbi ls kmalloc (sc_i_blk_type h) nvmm
                       (blk_type_to_size (sc_i_blk_type h)));
      if negb (ret : bool) then mret ret else valid_csum_loop n' (i + 1) e (Some ret)
  end.
Definition nova_vaild_data_csum (e : write_entry) : RM bool :=
  valid_csum_loop (Z.to_nat (we_num_pages e)) 0 e None.

(** The stores to the inode log: 4 bytes and their cache line. *)
Definition nova_clear_file_entry_data_blocks (entry : Z) (e : write_entry) (base : Z) : RM () :=
  fill_slots (Z.to_nat (u64 (we_pgoff e + we_num_pages e) - we_pgoff e)) (we_pgoff e) base
    (fun _ => (0, 0));;
  mem_op (store32_lo (entry + 24) (we_num_pages e);; nova_flush_buffer (entry + 24) 4 false).

(** The entry behind [curr_p]; a page entered is marked in the first pass. *)
Definition next_entry (mark : bool) (curr_p : Z) : RM Z :=
  next ← mem_op (goto_next_page sbi curr_p);
  if (next : bool) then
    curr_p ← mem_op (next_log_page sbi curr_p);
    (if mark then mark_page curr_p else mret ());;
    mret curr_p
  else mret curr_p.

Definition entry_kind (code : Z) : option nova_entry_type :=
  match entry_type_of code with
  | Some SET_ATTR => Some SET_ATTR
  | Some LINK_CHANGE => Some LINK_CHANGE
  | Some FILE_WRITE => Some FILE_WRITE
  | Some MMAP_WRITE => Some MMAP_WRITE
  | _ => None
  end.

(** What the main loop carries: the position, the last page of the file and
    the first entry of the latest transaction, once there is one. *)
Record walk_state := WalkState { wk_curr : Z; wk_last : Z; wk_trans : option Z }.

(** The first [while (true)]; [None] is [return 0] at a corrupt entry. *)
Fixpoint file_log_loop (fuel : nat) (base data_bits : Z) (w : walk_state)
    : RM (option walk_state) :=
  match fuel with
  | O => bug
  | S fuel' =>
      curr_p ← next_entry (base =? 0) (wk_curr w);
      if curr_p =? 0 then bug
      else
        let entry := meta_addr sbi curr_p in
        e ← verified entry;
        match e with
        | None => mret None
        | Some ws =>
            match entry_kind (byte (nth 0 ws 0) 0) with
            | Some SET_ATTR =>
                nova_ring_setattr_entry (setattr_size ws) base data_bits;;
                file_log_loop fuel' base data_bits
                  (WalkState (u64 (curr_p + nova_get_log_entry_size SET_ATTR))
                     (wk_last w) (wk_trans w))
            | Some FILE_WRITE =>
                st ← get_state;
                trans_curr ←
                  (if we_trans_id (WENTRY ws) =? sc_trans_id (rs_sih st) then mret (wk_trans w)
                   else
                     nv ← mem_op (load_words entry ENTRY_WORDS);
                     put_sih (set_trans_id (we_trans_id (WENTRY nv)) (rs_sih st));;
                     mret (Some curr_p));
                curr_last ← nova_traverse_file_write_entry entry (WENTRY ws) base;
                file_log_loop fuel' base data_bits
                  (WalkState (u64 (curr_p + nova_get_log_entry_size FILE_WRITE))
                     (if wk_last w <? curr_last then curr_last else wk_last w) trans_curr)
            | Some ty =>
                file_log_loop fuel' base data_bits
                  (WalkState (u64 (curr_p + nova_get_log_entry_size ty)) (wk_last w) (wk_trans w))
            | None => mret (Some (WalkState curr_p (wk_last w) (wk_trans w)))
            end
        end
  end.

(** The loops over the entries of the latest transaction, from [tmp] to
    [curr_p]: is some block corrupt? *)
Fixpoint trans_check_loop (fuel : nat) (tmp curr_p : Z) : RM bool :=
  if tmp =? curr_p then mret false
  else
    match fuel with
    | O => bug
    | S fuel' =>
        tmp ← next_entry false tmp;
        ws ← mem_op (load_words (meta_addr sbi tmp) ENTRY_WORDS);
        match entry_kind (byte (nth 0 ws 0) 0) with
        | Some FILE_WRITE =>
            ok ← nova_vaild_data_csum (WENTRY ws);
            if negb (ok : bool) then mret true
            else trans_check_loop fuel' (u64 (tmp + nova_get_log_entry_size FILE_WRITE)) curr_p
        | Some ty => trans_check_loop fuel' (u64 (tmp + nova_get_log_entry_size ty)) curr_p
        | None => mret false
        end
    end.

(** ... and their removal. *)
Fixpoint trans_clear_loop (fuel : nat) (tmp curr_p base : Z) : RM () :=
  if tmp =? curr_p then mret ()
  else
    match fuel with
    | O => bug
    | S fuel' =>
        tmp ← next_entry false tmp;
        let entry := meta_addr sbi tmp in
        ws ← mem_op (load_words entry ENTRY_WORDS);
        match entry_kind (byte (nth 0 ws 0) 0) with
        | Some FILE_WRITE =>
            nova_clear_file_entry_data_blocks entry (WENTRY ws) base;;
            trans_clear_loop fuel' (u64 (tmp + nova_get_log_entry_size FILE_WRITE)) curr_p base
        | Some ty => trans_clear_loop fuel' (u64 (tmp + nova_get_log_entry_size ty)) curr_p base
        | None => mret ()
        end
    end.

(** [sih->ckpt_id] is -1: checkpoints are not built. *)
Definition NO_CKPT : Z := TWO64 - 1.

(** The latest transaction of the file is dropped when a block of it is
    corrupt. *)
Definition check_last_trans (fuel : nat) (base : Z) (w : walk_state) : RM () :=
  st ← get_state;
  if sc_trans_id (rs_sih st) =? NO_CKPT then mret ()
  else
    match wk_trans w with
    | None => bug                                 (* [trans_curr] is not set *)
    | Some trans_curr =>
        invalid ← trans_check_loop fuel trans_curr (wk_curr w);
        if (invalid : bool) then trans_clear_loop fuel trans_curr (wk_curr w) base else mret ()
    end.

(** One pass over the log and what follows it, for the window of pages at
    [base]; [None]: the function returns. *)
Definition file_log_pass (fuel : nat) (pi : fake_pi) (base last_blocknr : Z) (trans : option Z)
    : RM (option (fake_pi * walk_state)) :=
  let curr_p := pi_log_head pi in
  if (curr_p =? 0) || (pi_log_tail pi =? 0) then mret None
  else
    (if base =? 0 then mark_page curr_p else mret ());;
    w ← file_log_loop fuel base (blk_type_to_shift (pi_i_blk_type pi))
          (WalkState curr_p last_blocknr trans);
    match w with
    | None => mret None
    | Some w =>
        let pi := if wk_curr w =? pi_log_tail pi then pi else set_pi_tail (wk_curr w) pi in
        check_last_trans fuel base w;;
        (if base =? 0 then
           next ← mem_op (next_log_page sbi (BLOCK_OFF (wk_curr w)));
           pages_loop fuel next
         else mret ());;
        nova_set_file_bm base (wk_last w);;
        mret (Some (pi, w))
    end.

(** The passes, until the last page of the file is inside the window. *)
Fixpoint file_log_passes (passes fuel : nat) (pi : fake_pi) (base last_blocknr : Z)
    (trans : option Z) : RM () :=
  match passes with
  | O => bug
  | S passes' =>
      r ← file_log_pass fuel pi base last_blocknr trans;
      match r with
      | None => mret ()
      | Some (pi, w) =>
          if base + MAX_PGOFF <=? wk_last w then
            file_log_passes passes' fuel pi (u64 (base + MAX_PGOFF)) (wk_last w) (wk_trans w)
          else mret ()
      end
  end.

Definition nova_traverse_file_inode_log (passes fuel : nat) (pi : fake_pi) : RM () :=
  (if metadata_csum then nova_traverse_inode_log fuel (pi_alter_log_head pi) else mret ());;
  file_log_passes passes fuel pi 0 0 None.

Definition nova_recover_inode_pages (passes fuel : nat) (pi : fake_pi) : RM () :=
  if pi_deleted pi =? 1 then mret ()
  else
    st ← get_state;
    put_ring (count_inode (rs_ring st));;
    put_sih (set_inode (pi_nova_ino pi) (pi_i_mode pi) (rs_sih st));;
    if Z.land (pi_i_mode pi) S_IFMT =? S_IFDIR then nova_traverse_dir_inode_log fuel pi
    else nova_traverse_file_inode_log passes fuel pi.

(** ** Inode numbers *)

(** [None] stands for [BUG()]. *)
Definition nova_failure_insert_inodetree (st : ino_state) (ino_low ino_high : Z)
    : option (Z * ino_state) :=
  if ino_high <? ino_low then None
  else if cpus sbi =? 0 then None
  else
    let cpu := s32 (ino_low mod cpus sbi) in
    if negb (ino_high mod cpus sbi =? u64 cpu) then None
    else
      let internal_low := ino_low / cpus sbi in
      let internal_high := ino_high / cpus sbi in
      im ← map_at st cpu;
      let T := inode_inuse_tree im in
      let '(ret, prev, next) := nova_find_free_slot T internal_low internal_high in
      if negb (ret =? 0) then Some (ret, st)
      else
        let hits_prev :=
          match prev with
          | Some p => internal_low =? u64 (range_high (deref T p) + 1)
          | None => false
          end in
        let hits_next :=
          match next with
          | Some n => u64 (internal_high + 1) =? range_low (deref T n)
          | None => false
          end in
        let len := u64 (internal_high - internal_low + 1) in
        match prev, next, hits_prev, hits_next with
        | Some p, Some n, true, true =>
            (* fits the hole *)
            let T := rb_erase_node n T in
            let T := store_node p (set_high (range_high (deref T n))) T in
            Some (ret, store_map cpu
                         (set_tree (nova_free_inode_node n T) (add_range_nodes (-1) im)) st)
        | Some p, _, true, _ =>
            (* aligns left *)
            Some (ret, store_map cpu
                         (set_tree (store_node p (fun n => set_high (u64 (range_high n + len)) n) T) im) st)
        | _, Some n, _, true =>
            (* aligns right *)
            Some (ret, store_map cpu
                         (set_tree (store_node n (fun n => set_low (u64 (range_low n - len)) n) T) im) st)
        | _, _, _, _ =>
            (* aligns somewhere in the middle *)
            match nova_alloc_inode_node T with
            | None => None
            | Some (new_node, T) =>
                let T := store_node new_node
                           (fun n => set_high internal_high (set_low internal_low n)) T in
                let '(ret, im) := nova_insert_inodetree (set_tree T im) new_node in
                if negb (ret =? 0) then
                  Some (ret, store_map cpu
                               (set_tree (nova_free_inode_node new_node (inode_inuse_tree im)) im) st)
                else Some (ret, store_map cpu (add_range_nodes 1 im) st)
            end
        end.

(** The pair [*ino_low], [*ino_high] and the maps. *)
Definition nova_failure_update_inodetree (st : ino_state) (nova_ino : Z) (low_high : Z * Z)
    : option ((Z * Z) * ino_state) :=
  let '(ino_low, ino_high) := low_high in
  if ino_low =? 0 then Some ((nova_ino, nova_ino), st)
  else if nova_ino =? u64 (ino_high + cpus sbi) then Some ((ino_low, nova_ino), st)
  else
    '(_, st) ← nova_failure_insert_inodetree st ino_low ino_high;
    Some ((nova_ino, nova_ino), st).

Definition map_op {A} (f : ino_state -> option (A * ino_state)) : RM A :=
  fun st => mret ((fun r => (r.1, RState (rs_bm st) (rs_ring st) (rs_sih st) r.2)) <$> f (rs_maps st)).

(** ** A thread *)

(** The marks of a superpage of inodes. *)
Fixpoint mark_superpage (n : nat) (blocknr : Z) : RM () :=
  match n with
  | O => mret ()
  | S n' => set_4K blocknr;; mark_superpage n' (u64 (blocknr + 1))
  end.

(** The epochs of the snapshots, increasing: the keys of
    [sbi->snapshot_info_tree]. *)
Context (snapshots : list Z).

(** [radix_tree_gang_lookup]: the first key from [epoch_id] on. *)
Definition nova_find_target_snapshot_info (epoch_id : Z) : option Z :=
  snd <$> list_find (fun k => epoch_id <= k) snapshots.

Definition nova_old_entry_deleteable (create_epoch_id delete_epoch_id : Z) : Z :=
  if create_epoch_id =? delete_epoch_id then 1
  else
    match nova_find_target_snapshot_info create_epoch_id with
    | None => 1
    | Some info => if delete_epoch_id <=? info then 1 else 0
    end.

(** The answer; the record appended to the list of the snapshot is in DRAM. *)
Definition nova_append_inode_to_snapshot (pi : Z) : PM Z :=
  create_epoch_id ← load (pi + 96);
  delete_epoch_id ← load (pi + off_delete_epoch_id);
  mret (nova_old_entry_deleteable create_epoch_id delete_epoch_id).

(** The body of the loop over the inodes of a superpage; [low_high] is the run
    of numbers not yet entered. *)
Definition scan_inode (passes fuel : nat) (pi_addr : Z) (low_high : Z * Z) : RM (Z * Z) :=
  let pi := meta_addr sbi pi_addr in
  ws ← mem_op (load_words pi NOVA_INODE_WORDS);
  let fake := decode_inode ws in
  if (pi_i_mode fake =? 0) || negb (pi_deleted fake =? 0) then mret low_high
  else
    deletable ← (if pi_valid fake =? 0 then mem_op (nova_append_inode_to_snapshot pi) else mret 0);
    if negb (deletable =? 0) then
      mem_op (store8 (pi + 2) 1);;
      mret low_high
    else
      nova_recover_inode_pages passes fuel fake;;
      nova_ino ← mem_op (load (pi + 56));
      map_op (fun maps => nova_failure_update_inodetree maps nova_ino low_high).

Fixpoint scan_inodes (n : nat) (passes fuel : nat) (pi_addr : Z) (low_high : Z * Z) : RM (Z * Z) :=
  match n with
  | O => mret low_high
  | S n' =>
      low_high ← scan_inode passes fuel pi_addr low_high;
      scan_inodes n' passes fuel (u64 (pi_addr + NOVA_INODE_SIZE)) low_high
  end.

(** One superpage of the table: [n] inodes from [curr]; [curr1] is the superpage
    of the replica. *)
Definition scan_superpage (n passes fuel : nat) (curr curr1 : Z) : RM () :=
  mark_superpage 512 (Z.shiftr curr PAGE_SHIFT);;
  (if metadata_csum then mark_superpage 512 (Z.shiftr curr1 PAGE_SHIFT) else mret ());;
  '(ino_low, ino_high) ← scan_inodes n passes fuel curr (0, 0);
  if (ino_low =? 0) || (ino_high =? 0) then mret ()
  else
    map_op (fun maps => nova_failure_insert_inodetree maps ino_low ino_high);;
    mret ().

Fixpoint scan_table (count : nat) (k : Z) (n passes fuel : nat) : RM () :=
  match count with
  | O => mret ()
  | S count' =>
      st ← get_state;
      scan_superpage n passes fuel (slot (addr0 (rs_ring st)) k) (slot (addr1 (rs_ring st)) k);;
      scan_table count' (k + 1) n passes fuel
  end.

(** The thread up to the release of the radix tree of the header, which
    nothing was put into.  [1 << (data_bits - NOVA_INODE_BITS)] inodes per
    superpage; [data_bits] is that of the inode of the tables. *)
Definition failure_thread_func (passes fuel : nat) : RM () :=
  match nova_get_inode_by_ino sbi NOVA_INODETABLE_INO with
  | None => bug
  | Some pi =>
      i_blk_type ← mem_op (load8 (pi + 3));
      let num_inodes_per_page := Z.shiftl 1 (blk_type_to_shift i_blk_type - NOVA_INODE_BITS) in
      put_sih (nova_init_header 0);;
      st ← get_state;
      scan_table (Z.to_nat (num (rs_ring st))) 0 (Z.to_nat num_inodes_per_page) passes fuel
  end.

(** ** The inode tables *)

(** The walk over the superpages of one table: [count] were found; the check
    of the size of the ring looks at [ring->num], which does not change during
    the walk.  A store behind the array is outside the model. *)
Fixpoint table_loop (fuel : nat) (version curr count : Z) (ring : task_ring)
    : PM (option (Z + Z * task_ring)) :=
  if curr =? 0 then mret (Some (inr (count, ring)))
  else
    match fuel with
    | O => mret None
    | S fuel' =>
        if RING_SIZE <=? num ring then mret (Some (inl (- EINVAL)))
        else if RING_SIZE <=? count then mret None
        else
          let ring :=
            if version =? 0 then
              TaskRing (<[count := curr]> (addr0 ring)) (addr1 ring) (num ring)
                (inodes_used_count ring) (entry_array ring) (nvmm_array ring)
            else
              TaskRing (addr0 ring) (<[count := curr]> (addr1 ring)) (num ring)
                (inodes_used_count ring) (entry_array ring) (nvmm_array ring) in
          curr ← load (u64 (meta_addr sbi curr + (2097152 - 8)));
          table_loop fuel' version curr (s32 (count + 1)) ring
    end.

(** The loop over the versions of the table of [cpuid]. *)
Fixpoint crawl_tables (fuel n : nat) (version cpuid : Z) (ring : task_ring)
    : PM (option (Z + task_ring)) :=
  match n with
  | O => mret (Some (inr ring))
  | S n' =>
      match nova_get_inode_table sbi version cpuid with
      | None => mret (Some (inl (- EINVAL)))
      | Some inode_table =>
          curr ← load inode_table;
          r ← table_loop fuel version curr 0 ring;
          match r with
          | None => mret None
          | Some (inl err) => mret (Some (inl err))
          | Some (inr (count, ring)) =>
              let ring :=
                if num ring <? count then
                  TaskRing (addr0 ring) (addr1 ring) count (inodes_used_count ring)
                    (entry_array ring) (nvmm_array ring)
                else ring in
              crawl_tables fuel n' (version + 1) cpuid ring
          end
      end
  end.

(** The superpages of one CPU. *)
Definition crawl_cpu (fuel : nat) (cpuid : Z) (ring : task_ring) : PM (option (Z + task_ring)) :=
  crawl_tables fuel (if metadata_csum then 2 else 1)%nat 0 cpuid ring.
End scan.
