(* ===== verification/RecoverySpec.v ===== *)
(** The scan of failure recovery: the pages of a log and the blocks of a file
    are marked. *)

From S2P Require Import Prelude.
From S2P Require Import Kernel.
From S2P Require Import Checksum.
From S2P Require Import RangeTree.
From S2P Require Import Layout.
From S2P Require Import FreeList.
From S2P Require Import Balloc.
From S2P Require Import Pmem.
From S2P Require Import PmemSpec.
From S2P Require Import Journal.
From S2P Require Import InodeLog.
From S2P Require Import InodeLogSpec.
From S2P Require Import InodeMap.
From S2P Require Import DataGuard.
From S2P Require Import Replica.
From S2P Require Import InodeTable.
From S2P Require Import ScanBitmap.
From S2P Require Import ScanBitmapSpec.
From S2P Require Import Recovery.

Lemma sm_run {S A B} (x : SM S A) (f : A -> SM S B) st m a st1 t1 r t2 :
  x st m = (Some (a, st1), t1) -> f a st1 (exec t1 m) = (r, t2) -> (x ≫= f) st m = (r, t1 ++ t2).
Proof. intros Hx Hf. unfold mbind, sm_bind. exact (bind_run _ _ m _ t1 _ t2 Hx Hf). Qed.

(** ** Computations that only read persistent memory *)

Definition reads {S A} (x : SM S A) (st : S) (m : mem) (a : A) (st' : S) : Prop :=
  x st m = (Some (a, st'), []).

Lemma reads_ret {S A} (a : A) (st : S) m : reads (mret a) st m a st.
Proof. done. Qed.

Lemma reads_bind {S A B} (x : SM S A) (f : A -> SM S B) st m a st1 b st2 :
  reads x st m a st1 -> reads (f a) st1 m b st2 -> reads (x ≫= f) st m b st2.
Proof.
  unfold reads. intros Hx Hf. unfold mbind, sm_bind.
  exact (bind_run _ _ m _ [] _ [] Hx Hf).
Qed.

Lemma reads_mem {S A} (x : PM A) (st : S) m a : x m = (a, []) -> reads (mem_op x) st m a st.
Proof. intros Hx. unfold reads, mem_op. exact (bind_run _ _ m _ [] _ [] Hx eq_refl). Qed.

Lemma reads_mem_opt {S A} (x : PM (option A)) (st : S) m a :
  x m = (Some a, []) -> reads (mem_opt x) st m a st.
Proof. intros Hx. unfold reads, mem_opt. exact (bind_run _ _ m _ [] _ [] Hx eq_refl). Qed.

Lemma reads_state {S} (st : S) m : reads get_state st m st st.
Proof. done. Qed.

Lemma reads_state_bind {S B} (f : S -> SM S B) st m b st2 :
  reads (f st) st m b st2 -> reads (get_state ≫= f) st m b st2.
Proof. apply reads_bind, reads_state. Qed.

(** The computation goes through a pointer or an index it must not. *)
Definition fails {S A} (x : SM S A) (st : S) (m : mem) : Prop := x st m = (None, []).

Lemma fails_bind {S A B} (x : SM S A) (f : A -> SM S B) st m : fails x st m -> fails (x ≫= f) st m.
Proof.
  unfold fails. intros Hx. unfold mbind, sm_bind. refine (bind_run (x st) _ m None [] None [] Hx eq_refl).
Qed.

Lemma reads_fails {S A B} (x : SM S A) (f : A -> SM S B) st m a st1 :
  reads x st m a st1 -> fails (f a) st1 m -> fails (x ≫= f) st m.
Proof.
  unfold reads, fails. intros Hx Hf. unfold mbind, sm_bind. exact (bind_run _ _ m _ [] _ [] Hx Hf).
Qed.

Lemma fails_state_bind {S B} (f : S -> SM S B) st m : fails (f st) st m -> fails (get_state ≫= f) st m.
Proof. apply reads_fails, reads_state. Qed.

Lemma fails_mem_opt {S A} (x : PM (option A)) (st : S) m : x m = (None, []) -> fails (mem_opt x) st m.
Proof. intros Hx. exact (bind_run x _ m None [] None [] Hx eq_refl). Qed.

(** [rstep] runs the next computation, given what it reads; [fstep] when a later
    one fails. *)
Ltac fstep := eapply reads_fails.

Ltac rstep := eapply reads_bind.

Definition with_bm (bm : scan_bitmap) (st : rstate) : rstate :=
  RState bm (rs_ring st) (rs_sih st) (rs_maps st).
Definition with_ring (r : task_ring) (st : rstate) : rstate :=
  RState (rs_bm st) r (rs_sih st) (rs_maps st).
Definition with_sih (h : scan_header) (st : rstate) : rstate :=
  RState (rs_bm st) (rs_ring st) h (rs_maps st).

(** The 4K bits of a state. *)
Definition nbits (st : rstate) : Z := bits_of (scan_bm_4K (rs_bm st)).

Lemma set_4K_reads bit st m :
  bit < nbits st ->
  exists bm, reads (set_4K bit) st m () (with_bm bm st)
    /\ marks (rs_bm st) (fun x => x = bit) bm.
Proof.
  intros Hb. destruct (set_bm_marks bit (rs_bm st) Hb) as (bm & E & Hm).
  exists bm. split; [|done]. unfold reads, set_4K. by rewrite E.
Qed.

Lemma nbits_marks st P bm : marks (rs_bm st) P bm -> nbits (with_bm bm st) = nbits st.
Proof. apply marks_bits. Qed.

Section scan_spec.
Context {RB : RbOps} {KM : KmemOps} {CR : CrcOps} {MP : ModParams}.
Context (sbi : nova_sb_info) (G : log_geometry sbi).

(** ** The pages of a log *)

(** [p] is the first page of the log with the pages [bs]. *)
Fixpoint page_chain (m : mem) (p : Z) (bs : list Z) : Prop :=
  match bs with
  | [] => p = 0
  | b :: bs => p = b * 4096 /\ page_chain m (cur m (nx sbi b)) bs
  end.

(** A page of a log that the bitmap covers. *)
Definition page_ok (n b : Z) : Prop := log_block b /\ b < n.

Lemma next_page_reads b x (st : rstate) m :
  log_block b -> 0 <= x < 4096 ->
  reads (mem_op (next_log_page sbi (b * 4096 + x))) st m (cur m (nx sbi b)) st.
Proof.
  intros Hb Hx. apply reads_mem. unfold next_log_page. rewrite (log_page_val _ G) by done. done.
Qed.

Lemma mark_page_reads b st m :
  page_ok (nbits st) b ->
  exists bm, reads (mark_page (b * 4096)) st m () (with_bm bm st)
    /\ marks (rs_bm st) (fun x => x = b) bm.
Proof.
  intros [Hb Hn]. unfold mark_page. change (PAGE_SIZE - 1) with PAGE_OFFSET_MASK.
  fold (ENTRY_LOC (b * 4096)). rewrite entry_loc_page. change (0 =? 0) with true. cbv iota.
  fold (nova_get_blocknr (b * 4096)). rewrite blocknr_page. by apply set_4K_reads.
Qed.

Lemma pages_loop_reads fuel bs p st m :
  page_chain m p bs -> Forall (page_ok (nbits st)) bs -> (length bs <= fuel)%nat ->
  exists bm, reads (pages_loop sbi fuel p) st m () (with_bm bm st)
    /\ marks (rs_bm st) (fun x => x ∈ bs) bm.
Proof.
  revert fuel p st. induction bs as [|b bs IH]; intros fuel p st Hc Hbs Hf.
  - simpl in Hc. subst p. exists (rs_bm st). split; [|apply marks_none; set_solver].
    destruct st. destruct fuel; done.
  - destruct Hc as [-> Hc]. apply Forall_cons in Hbs as [Hb Hbs].
    destruct fuel as [|fuel]; [simpl in Hf; lia|]. cbn [pages_loop].
    pose proof Hb as [[? _] _]. rewrite (proj2 (Z.leb_gt _ _)) by lia.
    destruct (mark_page_reads b st m Hb) as (bm1 & Hr1 & Hm1).
    pose proof (nbits_marks _ _ _ Hm1) as Hn.
    destruct (IH fuel _ (with_bm bm1 st) Hc) as (bm2 & Hr2 & Hm2); [by rewrite Hn|simpl in Hf; lia|].
    exists bm2. split.
    + rstep; [exact Hr1|]. rstep; [|exact Hr2].
      rewrite <- (Z.add_0_r (b * 4096)). apply next_page_reads; [apply Hb|lia].
    + eapply marks_iff; [|eapply marks_trans; [exact Hm1|exact Hm2]]. intros x. set_solver.
Qed.

Lemma traverse_log_reads fuel bs p st m :
  page_chain m p bs -> Forall (page_ok (nbits st)) bs -> (length bs <= fuel)%nat ->
  exists bm, reads (nova_traverse_inode_log sbi fuel p) st m () (with_bm bm st)
    /\ marks (rs_bm st) (fun x => x ∈ bs) bm.
Proof.
  intros Hc Hbs Hf. destruct bs as [|b bs].
  { destruct (pages_loop_reads fuel [] p st m Hc Hbs Hf) as (bm & Hr & Hm). exists bm.
    split; [|done]. simpl in Hc. subst p. destruct fuel; exact Hr. }
  destruct Hc as [-> Hc]. apply Forall_cons in Hbs as [Hb Hbs]. pose proof Hb as [[? _] _].
  unfold nova_traverse_inode_log. rewrite (proj2 (Z.eqb_neq _ _)) by lia.
  destruct (mark_page_reads b st m Hb) as (bm1 & Hr1 & Hm1).
  pose proof (nbits_marks _ _ _ Hm1) as Hn.
  destruct (pages_loop_reads fuel bs _ (with_bm bm1 st) m Hc) as (bm2 & Hr2 & Hm2);
    [by rewrite Hn|simpl in Hf; lia|].
  exists bm2. split.
  - rstep; [exact Hr1|]. rstep; [|exact Hr2].
    rewrite <- (Z.add_0_r (b * 4096)). apply next_page_reads; [apply Hb|lia].
  - eapply marks_iff; [|eapply marks_trans; [exact Hm1|exact Hm2]]. intros x. set_solver.
Qed.
End scan_spec.
