(* ===== verification/FileScanSpec.v ===== *)
(** The scan of the log of a file: every block a write entry names is marked,
    whether the entry is current or not. *)

From S2P Require Import Prelude.
From S2P Require Import Kernel.
From S2P Require Import Checksum.
From S2P Require Import RangeTree.
From S2P Require Import Layout.
From S2P Require Import FreeList.
From S2P Require Import Balloc.
From S2P Require Import Pmem.
From S2P Require Import PmemSpec.
From S2P Require Import Journal.
From S2P Require Import InodeLog.
From S2P Require Import InodeLogSpec.
From S2P Require Import DataGuard.
From S2P Require Import Replica.
From S2P Require Import InodeTable.
From S2P Require Import ScanBitmap.
From S2P Require Import ScanBitmapSpec.
From S2P Require Import Recovery.
From S2P Require Import RecoverySpec.

(** ** The arrays of a ring *)

Definition nv (r : task_ring) (i : Z) : Z := slot (nvmm_array r) i.
Definition en (r : task_ring) (i : Z) : Z := slot (entry_array r) i.

(** The fields that are not arrays of the file. *)
Definition same_ring (r r' : task_ring) : Prop :=
  addr0 r' = addr0 r /\ addr1 r' = addr1 r /\ num r' = num r
  /\ inodes_used_count r' = inodes_used_count r.

#[export] Instance same_ring_preorder : PreOrder same_ring.
Proof. split; [done|]. intros x y z (?&?&?&?) (?&?&?&?). unfold same_ring. split_and!; congruence. Qed.

(** Block [x] is in the array. *)
Definition held (r : task_ring) (x : Z) : Prop := x <> 0 /\ exists i, nv r i = x.

Lemma set_slot_nv j a b r i : nv (set_slot j a b r) i = if decide (i = j) then b else nv r i.
Proof.
  unfold nv, slot. simpl. case_decide as Hd; [subst; by rewrite lookup_insert_eq|].
  by rewrite lookup_insert_ne by congruence.
Qed.
Lemma set_slot_en j a b r i : en (set_slot j a b r) i = if decide (i = j) then a else en r i.
Proof.
  unfold en, slot. simpl. case_decide as Hd; [subst; by rewrite lookup_insert_eq|].
  by rewrite lookup_insert_ne by congruence.
Qed.

(** The write entry at an address. *)
Definition went (m : mem) (a : Z) : write_entry := WENTRY (words m a ENTRY_WORDS).
Definition has_page (e : write_entry) (i : Z) : Prop :=
  we_pgoff e <= i < we_pgoff e + we_num_pages e.
Definition has_block (e : write_entry) (x : Z) : Prop :=
  we_blocknr e <= x < we_blocknr e + we_num_pages e.
Definition page_block (e : write_entry) (i : Z) : Z := we_blocknr e + (i - we_pgoff e).

(** Blocks the bitmap covers, pages of the first window. *)
Record entry_ok (n : Z) (e : write_entry) : Prop := {
  eo_block : 0 < we_blocknr e /\ we_blocknr e + we_num_pages e <= n;
  eo_pages : 0 < we_num_pages e /\ 0 <= we_pgoff e /\ we_pgoff e + we_num_pages e <= MAX_PGOFF
}.

(** The array holds pages of the entries of [D], the later ones over the
    earlier; no slot between two of the same entry is empty. *)
Record ring_holds (m : mem) (n : Z) (D : Z -> Prop) (r : task_ring) : Prop := {
  rh_val : forall i, nv r i <> 0 -> D (en r i) /\ has_page (went m (en r i)) i
    /\ nv r i = page_block (went m (en r i)) i;
  rh_gap : forall i j k, i <= j <= k -> nv r i <> 0 -> nv r k <> 0 -> en r i = en r k -> nv r j <> 0;
  rh_entry : forall a, D a -> a <> 0 /\ entry_ok n (went m a)
}.

Lemma holds_range m n D r i :
  ring_holds m n D r -> nv r i <> 0 -> 0 <= i < MAX_PGOFF /\ 0 < nv r i < n.
Proof.
  intros Hr Hi. destruct (rh_val _ _ _ _ Hr i Hi) as (HD & Hp & E).
  destruct (rh_entry _ _ _ _ Hr _ HD) as [_ [Hb Hpg]]. unfold has_page in Hp. unfold page_block in E. lia.
Qed.

Lemma holds_empty m n r : (forall i, nv r i = 0) -> ring_holds m n (fun _ => False) r.
Proof. intros H. split; try done; [intros i Hi|intros i j k _ Hi]; by rewrite H in Hi. Qed.

Lemma holds_lt m n D r i : ring_holds m n D r -> 0 < n -> nv r i < n.
Proof.
  intros Hr Hn. destruct (decide (nv r i = 0)) as [->|Hz]; [done|].
  by apply (holds_range _ _ _ _ _ Hr Hz).
Qed.

Section file.
Context {RB : RbOps} {KM : KmemOps} {CR : CrcOps} {MP : ModParams}.
Context (sbi : nova_sb_info) (G : log_geometry sbi) (Hmc : metadata_csum = false).
Context (m : mem) (n : Z) (Hn : 0 < n < TWO31).

Lemma verified_reads a st : reads (verified sbi a) st m (Some (words m a ENTRY_WORDS)) st.
Proof.
  unfold verified. rewrite Hmc. rstep; [apply reads_mem, load_words_run|]. apply reads_ret.
Qed.

(** ** Marking what is replaced *)

Lemma mark_slots_reads k index st :
  0 <= index -> index + Z.of_nat k <= MAX_PGOFF ->
  (forall i, nv (rs_ring st) i < nbits st) ->
  exists bm, reads (mark_slots k index) st m () (with_bm bm st)
    /\ marks (rs_bm st) (fun x => x <> 0 /\ exists i, index <= i < index + Z.of_nat k
                                   /\ nv (rs_ring st) i = x) bm.
Proof.
  revert index st. induction k as [|k IH]; intros index st Hi Hk Hv.
  { exists (rs_bm st). split; [by destruct st|]. apply marks_none. intros x (_ & i & ? & _). lia. }
  cbn [mark_slots]. rewrite (proj2 (Z.leb_gt _ _)) by lia.
  assert (Hs : exists bm, reads (if slot (nvmm_array (rs_ring st)) index =? 0 then mret ()
      else set_4K (slot (nvmm_array (rs_ring st)) index)) st m () (with_bm bm st)
    /\ marks (rs_bm st) (fun x => x <> 0 /\ x = nv (rs_ring st) index) bm).
  { fold (nv (rs_ring st) index). destruct (Z.eqb_spec (nv (rs_ring st) index) 0) as [E|E].
    - exists (rs_bm st). split; [by destruct st|]. apply marks_none. lia.
    - destruct (set_4K_reads (nv (rs_ring st) index) st m (Hv _)) as (bm & Hr & Hm).
      exists bm. split; [exact Hr|]. eapply marks_iff; [|exact Hm]. cbv beta. lia. }
  destruct Hs as (bm1 & Hr1 & Hm1). rewrite u64_small by (unfold MAX_PGOFF in *; lia).
  destruct (IH (index + 1) (with_bm bm1 st)) as (bm2 & Hr2 & Hm2); [lia|lia| |].
  { intros i. rewrite (nbits_marks _ _ _ Hm1). apply Hv. }
  exists bm2. split.
  - apply reads_state_bind. rstep; [exact Hr1|exact Hr2].
  - eapply marks_iff; [|eapply marks_trans; [exact Hm1|exact Hm2]]. intros x. cbv beta. split.
    + intros [[Hx ->]|(Hx & i & Hi2 & E)]; (split; [done|]); [exists index|exists i];
        (split; [lia|done]).
    + intros (Hx & i & Hi2 & E). destruct (decide (i = index)) as [->|]; [by left|right].
      split; [done|]. exists i. split; [lia|done].
Qed.

Lemma check_old_reads a pgoff k st :
  a <> 0 -> 0 <= pgoff -> 0 <= k -> pgoff + k <= MAX_PGOFF ->
  (forall i, nv (rs_ring st) i < nbits st) ->
  exists bm, reads (nova_check_old_entry sbi a pgoff k 0) st m () (with_bm bm st)
    /\ marks (rs_bm st) (fun x => x <> 0 /\ exists i, pgoff <= i < pgoff + k
                                   /\ nv (rs_ring st) i = x) bm.
Proof.
  intros Ha Hp Hk Hb Hv. destruct (mark_slots_reads (Z.to_nat k) pgoff st) as (bm & Hr & Hm);
    [lia|lia|done|]. exists bm. split.
  - unfold nova_check_old_entry. rewrite (proj2 (Z.eqb_neq _ _) Ha).
    rstep; [apply verified_reads|]. cbv beta iota.
    rewrite Z.sub_0_r, u64_small by (unfold MAX_PGOFF in *; lia). exact Hr.
  - rewrite Z2Nat.id in Hm by lia. exact Hm.
Qed.

(** The run of slots [mark_replaced] has not marked yet. *)
Definition pending (r : task_ring) (pgoff old old_pgoff k : Z) : Prop :=
  old <> 0 -> 0 <= old_pgoff /\ 0 < k /\ old_pgoff + k <= pgoff
    /\ (forall i, old_pgoff <= i < old_pgoff + k -> nv r i <> 0 /\ en r i = old)
    /\ (forall i, old_pgoff + k <= i < pgoff -> nv r i = 0).

Lemma drop_old_reads D pgoff old old_pgoff cnt st :
  ring_holds m n D (rs_ring st) -> nbits st = n -> pgoff <= MAX_PGOFF ->
  pending (rs_ring st) pgoff old old_pgoff cnt ->
  exists bm, reads (if old =? 0 then mret () else nova_check_old_entry sbi old old_pgoff cnt 0)
      st m () (with_bm bm st)
    /\ marks (rs_bm st) (fun x => x <> 0 /\ exists i, nv (rs_ring st) i = x
         /\ (old <> 0 /\ old_pgoff <= i < old_pgoff + cnt)) bm.
Proof.
  intros Hh Hnb Hp Hpd. destruct (Z.eqb_spec old 0) as [E|E].
  { exists (rs_bm st). split; [by destruct st|]. apply marks_none. intros x (_ & i & _ & ? & _). done. }
  destruct (Hpd E) as (? & ? & ? & _ & _).
  destruct (check_old_reads old old_pgoff cnt st E) as (bm & Hr & Hm);
    [lia|lia|lia|intros i; rewrite Hnb; eapply holds_lt; [exact Hh|lia]|].
  exists bm. split; [exact Hr|]. eapply marks_iff; [|exact Hm]. intros x. cbv beta. split.
  - intros (Hx & i & Hi & Ei). split; [done|]. exists i. done.
  - intros (Hx & i & Ei & _ & ?). split; [done|]. by exists i.
Qed.

Lemma mark_replaced_reads D k pgoff old old_pgoff cnt st :
  ring_holds m n D (rs_ring st) -> nbits st = n -> 0 <= pgoff -> pgoff + Z.of_nat k <= MAX_PGOFF ->
  pending (rs_ring st) pgoff old old_pgoff cnt ->
  exists bm, reads (mark_replaced sbi k pgoff 0 old old_pgoff cnt) st m () (with_bm bm st)
    /\ marks (rs_bm st) (fun x => x <> 0 /\ exists i, nv (rs_ring st) i = x
         /\ (pgoff <= i < pgoff + Z.of_nat k \/ old <> 0 /\ old_pgoff <= i < old_pgoff + cnt)) bm.
Proof.
  intros Hh. revert pgoff old old_pgoff cnt st Hh.
  induction k as [|k IH]; intros pgoff old old_pgoff cnt st Hh Hnb Hp Hk Hpd; cbn [mark_replaced].
  { destruct (drop_old_reads D pgoff old old_pgoff cnt st Hh Hnb) as (bm & Hr & Hm); [lia|done|].
    exists bm. split; [exact Hr|]. eapply marks_iff; [|exact Hm]. intros x. cbv beta.
    split; intros (Hx & i & Ei & Hi); (split; [done|]); exists i; (split; [done|]); [by right|].
    destruct Hi; [lia|done]. }
  rewrite Z.sub_0_r, (u64_small pgoff), (u64_small (pgoff + 1)) by (unfold MAX_PGOFF in *; lia).
  rewrite (proj2 (Z.leb_gt _ _)) by lia.
  fold (nv (rs_ring st) pgoff) (en (rs_ring st) pgoff).
  destruct (Z.eqb_spec (nv (rs_ring st) pgoff) 0) as [Ez|Ez].
  { (* an empty slot *)
    destruct (IH (pgoff + 1) old old_pgoff cnt st Hh Hnb) as (bm & Hr & Hm); [lia|lia| |].
    { intros Ho. destruct (Hpd Ho) as (? & ? & ? & ? & Hz). split_and!; try done; [lia|].
      intros i Hi. destruct (decide (i = pgoff)) as [->|]; [done|]. apply Hz. lia. }
    exists bm. split; [apply reads_state_bind; fold (nv (rs_ring st) pgoff); by rewrite Ez|].
    eapply marks_iff; [|exact Hm]. intros x. cbv beta. split; intros (Hx & i & Ei & Hi);
      (split; [done|]); exists i; (split; [done|]); [lia|].
    destruct Hi as [Hi|?]; [left|by right]. destruct (decide (i = pgoff)) as [->|]; [congruence|lia]. }
  destruct (Z.eqb_spec (en (rs_ring st) pgoff) old) as [Eo|Eo]; cbn [negb].
  { (* the same entry *)
    destruct (rh_val _ _ _ _ Hh _ Ez) as (HD & Hpg & _). rewrite Eo in HD, Hpg.
    destruct (rh_entry _ _ _ _ Hh _ HD) as [Hnz _].
    destruct (Hpd Hnz) as (Hb & Hc & Hle & Hsame & Hzero).
    assert (Hgap : old_pgoff + cnt = pgoff).
    { destruct (decide (old_pgoff + cnt = pgoff)) as [|Hne]; [done|exfalso].
      destruct (Hsame old_pgoff) as [Hnz0 He0]; [lia|].
      apply (rh_gap _ _ _ _ Hh old_pgoff (old_pgoff + cnt) pgoff); [lia|done|done|congruence|].
      apply Hzero. lia. }
    destruct (IH (pgoff + 1) old old_pgoff (cnt + 1) st Hh Hnb) as (bm & Hr & Hm); [lia|lia| |].
    { intros _. split_and!; [lia|lia|lia| |intros; lia].
      intros i Hi. destruct (decide (i = pgoff)) as [->|]; [done|]. apply Hsame. lia. }
    exists bm. split.
    - apply reads_state_bind. fold (nv (rs_ring st) pgoff) (en (rs_ring st) pgoff).
      rewrite (proj2 (Z.eqb_neq _ _) Ez), (proj2 (Z.eqb_eq _ _) Eo). cbn [negb].
      rewrite (u32_small (cnt + 1)) by (unfold MAX_PGOFF in *; lia). exact Hr.
    - eapply marks_iff; [|exact Hm]. intros x. cbv beta. split; intros (Hx & i & Ei & Hi);
        (split; [done|]); exists i; (split; [done|]); lia. }
  (* another entry *)
  destruct (drop_old_reads D pgoff old old_pgoff cnt st Hh Hnb) as (bm1 & Hr1 & Hm1); [lia|done|].
  destruct (IH (pgoff + 1) (en (rs_ring st) pgoff) pgoff 1 (with_bm bm1 st) Hh) as (bm2 & Hr2 & Hm2).
  { by rewrite (nbits_marks _ _ _ Hm1). }
  { lia. }
  { lia. }
  { intros _. split_and!; [lia|lia|lia| |intros; lia].
    intros i Hi. assert (i = pgoff) as -> by lia. done. }
  exists bm2. split.
  - apply reads_state_bind. fold (nv (rs_ring st) pgoff) (en (rs_ring st) pgoff).
    rewrite (proj2 (Z.eqb_neq _ _) Ez), (proj2 (Z.eqb_neq _ _) Eo). cbn [negb].
    rstep; [exact Hr1|exact Hr2].
  - eapply marks_iff; [|eapply marks_trans; [exact Hm1|exact Hm2]]. intros x. cbv beta.
    change (rs_ring (with_bm bm1 st)) with (rs_ring st).
    pose proof (proj1 (rh_entry _ _ _ _ Hh _ (proj1 (rh_val _ _ _ _ Hh _ Ez)))) as Hne. split.
    + intros [(Hx & i & Ei & Hi)|(Hx & i & Ei & Hi)]; (split; [done|]); exists i;
        (split; [done|]); [by right|left; lia].
    + intros (Hx & i & Ei & [Hi|Hi]); [right|left]; (split; [done|]); exists i; (split; [done|]).
      * destruct (decide (i = pgoff)) as [->|]; [right; split; [done|lia]|left; lia].
      * done.
Qed.

(** ** Entering an entry *)

Lemma fill_slots_reads k pgoff f st :
  0 <= pgoff -> pgoff + Z.of_nat k <= MAX_PGOFF ->
  exists r', reads (fill_slots k pgoff 0 f) st m () (with_ring r' st)
    /\ same_ring (rs_ring st) r'
    /\ (forall i, nv r' i = if decide (pgoff <= i < pgoff + Z.of_nat k) then (f i).2 else nv (rs_ring st) i)
    /\ forall i, en r' i = if decide (pgoff <= i < pgoff + Z.of_nat k) then (f i).1 else en (rs_ring st) i.
Proof.
  revert pgoff st. induction k as [|k IH]; intros pgoff st Hp Hk.
  { exists (rs_ring st). split_and!; [by destruct st|done| |]; intros i; by rewrite decide_False by lia. }
  cbn [fill_slots]. rewrite Z.sub_0_r, (u64_small pgoff), (u64_small (pgoff + 1)) by (unfold MAX_PGOFF in *; lia).
  rewrite (proj2 (Z.leb_gt _ _)) by lia.
  set (r1 := set_slot pgoff (f pgoff).1 (f pgoff).2 (rs_ring st)).
  destruct (IH (pgoff + 1) (with_ring r1 st)) as (r' & Hr & Hs & Hnv & Hen); [lia|lia|].
  exists r'. split_and!.
  - apply reads_state_bind. rstep; [|exact Hr]. done.
  - etrans; [|exact Hs]. done.
  - intros i. rewrite Hnv. simpl rs_ring. unfold r1. rewrite set_slot_nv.
    repeat case_decide; try lia; try done. by subst.
  - intros i. rewrite Hen. simpl rs_ring. unfold r1. rewrite set_slot_en.
    repeat case_decide; try lia; try done. by subst.
Qed.

Definition inserted (D : Z -> Prop) (a y : Z) : Prop := D y \/ y = a.

Lemma holds_insert D a r r' :
  ring_holds m n D r -> a <> 0 -> entry_ok n (went m a) ->
  (forall i, nv r' i = if decide (has_page (went m a) i) then page_block (went m a) i else nv r i) ->
  (forall i, en r' i = if decide (has_page (went m a) i) then a else en r i) ->
  ring_holds m n (inserted D a) r'.
Proof.
  intros Hh Ha Hok Hnv Hen. pose proof (eo_block _ _ Hok). unfold inserted. split.
  - intros i. rewrite Hnv, Hen. case_decide as Hp; intros Hi; [split_and!; [by right|done|done]|].
    destruct (rh_val _ _ _ _ Hh i Hi) as (? & ? & ?). split_and!; [by left|done|done].
  - intros i j k Hijk. rewrite !Hnv, !Hen.
    destruct (decide (has_page (went m a) j)) as [Hj|Hj].
    { unfold has_page in Hj. unfold page_block. lia. }
    assert (Hno : forall x, nv r x <> 0 -> en r x = a -> has_page (went m a) x).
    { intros x Hx <-. by apply (rh_val _ _ _ _ Hh x Hx). }
    do 2 case_decide; intros Hi Hk E.
    + unfold has_page in *. lia.
    + exfalso. by eauto.
    + exfalso. by eauto.
    + by apply (rh_gap _ _ _ _ Hh i j k).
  - intros y [Hy| ->]; [by eapply rh_entry|done].
Qed.

(** The slots from [c] on are emptied. *)
Lemma holds_cut D c r r' :
  ring_holds m n D r ->
  (forall i, nv r' i = if decide (c <= i) then 0 else nv r i) ->
  (forall i, i < c -> en r' i = en r i) -> ring_holds m n D r'.
Proof.
  intros Hh Hnv Hen. split.
  - intros i. rewrite Hnv. case_decide; [done|]. rewrite Hen by lia. apply (rh_val _ _ _ _ Hh).
  - intros i j k Hijk. rewrite !Hnv. do 3 case_decide; try done; try lia. rewrite !Hen by lia.
    by apply (rh_gap _ _ _ _ Hh).
  - apply (rh_entry _ _ _ _ Hh).
Qed.

#[local] Instance has_page_dec e i : Decision (has_page e i).
Proof. unfold has_page. apply _. Defined.

(** What entering the entry [a] does to the marks and the array. *)
Record entered (st : rstate) (a : Z) (D : Z -> Prop) (st' : rstate) : Prop := {
  et_bm : exists Q, marks (rs_bm st) Q (rs_bm st')
    /\ forall x, Q x \/ held (rs_ring st') x <-> held (rs_ring st) x \/ has_block (went m a) x;
  et_holds : ring_holds m n (inserted D a) (rs_ring st');
  et_ring : same_ring (rs_ring st) (rs_ring st');
  et_sih : rs_sih st' = rs_sih st;
  et_maps : rs_maps st' = rs_maps st;
  et_slots : forall i, nv (rs_ring st') i <> 0 -> nv (rs_ring st) i <> 0 \/ has_page (went m a) i
}.

Lemma set_ring_array_reads D a st :
  ring_holds m n D (rs_ring st) -> nbits st = n -> a <> 0 -> entry_ok n (went m a) ->
  sc_i_blk_type (rs_sih st) = 0 ->
  exists st', reads (nova_set_ring_array sbi a (went m a) 0) st m () st' /\ entered st a D st'.
Proof.
  intros Hh Hnb Ha Hok Hbt. set (e := went m a) in *.
  destruct (eo_block _ _ Hok) as [Hb1 Hb2], (eo_pages _ _ Hok) as (Hp0 & Hp1 & Hp2).
  assert (Epend : pending (rs_ring st) (we_pgoff e) 0 0 0) by (intros ?; done).
  set (k := Z.to_nat (we_num_pages e)).
  destruct (mark_replaced_reads D k (we_pgoff e) 0 0 0 st Hh Hnb) as (bm & Hr & Hm); [lia|lia|done|].
  destruct (fill_slots_reads k (we_pgoff e) (fun pgoff => (a, get_nvmm (sc_i_blk_type (rs_sih st)) e pgoff))
              (with_bm bm st)) as (r' & Hr' & Hs & Hnv & Hen); [lia|lia|].
  exists (with_ring r' (with_bm bm st)).
  assert (Hnv' : forall i, nv r' i = if decide (has_page e i) then page_block e i else nv (rs_ring st) i).
  { intros i. rewrite Hnv. unfold has_page, k. rewrite Z2Nat.id by lia.
    simpl rs_ring. repeat case_decide; try done; try lia. simpl. unfold get_nvmm. rewrite Hbt.
    change (nova_get_numblocks 0) with 1. unfold page_block.
    unfold MAX_PGOFF in *. rewrite (u64_small (i - _)) by lia. rewrite u64_small; lia. }
  assert (Hen' : forall i, en r' i = if decide (has_page e i) then a else en (rs_ring st) i).
  { intros i. rewrite Hen. unfold has_page, k. rewrite Z2Nat.id by lia. done. }
  split; [|split; try done].
  - unfold nova_set_ring_array. rewrite (u64_small (_ + _)) by (unfold MAX_PGOFF in *; lia).
    rewrite (proj2 (Z.ltb_ge (we_pgoff e) 0)), (proj2 (Z.ltb_ge (0 + MAX_PGOFF) _)) by lia.
    cbv zeta. replace (we_pgoff e + we_num_pages e - we_pgoff e) with (we_num_pages e) by lia. fold k.
    rstep; [exact Hr|]. rstep; [apply reads_mem, load_words_run|]. apply reads_state_bind. exact Hr'.
  - eexists. split; [exact Hm|]. intros x. fold e. cbv beta. unfold held.
    change (rs_ring (with_ring r' (with_bm bm st))) with r'. split.
    + intros [(Hx & i & Ei & _)|(Hx & i & Ei)]; [left; split; [done|]; by exists i|].
      rewrite Hnv' in Ei. case_decide as Hpi; [right|left; split; [done|]; by exists i].
      unfold has_block, page_block, has_page in *. lia.
    + intros [(Hx & i & Ei)|Hx].
      * destruct (decide (has_page e i)) as [Hpi|Hpi].
        -- left. split; [done|]. exists i. split; [done|]. left. unfold has_page in Hpi. unfold k. lia.
        -- right. split; [done|]. exists i. rewrite Hnv'. by rewrite decide_False.
      * right. unfold has_block in Hx. split; [lia|]. exists (we_pgoff e + (x - we_blocknr e)).
        rewrite Hnv', decide_True by (unfold has_page; lia). unfold page_block. lia.
  - by eapply holds_insert.
  - intros i. change (rs_ring (with_ring r' (with_bm bm st))) with r'. rewrite Hnv'. case_decide; [by right|by left].
Qed.

(** ** The end of the window *)

Lemma file_bm_reads D k pgoff st :
  ring_holds m n D (rs_ring st) -> nbits st = n -> 0 <= pgoff -> pgoff + Z.of_nat k <= MAX_PGOFF ->
  exists st', reads (file_bm_loop k pgoff) st m () st'
    /\ marks (rs_bm st) (fun x => x <> 0 /\ exists i, pgoff <= i < pgoff + Z.of_nat k
                                   /\ nv (rs_ring st) i = x) (rs_bm st')
    /\ same_ring (rs_ring st) (rs_ring st') /\ rs_sih st' = rs_sih st /\ rs_maps st' = rs_maps st
    /\ forall i, nv (rs_ring st') i
         = if decide (pgoff <= i < pgoff + Z.of_nat k) then 0 else nv (rs_ring st) i.
Proof.
  intros Hh Hnb. assert (Hlt : forall i, nv (rs_ring st) i < n)
    by (intros i; eapply holds_lt; [exact Hh|lia]). clear Hh D.
  revert pgoff st Hnb Hlt. induction k as [|k IH]; intros pgoff st Hnb Hlt Hp Hk.
  { exists st. split_and!; try done; [by apply marks_none; intros x (_ & i & ? & _); lia|].
    intros i. by rewrite decide_False by lia. }
  cbn [file_bm_loop]. rewrite (proj2 (Z.leb_gt _ _)) by lia.
  assert (Hs : exists st1, reads (if slot (nvmm_array (rs_ring st)) pgoff =? 0 then mret ()
      else set_4K (slot (nvmm_array (rs_ring st)) pgoff);;
           st ← get_state; put_ring (set_slot pgoff 0 0 (rs_ring st))) st m () st1
    /\ marks (rs_bm st) (fun x => x <> 0 /\ x = nv (rs_ring st) pgoff) (rs_bm st1)
    /\ same_ring (rs_ring st) (rs_ring st1) /\ rs_sih st1 = rs_sih st /\ rs_maps st1 = rs_maps st
    /\ forall i, nv (rs_ring st1) i = if decide (i = pgoff) then 0 else nv (rs_ring st) i).
  { fold (nv (rs_ring st) pgoff). destruct (Z.eqb_spec (nv (rs_ring st) pgoff) 0) as [E|E].
    - exists st. split_and!; try done; [apply marks_none; lia|]. intros i. case_decide; [by subst|done].
    - destruct (set_4K_reads (nv (rs_ring st) pgoff) st m) as (bm & Hr & Hm); [by rewrite Hnb|].
      exists (with_ring (set_slot pgoff 0 0 (rs_ring st)) (with_bm bm st)). split_and!; try done.
      + rstep; [exact Hr|]. apply reads_state_bind. done.
      + eapply marks_iff; [|exact Hm]. cbv beta. lia.
      + intros i. apply set_slot_nv. }
  destruct Hs as (st1 & Hr1 & Hm1 & Hs1 & Hsih1 & Hmp1 & Hnv1).
  destruct (IH (pgoff + 1) st1) as (st2 & Hr2 & Hm2 & Hs2 & Hsih2 & Hmp2 & Hnv2); [|..|lia|lia|].
  { rewrite <- Hnb. by apply (marks_bits _ _ _ Hm1). }
  { intros i. rewrite Hnv1. case_decide; [lia|apply Hlt]. }
  exists st2. split_and!; try congruence.
  - apply reads_state_bind. rstep; [exact Hr1|exact Hr2].
  - eapply marks_iff; [|eapply marks_trans; [exact Hm1|exact Hm2]]. intros x. cbv beta. split.
    + intros [[Hx ->]|(Hx & i & Hi & E)]; (split; [done|]); [exists pgoff; split; [lia|done]|].
      rewrite Hnv1 in E. case_decide; [congruence|]. exists i. split; [lia|done].
    + intros (Hx & i & Hi & E). destruct (decide (i = pgoff)) as [->|]; [by left|right].
      split; [done|]. exists i. split; [lia|]. by rewrite Hnv1, decide_False.
  - by etrans.
  - intros i. rewrite Hnv2, Hnv1. repeat case_decide; try lia; done.
Qed.
End file.
