(* ===== verification/FileLogSpec.v ===== *)
(** The walk of recovery over the log of a file: what the log says
    ([read_log]) and that the scan marks exactly the pages and blocks it names. *)

From S2P Require Import Prelude.
From S2P Require Import Kernel.
From S2P Require Import Checksum.
From S2P Require Import RangeTree.
From S2P Require Import Layout.
From S2P Require Import FreeList.
From S2P Require Import Balloc.
From S2P Require Import Pmem.
From S2P Require Import PmemSpec.
From S2P Require Import Journal.
From S2P Require Import InodeLog.
From S2P Require Import InodeLogSpec.
From S2P Require Import DataGuard.
From S2P Require Import DataGuardSpec.
From S2P Require Import Replica.
From S2P Require Import InodeTable.
From S2P Require Import ScanBitmap.
From S2P Require Import ScanBitmapSpec.
From S2P Require Import Recovery.
From S2P Require Import RecoverySpec.
From S2P Require Import FileScanSpec.

(** A position in a log: page, offset, pages that follow. *)
Definition log_pos : Type := Z * Z * list Z.

Section reading.
Context (sbi : nova_sb_info) (m : mem).

Definition addr_of (b x : Z) : Z := base sbi b + x.
Definition type_at (b x : Z) : Z := u8 (cur m (addr_of b x)).
Definition kind_at (b x : Z) : option nova_entry_type := entry_kind (type_at b x).

(** [goto_next_page]. *)
Definition jumps (b x : Z) : bool := (LOG_BLOCK_TAIL <? x + 32) || (type_at b x =? 7).

(** The entry the walk looks at from a position. *)
Definition land_at (p : log_pos) : option log_pos :=
  let '(b, x, post) := p in
  if jumps b x then match post with [] => None | b' :: post => Some (b', 0, post) end
  else Some p.

(** The entries from a position, by page and offset, and the position of the
    end; [k] bounds their number. *)
Fixpoint read_log (k : nat) (p : log_pos) : option (list (Z * Z * nova_entry_type) * log_pos) :=
  match k with
  | O => None
  | S k' =>
      '(b, x, post) ← land_at p;
      match kind_at b x with
      | None => Some ([], (b, x, post))
      | Some ty =>
          let x' := x + nova_get_log_entry_size ty in
          if LOG_BLOCK_TAIL <? x' then None
          else
            '(es, fin) ← read_log k' (b, x', post);
            Some ((b, x, ty) :: es, fin)
      end
  end.

(** The write entries that hold pages of the file. *)
Definition write_at (es : list (Z * Z * nova_entry_type)) (a : Z) : Prop :=
  exists b x, (b, x, FILE_WRITE) ∈ es /\ a = addr_of b x.
Definition live_entry (a : Z) : Prop := we_num_pages (went m a) <> we_invalid_pages (went m a).
Definition file_block (es : list (Z * Z * nova_entry_type)) (y : Z) : Prop :=
  exists a, write_at es a /\ live_entry a /\ has_block (went m a) y.

(** The pages of a file of [size] bytes, in blocks of 2 ^ [bits]. *)
Definition pages_for (bits size : Z) : Z := Z.shiftr (size + Z.shiftl 1 bits - 1) bits.

(** When an attribute entry shortens the file, no page lies behind the old end:
    the scan empties the window up to there only.  [top] bounds the pages
    seen. *)
Fixpoint cuts_ok (bits i_size top : Z) (es : list (Z * Z * nova_entry_type)) : Prop :=
  match es with
  | [] => True
  | (b, x, FILE_WRITE) :: es =>
      let e := went m (addr_of b x) in
      cuts_ok bits (we_size e)
        (if we_num_pages e =? we_invalid_pages e then top else Z.max top (we_pgoff e + we_num_pages e)) es
  | (b, x, SET_ATTR) :: es =>
      let size := cur m (addr_of b x + 24) in
      (i_size <= size \/ 0 <= size /\ i_size < TWO63 /\ top <= pages_for bits i_size)
      /\ cuts_ok bits size (if i_size <=? size then top else Z.min top (pages_for bits size)) es
  | _ :: es => cuts_ok bits i_size top es
  end.

(** The chain of pages behind page [b]. *)
Definition pos_ok (n : Z) (p : log_pos) : Prop :=
  let '(b, x, post) := p in
  page_ok n b /\ 0 <= x <= LOG_BLOCK_TAIL /\ x mod 8 = 0
  /\ page_chain sbi m (cur m (nx sbi b)) post /\ Forall (page_ok n) post.
End reading.

Section walk.
Context {RB : RbOps} {KM : KmemOps} {CR : CrcOps} {MP : ModParams}.
Context (sbi : nova_sb_info) (G : log_geometry sbi) (Hmc : metadata_csum = false).
Context (m : mem) (n : Z) (Hn : 0 < n < TWO31).

Definition off_of (p : log_pos) : Z := let '(b, x, _) := p in b * 4096 + x.

Lemma pos_addr b x : log_block b -> 0 <= x < 4096 -> meta_addr sbi (b * 4096 + x) = addr_of sbi b x.
Proof.
  intros Hb Hx. unfold log_block in Hb. unfold meta_addr, nova_get_virt_addr_from_offset, addr_of, base.
  pose proof (lg_range _ G). rewrite u64_small; lia.
Qed.

Lemma addr_aligned b x : x mod 8 = 0 -> addr_of sbi b x mod 8 = 0.
Proof.
  intros Hx. unfold addr_of. pose proof (Z.div_mod x 8 ltac:(lia)) as Hd. rewrite Hx, Z.add_0_r in Hd.
  rewrite Hd. by apply word_aligned.
Qed.

Lemma type_reads b x :
  log_block b -> 0 <= x < 4096 -> x mod 8 = 0 -> load8 (meta_addr sbi (b * 4096 + x)) m = (type_at sbi m b x, []).
Proof.
  intros Hb Hx Ha. rewrite pos_addr by done. pose proof (addr_aligned b x Ha) as Hal.
  unfold load8. rewrite bind_load, land_not_7, Hal, Z.sub_0_r. change (8 * 0) with 0.
  by rewrite Z.shiftr_0_r.
Qed.

Lemma words_nth a k i : (i < k)%nat -> nth i (words m a k) 0 = cur m (a + 8 * Z.of_nat i).
Proof.
  intros Hi. apply nth_lookup_Some with (d := 0). by apply lookup_words.
Qed.

Lemma entry_kind_reads b x : entry_kind (byte (nth 0 (words m (addr_of sbi b x) ENTRY_WORDS) 0) 0) = kind_at sbi m b x.
Proof.
  rewrite words_nth by (unfold ENTRY_WORDS; lia). change (8 * Z.of_nat 0) with 0. rewrite Z.add_0_r.
  unfold byte. change (8 * 0) with 0. by rewrite Z.shiftr_0_r.
Qed.

Lemma goto_next_reads b x :
  log_block b -> 0 <= x < 4096 -> x mod 8 = 0 ->
  goto_next_page sbi (b * 4096 + x) m = (jumps sbi m b x, []).
Proof.
  intros Hb Hx Ha. unfold goto_next_page, jumps. rewrite entry_loc by done.
  destruct (LOG_BLOCK_TAIL <? x + 32); [done|].
  rewrite (bind_read _ _ _ _ (type_reads b x Hb Hx Ha)). done.
Qed.

Definition page_of_pos (p : log_pos) : Z := p.1.1.
Definition pages_after (p : log_pos) : list Z := p.2.

(** Looking for the next entry: a page entered is marked. *)
Lemma next_entry_reads p p1 mark st :
  pos_ok sbi m n p -> land_at sbi m p = Some p1 -> nbits st = n ->
  exists bm ent, reads (next_entry sbi mark (off_of p)) st m (off_of p1) (with_bm bm st)
    /\ pos_ok sbi m n p1 /\ pages_after p = ent ++ pages_after p1
    /\ marks (rs_bm st) (fun y => mark = true /\ y ∈ ent) bm.
Proof.
  destruct p as [[b x] post]. intros (Hb & Hx & Ha & Hc & Hpost) Hl Hnb. unfold land_at in Hl.
  assert (Hx' : 0 <= x < 4096) by (unfold LOG_BLOCK_TAIL in Hx; lia).
  pose proof (goto_next_reads b x (proj1 Hb) Hx' Ha) as Hg.
  unfold next_entry, off_of. destruct (jumps sbi m b x).
  - destruct post as [|b' post]; [done|]. injection Hl as <-. destruct Hc as [Ec Hc].
    apply Forall_cons in Hpost as [Hb' Hpost].
    assert (Hok' : pos_ok sbi m n (b', 0, post)) by (split_and!; try done; unfold LOG_BLOCK_TAIL; lia).
    pose proof (next_page_reads sbi G b x) as Hnp. rewrite Z.add_0_r.
    destruct mark.
    + destruct (mark_page_reads b' st m) as (bm & Hr & Hm); [by rewrite Hnb|].
      exists bm, [b']. split_and!; [|done|done|].
      * rstep; [apply reads_mem, Hg|]. cbv beta iota. rstep; [apply Hnp; [apply Hb|done]|].
        rewrite Ec. rstep; [exact Hr|]. apply reads_ret.
      * eapply marks_iff; [|exact Hm]. intros y. rewrite list_elem_of_singleton. tauto.
    + exists (rs_bm st), [b']. split_and!; [|done|done|apply marks_none; intros y [? _]; done].
      replace (with_bm (rs_bm st) st) with st by (by destruct st).
      rstep; [apply reads_mem, Hg|]. cbv beta iota. rstep; [apply Hnp; [apply Hb|done]|].
      rewrite Ec. rstep; apply reads_ret.
  - injection Hl as <-. exists (rs_bm st), []. split_and!; [|done|done|].
    + replace (with_bm (rs_bm st) st) with st by (by destruct st).
      rstep; [apply reads_mem, Hg|]. apply reads_ret.
    + apply marks_none. intros y [_ ?]. set_solver.
Qed.

Lemma size_8 ty : (nova_get_log_entry_size ty) mod 8 = 0 /\ 0 <= nova_get_log_entry_size ty < 4096.
Proof. by destruct ty. Qed.

(** The position behind an entry. *)
Lemma pos_after b x post ty :
  pos_ok sbi m n (b, x, post) -> (LOG_BLOCK_TAIL <? x + nova_get_log_entry_size ty) = false ->
  pos_ok sbi m n (b, x + nova_get_log_entry_size ty, post)
  /\ u64 (b * 4096 + x + nova_get_log_entry_size ty) = off_of (b, x + nova_get_log_entry_size ty, post).
Proof.
  intros (Hb & Hx & Ha & Hc & Hpost) Hle%Z.ltb_ge. destruct (size_8 ty) as [Hs8 Hs]. split.
  - split_and!; try done; try lia. rewrite Z.add_mod, Ha, Hs8 by lia. done.
  - destruct Hb as [Hb _]. unfold log_block in Hb. unfold off_of. unfold LOG_BLOCK_TAIL in *.
    rewrite u64_small; lia.
Qed.

(** An entry is found again from its own position. *)
Lemma land_again p b x post ty :
  land_at sbi m p = Some (b, x, post) -> kind_at sbi m b x = Some ty ->
  (LOG_BLOCK_TAIL <? x + nova_get_log_entry_size ty) = false ->
  land_at sbi m (b, x, post) = Some (b, x, post).
Proof.
  intros _ Hk Hle%Z.ltb_ge. unfold land_at.
  assert (Hj : jumps sbi m b x = false); [|by rewrite Hj].
  unfold jumps. unfold kind_at in Hk. apply orb_false_iff. split.
  - apply Z.ltb_ge. enough (32 <= nova_get_log_entry_size ty) by lia.
    unfold entry_kind in Hk. by repeat case_match; simplify_eq.
  - apply Z.eqb_neq. intros E. by rewrite E in Hk.
Qed.

(** ** The entries of a log *)

Definition log_ok (es : list (Z * Z * nova_entry_type)) : Prop :=
  forall a, write_at sbi es a -> entry_ok n (went m a) /\ a <> 0.

(** The transaction number the header holds after [es]. *)
Fixpoint last_trans (tid : Z) (es : list (Z * Z * nova_entry_type)) : Z :=
  match es with
  | [] => tid
  | (b, x, FILE_WRITE) :: es => last_trans (we_trans_id (went m (addr_of sbi b x))) es
  | _ :: es => last_trans tid es
  end.
(** ... and the size. *)
Fixpoint last_size (i_size : Z) (es : list (Z * Z * nova_entry_type)) : Z :=
  match es with
  | [] => i_size
  | (b, x, FILE_WRITE) :: es => last_size (we_size (went m (addr_of sbi b x))) es
  | (b, x, SET_ATTR) :: es => last_size (cur m (addr_of sbi b x + 24)) es
  | _ :: es => last_size i_size es
  end.
(** The latest transaction: the entries from the last write entry on whose
    number is not that of the write before it ([tid] before the first). *)
Fixpoint latest (tid : Z) (es : list (Z * Z * nova_entry_type)) : option (list (Z * Z * nova_entry_type)) :=
  match es with
  | [] => None
  | (b, x, FILE_WRITE) :: es' =>
      let t := we_trans_id (went m (addr_of sbi b x)) in
      match latest t es' with
      | Some l => Some l
      | None => if t =? tid then None else Some es
      end
  | _ :: es' => latest tid es'
  end.

(** The pages from a position on. *)
Definition pages_from (p : log_pos) : list Z := page_of_pos p :: pages_after p.

(** [t] is the position of [l] in the log, which is [k] entries from the end
    [fin] at most, in one of the pages [pgs]. *)
Record suffix_at (l : list (Z * Z * nova_entry_type)) (fin : log_pos) (k : nat) (pgs : list Z) (t : log_pos) : Prop := {
  sx_pos : pos_ok sbi m n t;
  sx_here : land_at sbi m t = Some t;
  sx_log : exists k', (k' <= k)%nat /\ read_log sbi m k' t = Some (l, fin);
  sx_pages : suffix (pages_from t) pgs
}.

(** What the walk has noted of the latest transaction: [tr] before, [tr'] now. *)
Definition noted (o : option (list (Z * Z * nova_entry_type))) (fin : log_pos) (k : nat) (pgs : list Z)
    (tr tr' : option Z) : Prop :=
  match o with
  | Some l => exists t, tr' = Some (off_of t) /\ suffix_at l fin k pgs t
  | None => tr' = tr
  end.

Lemma suffix_weaken l fin k k' pgs pgs' t :
  (k <= k')%nat -> suffix pgs pgs' -> suffix_at l fin k pgs t -> suffix_at l fin k' pgs' t.
Proof.
  intros H Hp [? ? (j & ? & ?) ?]. split; [done|done| |by etrans]. exists j. split; [lia|done].
Qed.

Lemma land_pages p p1 : land_at sbi m p = Some p1 -> suffix (pages_from p1) (pages_from p).
Proof.
  destruct p as [[b x] post]. unfold land_at, pages_from. destruct (jumps sbi m b x).
  - destruct post as [|b' post]; [done|]. intros [= <-]. by exists [b].
  - by intros [= <-].
Qed.

(** The end of a log is not before its start. *)
Lemma read_log_end k p es fin :
  read_log sbi m k p = Some (es, fin) ->
  suffix (pages_from fin) (pages_from p) /\ (pages_from fin = pages_from p -> p.1.2 <= fin.1.2)
  /\ (0 <= p.1.2 -> 0 <= fin.1.2 < 4096).
Proof.
  revert p es. induction k as [|k IH]; intros p es; [done|]. cbn [read_log].
  destruct (land_at sbi m p) as [[[b x] post]|] eqn:Hl; [|done]. cbn [mbind option_bind].
  pose proof (land_pages _ _ Hl) as Hs.
  assert (Hx : pages_from (b, x, post) = pages_from p -> p.1.2 = x).
  { destruct p as [[b0 x0] post0]. unfold land_at in Hl. destruct (jumps sbi m b0 x0); [|by injection Hl].
    destruct post0 as [|b' post0]; [done|]. injection Hl as <- _ <-. intros E%(f_equal length). simpl in E. lia. }
  assert (Hx0 : 0 <= p.1.2 -> 0 <= x < 4096).
  { destruct p as [[b0 x0] post0]. unfold land_at, jumps in Hl. cbn [fst snd].
    destruct (LOG_BLOCK_TAIL <? x0 + 32) eqn:Ht; cbn [orb] in Hl; [destruct post0; [done|injection Hl as _ <- _; lia]|].
    zbool. unfold LOG_BLOCK_TAIL in Ht. destruct (_ =? _); [destruct post0; [done|]|]; injection Hl as _ <- _; lia. }
  destruct (kind_at sbi m b x) as [ty|].
  - destruct (_ <? _); [done|]. destruct (read_log sbi m k _) as [[es' fin']|] eqn:Hr; [|done].
    cbn [mbind option_bind]. intros [= <- <-]. destruct (IH _ _ Hr) as (Hs' & Hle & Hfx).
    change (pages_from (b, x + nova_get_log_entry_size ty, post)) with (pages_from (b, x, post)) in *.
    cbn [fst snd] in Hfx. pose proof (proj2 (size_8 ty)) as Hsz. split_and!; [by etrans| |intros H0; apply Hfx; specialize (Hx0 H0); lia].
    intros E.
    assert (E1 : pages_from (b, x, post) = pages_from p).
    { rewrite E in Hs'. apply (anti_symm suffix); done. }
    rewrite (Hx E1). specialize (Hle (eq_trans E (eq_sym E1))). cbn in Hle. lia.
  - intros [= <- <-]. split_and!; [done| |done]. intros E. by rewrite (Hx E).
Qed.

(** The entries of [D] end at page [last] or before. *)
Definition below_last (D : Z -> Prop) (last : Z) : Prop :=
  forall a, D a -> we_pgoff (went m a) + we_num_pages (went m a) - 1 <= last.

(** What the walk over [es], [k] entries at most, from [p] to [fin] does. *)
Record walked (st : rstate) (w : walk_state) (p : log_pos) (es : list (Z * Z * nova_entry_type))
    (fin : log_pos) (k : nat) (st' : rstate) (w' : walk_state) : Prop := {
  wd_curr : wk_curr w' = off_of fin;
  wd_fin : pos_ok sbi m n fin;
  wd_bm : exists Q ent, marks (rs_bm st) Q (rs_bm st') /\ pages_after p = ent ++ pages_after fin
    /\ forall y, Q y \/ held (rs_ring st') y
         <-> held (rs_ring st) y \/ y ∈ ent \/ file_block sbi m es y;
  wd_holds : exists D, ring_holds m n D (rs_ring st') /\ below_last D (wk_last w');
  wd_ring : same_ring (rs_ring st) (rs_ring st');
  wd_maps : rs_maps st' = rs_maps st;
  wd_btype : sc_i_blk_type (rs_sih st') = 0;
  wd_tid : sc_trans_id (rs_sih st') = last_trans (sc_trans_id (rs_sih st)) es;
  wd_size : sc_i_size (rs_sih st') = last_size (sc_i_size (rs_sih st)) es;
  wd_last : 0 <= wk_last w' < MAX_PGOFF;
  wd_trans : noted (latest (sc_trans_id (rs_sih st)) es) fin k (pages_from p) (wk_trans w) (wk_trans w')
}.

Lemma write_at_cons z es a :
  write_at sbi (z :: es) a <-> write_at sbi es a \/ (z.2 = FILE_WRITE /\ a = addr_of sbi z.1.1 z.1.2).
Proof.
  unfold write_at. split.
  - intros (b & x & [E|Hin]%elem_of_cons & ->); [right|left; by exists b, x]. by subst z.
  - intros [(b & x & Hin & ->)|[Hz ->]].
    + exists b, x. split; [by right|done].
    + destruct z as [[b x] ty]. simpl in *. subst ty. exists b, x. split; [left|done].
Qed.

Lemma file_block_cons z es y :
  file_block sbi m (z :: es) y <-> file_block sbi m es y
  \/ (z.2 = FILE_WRITE /\ live_entry m (addr_of sbi z.1.1 z.1.2) /\ has_block (went m (addr_of sbi z.1.1 z.1.2)) y).
Proof.
  unfold file_block. split.
  - intros (a & [Hw|[Hz ->]]%write_at_cons & Hl & Hb); [left; by exists a|right; done].
  - intros [(a & Hw & Hl & Hb)|(Hz & Hl & Hb)].
    + exists a. split; [|done]. apply write_at_cons. by left.
    + eexists. split; [apply write_at_cons; right; done|done].
Qed.

Lemma marks_cons_iff (Q Q1 H' H1 H E1 E F B : Prop) :
  (Q \/ H' <-> H1 \/ E \/ F) -> (Q1 \/ H1 <-> H \/ E1 \/ B) ->
  (Q1 \/ Q) \/ H' <-> H \/ (E1 \/ E) \/ (F \/ B).
Proof. tauto. Qed.

(** One entry, then the rest. *)
Lemma walked_cons st w p b x post ty es fin k st1 w1 ent1 Q1 st' w' :
  walked st1 w1 (b, x + nova_get_log_entry_size ty, post) es fin k st' w' ->
  pages_after p = ent1 ++ post -> marks (rs_bm st) Q1 (rs_bm st1) ->
  same_ring (rs_ring st) (rs_ring st1) -> rs_maps st1 = rs_maps st ->
  (forall y, Q1 y \/ held (rs_ring st1) y <-> held (rs_ring st) y \/ y ∈ ent1
     \/ (ty = FILE_WRITE /\ live_entry m (addr_of sbi b x) /\ has_block (went m (addr_of sbi b x)) y)) ->
  sc_trans_id (rs_sih st1) = last_trans (sc_trans_id (rs_sih st)) [(b, x, ty)] ->
  sc_i_size (rs_sih st1) = last_size (sc_i_size (rs_sih st)) [(b, x, ty)] ->
  suffix (pages_from (b, x, post)) (pages_from p) ->
  noted ((fun _ => (b, x, ty) :: es) <$> latest (sc_trans_id (rs_sih st)) [(b, x, ty)]) fin (S k) (pages_from p)
    (wk_trans w) (wk_trans w1) ->
  walked st w p ((b, x, ty) :: es) fin (S k) st' w'.
Proof.
  intros [Hcu Hfi (Q & ent & Hm & He & Hq) Hho Hri Hma Hbt Htd Hsz Hla Htr] Hp Hm1 Hr1 Hmp1 Hq1 Ht1 Hz1 Hsf Htr1.
  split; try done.
  - eexists _, (ent1 ++ ent). split_and!; [by eapply marks_trans| |].
    + rewrite Hp. simpl in He. by rewrite He, app_assoc.
    + intros y. cbv beta. rewrite file_block_cons, elem_of_app. specialize (Hq y). specialize (Hq1 y).
      exact (marks_cons_iff _ _ _ _ _ _ _ _ _ Hq Hq1).
  - by etrans.
  - congruence.
  - rewrite Htd, Ht1. by destruct ty.
  - rewrite Hsz, Hz1. by destruct ty.
  - assert (Hl : latest (sc_trans_id (rs_sih st)) ((b, x, ty) :: es)
                 = match latest (sc_trans_id (rs_sih st1)) es with
                   | Some l => Some l
                   | None => (fun _ => (b, x, ty) :: es) <$> latest (sc_trans_id (rs_sih st)) [(b, x, ty)]
                   end).
    { rewrite Ht1. destruct ty; cbn [latest last_trans].
      2-7: by destruct (latest (sc_trans_id (rs_sih st)) es).
      destruct (latest (we_trans_id (went m (addr_of sbi b x))) es); [done|].
      by destruct (we_trans_id (went m (addr_of sbi b x)) =? sc_trans_id (rs_sih st)). }
    rewrite Hl. destruct (latest (sc_trans_id (rs_sih st1)) es) as [l|].
    + destruct Htr as (t & Et & Hs). exists t. split; [done|]. eapply suffix_weaken; [|exact Hsf|exact Hs]. lia.
    + cbn [noted] in Htr. by rewrite Htr.
Qed.

(** The slots in use are below [top]. *)
Definition slots_below (r : task_ring) (top : Z) : Prop := forall i, nv r i <> 0 -> i < top.

(** The effect of a write entry on marks, array and header. *)
Lemma write_step D a st last top :
  ring_holds m n D (rs_ring st) -> below_last D last -> slots_below (rs_ring st) top -> nbits st = n -> a <> 0 -> entry_ok n (went m a) ->
  sc_i_blk_type (rs_sih st) = 0 -> 0 <= last < MAX_PGOFF ->
  exists st1 D1 Q curr_last,
    reads (nova_traverse_file_write_entry sbi a (went m a) 0) st m curr_last st1
    /\ marks (rs_bm st) Q (rs_bm st1)
    /\ (forall y, Q y \/ held (rs_ring st1) y
          <-> held (rs_ring st) y \/ (live_entry m a /\ has_block (went m a) y))
    /\ ring_holds m n D1 (rs_ring st1) /\ same_ring (rs_ring st) (rs_ring st1)
    /\ rs_maps st1 = rs_maps st /\ rs_sih st1 = set_i_size (we_size (went m a)) (rs_sih st)
    /\ slots_below (rs_ring st1)
         (if we_num_pages (went m a) =? we_invalid_pages (went m a) then top
          else Z.max top (we_pgoff (went m a) + we_num_pages (went m a)))
    /\ let last := if last <? curr_last then curr_last else last in
       below_last D1 last /\ 0 <= last < MAX_PGOFF.
Proof.
  intros Hh Hbl Htop Hnb Ha Hok Hbt Hla. set (e := went m a) in *. unfold nova_traverse_file_write_entry.
  destruct (eo_pages _ _ Hok) as (Hp0 & Hp1 & Hp2).
  set (st0 := with_sih (set_i_size (we_size e) (rs_sih st)) st).
  destruct (decide (we_num_pages e = we_invalid_pages e)) as [Ed|Ed].
  { exists st0, D, (fun _ => False), 0. rewrite (proj2 (Z.eqb_eq _ _) Ed).
    rewrite (proj2 (Z.ltb_ge last 0)) by lia. split_and!; try done; try lia.
    - apply marks_none. tauto.
    - intros y. unfold live_entry. fold e. simpl. tauto. }
  destruct (set_ring_array_reads sbi Hmc m n Hn D a st0) as (st1 & Hr & [(Q & Hm & Hq) Hh1 Hri Hsi Hma Hsl]);
    [done|done|done|done|done|].
  exists st1, (inserted D a), Q, (we_pgoff e + we_num_pages e - 1).
  rewrite (proj2 (Z.eqb_neq _ _) Ed). cbv zeta. set (last' := if last <? _ then _ else _).
  assert (Hl' : last <= last' /\ we_pgoff e + we_num_pages e - 1 <= last' < MAX_PGOFF).
  { unfold last'. case_match eqn:E; [apply Z.ltb_lt in E|apply Z.ltb_ge in E]; lia. }
  split_and!; try done; try lia.
  - apply reads_state_bind. rstep; [done|].
    rewrite (proj2 (Z.ltb_lt (we_pgoff e) _)) by (unfold MAX_PGOFF in *; lia).
    rewrite (u64_small (we_pgoff e + we_num_pages e)) by (unfold MAX_PGOFF in *; lia).
    rewrite (proj2 (Z.ltb_lt 0 _)) by lia. cbn [andb].
    rstep; [exact Hr|]. rewrite u64_small by (unfold MAX_PGOFF in *; lia). apply reads_ret.
  - intros y. rewrite Hq. unfold live_entry. fold e. simpl rs_ring. tauto.
  - intros i Hi. destruct (Hsl i Hi) as [Hi'|Hi']; [specialize (Htop i Hi'); lia|].
    unfold has_page in Hi'. fold e in Hi'. lia.
  - intros y [Hy| ->]; [|by apply Hl']. specialize (Hbl y Hy). lia.
Qed.

Lemma pages_for_last bits size : 0 <= bits -> 0 < size -> Z.shiftr (size - 1) bits + 1 = pages_for bits size.
Proof.
  intros Hb Hs. unfold pages_for. rewrite !Z.shiftr_div_pow2, Z.shiftl_mul_pow2 by lia.
  replace (size + 1 * 2 ^ bits - 1) with (size - 1 + 1 * 2 ^ bits) by lia.
  rewrite Z.div_add; lia.
Qed.

Lemma pages_for_mono bits a b : 0 <= bits -> a <= b -> pages_for bits a <= pages_for bits b.
Proof. intros Hb H. unfold pages_for. rewrite !Z.shiftr_div_pow2 by lia. apply Z.div_le_mono; lia. Qed.

(** Emptying the window from page [c] to the last page in use. *)
Lemma cut_slots D c top st :
  ring_holds m n D (rs_ring st) -> nbits st = n -> 0 <= c -> slots_below (rs_ring st) top -> top <= MAX_PGOFF ->
  exists st1 Q, reads (mark_replaced sbi (Z.to_nat (top - c)) c 0 0 0 0;;
                     fill_slots (Z.to_nat (top - c)) c 0 (fun _ => (0, 0))) st m () st1
    /\ marks (rs_bm st) Q (rs_bm st1)
    /\ (forall y, Q y \/ held (rs_ring st1) y <-> held (rs_ring st) y)
    /\ ring_holds m n D (rs_ring st1) /\ same_ring (rs_ring st) (rs_ring st1)
    /\ rs_maps st1 = rs_maps st /\ rs_sih st1 = rs_sih st
    /\ forall i, nv (rs_ring st1) i <> 0 -> i < c /\ nv (rs_ring st) i <> 0.
Proof.
  intros Hh Hnb Hc Htop Hmax. set (k := Z.to_nat (top - c)).
  assert (Hcase : top <= c /\ k = 0%nat \/ c < top /\ c + Z.of_nat k = top) by (unfold k; lia).
  destruct Hcase as [[Hle ->]|[Hlt Hk]].
  { exists st, (fun _ => False). split_and!; try done.
    - apply marks_none. tauto.
    - tauto.
    - intros i Hi. specialize (Htop i Hi). split; [lia|done]. }
  destruct (mark_replaced_reads sbi Hmc m n Hn D k c 0 0 0 st Hh Hnb) as (bm & Hr & Hm); [lia|lia|by intros ?|].
  destruct (fill_slots_reads m k c (fun _ => (0, 0)) (with_bm bm st)) as (r' & Hr' & Hs & Hnv & Hen); [lia|lia|].
  assert (Hnv' : forall i, nv r' i = if decide (c <= i) then 0 else nv (rs_ring st) i).
  { intros i. rewrite Hnv. repeat case_decide; try done; try lia.
    change (rs_ring (with_bm bm st)) with (rs_ring st). destruct (decide (nv (rs_ring st) i = 0)) as [|Hi]; [done|].
    specialize (Htop i Hi). lia. }
  exists (with_ring r' (with_bm bm st)). eexists. split_and!; [|exact Hm| | |exact Hs|done|done|].
  - rstep; [exact Hr|exact Hr'].
  - intros y. cbv beta. unfold held. change (rs_ring (with_ring r' (with_bm bm st))) with r'. split.
    + intros [(Hy & i & Ei & _)|(Hy & i & Ei)]; (split; [done|]); exists i; [done|].
      rewrite Hnv' in Ei. by case_decide.
    + intros (Hy & i & Ei). destruct (decide (c <= i)) as [Hi|Hi].
      * left. split; [done|]. exists i. split; [done|]. left. pose proof (Htop i). lia.
      * right. split; [done|]. exists i. rewrite Hnv'. by rewrite decide_False.
  - eapply holds_cut; [exact Hh|exact Hnv'|]. intros i Hi. cbn [rs_ring with_ring]. rewrite Hen. by rewrite decide_False by lia.
  - intros i. cbn [rs_ring with_ring]. rewrite Hnv'. case_decide; [done|]. intros Hi. split; [lia|done].
Qed.

(** An attribute entry. *)
Lemma setattr_step D size bits top st :
  ring_holds m n D (rs_ring st) -> nbits st = n -> 0 <= bits <= 30 -> slots_below (rs_ring st) top ->
  let i_size := sc_i_size (rs_sih st) in
  (i_size <= size \/ 0 <= size /\ i_size < TWO63 /\ top <= pages_for bits i_size) ->
  exists st1 Q, reads (nova_ring_setattr_entry sbi size 0 bits) st m () st1
    /\ marks (rs_bm st) Q (rs_bm st1)
    /\ (forall y, Q y \/ held (rs_ring st1) y <-> held (rs_ring st) y)
    /\ ring_holds m n D (rs_ring st1) /\ same_ring (rs_ring st) (rs_ring st1)
    /\ rs_maps st1 = rs_maps st /\ rs_sih st1 = set_i_size size (rs_sih st)
    /\ slots_below (rs_ring st1) (if i_size <=? size then top else Z.min top (pages_for bits size)).
Proof.
  intros Hh Hnb Hbits Htop i_size Hcut. unfold nova_ring_setattr_entry. fold i_size.
  assert (Hgo : forall (x : RM ()) st1 Q top', reads x st m () st1 ->
    marks (rs_bm st) Q (rs_bm st1) -> (forall y, Q y \/ held (rs_ring st1) y <-> held (rs_ring st) y) ->
    ring_holds m n D (rs_ring st1) -> same_ring (rs_ring st) (rs_ring st1) ->
    rs_maps st1 = rs_maps st -> rs_sih st1 = rs_sih st -> slots_below (rs_ring st1) top' ->
    exists st2 Q, reads (x;; st ← get_state; put_sih (set_i_size size (rs_sih st))) st m () st2
    /\ marks (rs_bm st) Q (rs_bm st2)
    /\ (forall y, Q y \/ held (rs_ring st2) y <-> held (rs_ring st) y)
    /\ ring_holds m n D (rs_ring st2) /\ same_ring (rs_ring st) (rs_ring st2)
    /\ rs_maps st2 = rs_maps st /\ rs_sih st2 = set_i_size size (rs_sih st)
    /\ slots_below (rs_ring st2) top').
  { intros x st1 Q top' Hx ? ? ? ? ? Es ?. exists (with_sih (set_i_size size (rs_sih st1)) st1), Q.
    split_and!; try done; [rstep; [exact Hx|]; by apply reads_state_bind|by simpl; rewrite Es]. }
  assert (Hnone : forall y, False \/ held (rs_ring st) y <-> held (rs_ring st) y) by tauto.
  assert (Hm0 : marks (rs_bm st) (fun _ => False) (rs_bm st)) by (apply marks_none; tauto).
  destruct (Z.leb_spec i_size size) as [Hle|Hgt].
  { destruct (Hgo (mret ()) st (fun _ => False) top) as (st2 & Q & Hr & Hrest); try done.
    exists st2, Q. split; [|exact Hrest]. apply reads_state_bind. cbv zeta. fold i_size.
    by rewrite (proj2 (Z.leb_le _ _)). }
  destruct Hcut as [?|(Hs0 & Hs63 & Htp)]; [lia|].
  assert (Hpow : 0 < 2 ^ bits <= 2 ^ 30) by (split; [lia|apply Z.pow_le_mono_r; lia]).
  assert (Efirst : Z.shiftr (u64 (size + Z.shiftl 1 bits - 1)) bits = pages_for bits size).
  { unfold pages_for. rewrite u64_small; [done|]. rewrite Z.shiftl_mul_pow2 by lia. lia. }
  assert (Elast : (if 0 <? s64 i_size then Z.shiftr (s64 i_size - 1) bits else 0) = pages_for bits i_size - 1).
  { rewrite s64_small by lia. rewrite (proj2 (Z.ltb_lt _ _)) by lia. rewrite <- pages_for_last by lia. lia. }
  assert (Hf0 : 0 <= pages_for bits size).
  { unfold pages_for. rewrite Z.shiftr_div_pow2, Z.shiftl_mul_pow2 by lia. apply Z.div_pos; lia. }
  set (first := pages_for bits size) in *. set (last := pages_for bits i_size) in *.
  assert (Hrew : forall x st2, reads ((if last - 1 <? first then mret () else x);;
        st ← get_state; put_sih (set_i_size size (rs_sih st))) st m () st2 ->
      x = (let l := if 0 + MAX_PGOFF - 1 <? last - 1 then 0 + MAX_PGOFF - 1 else last - 1 in
           mark_replaced sbi (Z.to_nat (l + 1 - first)) first 0 0 0 0;;
           fill_slots (Z.to_nat (l + 1 - first)) first 0 (fun _ => (0, 0))) ->
      reads (nova_ring_setattr_entry sbi size 0 bits) st m () st2).
  { intros x st2 Hr ->. unfold nova_ring_setattr_entry. apply reads_state_bind. cbv zeta. fold i_size.
    rewrite (proj2 (Z.leb_gt _ _)), Efirst, Elast by lia.
    rewrite (proj2 (Z.ltb_ge first 0)) by lia. exact Hr. }
  destruct (Z.ltb_spec (last - 1) first) as [Hlf|Hlf].
  { destruct (Hgo (mret ()) st (fun _ => False) (Z.min top first)) as (st2 & Q & Hr & Hrest); try done.
    { intros i Hi. specialize (Htop i Hi). lia. }
    exists st2, Q. split; [|exact Hrest]. by eapply Hrew. }
  set (l := if 0 + MAX_PGOFF - 1 <? last - 1 then 0 + MAX_PGOFF - 1 else last - 1).
  assert (Hl : l + 1 <= MAX_PGOFF /\ (forall i, nv (rs_ring st) i <> 0 -> i < l + 1)).
  { unfold l. case_match eqn:E; zbool; (split; [lia|]); intros i Hi; specialize (Htop i Hi);
      pose proof (holds_range _ _ _ _ _ Hh Hi); lia. }
  destruct Hl as [Hl1 Hl2].
  destruct (cut_slots D first (l + 1) st Hh Hnb Hf0 Hl2 Hl1)
    as (st1 & Q & Hr & Hm & Hq & Hh1 & Hs1 & Hmp1 & Hsi1 & Htop1).
  destruct (Hgo _ st1 Q (Z.min top first) Hr Hm Hq Hh1 Hs1 Hmp1 Hsi1) as (st2 & Q2 & Hr2 & Hrest).
  { intros i Hi. destruct (Htop1 i Hi) as [Hc Hi']. specialize (Htop i Hi'). lia. }
  exists st2, Q2. split; [|exact Hrest]. eapply Hrew; [exact Hr2|done].
Qed.

Lemma trans_step a st (tr : option Z) (curr : Z) :
  reads (if we_trans_id (went m a) =? sc_trans_id (rs_sih st) then mret tr
         else ws ← mem_op (load_words a ENTRY_WORDS);
              put_sih (set_trans_id (we_trans_id (WENTRY ws)) (rs_sih st));; mret (Some curr)) st m
    (if we_trans_id (went m a) =? sc_trans_id (rs_sih st) then tr else Some curr)
    (if we_trans_id (went m a) =? sc_trans_id (rs_sih st) then st
     else with_sih (set_trans_id (we_trans_id (went m a)) (rs_sih st)) st).
Proof.
  destruct (we_trans_id (went m a) =? sc_trans_id (rs_sih st)); [apply reads_ret|].
  rstep; [apply reads_mem, load_words_run|]. by rstep.
Qed.

(** The code in front of the [switch]. *)
Local Ltac enter :=
  lazymatch goal with
  | Hcu : wk_curr _ = _, Hr1 : reads (next_entry _ _ _) _ _ _ _, Hnz : off_of _ <> 0,
    Haddr : meta_addr _ _ = _, Hkr : entry_kind _ = Some _ |- _ =>
      rstep; [rewrite Hcu; exact Hr1|]; rewrite (proj2 (Z.eqb_neq _ _) Hnz); cbv zeta; rewrite Haddr;
      rstep; [by apply verified_reads|]; cbv beta iota; rewrite Hkr; cbv iota
  end.

Lemma file_log_loop_reads k fuel p es fin D st w bits top :
  read_log sbi m k p = Some (es, fin) -> pos_ok sbi m n p -> wk_curr w = off_of p -> (k <= fuel)%nat ->
  ring_holds m n D (rs_ring st) -> below_last D (wk_last w) -> nbits st = n ->
  sc_i_blk_type (rs_sih st) = 0 -> 0 <= bits <= 30 -> slots_below (rs_ring st) top ->
  cuts_ok sbi m bits (sc_i_size (rs_sih st)) top es -> log_ok es ->
  0 <= wk_last w < MAX_PGOFF ->
  exists st' w', reads (file_log_loop sbi fuel 0 bits w) st m (Some w') st' /\ walked st w p es fin k st' w'.
Proof.
  intros Hrd Hpos Hcu Hf Hh Hbl Hnb Hbt Hbits. revert fuel p es D st w top Hrd Hpos Hcu Hf Hh Hbl Hnb Hbt.
  induction k as [|k IH]; intros fuel p es D st w top Hrd Hpos Hcu Hf Hh Hbl Hnb Hbt Htop Hns Hok Hla; [done|].
  destruct fuel as [|fuel]; [lia|]. cbn [read_log] in Hrd. cbn [file_log_loop].
  destruct (land_at sbi m p) as [p1|] eqn:Hl; [|done]. cbn [mbind option_bind] in Hrd.
  destruct (next_entry_reads p p1 true st Hpos Hl Hnb) as (bm1 & ent1 & Hr1 & Hpos1 & Hpg & Hm1).
  destruct p1 as [[b x] post]. set (st1 := with_bm bm1 st).
  assert (Hnb1 : nbits st1 = n) by (unfold st1; by rewrite (nbits_marks _ _ _ Hm1)).
  pose proof Hpos1 as (Hb & Hx & Hal & _).
  assert (Hx' : 0 <= x < 4096) by (unfold LOG_BLOCK_TAIL in Hx; lia).
  assert (Hnz : off_of (b, x, post) <> 0) by (destruct Hb as [[? _] _]; unfold off_of; lia).
  assert (Haddr : meta_addr sbi (off_of (b, x, post)) = addr_of sbi b x) by (by apply pos_addr; [apply Hb|]).
  assert (Hm1' : marks (rs_bm st) (fun y => y ∈ ent1) bm1).
  { eapply marks_iff; [|exact Hm1]. tauto. }
  destruct (kind_at sbi m b x) as [ty|] eqn:Hk.
  2:{ injection Hrd as <- <-. exists st1, (WalkState (off_of (b, x, post)) (wk_last w) (wk_trans w)). split.
      - rstep; [rewrite Hcu; exact Hr1|]. rewrite (proj2 (Z.eqb_neq _ _) Hnz). cbv zeta. rewrite Haddr.
        rstep; [by apply verified_reads|]. cbv beta iota. rewrite entry_kind_reads, Hk. apply reads_ret.
      - split; try done; [|by exists D].
        + eexists _, ent1. split_and!; [exact Hm1'|done|]. intros y. unfold file_block, write_at.
          change (rs_ring st1) with (rs_ring st). set_solver. }
  destruct (LOG_BLOCK_TAIL <? x + nova_get_log_entry_size ty) eqn:Hsz; [done|].
  destruct (read_log sbi m k (b, x + nova_get_log_entry_size ty, post)) as [[es' fin']|] eqn:Hrd'; [|done].
  cbn [mbind option_bind] in Hrd. injection Hrd as <- <-.
  destruct (pos_after b x post ty Hpos1 Hsz) as [Hpos2 Hoff].
  assert (Hok' : log_ok es') by (intros a Ha; apply Hok, write_at_cons; by left).
  assert (Hgo : forall st2 trans2 last2 D2 Q1 top2,
    marks (rs_bm st) Q1 (rs_bm st2) -> same_ring (rs_ring st) (rs_ring st2) ->
    rs_maps st2 = rs_maps st -> ring_holds m n D2 (rs_ring st2) -> below_last D2 last2 ->
    0 <= last2 < MAX_PGOFF -> sc_i_blk_type (rs_sih st2) = 0 ->
    slots_below (rs_ring st2) top2 -> cuts_ok sbi m bits (sc_i_size (rs_sih st2)) top2 es' ->
    sc_trans_id (rs_sih st2) = last_trans (sc_trans_id (rs_sih st)) [(b, x, ty)] ->
    sc_i_size (rs_sih st2) = last_size (sc_i_size (rs_sih st)) [(b, x, ty)] ->
    noted ((fun _ => (b, x, ty) :: es') <$> latest (sc_trans_id (rs_sih st)) [(b, x, ty)]) fin' (S k)
      (pages_from p) (wk_trans w) trans2 ->
    (forall y, Q1 y \/ held (rs_ring st2) y <-> held (rs_ring st) y \/ y ∈ ent1
       \/ (ty = FILE_WRITE /\ live_entry m (addr_of sbi b x) /\ has_block (went m (addr_of sbi b x)) y)) ->
    exists st' w', reads (file_log_loop sbi fuel 0 bits
        (WalkState (u64 (off_of (b, x, post) + nova_get_log_entry_size ty)) last2 trans2)) st2 m (Some w') st'
      /\ walked st w p ((b, x, ty) :: es') fin' (S k) st' w').
  { intros st2 trans2 last2 D2 Q1 top2 Hm2 Hs2 Hmp2 Hh2 Hbl2 Hla2 Hbt2 Htop2 Hns2 Htid2 Hsz2 Htr2 Hq2.
    change (off_of (b, x, post)) with (b * 4096 + x). rewrite Hoff.
    destruct (IH fuel _ es' D2 st2 (WalkState (off_of (b, x + nova_get_log_entry_size ty, post)) last2 trans2) top2
                Hrd' Hpos2) as (st' & w' & Hr & Hwd); try done; [lia| |].
    { rewrite <- Hnb. by apply (marks_bits _ _ _ Hm2). }
    exists st', w'. split; [exact Hr|]. eapply walked_cons; try done. by apply land_pages. }
  pose proof (entry_kind_reads b x) as Hkr. rewrite Hk in Hkr.
  destruct ty.
  { (* a write *)
    set (a := addr_of sbi b x) in *.
    assert (Hw : write_at sbi ((b, x, FILE_WRITE) :: es') a) by (apply write_at_cons; by right).
    destruct (Hok _ Hw) as [Heok Hane].
    set (st1' := if we_trans_id (went m a) =? sc_trans_id (rs_sih st) then st1
                 else with_sih (set_trans_id (we_trans_id (went m a)) (rs_sih st)) st1).
    assert (Est1' : rs_bm st1' = bm1 /\ rs_ring st1' = rs_ring st /\ rs_maps st1' = rs_maps st
      /\ sc_trans_id (rs_sih st1') = we_trans_id (went m a) /\ sc_i_blk_type (rs_sih st1') = 0).
    { unfold st1'. destruct (Z.eqb_spec (we_trans_id (went m a)) (sc_trans_id (rs_sih st))); done. }
    destruct Est1' as (Ebm & Ering & Emaps & Etid & Ebt).
    destruct (write_step D a st1' (wk_last w) top)
      as (st2 & D2 & Q & cl & Hr2 & Hm2 & Hq2 & Hh2 & Hs2 & Hmp2 & Hsi2 & Htop2 & Hbl2 & Hla2);
      [by rewrite Ering|done|by rewrite Ering|unfold nbits; rewrite Ebm; exact Hnb1|done|done|done|done|].
    set (trans2 := if we_trans_id (went m a) =? sc_trans_id (rs_sih st) then wk_trans w
                   else Some (off_of (b, x, post))).
    rewrite Ebm in Hm2. rewrite Ering in Hs2. rewrite Emaps in Hmp2.
    destruct (Hgo st2 trans2 (if wk_last w <? cl then cl else wk_last w) D2 (fun y => y ∈ ent1 \/ Q y) _
                (marks_trans _ _ _ _ _ Hm1' Hm2) Hs2 Hmp2 Hh2 Hbl2 Hla2 ltac:(by rewrite Hsi2) Htop2)
      as (st' & w' & Hr & Hwd); try done.
    - rewrite Hsi2. exact Hns.
    - rewrite Hsi2. exact Etid.
    - by rewrite Hsi2.
    - cbn [latest]. fold a. unfold trans2.
      destruct (Z.eqb_spec (we_trans_id (went m a)) (sc_trans_id (rs_sih st))); [done|].
      exists (b, x, post). split; [done|]. split; [done|by eapply land_again| |by apply land_pages].
      exists (S k). split; [done|]. cbn [read_log]. rewrite (land_again p b x post FILE_WRITE Hl Hk Hsz). cbn [mbind option_bind].
      by rewrite Hk, Hsz, Hrd'.
    - intros y. specialize (Hq2 y). rewrite Ering in Hq2. tauto.
    - exists st', w'. split; [|exact Hwd]. enter. apply reads_state_bind.
      rstep; [exact (trans_step a st1 (wk_trans w) (off_of (b, x, post)))|].
      rstep; [exact Hr2|exact Hr]. }
  2:{ (* attributes *)
    destruct Hns as [Hle Hns].
    destruct (setattr_step D (cur m (addr_of sbi b x + 24)) bits top st1 Hh Hnb1 Hbits Htop Hle)
      as (st2 & Q & Hr2 & Hm2 & Hq2 & Hh2 & Hs2 & Hmp2 & Hsi2 & Htop2).
    destruct (Hgo st2 (wk_trans w) (wk_last w) D (fun y => y ∈ ent1 \/ Q y) _
                (marks_trans _ _ _ _ _ Hm1' Hm2) Hs2 Hmp2 Hh2 Hbl Hla ltac:(by rewrite Hsi2) Htop2)
      as (st' & w' & Hr & Hwd); try done.
    - rewrite Hsi2. exact Hns.
    - by rewrite Hsi2.
    - by rewrite Hsi2.
    - intros y. specialize (Hq2 y). change (rs_ring st1) with (rs_ring st) in Hq2.
      clear -Hq2. intuition done.
    - exists st', w'. split; [|exact Hwd]. enter.
      rstep; [|exact Hr]. unfold setattr_size. rewrite words_nth by (unfold ENTRY_WORDS; lia).
      change (8 * Z.of_nat 3) with 24. exact Hr2. }
  all: destruct (Hgo st1 (wk_trans w) (wk_last w) D (fun y => y ∈ ent1) top) as (st' & w' & Hr & Hwd); try done;
    [intros y; simpl; split; [intros [?|?]; auto|intros [?|[?|[? _]]]; [auto|auto|done]]
    |exists st', w'; split; [enter; exact Hr|exact Hwd]].
Qed.

(** ** The latest transaction *)

Context (ls : list free_list) (kmalloc : Z -> bool).

(** The checksums of the blocks of the entry are right. *)
Definition csums_ok (e : write_entry) : Prop :=
  forall i, 0 <= i < we_num_pages e ->
    nova_verify_data_csum sbi ls kmalloc 0 (we_blocknr e + i) 4096 m = (Some true, []).

Lemma valid_csum_reads e st :
  entry_ok n e -> csums_ok e -> sc_i_blk_type (rs_sih st) = 0 ->
  reads (nova_vaild_data_csum sbi ls kmalloc e) st m true st.
Proof.
  intros Hok Hcs Hbt. destruct (eo_block _ _ Hok) as [Hb1 Hb2], (eo_pages _ _ Hok) as (Hp0 & Hp1 & Hp2).
  assert (Hgen : forall k i ret, 0 <= i -> Z.of_nat k + i = we_num_pages e -> (k <> 0%nat \/ ret = Some true) ->
    reads (valid_csum_loop sbi ls kmalloc k i e ret) st m true st).
  { induction k as [|k IH]; intros i ret Hi Hk Hr; cbn [valid_csum_loop].
    - destruct Hr as [?| ->]; [done|apply reads_ret].
    - apply reads_state_bind. cbv zeta. rewrite Hbt. rstep.
      + apply reads_mem_opt. unfold get_nvmm. change (nova_get_numblocks 0) with 1.
        unfold MAX_PGOFF in *. rewrite (u64_small (we_pgoff e + i)) by lia.
        replace (we_pgoff e + i - we_pgoff e) with i by lia.
        rewrite (u64_small i), Z.mul_1_r, (u64_small (we_blocknr e + i)) by lia.
        apply Hcs. lia.
      + cbv beta iota. cbn [negb]. apply IH; [lia|lia|by right]. }
  apply Hgen; lia.
Qed.

Lemma trans_check_reads k fuel t es fin st :
  read_log sbi m k t = Some (es, fin) -> pos_ok sbi m n t -> (k <= fuel)%nat -> nbits st = n ->
  sc_i_blk_type (rs_sih st) = 0 ->
  (forall a, write_at sbi es a -> entry_ok n (went m a) /\ csums_ok (went m a)) ->
  reads (trans_check_loop sbi ls kmalloc fuel (off_of t) (off_of fin)) st m false st.
Proof.
  revert fuel t es. induction k as [|k IH]; intros fuel t es Hrd Hpos Hf Hnb Hbt Hcs; [done|].
  destruct fuel as [|fuel]; [lia|]. cbn [read_log] in Hrd. cbn [trans_check_loop].
  destruct (off_of t =? off_of fin); [apply reads_ret|].
  destruct (land_at sbi m t) as [p1|] eqn:Hl; [|done]. cbn [mbind option_bind] in Hrd.
  destruct (next_entry_reads t p1 false st Hpos Hl Hnb) as (bm1 & ent1 & Hr1 & Hpos1 & _ & Hm1).
  assert (Ebm : with_bm bm1 st = st).
  { destruct st as [bm r h mp]. unfold with_bm. simpl in *. f_equal.
    destruct bm1 as [[s1 b1] b2 b3], bm as [[s c1] c2 c3]. destruct Hm1 as [A B C D]. simpl in *. subst. f_equal. f_equal.
    apply set_eq. intros y. rewrite D. split; [intros [?|[? _]]; done|by left]. }
  rewrite Ebm in Hr1. destruct p1 as [[b x] post].
  assert (Hx' : 0 <= x < 4096) by (destruct Hpos1 as (_ & Hx & _); unfold LOG_BLOCK_TAIL in Hx; lia).
  assert (Haddr : meta_addr sbi (off_of (b, x, post)) = addr_of sbi b x)
    by (apply pos_addr; [apply Hpos1|done]).
  rstep; [exact Hr1|]. cbv zeta. rewrite Haddr.
  rstep; [apply reads_mem, load_words_run|]. cbv beta. rewrite entry_kind_reads.
  destruct (kind_at sbi m b x) as [ty|] eqn:Hk; [|apply reads_ret].
  destruct (LOG_BLOCK_TAIL <? x + nova_get_log_entry_size ty) eqn:Hsz; [done|].
  destruct (read_log sbi m k (b, x + nova_get_log_entry_size ty, post)) as [[es' fin']|] eqn:Hrd'; [|done].
  cbn [mbind option_bind] in Hrd. injection Hrd as <- <-.
  destruct (pos_after b x post ty Hpos1 Hsz) as [Hpos2 Hoff].
  assert (Hcs' : forall a, write_at sbi es' a -> entry_ok n (went m a) /\ csums_ok (went m a)).
  { intros a Ha. apply Hcs, write_at_cons. by left. }
  assert (Hgo : reads (trans_check_loop sbi ls kmalloc fuel
      (u64 (off_of (b, x, post) + nova_get_log_entry_size ty)) (off_of fin')) st m false st).
  { change (off_of (b, x, post)) with (b * 4096 + x). rewrite Hoff. eapply IH; [done|done|lia|done..]. }
  destruct ty; try exact Hgo.
  destruct (Hcs (addr_of sbi b x)) as [Hok Hc]; [apply write_at_cons; by right|].
  rstep; [apply (valid_csum_reads _ st Hok Hc Hbt)|]. exact Hgo.
Qed.

(** Without data checksums there is no address to verify against: the check of
    any write entry with pages goes through a null pointer. *)
Lemma scan_needs_data_csums e st :
  data_csum = false -> 0 < we_num_pages e -> kmalloc 0 = true -> sc_i_blk_type (rs_sih st) = 0 ->
  fails (nova_vaild_data_csum sbi ls kmalloc e) st m.
Proof.
  intros Hd Hnp Hk Hb. unfold nova_vaild_data_csum. destruct (Z.to_nat (we_num_pages e)) as [|k] eqn:E; [lia|].
  cbn [valid_csum_loop]. apply fails_state_bind. cbv zeta. apply fails_bind, fails_mem_opt. rewrite Hb.
  unfold nova_verify_data_csum. change (Z.to_nat _) with 1%nat. cbn [verify_blocks]. rewrite Hk. cbn [negb].
  change STRIPES_PER_BLOCK with 8%nat. cbn [verify_stripes]. unfold nova_get_data_csum_addr. by rewrite Hd.
Qed.

(** The latest transaction starts with a write entry, and is part of the log. *)
Lemma latest_head tid es l :
  latest tid es = Some l -> (exists b x l', l = (b, x, FILE_WRITE) :: l') /\ (forall z, z ∈ l -> z ∈ es).
Proof.
  revert tid. induction es as [|[[b x] ty] es IH]; intros tid; [done|]. cbn [latest]. intros H.
  assert (Hrec : forall tid', latest tid' es = Some l ->
    (exists b x l', l = (b, x, FILE_WRITE) :: l') /\ (forall z, z ∈ l -> z ∈ (b, x, ty) :: es)).
  { intros tid' Hl. destruct (IH tid' Hl) as [H1 H2]. split; [done|]. intros z Hz. right. by apply H2. }
  destruct ty; try (by eapply Hrec). destruct (latest _ es) as [l0|] eqn:El.
  - injection H as ->. by eapply Hrec.
  - destruct (_ =? _); [done|]. injection H as <-. split; [by do 3 eexists|done].
Qed.

Lemma latest_none tid es : latest tid es = None -> last_trans tid es = tid.
Proof.
  revert tid. induction es as [|[[b x] ty] es IH]; intros tid; [done|]. cbn [latest last_trans].
  destruct ty; try apply IH. destruct (latest _ es) eqn:El; [done|].
  destruct (Z.eqb_spec (we_trans_id (went m (addr_of sbi b x))) tid) as [<-|]; [|done]. intros _. by apply IH.
Qed.

Lemma latest_write tid es l a : latest tid es = Some l -> write_at sbi l a -> write_at sbi es a.
Proof. intros Hl (b & x & Hin & ->). exists b, x. split; [|done]. by apply (latest_head _ _ _ Hl). Qed.

(** ** A pass over the log *)

(** The log of a file as the scan can walk it: its pages, its entries, and the
    end it finds; the entries name pages of the first window and blocks the
    bitmap covers; attribute entries cut the file at its end. *)
Record readable (fuel : nat) (i_size : Z) (pi : fake_pi) (bs : list Z)
    (es : list (Z * Z * nova_entry_type)) : Prop := {
  rd_pages : page_chain sbi m (pi_log_head pi) bs /\ bs <> [] /\ Forall (page_ok n) bs
    /\ (length bs <= fuel)%nat;
  rd_log : exists k fin, (k <= fuel)%nat /\ read_log sbi m k (hd 0 bs, 0, tl bs) = Some (es, fin);
  rd_tail : pi_log_tail pi <> 0;
  rd_entries : forall a, write_at sbi es a -> entry_ok n (went m a) /\ a <> 0;
  rd_cuts : cuts_ok sbi m (blk_type_to_shift (pi_i_blk_type pi)) i_size 0 es
}.

(** There is a latest transaction and its data is what the checksums say. *)
Definition intact (tid : Z) (es : list (Z * Z * nova_entry_type)) : Prop :=
  exists l, latest tid es = Some l /\ forall a, write_at sbi l a -> csums_ok (went m a).

(** What the log of a file must be like for the scan to mark all of it. *)
Definition scannable (fuel : nat) (tid i_size : Z) (pi : fake_pi) (bs : list Z)
    (es : list (Z * Z * nova_entry_type)) : Prop :=
  readable fuel i_size pi bs es /\ intact tid es.

Lemma check_last_reads fuel l fin k pgs st w t :
  wk_curr w = off_of fin -> wk_trans w = Some (off_of t) -> suffix_at l fin k pgs t -> (k <= fuel)%nat ->
  nbits st = n -> sc_i_blk_type (rs_sih st) = 0 ->
  (forall a, write_at sbi l a -> entry_ok n (went m a) /\ csums_ok (went m a)) ->
  reads (check_last_trans sbi ls kmalloc fuel 0 w) st m () st.
Proof.
  intros Hcu Et [Hpos _ (k' & Hk & Hrd) _] Hf Hnb Hbt Hcs. unfold check_last_trans.
  apply reads_state_bind. destruct (sc_trans_id (rs_sih st) =? NO_CKPT); [apply reads_ret|].
  rewrite Et, Hcu. apply (reads_bind _ _ _ _ false st _ st); [|apply reads_ret].
  eapply trans_check_reads; [done|done|lia|done..].
Qed.

(** The check with no transaction. *)
Lemma check_last_unset fuel st w :
  sc_trans_id (rs_sih st) <> NO_CKPT -> wk_trans w = None -> fails (check_last_trans sbi ls kmalloc fuel 0 w) st m.
Proof.
  intros Hne Et. unfold check_last_trans. apply fails_state_bind.
  rewrite (proj2 (Z.eqb_neq _ _) Hne), Et. done.
Qed.

(** The check without data checksums. *)
Lemma check_last_no_csums fuel b x l fin k pgs st w t :
  wk_curr w = off_of fin -> wk_trans w = Some (off_of t) -> suffix_at ((b, x, FILE_WRITE) :: l) fin k pgs t ->
  NoDup pgs -> sc_trans_id (rs_sih st) <> NO_CKPT -> data_csum = false -> kmalloc 0 = true ->
  (k <= fuel)%nat -> sc_i_blk_type (rs_sih st) = 0 -> nbits st = n -> 0 < we_num_pages (went m (addr_of sbi b x)) ->
  fails (check_last_trans sbi ls kmalloc fuel 0 w) st m.
Proof.
  intros Hcu Et [Hpos Hhere (k' & Hk & Hrd) Hsf] Hnd Hne Hd Hkm Hf Hbt Hnb Hnp. unfold check_last_trans.
  apply fails_state_bind. rewrite (proj2 (Z.eqb_neq _ _) Hne), Et, Hcu. apply fails_bind.
  destruct k' as [|k']; [done|]. cbn [read_log] in Hrd. rewrite Hhere in Hrd. cbn [mbind option_bind] in Hrd.
  destruct t as [[b1 x1] post]. destruct (kind_at sbi m b1 x1) as [ty|] eqn:Hki; [|done].
  destruct (LOG_BLOCK_TAIL <? x1 + nova_get_log_entry_size ty) eqn:Hsz; [done|].
  destruct (read_log sbi m k' (b1, x1 + nova_get_log_entry_size ty, post)) as [[es' fin']|] eqn:Hr; [|done].
  cbn [mbind option_bind] in Hrd. injection Hrd as -> -> -> _ ->.
  destruct (pos_after b x post FILE_WRITE Hpos Hsz) as [Hpos' _].
  destruct (read_log_end _ _ _ _ Hr) as (Hs & Hle & Hfx).
  pose proof Hpos as (Hb & Hx & Hal & _). cbn [fst snd nova_get_log_entry_size] in *.
  assert (Hx' : 0 <= x < 4096) by (unfold LOG_BLOCK_TAIL in Hx; lia). specialize (Hfx ltac:(lia)).
  assert (Hoff : off_of (b, x, post) <> off_of fin).
  { intros E. destruct fin as [[bf xf] pf]. cbn [off_of fst snd] in *. assert (bf = b /\ xf = x) as [-> ->] by lia.
    change (suffix (b :: pf) (b :: post)) in Hs. apply suffix_cons_inv in Hs as [[= ->]|Hs].
    - specialize (Hle eq_refl). lia.
    - destruct Hsf as [pre ->]. apply NoDup_app in Hnd as (_ & _ & Hnd). change (NoDup (b :: post)) in Hnd.
      apply NoDup_cons in Hnd as [Hnd _]. apply Hnd. eapply elem_of_suffix; [by left|exact Hs]. }
  destruct fuel as [|fuel]; [lia|]. cbn [trans_check_loop]. rewrite (proj2 (Z.eqb_neq _ _) Hoff).
  destruct (next_entry_reads (b, x, post) (b, x, post) false st Hpos Hhere Hnb) as (bm1 & ent1 & Hr1 & _ & _ & Hm1).
  fstep; [exact Hr1|]. cbv zeta. assert (Haddr : meta_addr sbi (off_of (b, x, post)) = addr_of sbi b x)
    by (by apply pos_addr; [apply Hb|]). rewrite Haddr.
  fstep; [apply reads_mem, load_words_run|]. cbv beta. rewrite entry_kind_reads, Hki. cbv iota.
  by apply fails_bind, scan_needs_data_csums.
Qed.

(** The marks of a file: its log pages and its blocks. *)
Definition file_marks (bs : list Z) (es : list (Z * Z * nova_entry_type)) (x : Z) : Prop :=
  x ∈ bs \/ file_block sbi m es x.

(** The array is empty between two files. *)
Definition ring_empty (r : task_ring) : Prop := forall i, nv r i = 0.

(** Everything but the header after the scan of an inode. *)
Record scanned (st : rstate) (P : Z -> Prop) (tid i_size : Z) (st' : rstate) : Prop := {
  sd_bm : marks (rs_bm st) P (rs_bm st');
  sd_empty : ring_empty (rs_ring st');
  sd_addrs : addr0 (rs_ring st') = addr0 (rs_ring st) /\ addr1 (rs_ring st') = addr1 (rs_ring st)
    /\ num (rs_ring st') = num (rs_ring st)
    /\ inodes_used_count (rs_ring st') = inodes_used_count (rs_ring st);
  sd_maps : rs_maps st' = rs_maps st;
  sd_btype : sc_i_blk_type (rs_sih st') = 0;
  sd_tid : sc_trans_id (rs_sih st') = tid;
  sd_size : sc_i_size (rs_sih st') = i_size
}.

Lemma held_empty r y : ring_empty r -> ~ held r y.
Proof. intros He (Hy & i & E). by rewrite He in E. Qed.

Lemma pass_tail_reads {A} (a : A) D fuel b x post st w :
  ring_holds m n D (rs_ring st) -> below_last D (wk_last w) -> 0 <= wk_last w < MAX_PGOFF ->
  wk_curr w = off_of (b, x, post) -> pos_ok sbi m n (b, x, post) -> (length post <= fuel)%nat -> nbits st = n ->
  exists st', reads ((next ← mem_op (next_log_page sbi (BLOCK_OFF (wk_curr w)));
                      pages_loop sbi fuel next);; nova_set_file_bm 0 (wk_last w);; mret a) st m a st'
    /\ marks (rs_bm st) (fun y => y ∈ post \/ held (rs_ring st) y) (rs_bm st')
    /\ ring_empty (rs_ring st') /\ same_ring (rs_ring st) (rs_ring st')
    /\ rs_sih st' = rs_sih st /\ rs_maps st' = rs_maps st.
Proof.
  intros Hh Hbl Hla Hcu (Hb & Hx & _ & Hc & Hpost) Hf Hnb.
  destruct (pages_loop_reads sbi G fuel post _ st m Hc) as (bm1 & Hr1 & Hm1); [by rewrite Hnb|done|].
  destruct (file_bm_reads m n Hn D (Z.to_nat (wk_last w + 1)) 0 (with_bm bm1 st))
    as (st2 & Hr2 & Hm2 & Hs2 & Hsi2 & Hmp2 & Hnv2); [done| |lia|lia|].
  { by rewrite (nbits_marks _ _ _ Hm1). }
  assert (Hzero : forall i, ~ (0 <= i < 0 + Z.of_nat (Z.to_nat (wk_last w + 1))) -> nv (rs_ring st) i = 0).
  { intros i Hi. destruct (decide (nv (rs_ring st) i = 0)) as [|Hne]; [done|].
    destruct (rh_val _ _ _ _ Hh i Hne) as (HD & Hpg & _). pose proof (Hbl _ HD).
    pose proof (holds_range _ _ _ _ _ Hh Hne). unfold has_page in Hpg. lia. }
  exists st2. split_and!; try done.
  - rewrite Hcu. unfold off_of. rewrite block_off by (unfold LOG_BLOCK_TAIL in Hx; lia).
    rstep.
    { rstep; [rewrite <- (Z.add_0_r (b * 4096)); apply next_page_reads; [done|apply Hb|lia]|exact Hr1]. }
    rstep; [|apply reads_ret]. unfold nova_set_file_bm. rewrite (proj2 (Z.leb_gt _ _)) by lia.
    rewrite Z.sub_0_r, u64_small by (unfold MAX_PGOFF in *; lia). exact Hr2.
  - eapply marks_iff; [|eapply marks_trans; [exact Hm1|exact Hm2]]. intros y. cbv beta. unfold held.
    change (rs_ring (with_bm bm1 st)) with (rs_ring st). split.
    + intros [?|(Hy & i & _ & E)]; [by left|right]. split; [done|]. by exists i.
    + intros [?|(Hy & i & E)]; [by left|right]. split; [done|]. exists i. split; [|done].
      destruct (decide (0 <= i < 0 + Z.of_nat (Z.to_nat (wk_last w + 1)))) as [|Hi]; [done|].
      apply Hzero in Hi. congruence.
  - intros i. rewrite Hnv2. case_decide as Hd; [done|]. by apply Hzero.
Qed.

(** The first walk of a pass over the file. *)
Lemma file_walk_reads fuel pi bs es st :
  readable fuel (sc_i_size (rs_sih st)) pi bs es -> nbits st = n -> ring_empty (rs_ring st) ->
  sc_i_blk_type (rs_sih st) = 0 ->
  exists b0 bs' bm0 st1 w1 bf xf pf k,
    let st0 := with_bm bm0 st in
    bs = b0 :: bs' /\ pi_log_head pi = b0 * 4096 /\ b0 * 4096 <> 0
    /\ reads (mark_page (b0 * 4096)) st m () st0 /\ marks (rs_bm st) (fun y => y = b0) bm0
    /\ reads (file_log_loop sbi fuel 0 (blk_type_to_shift (pi_i_blk_type pi)) (WalkState (b0 * 4096) 0 None))
         st0 m (Some w1) st1
    /\ walked st0 (WalkState (b0 * 4096) 0 None) (b0, 0, bs') es (bf, xf, pf) k st1 w1
    /\ (k <= fuel)%nat /\ nbits st1 = n /\ (length pf <= fuel)%nat.
Proof.
  intros [(Hc & Hne & Hbs & Hlf) (k & [[bf xf] pf] & Hkf & Hrd) _ Hes Hcut] Hnb Hre Hbt.
  destruct bs as [|b0 bs]; [done|]. destruct Hc as [Eh Hc]. apply Forall_cons in Hbs as [Hb0 Hbs].
  cbn [hd tl] in Hrd.
  destruct (mark_page_reads b0 st m) as (bm0 & Hr0 & Hm0); [by rewrite Hnb|].
  set (st0 := with_bm bm0 st). assert (Hnb0 : nbits st0 = n) by (unfold st0; by rewrite (nbits_marks _ _ _ Hm0)).
  assert (Hpos0 : pos_ok sbi m n (b0, 0, bs)) by (split_and!; try done; unfold LOG_BLOCK_TAIL; lia).
  destruct (file_log_loop_reads k fuel (b0, 0, bs) es (bf, xf, pf) (fun _ => False) st0
              (WalkState (b0 * 4096) 0 None) (blk_type_to_shift (pi_i_blk_type pi)) 0)
    as (st1 & w1 & Hr1 & Hwd); try done.
  { simpl. lia. }
  { by apply holds_empty. }
  { by intros a []. }
  { unfold blk_type_to_shift. destruct (Z.to_nat (pi_i_blk_type pi)) as [|[|[|[|[|]]]]]; simpl; lia. }
  { intros i Hi. by rewrite Hre in Hi. }
  exists b0, bs, bm0, st1, w1, bf, xf, pf, k. cbv zeta. fold st0.
  pose proof (wd_bm _ _ _ _ _ _ _ _ Hwd) as (Q & ent & Hm1 & He & _).
  split_and!; try done.
  - destruct Hb0 as [[? _] _]. lia.
  - rewrite <- Hnb0. apply (marks_bits _ _ _ Hm1).
  - simpl in He. apply (f_equal length) in He. rewrite length_app in He. simpl in Hlf. lia.
Qed.

(** A pass up to the check of the latest transaction. *)
Lemma file_pass_fails fuel passes pi bs es st :
  readable fuel (sc_i_size (rs_sih st)) pi bs es -> nbits st = n -> ring_empty (rs_ring st) ->
  sc_i_blk_type (rs_sih st) = 0 -> last_trans (sc_trans_id (rs_sih st)) es <> NO_CKPT ->
  latest (sc_trans_id (rs_sih st)) es = None
    \/ NoDup bs /\ data_csum = false /\ kmalloc 0 = true /\ is_Some (latest (sc_trans_id (rs_sih st)) es) ->
  fails (nova_traverse_file_inode_log sbi ls kmalloc (S passes) fuel pi) st m.
Proof.
  intros Hrd Hnb Hre Hbt Hne Hcase. pose proof (rd_tail _ _ _ _ _ Hrd) as Htail. pose proof (rd_entries _ _ _ _ _ Hrd) as Hes.
  destruct (file_walk_reads fuel pi bs es st Hrd Hnb Hre Hbt)
    as (b0 & bs' & bm0 & st1 & w1 & bf & xf & pf & k & -> & Eh & Hnz & Hr0 & Hm0 & Hr1 & Hwd & Hkf & Hnb1 & Hlen).
  pose proof (wd_trans _ _ _ _ _ _ _ _ Hwd) as Htr. cbn [rs_sih with_bm] in Htr.
  unfold nova_traverse_file_inode_log. rewrite Hmc. fstep; [apply reads_ret|]. cbn [file_log_passes].
  apply fails_bind. unfold file_log_pass. rewrite Eh, (proj2 (Z.eqb_neq _ _) Hnz), (proj2 (Z.eqb_neq _ _) Htail).
  cbn [orb]. fstep; [exact Hr0|]. fstep; [exact Hr1|]. cbv beta iota zeta. apply fails_bind.
  assert (Hne1 : sc_trans_id (rs_sih st1) <> NO_CKPT) by (by rewrite (wd_tid _ _ _ _ _ _ _ _ Hwd)).
  destruct Hcase as [Hl|(Hnd & Hd & Hkm & [l Hl])]; rewrite Hl in Htr; cbn [noted] in Htr.
  - by apply check_last_unset.
  - destruct Htr as (t & Et & Hs). destruct (latest_head _ _ _ Hl) as [(b & x & l' & ->) Hin].
    eapply check_last_no_csums; [apply (wd_curr _ _ _ _ _ _ _ _ Hwd)|exact Et|exact Hs|exact Hnd
      |exact Hne1|exact Hd|exact Hkm|exact Hkf| |exact Hnb1|].
    + apply (wd_btype _ _ _ _ _ _ _ _ Hwd).
    + destruct (Hes (addr_of sbi b x)) as [Hok _]; [exists b, x; split; [apply Hin; by left|done]|]. apply Hok.
Qed.

Lemma file_log_reads fuel passes pi bs es st :
  scannable fuel (sc_trans_id (rs_sih st)) (sc_i_size (rs_sih st)) pi bs es -> nbits st = n -> ring_empty (rs_ring st) ->
  sc_i_blk_type (rs_sih st) = 0 ->
  exists st', reads (nova_traverse_file_inode_log sbi ls kmalloc (S passes) fuel pi) st m () st'
    /\ scanned st (file_marks bs es) (last_trans (sc_trans_id (rs_sih st)) es)
         (last_size (sc_i_size (rs_sih st)) es) st'.
Proof.
  intros [Hrd (l & Hl & Hcs)] Hnb Hre Hbt. pose proof (rd_tail _ _ _ _ _ Hrd) as Htail.
  pose proof (rd_entries _ _ _ _ _ Hrd) as Hes.
  destruct (file_walk_reads fuel pi bs es st Hrd Hnb Hre Hbt)
    as (b0 & bs' & bm0 & st1 & w1 & bf & xf & pf & k & -> & Eh & Hnz & Hr0 & Hm0 & Hr1 & Hwd & Hkf & Hnb1 & Hlen).
  destruct Hwd as [Hcu Hfi (Q & ent & Hm1 & He & Hq) (D & Hh & Hbl) Hri Hma Hbt1 Htd Hsz Hla Htr].
  cbn [rs_sih with_bm] in Htr. rewrite Hl in Htr. destruct Htr as (t & Et & Hs). set (st0 := with_bm bm0 st) in *.
  set (pi' := if wk_curr w1 =? pi_log_tail pi then pi else set_pi_tail (wk_curr w1) pi).
  destruct (pass_tail_reads (Some (pi', w1)) D fuel bf xf pf st1 w1 Hh Hbl Hla Hcu Hfi Hlen Hnb1)
    as (st2 & Hr2 & Hm2 & Hre2 & Hri2 & Hsi2 & Hma2).
  exists st2. split.
  - unfold nova_traverse_file_inode_log. rewrite Hmc. rstep; [apply reads_ret|]. cbn [file_log_passes].
    apply (reads_bind _ _ _ _ (Some (pi', w1)) st2).
    + unfold file_log_pass. rewrite Eh, (proj2 (Z.eqb_neq _ _) Hnz), (proj2 (Z.eqb_neq _ _) Htail).
      cbn [orb]. rstep; [exact Hr0|]. rstep; [exact Hr1|]. cbv beta iota zeta.
      fold pi'. rstep; [|exact Hr2].
      eapply check_last_reads; [exact Hcu|exact Et|exact Hs|exact Hkf|done|done|].
      intros a Ha. split; [by apply Hes, (latest_write _ _ _ _ Hl)|by apply Hcs].
    + cbv beta iota. rewrite (proj2 (Z.leb_gt _ _)) by lia. apply reads_ret.
  - destruct Hri as (A1 & A2 & A3 & A4), Hri2 as (B1 & B2 & B3 & B4).
    change (rs_ring st0) with (rs_ring st) in A1, A2, A3, A4. split.
    + eapply marks_iff; [|eapply marks_trans; [exact Hm0|eapply marks_trans; [exact Hm1|exact Hm2]]].
      intros y. cbv beta. specialize (Hq y). pose proof (held_empty (rs_ring st) y Hre) as Hy.
      change (rs_ring st0) with (rs_ring st) in Hq. unfold file_marks. simpl in He. rewrite He, elem_of_cons, elem_of_app.
      clear -Hq Hy. tauto.
    + done.
    + split_and!; congruence.
    + by rewrite Hma2, Hma.
    + by rewrite Hsi2.
    + by rewrite Hsi2, Htd.
    + by rewrite Hsi2, Hsz.
Qed.
End walk.
