(* ===== verification/RecoveryNumbers.v ===== *)
(** Inode numbers found by recovery: entering a run of numbers in the map of
    its CPU, and the run a superpage leaves open. *)

From S2P Require Import Prelude.
From S2P Require Import Kernel.
From S2P Require Import Checksum.
From S2P Require Import RangeTree.
From S2P Require Import RangeTreeSpec.
From S2P Require Import Layout.
From S2P Require Import FreeList.
From S2P Require Import FreeListSpec.
From S2P Require Import InodeMap.
From S2P Require Import InodeMapSpec.
From S2P Require Import InodeMapTheorems.
From S2P Require Import ScanBitmap.
From S2P Require Import Recovery.

Section map.
Context {RB : RbOps} {KM : KmemOps} {CR : CrcOps} {MP : ModParams}.
Context {RBL : RbLaws} {KML : KmemLaws}.

Lemma head_mid {A} (l : list A) p X Y : head (l ++ p :: X) = head (l ++ p :: Y).
Proof. by destruct l. Qed.

Lemma head_fst (l : list (Z * Z)) a b b' X Y :
  fst <$> head (l ++ (a, b) :: X) = fst <$> head (l ++ (a, b') :: Y).
Proof. by destruct l. Qed.

Lemma store_node_ext p f g T : f (deref T p) = g (deref T p) -> store_node p f T = store_node p g T.
Proof. intros E. unfold store_node, update_node. by rewrite E. Qed.

(** The numbers [lo..hi] joined the map. *)
Definition joined (im : inode_map) (lo hi : Z) (im' : inode_map) : Prop :=
  map_wf im' /\ forall x, used im' x <-> used im x \/ lo <= x <= hi.

(** Where the run goes: behind node [p], which is not the first node or starts
    at 0, and before the nodes [l2]. *)
Record gap_at (im : inode_map) (l1 : list ptr) (p : ptr) (l2 : list ptr) (a c lo hi : Z) : Prop := {
  ga_wf : map_wf im;
  ga_ids : ids (inode_inuse_tree im) = l1 ++ p :: l2;
  ga_rng : rng (inode_inuse_tree im) p = (a, c);
  ga_lo : c < lo <= hi;
  ga_above : above (inode_inuse_tree im) l2 hi;
  ga_max : hi < MAX_INODE - 1
}.

(** A tree with the same nodes around the gap is a map again. *)
Lemma gap_joined im l1 p l2 a c lo hi T' num' M R2 :
  gap_at im l1 p l2 a c lo hi -> tree_wf T' ->
  ids T' = l1 ++ p :: M -> num' = Z.of_nat (length (ids T')) ->
  ranges T' = (rng (inode_inuse_tree im) <$> l1) ++ R2 ->
  (exists b X, R2 = (a, b) :: X) ->
  sorted_from (a - 1) (widen <$> R2) ->
  (forall r, r ∈ R2 -> r.2 < MAX_INODE - 1) ->
  (forall x, covers R2 x <-> covers ((a, c) :: (rng (inode_inuse_tree im) <$> l2)) x \/ lo <= x <= hi) ->
  joined im lo hi (InodeMap T' num' (first_inode_range im) (im_allocated im) (im_freed im)).
Proof.
  intros [Hw E Hp Hlo Hab Hmx] HwT Ei Hn Er (b & X & ER) Hs Hm Hc. set (T := inode_inuse_tree im) in *.
  pose proof (mw_gaps _ Hw) as Hg. unfold gapped in Hg. fold T in Hg.
  rewrite (ranges_split _ _ _ _ E), Hp, fmap_app, sorted_from_app in Hg.
  destruct Hg as [Hg1 Hg2]. cbn [fmap list_fmap widen fst snd sorted_from] in Hg2.
  destruct (mw_first _ Hw) as (p0 & l0 & E0 & Hf & H0). fold T in E0, H0.
  split; [|intros x].
  - split; simpl.
    + done.
    + unfold gapped. rewrite Er, fmap_app, sorted_from_app. split; [exact Hg1|].
      rewrite ER in *. cbn [fmap list_fmap widen fst snd sorted_from] in *. destruct Hs as (_ & ? & ?).
      split_and!; [lia|lia|done].
    + assert (Hh : head (ids T') = Some p0) by (rewrite Ei, (head_mid _ _ _ l2), <- E, E0; done).
      destruct (ids T') as [|q lq] eqn:Eq; [done|]. injection Hh as ->.
      exists p0, lq. split_and!; [done|done|].
      assert (Hr0 : fst <$> head (ranges T') = Some 0).
      { rewrite Er, ER, (head_fst _ _ _ c _ (rng T <$> l2)), <- Hp.
        rewrite <- (ranges_split _ _ _ _ E). unfold ranges. rewrite E0. simpl. by rewrite H0. }
      unfold ranges in Hr0. rewrite Eq in Hr0. simpl in Hr0. congruence.
    + intros r. rewrite Er, elem_of_app. intros [Hr|Hr]; [|by apply Hm].
      apply (mw_max _ Hw). fold T. rewrite (ranges_split _ _ _ _ E). set_solver.
    + done.
  - unfold used. simpl. fold T. rewrite Er, covers_app, Hc, (ranges_split _ _ _ _ E), covers_app, Hp. tauto.
Qed.

Context (sbi : nova_sb_info) (Hslab : forall T, is_Some (nova_alloc_range_node T)).

Lemma gap_sorted_map im l1 p l2 a c lo hi :
  gap_at im l1 p l2 a c lo hi ->
  -1 < a <= c /\ sorted_from (-1) (rng (inode_inuse_tree im) <$> l1)
  /\ last_high (-1) (rng (inode_inuse_tree im) <$> l1) < a
  /\ sorted_from (c + 1) (widen <$> (rng (inode_inuse_tree im) <$> l2))
  /\ sorted_from c (rng (inode_inuse_tree im) <$> l2) /\ c < MAX_INODE - 1
  /\ forall r, r ∈ rng (inode_inuse_tree im) <$> l2 -> hi < r.1 /\ r.1 <= r.2 < MAX_INODE - 1.
Proof.
  intros [Hw E Hp Hlo Hab Hmx]. set (T := inode_inuse_tree im) in *.
  pose proof (wf_sorted _ (mw_tree _ Hw)) as Hs. fold T in Hs. pose proof (mw_gaps _ Hw) as Hg.
  unfold gapped in Hg. fold T in Hg. rewrite (ranges_split _ _ _ _ E), Hp in Hg, Hs.
  rewrite fmap_app, sorted_from_app in Hg. rewrite sorted_from_app in Hs.
  cbn [fmap list_fmap widen fst snd sorted_from] in Hg, Hs.
  destruct Hs as (Hs1 & ? & ? & Hs2), Hg as (_ & _ & _ & Hg2).
  pose proof (last_high_ge _ _ Hs1).
  split_and!; try done; try lia.
  intros r Hr. assert (Hm : r.2 < MAX_INODE - 1).
  { apply (mw_max _ Hw). fold T. rewrite (ranges_split _ _ _ _ E). set_solver. }
  pose proof Hr as (q & -> & Hq)%list_elem_of_fmap. pose proof (Hab q Hq) as Hh. simpl.
  destruct (rng T q) as [d e] eqn:Eq. destruct (sorted_from_bounds _ _ _ _ Hs2 Hr) as (_ & ? & _).
  unfold rng in Eq. simplify_eq. simpl in *. lia.
Qed.

Lemma sorted_above b b' l :
  sorted_from b (widen <$> l) -> (forall r, r ∈ l -> b' < r.1) -> sorted_from b' (widen <$> l).
Proof.
  intros Hs Hl. eapply sorted_from_lower; [exact Hs|].
  intros r (r' & -> & Hr)%list_elem_of_fmap. apply (Hl r' Hr).
Qed.

(** The run aligns with the node before it. *)
Lemma join_left im l1 p l2 a hi c :
  gap_at im l1 p l2 a c (c + 1) hi -> (forall r, r ∈ rng (inode_inuse_tree im) <$> l2 -> hi + 1 < r.1) ->
  joined im (c + 1) hi (set_tree (store_node p (set_high hi) (inode_inuse_tree im)) im).
Proof.
  intros Hg Hfar. destruct (gap_sorted_map _ _ _ _ _ _ _ _ Hg) as (Hac & Hs1 & Hla & Hg2 & Hs2 & Hcm & Hin).
  pose proof Hg as [Hw E Hp Hlo Hab Hmx]. set (T := inode_inuse_tree im) in *.
  assert (Hlow : range_low (deref T p) = a) by (unfold rng in Hp; congruence).
  destruct (resize_node T l1 p l2 (set_high hi) (mw_tree _ Hw) E) as (Hw' & Ei & Er).
  { simpl. rewrite Hlow, sorted_from_app. cbn [sorted_from]. split_and!; [done|done|lia|].
    eapply sorted_from_lower; [exact Hs2|]. intros r Hr. apply (Hin r Hr). }
  simpl in Er. rewrite Hlow in Er. unfold set_tree.
  eapply (gap_joined im l1 p l2 a c); [exact Hg|done|exact Ei| |exact Er|by eauto| | |].
  - rewrite Ei, (mw_num _ Hw). fold T. by rewrite E.
  - cbn [fmap list_fmap widen fst snd sorted_from]. split_and!; [lia|lia|].
    by eapply sorted_above.
  - intros r [->|Hr]%elem_of_cons; [done|]. by apply Hin.
  - intros x. fold T. rewrite !covers_cons. intuition lia.
Qed.

(** ... with the node behind it. *)
Lemma join_right im l1 p n l2 a c d e lo :
  gap_at im l1 p (n :: l2) a c lo (d - 1) -> rng (inode_inuse_tree im) n = (d, e) -> c + 1 < lo ->
  joined im lo (d - 1) (set_tree (store_node n (set_low lo) (inode_inuse_tree im)) im).
Proof.
  intros Hg Hn Hfar. destruct (gap_sorted_map _ _ _ _ _ _ _ _ Hg) as (Hac & Hs1 & Hla & Hg2 & Hs2 & Hcm & Hin).
  pose proof Hg as [Hw E Hp Hlo Hab Hmx]. set (T := inode_inuse_tree im) in *.
  assert (Hhigh : range_high (deref T n) = e) by (unfold rng in Hn; congruence).
  assert (E' : ids T = (l1 ++ [p]) ++ n :: l2) by (by rewrite <- app_assoc).
  cbn [fmap list_fmap] in *. rewrite Hn in *. cbn [sorted_from widen fst snd] in Hg2, Hs2.
  destruct (resize_node T (l1 ++ [p]) n l2 (set_low lo) (mw_tree _ Hw) E') as (Hw' & Ei & Er).
  { simpl. rewrite Hhigh, fmap_app, <- app_assoc, sorted_from_app. cbn [fmap list_fmap app sorted_from].
    rewrite Hp. split_and!; [done|done|lia|lia|lia|]. apply Hs2. }
  simpl in Er. rewrite Hhigh in Er. rewrite fmap_app, <- app_assoc in Er. rewrite <- app_assoc in Ei.
  cbn [fmap list_fmap app] in Er, Ei. rewrite Hp in Er. unfold set_tree.
  eapply (gap_joined im l1 p (n :: l2) a c); [exact Hg|done|exact Ei| |exact Er|by eauto| | |].
  - rewrite Ei, (mw_num _ Hw). fold T. by rewrite E.
  - cbn [fmap list_fmap widen fst snd sorted_from]. split_and!; [lia|lia|lia|lia|apply Hg2].
  - intros r [->|[->|Hr]%elem_of_cons]%elem_of_cons; [done|apply (Hin (d, e)); left|].
    apply Hin. by right.
  - intros x. fold T. cbn [fmap list_fmap]. rewrite Hn, !covers_cons. intuition lia.
Qed.

(** ... with both: one node less. *)
Lemma join_both im l1 p n l2 a c d e :
  gap_at im l1 p (n :: l2) a c (c + 1) (d - 1) -> rng (inode_inuse_tree im) n = (d, e) ->
  joined im (c + 1) (d - 1)
    (set_tree (nova_free_inode_node n (store_node p (set_high e) (rb_erase_node n (inode_inuse_tree im))))
       (add_range_nodes (-1) im)).
Proof.
  intros Hg Hn. destruct (gap_sorted_map _ _ _ _ _ _ _ _ Hg) as (Hac & Hs1 & Hla & Hg2 & Hs2 & Hcm & Hin).
  pose proof Hg as [Hw E Hp Hlo Hab Hmx]. pose proof (map_nodes _ Hw) as Hnum. set (T := inode_inuse_tree im) in *.
  assert (Hhigh : range_high (deref T n) = e) by (unfold rng in Hn; congruence).
  assert (Hlow : range_low (deref T p) = a) by (unfold rng in Hp; congruence).
  cbn [fmap list_fmap] in *. rewrite Hn in *. cbn [sorted_from widen fst snd] in Hg2, Hs2.
  destruct (merge_hole T l1 p n l2 (mw_tree _ Hw) E) as (Hw' & Ei & Er).
  rewrite Hhigh in Hw', Ei, Er. rewrite Hlow in Er. unfold set_tree, add_range_nodes. simpl.
  eapply (gap_joined im l1 p (n :: l2) a c); [exact Hg|exact Hw'|exact Ei| |exact Er|by eauto| | |].
  - unfold nova_free_inode_node. rewrite Ei. pose proof (mw_num _ Hw) as Hnn. fold T in Hnn.
    rewrite E, length_app in Hnn. rewrite length_app. simpl length in *. rewrite u64_small; lia.
  - cbn [fmap list_fmap widen fst snd sorted_from]. split_and!; [lia|lia|apply Hg2].
  - intros r [->|Hr]%elem_of_cons; [apply (Hin (d, e)); left|]. apply Hin. by right.
  - intros x. fold T. cbn [fmap list_fmap]. rewrite Hn, !covers_cons. intuition lia.
Qed.

(** ... with none: a new node. *)
Lemma join_new im l1 p l2 a c lo hi q T1 :
  gap_at im l1 p l2 a c lo hi -> c + 1 < lo ->
  (forall r, r ∈ rng (inode_inuse_tree im) <$> l2 -> hi + 1 < r.1) ->
  nova_alloc_range_node (inode_inuse_tree im) = Some (q, T1) ->
  exists T', nova_insert_inodetree (set_tree (store_node q (fun n => set_high hi (set_low lo n)) T1) im) q
      = (0, set_tree T' im) /\ joined im lo hi (add_range_nodes 1 (set_tree T' im)).
Proof.
  intros Hg Hnear Hfar Hal.
  destruct (gap_sorted_map _ _ _ _ _ _ _ _ Hg) as (Hac & Hs1 & Hla & Hg2 & Hs2 & Hcm & Hin).
  pose proof Hg as [Hw E Hp Hlo Hab Hmx]. pose proof (map_nodes _ Hw) as Hnum.
  pose proof (mw_num _ Hw) as Hnn. set (T := inode_inuse_tree im) in *.
  destruct (wf_alloc_node _ _ _ (mw_tree _ Hw) Hal) as (HwT & HiT & HrT & Hq).
  fold T in HiT, HrT. destruct (alloc_node_spec _ _ _ Hal) as (_ & Hd & _ & Hdr & _).
  assert (Hrng : forall l : list ptr, (forall z, z ∈ l -> z ∈ ids T) -> rng T1 <$> l = rng T <$> l).
  { intros l Hl. apply map_rng_ext. intros z Hz. apply Hdr. intros ->. apply Hq. rewrite HiT. by apply Hl. }
  assert (Hr1 : rng T1 <$> (l1 ++ [p]) = (rng T <$> l1) ++ [(a, c)]).
  { rewrite Hrng by (rewrite E; set_solver). rewrite fmap_app. simpl. by rewrite Hp. }
  assert (Hr2 : rng T1 <$> l2 = rng T <$> l2) by (apply Hrng; rewrite E; set_solver).
  destruct (insert_filled T1 q (fun n => set_high hi (set_low lo n)) (l1 ++ [p]) l2 HwT Hd Hq)
    as (T' & Hins & HwT' & Ei & _ & Er).
  { by rewrite HiT, E, <- app_assoc. }
  { rewrite Hr1, Hr2, <- app_assoc, sorted_from_app. cbn [app sorted_from range_low range_high set_high set_low].
    split_and!; [done|done|lia|lia|lia|].
    eapply sorted_from_lower; [exact Hs2|]. intros r Hr. apply (Hin r Hr). }
  rewrite Hr1, Hr2, <- app_assoc in Er. rewrite <- app_assoc in Ei. cbn [app range_low range_high set_high set_low] in Er, Ei.
  exists T'. unfold nova_insert_inodetree. simpl inode_inuse_tree. rewrite insert_inode.
  unfold nova_insert_blocktree in Hins. rewrite Hins. split; [done|].
  unfold add_range_nodes, set_tree. simpl.
  eapply (gap_joined im l1 p l2 a c); [exact Hg|exact HwT'|exact Ei| |exact Er|by eauto| | |].
  - rewrite Ei. rewrite E, length_app in Hnn. rewrite length_app. simpl length in *. rewrite u64_small; lia.
  - cbn [fmap list_fmap widen fst snd sorted_from]. split_and!; [lia|lia|lia|lia|by eapply sorted_above].
  - intros r [->|[->|Hr]%elem_of_cons]%elem_of_cons; [done|done|by apply Hin].
  - intros x. fold T. rewrite !covers_cons. intuition lia.
Qed.

(** The run of internal numbers [lo..hi] is entered, whatever is around it. *)
Lemma insert_run st cpu im lo hi :
  map_at st cpu = Some im -> map_wf im -> 0 <= cpu < cpus sbi -> cpus sbi < TWO31 -> 0 < lo <= hi -> hi < MAX_INODE - 1 ->
  (forall x, lo <= x <= hi -> ~ used im x) ->
  exists im', nova_failure_insert_inodetree sbi st (lo * cpus sbi + cpu) (hi * cpus sbi + cpu)
      = Some (0, store_map cpu im' st) /\ joined im lo hi im'.
Proof.
  intros Hat Hw Hc Hcpu Hlo Hmx Hfree. unfold nova_failure_insert_inodetree.
  rewrite (proj2 (Z.ltb_ge _ _)) by nia. rewrite (proj2 (Z.eqb_neq _ _)) by lia. cbv zeta.
  assert (Hmod : forall x, (x * cpus sbi + cpu) mod cpus sbi = cpu).
  { intros x. rewrite Z.add_comm, Z.mod_add, Z.mod_small; lia. }
  assert (Hdiv : forall x, (x * cpus sbi + cpu) / cpus sbi = x).
  { intros x. rewrite Z.div_add_l, Z.div_small; lia. }
  rewrite !Hmod, !Hdiv, s32_small, u64_small by lia. rewrite Z.eqb_refl. cbn [negb].
  rewrite Hat. cbn [mbind option_bind]. set (T := inode_inuse_tree im) in *.
  destruct (find_free_slot_gap T lo hi (mw_tree _ Hw)) as (l1 & l2 & E & Hb & Ha & Hslot); [lia|done|].
  rewrite Hslot. cbn [negb Z.eqb].
  assert (Hl1 : exists l p, l1 = l ++ [p]).
  { destruct (mw_first _ Hw) as (p0 & l0 & E0 & _ & H0). fold T in E0, H0.
    destruct l1 as [|x l1] using rev_ind; [|by eexists _, _]. simpl in E.
    assert (Hp : p0 ∈ l2) by (rewrite <- E, E0; left). specialize (Ha p0 Hp). lia. }
  destruct Hl1 as (l1' & p & ->). rewrite last_snoc. rewrite <- app_assoc in E. simpl in E.
  destruct (rng T p) as [a c] eqn:Hp. assert (Hpc : range_high (deref T p) = c) by (unfold rng in Hp; congruence).
  assert (Hclo : c < lo) by (rewrite <- Hpc; apply Hb; set_solver).
  assert (Hg : gap_at im l1' p l2 a c lo hi) by (split; try done; lia).
  destruct (gap_sorted_map _ _ _ _ _ _ _ _ Hg) as (Hac & _ & _ & _ & _ & _ & Hin). fold T in Hin.
  rewrite Hpc. unfold MAX_INODE in *. rewrite (u64_small (c + 1)), (u64_small (hi + 1)) by lia.
  assert (Hfar : forall n l d e, l2 = n :: l -> rng T n = (d, e) -> d <> hi + 1 ->
    forall r, r ∈ rng T <$> l2 -> hi + 1 < r.1).
  { intros n l d e -> Hn Hd r [->|Hr]%elem_of_cons.
    - destruct (Hin (rng T n)) as [Hh _]; [left|]. rewrite Hn in *. simpl in *. lia.
    - pose proof (wf_sorted _ (mw_tree _ Hw)) as Hs. fold T in Hs.
      rewrite (ranges_split _ (l1' ++ [p]) n l) in Hs by (by rewrite <- app_assoc).
      rewrite sorted_from_app, Hn in Hs. destruct Hs as [_ (_ & ? & Hs)]. destruct r as [u v].
      destruct (sorted_from_bounds _ _ _ _ Hs Hr). destruct (Hin (rng T n)) as [Hh _]; [left|].
      rewrite Hn in Hh. simpl in *. lia. }
  assert (Hnew : c + 1 < lo -> (forall r, r ∈ rng T <$> l2 -> hi + 1 < r.1) -> exists im',
    match nova_alloc_inode_node T with
    | Some (new_node, T0) =>
        let '(ret, im0) := nova_insert_inodetree (set_tree (store_node new_node
           (fun n => set_high hi (set_low lo n)) T0) im) new_node in
        if negb (ret =? 0) then
          Some (ret, store_map cpu (set_tree (nova_free_inode_node new_node (inode_inuse_tree im0)) im0) st)
        else Some (ret, store_map cpu (add_range_nodes 1 im0) st)
    | None => None
    end = Some (0, store_map cpu im' st) /\ joined im lo hi im').
  { intros Hne Hf. unfold nova_alloc_inode_node. destruct (Hslab T) as [[q T1] Hal]. rewrite Hal.
    destruct (join_new im l1' p l2 a c lo hi q T1 Hg Hne Hf Hal) as (T' & -> & Hj). by eexists. }
  assert (Hleft : lo = c + 1 -> (forall r, r ∈ rng T <$> l2 -> hi + 1 < r.1) -> exists im',
    Some (0, store_map cpu (set_tree (store_node p (fun n => set_high (u64 (range_high n + u64 (hi - lo + 1))) n) T) im) st)
    = Some (0, store_map cpu im' st) /\ joined im lo hi im').
  { intros -> Hf. eexists. split; [done|].
    rewrite (store_node_ext p _ (set_high hi)); [by apply (join_left im l1' p l2 a hi c)|].
    fold T. rewrite Hpc. f_equal. rewrite (u64_small (hi - _ + 1)) by lia. rewrite u64_small; lia. }
  destruct (Z.eqb_spec lo (c + 1)) as [Ec|Ec].
  - destruct l2 as [|n l2]; cbn [head].
    { apply (Hleft Ec). intros r Hr. by apply not_elem_of_nil in Hr. }
    destruct (rng T n) as [d e] eqn:Hn. assert (Hnd : range_low (deref T n) = d) by (unfold rng in Hn; congruence).
    rewrite Hnd. destruct (Z.eqb_spec (hi + 1) d) as [Ed|Ed].
    + eexists. split; [done|]. subst lo. assert (hi = d - 1) as -> by lia.
      change (deref (rb_erase_node n T) n) with (deref T n).
      assert (Hne : range_high (deref T n) = e) by (unfold rng in Hn; congruence). rewrite Hne. by apply (join_both im l1' p n l2 a c d e).
    + apply (Hleft Ec). by eapply Hfar.
  - assert (c + 1 < lo) by lia. destruct l2 as [|n l2]; cbn [head].
    { apply Hnew; [done|]. intros r Hr. by apply not_elem_of_nil in Hr. }
    destruct (rng T n) as [d e] eqn:Hn. assert (Hnd : range_low (deref T n) = d) by (unfold rng in Hn; congruence).
    rewrite Hnd. destruct (Z.eqb_spec (hi + 1) d) as [Ed|Ed].
    + eexists. split; [done|]. assert (hi = d - 1) as -> by lia.
      destruct (Hin (rng T n)) as [_ Hde]; [left|]. rewrite Hn in Hde. simpl in Hde.
      rewrite (store_node_ext n _ (set_low lo)); [by apply (join_right im l1' p n l2 a c d e lo)|].
      rewrite Hnd. f_equal. rewrite (u64_small (d - 1 - lo + 1)) by lia. rewrite u64_small; lia.
    + apply Hnew; [done|]. by eapply Hfar.
Qed.

(** ** The open run of a superpage *)

(** The numbers of the run [lh] of a CPU; (0, 0) is no run. *)
Definition in_run (cpu : Z) (lh : Z * Z) (y : Z) : Prop :=
  lh.1 <> 0 /\ y mod cpus sbi = cpu /\ lh.1 <= y <= lh.2.

(** The numbers [F] were found since [st0]: they are in the maps or in the
    run. *)
Record open_run (cpu : Z) (st0 : ino_state) (F : Z -> Prop) (st : ino_state) (lh : Z * Z) : Prop := {
  or_wf : maps_wf sbi st;
  or_use : forall y, in_use sbi st y \/ in_run cpu lh y <-> in_use sbi st0 y \/ F y;
  or_run : lh = (0, 0) \/ exists l h, lh = (l * cpus sbi + cpu, h * cpus sbi + cpu)
    /\ 0 < l <= h /\ h < MAX_INODE - 1 /\ forall y, in_run cpu lh y -> ~ in_use sbi st y;
  or_total : s_inodes_used_count st = s_inodes_used_count st0
}.

Lemma run_bounds cpu l h x :
  0 <= cpu < cpus sbi -> 0 < l ->
  in_run cpu (l * cpus sbi + cpu, h * cpus sbi + cpu) (x * cpus sbi + cpu) <-> l <= x <= h.
Proof.
  intros Hc Hl. unfold in_run. cbn [fst snd].
  assert ((x * cpus sbi + cpu) mod cpus sbi = cpu) as -> by (rewrite Z.add_comm, Z.mod_add, Z.mod_small; lia).
  split; [intros (_ & _ & ?); nia|].
  intros ?. split_and!; nia.
Qed.

Lemma split_number cpu y : 0 <= cpu < cpus sbi -> y mod cpus sbi = cpu ->
  y = (y / cpus sbi) * cpus sbi + cpu.
Proof. intros Hc Hy. pose proof (Z.div_mod y (cpus sbi) ltac:(lia)). lia. Qed.

(** Entering the open run. *)
Lemma close_run cpu st0 F st l h :
  0 <= cpu < cpus sbi -> open_run cpu st0 F st (l * cpus sbi + cpu, h * cpus sbi + cpu) -> 0 < l ->
  exists st', nova_failure_insert_inodetree sbi st (l * cpus sbi + cpu) (h * cpus sbi + cpu) = Some (0, st')
    /\ maps_wf sbi st' /\ s_inodes_used_count st' = s_inodes_used_count st0
    /\ forall y, in_use sbi st' y <-> in_use sbi st0 y \/ F y.
Proof.
  intros Hc [Hw Hu Hr Hto] Hl. pose proof (ms_cpus _ _ Hw) as Hn.
  destruct Hr as [[=]|(l' & h' & [= El Eh] & Hlh & Hmx & Hdis)]; [nia|].
  assert (l = l') as <- by nia. assert (h = h') as <- by nia.
  destruct (map_at_some sbi st cpu Hw Hc) as (im & Hat & Him).
  destruct (insert_run st cpu im l h Hat Him) as (im' & -> & Him' & Hx); [lia|lia|lia|lia| |].
  { intros x Hx. rewrite <- (in_use_at sbi st cpu im x Hat Hc). apply Hdis. by apply run_bounds. }
  eexists. split; [done|]. split; [by apply store_maps_wf|]. split; [done|]. intros y. rewrite <- Hu.
  rewrite (in_use_store sbi st cpu im im'
    (fun y => in_use sbi st y \/ in_run cpu (l * cpus sbi + cpu, h * cpus sbi + cpu) y) Hw Hat).
  - case_decide as Hy; [done|]. split; [by left|]. intros [?|(_ & ? & _)]; done.
  - intros x. rewrite Hx, (in_use_at sbi st cpu im x Hat Hc), run_bounds by done. done.
Qed.

(** One number more. *)
Lemma update_run cpu st0 F st lh k :
  0 <= cpu < cpus sbi -> open_run cpu st0 F st lh -> 0 < k < MAX_INODE - 1 ->
  ~ in_use sbi st0 (k * cpus sbi + cpu) -> ~ F (k * cpus sbi + cpu) ->
  exists lh' st', nova_failure_update_inodetree sbi st (k * cpus sbi + cpu) lh = Some (lh', st')
    /\ open_run cpu st0 (fun y => F y \/ y = k * cpus sbi + cpu) st' lh'.
Proof.
  intros Hc Ho Hk Hnu HnF. pose proof Ho as [Hw Hu Hr Hto]. pose proof (ms_cpus _ _ Hw) as Hn.
  set (ino := k * cpus sbi + cpu) in *.
  assert (Hnew : forall st', maps_wf sbi st' -> s_inodes_used_count st' = s_inodes_used_count st0 ->
    (forall y, in_use sbi st' y <-> in_use sbi st0 y \/ F y) -> open_run cpu st0 (fun y => F y \/ y = ino) st' (ino, ino)).
  { intros st' Hw' Hto' Hu'. split; [done| |right; exists k, k; split_and!; try done; try lia|done].
    - intros y. rewrite Hu'. unfold in_run. cbn [fst snd]. split.
      + intros [[?|?]|(_ & _ & ?)]; auto. right. right. lia.
      + intros [?|[?| ->]]; auto. right. split_and!; [unfold ino; nia| |lia|lia].
        unfold ino. rewrite Z.add_comm, Z.mod_add, Z.mod_small; lia.
    - intros y (_ & _ & ?) Hy%Hu'. cbn [fst snd] in *. assert (y = ino) as -> by lia. tauto. }
  unfold nova_failure_update_inodetree. destruct Hr as [->|(l & h & -> & Hlh & Hmx & Hdis)].
  { cbn [Z.eqb]. eexists _, st. split; [done|]. apply Hnew; [done..|]. intros y. rewrite <- Hu.
    unfold in_run. cbn [fst]. tauto. }
  rewrite (proj2 (Z.eqb_neq _ _)) by nia. unfold MAX_INODE in *.
  assert (Hh64 : h * cpus sbi + cpu + cpus sbi < TWO64) by nia. rewrite u64_small by nia.
  destruct (Z.eqb_spec ino (h * cpus sbi + cpu + cpus sbi)) as [E|E].
  - assert (k = h + 1) as -> by (unfold ino in E; nia). eexists _, st. split; [done|].
    assert (Hrun : forall y, in_run cpu (l * cpus sbi + cpu, ino) y
      <-> in_run cpu (l * cpus sbi + cpu, h * cpus sbi + cpu) y \/ y = ino).
    { intros y. unfold in_run. cbn [fst snd]. split.
      - intros (? & Hy & ?). destruct (decide (y = ino)); [by right|left].
        pose proof (split_number cpu y Hc Hy) as Hs. set (q := y / cpus sbi) in *. clearbody q.
        assert (q <> h + 1) by (intros ->; unfold ino in *; lia).
        assert (q <= h + 1) by (unfold ino in *; nia). split_and!; try done; nia.
      - intros [(? & ? & ?)| ->]; [split_and!; try done; unfold ino; nia|].
        split_and!; [nia| |unfold ino; nia|lia]. unfold ino. rewrite Z.add_comm, Z.mod_add, Z.mod_small; lia. }
    split; [done| | |done].
    + intros y. rewrite Hrun. specialize (Hu y). tauto.
    + right. exists l, (h + 1). split_and!; [done|lia|lia|unfold MAX_INODE; lia|].
      intros y [Hy| ->]%Hrun; [by apply Hdis|]. intros Hi. specialize (Hu ino). tauto.
  - destruct (close_run cpu st0 F st l h Hc Ho) as (st' & -> & Hw' & Hto' & Hu'); [lia|].
    cbn [mbind option_bind]. eexists _, st'. split; [done|]. by apply Hnew.
Qed.
End map.
