(* ===== verification/RebuildTheorems.v ===== *)
(** The free lists after failure recovery: what mkfs leaves free, less the
    marked blocks. *)

From S2P Require Import Prelude.
From S2P Require Import Kernel.
From S2P Require Import Checksum.
From S2P Require Import RangeTree.
From S2P Require Import RangeTreeSpec.
From S2P Require Import Layout.
From S2P Require Import FreeList.
From S2P Require Import FreeListSpec.
From S2P Require Import Balloc.
From S2P Require Import BallocSpec.
From S2P Require Import BallocInit.
From S2P Require Import BallocTheorems.
From S2P Require Import ScanBitmap.
From S2P Require Import ScanBitmapSpec.

(** The bits of the merged map. *)
Definition map_bits (initsize : Z) : Z := u64 (Z.shiftr initsize (PAGE_SHIFT + 3) * 8).

(** Every block that can be free has a bit. *)
Record bits_cover (sbi : nova_sb_info) (size : Z) : Prop := {
  bc_data : data_num_blocks sbi / cpus sbi * cpus sbi <= map_bits size;
  bc_meta : meta_num_blocks sbi / cpus sbi * cpus sbi <= map_bits size;
  bc_int : map_bits size < TWO31
}.

Section rebuild.
Context {RB : RbOps} {KM : KmemOps} {CR : CrcOps} {MP : ModParams}.
Context {RBL : RbLaws} {KML : KmemLaws} {BO : BitOps} {BL : BitLaws}.

Lemma with_shares_geometry sbi : geometry sbi -> geometry (with_shares sbi) /\ shares_set (with_shares sbi).
Proof. intros []. split; [by split|by split]. Qed.

(** Both passes over a map. *)
Lemma rebuild_lists sbi size bits :
  slab_available -> geometry sbi -> bits_cover sbi size ->
  let sbi' := with_shares sbi in
  exists ls, (exists lsA,
      __nova_build_blocknode_map sbi' (fresh_lists sbi') bits (map_bits size) 0 false = Some (0, lsA)
      /\ __nova_build_blocknode_map sbi' lsA bits (map_bits size) 0 true = Some (0, ls))
    /\ length ls = length (fresh_lists sbi')
    /\ forall i fl0 fl meta, fresh_lists sbi' !! i = Some fl0 -> ls !! i = Some fl ->
         list_wf (sub_list meta fl) /\ same_frame (sub_list meta fl0) (sub_list meta fl)
         /\ forall x, is_free (sub_list meta fl) x <->
              block_start (sub_list meta fl0) <= x <= block_end (sub_list meta fl0) /\ x ∉ bits.
Proof.
  intros Hslab Hg [Hd Hm Hi]. cbv zeta. destruct (with_shares_geometry sbi Hg) as [Hg' Hsh].
  set (sbi' := with_shares sbi) in *. assert (Ec : cpus sbi' = cpus sbi) by done.
  pose proof (ge_cpus _ Hg) as Hcp.
  assert (Hfit : forall meta, share sbi' meta * cpus sbi' <= map_bits size) by (intros []; done).
  assert (Hlen : Z.of_nat (length (fresh_lists sbi')) = cpus sbi') by (rewrite fresh_length; lia).
  destruct (build_map_ok Hslab sbi' bits (map_bits size) false (fresh_lists sbi'))
    as (lsA & EA & HA); try done; [by apply fresh_in_order|by apply fresh_built|lia|].
  destruct (build_map_ok Hslab sbi' bits (map_bits size) true lsA)
    as (lsB & EB & HB); try lia.
  { eapply (built_other_order bits _ false); [exact HA|]. by apply fresh_in_order. }
  { eapply (built_other_start bits false); [exact HA|]. by apply fresh_built. }
  { by rewrite (bt_len _ _ _ _ _ HA). }
  exists lsB. split_and!; [by exists lsA|by rewrite (bt_len _ _ _ _ _ HB), (bt_len _ _ _ _ _ HA)|].
  intros i fl0 fl meta H0 H. destruct (built_at _ _ _ _ _ _ _ HA H0) as [g Hi'].
  destruct (bt_list _ _ _ _ _ HA _ _ _ H0 Hi') as (A1 & A2 & A3 & A4).
  destruct (bt_list _ _ _ _ _ HB _ _ _ Hi' H) as (B1 & B2 & B3 & B4).
  cbn [negb] in A3, B3. destruct meta.
  - rewrite <- A3. split_and!; [done|done|]. intros x. rewrite B4. tauto.
  - rewrite B3. split_and!; [done|done|]. intros x. rewrite A4. tauto.
Qed.

(** The lists after the rebuild, against those after mkfs. *)
Record rebuilt (sbi : nova_sb_info) (M : Z -> Prop) (ls0 ls : list free_list) : Prop := {
  re_wf : lists_wf sbi ls;
  re_free : forall meta x, free_block ls meta x <-> free_block ls0 meta x /\ ~ M x
}.

Lemma rebuild_ok sbi size bms :
  slab_available -> geometry sbi -> bits_cover sbi size -> Forall bm_ok bms ->
  exists ls0 bms' ls,
    nova_init_blockmap sbi (nova_alloc_block_free_lists sbi) false = Some (with_shares sbi, ls0)
    /\ nova_build_blocknode_map (with_shares sbi) bms (fresh_lists (with_shares sbi)) size
       = Some (0, bms', ls)
    /\ rebuilt (with_shares sbi) (fun x => exists bm, bm ∈ bms /\ marked bm x) ls0 ls.
Proof.
  intros Hslab Hg Hbc Hbms. destruct (init_blockmap_ok sbi Hslab Hg) as (ls0 & E0 & Hw0 & Hr0).
  destruct (expand_all bms Hbms) as (bms' & Ex & Hx).
  set (bits := foldl (fun dst bm => bitmap (scan_bm_4K bm) ∪ dst) ∅ bms').
  destruct (rebuild_lists sbi size bits Hslab Hg Hbc) as (ls & (lsA & EA & EB) & Hlen & Hls).
  destruct (with_shares_geometry sbi Hg) as [Hg' Hsh]. set (sbi' := with_shares sbi) in *.
  exists ls0, bms', ls. split; [done|]. split.
  { unfold nova_build_blocknode_map. rewrite Ex. cbn [mbind option_bind]. fold bits.
    change (PAGE_SHIFT - 12) with 0. fold (map_bits size). rewrite EA. cbn [mbind option_bind].
    by rewrite EB. }
  assert (Hat : forall i fl, ls !! i = Some fl -> exists fl0 fl1,
    fresh_lists sbi' !! i = Some fl0 /\ ls0 !! i = Some fl1 /\ list_ready sbi' (Z.of_nat i) fl1).
  { intros i fl Hi. apply lookup_lt_Some in Hi as Hl. rewrite Hlen in Hl.
    destruct (lookup_lt_is_Some_2 (fresh_lists sbi') i Hl) as [fl0 H0].
    rewrite fresh_length in Hl. pose proof (lw_cpus _ _ Hw0).
    destruct (lookup_lt_is_Some_2 ls0 i) as [fl1 H1]; [lia|]. exists fl0, fl1. split_and!; [done|done|by apply Hr0]. }
  assert (Hbits : forall x, x ∈ bits <-> exists bm, bm ∈ bms /\ marked bm x).
  { intros x. rewrite <- Hx. unfold bits. rewrite merged_bits. set_solver. }
  split.
  - split; [rewrite Hlen, fresh_length; pose proof (ge_cpus _ Hg'); lia|apply Hw0|apply Hw0|].
    intros i fl meta Hi. destruct (Hat i fl Hi) as (fl0 & fl1 & H0 & H1 & Hrd).
    destruct (Hls i fl0 fl meta H0 Hi) as (Hw & (Es & Ee & _) & _).
    destruct (fresh_bounds sbi' i fl0 meta Hg' Hsh H0) as (? & ? & _). rewrite Es, Ee. split_and!; [done|lia|lia].
  - assert (Hsame : forall i fl fl1 meta x, ls !! i = Some fl -> ls0 !! i = Some fl1 ->
      is_free (sub_list meta fl) x <-> is_free (sub_list meta fl1) x /\ x ∉ bits).
    { intros i fl fl1 meta x Hi H1. destruct (Hat i fl Hi) as (fl0 & g & H0 & Hg1 & Hrd). simplify_eq.
      destruct (Hls i fl0 fl meta H0 Hi) as (_ & _ & Hf).
      destruct (fresh_bounds sbi' i fl0 meta Hg' Hsh H0) as (_ & _ & Hb). destruct (Hb _ Hrd) as [Eb Ee].
      by rewrite Hf, (rd_free _ _ _ Hrd), Eb, Ee. }
    intros meta x. rewrite <- Hbits. split.
    + intros (i & fl & Hi & Hf). destruct (Hat i fl Hi) as (fl0 & fl1 & _ & H1 & _).
      apply (Hsame i fl fl1 meta x Hi H1) in Hf as [? ?]. split; [by exists i, fl1|done].
    + intros [(i & fl1 & H1 & Hf) Hn].
      destruct (lookup_lt_is_Some_2 ls i) as [fl Hi].
      { rewrite Hlen, fresh_length. apply lookup_lt_Some in H1.
        rewrite <- (lw_cpus _ _ Hw0), Nat2Z.id. done. }
      exists i, fl. split; [done|]. by apply (Hsame i fl fl1 meta x Hi H1).
Qed.
End rebuild.
