(* ===== verification/ThreadSpec.v ===== *)
(** A thread of failure recovery: what the inodes of a table use is marked and
    their numbers are entered. *)

From S2P Require Import Prelude.
From S2P Require Import Kernel.
From S2P Require Import Checksum.
From S2P Require Import RangeTree.
From S2P Require Import Layout.
From S2P Require Import FreeList.
From S2P Require Import Balloc.
From S2P Require Import Pmem.
From S2P Require Import PmemSpec.
From S2P Require Import Journal.
From S2P Require Import InodeLog.
From S2P Require Import InodeLogSpec.
From S2P Require Import InodeMap.
From S2P Require Import InodeMapSpec.
From S2P Require Import InodeMapTheorems.
From S2P Require Import DataGuard.
From S2P Require Import DataGuardSpec.
From S2P Require Import Replica.
From S2P Require Import InodeTable.
From S2P Require Import ScanBitmap.
From S2P Require Import ScanBitmapSpec.
From S2P Require Import Recovery.
From S2P Require Import RecoverySpec.
From S2P Require Import FileScanSpec.
From S2P Require Import FileLogSpec.
From S2P Require Import RecoveryNumbers.

Lemma s32_s32 x : s32 (s32 x) = s32 x.
Proof. unfold s32. rewrite Z.sub_add, Z.mod_mod by done. done. Qed.

Lemma s32_add x y : s32 (s32 x + y) = s32 (x + y).
Proof.
  unfold s32. f_equal.
  replace ((x + TWO31) mod TWO32 - TWO31 + y + TWO31) with ((x + TWO31) mod TWO32 + y) by lia.
  rewrite Zplus_mod_idemp_l. f_equal. lia.
Qed.

(** What a slot of a table holds: nothing, a directory with the pages of its
    log, or a file with the pages and the entries of its log. *)
Inductive inode_use :=
  | Unused
  | Directory (bs : list Z)
  | Regular (bs : list Z) (es : list (Z * Z * nova_entry_type)).

Definition live (u : inode_use) : bool := match u with Unused => false | _ => true end.

Definition with_maps (mp : ino_state) (st : rstate) : rstate :=
  RState (rs_bm st) (rs_ring st) (rs_sih st) mp.

Lemma map_op_reads {A} (f : ino_state -> option (A * ino_state)) st m a mp :
  f (rs_maps st) = Some (a, mp) -> reads (map_op f) st m a (with_maps mp st).
Proof. intros E. unfold reads, map_op. by rewrite E. Qed.

Section thread.
Context {RB : RbOps} {KM : KmemOps} {CR : CrcOps} {MP : ModParams}.
Context {RBL : RbLaws} {KML : KmemLaws}.
Context (sbi : nova_sb_info) (G : log_geometry sbi) (Hmc : metadata_csum = false).
Context (Hslab : forall T, is_Some (nova_alloc_range_node T)).
Context (m : mem) (n : Z) (Hn : 0 < n < TWO31).
Context (ls : list free_list) (kmalloc : Z -> bool) (snapshots : list Z) (fuel : nat).

(** The inode at log address [addr] of the metadata area. *)
Definition inode_at (addr : Z) : fake_pi := decode_inode (words m (meta_addr sbi addr) NOVA_INODE_WORDS).
Definition number_at (addr : Z) : Z := cur m (meta_addr sbi addr + 56).

Definition use_marks (u : inode_use) (x : Z) : Prop :=
  match u with
  | Unused => False
  | Directory bs => x ∈ bs
  | Regular bs es => file_marks sbi m bs es x
  end.
(** The transaction number and the size the header of the thread holds after
    the inode. *)
Definition tid_after (tid : Z) (u : inode_use) : Z :=
  match u with Regular _ es => last_trans sbi m tid es | _ => tid end.
Definition size_after (i_size : Z) (u : inode_use) : Z :=
  match u with Regular _ es => last_size sbi m i_size es | _ => i_size end.

(** The inode is scanned: it is not deleted, and it is valid or a snapshot
    still needs it. *)
Definition kept (addr : Z) : Prop :=
  pi_i_mode (inode_at addr) <> 0 /\ pi_deleted (inode_at addr) = 0
  /\ (pi_valid (inode_at addr) = 0 ->
      nova_old_entry_deleteable snapshots (cur m (meta_addr sbi addr + 96))
        (cur m (meta_addr sbi addr + off_delete_epoch_id)) = 0).

Definition slot_ok (addr tid i_size : Z) (u : inode_use) : Prop :=
  let pi := inode_at addr in
  match u with
  | Unused => pi_i_mode pi = 0 \/ pi_deleted pi <> 0
  | Directory bs =>
      kept addr /\ Z.land (pi_i_mode pi) S_IFMT = S_IFDIR
      /\ page_chain sbi m (pi_log_head pi) bs /\ Forall (page_ok n) bs /\ (length bs <= fuel)%nat
  | Regular bs es =>
      kept addr /\ Z.land (pi_i_mode pi) S_IFMT <> S_IFDIR
      /\ scannable sbi m n ls kmalloc fuel tid i_size pi bs es
  end.

(** The state between two inodes. *)
Record between (st : rstate) : Prop := {
  be_bits : nbits st = n;
  be_empty : ring_empty (rs_ring st);
  be_btype : sc_i_blk_type (rs_sih st) = 0;
  be_count : s32 (inodes_used_count (rs_ring st)) = inodes_used_count (rs_ring st)
}.

(** [k] inodes further: marks, header and counter. *)
Record progress (st : rstate) (P : Z -> Prop) (k tid i_size : Z) (st' : rstate) : Prop := {
  pg_bm : marks (rs_bm st) P (rs_bm st');
  pg_between : between st';
  pg_addrs : addr0 (rs_ring st') = addr0 (rs_ring st) /\ addr1 (rs_ring st') = addr1 (rs_ring st)
    /\ num (rs_ring st') = num (rs_ring st);
  pg_count : inodes_used_count (rs_ring st') = s32 (inodes_used_count (rs_ring st) + k);
  pg_tid : sc_trans_id (rs_sih st') = tid;
  pg_size : sc_i_size (rs_sih st') = i_size
}.

Lemma progress_trans st P k1 t1 s1 st1 Q k2 t2 s2 st2 :
  progress st P k1 t1 s1 st1 -> progress st1 Q k2 t2 s2 st2 ->
  progress st (fun x => P x \/ Q x) (k1 + k2) t2 s2 st2.
Proof.
  intros [A1 _ (B1 & C1 & D1) E1 _ _] [A2 F2 (B2 & C2 & D2) E2 G2 H2]. split; try done.
  - by eapply marks_trans.
  - split_and!; congruence.
  - rewrite E2, E1, Z.add_assoc. apply s32_add.
Qed.

Lemma progress_iff st P Q k k' t s st' :
  (forall x, P x <-> Q x) -> k = k' -> progress st P k t s st' -> progress st Q k' t s st'.
Proof. intros H <- []. split; try done. by eapply marks_iff. Qed.

Lemma progress_none st (P : Z -> Prop) :
  (forall x, ~ P x) -> between st -> progress st P 0 (sc_trans_id (rs_sih st)) (sc_i_size (rs_sih st)) st.
Proof.
  intros HP Hb. split; try done; [by apply marks_none|]. rewrite Z.add_0_r. symmetry. apply (be_count _ Hb).
Qed.

Lemma scanned_between st P tid i_size st' :
  scanned st P tid i_size st' -> between st -> between st'.
Proof.
  intros [A B (_ & _ & _ & C) _ D _ _] [E _ _ F]. split; [|done|done|by rewrite C].
  rewrite <- E. apply (marks_bits _ _ _ A).
Qed.

(** The blocks of an inode. *)
Lemma recover_pages_reads passes addr u st :
  slot_ok addr (sc_trans_id (rs_sih st)) (sc_i_size (rs_sih st)) u -> live u = true -> between st ->
  exists st', reads (nova_recover_inode_pages sbi ls kmalloc (S passes) fuel (inode_at addr)) st m () st'
    /\ progress st (use_marks u) 1 (tid_after (sc_trans_id (rs_sih st)) u)
         (size_after (sc_i_size (rs_sih st)) u) st'
    /\ rs_maps st' = rs_maps st.
Proof.
  intros Hs Hlv [Hnb Hre Hbt Hct]. set (pi := inode_at addr) in *.
  set (st1 := with_sih (set_inode (pi_nova_ino pi) (pi_i_mode pi) (rs_sih st))
                (with_ring (count_inode (rs_ring st)) st)).
  assert (Hst1 : forall {B} (k : RM B) b st2, reads k st1 m b st2 ->
    reads (st ← get_state; put_ring (count_inode (rs_ring st));;
           put_sih (set_inode (pi_nova_ino pi) (pi_i_mode pi) (rs_sih st));; k) st m b st2).
  { intros B k b st2 Hk. apply reads_state_bind. rstep; [done|]. rstep; [done|exact Hk]. }
  destruct u as [|bs|bs es]; [done| |]; destruct Hs as ((_ & Hdel & _) & Hmode & Hs); fold pi in Hdel, Hmode.
  - destruct Hs as (Hc & Hbs & Hl).
    destruct (traverse_log_reads sbi G fuel bs (pi_log_head pi) st1 m) as (bm & Hr & Hm); [done|by rewrite <- Hnb in Hbs|done|].
    exists (with_bm bm st1). split.
    + unfold nova_recover_inode_pages. rewrite Hdel. change (0 =? 1) with false. cbv iota.
      apply Hst1. rewrite (proj2 (Z.eqb_eq _ _) Hmode). unfold nova_traverse_dir_inode_log. rewrite Hmc.
      rstep; [exact Hr|]. apply reads_ret.
    + split; [|done]. split; try done. split; try done; [|apply s32_s32].
      rewrite <- Hnb. apply (marks_bits _ _ _ Hm).
  - destruct (file_log_reads sbi G Hmc m n Hn ls kmalloc fuel passes pi bs es st1) as (st' & Hr & Hd); try done.
    exists st'. split.
    + unfold nova_recover_inode_pages. rewrite Hdel. change (0 =? 1) with false. cbv iota.
      apply Hst1. by rewrite (proj2 (Z.eqb_neq _ _) Hmode).
    + pose proof (scanned_between st1 _ _ _ _ Hd) as Hb. destruct Hd as [? ? (? & ? & ? & ?) ? ? ? ?].
      split; [|done]. split; try done. apply Hb. split; try done. apply s32_s32.
Qed.

(** ** The inodes of a superpage *)

(** The number in slot [addr] is new, one of [cpu], and not among [F]. *)
Definition number_ok (cpu : Z) (st0 : ino_state) (F : Z -> Prop) (ino : Z) : Prop :=
  ~ in_use sbi st0 ino /\ ~ F ino
  /\ exists k, ino = k * cpus sbi + cpu /\ 0 < k < MAX_INODE - 1.

Lemma scan_inode_reads passes addr u st cpu st0 F lh :
  slot_ok addr (sc_trans_id (rs_sih st)) (sc_i_size (rs_sih st)) u -> between st ->
  0 <= cpu < cpus sbi -> open_run sbi cpu st0 F (rs_maps st) lh ->
  (live u = true -> number_ok cpu st0 F (number_at addr)) ->
  exists lh' st', reads (scan_inode sbi ls kmalloc snapshots (S passes) fuel addr lh) st m lh' st'
    /\ progress st (use_marks u) (if live u then 1 else 0) (tid_after (sc_trans_id (rs_sih st)) u)
         (size_after (sc_i_size (rs_sih st)) u) st'
    /\ open_run sbi cpu st0 (fun y => F y \/ live u = true /\ y = number_at addr) (rs_maps st') lh'.
Proof.
  intros Hs Hbe Hcpu Hrun Hnum.
  assert (Hgo : forall {B} (f : list Z -> RM B) b st2,
    reads (f (words m (meta_addr sbi addr) NOVA_INODE_WORDS)) st m b st2 ->
    reads (ws ← mem_op (load_words (meta_addr sbi addr) NOVA_INODE_WORDS); f ws) st m b st2).
  { intros B f b st2 Hf. rstep; [apply reads_mem, load_words_run|exact Hf]. }
  destruct (live u) eqn:Hlv.
  - assert (Hk : kept addr) by (destruct u; [done|apply Hs|apply Hs]). destruct Hk as (Hmode & Hdel & Hval).
    destruct (recover_pages_reads passes addr u st Hs Hlv Hbe) as (st1 & Hr1 & Hd1 & Emp).
    destruct (Hnum eq_refl) as (Hnu & HnF & k & Ek & Hk).
    destruct (update_run sbi Hslab cpu st0 F (rs_maps st1) lh k Hcpu) as (lh' & mp & Eup & Hrun'); try done.
    { by rewrite Emp. } { by rewrite <- Ek. } { by rewrite <- Ek. }
    exists lh', (with_maps mp st1). split_and!.
    + unfold scan_inode. apply Hgo. fold (inode_at addr).
      rewrite (proj2 (Z.eqb_neq _ _) Hmode), (proj2 (Z.eqb_eq _ _) Hdel). cbn [orb negb].
      apply (reads_bind _ _ _ _ 0 st).
      { destruct (Z.eqb_spec (pi_valid (inode_at addr)) 0) as [Ev|]; [|apply reads_ret].
        apply reads_mem. unfold nova_append_inode_to_snapshot. rewrite !bind_load. by rewrite (Hval Ev). }
      change (negb (0 =? 0)) with false. cbv iota.
      rstep; [exact Hr1|]. rstep; [apply reads_mem; reflexivity|].
      apply map_op_reads. rewrite <- Ek in Eup. exact Eup.
    + destruct Hd1 as [? [] ? ? ? ?]. by split.
    + destruct Hrun' as [W U R T]. split; [exact W| |exact R|exact T].
      intros y. rewrite U, Ek. tauto.
  - destruct u; [|done|done]. exists lh, st. split_and!.
    + unfold scan_inode. apply Hgo. fold (inode_at addr). unfold slot_ok in Hs.
      assert ((pi_i_mode (inode_at addr) =? 0) || negb (pi_deleted (inode_at addr) =? 0) = true) as ->; [|apply reads_ret].
      apply orb_true_iff. destruct Hs as [->|Hd]; [by left|right]. by rewrite (proj2 (Z.eqb_neq _ _) Hd).
    + apply progress_none; [by intros x []|done].
    + destruct Hrun as [W U R T]. split; [exact W| |exact R|exact T]. intros y. rewrite U. intuition congruence.
Qed.

(** The inodes from slot [addr] on. *)
Fixpoint slots_ok (addr tid i_size : Z) (us : list inode_use) : Prop :=
  match us with
  | [] => True
  | u :: us => slot_ok addr tid i_size u
      /\ slots_ok (addr + NOVA_INODE_SIZE) (tid_after tid u) (size_after i_size u) us
  end.
Fixpoint numbers (addr : Z) (us : list inode_use) : list Z :=
  match us with
  | [] => []
  | u :: us => (if live u then [number_at addr] else []) ++ numbers (addr + NOVA_INODE_SIZE) us
  end.
Definition uses_marks (us : list inode_use) (x : Z) : Prop := exists u, u ∈ us /\ use_marks u x.

Lemma scan_inodes_reads passes addr us st cpu st0 F lh :
  slots_ok addr (sc_trans_id (rs_sih st)) (sc_i_size (rs_sih st)) us ->
  0 <= addr -> addr + NOVA_INODE_SIZE * Z.of_nat (length us) < TWO64 ->
  between st -> 0 <= cpu < cpus sbi -> open_run sbi cpu st0 F (rs_maps st) lh ->
  NoDup (numbers addr us) -> Forall (number_ok cpu st0 F) (numbers addr us) ->
  exists lh' st', reads (scan_inodes sbi ls kmalloc snapshots (length us) (S passes) fuel addr lh) st m lh' st'
    /\ progress st (uses_marks us) (Z.of_nat (length (numbers addr us))) (foldl tid_after (sc_trans_id (rs_sih st)) us)
         (foldl size_after (sc_i_size (rs_sih st)) us) st'
    /\ open_run sbi cpu st0 (fun y => F y \/ y ∈ numbers addr us) (rs_maps st') lh'.
Proof.
  revert addr st F lh. induction us as [|u us IH];
    intros addr st F lh Hs Ha Hmax Hbe Hcpu Hrun Hnd Hnum.
  { exists lh, st. split_and!; [apply reads_ret| |].
    - apply progress_none; [|done]. intros x (u & Hu & _). by apply not_elem_of_nil in Hu.
    - destruct Hrun as [W U R T]. split; [exact W| |exact R|exact T]. intros y. rewrite U. simpl. set_solver. }
  destruct Hs as [Hs1 Hs]. cbn [numbers length foldl scan_inodes] in *.
  apply NoDup_app in Hnd as (_ & Hfresh & Hnd). apply Forall_app in Hnum as [Hnum1 Hnum].
  destruct (scan_inode_reads passes addr u st cpu st0 F lh) as (lh1 & st1 & Hr1 & Hp1 & Hrun1); try done.
  { intros Hlv. rewrite Hlv in Hnum1. by apply Forall_cons_1 in Hnum1 as [? _]. }
  destruct (IH (addr + NOVA_INODE_SIZE) st1 (fun y => F y \/ live u = true /\ y = number_at addr) lh1)
    as (lh2 & st2 & Hr2 & Hp2 & Hrun2); try done; try (unfold NOVA_INODE_SIZE in *; lia).
  { by rewrite (pg_tid _ _ _ _ _ _ Hp1), (pg_size _ _ _ _ _ _ Hp1). }
  { apply Hp1. }
  { apply Forall_forall. intros y Hy. rewrite Forall_forall in Hnum. destruct (Hnum y Hy) as (A & B & C).
    split_and!; [done| |done]. intros [HF|[Hlv ->]]; [done|]. apply (Hfresh (number_at addr)); [|done].
    rewrite Hlv. by left. }
  exists lh2, st2. split_and!.
  - rstep; [exact Hr1|]. rewrite u64_small by (unfold NOVA_INODE_SIZE in *; lia). exact Hr2.
  - rewrite (pg_tid _ _ _ _ _ _ Hp1), (pg_size _ _ _ _ _ _ Hp1) in Hp2.
    eapply progress_iff; [| |eapply progress_trans; [exact Hp1|exact Hp2]].
    2:{ rewrite length_app. destruct (live u); simpl; lia. }
    intros x. unfold uses_marks. cbv beta. split.
    + intros [?|(v & ? & ?)]; [exists u; split; [by left|done]|exists v; split; [by right|done]].
    + intros (v & [->|?]%elem_of_cons & ?); [by left|right; by exists v].
  - destruct Hrun2 as [W U R T]. split; [exact W| |exact R|exact T]. intros y. rewrite U, elem_of_app.
    clear. destruct (live u); rewrite ?list_elem_of_singleton, ?elem_of_nil; intuition done.
Qed.

(** ** A superpage and a table *)

Lemma mark_superpage_reads k b st :
  0 <= b -> b + Z.of_nat k <= nbits st -> nbits st < TWO31 ->
  exists bm, reads (mark_superpage k b) st m () (with_bm bm st)
    /\ marks (rs_bm st) (fun x => b <= x < b + Z.of_nat k) bm.
Proof.
  revert b st. induction k as [|k IH]; intros b st Hb Hk Hmax; cbn [mark_superpage].
  { exists (rs_bm st). split; [by destruct st|]. apply marks_none. lia. }
  destruct (set_4K_reads b st m) as (bm1 & Hr1 & Hm1); [lia|].
  pose proof (nbits_marks _ _ _ Hm1) as Hn1.
  destruct (IH (b + 1) (with_bm bm1 st)) as (bm2 & Hr2 & Hm2); [lia|lia|lia|].
  exists bm2. split.
  - rstep; [exact Hr1|]. rewrite u64_small by lia. exact Hr2.
  - eapply marks_iff; [|eapply marks_trans; [exact Hm1|exact Hm2]]. intros x. cbv beta. lia.
Qed.

(** The superpage at block [b], with the inodes [us]. *)
Record superpage_ok (tid i_size b : Z) (us : list inode_use) : Prop := {
  sp_block : 0 <= b /\ b + 512 <= n;
  sp_len : NOVA_INODE_SIZE * Z.of_nat (length us) <= 2097152;
  sp_slots : slots_ok (b * 4096) tid i_size us
}.
Definition page_marks (b : Z) (us : list inode_use) (x : Z) : Prop :=
  b <= x < b + 512 \/ uses_marks us x.

(** The thread after superpages whose inodes have the numbers [F]. *)
Record recovered (st : rstate) (P : Z -> Prop) (tid i_size : Z) (F : list Z) (st' : rstate) : Prop := {
  rc_progress : progress st P (Z.of_nat (length F)) tid i_size st';
  rc_wf : maps_wf sbi (rs_maps st');
  rc_use : forall y, in_use sbi (rs_maps st') y <-> in_use sbi (rs_maps st) y \/ y ∈ F;
  rc_total : s_inodes_used_count (rs_maps st') = s_inodes_used_count (rs_maps st)
}.

Lemma scan_superpage_reads passes b us curr1 st cpu :
  superpage_ok (sc_trans_id (rs_sih st)) (sc_i_size (rs_sih st)) b us ->
  between st -> 0 <= cpu < cpus sbi -> maps_wf sbi (rs_maps st) ->
  NoDup (numbers (b * 4096) us) -> Forall (number_ok cpu (rs_maps st) (fun _ => False)) (numbers (b * 4096) us) ->
  exists st', reads (scan_superpage sbi ls kmalloc snapshots (length us) (S passes) fuel (b * 4096) curr1) st m () st'
    /\ recovered st (page_marks b us) (foldl tid_after (sc_trans_id (rs_sih st)) us)
         (foldl size_after (sc_i_size (rs_sih st)) us) (numbers (b * 4096) us) st'.
Proof.
  intros [[Hb Hbn] Hlen Hs] Hbe Hcpu Hw Hnd Hnum. pose proof (be_bits _ Hbe) as Hnb.
  destruct (mark_superpage_reads 512 b st) as (bm1 & Hr1 & Hm1); [lia|lia|lia|].
  set (st1 := with_bm bm1 st). pose proof (nbits_marks _ _ _ Hm1) as Hn1.
  assert (Hrun : open_run sbi cpu (rs_maps st) (fun _ => False) (rs_maps st1) (0, 0)).
  { split; [done| |by left|done]. intros y. unfold in_run. simpl. tauto. }
  destruct (scan_inodes_reads passes (b * 4096) us st1 cpu (rs_maps st) (fun _ => False) (0, 0))
    as (lh & st2 & Hr2 & Hp2 & Hrun2); try done; try lia.
  { destruct Hbe. split; try done. unfold st1. congruence. }
  assert (Hp : progress st (page_marks b us) (Z.of_nat (length (numbers (b * 4096) us))) (foldl tid_after (sc_trans_id (rs_sih st)) us)
                 (foldl size_after (sc_i_size (rs_sih st)) us) st2).
  { destruct Hp2 as [A B C D E F]. split; try done.
    eapply marks_iff; [|eapply marks_trans; [exact Hm1|exact A]]. intros x. unfold page_marks. done. }
  assert (Hgo : forall st3, reads (let '(ino_low, ino_high) := lh in
      if (ino_low =? 0) || (ino_high =? 0) then mret ()
      else map_op (fun maps => nova_failure_insert_inodetree sbi maps ino_low ino_high);; mret ()) st2 m () st3 ->
    reads (scan_superpage sbi ls kmalloc snapshots (length us) (S passes) fuel (b * 4096) curr1) st m () st3).
  { intros st3 Hr3. unfold scan_superpage. rewrite Hmc, Z.shiftr_div_pow2 by done. change (2 ^ PAGE_SHIFT) with 4096.
    rewrite Z.div_mul by done. rstep; [exact Hr1|]. rstep; [apply reads_ret|]. rstep; [exact Hr2|]. by destruct lh. }
  destruct (or_run _ _ _ _ _ _ Hrun2) as [->|(l & h & -> & [Hl Hh] & _)].
  - exists st2. split; [apply Hgo, reads_ret|]. split; [done|apply Hrun2| |apply (or_total _ _ _ _ _ _ Hrun2)].
    intros y. pose proof (or_use _ _ _ _ _ _ Hrun2 y) as Hu. unfold in_run in Hu. simpl in Hu. tauto.
  - destruct (close_run sbi Hslab cpu _ _ _ l h Hcpu Hrun2 Hl) as (mp & Ei & Hwf & Hto & Huse).
    pose proof (ms_cpus _ _ Hw). exists (with_maps mp st2). split.
    + apply Hgo. rewrite (proj2 (Z.eqb_neq _ _)) by nia. rewrite (proj2 (Z.eqb_neq _ _)) by nia. cbn [orb].
      rstep; [|apply reads_ret]. by apply map_op_reads with (a := 0).
    + split; [destruct Hp as [A [] C D E F]; by split|exact Hwf| |exact Hto]. intros y. rewrite (Huse y). tauto.
Qed.

(** The superpages of a table, in order; each has the inodes of a superpage. *)
Fixpoint table_ok (tid i_size : Z) (tbl : list (Z * list inode_use)) : Prop :=
  match tbl with
  | [] => True
  | (b, us) :: tbl => superpage_ok tid i_size b us
      /\ table_ok (foldl tid_after tid us) (foldl size_after i_size us) tbl
  end.
Definition table_numbers (tbl : list (Z * list inode_use)) : list Z :=
  tbl ≫= fun p => numbers (p.1 * 4096) p.2.
Definition table_marks (tbl : list (Z * list inode_use)) (x : Z) : Prop :=
  exists b us, (b, us) ∈ tbl /\ page_marks b us x.

(** The ring names the superpages from entry [k] on. *)
Definition ring_names (r : task_ring) (k : Z) (tbl : list (Z * list inode_use)) : Prop :=
  forall i b us, tbl !! i = Some (b, us) -> slot (addr0 r) (k + Z.of_nat i) = b * 4096.

Lemma number_ok_after cpu st0 st1 F (ys : list Z) (zs : list Z) :
  (forall y, in_use sbi st1 y <-> in_use sbi st0 y \/ y ∈ zs) -> (forall y, y ∈ zs -> y ∉ ys) ->
  Forall (number_ok cpu st0 F) ys -> Forall (number_ok cpu st1 F) ys.
Proof.
  intros Hu Hd. rewrite !Forall_forall. intros H y Hy. destruct (H y Hy) as (A & B & C).
  split_and!; [|done|done]. rewrite Hu. intros [?|Hz]; [done|]. by apply (Hd y Hz).
Qed.

Lemma scan_table_reads passes per tbl k st cpu :
  table_ok (sc_trans_id (rs_sih st)) (sc_i_size (rs_sih st)) tbl -> ring_names (rs_ring st) k tbl ->
  Forall (fun p => length p.2 = per) tbl ->
  between st -> 0 <= cpu < cpus sbi -> maps_wf sbi (rs_maps st) ->
  NoDup (table_numbers tbl) -> Forall (number_ok cpu (rs_maps st) (fun _ => False)) (table_numbers tbl) ->
  exists st' tid i_size, reads (scan_table sbi ls kmalloc snapshots (length tbl) k per (S passes) fuel) st m () st'
    /\ recovered st (table_marks tbl) tid i_size (table_numbers tbl) st'.
Proof.
  revert k st. induction tbl as [|[b us] tbl IH]; intros k st Ht Hring Hper Hbe Hcpu Hw Hnd Hnum.
  { exists st, (sc_trans_id (rs_sih st)), (sc_i_size (rs_sih st)). split; [apply reads_ret|]. split; [|done| |done].
    - apply progress_none; [|done]. intros x (? & ? & Hin & _). by apply not_elem_of_nil in Hin.
    - intros y. simpl. set_solver. }
  destruct Ht as [Hsp Ht]. apply Forall_cons in Hper as [Elen Hper]. cbn [snd] in Elen. subst per.
  change (table_numbers ((b, us) :: tbl)) with (numbers (b * 4096) us ++ table_numbers tbl) in *.
  apply NoDup_app in Hnd as (Hnd1 & Hdis & Hnd). apply Forall_app in Hnum as [Hnum1 Hnum].
  destruct (scan_superpage_reads passes b us (slot (addr1 (rs_ring st)) k) st cpu)
    as (st1 & Hr1 & [Hp1 Hw1 Hu1 Ht1]); try done.
  pose proof (pg_addrs _ _ _ _ _ _ Hp1) as (Ea & _ & _).
  destruct (IH (k + 1) st1) as (st2 & tid & i_size & Hr2 & [Hp2 Hw2 Hu2 Ht2]); try done.
  { by rewrite (pg_tid _ _ _ _ _ _ Hp1), (pg_size _ _ _ _ _ _ Hp1). }
  { intros i b' us' Hi. rewrite Ea, <- (Hring (S i) b' us' Hi). f_equal. lia. }
  { apply Hp1. }
  { by eapply number_ok_after. }
  exists st2, tid, i_size. split.
  - cbn [length scan_table]. apply reads_state_bind.
    assert (slot (addr0 (rs_ring st)) k = b * 4096) as ->.
    { rewrite <- (Hring 0%nat b us eq_refl). f_equal. lia. }
    rstep; [exact Hr1|exact Hr2].
  - split; [|done| |by rewrite Ht2, Ht1].
    + eapply progress_iff; [|by rewrite length_app, Nat2Z.inj_add|eapply progress_trans; [exact Hp1|exact Hp2]].
      intros x. cbv beta. unfold table_marks. split.
      * intros [?|(b' & us' & ? & ?)]; [exists b, us; split; [by left|done]|exists b', us'; split; [by right|done]].
      * intros (b' & us' & [[= -> ->]|?]%elem_of_cons & ?); [by left|right; by exists b', us'].
    + intros y. rewrite Hu2, Hu1, elem_of_app. tauto.
Qed.

(** The table of a CPU whose superpages have 16384 inodes each. *)
Record table_of (cpu : Z) (st : rstate) (tbl : list (Z * list inode_use)) : Prop := {
  to_ok : table_ok 0 0 tbl;
  to_ring : num (rs_ring st) = Z.of_nat (length tbl) /\ ring_names (rs_ring st) 0 tbl;
  to_full : Forall (fun p => Z.of_nat (length p.2) = 16384) tbl;
  to_numbers : NoDup (table_numbers tbl)
    /\ Forall (number_ok cpu (rs_maps st) (fun _ => False)) (table_numbers tbl)
}.

(** The inode of the inode tables: superpages of 2 MB. *)
Definition tables_2M : Prop :=
  load8 (nova_get_reserved_inode sbi NOVA_INODETABLE_INO + 3) m = (NOVA_BLOCK_TYPE_2M, []).

Lemma thread_reads passes tbl st cpu :
  tables_2M -> table_of cpu st tbl -> nbits st = n -> ring_empty (rs_ring st) ->
  s32 (inodes_used_count (rs_ring st)) = inodes_used_count (rs_ring st) ->
  0 <= cpu < cpus sbi -> maps_wf sbi (rs_maps st) ->
  exists st' tid i_size, reads (failure_thread_func sbi ls kmalloc snapshots (S passes) fuel) st m () st'
    /\ recovered st (table_marks tbl) tid i_size (table_numbers tbl) st'.
Proof.
  intros H2M [Hok [Hnum Hring] Hfull [Hnd Hnew]] Hnb Hre Hct Hcpu Hw.
  destruct (scan_table_reads passes (Z.to_nat 16384) tbl 0 (with_sih (nova_init_header 0) st) cpu)
    as (st' & tid & i_size & Hr & [Hp Hwf Hu Hto]); try done.
  { eapply Forall_impl; [exact Hfull|]. intros p E. cbv beta in *. lia. }
  exists st', tid, i_size. split; [|split; [destruct Hp; by split|done|exact Hu|exact Hto]].
  unfold failure_thread_func. change (nova_get_inode_by_ino sbi NOVA_INODETABLE_INO)
    with (Some (nova_get_reserved_inode sbi NOVA_INODETABLE_INO)). cbv iota.
  rstep; [apply reads_mem, H2M|]. rstep; [done|]. apply reads_state_bind. cbn [rs_ring].
  rewrite Hnum, Nat2Z.id. exact Hr.
Qed.
End thread.
