(* ===== verification/MountRecovery.v ===== *)
(** Failure recovery at mount, the driver (bbuild.c): the bitmaps of all CPUs,
    the crawl over the inode tables, one scan thread per CPU, the root inode,
    and the free lists rebuilt from the marks.

    The threads run at the same time on the CPUs; each works on its bitmap, its
    ring and its map of inode numbers, so the model runs them one after the
    other, and then the part of the mounting process that runs beside them (it
    adds marks to bitmap 0 and counts in ring 0).  Allocations succeed. *)

From S2P Require Import Prelude.
From S2P Require Import Kernel.
From S2P Require Import Checksum.
From S2P Require Import RangeTree.
From S2P Require Import Layout.
From S2P Require Import FreeList.
From S2P Require Import Balloc.
From S2P Require Import Pmem.
From S2P Require Import Journal.
From S2P Require Import InodeLog.
From S2P Require Import InodeMap.
From S2P Require Import DataGuard.
From S2P Require Import Replica.
From S2P Require Import InodeTable.
From S2P Require Import ScanBitmap.
From S2P Require Import Recovery.

Definition NOVA_ROOT_INO : Z := 1.
Definition NOVA_DATA_BLOCKNODE_INO : Z := 3.
Definition NOVA_META_BLOCKNODE_INO : Z := 4.
Definition NOVA_SNAPSHOT_INO : Z := 7.

(** [global_bm], [task_rings] and the maps of inode numbers. *)
Record gstate := GState {
  g_bms : list scan_bitmap;
  g_rings : list task_ring;
  g_maps : ino_state
}.
Abbreviation GM := (SM gstate).

(** [kcalloc]; [entry_array] is not cleared, but read only where [nvmm_array]
    is set. *)
Definition zero_ring : task_ring := TaskRing ∅ ∅ 0 0 ∅ ∅.
Definition put_rings (rs : list task_ring) : GM () :=
  fun g => mret (Some ((), GState (g_bms g) rs (g_maps g))).
Definition put_ring_of (c : nat) (r : task_ring) : GM () :=
  fun g => mret (Some ((), GState (g_bms g) (<[c := r]> (g_rings g)) (g_maps g))).

(** A computation on the bitmap and the ring of CPU [c]; its header starts as
    [h] and is dropped. *)
Definition on_cpu {A} (c : nat) (h : scan_header) (x : RM A) : GM A := fun g =>
  match g_bms g !! c, g_rings g !! c with
  | Some bm, Some ring =>
      r ← x (RState bm ring h (g_maps g));
      mret ((fun '(a, st) => (a, GState (<[c := rs_bm st]> (g_bms g)) (<[c := rs_ring st]> (g_rings g))
                                  (rs_maps st))) <$> r)
  | _, _ => mret None
  end.
(** A computation on the bitmap only. *)
Definition on_bm {A} (c : nat) (x : RM A) : GM A := fun g =>
  match g_bms g !! c with
  | Some bm =>
      r ← x (RState bm zero_ring (nova_init_header 0) (g_maps g));
      mret ((fun '(a, st) => (a, GState (<[c := rs_bm st]> (g_bms g)) (g_rings g) (g_maps g))) <$> r)
  | None => mret None
  end.
Definition on_maps {A} (f : ino_state -> option (A * ino_state)) : GM A :=
  fun g => mret ((fun '(a, mp) => (a, GState (g_bms g) (g_rings g) mp)) <$> f (g_maps g)).

Section mount.
Context {RB : RbOps} {KM : KmemOps} {CR : CrcOps} {MP : ModParams} {BO : BitOps}.
Context (sbi : nova_sb_info) (ls : list free_list) (kmalloc : Z -> bool) (snapshots : list Z).

(** ** The crawl *)

(** The superpages of the tables of [n] CPUs from [c] on; the error code. *)
Fixpoint crawl_rings (fuel n c : nat) : GM Z :=
  match n with
  | O => mret 0
  | S n' =>
      g ← get_state;
      match g_rings g !! c with
      | None => bug
      | Some ring =>
          r ← mem_opt (crawl_cpu sbi fuel (Z.of_nat c) ring);
          match r with
          | inl err => mret err
          | inr ring => put_ring_of c ring;; crawl_rings fuel n' (S c)
          end
      end
  end.

Fixpoint run_threads (passes fuel n c : nat) : GM () :=
  match n with
  | O => mret ()
  | S n' =>
      on_cpu c (nova_init_header 0) (failure_thread_func sbi ls kmalloc snapshots passes fuel);;
      run_threads passes fuel n' (S c)
  end.

(** [nova_get_reference] succeeds. *)
Definition recover_root (passes fuel : nat) : GM () :=
  let root_addr := nova_get_reserved_inode_addr NOVA_ROOT_INO in
  ws ← mem_op (load_words (meta_addr sbi root_addr) NOVA_INODE_WORDS);
  on_cpu 0 (nova_init_header 0) (nova_recover_inode_pages sbi ls kmalloc passes fuel (decode_inode ws)).

Definition nova_failure_recovery_crawl (passes fuel : nat) : GM Z :=
  ret ← crawl_rings fuel (Z.to_nat (cpus sbi)) 0;
  if negb (ret =? 0) then mret ret
  else
    run_threads passes fuel (Z.to_nat (cpus sbi)) 0;;
    recover_root passes fuel;;
    mret 0.

(** ** The special inodes *)

(** [pi->log_head = pi->log_tail = 0] *)
Definition clear_log (ino : Z) : GM () :=
  match nova_get_inode_by_ino sbi ino with
  | None => bug
  | Some pi =>
      mem_op (store64 (pi + 72) 0;; store64 (pi + 64) 0;;
              nova_flush_buffer (pi + 64) CACHELINE_SIZE false)
  end.

(** The journal pages of [n] CPUs from [c] on. *)
Fixpoint mark_journals (n c : nat) : GM () :=
  match n with
  | O => mret ()
  | S n' =>
      match nova_get_journal_pointers sbi (Z.of_nat c) with
      | None => bug
      | Some jp =>
          journal_head ← mem_op (load jp);
          on_bm c (set_4K (Z.shiftr journal_head PAGE_SHIFT));;
          mark_journals n' (S c)
      end
  end.

Definition mark_snapshot_log (fuel : nat) : GM () :=
  let i := Z.to_nat (NOVA_SNAPSHOT_INO mod cpus sbi) in
  match nova_get_inode_by_ino sbi NOVA_SNAPSHOT_INO with
  | None => bug
  | Some pi =>
      ws ← mem_op (load_words pi NOVA_INODE_WORDS);
      on_bm i (nova_traverse_dir_inode_log sbi fuel (decode_inode ws))
  end.

(** The sum over the rings; the [int] counters are extended to 64 bits. *)
Definition count_used (rings : list task_ring) (st : ino_state) : ino_state :=
  foldl (fun st ring => set_used (u64 (s_inodes_used_count st + inodes_used_count ring)) st) st rings.

(** An error of the crawl is found before the threads are woken, and the wait
    for them does not return. *)
Definition nova_failure_recovery (passes fuel : nat) : GM Z :=
  r ← on_maps (fun mp => nova_init_inode_inuse_list sbi (set_used 0 mp));
  if r <? 0 then mret (- EINVAL)
  else
    clear_log NOVA_DATA_BLOCKNODE_INO;;
    clear_log NOVA_META_BLOCKNODE_INO;;
    mark_journals (Z.to_nat (cpus sbi)) 0;;
    mark_snapshot_log fuel;;
    mem_op PERSISTENT_BARRIER;;
    put_rings (replicate (Z.to_nat (cpus sbi)) zero_ring);;
    ret ← nova_failure_recovery_crawl passes fuel;
    if negb (ret =? 0) then bug
    else
      g ← get_state;
      on_maps (fun mp => Some ((), count_used (g_rings g) mp));;
      mret ret.

End mount.

(** What is left of the mount: the free lists and the maps. *)
Record mounted := Mounted { mt_ret : Z; mt_sbi : nova_sb_info; mt_lists : list free_list; mt_maps : ino_state }.

(** The recovery of a file system whose super block has these sizes, from the
    lists and maps [nova_fill_super] allocated; the snapshot table was restored,
    with the epochs [snapshots].  The way back through the saved lists
    ([nova_try_normal_recovery]) is switched off in the source. *)
Definition nova_recovery {RB : RbOps} {KM : KmemOps} {CR : CrcOps} {MP : ModParams} {BO : BitOps}
    (kmalloc : Z -> bool) (snapshots : list Z) (passes fuel : nat)
    (s_size s_meta_size s_data_size : Z) (sbi : nova_sb_info) (ls : list free_list) (mp : ino_state)
    : PM (option mounted) :=
  let sbi := set_data_num_blocks (Z.shiftr s_data_size PAGE_SHIFT)
               (set_meta_num_blocks (Z.shiftr s_meta_size PAGE_SHIFT) sbi) in
  match nova_init_blockmap sbi ls true with
  | None => mret None
  | Some (sbi, ls) =>
      r ← nova_failure_recovery sbi ls kmalloc snapshots passes fuel
            (GState (alloc_bm sbi s_size) [] mp);
      match r with
      | None => mret None
      | Some (ret, g) =>
          if negb (ret =? 0) then mret (Some (Mounted ret sbi ls (g_maps g)))
          else
            mret ((fun '(ret, _, ls) => Mounted ret sbi ls (g_maps g))
                    <$> nova_build_blocknode_map sbi (g_bms g) ls s_size)
      end
  end.
