(* ===== verification/MountRecoverySpec.v ===== *)
(** Failure recovery at mount: every block in service is marked by some CPU and
    nothing else is. *)

From S2P Require Import Prelude.
From S2P Require Import Kernel.
From S2P Require Import Checksum.
From S2P Require Import RangeTree.
From S2P Require Import Layout.
From S2P Require Import FreeList.
From S2P Require Import Balloc.
From S2P Require Import Pmem.
From S2P Require Import PmemSpec.
From S2P Require Import Journal.
From S2P Require Import InodeLog.
From S2P Require Import InodeLogSpec.
From S2P Require Import InodeMap.
From S2P Require Import InodeMapSpec.
From S2P Require Import InodeMapTheorems.
From S2P Require Import DataGuard.
From S2P Require Import DataGuardSpec.
From S2P Require Import Replica.
From S2P Require Import InodeTable.
From S2P Require Import InodeTableSpec.
From S2P Require Import InodeTableTheorems.
From S2P Require Import ScanBitmap.
From S2P Require Import ScanBitmapSpec.
From S2P Require Import Recovery.
From S2P Require Import RecoverySpec.
From S2P Require Import FileScanSpec.
From S2P Require Import FileLogSpec.
From S2P Require Import RecoveryNumbers.
From S2P Require Import ThreadSpec.
From S2P Require Import MountRecovery.

(** ** One CPU of the state *)

Definition with_cpu (c : nat) (st : rstate) (g : gstate) : gstate :=
  GState (<[c := rs_bm st]> (g_bms g)) (<[c := rs_ring st]> (g_rings g)) (rs_maps st).

Lemma on_cpu_reads {A} c h (x : RM A) g m bm ring a st' :
  g_bms g !! c = Some bm -> g_rings g !! c = Some ring ->
  reads x (RState bm ring h (g_maps g)) m a st' -> reads (on_cpu c h x) g m a (with_cpu c st' g).
Proof.
  intros Hb Hr Hx. unfold reads, on_cpu. rewrite Hb, Hr.
  exact (bind_run _ _ m _ [] _ [] Hx eq_refl).
Qed.

Definition with_bm_of (c : nat) (bm : scan_bitmap) (g : gstate) : gstate :=
  GState (<[c := bm]> (g_bms g)) (g_rings g) (g_maps g).

Lemma on_bm_reads {A} c (x : RM A) g m bm a st' :
  g_bms g !! c = Some bm -> reads x (RState bm zero_ring (nova_init_header 0) (g_maps g)) m a st' ->
  reads (on_bm c x) g m a (with_bm_of c (rs_bm st') g).
Proof.
  intros Hb Hx. unfold reads, on_bm. rewrite Hb. exact (bind_run _ _ m _ [] _ [] Hx eq_refl).
Qed.

(** The bitmaps [bms'] have the marks [P c] more than [bms] on CPU [c]. *)
Definition all_marks (bms : list scan_bitmap) (P : nat -> Z -> Prop) (bms' : list scan_bitmap) : Prop :=
  length bms' = length bms
  /\ forall c bm bm', bms !! c = Some bm -> bms' !! c = Some bm' -> marks bm (P c) bm'.

Lemma all_marks_trans bms P bms1 Q bms2 :
  all_marks bms P bms1 -> all_marks bms1 Q bms2 -> all_marks bms (fun c x => P c x \/ Q c x) bms2.
Proof.
  intros [L1 H1] [L2 H2]. split; [congruence|]. intros c bm bm2 Hb Hb2.
  destruct (lookup_lt_is_Some_2 bms1 c) as [bm1 Hb1]; [rewrite L1; by eapply lookup_lt_Some|].
  eapply marks_trans; eauto.
Qed.

Lemma all_marks_iff bms P Q bms' :
  (forall c x, (c < length bms)%nat -> P c x <-> Q c x) -> all_marks bms P bms' -> all_marks bms Q bms'.
Proof.
  intros HPQ [L H]. split; [done|]. intros c bm bm' Hb Hb'. eapply marks_iff; [|by eapply H].
  intros x. apply HPQ. by eapply lookup_lt_Some.
Qed.

Lemma all_marks_none bms : all_marks bms (fun _ _ => False) bms.
Proof. split; [done|]. intros c bm bm' Hb Hb'. simplify_eq. apply marks_none. tauto. Qed.

Lemma all_marks_one bms c bm P bm' :
  bms !! c = Some bm -> marks bm P bm' -> all_marks bms (fun c' x => c' = c /\ P x) (<[c := bm']> bms).
Proof.
  intros Hb Hm. split; [by rewrite length_insert|]. intros c' b b' H1 H2.
  apply list_lookup_insert_Some in H2 as [(<- & -> & _)|[Hne H2]].
  - simplify_eq. eapply marks_iff; [|exact Hm]. tauto.
  - simplify_eq. apply marks_none. by intros x [-> _].
Qed.

Section mount.
Context {RB : RbOps} {KM : KmemOps} {CR : CrcOps} {MP : ModParams}.
Context {RBL : RbLaws} {KML : KmemLaws}.
Context (sbi : nova_sb_info) (G : log_geometry sbi) (Hmc : metadata_csum = false).
Context (Hslab : forall T, is_Some (nova_alloc_range_node T)).
Context (Hcpus : 0 < cpus sbi <= 1024).
Context (m : mem) (n : Z) (Hn : 0 < n < TWO31).
Context (ls : list free_list) (kmalloc : Z -> bool) (snapshots : list Z) (fuel : nat).

(** The bitmaps have [n] bits. *)
Definition bms_bits (bms : list scan_bitmap) : Prop :=
  forall c bm, bms !! c = Some bm -> bits_of (scan_bm_4K bm) = n.

Lemma all_marks_bits bms P bms' : all_marks bms P bms' -> bms_bits bms -> bms_bits bms'.
Proof.
  intros [L H] Hb c bm' Hc. destruct (lookup_lt_is_Some_2 bms c) as [bm Hbm].
  { rewrite <- L. by eapply lookup_lt_Some. }
  by rewrite (marks_bits _ _ _ (H _ _ _ Hbm Hc)), (Hb _ _ Hbm).
Qed.

(** ** The crawl *)

(** A ring that names the superpages of a table. *)
Record crawled (r : task_ring) (bs : list Z) : Prop := {
  cw_num : num r = Z.of_nat (length bs);
  cw_names : forall i b, bs !! i = Some b -> slot (addr0 r) (Z.of_nat i) = b * 4096;
  cw_empty : ring_empty r;
  cw_count : inodes_used_count r = 0
}.

Lemma table_loop_reads k p bs count r :
  sp_chain sbi (cur m) p bs -> Forall superpage bs -> (length bs <= k)%nat ->
  num r < RING_SIZE -> 0 <= count -> count + Z.of_nat (length bs) <= RING_SIZE ->
  exists a0, table_loop sbi k 0 p count r m
      = (Some (inr (count + Z.of_nat (length bs),
                    TaskRing a0 (addr1 r) (num r) (inodes_used_count r) (entry_array r) (nvmm_array r))), [])
    /\ (forall i, i < count -> slot a0 i = slot (addr0 r) i)
    /\ (forall i b, bs !! i = Some b -> slot a0 (count + Z.of_nat i) = b * 4096).
Proof.
  revert p bs count r. induction k as [|k IH]; intros p bs count r Hc Hbs Hk Hnum H0 Hmax.
  - destruct bs; [|simpl in Hk; lia]. simpl in Hc. subst p. exists (addr0 r). split_and!; [|done|done].
    simpl. rewrite Z.add_0_r. by destruct r.
  - destruct bs as [|b bs].
    { simpl in Hc. subst p. exists (addr0 r). split_and!; [|done|done]. simpl. rewrite Z.add_0_r. by destruct r. }
    destruct Hc as [-> Hc]. apply Forall_cons in Hbs as [Hb Hbs]. cbn [length] in Hk, Hmax.
    cbn [table_loop]. pose proof Hb as [? ?]. rewrite (proj2 (Z.eqb_neq _ _)) by lia.
    rewrite (proj2 (Z.leb_gt _ _)) by lia. rewrite (proj2 (Z.leb_gt _ _)) by lia. cbn [Z.eqb]. cbv zeta.
    rewrite bind_load.
    assert (u64 (meta_addr sbi (b * 4096) + (2097152 - 8)) = sp_link sbi b) as ->.
    { rewrite <- (next_superpage_link sbi G b Hb). unfold next_superpage. f_equal.
      change (nova_inode_blk_size table_sih) with 2097152. lia. }
    rewrite s32_small by (unfold RING_SIZE in *; lia).
    set (r1 := TaskRing _ _ _ _ _ _).
    destruct (IH (cur m (sp_link sbi b)) bs (count + 1) r1) as (a0 & -> & Hlow & Hat); try done; try lia.
    exists a0. split_and!.
    + cbn [length]. do 3 f_equal. f_equal. lia.
    + intros i Hi. rewrite Hlow by lia. unfold slot, r1. cbn [addr0]. by rewrite lookup_insert_ne by lia.
    + intros [|i] b' Hi.
      * injection Hi as <-. rewrite Hlow by lia. unfold slot, r1. cbn [addr0].
        rewrite Z.add_0_r. by rewrite lookup_insert_eq.
      * rewrite <- (Hat i b' Hi). f_equal. lia.
Qed.

Lemma crawl_cpu_reads c bs :
  0 <= c < cpus sbi -> sp_chain sbi (cur m) (cur m (head_addr sbi 0 c)) bs -> Forall superpage bs ->
  (length bs <= fuel)%nat -> Z.of_nat (length bs) <= RING_SIZE ->
  exists r, crawl_cpu sbi fuel c zero_ring m = (Some (inr r), []) /\ crawled r bs.
Proof.
  intros Hc Hch Hbs Hf Hl. unfold crawl_cpu. rewrite Hmc. cbn [crawl_tables].
  rewrite (inode_table_addr sbi G Hcpus 0 c) by (split; [by left|done]). rewrite bind_load.
  destruct (table_loop_reads fuel (cur m (head_addr sbi 0 c)) bs 0 zero_ring) as (a0 & E & _ & Hat); try done.
  rewrite (bind_read _ _ _ _ E). cbv beta iota. cbn [crawl_tables]. rewrite Z.add_0_l.
  eexists. split; [reflexivity|]. cbn [num zero_ring].
  destruct (Z.ltb_spec 0 (Z.of_nat (length bs))).
  - split; cbn; try done.
  - split; cbn; try done. lia.
Qed.

(** The tables of all CPUs, with what their inodes use. *)
Context (tbls : list (list (Z * list inode_use))).
Context (Htbls : Z.of_nat (length tbls) = cpus sbi).

Record table_image (c : nat) (tbl : list (Z * list inode_use)) : Prop := {
  ti_chain : sp_chain sbi (cur m) (cur m (head_addr sbi 0 (Z.of_nat c))) tbl.*1;
  ti_super : Forall superpage tbl.*1;
  ti_length : (length tbl <= fuel)%nat /\ Z.of_nat (length tbl) <= RING_SIZE;
  ti_ok : table_ok sbi m n ls kmalloc snapshots fuel 0 0 tbl;
  ti_full : Forall (fun p => Z.of_nat (length p.2) = 16384) tbl;
  ti_fresh : NoDup (table_numbers sbi m tbl);
  ti_numbers : forall y, y ∈ table_numbers sbi m tbl ->
    y mod cpus sbi = Z.of_nat c /\ init_range_high sbi < y / cpus sbi < MAX_INODE - 1
}.
Context (Htab : forall c tbl, tbls !! c = Some tbl -> table_image c tbl).

Lemma cpu_of c tbl : tbls !! c = Some tbl -> 0 <= Z.of_nat c < cpus sbi.
Proof. intros Hc%lookup_lt_Some. lia. Qed.

Lemma crawl_rings_reads k c g :
  (c + k = length tbls)%nat ->
  (forall j, (c <= j < length tbls)%nat -> g_rings g !! j = Some zero_ring) ->
  exists rings, reads (crawl_rings sbi fuel k c) g m 0 (GState (g_bms g) rings (g_maps g))
    /\ length rings = length (g_rings g)
    /\ (forall j, (j < c)%nat -> rings !! j = g_rings g !! j)
    /\ (forall j tbl, (c <= j)%nat -> tbls !! j = Some tbl -> exists r, rings !! j = Some r /\ crawled r tbl.*1).
Proof.
  revert c g. induction k as [|k IH]; intros c g Hck Hz.
  { exists (g_rings g). split_and!; try done; [by destruct g|].
    intros j tbl Hj Ht%lookup_lt_Some. lia. }
  destruct (lookup_lt_is_Some_2 tbls c) as [tbl Ht]; [lia|]. destruct (Htab c tbl Ht).
  destruct (crawl_cpu_reads (Z.of_nat c) tbl.*1) as (r & Er & Hr); try done;
    [by eapply cpu_of|rewrite length_fmap; lia|rewrite length_fmap; lia|].
  destruct (IH (S c) (GState (g_bms g) (<[c := r]> (g_rings g)) (g_maps g))) as (rings & Hrs & Hl & Hlow & Hat).
  { lia. }
  { intros j Hj. cbn [g_rings]. rewrite list_lookup_insert_ne by lia. apply Hz. lia. }
  cbn [g_bms g_rings g_maps] in *. rewrite length_insert in Hl. exists rings. split_and!.
  - cbn [crawl_rings]. apply reads_state_bind. rewrite (Hz c) by lia.
    rstep; [apply reads_mem_opt, Er|]. cbv beta iota. rstep; [done|]. exact Hrs.
  - done.
  - intros j Hj. rewrite Hlow by lia. by rewrite list_lookup_insert_ne by lia.
  - intros j tbl' Hj Hj'. destruct (decide (j = c)) as [->|]; [|apply Hat; [lia|done]].
    simplify_eq. exists r. split; [|done]. rewrite Hlow by lia. apply list_lookup_insert_eq.
    apply lookup_lt_Some with zero_ring, Hz. lia.
Qed.

(** ** The threads *)

Context (H2M : tables_2M sbi m).

(** The numbers of the inodes of the CPUs from [c] on. *)
Definition numbers_from (c : nat) (y : Z) : Prop :=
  exists j tbl, (c <= j)%nat /\ tbls !! j = Some tbl /\ y ∈ table_numbers sbi m tbl.

Lemma length_numbers addr us : (length (numbers sbi m addr us) <= length us)%nat.
Proof.
  revert addr. induction us as [|u us IH]; intros addr; [done|]. cbn [numbers length]. rewrite length_app.
  specialize (IH (addr + NOVA_INODE_SIZE)). destruct (live u); simpl; lia.
Qed.

Lemma length_table_numbers c tbl :
  tbls !! c = Some tbl -> Z.of_nat (length (table_numbers sbi m tbl)) <= 16384 * 512.
Proof.
  intros Hc. destruct (Htab c tbl Hc) as [_ _ [_ Hl] _ Hf _ _]. unfold RING_SIZE in Hl.
  enough (Z.of_nat (length (table_numbers sbi m tbl)) <= 16384 * Z.of_nat (length tbl)) by lia.
  clear Hc Hl. induction Hf as [|[b us] tbl Hu _ IH]; [done|].
  unfold table_numbers in *. cbn [mbind list_bind fst snd length]. rewrite length_app.
  pose proof (length_numbers (b * 4096) us). cbn [snd] in Hu. lia.
Qed.

Lemma numbers_new c tbl mp mp0 :
  tbls !! c = Some tbl ->
  (forall y, in_use sbi mp0 y -> 0 <= y < (init_range_high sbi + 1) * cpus sbi) -> 0 <= init_range_high sbi ->
  (forall y, in_use sbi mp y -> in_use sbi mp0 y \/ exists j tbl', (j < c)%nat /\ tbls !! j = Some tbl'
     /\ y ∈ table_numbers sbi m tbl') ->
  Forall (number_ok sbi (Z.of_nat c) mp (fun _ => False)) (table_numbers sbi m tbl).
Proof.
  intros Hc Hmp0 Hh Hmp. apply Forall_forall. intros y Hy. destruct (ti_numbers _ _ (Htab c tbl Hc) y Hy) as [Hm Hr].
  pose proof (Z.div_mod y (cpus sbi) ltac:(lia)). split_and!; [|tauto|].
  - intros [Hu|(j & tbl' & Hj & Hj' & Hy')]%Hmp.
    + apply Hmp0 in Hu. assert (y / cpus sbi < init_range_high sbi + 1); [|lia].
      apply Z.div_lt_upper_bound; lia.
    + destruct (ti_numbers _ _ (Htab j tbl' Hj') y Hy'). lia.
  - exists (y / cpus sbi). split; lia.
Qed.

(** CPU [c] after its thread. *)
Record thread_done (bm : scan_bitmap) (tbl : list (Z * list inode_use)) (bm' : scan_bitmap) (r' : task_ring) : Prop := {
  td_marks : marks bm (table_marks sbi m tbl) bm';
  td_empty : ring_empty r';
  td_count : inodes_used_count r' = Z.of_nat (length (table_numbers sbi m tbl))
}.

Lemma run_threads_reads passes k c g mp0 :
  (c + k = length tbls)%nat -> bms_bits (g_bms g) -> length (g_bms g) = length tbls ->
  (forall j tbl, (c <= j)%nat -> tbls !! j = Some tbl -> exists r, g_rings g !! j = Some r /\ crawled r tbl.*1) ->
  maps_wf sbi (g_maps g) -> 0 <= init_range_high sbi ->
  (forall y, in_use sbi mp0 y -> 0 <= y < (init_range_high sbi + 1) * cpus sbi) ->
  (forall y, in_use sbi (g_maps g) y -> in_use sbi mp0 y \/ exists j tbl', (j < c)%nat /\ tbls !! j = Some tbl'
     /\ y ∈ table_numbers sbi m tbl') ->
  exists g', reads (run_threads sbi ls kmalloc snapshots (S passes) fuel k c) g m () g'
    /\ length (g_bms g') = length (g_bms g) /\ length (g_rings g') = length (g_rings g)
    /\ (forall j, (j < c)%nat -> g_bms g' !! j = g_bms g !! j /\ g_rings g' !! j = g_rings g !! j)
    /\ (forall j tbl, (c <= j)%nat -> tbls !! j = Some tbl -> exists bm bm' r',
         g_bms g !! j = Some bm /\ g_bms g' !! j = Some bm' /\ g_rings g' !! j = Some r'
         /\ thread_done bm tbl bm' r')
    /\ maps_wf sbi (g_maps g') /\ s_inodes_used_count (g_maps g') = s_inodes_used_count (g_maps g)
    /\ forall y, in_use sbi (g_maps g') y <-> in_use sbi (g_maps g) y \/ numbers_from c y.
Proof.
  revert c g. induction k as [|k IH]; intros c g Hck Hbits Hlen Hring Hw Hh Hmp0 Hmp.
  { exists g. split_and!; try done.
    - intros j tbl Hj Ht%lookup_lt_Some. lia.
    - intros y. split; [by left|]. intros [?|(j & tbl & Hj & Ht%lookup_lt_Some & _)]; [done|lia]. }
  destruct (lookup_lt_is_Some_2 tbls c) as [tbl Ht]; [lia|]. destruct (Hring c tbl) as (r & Er & Hcr); [lia|done|].
  destruct (lookup_lt_is_Some_2 (g_bms g) c) as [bm Eb]; [lia|].
  destruct (thread_reads sbi G Hmc Hslab m n Hn ls kmalloc snapshots fuel passes tbl
              (RState bm r (nova_init_header 0) (g_maps g)) (Z.of_nat c) H2M) as (st' & tid & i_size & Hr & [Hp Hwf Hu Hto]).
  { destruct (Htab c tbl Ht) as [? ? ? Hok Hfull Hfresh ?]. split; [exact Hok| |exact Hfull|].
    - cbn [rs_ring]. rewrite (cw_num _ _ Hcr), length_fmap. split; [done|]. intros i b us Hi. cbn [rs_ring].
      rewrite Z.add_0_l. apply (cw_names _ _ Hcr). by rewrite list_lookup_fmap, Hi.
    - split; [done|]. by eapply numbers_new. }
  { exact (Hbits c bm Eb). } { apply (cw_empty _ _ Hcr). } { cbn [rs_ring]. by rewrite (cw_count _ _ Hcr). }
  { by eapply cpu_of. } { done. }
  destruct (IH (S c) (with_cpu c st' g)) as (g' & Hr' & Lb & Lr & Hlow & Hat & Hw' & Hto' & Hu'); try done.
  { lia. }
  { intros j bj Hj. apply list_lookup_insert_Some in Hj as [(<- & <- & _)|[_ Hj]]; [|by eapply Hbits].
    rewrite (marks_bits _ _ _ (pg_bm _ _ _ _ _ _ _ Hp)). exact (Hbits c bm Eb). }
  { cbn. by rewrite length_insert. }
  { intros j tbl' Hj Hj'. cbn. rewrite list_lookup_insert_ne by lia. apply Hring; [lia|done]. }
  { intros y [Hy|Hy]%Hu.
    - destruct (Hmp y Hy) as [?|(j & tbl' & ? & ? & ?)]; [by left|right]. exists j, tbl'. split_and!; [lia|done|done].
    - right. exists c, tbl. split_and!; [lia|done|done]. }
  cbn [g_bms g_rings with_cpu] in *. rewrite length_insert in Lb; rewrite length_insert in Lr.
  exists g'. split_and!; try done.
  - rstep; [|exact Hr']. by eapply on_cpu_reads.
  - intros j Hj. destruct (Hlow j) as [-> ->]; [lia|]. by rewrite !list_lookup_insert_ne by lia.
  - intros j tbl' Hj Hj'. destruct (decide (j = c)) as [->|].
    + simplify_eq. exists bm, (rs_bm st'), (rs_ring st'). destruct (Hlow c) as [-> ->]; [lia|].
      rewrite !list_lookup_insert_eq by (by eapply lookup_lt_Some). split_and!; try done.
      split; [apply (pg_bm _ _ _ _ _ _ _ Hp)|apply (pg_between _ _ _ _ _ _ _ Hp)|].
      rewrite (pg_count _ _ _ _ _ _ _ Hp). cbn [rs_ring]. rewrite (cw_count _ _ Hcr).
      pose proof (length_table_numbers c tbl Ht). rewrite s32_small; lia.
    + destruct (Hat j tbl') as (bj & bj' & rj & E1 & ? & ? & ?); [lia|done|].
      rewrite list_lookup_insert_ne in E1 by lia. by exists bj, bj', rj.
  - by rewrite Hto'.
  - intros y. rewrite Hu'. cbn [g_maps]. rewrite Hu. split.
    + intros [[?|?]|(j & tbl' & ? & ? & ?)]; [by left|right; exists c, tbl|right; exists j, tbl'; split_and!; [lia|done|done]].
      split_and!; [lia|done|done].
    + intros [?|(j & tbl' & Hj & ? & ?)]; [by left; left|]. destruct (decide (j = c)) as [->|].
      * simplify_eq. by left; right.
      * right. exists j, tbl'. split_and!; [lia|done|done].
Qed.

(** ** The crawl with the root inode *)

Definition root_addr : Z := nova_get_reserved_inode_addr NOVA_ROOT_INO.

Definition count_of (c : nat) (tbl : list (Z * list inode_use)) : Z :=
  Z.of_nat (length (table_numbers sbi m tbl)) + if decide (c = 0%nat) then 1 else 0.
Definition rings_count (rings : list task_ring) : Prop :=
  length rings = length tbls
  /\ forall c tbl r, tbls !! c = Some tbl -> rings !! c = Some r -> inodes_used_count r = count_of c tbl.

(** What the crawl adds on CPU [c]. *)
Definition crawl_marks (root : inode_use) (c : nat) (x : Z) : Prop :=
  (exists tbl, tbls !! c = Some tbl /\ table_marks sbi m tbl x) \/ c = 0%nat /\ use_marks sbi m root x.

Lemma crawl_reads passes g mp0 root :
  bms_bits (g_bms g) -> length (g_bms g) = length tbls -> g_rings g = replicate (Z.to_nat (cpus sbi)) zero_ring ->
  maps_wf sbi (g_maps g) -> 0 <= init_range_high sbi ->
  (forall y, in_use sbi mp0 y -> 0 <= y < (init_range_high sbi + 1) * cpus sbi) ->
  (forall y, in_use sbi (g_maps g) y -> in_use sbi mp0 y) ->
  slot_ok sbi m n ls kmalloc snapshots fuel root_addr 0 0 root -> live root = true ->
  exists g', reads (nova_failure_recovery_crawl sbi ls kmalloc snapshots (S passes) fuel) g m 0 g'
    /\ all_marks (g_bms g) (crawl_marks root) (g_bms g')
    /\ rings_count (g_rings g') /\ maps_wf sbi (g_maps g')
    /\ s_inodes_used_count (g_maps g') = s_inodes_used_count (g_maps g)
    /\ forall y, in_use sbi (g_maps g') y <-> in_use sbi (g_maps g) y \/ numbers_from 0 y.
Proof.
  intros Hbits Hlen Hz Hw Hh Hmp0 Hmp Hroot Hlive.
  assert (Hnc : Z.to_nat (cpus sbi) = length tbls) by lia.
  destruct (crawl_rings_reads (length tbls) 0 g) as (rings & Hr1 & Hl1 & _ & Hat1); [lia| |].
  { intros j Hj. rewrite Hz. apply lookup_replicate_2. lia. }
  rewrite Hz, length_replicate, Hnc in Hl1.
  destruct (run_threads_reads passes (length tbls) 0 (GState (g_bms g) rings (g_maps g)) mp0)
    as (g1 & Hr2 & Lb & Lr & _ & Hat2 & Hw2 & Hto2 & Hu2); try done.
  { intros y Hy. left. by apply Hmp. }
  cbn [g_bms g_rings g_maps] in *.
  destruct (lookup_lt_is_Some_2 tbls 0%nat) as [tbl0 Ht0]; [lia|].
  destruct (Hat2 0%nat tbl0) as (bm & bm1 & r1 & Eb & Eb1 & Er1 & [Hm1 He1 Hc1]); [lia|done|].
  pose proof (length_table_numbers 0 tbl0 Ht0) as Hsmall.
  assert (Hbe : between n (RState bm1 r1 (nova_init_header 0) (g_maps g1))).
  { split; [|done|done|]; cbn [rs_bm rs_ring].
    - unfold nbits. cbn [rs_bm]. rewrite (marks_bits _ _ _ Hm1). by eapply Hbits.
    - rewrite Hc1. apply s32_small. lia. }
  destruct (recover_pages_reads sbi G Hmc m n Hn ls kmalloc snapshots fuel passes root_addr root
              (RState bm1 r1 (nova_init_header 0) (g_maps g1)) Hroot Hlive Hbe) as (st' & Hr3 & Hp3 & Hmaps3).
  exists (with_cpu 0 st' g1). split_and!.
  - unfold nova_failure_recovery_crawl. rewrite Hnc. rstep; [exact Hr1|]. change (negb (0 =? 0)) with false. cbv iota.
    rstep; [exact Hr2|]. rstep; [|apply reads_ret]. unfold recover_root. fold root_addr.
    rstep; [apply reads_mem, load_words_run|]. by eapply on_cpu_reads.
  - split; [cbn; by rewrite length_insert|]. intros c b b' Hb Hb'. cbn [g_bms with_cpu] in Hb'.
    destruct (lookup_lt_is_Some_2 tbls c) as [tbl Ht]; [rewrite <- Hlen; by eapply lookup_lt_Some|].
    destruct (Hat2 c tbl) as (bc & bc' & rc & F1 & F2 & _ & [Hmc' _ _]); [lia|done|]. simplify_eq.
    apply list_lookup_insert_Some in Hb' as [(<- & <- & _)|[Hne Hb']]; simplify_eq.
    + eapply marks_iff; [|eapply marks_trans; [exact Hm1|apply (pg_bm _ _ _ _ _ _ _ Hp3)]].
      intros x. unfold crawl_marks. cbv beta. split; [intros [?|?]; [left; by eexists|by right]|].
      intros [(? & ? & ?)|[_ ?]]; [simplify_eq; by left|by right].
    + eapply marks_iff; [|exact Hmc']. intros x. unfold crawl_marks. split; [intros ?; left; by eexists|].
      intros [(? & ? & ?)|[? _]]; [by simplify_eq|congruence].
  - split; [cbn; by rewrite length_insert, Lr|]. intros c tbl r Ht Hr. cbn [g_rings with_cpu] in Hr.
    unfold count_of. apply list_lookup_insert_Some in Hr as [(<- & <- & _)|[Hne Hr]].
    + simplify_eq. rewrite (pg_count _ _ _ _ _ _ _ Hp3), decide_True by done. cbn [rs_ring]. rewrite Hc1.
      apply s32_small. lia.
    + destruct (Hat2 c tbl) as (bc & bc' & rc & _ & _ & F3 & [_ _ Hcc]); [lia|done|]. simplify_eq.
      rewrite decide_False by congruence. lia.
  - cbn. by rewrite Hmaps3.
  - cbn. by rewrite Hmaps3.
  - intros y. cbn [g_maps with_cpu]. rewrite Hmaps3. apply Hu2.
Qed.

(** ** The journals and the snapshot log *)

Context (mb : mem) (Hmb : forall a, cur mb a = cur m a).

Lemma words_same a k : words mb a k = words m a k.
Proof. unfold words. apply list_fmap_ext. intros. apply Hmb. Qed.

Lemma page_chain_same p bs : page_chain sbi m p bs -> page_chain sbi mb p bs.
Proof. revert p. induction bs as [|b bs IH]; intros p; [done|]. intros [-> H]. split; [done|]. rewrite Hmb. by apply IH. Qed.

(** The journal page of each CPU. *)
Definition journal_pages (jb : nat -> Z) : Prop := forall c, (c < length tbls)%nat ->
  0 <= jb c < n /\ exists jp, nova_get_journal_pointers sbi (Z.of_nat c) = Some jp
    /\ Z.shiftr (cur m jp) PAGE_SHIFT = jb c.

Lemma mark_journals_reads jb k c g :
  journal_pages jb -> (c + k = length tbls)%nat -> bms_bits (g_bms g) -> length (g_bms g) = length tbls ->
  exists bms, reads (mark_journals sbi k c) g mb () (GState bms (g_rings g) (g_maps g))
    /\ all_marks (g_bms g) (fun j x => (c <= j)%nat /\ x = jb j) bms.
Proof.
  intros Hj. revert c g. induction k as [|k IH]; intros c g Hck Hbits Hlen.
  { exists (g_bms g). split; [by destruct g|]. eapply all_marks_iff; [|apply all_marks_none]. cbv beta. lia. }
  destruct (Hj c) as (Hb & jp & Ejp & Ej); [lia|]. destruct (lookup_lt_is_Some_2 (g_bms g) c) as [bm Ebm]; [lia|].
  destruct (set_4K_reads (jb c) (RState bm zero_ring (nova_init_header 0) (g_maps g)) mb) as (bm1 & Hr & Hm).
  { unfold nbits. cbn [rs_bm]. rewrite (Hbits c bm Ebm). lia. }
  pose proof (all_marks_one _ _ _ _ _ Ebm Hm) as Hone.
  destruct (IH (S c) (with_bm_of c bm1 g)) as (bms & Hrs & Hms); [lia| |cbn; by rewrite length_insert|].
  { by eapply all_marks_bits. }
  exists bms. split.
  - cbn [mark_journals]. rewrite Ejp. rstep; [apply reads_mem; reflexivity|]. cbv beta.
    rewrite Hmb, Ej. rstep; [|exact Hrs]. by eapply (on_bm_reads c _ g mb bm () (with_bm bm1 _)).
  - eapply all_marks_iff; [|eapply all_marks_trans; [exact Hone|exact Hms]]. intros j x Hjl. cbv beta.
    split; [intros [[-> ->]|[? ->]]; (split; [lia|done])|]. intros [Hjc ->].
    destruct (decide (j = c)) as [->|]; [by left|right]. split; [lia|done].
Qed.

Definition snap_cpu : nat := Z.to_nat (NOVA_SNAPSHOT_INO mod cpus sbi).
Definition snapshot_log (bs : list Z) : Prop :=
  page_chain sbi m (pi_log_head (decode_inode (words m (nova_get_reserved_inode sbi NOVA_SNAPSHOT_INO) NOVA_INODE_WORDS))) bs
  /\ Forall (page_ok n) bs /\ (length bs <= fuel)%nat.

Lemma mark_snapshot_reads bs g :
  snapshot_log bs -> bms_bits (g_bms g) -> length (g_bms g) = length tbls ->
  exists bms, reads (mark_snapshot_log sbi fuel) g mb () (GState bms (g_rings g) (g_maps g))
    /\ all_marks (g_bms g) (fun j x => j = snap_cpu /\ x ∈ bs) bms.
Proof.
  intros (Hc & Hbs & Hf) Hbits Hlen.
  assert (Hlt : (snap_cpu < length (g_bms g))%nat).
  { unfold snap_cpu. pose proof (Z.mod_pos_bound NOVA_SNAPSHOT_INO (cpus sbi) ltac:(lia)). lia. }
  destruct (lookup_lt_is_Some_2 _ _ Hlt) as [bm Ebm]. set (st := RState bm zero_ring (nova_init_header 0) (g_maps g)).
  destruct (traverse_log_reads sbi G fuel bs _ st mb (page_chain_same _ _ Hc)) as (bm1 & Hr & Hm); [|done|].
  { unfold nbits, st. cbn [rs_bm]. by rewrite (Hbits _ _ Ebm). }
  eexists. split; [|by eapply all_marks_one]. unfold mark_snapshot_log.
  change (nova_get_inode_by_ino sbi NOVA_SNAPSHOT_INO) with (Some (nova_get_reserved_inode sbi NOVA_SNAPSHOT_INO)).
  cbv iota zeta. fold snap_cpu. rstep; [apply reads_mem, load_words_run|]. rewrite words_same.
  eapply (on_bm_reads snap_cpu _ g mb bm () (with_bm bm1 st)); [done|].
  unfold nova_traverse_dir_inode_log. rewrite Hmc. rstep; [exact Hr|apply reads_ret].
Qed.
End mount.

(** ** The whole of [nova_failure_recovery] *)

Section recovery.
Context {RB : RbOps} {KM : KmemOps} {CR : CrcOps} {MP : ModParams}.
Context {RBL : RbLaws} {KML : KmemLaws}.
Context (sbi : nova_sb_info) (G : log_geometry sbi) (Hmc : metadata_csum = false).
Context (Hslab : forall T, is_Some (nova_alloc_range_node T)).
Context (Hcpus : 0 < cpus sbi <= 1024).

(** The logs of the allocator inodes are dropped. *)
Definition clear_acts (ino : Z) : list pact :=
  let pi := nova_get_reserved_inode sbi ino in
  Store (pi + 72) 0 :: Store (pi + 64) 0 :: flush_acts (pi + 64) CACHELINE_SIZE.
Definition special_acts : list pact :=
  clear_acts NOVA_DATA_BLOCKNODE_INO ++ clear_acts NOVA_META_BLOCKNODE_INO.

(** What the device holds: the use of every inode, the journal pages and the
    snapshot log. *)
Record image := Image {
  im_tables : list (list (Z * list inode_use));
  im_root : inode_use;
  im_journals : nat -> Z;
  im_snapshot : list Z
}.

Record image_ok (m : mem) (n : Z) (ls : list free_list) (kmalloc : Z -> bool) (snapshots : list Z)
    (fuel : nat) (I : image) : Prop := {
  io_cpus : Z.of_nat (length (im_tables I)) = cpus sbi;
  io_tables : forall c tbl, im_tables I !! c = Some tbl ->
    table_image sbi m n ls kmalloc snapshots fuel c tbl;
  io_2M : tables_2M sbi m;
  io_root : slot_ok sbi m n ls kmalloc snapshots fuel (root_addr) 0 0 (im_root I)
    /\ live (im_root I) = true;
  io_journals : journal_pages sbi m n (im_tables I) (im_journals I);
  io_snapshot : snapshot_log sbi m n fuel (im_snapshot I)
}.

(** The blocks in service, as CPU [c] sees them, and together. *)
Definition cpu_blocks (m : mem) (I : image) (c : nat) (x : Z) : Prop :=
  x = im_journals I c \/ (c = snap_cpu sbi /\ x ∈ im_snapshot I)
  \/ crawl_marks sbi m (im_tables I) (im_root I) c x.
Definition in_service (m : mem) (I : image) (x : Z) : Prop :=
  exists c, (c < length (im_tables I))%nat /\ cpu_blocks m I c x.

(** The numbers of the live inodes. *)
Definition live_numbers (m : mem) (I : image) : list Z := im_tables I ≫= table_numbers sbi m.

Lemma live_numbers_elem m I y : y ∈ live_numbers m I <-> numbers_from sbi m (im_tables I) 0 y.
Proof.
  unfold live_numbers, numbers_from. rewrite list_elem_of_bind. split.
  - intros (tbl & Hy & (j & Hj)%list_elem_of_lookup). exists j, tbl. split_and!; [lia|done|done].
  - intros (j & tbl & _ & Hj & Hy). exists tbl. split; [done|]. by eapply list_elem_of_lookup_2.
Qed.

Lemma clear_log_run ino (g : gstate) m :
  nova_get_inode_by_ino sbi ino = Some (nova_get_reserved_inode sbi ino) ->
  clear_log sbi ino g m = (Some ((), g), clear_acts ino).
Proof.
  intros E. unfold clear_log. rewrite E. set (pi := nova_get_reserved_inode sbi ino).
  unfold mem_op. rewrite <- (app_nil_r (clear_acts ino)). eapply bind_run; [|done].
  apply bind_store, bind_store. apply flush_only_run.
Qed.

(** The counters of the rings, added up. *)
Lemma count_used_sum rings st (cs : list Z) :
  Forall2 (fun r c => inodes_used_count r = c) rings cs -> Forall (fun c => 0 <= c <= 2 ^ 24) cs ->
  0 <= s_inodes_used_count st -> s_inodes_used_count st + 2 ^ 24 * Z.of_nat (length cs) < TWO64 ->
  count_used rings st = set_used (s_inodes_used_count st + foldr Z.add 0 cs) st.
Proof.
  intros H. revert st. induction H as [|r c rings cs <- _ IH]; intros st Hcs Hst Hmax.
  { unfold count_used. simpl. rewrite Z.add_0_r. by destruct st. }
  apply Forall_cons in Hcs as [Hc Hcs]. cbn [length] in Hmax.
  unfold count_used in *. cbn [foldl foldr].
  rewrite u64_small by lia. rewrite IH; [|done|cbn; lia|cbn; lia].
  unfold set_used. cbn. f_equal. lia.
Qed.

Lemma sum_counts m c (l : list (list (Z * list inode_use))) :
  foldr Z.add 0 (imap (fun i => count_of sbi m (S c + i)) l) = Z.of_nat (length (l ≫= table_numbers sbi m)).
Proof.
  revert c. induction l as [|tbl l IH]; intros c; [done|]. cbn [imap foldr mbind list_bind].
  rewrite length_app, Nat2Z.inj_add, <- (IH (S c)). unfold count_of at 1. rewrite decide_False by lia.
  rewrite Z.add_0_r. do 2 f_equal.
Qed.

Lemma count_image m n ls kmalloc snapshots fuel I rings st :
  image_ok m n ls kmalloc snapshots fuel I -> rings_count sbi m (im_tables I) rings ->
  s_inodes_used_count st = NOVA_NORMAL_INODE_START ->
  count_used rings st = set_used (NOVA_NORMAL_INODE_START + Z.of_nat (length (live_numbers m I)) + 1) st.
Proof.
  intros [Hc Ht _ _ _ _] [Hl Hr] Hst. set (cs := imap (fun i => count_of sbi m i) (im_tables I)).
  assert (Hcs : length cs = length (im_tables I)) by (unfold cs; by rewrite length_imap).
  rewrite (count_used_sum rings st cs).
  - f_equal. rewrite Hst, <- Z.add_assoc. f_equal. unfold cs, live_numbers.
    destruct (im_tables I) as [|tbl l]; [simpl in Hc; lia|]. cbn [imap foldr mbind list_bind].
    rewrite length_app. unfold count_of at 1. rewrite decide_True by done.
    pose proof (sum_counts m 0 l) as Hs. unfold compose. change (fun i => count_of sbi m (S i)) with (fun i => count_of sbi m (1 + i)).
    rewrite Hs. lia.
  - apply Forall2_same_length_lookup_2; [congruence|]. intros i r c Hi Hj. unfold cs in Hj.
    rewrite list_lookup_imap in Hj. apply fmap_Some in Hj as (tbl & Htb & ->). by apply Hr.
  - apply Forall_lookup. intros i c Hi. unfold cs in Hi. rewrite list_lookup_imap in Hi.
    apply fmap_Some in Hi as (tbl & Htb & ->).
    pose proof (length_table_numbers sbi m n ls kmalloc snapshots fuel (im_tables I) Ht i tbl Htb).
    unfold count_of. case_decide; lia.
  - rewrite Hst. done.
  - rewrite Hst, Hcs. unfold NOVA_NORMAL_INODE_START. lia.
Qed.

Lemma failure_recovery_run passes n ls kmalloc snapshots fuel I bms mp m0 :
  let m := exec (special_acts ++ [Fence]) m0 in
  0 < n < TWO31 -> image_ok m n ls kmalloc snapshots fuel I -> bms_bits n bms ->
  Z.of_nat (length bms) = cpus sbi -> inode_maps mp = init_inode_maps sbi ->
  exists g', nova_failure_recovery sbi ls kmalloc snapshots (S passes) fuel (GState bms [] mp) m0
      = (Some (0, g'), special_acts ++ [Fence])
    /\ all_marks bms (cpu_blocks m I) (g_bms g') /\ maps_wf sbi (g_maps g')
    /\ (forall y, in_use sbi (g_maps g') y <->
          0 <= y < (init_range_high sbi + 1) * cpus sbi \/ y ∈ live_numbers m I)
    /\ s_inodes_used_count (g_maps g')
       = NOVA_NORMAL_INODE_START + Z.of_nat (length (live_numbers m I)) + 1.
Proof.
  intros m Hn HI Hbits Hlen Hmp. pose proof HI as [Htl Htab H2M [Hroot Hlive] Hj Hsn].
  assert (Hnb : length bms = length (im_tables I)) by lia.
  destruct (init_op sbi (set_used 0 mp) Hslab) as (mp1 & E1 & Hw1 & Hc1 & Hu1 & _); [lia|done|].
  set (mb := exec special_acts m0). assert (Em : m = exec [Fence] mb) by (unfold m, mb; by rewrite exec_app).
  assert (Hmb : forall a, cur mb a = cur m a).
  { intros a. rewrite Em. symmetry. apply cur_untouched. by repeat constructor. }
  destruct (mark_journals_reads sbi m n (im_tables I) mb Hmb
    (im_journals I) (length (im_tables I)) 0 (GState bms [] mp1)) as (bms1 & Hr1 & Hm1); try done.
  pose proof (all_marks_bits n _ _ _ Hm1 Hbits) as Hbits1. pose proof (proj1 Hm1) as L1.
  cbn [g_bms g_rings g_maps] in *.
  destruct (mark_snapshot_reads sbi G Hmc Hcpus m n fuel (im_tables I) Htl mb Hmb
    (im_snapshot I) (GState bms1 [] mp1) Hsn) as (bms2 & Hr2 & Hm2); [done|cbn; congruence|].
  pose proof (all_marks_bits n _ _ _ Hm2 Hbits1) as Hbits2. pose proof (proj1 Hm2) as L2.
  cbn [g_bms g_rings g_maps] in *.
  set (zr := replicate (Z.to_nat (cpus sbi)) zero_ring).
  destruct (crawl_reads sbi G Hmc Hslab Hcpus m n Hn ls kmalloc snapshots fuel (im_tables I) Htl Htab H2M passes
    (GState bms2 zr mp1) mp1 (im_root I)) as (g' & Hr3 & Hm3 & Hcnt & Hw3 & Hto3 & Hu3); try done.
  { cbn. congruence. }
  { unfold init_range_high. case_match; pose proof (Z.div_pos NOVA_NORMAL_INODE_START (cpus sbi) ltac:(done) ltac:(lia)); lia. }
  { intros y Hy. by apply Hu1. }
  cbn [g_bms g_maps] in *.
  set (mpf := count_used (g_rings g') (g_maps g')).
  assert (Emp : mpf = set_used (NOVA_NORMAL_INODE_START + Z.of_nat (length (live_numbers m I)) + 1) (g_maps g')).
  { unfold mpf. eapply count_image; [done|done|]. cbn [g_maps] in Hto3. by rewrite Hto3. }
  exists (GState (g_bms g') (g_rings g') mpf). cbn [g_bms g_maps]. split_and!.
  - unfold nova_failure_recovery.
    eapply (sm_run _ _ _ _ 0 (GState bms [] mp1) [] _ (special_acts ++ [Fence])).
    { unfold on_maps. cbn [g_maps]. by rewrite E1. }
    change (0 <? 0) with false. cbv iota. unfold special_acts. rewrite <- app_assoc.
    eapply sm_run; [by apply clear_log_run|]. eapply sm_run; [by apply clear_log_run|].
    rewrite <- exec_app. fold special_acts. fold mb. rewrite <- (app_nil_l [Fence]).
    replace (Z.to_nat (cpus sbi)) with (length (im_tables I)) by lia.
    eapply sm_run; [exact Hr1|]. rewrite <- (app_nil_l [Fence]). eapply sm_run; [exact Hr2|].
    rewrite <- (app_nil_r [Fence]). eapply sm_run; [done|]. change (exec [] (exec [] (exec special_acts (exec [] m0)))) with mb. rewrite <- Em.
    replace (length (im_tables I)) with (Z.to_nat (cpus sbi)) by lia. fold zr.
    eapply (sm_run _ _ _ _ _ _ [] _ []); [done|]. eapply (sm_run _ _ _ _ _ _ [] _ []); [exact Hr3|].
    done.
  - eapply all_marks_iff; [|eapply all_marks_trans; [exact Hm1|eapply all_marks_trans; [exact Hm2|exact Hm3]]].
    intros c x Hc. cbv beta. unfold cpu_blocks. split; [intros [[_ ?]|?]; tauto|]. intros [?|?]; [left; split; [lia|done]|tauto].
  - rewrite Emp. destruct Hw3. by split.
  - intros y. rewrite Emp. change (in_use sbi (set_used _ (g_maps g')) y) with (in_use sbi (g_maps g') y).
    by rewrite Hu3, Hu1, live_numbers_elem.
  - by rewrite Emp.
Qed.
End recovery.
