(* ===== verification/RecoveryTheorems.v ===== *)
(** The properties of failure recovery: what the scan marks, which numbers it
    enters, and that the blocks free after a mount are those no object uses. *)

From S2P Require Import Prelude.
From S2P Require Import Kernel.
From S2P Require Import Checksum.
From S2P Require Import RangeTree.
From S2P Require Import RangeTreeSpec.
From S2P Require Import Layout.
From S2P Require Import FreeList.
From S2P Require Import FreeListSpec.
From S2P Require Import Balloc.
From S2P Require Import BallocSpec.
From S2P Require Import BallocInit.
From S2P Require Import BallocTheorems.
From S2P Require Import Pmem.
From S2P Require Import PmemSpec.
From S2P Require Import Journal.
From S2P Require Import InodeLog.
From S2P Require Import InodeLogSpec.
From S2P Require Import InodeMap.
From S2P Require Import InodeMapSpec.
From S2P Require Import InodeMapTheorems.
From S2P Require Import DataGuard.
From S2P Require Import DataGuardSpec.
From S2P Require Import Replica.
From S2P Require Import InodeTable.
From S2P Require Import InodeTableSpec.
From S2P Require Import InodeTableTheorems.
From S2P Require Import ScanBitmap.
From S2P Require Import ScanBitmapSpec.
From S2P Require Import RebuildTheorems.
From S2P Require Import Recovery.
From S2P Require Import RecoverySpec.
From S2P Require Import FileScanSpec.
From S2P Require Import FileLogSpec.
From S2P Require Import RecoveryNumbers.
From S2P Require Import ThreadSpec.
From S2P Require Import MountRecovery.
From S2P Require Import MountRecoverySpec.

(** ** The bitmaps of a mount *)

Lemma new_bitmap_bits size : bits_of (scan_bm_4K (new_scan_bitmap size)) = map_bits size.
Proof. done. Qed.

Lemma new_bitmap_ok size : 0 <= size -> Z.shiftr size (PAGE_SHIFT + 3) * 8 < TWO31 -> bm_ok (new_scan_bitmap size).
Proof.
  intros Hs Hmax. assert (Hsh : forall k, 0 <= k -> Z.shiftr size k = size / 2 ^ k) by (intros; by apply Z.shiftr_div_pow2).
  change (PAGE_SHIFT + 3) with 15 in Hmax. rewrite Hsh in Hmax by done.
  assert (H24 : size / 2 ^ 24 * 512 <= size / 2 ^ 15).
  { rewrite Z.mul_comm. apply Z.div_le_lower_bound; [done|]. pose proof (Z.mul_div_le size (2 ^ 24) ltac:(done)). lia. }
  assert (H33 : size / 2 ^ 33 * 262144 <= size / 2 ^ 15).
  { rewrite Z.mul_comm. apply Z.div_le_lower_bound; [done|]. pose proof (Z.mul_div_le size (2 ^ 33) ltac:(done)). lia. }
  pose proof (Z.div_pos size (2 ^ 15) Hs ltac:(done)). pose proof (Z.div_pos size (2 ^ 24) Hs ltac:(done)).
  pose proof (Z.div_pos size (2 ^ 33) Hs ltac:(done)).
  split; unfold bits_in, bits_of, new_scan_bitmap; cbn [scan_bm_4K scan_bm_2M scan_bm_1G bitmap bitmap_size zero_scan_bm];
    change (PAGE_SHIFT + 3) with 15; change (PAGE_SHIFT_2M + 3) with 24; change (PAGE_SHIFT_1G + 3) with 33;
    rewrite ?Hsh by done; try (intros x Hx; by apply not_elem_of_empty in Hx); rewrite !u64_small by lia; lia.
Qed.

Lemma new_bitmap_marked size P bm x : marks (new_scan_bitmap size) P bm -> marked bm x <-> P x.
Proof.
  intros [_ E2 E1 Hb]. unfold marked. rewrite E2, E1, Hb. cbn. set_solver.
Qed.

Section bounds.
Context {RB : RbOps} {KM : KmemOps} {CR : CrcOps} {MP : ModParams}.
Context (sbi : nova_sb_info) (m : mem) (n : Z) (ls : list free_list) (kmalloc : Z -> bool)
  (snapshots : list Z) (fuel : nat).

Lemma page_bound bs x : Forall (page_ok n) bs -> x ∈ bs -> 0 <= x < n.
Proof. intros Hb Hx. rewrite Forall_forall in Hb. destruct (Hb x Hx) as [[? _] ?]. lia. Qed.

Lemma use_bound addr tid i_size u x :
  slot_ok sbi m n ls kmalloc snapshots fuel addr tid i_size u -> use_marks sbi m u x -> 0 <= x < n.
Proof.
  destruct u as [|bs|bs es]; [done| |].
  - intros (_ & _ & _ & Hb & _). by apply page_bound.
  - intros (_ & _ & [[(_ & _ & Hb & _) _ _ He _] _]) [Hx|(a & Ha & _ & Hx)]; [by eapply page_bound|].
    destruct (He a Ha) as ([? ?] & _). unfold has_block in Hx. lia.
Qed.

Lemma slots_bound addr tid i_size us x :
  slots_ok sbi m n ls kmalloc snapshots fuel addr tid i_size us -> uses_marks sbi m us x -> 0 <= x < n.
Proof.
  revert addr tid i_size. induction us as [|u us IH]; intros addr tid i_size Hs (v & Hv & Hx).
  { by apply not_elem_of_nil in Hv. }
  destruct Hs as [Hu Hs]. apply elem_of_cons in Hv as [->|Hv]; [by eapply use_bound|].
  eapply IH; [exact Hs|]. by exists v.
Qed.

Lemma table_bound tid i_size tbl x :
  table_ok sbi m n ls kmalloc snapshots fuel tid i_size tbl -> table_marks sbi m tbl x -> 0 <= x < n.
Proof.
  revert tid i_size. induction tbl as [|[b us] tbl IH]; intros tid i_size Ht (b' & us' & Hin & Hx).
  { by apply not_elem_of_nil in Hin. }
  destruct Ht as [[Hb _ Hs] Ht]. apply elem_of_cons in Hin as [[= -> ->]|Hin].
  - destruct Hx as [?|Hx]; [lia|by eapply slots_bound].
  - eapply IH; [exact Ht|]. by exists b', us'.
Qed.

Lemma service_bound I c x :
  image_ok sbi m n ls kmalloc snapshots fuel I -> (c < length (im_tables I))%nat ->
  cpu_blocks sbi m I c x -> 0 <= x < n.
Proof.
  intros [Htl Htab _ [Hroot _] Hj (_ & Hsn & _)] Hc [->|[[_ Hx]|[(tbl & Ht & Hx)|[_ Hx]]]].
  - by destruct (Hj c Hc).
  - by eapply page_bound.
  - eapply table_bound; [|exact Hx]. apply (ti_ok _ _ _ _ _ _ _ _ _ (Htab c tbl Ht)).
  - by eapply use_bound.
Qed.
End bounds.

Section theorems.
Context {RB : RbOps} {KM : KmemOps} {CR : CrcOps} {MP : ModParams}.
Context {RBL : RbLaws} {KML : KmemLaws} {BO : BitOps} {BL : BitLaws}.

(** C36. The free lists rebuilt from the bitmaps of the CPUs
    ([nova_build_blocknode_map], on lists set up by [nova_init_blockmap] for
    recovery) are well formed, and in both areas a block is free exactly when
    mkfs left it free and no bitmap marks it, as a 4K block or as part of a 2M
    or 1G block. *)
Theorem recovered_free_blocks sbi size bms :
  slab_available -> geometry sbi -> bits_cover sbi size -> Forall bm_ok bms ->
  exists ls0 ls1 bms' ls,
    nova_init_blockmap sbi (nova_alloc_block_free_lists sbi) false = Some (with_shares sbi, ls0)
    /\ nova_init_blockmap sbi (nova_alloc_block_free_lists sbi) true = Some (with_shares sbi, ls1)
    /\ nova_build_blocknode_map (with_shares sbi) bms ls1 size = Some (0, bms', ls)
    /\ lists_wf (with_shares sbi) ls
    /\ forall meta x, free_block ls meta x <->
         free_block ls0 meta x /\ ~ exists bm, bm ∈ bms /\ marked bm x.
Proof.
  intros Hslab Hg Hbc Hok. destruct (rebuild_ok sbi size bms Hslab Hg Hbc Hok) as (ls0 & bms' & ls & E0 & Eb & [Hw Hf]).
  exists ls0, (fresh_lists (with_shares sbi)), bms', ls. split_and!; try done.
  apply init_blockmap_recovery, Hg.
Qed.

(** C37. The scan of a regular file ([nova_recover_inode_pages]), without
    metadata checksums.  The log can be walked ([readable]): its pages are
    chained and it ends inside a page; every write entry has pages, all in the
    first window of 2^18 pages of the file, in data blocks other than block 0
    that the bitmap covers; an attribute entry that shortens the file finds no
    page behind the old end.  Then:
    - when the data of the latest transaction is what the checksums say, the scan
      marks exactly the pages of the log and every block of an entry that still
      holds pages, the overwritten blocks too; it leaves the window empty for the
      next file and counts the inode;
    - when no write entry has a transaction number other than the one before it
      (that of the header before the first), the walk goes through the unset
      [trans_curr];
    - when the device has no data checksums it goes through a null pointer. *)
Theorem file_scan_marks sbi m ls kmalloc fuel passes pi bs es st :
  log_geometry sbi -> metadata_csum = false -> 0 < nbits st < TWO31 ->
  pi_deleted pi <> 1 -> Z.land (pi_i_mode pi) S_IFMT <> S_IFDIR ->
  readable sbi m (nbits st) fuel (sc_i_size (rs_sih st)) pi bs es ->
  ring_empty (rs_ring st) -> sc_i_blk_type (rs_sih st) = 0 ->
  let tid := sc_trans_id (rs_sih st) in
  let run := nova_recover_inode_pages sbi ls kmalloc (S passes) fuel pi st m in
  (intact sbi m ls kmalloc tid es ->
     exists st', run = (Some ((), st'), [])
       /\ marks (rs_bm st) (fun x => x ∈ bs \/ file_block sbi m es x) (rs_bm st')
       /\ ring_empty (rs_ring st')
       /\ inodes_used_count (rs_ring st') = s32 (inodes_used_count (rs_ring st) + 1)
       /\ sc_trans_id (rs_sih st') = last_trans sbi m tid es
       /\ sc_i_size (rs_sih st') = last_size sbi m (sc_i_size (rs_sih st)) es)
  /\ (latest sbi m tid es = None -> tid <> NO_CKPT -> run = (None, []))
  /\ (data_csum = false -> kmalloc 0 = true -> is_Some (latest sbi m tid es) -> NoDup bs ->
      last_trans sbi m tid es <> NO_CKPT -> run = (None, [])).
Proof.
  intros G Hmc Hn Hdel Hmode Hrd Hre Hbt tid run.
  set (st1 := with_sih (set_inode (pi_nova_ino pi) (pi_i_mode pi) (rs_sih st))
                (with_ring (count_inode (rs_ring st)) st)).
  assert (Hgo : run = nova_traverse_file_inode_log sbi ls kmalloc (S passes) fuel pi st1 m).
  { unfold run, nova_recover_inode_pages. rewrite (proj2 (Z.eqb_neq _ _) Hdel), (proj2 (Z.eqb_neq _ _) Hmode).
    destruct (nova_traverse_file_inode_log sbi ls kmalloc (S passes) fuel pi st1 m) as [r t] eqn:E.
    eapply (sm_run _ _ _ _ st st [] _ t); [done|]. eapply (sm_run _ _ _ _ () _ [] _ t); [done|].
    eapply (sm_run _ _ _ _ () st1 [] _ t); [done|]. exact E. }
  rewrite Hgo. split_and!.
  - intros Hin. destruct (file_log_reads sbi G Hmc m (nbits st) Hn ls kmalloc fuel passes pi bs es st1)
      as (st' & Hr & [Hm He (_ & _ & _ & Hc) _ _ Ht Hs]); try done.
    exists st'. split_and!; done.
  - intros Hl Hne.
    exact (file_pass_fails sbi G Hmc m (nbits st) Hn ls kmalloc fuel passes pi bs es st1 Hrd eq_refl Hre Hbt
             (eq_ind_r (fun x => x <> NO_CKPT) Hne (latest_none sbi m _ _ Hl)) (or_introl Hl)).
  - intros Hd Hk Hl Hnd Hne.
    exact (file_pass_fails sbi G Hmc m (nbits st) Hn ls kmalloc fuel passes pi bs es st1 Hrd eq_refl Hre Hbt Hne
             (or_intror (conj Hnd (conj Hd (conj Hk Hl))))).
Qed.

(** C38. A scan thread ([failure_thread_func]), without metadata checksums, that
    finds the table of its CPU in its ring marks exactly the superpages of the
    table and what their live inodes use, and joins the numbers of the live
    inodes to the map of its CPU, which stays well formed.  The log of every
    live inode can be walked; that of a regular file is as C37 asks for the
    first of its cases ([scannable]): write entries with pages, all in the first
    window of 2^18 pages and in data blocks other than block 0 that the bitmap
    covers; no attribute entry that shortens the file with a page behind the old
    end; a latest transaction whose data has the recorded checksums.  On the
    other files the thread reads through an unset or null pointer, or misses
    block 0, as C37 and the lemmas above show. *)
Theorem thread_marks_table sbi m ls kmalloc snapshots fuel passes tbl st cpu :
  log_geometry sbi -> metadata_csum = false -> slab_available -> 0 < nbits st < TWO31 ->
  tables_2M sbi m -> table_of sbi m (nbits st) ls kmalloc snapshots fuel cpu st tbl ->
  ring_empty (rs_ring st) -> inodes_used_count (rs_ring st) = 0 ->
  0 <= cpu < cpus sbi -> maps_wf sbi (rs_maps st) ->
  exists st', failure_thread_func sbi ls kmalloc snapshots (S passes) fuel st m = (Some ((), st'), [])
    /\ marks (rs_bm st) (table_marks sbi m tbl) (rs_bm st')
    /\ ring_empty (rs_ring st')
    /\ inodes_used_count (rs_ring st') = s32 (Z.of_nat (length (table_numbers sbi m tbl)))
    /\ maps_wf sbi (rs_maps st')
    /\ forall y, in_use sbi (rs_maps st') y <-> in_use sbi (rs_maps st) y \/ y ∈ table_numbers sbi m tbl.
Proof.
  intros G Hmc Hslab Hn H2M Htab Hre Hct Hcpu Hw.
  destruct (thread_reads sbi G Hmc Hslab m (nbits st) Hn ls kmalloc snapshots fuel passes tbl st cpu)
    as (st' & tid & i_size & Hr & [[Hm [_ He _ _] _ Hc _ _] Hwf Hu _]); try done.
  { by rewrite Hct. }
  exists st'. rewrite Hct in Hc. split_and!; done.
Qed.

(** C39. The recovery of a mount ([nova_recovery]), without metadata checksums,
    of a device that holds the image [I] succeeds; it writes nothing but the
    cleared logs of the two allocator inodes.  The image is one of inodes that a
    scan thread can scan, as in C38: among others every live regular file has a
    latest transaction, whose data has the recorded checksums, and uses neither
    data block 0 nor pages behind the first 2^18 ([image_ok]).  Afterwards a block of either area is free exactly when
    mkfs left it free and it is not in service: a journal page, a superpage of
    an inode table, a log page, or a block a live file wrote.  The numbers in
    use are those mkfs reserves and those of the live inodes, and the counter
    of inodes counts the root a second time. *)
Theorem recovery_frees_the_unused kmalloc snapshots passes fuel size meta_size data_size sbi0 sbi1 sbi mp m0 m I :
  sbi1 = set_data_num_blocks (Z.shiftr data_size PAGE_SHIFT)
           (set_meta_num_blocks (Z.shiftr meta_size PAGE_SHIFT) sbi0) ->
  sbi = with_shares sbi1 -> m = exec (special_acts sbi ++ [Fence]) m0 ->
  slab_available -> geometry sbi1 -> log_geometry sbi -> cpus sbi0 <= 1024 ->
  metadata_csum = false -> 0 <= size < TWO63 -> bits_cover sbi1 size -> 0 < map_bits size ->
  inode_maps mp = init_inode_maps sbi ->
  image_ok sbi m (map_bits size) (fresh_lists sbi) kmalloc snapshots fuel I ->
  exists ls0 ls mp',
    nova_init_blockmap sbi1 (nova_alloc_block_free_lists sbi1) false = Some (sbi, ls0)
    /\ nova_recovery kmalloc snapshots (S passes) fuel size meta_size data_size sbi0
         (nova_alloc_block_free_lists sbi0) mp m0
       = (Some (Mounted 0 sbi ls mp'), special_acts sbi ++ [Fence])
    /\ lists_wf sbi ls
    /\ (forall meta x, free_block ls meta x <-> free_block ls0 meta x /\ ~ in_service sbi m I x)
    /\ maps_wf sbi mp'
    /\ (forall y, in_use sbi mp' y <->
          0 <= y < (init_range_high sbi + 1) * cpus sbi \/ y ∈ live_numbers sbi m I)
    /\ s_inodes_used_count mp'
       = NOVA_NORMAL_INODE_START + Z.of_nat (length (live_numbers sbi m I)) + 1.
Proof.
  intros E1 Es -> Hslab Hg G Hcp Hmc Hsize Hbc Hbits Hmp HI.
  set (m := exec (special_acts sbi ++ [Fence]) m0) in *.
  assert (Hcpu : cpus sbi = cpus sbi1 /\ cpus sbi0 = cpus sbi1) by (by rewrite Es, E1).
  pose proof (ge_cpus _ Hg) as Hc0. destruct Hcpu as [Ec Ec0]. rewrite <- Ec in Hc0. rewrite Ec0, <- Ec in Hcp.
  destruct (failure_recovery_run sbi G Hmc Hslab ltac:(lia) passes (map_bits size) (fresh_lists sbi) kmalloc
    snapshots fuel I (alloc_bm sbi size) mp m0) as (g' & Hrun & [Hlen Hmarks] & Hw & Hu & Hcount); try done.
  { split; [done|apply Hbc]. }
  { intros c bm Hb. unfold alloc_bm in Hb. apply lookup_replicate in Hb as [-> _]. done. }
  { unfold alloc_bm. rewrite length_replicate. lia. }
  assert (Hat : forall c bm, g_bms g' !! c = Some bm ->
    (c < length (im_tables I))%nat /\ marks (new_scan_bitmap size) (cpu_blocks sbi m I c) bm).
  { intros c bm Hb. pose proof (lookup_lt_Some _ _ _ Hb) as Hl. rewrite Hlen in Hl. unfold alloc_bm in *.
    rewrite length_replicate in Hl. split; [pose proof (io_cpus _ _ _ _ _ _ _ _ HI); lia|].
    eapply Hmarks; [|exact Hb]. by apply lookup_replicate_2. }
  assert (Hok : Forall bm_ok (g_bms g')).
  { apply Forall_lookup. intros c bm Hb. destruct (Hat c bm Hb) as [Hl Hm]. eapply marks_ok; [exact Hm| |].
    - intros x Hx. rewrite new_bitmap_bits. by eapply service_bound.
    - apply new_bitmap_ok; [lia|]. pose proof (bc_int _ _ Hbc) as Hmax. unfold map_bits in Hmax.
      rewrite u64_small in Hmax; [done|]. rewrite Z.shiftr_div_pow2 by done.
      pose proof (Z.div_pos size (2 ^ (PAGE_SHIFT + 3)) ltac:(lia) ltac:(done)).
      pose proof (Z.mul_div_le size (2 ^ (PAGE_SHIFT + 3)) ltac:(done)). change (2 ^ (PAGE_SHIFT + 3)) with 32768 in *. lia. }
  destruct (rebuild_ok sbi1 size (g_bms g') Hslab Hg Hbc Hok) as (ls0 & bms' & ls & E0 & Eb & [Hwl Hf]).
  rewrite <- Es in *. exists ls0, ls, (g_maps g'). split; [done|]. split; [|split_and!; [exact Hwl| |exact Hw|exact Hu|exact Hcount]].
  - unfold nova_recovery. rewrite <- E1.
    assert (nova_alloc_block_free_lists sbi0 = nova_alloc_block_free_lists sbi1) as ->
      by (unfold nova_alloc_block_free_lists; by rewrite Ec0).
    rewrite init_blockmap_recovery by apply Hg. rewrite <- Es. rewrite <- (app_nil_r (special_acts sbi ++ [Fence])).
    eapply bind_run; [exact Hrun|]. cbn [negb Z.eqb]. rewrite Eb. done.
  - intros meta x. rewrite Hf. apply and_iff_compat_l, not_iff_compat. split.
    + intros (bm & (c & Hb)%list_elem_of_lookup & Hx). destruct (Hat c bm Hb) as [Hl Hm].
      exists c. split; [done|]. by apply (new_bitmap_marked _ _ _ _ Hm).
    + intros (c & Hl & Hx). destruct (lookup_lt_is_Some_2 (g_bms g') c) as [bm Hb].
      { rewrite Hlen. unfold alloc_bm. rewrite length_replicate. pose proof (io_cpus _ _ _ _ _ _ _ _ HI). lia. }
      destruct (Hat c bm Hb) as [_ Hm]. exists bm. split; [by eapply list_elem_of_lookup_2|].
      by apply (new_bitmap_marked _ _ _ _ Hm).
Qed.
End theorems.

(** ** Tables with unused slots *)

Section unused.
Context {RB : RbOps} {KM : KmemOps} {CR : CrcOps} {MP : ModParams}.
Context (sbi : nova_sb_info) (m : mem) (n : Z) (ls : list free_list) (kmalloc : Z -> bool)
  (snapshots : list Z) (fuel : nat).

Lemma slots_app addr tid i_size us vs :
  slots_ok sbi m n ls kmalloc snapshots fuel addr tid i_size us ->
  slots_ok sbi m n ls kmalloc snapshots fuel (addr + 128 * Z.of_nat (length us))
    (foldl (tid_after sbi m) tid us) (foldl (size_after sbi m) i_size us) vs ->
  slots_ok sbi m n ls kmalloc snapshots fuel addr tid i_size (us ++ vs).
Proof.
  revert addr tid i_size. induction us as [|u us IH]; intros addr tid i_size Hu Hv.
  - simpl in Hv. by rewrite Z.add_0_r in Hv.
  - destruct Hu as [Hu Hus]. split; [done|]. apply IH; [done|]. cbn [length] in Hv.
    replace (addr + NOVA_INODE_SIZE + 128 * Z.of_nat (length us)) with (addr + 128 * Z.of_nat (S (length us)));
      [done|unfold NOVA_INODE_SIZE; lia].
Qed.

Lemma numbers_app addr us vs :
  numbers sbi m addr (us ++ vs) = numbers sbi m addr us ++ numbers sbi m (addr + 128 * Z.of_nat (length us)) vs.
Proof.
  revert addr. induction us as [|u us IH]; intros addr; [simpl; by rewrite Z.add_0_r|].
  cbn [numbers app length]. rewrite IH, <- app_assoc. do 3 f_equal. unfold NOVA_INODE_SIZE. lia.
Qed.

Lemma unused_slots addr tid i_size k :
  (forall i, 0 <= i < Z.of_nat k -> cur m (meta_addr sbi (addr + 128 * i) + 24) = 0) ->
  slots_ok sbi m n ls kmalloc snapshots fuel addr tid i_size (replicate k Unused)
  /\ numbers sbi m addr (replicate k Unused) = [].
Proof.
  revert addr. induction k as [|k IH]; intros addr Hz; [done|]. cbn [replicate slots_ok numbers live app].
  destruct (IH (addr + NOVA_INODE_SIZE)) as [Hs Hn].
  { intros i Hi. unfold NOVA_INODE_SIZE. rewrite <- (Hz (i + 1)) by lia. do 2 f_equal. f_equal. lia. }
  split; [|done]. split; [|exact Hs]. left. unfold inode_at, decode_inode. cbn [pi_i_mode].
  rewrite words_nth by (unfold NOVA_INODE_WORDS; lia). specialize (Hz 0).
  rewrite Z.mul_0_r, Z.add_0_r in Hz. change (8 * Z.of_nat 3) with 24. by rewrite Hz by lia.
Qed.

Lemma unused_after tid i_size k :
  foldl (tid_after sbi m) tid (replicate k Unused) = tid
  /\ foldl (size_after sbi m) i_size (replicate k Unused) = i_size.
Proof. by induction k. Qed.
End unused.

(** ** A small device

    Two CPUs with one superpage of inodes each (blocks 64 and 576); a root
    directory with the log page 2500, and one file, number 34, with the log page
    2501, which wrote the data block 3000. *)
Module RecoveryDemo.
#[export] Existing Instances Concrete.rb_ops Concrete.rb_laws Concrete.kmem_ops
  Concrete.kmem_laws Concrete.crc_ops Concrete.crc_laws Concrete.bit_ops Concrete.bit_laws.
#[export] Instance params : ModParams := {|
  metadata_csum := false; data_csum := true; data_parity := false;
  dram_struct_csum := false; support_clwb := true
|}.

Definition sbi0 : nova_sb_info :=
  set_meta_start_virt 0x100000000 (set_data_start_virt 0x200000000
    (set_initsize (12288 * 4096) (set_blocksize_bits 12
      (set_head_reserved_blocks 2112 (set_tail_reserved_blocks 2
        (set_cpus 2 (set_meta_nvm_num 1 (set_data_nvm_num 1
          (set_data_head_nvm_idx 1 zero_sb_info))))))))).
Definition size : Z := 12288 * 4096.
Definition meta_size : Z := 8192 * 4096.
Definition data_size : Z := 4096 * 4096.
Definition sbi1 : nova_sb_info :=
  set_data_num_blocks (Z.shiftr data_size PAGE_SHIFT)
    (set_meta_num_blocks (Z.shiftr meta_size PAGE_SHIFT) sbi0).
Definition sbi : nova_sb_info := with_shares sbi1.
Definition lists : list free_list := fresh_lists sbi.
Definition kmalloc (_ : Z) : bool := true.
Definition blank : ino_state := InoState 0 0 (init_inode_maps sbi).

Definition inode_words (a mode ino head tail : Z) : list (Z * Z) :=
  [(a, 0x100); (a + 24, Z.shiftl mode 32); (a + 56, ino); (a + 64, head); (a + 72, tail)].
Definition ms : Z := 0x100000000.
Definition csum2 : Z := 3178201592 + Z.shiftl 3178201592 32.
Definition device : list (Z * Z) :=
  [(ms + 16 * 4096, 64 * 4096); (ms + 16 * 4096 + 64, 576 * 4096);
   (ms + 4096 + 2 * 128, 0x02000100);
   (ms + 48 * 4096, 49 * 4096); (ms + 48 * 4096 + 64, 50 * 4096)]
  ++ inode_words (ms + 4096 + 128) 0x41ED 1 (2500 * 4096) (2500 * 4096)
  ++ inode_words (ms + 64 * 4096 + 17 * 128) 0x81A4 34 (2501 * 4096) (2501 * 4096 + 64)
  ++ [(ms + 2501 * 4096, 1 + Z.shiftl 1 32); (ms + 2501 * 4096 + 8, 3000);
      (ms + 2501 * 4096 + 32, 4096); (ms + 2501 * 4096 + 48, 7)]
  ++ [(4311774976, csum2); (4311774984, csum2); (4311774992, csum2); (4311775000, csum2)].
Definition m0 : mem := list_to_map ((fun '(a, x) => (a, Cell [x] None)) <$> device).
Definition m : mem := exec (special_acts sbi ++ [Fence]) m0.

Lemma demo_sbi1 : sbi1 = set_data_num_blocks (Z.shiftr data_size PAGE_SHIFT)
  (set_meta_num_blocks (Z.shiftr meta_size PAGE_SHIFT) sbi0).
Proof. unfold sbi1. reflexivity. Qed.
Lemma demo_sbi : sbi = with_shares sbi1.
Proof. unfold sbi. reflexivity. Qed.
Lemma demo_m : m = exec (special_acts sbi ++ [Fence]) m0.
Proof. unfold m. reflexivity. Qed.

Lemma demo_slab : slab_available.
Proof. intros T. by eexists. Qed.
Lemma demo_geometry : geometry sbi1.
Proof. split; vm_compute; split_and?; done. Qed.
Lemma demo_log_geometry : log_geometry sbi.
Proof. split; vm_compute; repeat split; discriminate. Qed.
Lemma demo_plain : metadata_csum = false.
Proof. reflexivity. Qed.
Lemma demo_cover : bits_cover sbi1 size.
Proof. split; vm_compute; done. Qed.

(** A word that is not of the device is zero. *)
Lemma elsewhere a : a ∉ device.*1 ->
  Forall (fun b => a <> b) [ms + 4096 + 3 * 128 + 72; ms + 4096 + 3 * 128 + 64;
                            ms + 4096 + 4 * 128 + 72; ms + 4096 + 4 * 128 + 64] -> cur m a = 0.
Proof.
  intros Ha Hs. rewrite !Forall_cons in Hs. destruct Hs as (H1 & H2 & H3 & H4 & _).
  transitivity (cur m0 a).
  - apply cur_untouched. unfold special_acts, clear_acts.
    rewrite !untouched_app. split_and!; [| |by repeat constructor];
      (apply Forall_cons; split; [|apply Forall_cons; split; [|apply flush_acts_untouched]]);
      cbn [stores_to]; intros [= E]; [apply H1|apply H2|apply H3|apply H4]; rewrite <- E; reflexivity.
  - unfold cur, cell_at, m0. rewrite not_elem_of_list_to_map_1; [done|].
    rewrite <- list_fmap_compose. intros ([b v] & E & Hin)%list_elem_of_fmap. apply Ha.
    apply list_elem_of_fmap. exists (b, v). split; [exact E|done].
Qed.

(** The slots before, behind and without the file. *)
Definition BEFORE : nat := 17.
Definition BEHIND : nat := proj1_sig (nat_of 16366 ltac:(lia)).
Definition WHOLE : nat := proj1_sig (nat_of 16384 ltac:(lia)).
Lemma behind_length : Z.of_nat BEHIND = 16366.
Proof. exact (proj2_sig (nat_of 16366 _)). Qed.
Lemma whole_length : Z.of_nat WHOLE = 16384.
Proof. exact (proj2_sig (nat_of 16384 _)). Qed.
#[global] Opaque BEHIND WHOLE.

Definition entries : list (Z * Z * nova_entry_type) := [(2501, 0, FILE_WRITE)].
Definition slots0 : list inode_use :=
  replicate BEFORE Unused ++ Regular [2501] entries :: replicate BEHIND Unused.
Definition tables : list (list (Z * list inode_use)) :=
  [[(64, slots0)]; [(576, replicate WHOLE Unused)]].
Definition demo_image : image := Image tables (Directory [2500]) (fun c => 49 + Z.of_nat c) [].
Definition fuel : nat := 8.
Definition bits : Z := map_bits size.

Ltac not_in_device :=
  unfold device, inode_words, ms; cbn [app fmap list_fmap fst];
  rewrite ?not_elem_of_cons; split_and?; try lia; apply not_elem_of_nil.
Ltac zero_word :=
  unfold meta_addr, nova_get_virt_addr_from_offset;
  change (meta_start_virt sbi) with 0x100000000; rewrite u64_small by lia;
  apply elsewhere; [not_in_device|unfold ms; repeat constructor; lia].

Lemma before_zero i : 0 <= i < 17 -> cur m (meta_addr sbi (64 * 4096 + 128 * i) + 24) = 0.
Proof. intros Hi. zero_word. Qed.
Lemma behind_zero i : 0 <= i < 16366 -> cur m (meta_addr sbi (64 * 4096 + 128 * 18 + 128 * i) + 24) = 0.
Proof. intros Hi. zero_word. Qed.
Lemma whole_zero i : 0 <= i < 16384 -> cur m (meta_addr sbi (576 * 4096 + 128 * i) + 24) = 0.
Proof. intros Hi. zero_word. Qed.

Lemma entry_only a : write_at sbi entries a -> a = addr_of sbi 2501 0.
Proof. intros (b & x & [= -> ->]%list_elem_of_singleton & ->). done. Qed.

Definition file_inode : fake_pi := inode_at sbi m (64 * 4096 + 128 * 17).

Lemma file_readable i_size : readable sbi m bits fuel i_size file_inode [2501] entries.
Proof.
  split.
  - split; [split; vm_compute; reflexivity|]. split; [done|]. split; [|vm_compute; lia].
    repeat constructor; vm_compute; done.
  - exists 2%nat, (2501, 64, []). split; [unfold fuel; lia|vm_compute; reflexivity].
  - vm_compute. discriminate.
  - intros a ->%entry_only. split; [|vm_compute; discriminate]. split; vm_compute; split_and?; done.
  - exact I.
Qed.

Lemma file_intact tid : tid <> 7 -> intact sbi m lists kmalloc tid entries.
Proof.
  intros Htid. exists entries. split.
  - unfold entries. cbn [latest].
    assert (we_trans_id (went m (addr_of sbi 2501 0)) = 7) as -> by (vm_compute; reflexivity).
    by rewrite (proj2 (Z.eqb_neq _ _)) by done.
  - intros a ->%entry_only i Hi. assert (E : we_num_pages (went m (addr_of sbi 2501 0)) = 1) by (vm_compute; reflexivity).
    rewrite E in Hi. assert (i = 0) as -> by lia. vm_compute. reflexivity.
Qed.

Lemma file_scannable tid i_size :
  tid <> 7 -> scannable sbi m bits lists kmalloc fuel tid i_size file_inode [2501] entries.
Proof. split; [apply file_readable|by apply file_intact]. Qed.

Lemma file_slot : slot_ok sbi m bits lists kmalloc [] fuel (64 * 4096 + 128 * 17) 0 0 (Regular [2501] entries).
Proof.
  split; [split_and!; [vm_compute; discriminate|vm_compute; reflexivity|vm_compute; discriminate]|].
  split; [vm_compute; discriminate|]. by apply file_scannable.
Qed.

Lemma root_slot : slot_ok sbi m bits lists kmalloc [] fuel root_addr 0 0 (Directory [2500]).
Proof.
  split; [split_and!; [vm_compute; discriminate|vm_compute; reflexivity|vm_compute; discriminate]|].
  split; [vm_compute; reflexivity|]. split; [split; vm_compute; reflexivity|]. split; [|vm_compute; lia].
  repeat constructor; vm_compute; done.
Qed.

Lemma slots0_ok :
  slots_ok sbi m bits lists kmalloc [] fuel (64 * 4096) 0 0 slots0
  /\ numbers sbi m (64 * 4096) slots0 = [34].
Proof.
  destruct (unused_slots sbi m bits lists kmalloc [] fuel (64 * 4096) 0 0 BEFORE) as [H1 N1].
  { intros i Hi. apply before_zero. exact Hi. }
  destruct (unused_slots sbi m bits lists kmalloc [] fuel (64 * 4096 + 128 * 18)
              (tid_after sbi m 0 (Regular [2501] entries)) (size_after sbi m 0 (Regular [2501] entries)) BEHIND) as [H2 N2].
  { intros i Hi. apply behind_zero. by rewrite behind_length in Hi. }
  unfold slots0. split.
  - apply slots_app; [exact H1|]. destruct (unused_after sbi m 0 0 BEFORE) as [-> ->].
    rewrite length_replicate. split; [exact file_slot|exact H2].
  - rewrite numbers_app, N1, length_replicate. cbn [numbers live app].
    change (number_at sbi m (64 * 4096 + 128 * Z.of_nat BEFORE) :: numbers sbi m (64 * 4096 + 128 * 18) (replicate BEHIND Unused) = [34]).
    rewrite N2. vm_compute. reflexivity.
Qed.

Lemma slots1_ok :
  slots_ok sbi m bits lists kmalloc [] fuel (576 * 4096) 0 0 (replicate WHOLE Unused)
  /\ numbers sbi m (576 * 4096) (replicate WHOLE Unused) = [].
Proof. apply unused_slots. intros i Hi. apply whole_zero. by rewrite whole_length in Hi. Qed.

Lemma slots_length : Z.of_nat (length slots0) = 16384 /\ Z.of_nat (length (replicate WHOLE Unused)) = 16384.
Proof.
  unfold slots0. rewrite length_app, !length_replicate. cbn [length]. rewrite length_replicate.
  pose proof behind_length. pose proof whole_length. unfold BEFORE. lia.
Qed.

Lemma table_bits : 0 <= 64 /\ 576 + 512 <= bits.
Proof. vm_compute. split; discriminate. Qed.

Lemma tables_image c tbl : tables !! c = Some tbl -> table_image sbi m bits lists kmalloc [] fuel c tbl.
Proof.
  destruct slots_length as [L0 L1]. pose proof table_bits as [_ Hb].
  destruct c as [|[|c]]; intros [= <-].
  - destruct slots0_ok as [Hs Hn]. split; cbn [fmap list_fmap fst].
    + split; vm_compute; reflexivity.
    + repeat constructor; lia.
    + unfold fuel, RING_SIZE. simpl. lia.
    + split; [|done]. split; [lia|unfold NOVA_INODE_SIZE; lia|exact Hs].
    + by repeat constructor.
    + unfold table_numbers. cbn [mbind list_bind fst snd]. rewrite Hn. apply NoDup_singleton.
    + intros y Hy. unfold table_numbers in Hy. cbn [mbind list_bind fst snd] in Hy. rewrite Hn in Hy.
      apply list_elem_of_singleton in Hy as ->. vm_compute. done.
  - destruct slots1_ok as [Hs Hn]. split; cbn [fmap list_fmap fst].
    + split; vm_compute; reflexivity.
    + repeat constructor; lia.
    + unfold fuel, RING_SIZE. simpl. lia.
    + split; [|done]. split; [lia|unfold NOVA_INODE_SIZE; lia|exact Hs].
    + by repeat constructor.
    + unfold table_numbers. cbn [mbind list_bind fst snd]. rewrite Hn. apply NoDup_nil_2.
    + intros y Hy. unfold table_numbers in Hy. cbn [mbind list_bind fst snd] in Hy. rewrite Hn in Hy.
      by apply not_elem_of_nil in Hy.
Qed.

Lemma demo_2M : tables_2M sbi m.
Proof. vm_compute. reflexivity. Qed.

Lemma demo_image_ok : image_ok sbi m bits lists kmalloc [] fuel demo_image.
Proof.
  split.
  - done.
  - exact tables_image.
  - exact demo_2M.
  - exact (conj root_slot eq_refl).
  - intros [|[|c]] Hc; [| |simpl in Hc; lia]; (split; [vm_compute; split; [discriminate|reflexivity]|];
      eexists; split; vm_compute; reflexivity).
  - split; [vm_compute; reflexivity|]. split; [constructor|vm_compute; lia].
Qed.

(** A thread before its start. *)
Definition demo_ring : task_ring := TaskRing {[0 := 64 * 4096]} ∅ 1 0 ∅ ∅.
Definition numbered : ino_state :=
  match nova_init_inode_inuse_list sbi blank with Some (_, st) => st | None => blank end.
Definition start : rstate := RState (new_scan_bitmap size) demo_ring (nova_init_header 0) numbered.

Lemma numbered_ok : maps_wf sbi numbered
  /\ forall y, in_use sbi numbered y <-> 0 <= y < (init_range_high sbi + 1) * cpus sbi.
Proof.
  destruct (init_op sbi blank demo_slab) as (st' & E & Hw & _ & Hu & _); [done|done|].
  unfold numbered. rewrite E. by split.
Qed.

Lemma demo_table : table_of sbi m bits lists kmalloc [] fuel 0 start [(64, slots0)].
Proof.
  destruct (tables_image 0 [(64, slots0)] eq_refl) as [_ _ _ Hok Hfull Hfresh _].
  split; [exact Hok| |exact Hfull|split; [exact Hfresh|]].
  - split; [done|]. intros [|i] b us Hi; [|done]. by injection Hi as <- _.
  - unfold table_numbers. cbn [mbind list_bind fst snd]. rewrite (proj2 slots0_ok).
    apply Forall_singleton. split_and!; [|tauto|exists 17; vm_compute; split; [reflexivity|split; reflexivity]].
    intros Hu%(proj2 numbered_ok). vm_compute in Hu. destruct Hu as [_ [=]].
Qed.
End RecoveryDemo.

Section witnesses.
Import RecoveryDemo.

Lemma recovered_free_blocks_witness :
  exists ls1 bms' ls, nova_init_blockmap sbi1 (nova_alloc_block_free_lists sbi1) true = Some (sbi, ls1)
    /\ nova_build_blocknode_map sbi (alloc_bm sbi size) ls1 size = Some (0, bms', ls)
    /\ lists_wf sbi ls.
Proof.
  destruct (recovered_free_blocks sbi1 size (alloc_bm sbi size) demo_slab demo_geometry demo_cover)
    as (ls0 & ls1 & bms' & ls & _ & E1 & Eb & Hw & _).
  { apply Forall_replicate, new_bitmap_ok; vm_compute; congruence. }
  exists ls1, bms', ls. exact (conj E1 (conj Eb Hw)).
Defined.

Lemma file_scan_marks_witness :
  exists st', nova_recover_inode_pages sbi lists kmalloc 1 fuel file_inode start m = (Some ((), st'), [])
    /\ marks (rs_bm start) (fun x => x ∈ [2501] \/ file_block sbi m entries x) (rs_bm st').
Proof.
  destruct (file_scan_marks sbi m lists kmalloc fuel 0 file_inode [2501] entries start demo_log_geometry demo_plain)
    as (H & _).
  - vm_compute. split; reflexivity.
  - vm_compute. discriminate.
  - vm_compute. discriminate.
  - apply file_readable.
  - intros i. reflexivity.
  - reflexivity.
  - destruct H as (st' & E & Hm & _); [apply file_intact; discriminate|]. exists st'. exact (conj E Hm).
Defined.

Lemma thread_marks_table_witness :
  exists st', failure_thread_func sbi lists kmalloc [] 1 fuel start m = (Some ((), st'), [])
    /\ in_use sbi (rs_maps st') 34.
Proof.
  destruct (thread_marks_table sbi m lists kmalloc [] fuel 0 [(64, slots0)] start 0 demo_log_geometry demo_plain
    demo_slab) as (st' & E & _ & _ & _ & _ & Hu).
  - vm_compute. split; reflexivity.
  - exact demo_2M.
  - exact demo_table.
  - intros i. reflexivity.
  - reflexivity.
  - split; [lia|reflexivity].
  - exact (proj1 numbered_ok).
  - exists st'. split; [exact E|]. apply Hu. right. unfold table_numbers. cbn [mbind list_bind fst snd].
    rewrite (proj2 slots0_ok). by left.
Defined.

Lemma recovery_frees_the_unused_witness :
  exists ls mp', nova_recovery kmalloc [] 1 fuel size meta_size data_size sbi0
       (nova_alloc_block_free_lists sbi0) blank m0
       = (Some (Mounted 0 sbi ls mp'), special_acts sbi ++ [Fence])
    /\ ~ free_block ls false 3000 /\ ~ free_block ls true 2501
    /\ s_inodes_used_count mp' = 34.
Proof.
  destruct (recovery_frees_the_unused kmalloc [] 0 fuel size meta_size data_size sbi0 sbi1 sbi blank m0 m demo_image
    demo_sbi1 demo_sbi demo_m demo_slab demo_geometry demo_log_geometry)
    as (ls0 & ls & mp' & _ & E & _ & Hf & _ & _ & Hc).
  - vm_compute. discriminate.
  - reflexivity.
  - vm_compute. split; congruence.
  - exact demo_cover.
  - vm_compute. reflexivity.
  - reflexivity.
  - exact demo_image_ok.
  - exists ls, mp'. split; [exact E|].
    assert (Hfile : forall x, file_marks sbi m [2501] entries x -> in_service sbi m demo_image x).
    { intros x Hx. exists 0%nat. split; [simpl; lia|]. right. right. left. exists [(64, slots0)].
      split; [done|]. exists 64, slots0. split; [left|]. right. exists (Regular [2501] entries).
      split; [|exact Hx]. unfold slots0. apply elem_of_app. right. left. }
    split_and!.
    + intros [_ Hn]%Hf. apply Hn, Hfile. right. exists (addr_of sbi 2501 0).
      split_and!; [by exists 2501, 0; split; [left|]|vm_compute; discriminate|].
      split; [vm_compute; discriminate|vm_compute; reflexivity].
    + intros [_ Hn]%Hf. apply Hn, Hfile. left. by left.
    + rewrite Hc. unfold live_numbers. cbn [im_tables demo_image tables mbind list_bind].
      unfold table_numbers. cbn [mbind list_bind fst snd]. rewrite (proj2 slots0_ok), (proj2 slots1_ok). reflexivity.
Defined.
End witnesses.

(** ** What the scan misses *)

Module LossDemo.
Import RecoveryDemo.
(** The file wrote data block 0. *)
Definition device0 : list (Z * Z) :=
  (ms + 2501 * 4096 + 8, 0) ::
  ((fun i : nat => (ms + 2112 * 4096 + 8 * Z.of_nat i, csum2)) <$> seq 0 4) ++ device.
Definition lost : mem := list_to_map ((fun '(a, x) => (a, Cell [x] None)) <$> device0).
(** The file has only an attribute entry. *)
Definition device1 : list (Z * Z) := (ms + 2501 * 4096, 3) :: device.
Definition attr_only : mem := list_to_map ((fun '(a, x) => (a, Cell [x] None)) <$> device1).
(** The file was written once, in transaction 0. *)
Definition device2 : list (Z * Z) := (ms + 2501 * 4096 + 48, 0) :: device.
Definition written_once : mem := list_to_map ((fun '(a, x) => (a, Cell [x] None)) <$> device2).
End LossDemo.

Section misses.
Import RecoveryDemo LossDemo.

(** The file holds data block 0, the scan succeeds, and the block is not
    marked. *)
Lemma data_block_0_not_marked :
  has_block (went lost (addr_of sbi 2501 0)) 0 /\ live_entry lost (addr_of sbi 2501 0)
  /\ exists st', nova_recover_inode_pages sbi lists kmalloc 1 fuel (inode_at sbi lost (64 * 4096 + 128 * 17)) start lost
       = (Some ((), st'), [])
     /\ bool_decide (0 ∈ bitmap (scan_bm_4K (rs_bm st'))) = false
     /\ bool_decide (2501 ∈ bitmap (scan_bm_4K (rs_bm st'))) = true.
Proof.
  split; [split; vm_compute; congruence|]. split; [vm_compute; discriminate|].
  eexists. split; [vm_compute; reflexivity|]. split; vm_compute; reflexivity.
Qed.

(** The walk reads the unset [trans_curr]. *)
Lemma no_write_entry_stuck :
  nova_recover_inode_pages sbi lists kmalloc 1 fuel (inode_at sbi attr_only (64 * 4096 + 128 * 17)) start attr_only
  = (None, []).
Proof. vm_compute. reflexivity. Qed.

(** So does the walk over the first transaction of a file: the numbers start
    at 0 in every inode, as in the header of the scan. *)
Lemma first_transaction_stuck :
  nova_recover_inode_pages sbi lists kmalloc 1 fuel (inode_at sbi written_once (64 * 4096 + 128 * 17)) start written_once
  = (None, []).
Proof. vm_compute. reflexivity. Qed.
End misses.
