(* ===== verification/Delegation.v ===== *)
(** Delegation of copies (delegation.c, agent.c, ring.c, the two entry points
    of nova.h): application threads hand requests to the agents of a socket
    through ring buffers and wait until as many were completed as they issued.

    Memory is bytes, read and written by elementary copies ([copy]); what a
    function does to it is the list of its copies in order.  Every copy, every
    ring operation and every update of a counter is one step ([step]), so the
    threads interleave freely.  Each ring belongs to one agent: ring and agent
    [thread] of [socket] are node [socket * nova_dele_thrds + thread].  An
    agent runs until the file system is unmounted. *)

From S2P Require Import Prelude.
From S2P Require Import Kernel.

Definition NOVA_AGENT_FRAG_SIZE : Z := 1024.
Definition NOVA_AGENT_TASK_MAX_SIZE : Z := 12.
Definition NOVA_MAX_SOCKET : Z := 8.
Definition NOVA_READ_DELEGATION_LIMIT : Z := 4096.
Definition NOVA_RING_SIZE : Z := 2097152.

(** ** Copies *)

(** Where the bytes of a copy come from: memory, one byte repeated, or the
    bytes of a register. *)
Inductive source := From (a : Z) | Fill (b : Z) | Bytes (l : list Z).
Record copy := Copy { cp_dst : Z; cp_src : source; cp_len : Z }.

Definition source_byte (m : Z -> Z) (s : source) (k : Z) : Z :=
  match s with
  | From a => m (a + k)
  | Fill b => b
  | Bytes l => nth (Z.to_nat k) l 0
  end.

Definition run_copy (c : copy) (m : Z -> Z) : Z -> Z := fun a =>
  if (cp_dst c <=? a) && (a <? cp_dst c + cp_len c)
  then source_byte m (cp_src c) (a - cp_dst c) else m a.

(** Stores of a register, one behind the other. *)
Definition store_run (dest width value : Z) (n : nat) : list copy :=
  (fun k => Copy (dest + width * Z.of_nat k) (Bytes (le_bytes (Z.to_nat width) value)) width)
    <$> seq 0 n.

(** [memset_nt]: 64 bytes at a time, then 8, then 4. *)
Definition memset_nt (dest dword length : Z) : list copy :=
  let edx := u32 length in
  let qword := Z.lor (Z.shiftl (u32 dword) 32) (u32 dword) in
  let n64 := Z.shiftr edx 6 in
  let edx := Z.land edx 63 in
  let n8 := Z.shiftr edx 3 in
  let edx := Z.land edx 7 in
  store_run dest 8 qword (8 * Z.to_nat n64)
  ++ store_run (dest + 64 * n64) 8 qword (Z.to_nat n8)
  ++ store_run (dest + 64 * n64 + 8 * n8) 4 (u32 dword) (Z.to_nat (Z.shiftr edx 2)).

Definition ROUNDUP_PAGE (p : Z) : Z := u64 (Z.land p (Z.lnot 4095) + PAGE_SIZE).

(** ** Services of the kernel

    The entries of the page tables that map an address of a process, the map of
    physical memory, and how many bytes the copies between kernel and user
    memory leave uncopied. *)
Class CopyOps := {
  pgd_present : Z -> Z -> bool;
  p4d_present : Z -> Z -> bool;
  pud_present : Z -> Z -> bool;
  pud_large : Z -> Z -> bool;
  pud_pfn : Z -> Z -> Z;
  pmd_present : Z -> Z -> bool;
  pmd_large : Z -> Z -> bool;
  pmd_pfn : Z -> Z -> Z;
  pte_present : Z -> Z -> bool;
  pte_pfn : Z -> Z -> Z;
  phys_to_virt : Z -> Z;
  copy_nocache_left : Z -> Z -> Z -> Z;
  clear_user_left : Z -> Z -> Z -> Z;
  copy_to_user_left : Z -> Z -> Z -> Z -> Z;
  write_dele_size : Z
}.

(** ** Requests and rings *)

Inductive request_type := NOVA_REQUEST_READ | NOVA_REQUEST_WRITE.

(** [notify_cnt] is [&completed_cnt[socket].cnt] of an application thread. *)
Record nova_delegation_request := Request {
  rq_type : request_type;
  rq_mm : Z;
  rq_uaddr : Z;
  rq_kaddr : Z;
  rq_bytes : Z;
  rq_zero : bool;
  rq_flush_cache : bool;
  notify_cnt : nat * Z;
  rq_wait_hint : bool
}.

(** The ring buffer library.  [solros_ring_dequeue] answers an error or an
    element. *)
Class RingOps := {
  ring : Type;
  solros_ring_create : Z -> Z -> Z -> option ring;
  solros_ring_enqueue : ring -> nova_delegation_request -> Z * ring;
  solros_ring_dequeue : ring -> (Z + nova_delegation_request) * ring
}.

(** A ring is a queue: it may refuse an element unless it is empty, and it
    hands its elements out in order. *)
Class RingLaws `{RingOps} := {
  queued : ring -> list nova_delegation_request;
  create_queued size align socket r :
    solros_ring_create size align socket = Some r -> queued r = [];
  enqueue_queued r q :
    (exists r', solros_ring_enqueue r q = (0, r') /\ queued r' = queued r ++ [q]) \/
    (solros_ring_enqueue r q = (- EAGAIN, r) /\ queued r <> []);
  dequeue_queued r :
    match queued r with
    | [] => solros_ring_dequeue r = (inl (- EAGAIN), r)
    | q :: qs => exists r', solros_ring_dequeue r = (inr q, r') /\ queued r' = qs
    end
}.

(** ring.c: the two operations on a ring. *)
Definition nova_send_request `{RingOps} (r : ring) (request : nova_delegation_request)
    : Z * ring := solros_ring_enqueue r request.
Definition nova_recv_request `{RingOps} (r : ring) : (Z + nova_delegation_request) * ring :=
  solros_ring_dequeue r.

Section agents.
Context {CO : CopyOps}.

(** ** Copies of the kernel *)

(** [memcpy_to_pmem_nocache]: the copies, and the bytes left uncopied. *)
Definition memcpy_to_pmem_nocache (dst src size : Z) : list copy * Z :=
  let size := u32 size in
  let uncopied := copy_nocache_left dst src size in
  ([Copy dst (From src) (size - uncopied)], uncopied).

(** The loop over 256 bytes, then the loop over the bytes that are left. *)
Fixpoint avx_loop (fuel : nat) (dst src size i : Z) : list copy :=
  match fuel with
  | O => []
  | S fuel' =>
      if i + 256 <=? size
      then Copy (dst + i) (From (src + i)) 256 :: avx_loop fuel' dst src size (i + 256)
      else (fun k => Copy (dst + i + Z.of_nat k) (From (src + i + Z.of_nat k)) 1)
             <$> seq 0 (Z.to_nat (size - i))
  end.

Definition memcpy_to_pmem_avx_nocache (dst src size : Z) : list copy * Z :=
  let size := u32 size in
  if (Z.land dst 63 =? 0) && (Z.land src 63 =? 0)
  then (avx_loop (S (Z.to_nat (size / 256))) dst src size 0, 0)
  else memcpy_to_pmem_nocache dst src size.

(** ** Translation of user addresses (agent.c) *)

Definition user_virt_addr_to_phy_addr (mm uaddr : Z) : Z :=
  if negb (pgd_present mm uaddr) then 0
  else if negb (p4d_present mm uaddr) then 0
  else if negb (pud_present mm uaddr) then 0
  else if pud_large mm uaddr
  then Z.lor (Z.shiftl (pud_pfn mm uaddr) PAGE_SHIFT) (Z.land uaddr (Z.ones 30))
  else if negb (pmd_present mm uaddr) then 0
  else if pmd_large mm uaddr
  then Z.lor (Z.shiftl (pmd_pfn mm uaddr) PAGE_SHIFT) (Z.land uaddr (Z.ones 21))
  else if negb (pte_present mm uaddr) then 0
  else Z.lor (Z.shiftl (pte_pfn mm uaddr) PAGE_SHIFT) (Z.land uaddr (Z.ones 12)).

(** Where the kernel sees a byte of a process. *)
Definition user_byte (mm uaddr : Z) : Z := phys_to_virt (user_virt_addr_to_phy_addr mm uaddr).

(** [__copy_to_user] and [__clear_user] as byte copies, and what they leave. *)
Definition copy_to_user (mm to from n : Z) : list copy * Z :=
  let uncopied := copy_to_user_left mm to from n in
  ((fun k => Copy (user_byte mm (to + Z.of_nat k)) (From (from + Z.of_nat k)) 1)
     <$> seq 0 (Z.to_nat (n - uncopied)), uncopied).
Definition clear_user (mm to n : Z) : list copy * Z :=
  let uncopied := clear_user_left mm to n in
  ((fun k => Copy (user_byte mm (to + Z.of_nat k)) (Fill 0) 1)
     <$> seq 0 (Z.to_nat (n - uncopied)), uncopied).

Record nova_agent_task := Task { kuaddr : Z; task_size : Z }.

(** The loop of [create_agent_tasks]: [None] is the store past the end of the
    array of tasks, a first component -1 the failure exit. *)
Fixpoint create_agent_tasks_loop (fuel : nat) (mm uaddr bytes i left_bytes : Z)
    (tasks : list nova_agent_task) : option (Z * list nova_agent_task) :=
  if i <? u64 (uaddr + bytes) then
    match fuel with
    | O => None
    | S fuel' =>
        let phy_addr := user_virt_addr_to_phy_addr mm i in
        if phy_addr =? 0 then Some (-1, tasks)
        else
          let size := u64 (ROUNDUP_PAGE i - i) in
          let size := if u64 left_bytes <? size then u64 left_bytes else size in
          let left_bytes := s64 (left_bytes - size) in
          if left_bytes <? 0 then Some (-1, tasks)
          else
            let a := phys_to_virt phy_addr in
            match last tasks with
            | Some t =>
                if negb (a =? u64 (kuaddr t + task_size t))
                then
                  if NOVA_AGENT_TASK_MAX_SIZE <=? Z.of_nat (length tasks) then None
                  else create_agent_tasks_loop fuel' mm uaddr bytes (u64 (i + size)) left_bytes
                         (tasks ++ [Task a size])
                else create_agent_tasks_loop fuel' mm uaddr bytes (u64 (i + size)) left_bytes
                       (removelast tasks ++ [Task (kuaddr t) (u64 (task_size t + size))])
            | None =>
                create_agent_tasks_loop fuel' mm uaddr bytes (u64 (i + size)) left_bytes
                  [Task a size]
            end
    end
  else Some (Z.of_nat (length tasks), tasks).

Definition create_agent_tasks (mm uaddr bytes : Z) : option (Z * list nova_agent_task) :=
  create_agent_tasks_loop (Z.to_nat (bytes / PAGE_SIZE + 2)) mm uaddr bytes uaddr (s64 bytes) [].

(** ** The agent's work on a request *)

Fixpoint read_tasks (tasks : list nova_agent_task) (kaddr : Z) (zero : bool) : list copy :=
  match tasks with
  | [] => []
  | t :: ts =>
      if zero then Copy (kuaddr t) (Fill 0) (task_size t) :: read_tasks ts kaddr zero
      else Copy (kuaddr t) (From kaddr) (task_size t)
             :: read_tasks ts (u64 (kaddr + task_size t)) zero
  end.

Definition do_read_request (mm kaddr uaddr bytes : Z) (zero : bool) : option (list copy) :=
  '(tasks_index, tasks) ← create_agent_tasks mm uaddr bytes;
  if tasks_index <=? 0 then Some [] else Some (read_tasks tasks kaddr zero).

(** The loop over fragments; [false]: a copy failed. *)
Fixpoint frag_loop (n : nat) (kaddr uaddr i : Z) : list copy * bool :=
  match n with
  | O => ([], true)
  | S n' =>
      let '(cs, uncopied) :=
        memcpy_to_pmem_avx_nocache (kaddr + i) (uaddr + i) NOVA_AGENT_FRAG_SIZE in
      if negb (uncopied =? 0) then (cs, false)
      else
        let '(cs', ok) := frag_loop n' kaddr uaddr (i + NOVA_AGENT_FRAG_SIZE) in
        (cs ++ cs', ok)
  end.

Definition do_write_request (kaddr uaddr bytes : Z) (zero flush_cache : bool) : list copy :=
  let frag := bytes / NOVA_AGENT_FRAG_SIZE in
  if zero then
    if flush_cache then memset_nt kaddr 0 bytes else [Copy kaddr (Fill 0) bytes]
  else
    let '(cs, ok) := frag_loop (Z.to_nat frag) kaddr uaddr 0 in
    if negb ok then cs
    else
      let i := frag * NOVA_AGENT_FRAG_SIZE in
      if bytes - i =? 0 then cs
      else cs ++ (memcpy_to_pmem_avx_nocache (kaddr + i) (uaddr + i) (bytes - i)).1.

(** What [agent_func] does for a request before [atomic_inc(notify_cnt)]. *)
Definition request_copies (r : nova_delegation_request) : option (list copy) :=
  match rq_type r with
  | NOVA_REQUEST_READ =>
      do_read_request (rq_mm r) (rq_kaddr r) (rq_uaddr r) (rq_bytes r) (rq_zero r)
  | NOVA_REQUEST_WRITE =>
      Some (do_write_request (rq_kaddr r) (rq_uaddr r) (rq_bytes r) (rq_zero r)
              (rq_flush_cache r))
  end.

(** ** Application threads

    What a thread has left to do.  [AFault] touches a byte of the user's
    buffer, [AIssue] is [issued_cnt[socket]++], [ASend] the loop around
    [nova_send_request], [AWait] one iteration of [nova_complete_delegation],
    [ARet] what a call that delegates nothing returns. *)
Inductive action :=
  | ACopy (c : copy)
  | AFault (a : Z)
  | AIssue (socket : Z)
  | ASend (socket : Z) (r : nova_delegation_request)
  | ARet (uncopied : Z)
  | AWait (socket : Z).

(** The prefault loop, [n] iterations: its actions, and the value of the
    [__clear_user] that failed. *)
Fixpoint prefault_loop (n : nat) (mm uaddr bytes i : Z) : list action * Z :=
  match n with
  | O => ([], 0)
  | S n' =>
      let target_addr :=
        if u64 (uaddr + bytes - 1) <? i then u64 (uaddr + bytes - 1) else i in
      let ret := clear_user_left mm target_addr 1 in
      if negb (ret =? 0) then ([], ret)
      else
        let '(acts, ret) := prefault_loop n' mm uaddr bytes (u64 (i + PAGE_SIZE)) in
        (AFault (user_byte mm target_addr) :: acts, ret)
  end.

Definition nova_do_read_delegation (n : nat) (mm uaddr kaddr bytes socket : Z)
    (zero wait_hint : bool) : list action :=
  let uaddr_end := ROUNDUP_PAGE (u64 (uaddr + bytes - 1)) in
  let '(acts, ret) :=
    prefault_loop (Z.to_nat ((uaddr_end - uaddr + PAGE_SIZE - 1) / PAGE_SIZE)) mm uaddr bytes
      uaddr in
  if negb (ret =? 0) then acts ++ [ARet ret]
  else acts ++
    [AIssue socket;
     ASend socket (Request NOVA_REQUEST_READ mm uaddr kaddr bytes zero false (n, socket)
                     wait_hint)].

Definition nova_do_write_delegation (n : nat) (mm uaddr kaddr bytes socket : Z)
    (zero flush_cache wait_hint : bool) : list action :=
  [AIssue socket;
   ASend socket (Request NOVA_REQUEST_WRITE mm uaddr kaddr bytes zero flush_cache (n, socket)
                   wait_hint)].

Definition do_nova_nvmm_write (n : nat) (mm kmem_dest kubuf_src bytes socket : Z)
    (zero flush_cache wait_hint try_do_dele : bool) : list action :=
  if (bytes <? u64 write_dele_size) || negb try_do_dele then
    let '(cs, uncopied) :=
      if zero then (memset_nt kmem_dest 0 bytes, 0)
      else memcpy_to_pmem_nocache kmem_dest kubuf_src bytes in
    (ACopy <$> cs) ++ [ARet uncopied]
  else nova_do_write_delegation n mm kubuf_src kmem_dest bytes socket zero flush_cache wait_hint.

Definition do_nova_nvmm_read (n : nat) (mm ubuf_dest kmem_src bytes socket : Z)
    (zero wait_hint : bool) : list action :=
  if zero then
    let '(cs, uncopied) := clear_user mm ubuf_dest bytes in (ACopy <$> cs) ++ [ARet uncopied]
  else if bytes <? NOVA_READ_DELEGATION_LIMIT then
    let '(cs, uncopied) := copy_to_user mm ubuf_dest kmem_src bytes in
    (ACopy <$> cs) ++ [ARet uncopied]
  else nova_do_read_delegation n mm ubuf_dest kmem_src bytes socket zero wait_hint.

Definition nova_complete_delegation : list action :=
  AWait <$> seqZ 0 NOVA_MAX_SOCKET.

(** A call of one of the two entry points. *)
Record nvmm_call := Call {
  c_type : request_type;
  c_mm : Z;
  c_ubuf : Z;
  c_kmem : Z;
  c_bytes : Z;
  c_socket : Z;
  c_zero : bool;
  c_flush : bool;
  c_hint : bool;
  c_try : bool
}.

Definition call_actions (n : nat) (c : nvmm_call) : list action :=
  match c_type c with
  | NOVA_REQUEST_WRITE =>
      do_nova_nvmm_write n (c_mm c) (c_kmem c) (c_ubuf c) (c_bytes c) (c_socket c)
        (c_zero c) (c_flush c) (c_hint c) (c_try c)
  | NOVA_REQUEST_READ =>
      do_nova_nvmm_read n (c_mm c) (c_ubuf c) (c_kmem c) (c_bytes c) (c_socket c)
        (c_zero c) (c_hint c)
  end.

(** ** The system *)

Context {RG : RingOps} (nova_dele_thrds : Z).

(** [copied += ret] of the calls; [issued_cnt] and [completed_cnt] are arrays
    of the thread's stack, all zero at first. *)
Record client := Client {
  todo : list action;
  copied : Z;
  issued_cnt : list Z;
  completed_cnt : list Z
}.

Inductive agent := AgIdle | AgJob (cs : list copy) (notify : nat * Z) | AgStopped.
Record node := Node { nd_ring : ring; nd_agent : agent }.
Record dstate := DState { dmem : Z -> Z; nodes : list node; clients : list client }.

Definition set_client (n : nat) (c : client) (s : dstate) : dstate :=
  DState (dmem s) (nodes s) (<[n := c]> (clients s)).
Definition set_node (i : nat) (nd : node) (s : dstate) : dstate :=
  DState (dmem s) (<[i := nd]> (nodes s)) (clients s).
Definition set_dmem (m : Z -> Z) (s : dstate) : dstate := DState m (nodes s) (clients s).

Definition nova_choose_rings (rnd : Z) : Z := rnd mod nova_dele_thrds.

(** The next step of application thread [n]; [rnd] is [xor_random()].  A
    thread that finds the ring full, or a counter that has not arrived yet,
    goes round its loop. *)
Definition client_step (n : nat) (rnd : Z) (s : dstate) : option dstate :=
  c ← clients s !! n;
  match todo c with
  | [] => Some s
  | a :: p =>
      let next := Client p (copied c) (issued_cnt c) (completed_cnt c) in
      match a with
      | ACopy cp => Some (set_dmem (run_copy cp (dmem s)) (set_client n next s))
      | AFault x => Some (set_dmem (run_copy (Copy x (Fill 0) 1) (dmem s)) (set_client n next s))
      | ARet uncopied =>
          Some (set_client n (Client p (u64 (copied c + uncopied)) (issued_cnt c) (completed_cnt c)) s)
      | AIssue k =>
          v ← issued_cnt c !! Z.to_nat k;
          Some (set_client n (Client p (copied c) (<[Z.to_nat k := s64 (v + 1)]> (issued_cnt c))
                                (completed_cnt c)) s)
      | ASend k r =>
          let i := Z.to_nat (k * nova_dele_thrds + nova_choose_rings rnd) in
          nd ← nodes s !! i;
          let '(ret, rg) := nova_send_request (nd_ring nd) r in
          let s' := set_node i (Node rg (nd_agent nd)) s in
          if ret =? - EAGAIN then Some s'
          else Some (set_client n (Client p (u64 (copied c + u32 ret)) (issued_cnt c)
                                     (completed_cnt c)) s')
      | AWait k =>
          issued ← issued_cnt c !! Z.to_nat k;
          v ← completed_cnt c !! Z.to_nat k;
          Some (if issued =? v then set_client n next s else s)
      end
  end.

(** [atomic_inc(notify_cnt)]. *)
Definition atomic_inc (nf : nat * Z) (s : dstate) : option dstate :=
  c ← clients s !! nf.1;
  v ← completed_cnt c !! Z.to_nat nf.2;
  Some (set_client nf.1 (Client (todo c) (copied c) (issued_cnt c)
                           (<[Z.to_nat nf.2 := s32 (v + 1)]> (completed_cnt c))) s).

(** The next step of the agent of node [i] ([agent_func]). *)
Definition agent_step (i : nat) (s : dstate) : option dstate :=
  nd ← nodes s !! i;
  match nd_agent nd with
  | AgStopped => Some s
  | AgIdle =>
      match nova_recv_request (nd_ring nd) with
      | (inl err, rg) =>
          if err =? - EAGAIN then Some (set_node i (Node rg AgIdle) s)
          else Some (set_node i (Node rg AgStopped) s)
      | (inr r, rg) =>
          cs ← request_copies r;
          Some (set_node i (Node rg (AgJob cs (notify_cnt r))) s)
      end
  | AgJob (cp :: cs) nf =>
      Some (set_dmem (run_copy cp (dmem s)) (set_node i (Node (nd_ring nd) (AgJob cs nf)) s))
  | AgJob [] nf => atomic_inc nf (set_node i (Node (nd_ring nd) AgIdle) s)
  end.

Inductive event := EClient (n : nat) (rnd : Z) | EAgent (i : nat).

Definition step (e : event) (s : dstate) : option dstate :=
  match e with
  | EClient n rnd => client_step n rnd s
  | EAgent i => agent_step i s
  end.

Fixpoint run (evs : list event) (s : dstate) : option dstate :=
  match evs with
  | [] => Some s
  | e :: evs' => s' ← step e s; run evs' s'
  end.

(** [nova_init_ring_buffers] and [nova_init_agents]: one ring and one agent
    per node. *)
Fixpoint init_nodes (n : nat) (idx : nat) : option (list node) :=
  match n with
  | O => Some []
  | S n' =>
      r ← solros_ring_create NOVA_RING_SIZE 64 (Z.of_nat idx / nova_dele_thrds);
      l ← init_nodes n' (S idx);
      Some (Node r AgIdle :: l)
  end.

(** A thread that makes some calls and waits for them. *)
Definition start_client (n : nat) (calls : list nvmm_call) : client :=
  Client ((calls ≫= call_actions n) ++ nova_complete_delegation) 0
    (replicate (Z.to_nat NOVA_MAX_SOCKET) 0) (replicate (Z.to_nat NOVA_MAX_SOCKET) 0).

Definition start (sockets : Z) (m : Z -> Z) (progs : list (list nvmm_call)) : option dstate :=
  nds ← init_nodes (Z.to_nat (sockets * nova_dele_thrds)) 0;
  Some (DState m nds (imap start_client progs)).

End agents.
