(* ===== verification/DelegationSpec.v ===== *)
(** What the copies of a call amount to, byte by byte: whatever way a call is
    cut into fragments, tasks or stores, it writes the bytes it was asked to
    write, each once ([call_writes]). *)

From S2P Require Import Prelude.
From S2P Require Import Kernel.
From S2P Require Import Delegation.


(** ** Copies byte by byte *)

Inductive byte_source := BMem (a : Z) | BVal (v : Z).

Definition value (m : Z -> Z) (b : byte_source) : Z :=
  match b with BMem a => m a | BVal v => v end.

Definition byte_of (s : source) (k : Z) : byte_source :=
  match s with
  | From a => BMem (a + k)
  | Fill b => BVal b
  | Bytes l => BVal (nth (Z.to_nat k) l 0)
  end.

Definition writes (c : copy) : list (Z * byte_source) :=
  (fun k => (cp_dst c + k, byte_of (cp_src c) k)) <$> seqZ 0 (cp_len c).

Definition flat (cs : list copy) : list (Z * byte_source) := cs ≫= writes.

Lemma flat_cons c cs : flat (c :: cs) = writes c ++ flat cs.
Proof. done. Qed.

Lemma flat_app cs cs' : flat (cs ++ cs') = flat cs ++ flat cs'.
Proof. apply bind_app. Qed.

Lemma elem_writes c a b :
  (a, b) ∈ writes c <-> exists k, 0 <= k < cp_len c /\ a = cp_dst c + k /\ b = byte_of (cp_src c) k.
Proof.
  unfold writes. rewrite list_elem_of_fmap. split.
  - intros (k & [=-> ->] & Hk%elem_of_seqZ). exists k. split_and!; (lia || done).
  - intros (k & Hk & -> & ->). exists k. split; [done|]. apply elem_of_seqZ. lia.
Qed.

(** A copy writes its destination and nothing else. *)
Lemma run_copy_hit c m a b :
  (a, b) ∈ writes c -> run_copy c m a = value m b.
Proof.
  intros (k & Hk & -> & ->)%elem_writes. unfold run_copy.
  destruct (Z.leb_spec (cp_dst c) (cp_dst c + k)); [|lia].
  destruct (Z.ltb_spec (cp_dst c + k) (cp_dst c + cp_len c)); [|lia]. simpl.
  rewrite Z.add_simpl_l. by destruct (cp_src c).
Qed.

Lemma run_copy_miss c m a : a ∉ (writes c).*1 -> run_copy c m a = m a.
Proof.
  intros Ha. unfold run_copy. destruct (_ && _) eqn:E; [|done]. zbool. destruct Ha.
  apply list_elem_of_fmap. exists (a, byte_of (cp_src c) (a - cp_dst c)). split; [done|].
  apply elem_writes. exists (a - cp_dst c). split_and!; (lia || done).
Qed.

(** A copy cut in two. *)
Definition advance (s : source) (n : Z) : source :=
  match s with From a => From (a + n) | Fill b => Fill b | Bytes l => Bytes (drop (Z.to_nat n) l) end.

Lemma byte_of_advance s n k : 0 <= n -> 0 <= k -> byte_of (advance s n) k = byte_of s (n + k).
Proof.
  intros. destruct s; simpl; [f_equal; lia|done|].
  rewrite Z2Nat.inj_add by lia. f_equal. apply List.nth_skipn.
Qed.

Lemma writes_split d s n1 n2 :
  0 <= n1 -> 0 <= n2 ->
  writes (Copy d s (n1 + n2)) = writes (Copy d s n1) ++ writes (Copy (d + n1) (advance s n1) n2).
Proof.
  intros H1 H2. unfold writes. simpl. rewrite seqZ_app, fmap_app by done. f_equal.
  rewrite <- (Z.add_0_r (0 + n1)), Z.add_0_l, <- fmap_add_seqZ, <- list_fmap_compose.
  apply list_fmap_ext. intros i k Hk%list_elem_of_lookup_2%elem_of_seqZ. simpl.
  rewrite byte_of_advance by lia. f_equal. lia.
Qed.

Lemma writes_nil d s : writes (Copy d s 0) = [].
Proof. done. Qed.

(** Bytes one by one. *)
Lemma flat_bytes (dst : Z -> Z) (src : Z -> source) n :
  0 <= n ->
  flat ((fun k => Copy (dst (Z.of_nat k)) (src (Z.of_nat k)) 1) <$> seq 0 (Z.to_nat n))
  = (fun k => (dst k, byte_of (src k) 0)) <$> seqZ 0 n.
Proof.
  intros Hn. unfold flat, seqZ. generalize (Z.to_nat n) as i. clear n Hn. intros i.
  rewrite <- list_fmap_compose. generalize 0%nat as j. induction i as [|i IH]; intros j; [done|].
  simpl seq. rewrite fmap_cons, bind_cons, IH. simpl.
  by rewrite !Z.add_0_r.
Qed.

Section copies.
Context {CO : CopyOps}.

(** No copy between kernel and user memory stops early. *)
Definition no_faults : Prop :=
  (forall d s n, copy_nocache_left d s n = 0) /\
  (forall mm a n, clear_user_left mm a n = 0) /\
  (forall mm d s n, copy_to_user_left mm d s n = 0).

Lemma store_run_zero dest w n :
  0 <= w -> flat (store_run dest w 0 n) = writes (Copy dest (Fill 0) (w * Z.of_nat n)).
Proof.
  intros Hw. assert (Hz : forall k i, nth i (le_bytes k 0) 0 = 0).
  { intros k. induction k as [|k IH]; intros [|i]; simpl; [done..|]. apply IH. }
  induction n as [|n IH]; [by rewrite Z.mul_0_r|].
  unfold store_run in *. rewrite seq_S, fmap_app, flat_app, IH. simpl.
  replace (w * Z.of_nat (S n)) with (w * Z.of_nat n + w) by lia. rewrite writes_split by lia.
  f_equal. unfold flat. simpl. rewrite app_nil_r. unfold writes. simpl.
  apply list_fmap_ext. intros i k _. by rewrite Hz.
Qed.

Lemma memset_nt_zero dest n :
  0 <= n < TWO32 -> n mod 4 = 0 -> flat (memset_nt dest 0 n) = writes (Copy dest (Fill 0) n).
Proof.
  intros Hn H4. unfold memset_nt. cbv zeta. rewrite !(u32_small n) by lia.
  change (Z.lor (Z.shiftl (u32 0) 32) (u32 0)) with 0. change (u32 0) with 0.
  change 63 with (Z.ones 6). change 7 with (Z.ones 3).
  rewrite !Z.land_ones, !Z.shiftr_div_pow2 by lia.
  change (2 ^ 6) with 64. change (2 ^ 3) with 8. change (2 ^ 2) with 4.
  rewrite !flat_app, !store_run_zero by lia.
  rewrite Nat2Z.inj_mul, !Z2Nat.id by (apply Z.div_pos; (lia || (apply Z.mod_pos_bound; lia))).
  replace (writes (Copy dest (Fill 0) n)) with
    (writes (Copy dest (Fill 0) ((8 * (8 * (n / 64)) + 8 * (n mod 64 / 8)) + 4 * (n mod 64 mod 8 / 4)))).
  2:{ do 2 f_equal. Z.to_euclidean_division_equations. lia. }
  rewrite !writes_split by (Z.to_euclidean_division_equations; lia). simpl advance.
  rewrite <- !app_assoc. rewrite (Z.add_assoc dest).
  change (Z.of_nat 8) with 8. by replace (8 * (8 * (n / 64))) with (64 * (n / 64)) by lia.
Qed.

Lemma nocache_writes dst src n :
  no_faults -> 0 <= n < TWO32 ->
  memcpy_to_pmem_nocache dst src n = ([Copy dst (From src) n], 0).
Proof.
  intros (H & _) Hn. unfold memcpy_to_pmem_nocache. rewrite u32_small, H by lia.
  by rewrite Z.sub_0_r.
Qed.

Lemma avx_loop_writes fuel dst src size i :
  0 <= i <= size -> (size - i) / 256 < Z.of_nat fuel ->
  flat (avx_loop fuel dst src size i) = writes (Copy (dst + i) (From (src + i)) (size - i)).
Proof.
  revert i. induction fuel as [|fuel IH]; intros i Hi Hf.
  { pose proof (Z.div_pos (size - i) 256). lia. }
  cbn [avx_loop]. destruct (Z.leb_spec (i + 256) size) as [Hle|Hgt].
  - rewrite flat_cons, IH.
    + replace (size - i) with (256 + (size - (i + 256))) by lia. rewrite writes_split by lia.
      simpl advance. by rewrite !Z.add_assoc.
    + lia.
    + replace (size - i) with (size - (i + 256) + 1 * 256) in Hf by lia.
      rewrite Z.div_add in Hf by lia. lia.
  - rewrite (flat_bytes (fun k => dst + i + k) (fun k => From (src + i + k))) by lia.
    unfold writes. simpl. apply list_fmap_ext. intros j k _. by rewrite Z.add_0_r.
Qed.

Lemma avx_writes dst src n :
  no_faults -> 0 <= n < TWO32 ->
  exists cs, memcpy_to_pmem_avx_nocache dst src n = (cs, 0) /\
    flat cs = writes (Copy dst (From src) n).
Proof.
  intros Hf Hn. unfold memcpy_to_pmem_avx_nocache. cbv zeta. rewrite (u32_small n) by lia.
  destruct (_ && _).
  - eexists. split; [done|]. rewrite avx_loop_writes.
    + by rewrite !Z.add_0_r, Z.sub_0_r.
    + lia.
    + rewrite Z.sub_0_r, Nat2Z.inj_succ, Z2Nat.id; [lia|]. apply Z.div_pos; lia.
  - rewrite nocache_writes by done. eexists. split; [done|]. apply app_nil_r.
Qed.

Lemma frag_loop_writes n kaddr uaddr i :
  no_faults ->
  exists cs, frag_loop n kaddr uaddr i = (cs, true) /\
    flat cs = writes (Copy (kaddr + i) (From (uaddr + i)) (NOVA_AGENT_FRAG_SIZE * Z.of_nat n)).
Proof.
  intros Hf. revert i. induction n as [|n IH]; intros i; [by exists []|]. cbn [frag_loop].
  destruct (avx_writes (kaddr + i) (uaddr + i) NOVA_AGENT_FRAG_SIZE Hf) as (cs & -> & E); [done|].
  destruct (IH (i + NOVA_AGENT_FRAG_SIZE)) as (cs' & -> & E'). simpl. exists (cs ++ cs').
  split; [done|]. rewrite flat_app, E, E'.
  replace (NOVA_AGENT_FRAG_SIZE * Z.of_nat (S n))
    with (NOVA_AGENT_FRAG_SIZE + NOVA_AGENT_FRAG_SIZE * Z.of_nat n) by lia.
  rewrite writes_split by (unfold NOVA_AGENT_FRAG_SIZE; lia). simpl advance. by rewrite !Z.add_assoc.
Qed.

(** A write request writes its bytes. *)
Lemma write_request_writes kaddr uaddr n zero flush :
  no_faults -> 0 <= n < TWO32 -> (zero = true -> n mod 4 = 0) ->
  flat (do_write_request kaddr uaddr n zero flush)
  = writes (Copy kaddr (if zero then Fill 0 else From uaddr) n).
Proof.
  intros Hf Hn Hz. unfold do_write_request. destruct zero.
  { destruct flush; [by apply memset_nt_zero; auto|apply app_nil_r]. }
  destruct (frag_loop_writes (Z.to_nat (n / NOVA_AGENT_FRAG_SIZE)) kaddr uaddr 0 Hf)
    as (cs & -> & E). simpl negb. cbv iota. unfold NOVA_AGENT_FRAG_SIZE in *.
  pose proof (Z.div_mod n 1024). pose proof (Z.mod_pos_bound n 1024).
  pose proof (Z.div_pos n 1024). rewrite Z2Nat.id, !Z.add_0_r in E by lia.
  destruct (Z.eqb_spec (n - n / 1024 * 1024) 0) as [Hd|Hd].
  { rewrite E. do 2 f_equal. lia. }
  destruct (avx_writes (kaddr + n / 1024 * 1024) (uaddr + n / 1024 * 1024) (n - n / 1024 * 1024) Hf)
    as (cs' & -> & E'); [lia|].
  cbn [fst]. rewrite flat_app, E, E', (Z.mul_comm (n / 1024)).
  etransitivity; [symmetry; apply (writes_split kaddr (From uaddr)); lia|].
  do 2 f_equal. lia.
Qed.

End copies.
