(* ===== verification/AgentTasks.v ===== *)
(** Translating the buffer of a process into tasks: [create_agent_tasks] cuts
    it at page boundaries and joins what the kernel sees in one piece; the
    tasks hold exactly the bytes of the buffer, in order. *)

From S2P Require Import Prelude.
From S2P Require Import Kernel.
From S2P Require Import Delegation.
From S2P Require Import DelegationSpec.

(** Page tables map pages: their answers are the same within a page, and a
    large page starts at a frame that is a multiple of its size.  The kernel
    sees physical memory in one piece. *)
Class PageLaws `{CopyOps} : Prop := {
  page_tables mm a b :
    a / PAGE_SIZE = b / PAGE_SIZE ->
    (pgd_present mm a, p4d_present mm a, pud_present mm a, pud_large mm a, pud_pfn mm a)
    = (pgd_present mm b, p4d_present mm b, pud_present mm b, pud_large mm b, pud_pfn mm b) /\
    (pmd_present mm a, pmd_large mm a, pmd_pfn mm a, pte_present mm a, pte_pfn mm a)
    = (pmd_present mm b, pmd_large mm b, pmd_pfn mm b, pte_present mm b, pte_pfn mm b);
  pud_frame mm a : pud_large mm a = true -> pud_pfn mm a mod 262144 = 0;
  pmd_frame mm a : pmd_large mm a = true -> pmd_pfn mm a mod 512 = 0;
  phys_to_virt_add p k : phys_to_virt (p + k) = phys_to_virt p + k
}.

(** A frame number and an offset in the frame. *)
Lemma lor_frame q r b : 0 <= b -> Z.lor (q * 2 ^ b) (r mod 2 ^ b) = q * 2 ^ b + r mod 2 ^ b.
Proof.
  intros Hb. rewrite <- Z.shiftl_mul_pow2 by done.
  assert (E : Z.land (Z.shiftl q b) (r mod 2 ^ b) = 0).
  { apply Z.bits_inj'. intros n Hn. rewrite Z.land_spec, Z.bits_0.
    destruct (Z.lt_ge_cases n b).
    - by rewrite Z.shiftl_spec_low by lia.
    - rewrite (Z.mod_pow2_bits_high r) by lia. apply andb_false_r. }
  rewrite Z.add_nocarry_lxor by done. by rewrite Z.lxor_lor by done.
Qed.

Lemma frame_offset pfn a b :
  12 <= b -> pfn mod 2 ^ (b - 12) = 0 ->
  Z.lor (Z.shiftl pfn PAGE_SHIFT) (Z.land a (Z.ones b)) = pfn * 4096 + a mod 2 ^ b.
Proof.
  intros Hb Hp. rewrite Z.land_ones, Z.shiftl_mul_pow2 by (unfold PAGE_SHIFT; lia).
  change (2 ^ PAGE_SHIFT) with 4096.
  assert (E : pfn * 4096 = pfn / 2 ^ (b - 12) * 2 ^ b).
  { rewrite (Z.div_mod pfn (2 ^ (b - 12))) at 1 by (apply Z.pow_nonzero; lia).
    rewrite Hp, Z.add_0_r. replace b with ((b - 12) + 12) at 4 by lia.
    rewrite Z.pow_add_r by lia. change (2 ^ 12) with 4096. lia. }
  rewrite E. apply lor_frame. lia.
Qed.

Section tasks.
Context {CO : CopyOps} {PL : PageLaws}.

(** Within a page the translation is an offset. *)
Lemma translate_page mm a k :
  0 <= k -> a mod PAGE_SIZE + k < PAGE_SIZE -> user_virt_addr_to_phy_addr mm a <> 0 ->
  user_virt_addr_to_phy_addr mm (a + k) = user_virt_addr_to_phy_addr mm a + k.
Proof.
  unfold PAGE_SIZE. intros Hk Hp Hn.
  destruct (page_tables mm (a + k) a) as [E1 E2].
  { unfold PAGE_SIZE. Z.to_euclidean_division_equations. lia. }
  unfold user_virt_addr_to_phy_addr in *. injection E1 as -> -> -> -> ->.
  injection E2 as -> -> -> -> ->.
  destruct (pgd_present mm a), (p4d_present mm a), (pud_present mm a); simpl in *; try done.
  destruct (pud_large mm a) eqn:Hl.
  { rewrite !frame_offset by (lia || by apply pud_frame). change (2 ^ 30) with 1073741824.
    Z.to_euclidean_division_equations. lia. }
  destruct (pmd_present mm a); simpl in *; [|done].
  destruct (pmd_large mm a) eqn:Hm.
  { rewrite !frame_offset by (lia || by apply pmd_frame). change (2 ^ 21) with 2097152.
    Z.to_euclidean_division_equations. lia. }
  destruct (pte_present mm a); simpl in *; [|done].
  rewrite !frame_offset by (lia || apply Z.mod_1_r). change (2 ^ 12) with 4096.
  Z.to_euclidean_division_equations. lia.
Qed.

Lemma page_run mm a n :
  0 <= n -> a mod PAGE_SIZE + n <= PAGE_SIZE -> user_virt_addr_to_phy_addr mm a <> 0 ->
  user_byte mm <$> seqZ a n = seqZ (user_byte mm a) n.
Proof.
  intros Hn Hp Ha. unfold seqZ. rewrite <- list_fmap_compose.
  apply list_fmap_ext. intros i k Hk%list_elem_of_lookup_2%elem_of_seq. simpl. unfold user_byte.
  rewrite Z.add_comm, translate_page by (done || lia). rewrite phys_to_virt_add. lia.
Qed.

Definition task_bytes (ts : list nova_agent_task) : list Z :=
  ts ≫= fun t => seqZ (kuaddr t) (task_size t).

Lemma task_bytes_app ts ts' : task_bytes (ts ++ ts') = task_bytes ts ++ task_bytes ts'.
Proof. apply bind_app. Qed.

Lemma task_bytes_one a n : task_bytes [Task a n] = seqZ a n.
Proof. apply app_nil_r. Qed.

(** The copies of the tasks pair their bytes with the bytes of the source. *)
Lemma read_tasks_writes ts kaddr zero :
  Forall (fun t => 0 <= task_size t) ts -> 0 <= kaddr ->
  kaddr + Z.of_nat (length (task_bytes ts)) < TWO64 ->
  flat (read_tasks ts kaddr zero)
  = zip (task_bytes ts)
      (byte_of (if zero then Fill 0 else From kaddr) <$> seqZ 0 (Z.of_nat (length (task_bytes ts)))).
Proof.
  revert kaddr. induction ts as [|t ts IH]; intros kaddr Hf Hk Hlen; [done|].
  apply Forall_cons in Hf as [Ht Hf].
  change (t :: ts) with ([t] ++ ts) in Hlen |- *. destruct t as [a n]. simpl in Ht.
  rewrite task_bytes_app, task_bytes_one in *. rewrite length_app, length_seqZ in *.
  assert (E : forall s, writes (Copy a s n) = zip (seqZ a n) (byte_of s <$> seqZ 0 n)).
  { intros s. unfold writes. simpl. rewrite zip_with_fmap_r.
    rewrite <- (Z.add_0_r a), <- fmap_add_seqZ at 1. rewrite zip_with_fmap_l.
    by rewrite zip_with_diag. }
  rewrite Nat2Z.inj_add, Z2Nat.id, seqZ_app, fmap_app by lia.
  rewrite zip_with_app by (rewrite length_fmap, !length_seqZ; done).
  assert (E2 : forall s,
    byte_of s <$> seqZ (0 + n) (Z.of_nat (length (task_bytes ts)))
    = byte_of (advance s n) <$> seqZ 0 (Z.of_nat (length (task_bytes ts)))).
  { intros s. rewrite Z.add_0_l, <- (Z.add_0_r n), <- fmap_add_seqZ, <- list_fmap_compose.
    apply list_fmap_ext. intros i k Hi%list_elem_of_lookup_2%elem_of_seqZ. simpl.
    rewrite Z.add_0_r. symmetry. apply byte_of_advance; lia. }
  rewrite E2. destruct zero; cbn [read_tasks kuaddr task_size app advance].
  - rewrite flat_cons, E, IH by (done || lia). done.
  - rewrite flat_cons, E, IH by (done || (rewrite u64_small by lia; lia)).
    by rewrite u64_small by lia.
Qed.

(** ** The loop *)

(** A buffer every byte of which is mapped. *)
Definition mapped (mm uaddr bytes : Z) : Prop :=
  forall k, 0 <= k < bytes ->
    user_virt_addr_to_phy_addr mm (uaddr + k) <> 0 /\
    0 <= user_byte mm (uaddr + k) < TWO64 - 1.

(** The tasks built so far hold the bytes before [i]. *)
Definition tasks_upto (mm uaddr i : Z) (ts : list nova_agent_task) : Prop :=
  task_bytes ts = user_byte mm <$> seqZ uaddr (i - uaddr) /\
  Forall (fun t => 0 < task_size t) ts /\
  Z.of_nat (length ts) <= (i + 4095) / PAGE_SIZE - uaddr / PAGE_SIZE.

Lemma tasks_upto_task mm uaddr bytes i ts t :
  0 <= uaddr -> mapped mm uaddr bytes -> uaddr <= i <= uaddr + bytes ->
  tasks_upto mm uaddr i (ts ++ [t]) ->
  0 <= kuaddr t /\ 0 < task_size t /\ kuaddr t + task_size t < TWO64.
Proof.
  intros Hu Hm Hi (Hb & Hf & _). apply Forall_app in Hf as [_ [Ht _]%Forall_cons].
  assert (Hin : forall a, a ∈ seqZ (kuaddr t) (task_size t) -> 0 <= a < TWO64 - 1).
  { intros a Ha. assert (Ha' : a ∈ task_bytes (ts ++ [t])).
    { rewrite task_bytes_app. apply elem_of_app. right. destruct t. by rewrite task_bytes_one. }
    rewrite Hb in Ha'. apply list_elem_of_fmap in Ha' as (x & -> & Hx%elem_of_seqZ).
    replace x with (uaddr + (x - uaddr)) by lia. apply Hm. lia. }
  pose proof (Hin (kuaddr t) ltac:(apply elem_of_seqZ; lia)).
  pose proof (Hin (kuaddr t + task_size t - 1) ltac:(apply elem_of_seqZ; lia)). lia.
Qed.

Lemma tasks_upto_snoc mm uaddr i n ts :
  0 <= uaddr <= i -> tasks_upto mm uaddr i ts -> i = uaddr \/ i mod PAGE_SIZE = 0 ->
  0 < n -> i mod PAGE_SIZE + n <= PAGE_SIZE -> user_virt_addr_to_phy_addr mm i <> 0 ->
  tasks_upto mm uaddr (i + n) (ts ++ [Task (user_byte mm i) n]).
Proof.
  intros Hu (Hb & Hf & Hl) Hal Hn Hp Hi. split_and!.
  - rewrite task_bytes_app, task_bytes_one, Hb, <- page_run by (done || lia).
    replace (i + n - uaddr) with ((i - uaddr) + n) by lia. rewrite seqZ_app, fmap_app by lia.
    do 3 f_equal. lia.
  - apply Forall_app. split; [done|]. by repeat constructor.
  - rewrite length_app. simpl length. unfold PAGE_SIZE in *. destruct Hal as [->|Hal].
    + destruct ts as [|t ts]; [simpl; Z.to_euclidean_division_equations; lia|].
      rewrite Z.sub_diag in Hb. apply Forall_cons in Hf as [Ht _]. exfalso.
      assert (Hin : kuaddr t ∈ task_bytes (t :: ts)).
      { apply elem_of_app. left. apply elem_of_seqZ. lia. }
      rewrite Hb in Hin. inversion Hin.
    + Z.to_euclidean_division_equations. lia.
Qed.

Lemma tasks_upto_join mm uaddr i n ts t :
  0 <= uaddr <= i -> tasks_upto mm uaddr i (ts ++ [t]) ->
  user_byte mm i = kuaddr t + task_size t ->
  0 < n -> i mod PAGE_SIZE + n <= PAGE_SIZE -> user_virt_addr_to_phy_addr mm i <> 0 ->
  tasks_upto mm uaddr (i + n) (ts ++ [Task (kuaddr t) (task_size t + n)]).
Proof.
  intros Hu (Hb & Hf & Hl) Ha Hn Hp Hi. apply Forall_app in Hf as [Hf [Ht _]%Forall_cons].
  destruct t as [a m]; simpl in *. split_and!.
  - rewrite task_bytes_app, task_bytes_one, seqZ_app, app_assoc, <- Ha by lia.
    rewrite task_bytes_app, task_bytes_one in Hb. rewrite Hb, <- page_run by (done || lia).
    replace (i + n - uaddr) with ((i - uaddr) + n) by lia. rewrite seqZ_app, fmap_app by lia.
    do 3 f_equal. lia.
  - apply Forall_app. split; [done|]. repeat constructor. simpl. lia.
  - rewrite length_app in *. simpl in *. unfold PAGE_SIZE in *.
    Z.to_euclidean_division_equations. lia.
Qed.

Lemma create_tasks_loop_spec fuel mm uaddr bytes i ts :
  0 <= uaddr -> 0 <= bytes -> uaddr + bytes + PAGE_SIZE < TWO63 ->
  mapped mm uaddr bytes -> uaddr mod PAGE_SIZE + bytes <= NOVA_AGENT_TASK_MAX_SIZE * PAGE_SIZE ->
  uaddr <= i <= uaddr + bytes -> i = uaddr \/ i mod PAGE_SIZE = 0 \/ i = uaddr + bytes ->
  tasks_upto mm uaddr i ts ->
  (i < uaddr + bytes -> (uaddr + bytes + 4095) / PAGE_SIZE - i / PAGE_SIZE <= Z.of_nat fuel) ->
  exists ts', create_agent_tasks_loop fuel mm uaddr bytes i (uaddr + bytes - i) ts
              = Some (Z.of_nat (length ts'), ts') /\ tasks_upto mm uaddr (uaddr + bytes) ts'.
Proof.
  unfold PAGE_SIZE, NOVA_AGENT_TASK_MAX_SIZE. intros Hu Hb Ht Hm Hmax.
  revert i ts. induction fuel as [|fuel IH]; intros i ts Hi Hal Hts Hf; cbn [create_agent_tasks_loop];
    rewrite (u64_small (uaddr + bytes)) by lia.
  { destruct (Z.ltb_spec i (uaddr + bytes)).
    - exfalso. specialize (Hf ltac:(lia)). Z.to_euclidean_division_equations. lia.
    - assert (i = uaddr + bytes) as -> by lia. by exists ts. }
  destruct (Z.ltb_spec i (uaddr + bytes)) as [Hlt|Hge].
  2:{ assert (i = uaddr + bytes) as -> by lia. by exists ts. }
  destruct (Hm (i - uaddr)) as [Hp Hr]; [lia|]. rewrite Z.add_sub_assoc, Z.add_simpl_l in Hp, Hr.
  destruct (Z.eqb_spec (user_virt_addr_to_phy_addr mm i) 0) as [|_]; [done|].
  set (n := Z.min (4096 - i mod 4096) (uaddr + bytes - i)).
  pose proof (Z.mod_pos_bound i 4096 ltac:(lia)).
  assert (E : u64 (ROUNDUP_PAGE i - i) = 4096 - i mod 4096).
  { unfold ROUNDUP_PAGE, PAGE_SIZE. change 4095 with (PAGE_SIZE - 1). rewrite land_not_4095.
    rewrite (u64_small (i - i mod 4096 + 4096)) by lia. rewrite u64_small; lia. }
  rewrite E, (u64_small (uaddr + bytes - i)) by lia. cbv zeta.
  replace (if uaddr + bytes - i <? 4096 - i mod 4096 then _ else _) with n
    by (destruct (Z.ltb_spec (uaddr + bytes - i) (4096 - i mod 4096)); lia).
  rewrite s64_small by lia. destruct (Z.ltb_spec (uaddr + bytes - i - n) 0); [lia|].
  replace (uaddr + bytes - i - n) with (uaddr + bytes - (i + n)) by lia.
  rewrite (u64_small (i + n)) by lia. fold (user_byte mm i).
  assert (Hsnoc : tasks_upto mm uaddr (i + n) (ts ++ [Task (user_byte mm i) n])).
  { apply tasks_upto_snoc; unfold PAGE_SIZE; (done || lia). }
  assert (Hnext : i + n = uaddr \/ (i + n) mod 4096 = 0 \/ i + n = uaddr + bytes).
  { destruct (Z.eq_dec (i + n) (uaddr + bytes)); [by do 2 right|right; left].
    subst n. Z.to_euclidean_division_equations. lia. }
  assert (Hfuel : i + n < uaddr + bytes ->
    (uaddr + bytes + 4095) / 4096 - (i + n) / 4096 <= Z.of_nat fuel).
  { intros ?. specialize (Hf ltac:(lia)). subst n. Z.to_euclidean_division_equations. lia. }
  destruct (last ts) as [t|] eqn:El.
  2:{ apply last_None in El as ->. by apply IH; [lia|..]. }
  apply last_Some in El as [l ->].
  destruct (tasks_upto_task mm uaddr bytes i l t) as (Hk & Hs & Hks); [lia|done|lia|done|].
  rewrite (u64_small (kuaddr t + task_size t)) by lia.
  destruct (Z.eqb_spec (user_byte mm i) (kuaddr t + task_size t)) as [Ej|Ej]; simpl negb; cbv iota.
  - rewrite removelast_last.
    pose proof (tasks_upto_join mm uaddr i n l t) as Hj. unfold PAGE_SIZE in Hj.
    specialize (Hj ltac:(lia) Hts Ej ltac:(lia) ltac:(lia) Hp).
    destruct (tasks_upto_task mm uaddr bytes (i + n) l _ ltac:(lia) Hm ltac:(lia) Hj)
      as (_ & _ & Hbig).
    simpl in Hbig. rewrite u64_small by lia. by apply IH; [lia|..].
  - change NOVA_AGENT_TASK_MAX_SIZE with 12.
    destruct (Z.leb_spec 12 (Z.of_nat (length (l ++ [t])))) as [H12|_].
    + exfalso. destruct Hsnoc as (_ & _ & Hl). rewrite length_app in Hl. simpl in Hl.
      unfold PAGE_SIZE in Hl. Z.to_euclidean_division_equations. lia.
    + by apply IH; [lia|..].
Qed.

(** A buffer of at most twelve pages never overruns the array of tasks, and its
    tasks hold its bytes in order. *)
Lemma create_agent_tasks_spec mm uaddr bytes :
  0 <= uaddr -> 0 <= bytes -> uaddr + bytes + PAGE_SIZE < TWO63 ->
  mapped mm uaddr bytes -> uaddr mod PAGE_SIZE + bytes <= NOVA_AGENT_TASK_MAX_SIZE * PAGE_SIZE ->
  exists ts, create_agent_tasks mm uaddr bytes = Some (Z.of_nat (length ts), ts) /\
    task_bytes ts = user_byte mm <$> seqZ uaddr bytes /\ Forall (fun t => 0 < task_size t) ts.
Proof.
  intros Hu Hb Ht Hm Hmax. unfold create_agent_tasks. unfold PAGE_SIZE in Ht.
  rewrite s64_small by lia.
  destruct (create_tasks_loop_spec (Z.to_nat (bytes / PAGE_SIZE + 2)) mm uaddr bytes uaddr [])
    as (ts & E & Hbs & Hf & _); try (done || lia || by left).
  - split_and!; [by rewrite Z.sub_diag|done|]. unfold PAGE_SIZE. simpl.
    Z.to_euclidean_division_equations. lia.
  - intros _. unfold PAGE_SIZE. rewrite Z2Nat.id by (Z.to_euclidean_division_equations; lia).
    Z.to_euclidean_division_equations. lia.
  - replace (uaddr + bytes - uaddr) with bytes in E, Hbs by lia. by exists ts.
Qed.

Lemma read_request_writes mm kaddr uaddr bytes zero :
  0 <= uaddr -> 0 <= bytes -> uaddr + bytes + PAGE_SIZE < TWO63 ->
  0 <= kaddr -> kaddr + bytes < TWO64 ->
  mapped mm uaddr bytes -> uaddr mod PAGE_SIZE + bytes <= NOVA_AGENT_TASK_MAX_SIZE * PAGE_SIZE ->
  exists cs, do_read_request mm kaddr uaddr bytes zero = Some cs /\
    flat cs = (fun k => (user_byte mm (uaddr + k), byte_of (if zero then Fill 0 else From kaddr) k))
                <$> seqZ 0 bytes.
Proof.
  intros Hu Hb Ht Hk Hkb Hm Hmax. unfold do_read_request.
  destruct (create_agent_tasks_spec mm uaddr bytes) as (ts & -> & E & Hf); [done..|]. simpl.
  assert (Hlen : Z.of_nat (length (task_bytes ts)) = bytes).
  { rewrite E, length_fmap, length_seqZ. lia. }
  assert (Hw : flat (read_tasks ts kaddr zero)
               = (fun k => (user_byte mm (uaddr + k), byte_of (if zero then Fill 0 else From kaddr) k))
                   <$> seqZ 0 bytes).
  { rewrite read_tasks_writes.
    - rewrite Hlen, E, <- (Z.add_0_r uaddr), <- fmap_add_seqZ, <- list_fmap_compose.
      rewrite zip_with_fmap_r, zip_with_fmap_l, zip_with_diag.
      apply list_fmap_ext. intros. by rewrite Z.add_0_r.
    - eapply Forall_impl; [exact Hf|]. simpl. lia.
    - done.
    - lia. }
  destruct (Z.leb_spec (Z.of_nat (length ts)) 0); [|by eexists].
  destruct ts; [|simpl in *; lia]. by eexists.
Qed.

End tasks.
