(* ===== verification/DelegationSteps.v ===== *)
(** The delegation protocol as a transition system: what is in the rings and
    at the agents ([items]), what is left to write ([pending]), the counters,
    and the invariant every step keeps. *)

From S2P Require Import Prelude.
From S2P Require Import Kernel.
From S2P Require Import Delegation.
From S2P Require Import DelegationSpec.

(** ** Replacing one element of a list *)

Lemma bind_insert_perm {A B} (f : A -> list B) (l : list A) i x y :
  l !! i = Some x -> (<[i := y]> l ≫= f) ++ f x ≡ₚ (l ≫= f) ++ f y.
Proof.
  revert i. induction l as [|z l IH]; intros [|i] H; simpl in *; [done..| |].
  - injection H as ->. rewrite (Permutation_app_comm (f y)), (Permutation_app_comm (f x)).
    rewrite <- !app_assoc. f_equiv. apply Permutation_app_comm.
  - rewrite <- !app_assoc. by rewrite (IH _ H).
Qed.

Lemma bind_insert_cons {A B} (f : A -> list B) (l : list A) i x y b :
  l !! i = Some x -> f y ≡ₚ b :: f x -> <[i := y]> l ≫= f ≡ₚ b :: (l ≫= f).
Proof.
  intros H E. apply (Permutation_app_inv_r (f x)). rewrite (bind_insert_perm f l i x y H), E.
  symmetry. apply Permutation_middle.
Qed.

Lemma bind_insert_same {A B} (f : A -> list B) (l : list A) i x y :
  l !! i = Some x -> f y ≡ₚ f x -> <[i := y]> l ≫= f ≡ₚ l ≫= f.
Proof.
  intros H E. apply (Permutation_app_inv_r (f x)). by rewrite (bind_insert_perm f l i x y H), E.
Qed.

Lemma sum_insert {A} (f : A -> nat) (l : list A) i x y :
  l !! i = Some x -> (sum_list_with f (<[i := y]> l) + f x = sum_list_with f l + f y)%nat.
Proof.
  revert i. induction l as [|z l IH]; intros [|i] H; simpl in *; [done..| |].
  - injection H as ->. lia.
  - specialize (IH _ H). lia.
Qed.

Section data.
Context (W : list (Z * byte_source)) (m0 : Z -> Z).

(** [W] is everything that is to be written: each byte once, and no byte that
    is read is written. *)
Definition writes_once : Prop :=
  NoDup W.*1 /\ forall a x, (a, BMem x) ∈ W -> x ∉ W.*1.

Lemma writes_fun a b b' : writes_once -> (a, b) ∈ W -> (a, b') ∈ W -> b = b'.
Proof.
  intros [Hn _]. revert Hn. generalize W. intros V. induction V as [|[x y] V IH]; intros Hn H1 H2.
  { by apply not_elem_of_nil in H1. }
  simpl in Hn. apply NoDup_cons in Hn as [Hx Hn].
  apply elem_of_cons in H1 as [[=-> ->]|H1], H2 as [[=]|H2]; simplify_eq; try done.
  - destruct Hx. apply list_elem_of_fmap. by eexists (_, _).
  - destruct Hx. apply list_elem_of_fmap. by eexists (_, _).
  - by apply IH.
Qed.

(** With [P] left to be written and the bytes of [F] still to be touched,
    everything else of [W] holds its value, and the bytes to read are
    unchanged. *)
Record data_inv (m : Z -> Z) (P : list (Z * byte_source)) (F : list Z) : Prop := {
  data_once : NoDup P.*1;
  data_sub : P ⊆ W;
  data_faults : F ⊆ P.*1;
  data_done a b : (a, b) ∈ W -> (a, b) ∈ P \/ m a = value m0 b;
  data_sources a x : (a, BMem x) ∈ W -> m x = m0 x
}.

Lemma data_perm m P P' F F' :
  P ≡ₚ P' -> F' ⊆ F -> data_inv m P F -> data_inv m P' F'.
Proof.
  intros HP HF [? ? H2 ? ?].
  assert (E : forall w, w ∈ P <-> w ∈ P') by (intros w; by rewrite HP).
  split; try done.
  - by rewrite <- HP.
  - intros w Hw%E. auto.
  - intros x Hx. rewrite <- HP. auto.
  - intros a b Hw. rewrite <- E. auto.
Qed.

Lemma in_fst (V : list (Z * byte_source)) a : a ∈ V.*1 <-> exists b, (a, b) ∈ V.
Proof.
  rewrite list_elem_of_fmap. split; [intros ([x y] & -> & H); by exists y|].
  intros [b H]. by exists (a, b).
Qed.

Lemma data_copy m c P F :
  writes_once -> F ⊆ P.*1 -> data_inv m (writes c ++ P) F -> data_inv (run_copy c m) P F.
Proof.
  intros HW HF [Hn Hs _ Hd Hr]. rewrite fmap_app in Hn. apply NoDup_app in Hn as (Hc & Hcp & Hp).
  assert (Hsrc : forall x, x ∉ W.*1 -> run_copy c m x = m x).
  { intros x Hx. apply run_copy_miss. intros [b Hb]%in_fst. apply Hx, in_fst. exists b.
    apply Hs, elem_of_app. by left. }
  split; [done| |done| |].
  - intros w Hw. apply Hs, elem_of_app. by right.
  - intros a b Hw. destruct (decide (a ∈ (writes c).*1)) as [[b' Ha]%in_fst|Ha].
    + assert (b = b') as <-.
      { eapply writes_fun; [done..|]. apply Hs, elem_of_app. by left. }
      right. rewrite (run_copy_hit _ _ _ _ Ha). destruct b as [x|v]; [|done]. simpl. by eapply Hr.
    + destruct (Hd a b Hw) as [[Hin|Hin]%elem_of_app|He].
      * destruct Ha. apply in_fst. by exists b.
      * by left.
      * right. by rewrite run_copy_miss.
  - intros a x Hw. rewrite Hsrc; [by eapply Hr|]. by eapply HW.
Qed.

Lemma data_fault m x P F :
  writes_once -> data_inv m P (x :: F) -> data_inv (run_copy (Copy x (Fill 0) 1) m) P F.
Proof.
  intros HW [Hn Hs Hf Hd Hr].
  assert (Hx : x ∈ P.*1) by (apply Hf; left).
  assert (Hm : forall a, a <> x -> run_copy (Copy x (Fill 0) 1) m a = m a).
  { intros a Ha. apply run_copy_miss. intros [b (k & Hk & E & _)%elem_writes]%in_fst. simpl in *. lia. }
  split; [done..| | |].
  - intros y Hy. apply Hf. by right.
  - intros a b Hw. destruct (Z.eq_dec a x) as [->|Ha].
    + left. apply in_fst in Hx as [b' Hb]. by rewrite (writes_fun x b b' HW Hw (Hs _ Hb)).
    + rewrite Hm by done. auto.
  - intros a y Hw. rewrite Hm; [by eapply Hr|]. intros ->. destruct HW as [_ HW].
    apply (HW _ _ Hw), in_fst. apply in_fst in Hx as [b Hb]. exists b. by apply Hs.
Qed.

End data.

Section system.
Context {CO : CopyOps} {RG : RingOps} {RL : RingLaws}.
Context (thrds sockets : Z).

(** ** What is under way *)

Definition copies_of (r : nova_delegation_request) : list copy := default [] (request_copies r).

(** A request or a job: whom to notify, and the bytes left to write. *)
Definition request_item (r : nova_delegation_request) : (nat * Z) * list (Z * byte_source) :=
  (notify_cnt r, flat (copies_of r)).

Definition agent_items (ag : agent) : list ((nat * Z) * list (Z * byte_source)) :=
  match ag with AgJob cs nf => [(nf, flat cs)] | _ => [] end.

Definition node_items (nd : node) : list ((nat * Z) * list (Z * byte_source)) :=
  (request_item <$> queued (nd_ring nd)) ++ agent_items (nd_agent nd).

Definition items (s : dstate) : list ((nat * Z) * list (Z * byte_source)) :=
  nodes s ≫= node_items.

Definition action_writes (a : action) : list (Z * byte_source) :=
  match a with
  | ACopy c => writes c
  | ASend _ r => flat (copies_of r)
  | _ => []
  end.
Definition prog_writes (p : list action) : list (Z * byte_source) := p ≫= action_writes.
Definition action_faults (a : action) : list Z := match a with AFault x => [x] | _ => [] end.
Definition prog_faults (p : list action) : list Z := p ≫= action_faults.

Lemma prog_writes_cons a p : prog_writes (a :: p) = action_writes a ++ prog_writes p.
Proof. done. Qed.
Lemma prog_faults_cons a p : prog_faults (a :: p) = action_faults a ++ prog_faults p.
Proof. done. Qed.

Definition pending (s : dstate) : list (Z * byte_source) :=
  (items s ≫= snd) ++ (clients s ≫= fun c => prog_writes (todo c)).
Definition faults (s : dstate) : list Z := clients s ≫= fun c => prog_faults (todo c).

(** How many requests of thread [nf.1] to socket [nf.2] are under way. *)
Definition outstanding (nf : nat * Z) (its : list ((nat * Z) * list (Z * byte_source))) : Z :=
  Z.of_nat (length (filter (fun it => it.1 = nf) its)).

Definition action_sends (k : Z) (a : action) : nat :=
  match a with ASend k' _ => if k' =? k then 1 else 0 | _ => 0 end.
Definition action_issues (k : Z) (a : action) : nat :=
  match a with AIssue k' => if k' =? k then 1 else 0 | _ => 0 end.
Definition sends (k : Z) (p : list action) : Z := Z.of_nat (sum_list_with (action_sends k) p).
Definition issues (k : Z) (p : list action) : Z := Z.of_nat (sum_list_with (action_issues k) p).

#[export] Instance outstanding_perm nf : Proper ((≡ₚ) ==> (=)) (outstanding nf).
Proof. intros x y E. unfold outstanding. by rewrite E. Qed.

Lemma outstanding_cons nf it its :
  outstanding nf (it :: its) = (if decide (it.1 = nf) then 1 else 0) + outstanding nf its.
Proof.
  unfold outstanding. rewrite filter_cons. destruct (decide (it.1 = nf)); simpl length; lia.
Qed.

Lemma outstanding_zero nf it its :
  outstanding nf its = 0 -> it ∈ its -> it.1 <> nf.
Proof.
  unfold outstanding. intros H Hin E. destruct (filter _ its) as [|x l] eqn:Ef; [|simpl in H; lia].
  assert (Hf : it ∈ filter (fun it => it.1 = nf) its) by (by apply list_elem_of_filter).
  rewrite Ef in Hf. by apply not_elem_of_nil in Hf.
Qed.

(** ** Well-formed threads and nodes *)

Definition socket_ok (k : Z) : Prop := 0 <= k < NOVA_MAX_SOCKET.
Definition is_wait (a : action) : Prop := match a with AWait k => socket_ok k | _ => False end.

(** Thread [n]: a touched byte is written later, a request notifies its
    thread, and nothing is issued once the thread waits. *)
Fixpoint prog_ok (n : nat) (p : list action) : Prop :=
  match p with
  | [] => True
  | a :: p' =>
      match a with
      | AFault x => x ∈ (prog_writes p').*1
      | AIssue k => socket_ok k
      | ASend k r =>
          0 <= k < sockets /\ socket_ok k /\ notify_cnt r = (n, k) /\ is_Some (request_copies r)
      | AWait k => socket_ok k /\ Forall is_wait p'
      | _ => True
      end /\ prog_ok n p'
  end.

Definition notify_ok (s : dstate) (nf : nat * Z) : Prop :=
  (nf.1 < length (clients s))%nat /\ socket_ok nf.2.

Definition node_ok (s : dstate) (nd : node) : Prop :=
  Forall (fun r => is_Some (request_copies r) /\ notify_ok s (notify_cnt r)) (queued (nd_ring nd)) /\
  match nd_agent nd with AgIdle => True | AgJob _ nf => notify_ok s nf | AgStopped => False end.

(** The counters of thread [n]: what was issued is completed, under way, or
    about to be sent; nothing is under way for a socket it has waited for. *)
Record client_ok (its : list ((nat * Z) * list (Z * byte_source))) (n : nat) (c : client) : Prop := {
  cl_prog : prog_ok n (todo c);
  cl_lengths : length (issued_cnt c) = 8%nat /\ length (completed_cnt c) = 8%nat;
  cl_counts k i v :
    socket_ok k -> issued_cnt c !! Z.to_nat k = Some i -> completed_cnt c !! Z.to_nat k = Some v ->
    0 <= v /\ 0 <= i /\ i + issues k (todo c) < TWO31 /\
    outstanding (n, k) its + sends k (todo c) + v = i + issues k (todo c);
  cl_waited k :
    socket_ok k ->
    AWait k ∈ todo c \/
    (outstanding (n, k) its = 0 /\ sends k (todo c) = 0 /\ issues k (todo c) = 0)
}.

Record sys_ok (s : dstate) : Prop := {
  sys_nodes : length (nodes s) = Z.to_nat (sockets * thrds);
  sys_node_ok i nd : nodes s !! i = Some nd -> node_ok s nd;
  sys_client_ok n c : clients s !! n = Some c -> client_ok (items s) n c
}.

Lemma faults_pending s : sys_ok s -> faults s ⊆ (pending s).*1.
Proof.
  intros Hs x Hx. unfold faults in Hx. apply list_elem_of_bind in Hx as (c & Hx & Hc).
  apply list_elem_of_lookup in Hc as [n Hc]. destruct (sys_client_ok _ Hs _ _ Hc) as [Hp _ _ _].
  unfold pending. rewrite fmap_app. apply elem_of_app. right.
  assert (Hw : x ∈ (prog_writes (todo c)).*1).
  { clear Hc. revert Hx Hp. generalize (todo c) as p. intros p. induction p as [|a p IH]; [done|].
    intros Hx [Ha Hp]. unfold prog_writes. rewrite bind_cons, fmap_app. fold (prog_writes p).
    apply elem_of_app. right. unfold prog_faults in Hx. rewrite bind_cons in Hx.
    apply elem_of_app in Hx as [Hx|Hx]; [|by apply IH].
    destruct a; simpl in Hx; try by apply not_elem_of_nil in Hx.
    apply list_elem_of_singleton in Hx as ->. done. }
  apply in_fst in Hw as [b Hb]. apply in_fst. exists b. apply list_elem_of_bind. exists c.
  split; [done|]. by eapply list_elem_of_lookup_2.
Qed.

(** ** Steps of the lists *)

Lemma pending_client s n c c' :
  clients s !! n = Some c ->
  pending (set_client n c' s) ++ prog_writes (todo c) ≡ₚ pending s ++ prog_writes (todo c').
Proof.
  intros H. unfold pending, items. simpl. rewrite <- !app_assoc. f_equiv.
  apply (bind_insert_perm (fun c => prog_writes (todo c)) _ _ _ c' H).
Qed.

Lemma pending_client_same s n c c' :
  clients s !! n = Some c -> prog_writes (todo c') = prog_writes (todo c) ->
  pending (set_client n c' s) ≡ₚ pending s.
Proof.
  intros H E. apply (Permutation_app_inv_r (prog_writes (todo c))).
  by rewrite (pending_client s n c c' H), E.
Qed.

Lemma faults_client s n c c' x :
  clients s !! n = Some c -> x ∈ faults (set_client n c' s) ->
  prog_faults (todo c') ⊆ prog_faults (todo c) -> x ∈ faults s.
Proof.
  intros H Hx Hsub. unfold faults in *. simpl in Hx.
  apply list_elem_of_bind in Hx as (c1 & Hx & Hc). apply list_elem_of_bind.
  apply list_elem_of_lookup in Hc as [j Hj]. apply list_lookup_insert_Some in Hj as [(-> & <- & _)|[_ Hj]].
  - exists c. split; [by apply Hsub|]. by eapply list_elem_of_lookup_2.
  - exists c1. split; [done|]. by eapply list_elem_of_lookup_2.
Qed.

Lemma node_items_agent rg cs nf :
  node_items (Node rg (AgJob cs nf)) ≡ₚ (nf, flat cs) :: node_items (Node rg AgIdle).
Proof. unfold node_items. simpl. rewrite app_nil_r. symmetry. apply Permutation_cons_append. Qed.

(** ** Keeping the system well formed *)

Lemma client_ok_items its its' n c :
  (forall k, outstanding (n, k) its' = outstanding (n, k) its) ->
  client_ok its n c -> client_ok its' n c.
Proof.
  intros E [Hp Hl Hc Hw]. split; [done..| |].
  - intros k i v. rewrite E. apply Hc.
  - intros k. rewrite E. apply Hw.
Qed.

(** A step of the system that concerns thread [n] and leaves the requests of
    the others alone. *)
Lemma sys_move s s' n c c' :
  sys_ok s -> clients s !! n = Some c -> clients s' = <[n := c']> (clients s) ->
  length (nodes s') = length (nodes s) ->
  (forall i nd, nodes s' !! i = Some nd -> node_ok s nd) ->
  (forall n' k, n' <> n -> outstanding (n', k) (items s') = outstanding (n', k) (items s)) ->
  client_ok (items s') n c' -> sys_ok s'.
Proof.
  intros [Hn Hno Hco] Hc Hcs Hlen Hnodes Hout Hc'. split.
  - by rewrite Hlen.
  - intros i nd Hi. specialize (Hnodes _ _ Hi). unfold node_ok, notify_ok in *.
    by rewrite Hcs, length_insert.
  - intros n' c1. rewrite Hcs. intros [(<- & <- & _)|[Hne H1]]%list_lookup_insert_Some; [done|].
    eapply client_ok_items; [|by apply Hco]. intros k. by apply Hout.
Qed.

Lemma sys_client s n c c' m :
  sys_ok s -> clients s !! n = Some c -> client_ok (items s) n c' ->
  sys_ok (set_dmem m (set_client n c' s)).
Proof.
  intros Hs Hc Hc'. eapply (sys_move s _ n c c'); try done. intros i nd. apply Hs.
Qed.

Lemma node_ok_insert s i nd' :
  sys_ok s -> node_ok s nd' -> forall j x, <[i := nd']> (nodes s) !! j = Some x -> node_ok s x.
Proof.
  intros Hs Hn j x [(_ & <- & _)|[_ H]]%list_lookup_insert_Some; [done|]. by eapply Hs.
Qed.

(** A step of a node that leaves all counts. *)
Lemma sys_node s i nd nd' m n :
  sys_ok s -> nodes s !! i = Some nd -> node_ok s nd' -> (n < length (clients s))%nat ->
  (forall nf, outstanding nf (items (set_node i nd' s)) = outstanding nf (items s)) ->
  sys_ok (set_dmem m (set_node i nd' s)).
Proof.
  intros Hs Hi Hn Hlt Hout. destruct (lookup_lt_is_Some_2 _ _ Hlt) as [c Hc].
  apply (sys_move s _ n c c); [done|done|..].
  - simpl. by rewrite list_insert_id.
  - simpl. apply length_insert.
  - by eapply node_ok_insert.
  - intros n' k _. apply Hout.
  - eapply client_ok_items; [|by apply Hs]. intros k. apply Hout.
Qed.

Lemma items_node s i nd nd' it :
  nodes s !! i = Some nd -> node_items nd' ≡ₚ it :: node_items nd ->
  items (set_node i nd' s) ≡ₚ it :: items s.
Proof. apply bind_insert_cons. Qed.

Lemma items_node_same s i nd nd' :
  nodes s !! i = Some nd -> node_items nd' ≡ₚ node_items nd ->
  items (set_node i nd' s) ≡ₚ items s.
Proof. apply bind_insert_same. Qed.

Lemma sends_cons k a p : sends k (a :: p) = Z.of_nat (action_sends k a) + sends k p.
Proof. unfold sends. simpl. lia. Qed.
Lemma issues_cons k a p : issues k (a :: p) = Z.of_nat (action_issues k a) + issues k p.
Proof. unfold issues. simpl. lia. Qed.

Lemma waits_silent k p : Forall is_wait p -> sends k p = 0 /\ issues k p = 0.
Proof.
  intros Hf. induction Hf as [|a p Ha Hp [IH1 IH2]]; [done|]. rewrite sends_cons, issues_cons.
  by destruct a.
Qed.

(** What an action that is neither sent, issued nor waited for leaves. *)
Lemma client_ok_tail its n c a p x :
  client_ok its n c -> todo c = a :: p ->
  (forall k, action_sends k a = 0%nat /\ action_issues k a = 0%nat /\ a <> AWait k) ->
  client_ok its n (Client p x (issued_cnt c) (completed_cnt c)).
Proof.
  intros [Hp Hl Hc Hw] E Ha. rewrite E in *. destruct Hp as [_ Hp]. split; simpl; [done..| |].
  - intros k i v Hk Hi Hv. specialize (Hc k i v Hk Hi Hv). rewrite sends_cons, issues_cons in Hc.
    destruct (Ha k) as (H1 & H2 & _). rewrite H1, H2 in Hc. lia.
  - intros k Hk. destruct (Ha k) as (H1 & H2 & H3).
    destruct (Hw k Hk) as [[H|H]%elem_of_cons|H]; [by subst|by left|].
    right. rewrite sends_cons, issues_cons, H1, H2 in H. lia.
Qed.

End system.
