(* ===== verification/DelegationInv.v ===== *)
(** Every step of the delegation protocol keeps the invariant and either does
    nothing (a thread that spins, an agent without requests) or brings the
    system closer to its end ([cost]). *)

From S2P Require Import Prelude.
From S2P Require Import Kernel.
From S2P Require Import Delegation.
From S2P Require Import DelegationSpec.
From S2P Require Import DelegationSteps.

Section inv.
Context {CO : CopyOps} {RG : RingOps} {RL : RingLaws}.
Context (thrds sockets : Z) (Hthrds : 0 < thrds).
Context (W : list (Z * byte_source)) (m0 : Z -> Z) (HW : writes_once W).

Abbreviation sys_ok := (sys_ok thrds sockets).
Abbreviation prog_ok := (prog_ok sockets).
Abbreviation client_ok := (client_ok sockets).

Record inv (s : dstate) : Prop := {
  inv_sys : sys_ok s;
  inv_data : data_inv W m0 (dmem s) (pending s) (faults s)
}.

(** ** The work that is left *)

Definition action_cost (a : action) : nat :=
  match a with ASend _ r => 3 + length (copies_of r) | _ => 1 end.
Definition prog_cost (p : list action) : nat := sum_list_with action_cost p.
Definition agent_cost (ag : agent) : nat :=
  match ag with AgJob cs _ => 1 + length cs | _ => 0 end.
Definition node_cost (nd : node) : nat :=
  sum_list_with (fun r => 2 + length (copies_of r))%nat (queued (nd_ring nd))
  + agent_cost (nd_agent nd).
Definition cost (s : dstate) : nat :=
  sum_list_with (fun c => prog_cost (todo c)) (clients s) + sum_list_with node_cost (nodes s).

Lemma cost_client s n c c' m :
  clients s !! n = Some c -> (prog_cost (todo c') < prog_cost (todo c))%nat ->
  (cost (set_dmem m (set_client n c' s)) < cost s)%nat.
Proof.
  intros H Hlt. pose proof (sum_insert (fun c => prog_cost (todo c)) _ _ _ c' H).
  unfold cost. simpl in *. lia.
Qed.

Lemma cost_node s i nd nd' m :
  nodes s !! i = Some nd -> (node_cost nd' < node_cost nd)%nat ->
  (cost (set_dmem m (set_node i nd' s)) < cost s)%nat.
Proof.
  intros H Hlt. pose proof (sum_insert node_cost _ _ _ nd' H). unfold cost. simpl in *. lia.
Qed.

(** A step forward. *)
Definition forward (s s' : dstate) : Prop := inv s' /\ (cost s' < cost s)%nat.

(** ** Steps of an application thread *)

Lemma step_quiet s n c a p x :
  inv s -> clients s !! n = Some c -> todo c = a :: p ->
  (forall k, action_sends k a = 0%nat /\ action_issues k a = 0%nat /\ a <> AWait k) ->
  action_writes a = [] -> action_faults a = [] ->
  forward s (set_client n (Client p x (issued_cnt c) (completed_cnt c)) s).
Proof.
  intros [Hs Hd] Hc E Ha Hw Hf. split.
  - split.
    + eapply (sys_client _ _ s n c _ (dmem s)); [done..|]. eapply client_ok_tail; try done. by apply Hs.
    + eapply data_perm; [| |exact Hd].
      * symmetry. eapply pending_client_same; [done|]. by rewrite E, prog_writes_cons, Hw.
      * intros y Hy. eapply faults_client; [done..|]. by rewrite E, prog_faults_cons, Hf.
  - eapply (cost_client s n c _ (dmem s)); [done|]. rewrite E. unfold prog_cost. simpl.
    destruct a; simpl; lia.
Qed.

Lemma step_copy s n c cp p :
  inv s -> clients s !! n = Some c -> todo c = ACopy cp :: p ->
  forward s (set_dmem (run_copy cp (dmem s))
               (set_client n (Client p (copied c) (issued_cnt c) (completed_cnt c)) s)).
Proof.
  intros [Hs Hd] Hc E.
  assert (Hs' : sys_ok (set_dmem (run_copy cp (dmem s))
               (set_client n (Client p (copied c) (issued_cnt c) (completed_cnt c)) s))).
  { eapply sys_client; [done..|]. eapply client_ok_tail; try done. by apply Hs. }
  split; [split; [done|]|].
  - apply data_copy; [done|exact (faults_pending _ _ _ Hs')|]. eapply data_perm; [| |exact Hd].
    + apply (Permutation_app_inv_r (prog_writes p)).
      pose proof (pending_client s n c (Client p (copied c) (issued_cnt c) (completed_cnt c)) Hc) as Hp.
      rewrite E, prog_writes_cons in Hp. cbn [action_writes todo] in Hp.
      rewrite <- Hp, app_assoc. f_equiv. apply Permutation_app_comm.
    + intros y Hy. eapply faults_client; [exact Hc|exact Hy|]. by rewrite E, prog_faults_cons.
  - eapply cost_client; [done|]. rewrite E. unfold prog_cost. simpl. lia.
Qed.

Lemma step_fault s n c a p :
  inv s -> clients s !! n = Some c -> todo c = AFault a :: p ->
  forward s (set_dmem (run_copy (Copy a (Fill 0) 1) (dmem s))
               (set_client n (Client p (copied c) (issued_cnt c) (completed_cnt c)) s)).
Proof.
  intros [Hs Hd] Hc E. split; [split|].
  - eapply sys_client; [done..|]. eapply client_ok_tail; try done. by apply Hs.
  - apply data_fault; [done|]. eapply data_perm; [| |exact Hd].
    + symmetry. eapply pending_client_same; [done|]. by rewrite E.
    + intros y [->|Hy]%elem_of_cons.
      * unfold faults. apply list_elem_of_bind. exists c. rewrite E. split; [left|].
        by eapply list_elem_of_lookup_2.
      * eapply faults_client; [exact Hc|exact Hy|]. rewrite E, prog_faults_cons.
        intros z Hz. by right.
  - eapply cost_client; [done|]. rewrite E. unfold prog_cost. simpl. lia.
Qed.

Lemma step_issue s n c k p i :
  inv s -> clients s !! n = Some c -> todo c = AIssue k :: p ->
  issued_cnt c !! Z.to_nat k = Some i ->
  forward s (set_client n (Client p (copied c) (<[Z.to_nat k := s64 (i + 1)]> (issued_cnt c))
                            (completed_cnt c)) s).
Proof.
  intros [Hs Hd] Hc E Hi. destruct (sys_client_ok _ _ _ Hs _ _ Hc) as [Hp [Hl1 Hl2] Hcnt Hw].
  rewrite E in Hp, Hcnt, Hw. destruct Hp as [Hk Hp]. split; [split|].
  - eapply (sys_client _ _ s n c _ (dmem s)); [done..|]. split; simpl; [done| | |].
    + by rewrite length_insert.
    + intros k' j v Hk' Hj Hv. destruct (Z.eq_dec k' k) as [->|Hne].
      * rewrite list_lookup_insert_eq in Hj by (unfold socket_ok, NOVA_MAX_SOCKET in *; lia).
        injection Hj as <-. specialize (Hcnt k i v Hk Hi Hv).
        rewrite sends_cons, issues_cons in Hcnt. simpl in Hcnt. rewrite Z.eqb_refl in Hcnt.
        unfold issues in Hcnt |- *. rewrite s64_small by lia. lia.
      * unfold socket_ok in *. rewrite list_lookup_insert_ne in Hj by lia.
        specialize (Hcnt k' j v Hk' Hj Hv). rewrite sends_cons, issues_cons in Hcnt. simpl in Hcnt.
        by rewrite (proj2 (Z.eqb_neq k k') (not_eq_sym Hne)) in Hcnt.
    + intros k' Hk'. destruct (Hw k' Hk') as [[H|H]%elem_of_cons|H]; [done|by left|].
      right. rewrite sends_cons, issues_cons in H. simpl in H. unfold issues in *.
      destruct (k =? k'); lia.
  - eapply data_perm; [| |exact Hd].
    + symmetry. eapply pending_client_same; [done|]. by rewrite E.
    + intros y Hy. eapply faults_client; [exact Hc|exact Hy|]. by rewrite E, prog_faults_cons.
  - eapply (cost_client s n c _ (dmem s)); [done|]. rewrite E. unfold prog_cost. simpl. lia.
Qed.

Lemma step_wait s n c k p i :
  inv s -> clients s !! n = Some c -> todo c = AWait k :: p ->
  issued_cnt c !! Z.to_nat k = Some i -> completed_cnt c !! Z.to_nat k = Some i ->
  forward s (set_client n (Client p (copied c) (issued_cnt c) (completed_cnt c)) s).
Proof.
  intros [Hs Hd] Hc E Hi Hv. destruct (sys_client_ok _ _ _ Hs _ _ Hc) as [Hp Hl Hcnt Hw].
  rewrite E in Hp, Hcnt, Hw. destruct Hp as [[Hk Hwt] Hp]. split; [split|].
  - eapply (sys_client _ _ s n c _ (dmem s)); [done..|]. split; simpl; [done..| |].
    + intros k' j v Hk' Hj Hv'. specialize (Hcnt k' j v Hk' Hj Hv').
      by rewrite sends_cons, issues_cons in Hcnt.
    + intros k' Hk'. destruct (Hw k' Hk') as [[[= ->]|H]%elem_of_cons|H]; [|by left|].
      * right. destruct (waits_silent k p Hwt) as [H1 H2]. specialize (Hcnt k i i Hk Hi Hv).
        rewrite sends_cons, issues_cons in Hcnt. simpl in Hcnt. lia.
      * right. by rewrite sends_cons, issues_cons in H.
  - eapply data_perm; [| |exact Hd].
    + symmetry. eapply pending_client_same; [done|]. by rewrite E.
    + intros y Hy. eapply faults_client; [exact Hc|exact Hy|]. by rewrite E, prog_faults_cons.
  - eapply (cost_client s n c _ (dmem s)); [done|]. rewrite E. unfold prog_cost. simpl. lia.
Qed.

Lemma step_send s n c k r p i nd rg x :
  inv s -> clients s !! n = Some c -> todo c = ASend k r :: p ->
  nodes s !! i = Some nd -> queued rg = queued (nd_ring nd) ++ [r] ->
  forward s (set_client n (Client p x (issued_cnt c) (completed_cnt c))
               (set_node i (Node rg (nd_agent nd)) s)).
Proof.
  intros [Hs Hd] Hc E Hi Hq. destruct (sys_client_ok _ _ _ Hs _ _ Hc) as [Hp Hl Hcnt Hw].
  rewrite E in Hp, Hcnt, Hw. destruct Hp as [(Hks & Hk & Hnf & Hr) Hp].
  assert (Hit : items (set_node i (Node rg (nd_agent nd)) s) ≡ₚ request_item r :: items s).
  { apply (items_node s i nd); [done|]. unfold node_items. simpl. rewrite Hq, fmap_app. simpl.
    rewrite <- app_assoc. symmetry. apply Permutation_middle. }
  set (s1 := set_node i (Node rg (nd_agent nd)) s) in *.
  set (c' := Client p x (issued_cnt c) (completed_cnt c)).
  assert (Hout : forall n' k', outstanding (n', k') (items (set_client n c' s1))
    = (if decide (notify_cnt r = (n', k')) then 1 else 0) + outstanding (n', k') (items s)).
  { intros n' k'. change (items (set_client n c' s1)) with (items s1).
    rewrite Hit, outstanding_cons. done. }
  split; [split|].
  - apply (sys_move _ _ s _ n c c'); [done|done|done|apply length_insert| | |].
    + eapply node_ok_insert; [done|]. destruct (sys_node_ok _ _ _ Hs _ _ Hi) as [H1 H2].
      split; [|done]. simpl. rewrite Hq. apply Forall_app. split; [done|].
      apply Forall_singleton. split; [done|]. unfold notify_ok. rewrite Hnf.
      split; [by eapply lookup_lt_Some|done].
    + intros n' k' Hne. rewrite Hout, Hnf. rewrite decide_False by congruence. done.
    + split; simpl; [done..| |].
      * intros k' j v Hk' Hj Hv. specialize (Hcnt k' j v Hk' Hj Hv). rewrite Hout, Hnf.
        rewrite sends_cons, issues_cons in Hcnt. simpl in Hcnt.
        destruct (Z.eqb_spec k k') as [->|Hne].
        -- rewrite decide_True by done. lia.
        -- rewrite decide_False by congruence. lia.
      * intros k' Hk'. destruct (Hw k' Hk') as [[H|H]%elem_of_cons|H]; [done|by left|].
        right. rewrite Hout, Hnf. rewrite sends_cons, issues_cons in H. simpl in H.
        destruct (Z.eqb_spec k k') as [->|Hne]; [unfold sends in H; lia|].
        rewrite decide_False by congruence. lia.
  - eapply data_perm; [| |exact Hd].
    + apply (Permutation_app_inv_r (prog_writes (todo c))).
      rewrite (pending_client s1 n c c') by done. rewrite E, prog_writes_cons. simpl.
      unfold pending. rewrite Hit, bind_cons. simpl. rewrite <- !app_assoc.
      rewrite (Permutation_app_comm (flat (copies_of r)) (prog_writes p)).
      rewrite !app_assoc. rewrite Permutation_app_comm. by rewrite !app_assoc.
    + intros y Hy. eapply (faults_client s1 n c); [exact Hc|exact Hy|].
      by rewrite E, prog_faults_cons.
  - pose proof (sum_insert (fun c => prog_cost (todo c)) _ _ _ c' Hc) as H1.
    pose proof (sum_insert node_cost _ _ _ (Node rg (nd_agent nd)) Hi) as H2.
    unfold node_cost at 2 4 in H2. simpl in H1, H2. rewrite E, Hq, sum_list_with_app in *.
    unfold cost. simpl in *. lia.
Qed.

(** ** Steps of an agent *)

Lemma step_dequeue s i nd r q cs rg :
  inv s -> nodes s !! i = Some nd -> nd_agent nd = AgIdle ->
  queued (nd_ring nd) = r :: q -> queued rg = q -> request_copies r = Some cs ->
  forward s (set_node i (Node rg (AgJob cs (notify_cnt r))) s).
Proof.
  intros [Hs Hd] Hi Hag Hq Hrg Hr. destruct (sys_node_ok _ _ _ Hs _ _ Hi) as [Hf _].
  rewrite Hq in Hf. apply Forall_cons in Hf as [[_ Hnf] Hf].
  assert (Hcs : copies_of r = cs) by (unfold copies_of; by rewrite Hr).
  assert (Hit : items (set_node i (Node rg (AgJob cs (notify_cnt r))) s) ≡ₚ items s).
  { apply (items_node_same s i nd); [done|]. rewrite node_items_agent by done.
    unfold node_items. rewrite Hag, Hq. simpl. rewrite !app_nil_r, Hrg. unfold request_item.
    by rewrite Hcs. }
  split; [split|].
  - apply (sys_node _ _ s i nd _ (dmem s) (notify_cnt r).1); [done|done| |apply Hnf|].
    + split; [|done]. simpl. by rewrite Hrg.
    + intros nf. by rewrite Hit.
  - eapply data_perm; [| |exact Hd]; [|done]. unfold pending. by rewrite Hit.
  - eapply (cost_node s i nd _ (dmem s)); [done|]. unfold node_cost. rewrite Hag, Hq. simpl.
    rewrite Hrg, Hcs. lia.
Qed.

Lemma step_work s i nd cp cs nf :
  inv s -> nodes s !! i = Some nd -> nd_agent nd = AgJob (cp :: cs) nf ->
  forward s (set_dmem (run_copy cp (dmem s)) (set_node i (Node (nd_ring nd) (AgJob cs nf)) s)).
Proof.
  intros [Hs Hd] Hi Hag. destruct (sys_node_ok _ _ _ Hs _ _ Hi) as [Hf Hnf]. rewrite Hag in Hnf.
  set (s1 := set_node i (Node (nd_ring nd) (AgJob cs nf)) s).
  destruct nd as [rg ag]; simpl in *. subst ag.
  assert (Hrest : exists rest, items s ≡ₚ (nf, flat (cp :: cs)) :: rest /\
                               items s1 ≡ₚ (nf, flat cs) :: rest).
  { exists (items (set_node i (Node rg AgIdle) s)). split.
    - rewrite <- (items_node (set_node i (Node rg AgIdle) s) i (Node rg AgIdle)
        (Node rg (AgJob (cp :: cs) nf))).
      + unfold items. simpl. by rewrite list_insert_insert_eq, list_insert_id.
      + simpl. rewrite list_lookup_insert_eq; [done|]. by eapply lookup_lt_Some.
      + by apply node_items_agent.
    - rewrite <- (items_node (set_node i (Node rg AgIdle) s) i (Node rg AgIdle)
        (Node rg (AgJob cs nf))).
      + unfold items. simpl. by rewrite list_insert_insert_eq.
      + simpl. rewrite list_lookup_insert_eq; [done|]. by eapply lookup_lt_Some.
      + by apply node_items_agent. }
  destruct Hrest as (rest & E & E1).
  assert (Hs1 : sys_ok (set_dmem (run_copy cp (dmem s)) s1)).
  { apply (sys_node _ _ s i (Node rg (AgJob (cp :: cs) nf)) _ _ nf.1); [done|done|done|apply Hnf|].
    intros nf'. change (set_node i (Node rg (AgJob cs nf)) s) with s1.
    by rewrite E, E1, !outstanding_cons. }
  split; [split; [done|]|].
  - apply data_copy; [done|exact (faults_pending _ _ _ Hs1)|]. eapply data_perm; [| |exact Hd].
    + unfold pending. change (items (set_dmem _ s1)) with (items s1). rewrite E, E1, !bind_cons.
      cbn [snd]. rewrite flat_cons. by rewrite <- !app_assoc.
    + done.
  - eapply cost_node; [exact Hi|]. unfold node_cost. simpl. lia.
Qed.

Lemma step_notify s i nd nf :
  inv s -> nodes s !! i = Some nd -> nd_agent nd = AgJob [] nf ->
  exists s', atomic_inc nf (set_node i (Node (nd_ring nd) AgIdle) s) = Some s' /\ forward s s'.
Proof.
  intros [Hs Hd] Hi Hag. destruct (sys_node_ok _ _ _ Hs _ _ Hi) as [Hf Hnf]. rewrite Hag in Hnf.
  destruct nd as [rg ag]; simpl in *. subst ag. destruct nf as [n k]. destruct Hnf as [Hn Hk].
  simpl in *. destruct (lookup_lt_is_Some_2 _ _ Hn) as [c Hc].
  destruct (sys_client_ok _ _ _ Hs _ _ Hc) as [Hp [Hl1 Hl2] Hcnt Hw].
  destruct (lookup_lt_is_Some_2 (completed_cnt c) (Z.to_nat k)) as [v Hv].
  { unfold socket_ok, NOVA_MAX_SOCKET in Hk. lia. }
  destruct (lookup_lt_is_Some_2 (issued_cnt c) (Z.to_nat k)) as [j Hj].
  { unfold socket_ok, NOVA_MAX_SOCKET in Hk. lia. }
  set (s1 := set_node i (Node rg AgIdle) s).
  assert (E : items s ≡ₚ ((n, k), []) :: items s1).
  { rewrite <- (items_node s1 i (Node rg AgIdle) (Node rg (AgJob [] (n, k)))).
    - unfold items, s1. simpl. by rewrite list_insert_insert_eq, list_insert_id.
    - simpl. rewrite list_lookup_insert_eq; [done|]. by eapply lookup_lt_Some.
    - by apply node_items_agent. }
  unfold atomic_inc. simpl. rewrite Hc. simpl. rewrite Hv. simpl.
  set (c' := Client _ _ _ _). eexists. split; [done|].
  assert (Hout : forall n' k', outstanding (n', k') (items s)
    = (if decide ((n, k) = (n', k')) then 1 else 0) + outstanding (n', k') (items s1)).
  { intros n' k'. by rewrite E, outstanding_cons. }
  split; [split|].
  - apply (sys_move _ _ s _ n c c'); [done|done|done|apply length_insert| | |].
    + by eapply node_ok_insert.
    + intros n' k' Hne. rewrite Hout, decide_False by congruence. done.
    + change (items (set_client n c' s1)) with (items s1). split; simpl; [done| | |].
      * by rewrite length_insert.
      * intros k' j' v' Hk' Hj' Hv'. destruct (Z.eq_dec k' k) as [->|Hne].
        -- rewrite list_lookup_insert_eq in Hv' by (unfold socket_ok, NOVA_MAX_SOCKET in *; lia).
           injection Hv' as <-. specialize (Hcnt k j' v Hk' Hj' Hv).
           rewrite Hout, decide_True in Hcnt by done. unfold outstanding, sends in Hcnt |- *.
           rewrite s32_small by lia. lia.
        -- unfold socket_ok in *. rewrite list_lookup_insert_ne in Hv' by lia.
           specialize (Hcnt k' j' v' Hk' Hj' Hv').
           by rewrite Hout, decide_False in Hcnt by congruence.
      * intros k' Hk'. destruct (Hw k' Hk') as [H|H]; [by left|right]. rewrite Hout in H.
        unfold outstanding in *. destruct (decide _); lia.
  - eapply data_perm; [| |exact Hd].
    + rewrite (pending_client_same s1 n c c') by done. unfold pending. by rewrite E, bind_cons.
    + intros y Hy. by eapply (faults_client s1 n c); [exact Hc|exact Hy|].
  - pose proof (sum_insert (fun c => prog_cost (todo c)) _ _ _ c' Hc) as H1.
    pose proof (sum_insert node_cost _ _ _ (Node rg AgIdle) Hi) as H2.
    unfold node_cost at 2 4 in H2. unfold cost. simpl in *. lia.
Qed.

(** ** Every step *)

Lemma set_node_id s i nd : nodes s !! i = Some nd -> set_node i nd s = s.
Proof. intros H. unfold set_node. rewrite list_insert_id by done. by destruct s. Qed.

(** An agent step makes progress unless the node holds nothing. *)
Lemma agent_step_ok s i nd :
  inv s -> nodes s !! i = Some nd ->
  exists s', agent_step i s = Some s' /\ (forward s s' \/ s' = s /\ node_items nd = []).
Proof.
  intros Hinv Hi. unfold agent_step, nova_recv_request. rewrite Hi. simpl.
  destruct (sys_node_ok _ _ _ (inv_sys _ Hinv) _ _ Hi) as [Hf Hag].
  destruct (nd_agent nd) as [|[|cp cs] nf|] eqn:Ea; [| |by eexists; split; [done|left; by apply step_work]|done].
  2:{ destruct (step_notify s i nd nf Hinv Hi Ea) as (s' & -> & H). eexists. split; [done|by left]. }
  pose proof (dequeue_queued (nd_ring nd)) as Hdq.
  destruct (queued (nd_ring nd)) as [|r q] eqn:Eq.
  - rewrite Hdq. simpl. eexists. split; [done|right]. split.
    + apply set_node_id. rewrite Hi. destruct nd. simpl in *. by subst.
    + unfold node_items. by rewrite Eq, Ea.
  - destruct Hdq as (rg & -> & Hrg). apply Forall_cons in Hf as [[[cs Hr] _] _]. simpl.
    rewrite Hr. simpl. eexists. split; [done|left]. by eapply step_dequeue.
Qed.

Lemma items_nil s : items s = [] <-> forall i nd, nodes s !! i = Some nd -> node_items nd = [].
Proof.
  unfold items. split.
  - intros E i nd Hi. destruct (node_items nd) as [|it l] eqn:En; [done|].
    assert (Hin : it ∈ nodes s ≫= node_items).
    { apply list_elem_of_bind. exists nd. rewrite En. split; [left|]. by eapply list_elem_of_lookup_2. }
    rewrite E in Hin. by apply not_elem_of_nil in Hin.
  - intros H. destruct (nodes s ≫= node_items) as [|it l] eqn:E; [done|].
    assert (Hin : it ∈ nodes s ≫= node_items) by (rewrite E; left).
    apply list_elem_of_bind in Hin as (nd & Hin & [i Hi]%list_elem_of_lookup). rewrite (H _ _ Hi) in Hin.
    by apply not_elem_of_nil in Hin.
Qed.

(** A thread makes progress unless it is done or requests are under way. *)
Lemma client_step_ok s n c rnd :
  inv s -> clients s !! n = Some c ->
  exists s', client_step thrds n rnd s = Some s' /\
    (forward s s' \/ s' = s /\ (todo c = [] \/ items s <> [])).
Proof.
  intros Hinv Hc. unfold client_step, nova_send_request. rewrite Hc. simpl.
  destruct (sys_client_ok _ _ _ (inv_sys _ Hinv) _ _ Hc) as [Hp [Hl1 Hl2] Hcnt Hw].
  assert (Hget : forall l k, length l = 8%nat -> socket_ok k -> exists v : Z, l !! Z.to_nat k = Some v).
  { intros l k Hl Hk. apply lookup_lt_is_Some_2. unfold socket_ok, NOVA_MAX_SOCKET in Hk. lia. }
  destruct (todo c) as [|a p] eqn:E; [by eexists; split; [done|right; split; [done|left]]|].
  destruct a as [cp|x|k|k r|u|k]; destruct Hp as [Ha Hp].
  - eexists. split; [done|left]. by apply step_copy.
  - eexists. split; [done|left]. by apply step_fault.
  - destruct (Hget _ _ Hl1 Ha) as [v Hv]. rewrite Hv. simpl. eexists. split; [done|left].
    by eapply step_issue.
  - destruct Ha as (Hks & Hk & Hnf & Hr). unfold nova_choose_rings.
    pose proof (Z.mod_pos_bound rnd thrds Hthrds).
    destruct (lookup_lt_is_Some_2 (nodes s) (Z.to_nat (k * thrds + rnd mod thrds))) as [nd Hi].
    { rewrite (sys_nodes _ _ _ (inv_sys _ Hinv)). apply Z2Nat.inj_lt; nia. }
    rewrite Hi. simpl. destruct (enqueue_queued (nd_ring nd) r) as [(rg & -> & Hq)|[-> Hq]]; simpl.
    + eexists. split; [done|left]. by eapply step_send.
    + eexists. split; [done|right]. split.
      * apply set_node_id. by destruct nd.
      * right. intros Hn. rewrite items_nil in Hn. specialize (Hn _ _ Hi). unfold node_items in Hn.
        destruct (queued (nd_ring nd)); [done|]. simpl in Hn. done.
  - eexists. split; [done|left]. by eapply step_quiet.
  - destruct Ha as [Hk Hwt]. destruct (Hget _ _ Hl1 Hk) as [i Hi], (Hget _ _ Hl2 Hk) as [v Hv].
    rewrite Hi, Hv. simpl. eexists. split; [done|].
    destruct (Z.eqb_spec i v) as [<-|Hne]; [left; by eapply step_wait|right].
    split; [done|right]. intros Hn. specialize (Hcnt k i v Hk Hi Hv). rewrite Hn in Hcnt.
    destruct (waits_silent k p Hwt) as [H1 H2]. rewrite sends_cons, issues_cons in Hcnt.
    unfold outstanding in Hcnt. simpl in Hcnt. lia.
Qed.

(** ** Runs *)

Definition event_ok (s : dstate) (e : event) : Prop :=
  match e with
  | EClient n _ => (n < length (clients s))%nat
  | EAgent i => (i < length (nodes s))%nat
  end.

(** Nothing [e] stands for is left to do in [s]. *)
Definition blocked (s : dstate) (e : event) : Prop :=
  match e with
  | EClient n _ => forall c, clients s !! n = Some c -> todo c = [] \/ items s <> []
  | EAgent i => forall nd, nodes s !! i = Some nd -> node_items nd = []
  end.

Lemma step_ok s e :
  inv s -> event_ok s e ->
  exists s', step thrds e s = Some s' /\ (forward s s' \/ s' = s /\ blocked s e).
Proof.
  intros Hinv He. destruct e as [n rnd|i]; simpl in He.
  - destruct (lookup_lt_is_Some_2 _ _ He) as [c Hc].
    destruct (client_step_ok s n c rnd Hinv Hc) as (s' & E & H). exists s'. split; [done|].
    destruct H as [H|[-> H]]; [by left|right]. split; [done|]. intros c' Hc'. by simplify_eq.
  - destruct (lookup_lt_is_Some_2 _ _ He) as [nd Hi].
    destruct (agent_step_ok s i nd Hinv Hi) as (s' & E & H). exists s'. split; [done|].
    destruct H as [H|[-> H]]; [by left|right]. split; [done|]. intros nd' Hi'. by simplify_eq.
Qed.

(** The cases of a step of a thread or an agent. *)
Ltac step_cases E :=
  unfold client_step, agent_step, atomic_inc in E;
  repeat first [progress simplify_option_eq | case_match].

Lemma step_lengths s e s' :
  step thrds e s = Some s' ->
  length (clients s') = length (clients s) /\ length (nodes s') = length (nodes s).
Proof.
  destruct e as [n rnd|i]; simpl; intros E; step_cases E; simpl; by rewrite ?length_insert.
Qed.

Lemma run_app evs evs' s : run thrds (evs ++ evs') s = run thrds evs s ≫= run thrds evs'.
Proof.
  revert s. induction evs as [|e evs IH]; intros s; [done|]. simpl.
  destruct (step thrds e s); [apply IH|done].
Qed.

(** A run never gets stuck; it comes closer to the end, or nothing happened in
    it and every event of it was blocked. *)
Lemma run_ok evs s :
  inv s -> Forall (event_ok s) evs ->
  exists s', run thrds evs s = Some s' /\ inv s' /\
    length (clients s') = length (clients s) /\ length (nodes s') = length (nodes s) /\
    ((cost s' < cost s)%nat \/ s' = s /\ Forall (blocked s) evs).
Proof.
  revert s. induction evs as [|e evs IH]; intros s Hinv He; simpl.
  { exists s. split_and!; [done..|right]. by split. }
  apply Forall_cons in He as [He Hes]. destruct (step_ok s e Hinv He) as (s1 & E & H).
  destruct (step_lengths _ _ _ E) as [Hl1 Hl2]. rewrite E. simpl.
  assert (Hinv1 : inv s1) by (destruct H as [[H _]|[-> _]]; done).
  destruct (IH s1 Hinv1) as (s' & E' & Hinv' & Hl1' & Hl2' & H').
  { eapply Forall_impl; [exact Hes|]. intros [n r|i]; simpl; lia. }
  exists s'. split_and!; [done|done|lia|lia|].
  destruct H as [[_ H]|[-> H]], H' as [H'|[-> H']]; try (left; lia).
  right. split; [done|]. by constructor.
Qed.

(** A round in which every thread and every agent gets a turn. *)
Definition fair_round (s : dstate) (evs : list event) : Prop :=
  Forall (event_ok s) evs /\
  (forall n, (n < length (clients s))%nat -> exists rnd, EClient n rnd ∈ evs) /\
  (forall i, (i < length (nodes s))%nat -> EAgent i ∈ evs).

Definition all_returned (s : dstate) : Prop :=
  forall n c, clients s !! n = Some c -> todo c = [].

Lemma fair_round_progress s evs :
  fair_round s evs -> Forall (blocked s) evs -> all_returned s.
Proof.
  intros (_ & Hcl & Hag) Hb n c Hc. rewrite Forall_forall in Hb.
  assert (Hit : items s = []).
  { apply items_nil. intros i nd Hi. apply (Hb (EAgent i)); [|done]. apply Hag.
    by eapply lookup_lt_Some. }
  destruct (Hcl n) as [rnd Hin]; [by eapply lookup_lt_Some|].
  by destruct (Hb _ Hin c Hc) as [H|H].
Qed.

Lemma returned_stays evs s s' :
  run thrds evs s = Some s' -> inv s -> Forall (event_ok s) evs ->
  forall n c, clients s !! n = Some c -> todo c = [] ->
  exists c', clients s' !! n = Some c' /\ todo c' = [].
Proof.
  assert (Hstep : forall e s s', step thrds e s = Some s' ->
    forall n c, clients s !! n = Some c -> todo c = [] ->
    exists c', clients s' !! n = Some c' /\ todo c' = []).
  { clear. intros e s s' E n c Hc Ht. destruct (clients s' !! n) as [c'|] eqn:Hc'.
    2:{ apply lookup_ge_None in Hc'. destruct (step_lengths _ _ _ E) as [El _].
        apply lookup_lt_Some in Hc. lia. }
    exists c'. split; [done|].
    destruct e as [n' rnd|i]; simpl in E; step_cases E; simpl in *;
      try (apply list_lookup_insert_Some in Hc' as [(? & ? & ?)|[? ?]]); simplify_eq; simpl; congruence. }
  revert s. induction evs as [|e evs IH]; intros s E Hinv He n c Hc Ht; simpl in E.
  { injection E as <-. by exists c. }
  apply bind_Some in E as (s1 & E1 & E). apply Forall_cons in He as [He Hes].
  destruct (step_ok s e Hinv He) as (s1' & E1' & H). simplify_eq.
  destruct (Hstep _ _ _ E1 n c Hc Ht) as (c1 & Hc1 & Ht1).
  destruct (step_lengths _ _ _ E1) as [Hl1 Hl2].
  eapply (IH s1); [done| | |done|done].
  - destruct H as [[H _]|[-> _]]; done.
  - eapply Forall_impl; [exact Hes|]. intros [m r|i]; simpl; lia.
Qed.

(** Enough fair rounds bring every thread to its end. *)
Lemma rounds_return rounds s :
  inv s -> Forall (fair_round s) rounds -> (cost s < length rounds)%nat ->
  exists s', run thrds (concat rounds) s = Some s' /\ inv s' /\ all_returned s'.
Proof.
  revert s. induction rounds as [|evs rounds IH]; intros s Hinv Hr Hc; [simpl in Hc; lia|].
  apply Forall_cons in Hr as [Hf Hr]. pose proof Hf as (Hev & _).
  assert (Hmono : forall s1, length (clients s1) = length (clients s) ->
    length (nodes s1) = length (nodes s) -> Forall (fair_round s1) rounds).
  { intros s1 E1 E2. eapply Forall_impl; [exact Hr|]. intros l (H1 & H2 & H3). split_and!.
    - eapply Forall_impl; [exact H1|]. intros [m r|i]; simpl; lia.
    - intros n Hn. apply H2. lia.
    - intros i Hi. apply H3. lia. }
  destruct (run_ok evs s Hinv Hev) as (s1 & E & Hinv1 & Hl1 & Hl2 & H). simpl.
  destruct H as [H|[-> H]].
  - simpl in Hc. destruct (IH s1 Hinv1 (Hmono _ Hl1 Hl2)) as (s' & E' & H'); [lia|].
    exists s'. split; [|done]. rewrite run_app, E. done.
  - pose proof (fair_round_progress s evs Hf H) as Hall.
    assert (Hev' : Forall (event_ok s) (concat rounds)).
    { apply Forall_concat. eapply Forall_impl; [exact Hr|]. by intros l (H1 & _). }
    destruct (run_ok (concat rounds) s Hinv Hev') as (s' & E' & Hinv' & Hl1' & _).
    exists s'. split_and!; [by rewrite run_app, E|done|]. intros n c Hcn.
    destruct (lookup_lt_is_Some_2 (clients s) n) as [c0 Hc0].
    { rewrite <- Hl1'. by eapply lookup_lt_Some. }
    destruct (returned_stays _ _ _ E' Hinv Hev' n c0 Hc0 (Hall _ _ Hc0)) as (c1 & ? & ?).
    by simplify_eq.
Qed.

End inv.
