(* ===== verification/DelegationStart.v ===== *)
(** Where a run starts: what the calls of a thread write ([call_writes]), and
    that the program of a thread is exactly that work, ready to run.  The
    writes of a thread stay with it: in its program, in the requests that
    notify it, in the jobs that notify it ([owned]). *)

From S2P Require Import Prelude.
From S2P Require Import Kernel.
From S2P Require Import Delegation.
From S2P Require Import DelegationSpec.
From S2P Require Import AgentTasks.
From S2P Require Import DelegationSteps.
From S2P Require Import DelegationInv.

Section start.
Context {CO : CopyOps} {PL : PageLaws} {RG : RingOps} {RL : RingLaws}.
Context (thrds sockets : Z) (Hthrds : 0 < thrds).

(** ** What a call writes *)

Definition call_byte (c : nvmm_call) (k : Z) : Z * byte_source :=
  match c_type c with
  | NOVA_REQUEST_WRITE =>
      (c_kmem c + k, if c_zero c then BVal 0 else BMem (c_ubuf c + k))
  | NOVA_REQUEST_READ =>
      (user_byte (c_mm c) (c_ubuf c + k), if c_zero c then BVal 0 else BMem (c_kmem c + k))
  end.
Definition call_writes (c : nvmm_call) : list (Z * byte_source) :=
  call_byte c <$> seqZ 0 (c_bytes c).

(** A call within the address space; a page of zeros is a whole number of
    words, and a read is of mapped memory, of at most twelve pages. *)
Record call_ok (c : nvmm_call) : Prop := {
  call_socket : 0 <= c_socket c < sockets;
  call_bytes : 0 <= c_bytes c < TWO31;
  call_ubuf : 0 <= c_ubuf c /\ c_ubuf c + c_bytes c + PAGE_SIZE < TWO63;
  call_kmem : 0 <= c_kmem c /\ c_kmem c + c_bytes c < TWO64;
  call_write : c_type c = NOVA_REQUEST_WRITE -> c_zero c = true -> c_bytes c mod 4 = 0;
  call_read : c_type c = NOVA_REQUEST_READ ->
    mapped (c_mm c) (c_ubuf c) (c_bytes c) /\
    c_ubuf c mod PAGE_SIZE + c_bytes c <= NOVA_AGENT_TASK_MAX_SIZE * PAGE_SIZE
}.

Lemma prog_writes_app p p' : prog_writes (p ++ p') = prog_writes p ++ prog_writes p'.
Proof. apply bind_app. Qed.

Lemma prog_writes_copies cs u : prog_writes ((ACopy <$> cs) ++ [ARet u]) = flat cs.
Proof.
  rewrite prog_writes_app. simpl. rewrite app_nil_r.
  induction cs as [|c cs IH]; [done|]. rewrite fmap_cons, prog_writes_cons, flat_cons. by rewrite IH.
Qed.

(** The prefault loop touches bytes of the buffer. *)
Lemma prefault_touches n mm uaddr bytes i :
  no_faults -> 0 <= uaddr -> 0 < bytes -> uaddr + bytes < TWO63 ->
  uaddr <= i -> i + PAGE_SIZE * Z.of_nat n < TWO64 ->
  exists xs, prefault_loop n mm uaddr bytes i = (AFault <$> xs, 0) /\
    forall x, x ∈ xs -> exists k, 0 <= k < bytes /\ x = user_byte mm (uaddr + k).
Proof.
  intros (_ & Hf & _) Hu Hb Hub. revert i. unfold PAGE_SIZE.
  induction n as [|n IH]; intros i Hi Hn; cbn [prefault_loop].
  { exists []. split; [done|]. by intros x ?%not_elem_of_nil. }
  rewrite Hf. simpl negb. cbv iota. unfold PAGE_SIZE. rewrite (u64_small (i + 4096)) by lia.
  destruct (IH (i + 4096)) as (xs & -> & Hx); [lia..|].
  eexists (_ :: xs). split; [done|]. intros x [->|Hin]%elem_of_cons; [|by apply Hx].
  rewrite u64_small by lia. destruct (Z.ltb_spec (uaddr + bytes - 1) i).
  - exists (bytes - 1). split; [lia|]. f_equal. lia.
  - exists (i - uaddr). split; [lia|]. f_equal. lia.
Qed.

(** The program of a call: its bytes, in order, and one request at most. *)
Record call_prog (n : nat) (c : nvmm_call) (p : list action) : Prop := {
  cp_writes : prog_writes p = call_writes c;
  cp_ok rest : prog_ok sockets n rest -> prog_ok sockets n (p ++ rest);
  cp_counts k : sends k p = issues k p /\ issues k p <= 1
}.

Lemma copies_prog n c cs u :
  flat cs = call_writes c -> call_prog n c ((ACopy <$> cs) ++ [ARet u]).
Proof.
  intros Hw. split.
  - by rewrite prog_writes_copies.
  - intros rest Hr. rewrite <- app_assoc. clear Hw. induction cs as [|cp cs IH]; simpl; by split.
  - intros k. assert (H : sends k ((ACopy <$> cs) ++ [ARet u]) = 0 /\
                          issues k ((ACopy <$> cs) ++ [ARet u]) = 0); [|lia].
    clear Hw. induction cs as [|cp cs [IH1 IH2]]; [done|]. rewrite fmap_cons. simpl app.
    by rewrite sends_cons, issues_cons, IH1, IH2.
Qed.

Lemma request_prog n c xs r :
  0 <= c_socket c < sockets -> sockets <= NOVA_MAX_SOCKET ->
  notify_cnt r = (n, c_socket c) -> is_Some (request_copies r) ->
  flat (copies_of r) = call_writes c -> (forall x, x ∈ xs -> x ∈ (call_writes c).*1) ->
  call_prog n c ((AFault <$> xs) ++ [AIssue (c_socket c); ASend (c_socket c) r]).
Proof.
  intros Hs Hmax Hnf Hr Hw Hx.
  assert (Hpw : forall rest, prog_writes ((AFault <$> xs) ++ [AIssue (c_socket c); ASend (c_socket c) r] ++ rest)
                             = call_writes c ++ prog_writes rest).
  { intros rest. clear Hx. induction xs as [|x xs IH]; [by rewrite <- Hw|].
    by rewrite fmap_cons, <- app_comm_cons, prog_writes_cons, IH. }
  split.
  - rewrite <- (app_nil_r [AIssue _; _]). by rewrite Hpw, app_nil_r.
  - intros rest Hrest. rewrite <- app_assoc. revert Hx Hpw.
    induction xs as [|x xs IH]; intros Hx Hpw.
    { simpl. split_and!; try done; unfold socket_ok; lia. }
    assert (Hpw' : forall rest', prog_writes ((AFault <$> xs) ++
               [AIssue (c_socket c); ASend (c_socket c) r] ++ rest') = call_writes c ++ prog_writes rest').
    { intros rest'. specialize (Hpw rest').
      by rewrite fmap_cons, <- app_comm_cons, prog_writes_cons in Hpw. }
    rewrite fmap_cons, <- app_comm_cons. split.
    + rewrite Hpw', fmap_app. apply elem_of_app. left. apply Hx. left.
    + apply IH; [|done]. intros y Hy. apply Hx. by right.
  - intros k. clear Hx Hpw. induction xs as [|x xs IH].
    + simpl app. rewrite !sends_cons, !issues_cons. simpl. destruct (_ =? k); unfold sends, issues; simpl; lia.
    + rewrite fmap_cons, <- app_comm_cons, sends_cons, issues_cons. done.
Qed.

Lemma call_actions_prog n c :
  no_faults -> sockets <= NOVA_MAX_SOCKET -> call_ok c -> call_prog n c (call_actions n c).
Proof.
  intros Hf Hmax [Hs Hb [Hu Hub] [Hk Hkb] Hwr Hrd]. unfold call_actions.
  destruct (c_type c) eqn:Et.
  - destruct (Hrd eq_refl) as [Hm Hpg]. clear Hrd Hwr. unfold do_nova_nvmm_read.
    assert (Hcw : forall z, c_zero c = z -> call_writes c =
      (fun k => (user_byte (c_mm c) (c_ubuf c + k), byte_of (if z then Fill 0 else From (c_kmem c)) k))
        <$> seqZ 0 (c_bytes c)).
    { intros z <-. unfold call_writes, call_byte. rewrite Et. by destruct (c_zero c). }
    destruct (c_zero c) eqn:Ez.
    { unfold clear_user. destruct Hf as (_ & Hf & _). rewrite Hf, Z.sub_0_r. apply copies_prog.
      rewrite (flat_bytes (fun k => user_byte (c_mm c) (c_ubuf c + k)) (fun _ => Fill 0)) by lia.
      by rewrite (Hcw true). }
    destruct (c_bytes c <? NOVA_READ_DELEGATION_LIMIT) eqn:El; zbool.
    { unfold copy_to_user. destruct Hf as (_ & _ & Hf). rewrite Hf, Z.sub_0_r. apply copies_prog.
      rewrite (flat_bytes (fun k => user_byte (c_mm c) (c_ubuf c + k)) (fun k => From (c_kmem c + k))) by lia.
      rewrite (Hcw false) by done. apply list_fmap_ext. intros i k _. simpl. by rewrite Z.add_0_r. }
    unfold NOVA_READ_DELEGATION_LIMIT, nova_do_read_delegation, PAGE_SIZE in *.
    rewrite (u64_small (c_ubuf c + c_bytes c - 1)) by lia.
    set (e := ROUNDUP_PAGE (c_ubuf c + c_bytes c - 1)).
    assert (He : e <= c_ubuf c + c_bytes c + 4096).
    { subst e. unfold ROUNDUP_PAGE, PAGE_SIZE. change 4095 with (PAGE_SIZE - 1).
      rewrite land_not_4095. pose proof (Z.mod_pos_bound (c_ubuf c + c_bytes c - 1) 4096).
      pose proof (Z.mod_le (c_ubuf c + c_bytes c - 1) 4096). rewrite u64_small by lia. lia. }
    destruct (prefault_touches (Z.to_nat ((e - c_ubuf c + 4096 - 1) / 4096)) (c_mm c) (c_ubuf c)
      (c_bytes c) (c_ubuf c) Hf) as (xs & -> & Hx).
    { lia. } { lia. } { lia. } { lia. }
    { unfold PAGE_SIZE. destruct (Z.le_gt_cases 0 ((e - c_ubuf c + 4096 - 1) / 4096)).
      - rewrite Z2Nat.id by done. Z.to_euclidean_division_equations. lia.
      - rewrite Z2Nat.nonpos by lia. lia. }
    simpl negb. cbv iota.
    destruct (read_request_writes (c_mm c) (c_kmem c) (c_ubuf c) (c_bytes c) false)
      as (cs & Ecs & Ew); try (done || lia).
    set (r := Request _ _ _ _ _ _ _ _ _).
    assert (Hrc : request_copies r = Some cs) by exact Ecs.
    apply request_prog; try done.
    + unfold copies_of. rewrite Hrc. simpl. by rewrite Ew, (Hcw false).
    + intros x (k & Hkr & ->)%Hx. rewrite (Hcw false) by done. rewrite <- list_fmap_compose.
      apply list_elem_of_fmap. exists k. split; [done|]. apply elem_of_seqZ. lia.
  - clear Hrd. specialize (Hwr eq_refl). unfold do_nova_nvmm_write.
    assert (Hcw : call_writes c
      = writes (Copy (c_kmem c) (if c_zero c then Fill 0 else From (c_ubuf c)) (c_bytes c))).
    { unfold call_writes, call_byte, writes. rewrite Et. by destruct (c_zero c). }
    destruct (_ || _).
    + destruct (c_zero c) eqn:Ez.
      * apply copies_prog. by rewrite Hcw, memset_nt_zero by (auto || lia).
      * rewrite nocache_writes by (done || lia). apply copies_prog. rewrite Hcw. apply app_nil_r.
    + apply (request_prog n c []); simpl; try done.
      * unfold copies_of, request_copies. simpl. rewrite Hcw. apply write_request_writes; (done || lia || auto).
      * by intros x ?%not_elem_of_nil.
Qed.

(** ** The program of a thread *)

Lemma sends_app k p p' : sends k (p ++ p') = sends k p + sends k p'.
Proof. unfold sends. rewrite sum_list_with_app. lia. Qed.
Lemma issues_app k p p' : issues k (p ++ p') = issues k p + issues k p'.
Proof. unfold issues. rewrite sum_list_with_app. lia. Qed.

Lemma waits_ok : Forall is_wait nova_complete_delegation.
Proof.
  apply Forall_fmap, Forall_forall. intros k Hk%elem_of_seqZ. simpl. unfold socket_ok. lia.
Qed.

Lemma waits_prog n p : Forall is_wait p -> prog_ok sockets n p /\ prog_writes p = [].
Proof.
  intros Hf. induction Hf as [|a p Ha Hp [IH1 IH2]]; [done|]. rewrite prog_writes_cons, IH2.
  by destruct a.
Qed.

Definition thread_writes (calls : list nvmm_call) : list (Z * byte_source) := calls ≫= call_writes.

Lemma program_ok n calls :
  no_faults -> sockets <= NOVA_MAX_SOCKET -> Forall call_ok calls ->
  prog_ok sockets n (todo (start_client n calls)) /\
  prog_writes (todo (start_client n calls)) = thread_writes calls /\
  forall k, sends k (todo (start_client n calls)) = issues k (todo (start_client n calls)) /\
            issues k (todo (start_client n calls)) <= Z.of_nat (length calls).
Proof.
  intros Hf Hmax Hc. simpl. induction Hc as [|c calls Hc _ (IH1 & IH2 & IH3)].
  - destruct (waits_prog n _ waits_ok) as [H1 H2]. split_and!; [done|done|].
    intros k. destruct (waits_silent k _ waits_ok) as [H3 H4].
    change (sends k nova_complete_delegation = issues k nova_complete_delegation /\
            issues k nova_complete_delegation <= 0). lia.
  - destruct (call_actions_prog n c Hf Hmax Hc) as [Hw Hp Hn].
    rewrite bind_cons, <- app_assoc. split_and!.
    + by apply Hp.
    + by rewrite prog_writes_app, Hw, IH2.
    + intros k. rewrite sends_app, issues_app. destruct (Hn k), (IH3 k). simpl length. lia.
Qed.

(** ** The start *)

Definition all_writes (progs : list (list nvmm_call)) : list (Z * byte_source) :=
  progs ≫= thread_writes.

(** The calls of all threads: every byte is written by one of them, and none
    reads what is written. *)
Record progs_ok (progs : list (list nvmm_call)) : Prop := {
  progs_calls : Forall (Forall call_ok) progs;
  progs_short : Forall (fun calls => Z.of_nat (length calls) < TWO31) progs;
  progs_once : writes_once (all_writes progs)
}.

Lemma init_nodes_ok n idx l :
  init_nodes thrds n idx = Some l ->
  length l = n /\ forall i nd, l !! i = Some nd -> queued (nd_ring nd) = [] /\ nd_agent nd = AgIdle.
Proof.
  revert idx l. induction n as [|n IH]; intros idx l E; simpl in E; [by simplify_eq|].
  apply bind_Some in E as (r & Er & E). apply bind_Some in E as (l' & El & [= <-]).
  destruct (IH _ _ El) as [Hl Hn]. split; [by simpl; rewrite Hl|].
  intros [|i] nd Hi; [|by apply (Hn i)]. injection Hi as <-. by eapply create_queued in Er.
Qed.

Lemma start_ok m progs s :
  no_faults -> sockets <= NOVA_MAX_SOCKET -> progs_ok progs -> start thrds sockets m progs = Some s ->
  inv thrds sockets (all_writes progs) m s /\ dmem s = m /\
  length (clients s) = length progs /\ items s = [] /\
  (forall n, clients s !! n = start_client n <$> progs !! n).
Proof.
  intros Hf Hmax [Hcalls Hshort Honce] E. apply bind_Some in E as (nds & En & [= <-]).
  destruct (init_nodes_ok _ _ _ En) as [Hln Hnd]. simpl.
  assert (Hcl : forall n, imap start_client progs !! n = start_client n <$> progs !! n).
  { intros n. apply list_lookup_imap. }
  assert (Hit : items (DState m nds (imap start_client progs)) = []).
  { apply items_nil. intros i nd Hi. destruct (Hnd i nd Hi) as [H1 H2]. unfold node_items.
    by rewrite H1, H2. }
  assert (Hpend : pending (DState m nds (imap start_client progs)) = all_writes progs).
  { unfold pending. rewrite Hit. simpl. clear -Hcalls Hf Hmax PL.
    assert (H : forall h : nat -> nat, imap (fun i => start_client (h i)) progs
        ≫= (fun c => prog_writes (todo c)) = all_writes progs); [|apply (H id)].
    induction Hcalls as [|calls progs Hc _ IH]; intros h; [done|].
    rewrite imap_cons, bind_cons. unfold all_writes in *. rewrite bind_cons. f_equal; [|apply (IH (h ∘ S))].
    by apply program_ok. }
  assert (Hsys : sys_ok thrds sockets (DState m nds (imap start_client progs))).
  { split; simpl.
    - done.
    - intros i nd Hi. destruct (Hnd i nd Hi) as [H1 H2]. split; [by rewrite H1|by rewrite H2].
    - intros n c. rewrite Hit, Hcl. intros (calls & Hc & ->)%fmap_Some_1.
      rewrite Forall_lookup in Hcalls, Hshort. specialize (Hcalls _ _ Hc). specialize (Hshort _ _ Hc).
      destruct (program_ok n calls Hf Hmax Hcalls) as (Hp & _ & Hk). split; [done|done| |].
      + intros k i v Hsk Hi Hv. apply lookup_replicate in Hi as [-> _], Hv as [-> _].
        destruct (Hk k) as [H1 H2]. unfold outstanding. simpl in *. unfold issues in *. lia.
      + intros k Hsk. left. simpl. apply elem_of_app. right. unfold nova_complete_delegation.
        apply list_elem_of_fmap. exists k. split; [done|]. by apply elem_of_seqZ. }
  split_and!; try done.
  - split; [done|]. simpl. split; rewrite ?Hpend; try done.
    + apply Honce.
    + rewrite <- Hpend. by eapply faults_pending.
    + intros a b. by left.
  - by rewrite length_imap.
Qed.

(** ** Whose writes are left *)

Section owned.
Context (Wn : nat -> list (Z * byte_source)).

Record owned (s : dstate) : Prop := {
  own_prog n c : clients s !! n = Some c -> prog_writes (todo c) ⊆ Wn n;
  own_item i nd it : nodes s !! i = Some nd -> it ∈ node_items nd -> it.2 ⊆ Wn it.1.1
}.

Lemma owned_client s n c c' m :
  owned s -> clients s !! n = Some c -> prog_writes (todo c') ⊆ prog_writes (todo c) ->
  owned (set_dmem m (set_client n c' s)).
Proof.
  intros [Hp Hi] Hc Hsub. split; [|exact Hi]. intros n' c1. simpl.
  intros [(<- & <- & _)|[_ H]]%list_lookup_insert_Some; [|by eapply Hp].
  etrans; [exact Hsub|]. by eapply Hp.
Qed.

Lemma owned_node s i nd nd' m :
  owned s -> nodes s !! i = Some nd ->
  (forall it, it ∈ node_items nd' ->
     it ∈ node_items nd \/ it.2 ⊆ Wn it.1.1) ->
  owned (set_dmem m (set_node i nd' s)).
Proof.
  intros [Hp Hi] Hn Hit. split; [exact Hp|]. intros j x it. simpl.
  intros [(<- & <- & _)|[_ H]]%list_lookup_insert_Some Hin; [|by eapply Hi].
  destruct (Hit it Hin) as [H|H]; [by eapply Hi|done].
Qed.

Lemma owned_client_step n rnd s s' :
  sys_ok thrds sockets s -> owned s -> client_step thrds n rnd s = Some s' -> owned s'.
Proof.
  intros Hs Ho E. unfold client_step, nova_send_request in E. apply bind_Some in E as (c & Hc & E).
  pose proof (cl_prog _ _ _ _ (sys_client_ok _ _ _ Hs _ _ Hc)) as Hp.
  assert (Htail : forall a p x i v m, todo c = a :: p ->
    owned (set_dmem m (set_client n (Client p x i v) s))).
  { intros a p x i v m Et. apply (owned_client s n c); [done|done|]. simpl. rewrite Et, prog_writes_cons.
    intros w Hw. apply elem_of_app. by right. }
  destruct (todo c) as [|a p] eqn:Et; [by simplify_eq|].
  specialize (Htail a p). destruct Hp as [Ha _].
  destruct a as [cp|x|k|k r|u|k].
  - injection E as <-. by apply Htail.
  - injection E as <-. by apply Htail.
  - apply bind_Some in E as (v & _ & [= <-]). by apply (Htail _ _ _ (dmem s)).
  - destruct Ha as (_ & _ & Hnf & _). apply bind_Some in E as (nd & Hi & E).
    assert (Hr : flat (copies_of r) ⊆ Wn n).
    { intros w Hw. apply (own_prog _ Ho _ _ Hc). rewrite Et, prog_writes_cons.
      apply elem_of_app. by left. }
    destruct (enqueue_queued (nd_ring nd) r) as [(rg & Eq & Hq)|[Eq _]]; rewrite Eq in E; simpl in E;
      injection E as <-.
    + apply (owned_client (set_node (Z.to_nat (k * thrds + nova_choose_rings thrds rnd))
        (Node rg (nd_agent nd)) s) n c _ (dmem s)).
      * apply (owned_node s _ nd _ (dmem s)); [done|done|]. intros it. unfold node_items. simpl.
        rewrite Hq, fmap_app, !elem_of_app. intros [[H|H]|H]; [by left; left| |by left; right].
        apply list_elem_of_singleton in H as ->. right. simpl. by rewrite Hnf.
      * done.
      * rewrite Et, prog_writes_cons. intros w Hw. apply elem_of_app. by right.
    + apply (owned_node s _ nd _ (dmem s)); [done|done|]. intros it H. by left.
  - injection E as <-. by apply (Htail _ _ _ (dmem s)).
  - apply bind_Some in E as (i & _ & E). apply bind_Some in E as (v & _ & [= <-]).
    destruct (i =? v); [by apply (Htail _ _ _ (dmem s))|done].
Qed.

Lemma owned_agent_step i s s' :
  owned s -> agent_step i s = Some s' -> owned s'.
Proof.
  intros Ho E. unfold agent_step, nova_recv_request in E. apply bind_Some in E as (nd & Hi & E).
  destruct nd as [rg ag]; simpl in E. destruct ag as [|[|cp cs] nf|].
  - pose proof (dequeue_queued rg) as Hdq. destruct (queued rg) as [|r q] eqn:Eq.
    + rewrite Hdq in E. simpl in E. injection E as <-.
      apply (owned_node s i _ _ (dmem s) Ho Hi). by left.
    + destruct Hdq as (rg' & Er & Hq). rewrite Er in E. apply bind_Some in E as (cs & Hcs & [= <-]).
      apply (owned_node s i _ _ (dmem s) Ho Hi). intros it. unfold node_items. simpl.
      rewrite Eq, Hq. intros H. left. apply elem_of_app in H as [H|H].
      * apply elem_of_app. left. by right.
      * apply list_elem_of_singleton in H as ->. apply elem_of_app. left. simpl.
        unfold request_item, copies_of. rewrite Hcs. left.
  - unfold atomic_inc in E. apply bind_Some in E as (c & Hc & E).
    apply bind_Some in E as (v & _ & [= <-]).
    apply (owned_client (set_node i (Node rg AgIdle) s) nf.1 c _ (dmem s)); [|done|done].
    apply (owned_node s i _ _ (dmem s) Ho Hi). intros it. unfold node_items. simpl.
    rewrite app_nil_r, elem_of_app. by left; left.
  - injection E as <-. apply (owned_node s i _ _ _ Ho Hi). intros it. unfold node_items. simpl.
    rewrite !elem_of_app. intros [H|H]; [by left; left|right].
    apply list_elem_of_singleton in H as ->. simpl. intros w Hw.
    apply (own_item _ Ho i _ (nf, flat (cp :: cs)) Hi).
    + unfold node_items. apply elem_of_app. right. left.
    + simpl. apply elem_of_app. by right.
  - by injection E as <-.
Qed.

Lemma owned_run W m0 evs s s' :
  writes_once W -> inv thrds sockets W m0 s -> owned s -> Forall (event_ok s) evs ->
  run thrds evs s = Some s' -> owned s'.
Proof.
  intros HW. revert s. induction evs as [|e evs IH]; intros s Hinv Ho He E; simpl in E.
  { by simplify_eq. }
  apply bind_Some in E as (s1 & E1 & E). apply Forall_cons in He as [He Hes].
  destruct (step_ok thrds sockets Hthrds W m0 HW s e Hinv He) as (s1' & E1' & H). simplify_eq.
  destruct (step_lengths thrds _ _ _ E1) as [Hl1 Hl2]. eapply (IH s1); [| | |done].
  - destruct H as [[H _]|[-> _]]; done.
  - destruct e; simpl in E1; [eapply owned_client_step; [apply Hinv|done..]|by eapply owned_agent_step].
  - eapply Forall_impl; [exact Hes|]. intros [m r|i]; simpl; lia.
Qed.

End owned.

(** When a thread has nothing left to do, its writes are in memory. *)
Lemma returned_written Wn W m0 s n c a b :
  inv thrds sockets W m0 s -> owned Wn s -> writes_once W ->
  (forall i, Wn i ⊆ W) -> (forall i j x, x ∈ (Wn i).*1 -> x ∈ (Wn j).*1 -> i = j) ->
  clients s !! n = Some c -> todo c = [] -> (a, b) ∈ Wn n -> dmem s a = value m0 b.
Proof.
  intros Hinv Ho HW Hsub Hdis Hc Ht Hab.
  destruct (data_done _ _ _ _ _ (inv_data _ _ _ _ _ Hinv) a b (Hsub _ _ Hab)) as [Hp|]; [|done].
  exfalso. assert (Han : a ∈ (Wn n).*1) by (apply in_fst; by exists b).
  unfold pending in Hp. apply elem_of_app in Hp as [Hp|Hp].
  - apply list_elem_of_bind in Hp as (it & Hp & Hit).
    assert (Hown : it.2 ⊆ Wn it.1.1 /\ notify_ok s it.1).
    { unfold items in Hit. apply list_elem_of_bind in Hit as (nd & Hin & [i Hi]%list_elem_of_lookup).
      split; [by eapply own_item|]. destruct (sys_node_ok _ _ _ (inv_sys _ _ _ _ _ Hinv) _ _ Hi) as [H1 H2].
      unfold node_items in Hin. apply elem_of_app in Hin as [Hin|Hin].
      - apply list_elem_of_fmap in Hin as (r & -> & Hr). rewrite Forall_forall in H1. by apply H1.
      - destruct (nd_agent nd); simpl in Hin; try by apply not_elem_of_nil in Hin.
        by apply list_elem_of_singleton in Hin as ->. }
    destruct Hown as [Hown [_ Hk]].
    assert (En : it.1.1 = n).
    { apply (Hdis _ _ a); [|done]. apply in_fst. exists b. by apply Hown. }
    destruct (sys_client_ok _ _ _ (inv_sys _ _ _ _ _ Hinv) _ _ Hc) as [_ _ _ Hw].
    destruct (Hw it.1.2 Hk) as [H|[H _]]; [rewrite Ht in H; by apply not_elem_of_nil in H|].
    eapply outstanding_zero; [exact H|exact Hit|]. rewrite <- En. by destruct it as [[? ?] ?].
  - apply list_elem_of_bind in Hp as (c' & Hp & [n' Hc']%list_elem_of_lookup).
    assert (n' = n) as ->.
    { apply (Hdis _ _ a); [|done]. apply in_fst. exists b. by eapply own_prog. }
    simplify_eq. rewrite Ht in Hp. by apply not_elem_of_nil in Hp.
Qed.

End start.
