(* ===== verification/DelegationTheorems.v ===== *)
(** Delegation is correct under every interleaving: a thread that returned from
    [nova_complete_delegation] finds its data in place, and every thread
    returns when threads and agents keep getting turns. *)

From S2P Require Import Prelude.
From S2P Require Import Kernel.
From S2P Require Import Delegation.
From S2P Require Import DelegationSpec.
From S2P Require Import AgentTasks.
From S2P Require Import DelegationSteps.
From S2P Require Import DelegationInv.
From S2P Require Import DelegationStart.

Section theorems.
Context {CO : CopyOps} {PL : PageLaws} {RG : RingOps} {RL : RingLaws}.

(** The writes of thread [n]. *)
Definition writes_of (progs : list (list nvmm_call)) (n : nat) : list (Z * byte_source) :=
  default [] (thread_writes <$> progs !! n).

Lemma writes_of_all progs n : writes_of progs n ⊆ all_writes progs.
Proof.
  unfold writes_of. intros w Hw. destruct (progs !! n) as [calls|] eqn:E; simpl in Hw;
    [|by apply not_elem_of_nil in Hw].
  apply list_elem_of_bind. exists calls. split; [done|]. by eapply list_elem_of_lookup_2.
Qed.

Lemma writes_of_apart progs i j x :
  NoDup (all_writes progs).*1 -> x ∈ (writes_of progs i).*1 -> x ∈ (writes_of progs j).*1 -> i = j.
Proof.
  unfold all_writes. revert i j. induction progs as [|calls progs IH]; intros i j Hn Hi Hj.
  { unfold writes_of in Hi. simpl in Hi. by apply not_elem_of_nil in Hi. }
  rewrite bind_cons, fmap_app in Hn. apply NoDup_app in Hn as (_ & Hd & Hn).
  assert (Hs : forall k, writes_of (calls :: progs) (S k) = writes_of progs k) by done.
  assert (H0 : writes_of (calls :: progs) 0 = thread_writes calls) by done.
  assert (Hall : forall k, x ∈ (writes_of progs k).*1 -> x ∈ (progs ≫= thread_writes).*1).
  { intros k [b Hb]%in_fst. apply in_fst. exists b. by apply writes_of_all in Hb. }
  destruct i as [|i], j as [|j]; rewrite ?Hs, ?H0 in Hi, Hj.
  - done.
  - by destruct (Hd x Hi (Hall _ Hj)).
  - by destruct (Hd x Hj (Hall _ Hi)).
  - f_equal. by apply IH.
Qed.

(** C40: Any number of threads write and read through [do_nova_nvmm_write] and
    [do_nova_nvmm_read], each byte once; their steps and those of the agents
    interleave in any order, with any choice of rings and any ring that is
    full.  No step goes wrong, and when [nova_complete_delegation] of a thread
    has returned, every byte its calls were to write holds what it was to
    hold: the byte of the source, or zero. *)
Theorem delegation_delivers thrds sockets m progs s0 evs :
  0 < thrds -> sockets <= NOVA_MAX_SOCKET -> no_faults -> progs_ok sockets progs ->
  start thrds sockets m progs = Some s0 -> Forall (event_ok s0) evs ->
  exists s, run thrds evs s0 = Some s /\
    forall n c calls call k,
      clients s !! n = Some c -> todo c = [] ->
      progs !! n = Some calls -> call ∈ calls -> 0 <= k < c_bytes call ->
      dmem s (call_byte call k).1 = value m (call_byte call k).2.
Proof.
  intros Hth Hmax Hf Hpo Est Hev. pose proof (progs_once _ _ Hpo) as HW.
  destruct (start_ok _ _ _ _ _ Hf Hmax Hpo Est) as (Hinv & Hm & Hlen & Hit & Hcl).
  destruct (run_ok thrds sockets Hth _ _ HW evs s0 Hinv Hev) as (s & E & Hinv' & _).
  exists s. split; [done|]. intros n c calls call k Hc Ht Hp Hin Hk.
  assert (Ho : owned (writes_of progs) s0).
  { split.
    - intros i c1. rewrite Hcl. intros (cs & Hcs & ->)%fmap_Some_1. unfold writes_of. rewrite Hcs.
      simpl. pose proof (progs_calls _ _ Hpo) as Hcalls. rewrite Forall_lookup in Hcalls.
      destruct (program_ok sockets i cs Hf Hmax (Hcalls _ _ Hcs)) as (_ & Hpw & _).
      simpl in Hpw. by rewrite Hpw.
    - intros i nd it Hi Hit'. exfalso. rewrite items_nil in Hit. rewrite (Hit _ _ Hi) in Hit'.
      by apply not_elem_of_nil in Hit'. }
  eapply (returned_written thrds sockets (writes_of progs) (all_writes progs)); try done.
  - exact (owned_run thrds sockets Hth _ _ m evs s0 s HW Hinv Ho Hev E).
  - apply writes_of_all.
  - intros i j x. apply writes_of_apart, HW.
  - unfold writes_of. rewrite Hp. simpl. apply list_elem_of_bind. exists call. split; [|done].
    rewrite <- surjective_pairing. unfold call_writes. apply list_elem_of_fmap. exists k.
    split; [done|]. apply elem_of_seqZ. lia.
Qed.

(** C13: The protocol cannot deadlock or spin for ever: a schedule of more fair
    rounds than there is work at the start, in each of which every thread and
    every agent gets a turn, in any order and with any choice of rings, takes
    every thread through its calls and through [nova_complete_delegation]. *)
Theorem delegation_terminates thrds sockets m progs s0 rounds :
  0 < thrds -> sockets <= NOVA_MAX_SOCKET -> no_faults -> progs_ok sockets progs ->
  start thrds sockets m progs = Some s0 ->
  Forall (fair_round s0) rounds -> (cost s0 < length rounds)%nat ->
  exists s, run thrds (concat rounds) s0 = Some s /\ all_returned s.
Proof.
  intros Hth Hmax Hf Hpo Est Hr Hlen.
  destruct (start_ok _ _ _ _ _ Hf Hmax Hpo Est) as (Hinv & _).
  destruct (rounds_return thrds sockets Hth _ _ (progs_once _ _ Hpo) rounds s0 Hinv Hr Hlen)
    as (s & E & _ & H). by exists s.
Qed.

End theorems.

(** ** An instance: two threads, one agent, a ring of one element *)

Module DeleDemo.

Definition BASE : Z := 1099511627776.

#[export] Instance copy_ops : CopyOps := {|
  pgd_present _ _ := true; p4d_present _ _ := true; pud_present _ _ := true;
  pud_large _ _ := false; pud_pfn _ _ := 0; pmd_present _ _ := true; pmd_large _ _ := false;
  pmd_pfn _ _ := 0; pte_present _ _ := true; pte_pfn mm a := a / PAGE_SIZE + 16;
  phys_to_virt p := p + BASE;
  copy_nocache_left _ _ _ := 0; clear_user_left _ _ _ := 0; copy_to_user_left _ _ _ _ := 0;
  write_dele_size := 4096
|}.

#[export] Instance page_laws : PageLaws.
Proof.
  split; simpl; try done.
  - intros _ a b E. by rewrite E.
  - intros p k. lia.
Qed.

#[export] Instance ring_ops : RingOps := {|
  ring := list nova_delegation_request;
  solros_ring_create _ _ _ := Some [];
  solros_ring_enqueue r q := match r with [] => (0, [q]) | _ => (- EAGAIN, r) end;
  solros_ring_dequeue r := match r with [] => (inl (- EAGAIN), []) | q :: r => (inr q, r) end
|}.

#[export] Instance ring_laws : RingLaws.
Proof.
  refine {| queued := fun r : @ring ring_ops => r |}.
  - by intros size al socket r [= <-].
  - intros [|q' r] q; simpl; [left; by eexists|by right].
  - intros [|q r]; simpl; [done|by eexists].
Defined.

Definition m0 (a : Z) : Z := a mod 251.

(** A write of 5000 bytes and a page of zeros; a read of 4196 bytes that
    starts inside a page. *)
Definition write1 : nvmm_call :=
  Call NOVA_REQUEST_WRITE 0 8192 1048576 5000 0 false true false true.
Definition write2 : nvmm_call :=
  Call NOVA_REQUEST_WRITE 0 0 2097152 4096 0 true true false true.
Definition read1 : nvmm_call :=
  Call NOVA_REQUEST_READ 0 12300 4194304 4196 0 false false false true.
Definition progs : list (list nvmm_call) := [[write1; write2]; [read1]].

Definition s0 : dstate := DState m0 [Node [] AgIdle] (imap start_client progs).
Definition round : list event := [EClient 0 5; EAgent 0; EClient 1 7].
Definition rounds : list (list event) := replicate 1000 round.

Lemma demo_no_faults : no_faults.
Proof. done. Qed.

Lemma demo_user_byte a : user_byte 0 a = a + (65536 + BASE) /\
  user_virt_addr_to_phy_addr 0 a = a + 65536.
Proof.
  unfold user_byte. assert (E : user_virt_addr_to_phy_addr 0 a = a + 65536); [|by rewrite E; simpl; lia].
  unfold user_virt_addr_to_phy_addr. simpl. rewrite frame_offset by (lia || apply Z.mod_1_r).
  unfold PAGE_SIZE. change (2 ^ 12) with 4096. pose proof (Z.div_mod a 4096). lia.
Qed.

Lemma demo_calls : Forall (Forall (call_ok 1)) progs.
Proof.
  assert (H : call_ok 1 write1 /\ call_ok 1 write2 /\ call_ok 1 read1).
  { split_and!; split; simpl; try done. intros _. split; [|done]. intros k Hk.
    destruct (demo_user_byte (12300 + k)) as [-> ->]. unfold BASE. lia. }
  destruct H as (H1 & H2 & H3). unfold progs.
  by repeat first [assumption | apply Forall_cons; split | apply Forall_nil].
Qed.

Lemma three_calls c1 c2 c3 :
  all_writes [[c1; c2]; [c3]] = call_writes c1 ++ call_writes c2 ++ call_writes c3.
Proof.
  unfold all_writes, thread_writes. rewrite !bind_cons. simpl. by rewrite !app_nil_r, <- app_assoc.
Qed.

Lemma demo_dests :
  (all_writes progs).*1
  = seqZ 1048576 5000 ++ seqZ 2097152 4096 ++ seqZ (12300 + (65536 + BASE)) 4196.
Proof.
  assert (H : forall c base, (forall k, (call_byte c k).1 = base + k) ->
            (call_writes c).*1 = seqZ base (c_bytes c)).
  { intros c base E. unfold call_writes. rewrite <- (Z.add_0_r base), <- fmap_add_seqZ.
    rewrite <- list_fmap_compose. apply list_fmap_ext. intros i k _. apply E. }
  assert (Hr : forall k, (call_byte read1 k).1 = 12300 + (65536 + BASE) + k).
  { intros k. change ((call_byte read1 k).1) with (user_byte 0 (12300 + k)).
    destruct (demo_user_byte (12300 + k)) as [-> _]. lia. }
  unfold progs. rewrite three_calls, !fmap_app.
  by rewrite (H write1 1048576), (H write2 2097152), (H read1 _ Hr).
Qed.

Lemma demo_sources a x :
  (a, BMem x) ∈ all_writes progs -> 8192 <= x < 13192 \/ 4194304 <= x < 4198500.
Proof.
  unfold progs. rewrite three_calls, !elem_of_app. unfold call_writes.
  intros [H|[H|H]]; apply list_elem_of_fmap in H as (k & E & Hk%elem_of_seqZ);
    simpl in E, Hk; injection E as _ E; [lia|done|lia].
Qed.

Lemma demo_ok : progs_ok 1 progs.
Proof.
  split; [apply demo_calls|by repeat constructor|]. split.
  - rewrite demo_dests. unfold BASE. rewrite !NoDup_app. split_and!; try apply NoDup_seqZ.
    + intros x. rewrite elem_of_app, !elem_of_seqZ. lia.
    + intros x. rewrite !elem_of_seqZ. lia.
  - intros a x Hx%demo_sources. rewrite demo_dests, !elem_of_app, !elem_of_seqZ. unfold BASE. lia.
Qed.

Lemma demo_start : start 1 1 m0 progs = Some s0.
Proof. reflexivity. Qed.

Lemma demo_fair : Forall (fair_round s0) rounds.
Proof.
  apply Forall_replicate. split_and!.
  - repeat constructor.
  - intros [|[|n]] Hn; [exists 5|exists 7|simpl in Hn; lia]; unfold round; rewrite !elem_of_cons; tauto.
  - intros [|i] Hi; [unfold round; rewrite !elem_of_cons; tauto|simpl in Hi; lia].
Qed.

Lemma demo_events : Forall (event_ok s0) (concat rounds).
Proof. apply Forall_concat. eapply Forall_impl; [apply demo_fair|]. by intros l (H & _). Qed.

Lemma demo_cost : (cost s0 < length rounds)%nat.
Proof. apply Nat.ltb_lt. vm_compute. reflexivity. Qed.

(** After the rounds every thread has returned. *)
Lemma demo_returned : exists s, run 1 (concat rounds) s0 = Some s /\ all_returned s /\
  length (clients s) = 2%nat.
Proof.
  destruct (start_ok 1 1 m0 progs s0 demo_no_faults) as (Hinv & _); [done|apply demo_ok|done|].
  destruct (rounds_return 1 1 ltac:(lia) _ _ (progs_once _ _ demo_ok) rounds s0 Hinv demo_fair demo_cost)
    as (s & E & _ & H). exists s. split_and!; [done|done|].
  destruct (run_ok 1 1 ltac:(lia) _ _ (progs_once _ _ demo_ok) _ s0 Hinv demo_events)
    as (s' & E' & _ & Hl & _). rewrite E in E'. injection E' as <-. done.
Qed.

End DeleDemo.
Import DeleDemo.

(** Byte 4999 of the write and byte 100 of the read have arrived when both
    threads have returned. *)
Lemma delegation_delivers_witness :
  exists s, run 1 (concat rounds) s0 = Some s /\
    dmem s (1048576 + 4999) = (8192 + 4999) mod 251 /\
    dmem s (user_byte 0 12400) = 4194404 mod 251.
Proof.
  destruct (delegation_delivers 1 1 m0 progs s0 (concat rounds))
    as (s & E & H); [lia|done|apply demo_no_faults|apply demo_ok
    |apply demo_start|apply demo_events|].
  destruct demo_returned as (s' & E' & Hr & Hl). rewrite E in E'. injection E' as <-.
  destruct (lookup_lt_is_Some_2 (clients s) 0) as [c0 H0]; [lia|].
  destruct (lookup_lt_is_Some_2 (clients s) 1) as [c1 H1]; [lia|].
  exists s. split_and!; [exact E| |].
  - assert (Hk : 0 <= 4999 < c_bytes write1) by (simpl; lia).
    pose proof (H 0%nat c0 [write1; write2] write1 4999 H0 (Hr _ _ H0) eq_refl (list_elem_of_here _ _) Hk) as Hw.
    cbn in Hw. exact Hw.
  - assert (Hk : 0 <= 100 < c_bytes read1) by (simpl; lia).
    pose proof (H 1%nat c1 [read1] read1 100 H1 (Hr _ _ H1) eq_refl (list_elem_of_here _ _) Hk) as Hw.
    exact Hw.
Defined.

Lemma delegation_terminates_witness :
  exists s, run 1 (concat rounds) s0 = Some s /\ all_returned s.
Proof.
  apply (delegation_terminates 1 1 m0 progs);
    [lia|done|apply demo_no_faults|apply demo_ok|apply demo_start
    |apply demo_fair|apply demo_cost].
Defined.

(** ** What the model shows *)

(** A buffer of thirteen pages that are not contiguous in memory runs past the
    twelve tasks of the array: the check comes after the store. *)
Definition scattered : CopyOps := {|
  pgd_present _ _ := true; p4d_present _ _ := true; pud_present _ _ := true;
  pud_large _ _ := false; pud_pfn _ _ := 0; pmd_present _ _ := true; pmd_large _ _ := false;
  pmd_pfn _ _ := 0; pte_present _ _ := true; pte_pfn mm a := 2 * (a / PAGE_SIZE) + 16;
  phys_to_virt p := p + BASE;
  copy_nocache_left _ _ _ := 0; clear_user_left _ _ _ := 0; copy_to_user_left _ _ _ _ := 0;
  write_dele_size := 4096
|}.

Lemma thirteen_pages_overrun : @create_agent_tasks scattered 0 0 (13 * 4096) = None.
Proof. vm_compute. reflexivity. Qed.

(** A read of a page that is not mapped any more copies nothing, and is
    completed like any other. *)
Definition unmapped : CopyOps := {|
  pgd_present _ _ := false; p4d_present _ _ := true; pud_present _ _ := true;
  pud_large _ _ := false; pud_pfn _ _ := 0; pmd_present _ _ := true; pmd_large _ _ := false;
  pmd_pfn _ _ := 0; pte_present _ _ := true; pte_pfn mm a := a / PAGE_SIZE + 16;
  phys_to_virt p := p + BASE;
  copy_nocache_left _ _ _ := 0; clear_user_left _ _ _ := 0; copy_to_user_left _ _ _ _ := 0;
  write_dele_size := 4096
|}.

Lemma unmapped_read_completes : @do_read_request unmapped 0 4194304 8192 4096 false = Some [].
Proof. vm_compute. reflexivity. Qed.

(** [memset_nt] leaves the last bytes of a length that is not a multiple of
    four. *)
Lemma memset_nt_short : flat (memset_nt 0 0 7) = writes (Copy 0 (Fill 0) 4).
Proof. vm_compute. reflexivity. Qed.
