(* ===== verification/FileIndex.v ===== *)
(** The index of a regular file in DRAM (log.c, inode.c, nova.h): for each page
    of the file the write entry that holds it ([sih->tree]), and the pages that
    the latest write replaced, whose blocks are freed by the next one
    ([sih->old_entry_list]).

    An entry is the address of its eight words in the log.  [None] is a read
    through a pointer the C code never set. *)

From S2P Require Import Prelude.
From S2P Require Import Kernel.
From S2P Require Import Checksum.
From S2P Require Import Layout.
From S2P Require Import FreeList.
From S2P Require Import Balloc.
From S2P Require Import Pmem.
From S2P Require Import Journal.
From S2P Require Import InodeLog.
From S2P Require Import DataGuard.
From S2P Require Import Replica.
From S2P Require Import Recovery.

(** [struct old_entry]. *)
Record old_entry := OldEntry {
  oe_entry : Z;
  oe_start_pgoff : Z;
  oe_num_free : Z
}.

(** What the functions here change: the free lists, the fields [tree],
    [old_entry_list] and [i_blocks] of the header (its block type is fixed),
    and the records given to snapshots: block, number of pages, epoch. *)
Record file_state := FileState {
  fx_lists : list free_list;
  fx_tree : gmap Z Z;
  fx_olds : list old_entry;
  fx_i_blocks : Z;
  fx_snapshot : list (Z * Z * Z)
}.

Abbreviation FM := (SM file_state).

Definition set_tree (t : gmap Z Z) : FM () := fun st =>
  mret (Some ((), FileState (fx_lists st) t (fx_olds st) (fx_i_blocks st) (fx_snapshot st))).
Definition set_olds (l : list old_entry) : FM () := fun st =>
  mret (Some ((), FileState (fx_lists st) (fx_tree st) l (fx_i_blocks st) (fx_snapshot st))).

Definition add_snapshot (r : Z * Z * Z) : FM () := fun st =>
  mret (Some ((), FileState (fx_lists st) (fx_tree st) (fx_olds st) (fx_i_blocks st)
                    (fx_snapshot st ++ [r]))).

(** [list_add]: at the head. *)
Definition insert_old_entry (entry start_pgoff num_free : Z) : FM () :=
  st ← get_state; set_olds (OldEntry entry start_pgoff (s32 num_free) :: fx_olds st).

(** [radix_tree_gang_lookup] of one element: the first key from [pgoff] on. *)
Definition first_key (t : gmap Z Z) (pgoff : Z) : option Z :=
  foldr (fun k r =>
    if k <? pgoff then r
    else match r with Some k' => Some (Z.min k k') | None => Some k end)
    None (map_to_list t).*1.

Definition nova_find_next_entry (t : gmap Z Z) (pgoff : Z) : option Z :=
  k ← first_key t pgoff; t !! k.

Section file_index.
Context {RB : RbOps} {KM : KmemOps} {CR : CrcOps} {MP : ModParams}.
Context (sbi : nova_sb_info).
(** The epochs of the snapshots, [sih->i_blk_type], and whether
    [radix_tree_insert] finds no memory for a page. *)
Context (snapshots : list Z) (i_blk_type : Z) (radix_nomem : Z -> bool).

(** ** Invalidating log entries *)

(** [nova_inc_page_invalid_entries] for the page of an entry. *)
Definition inc_invalid (entry : Z) : PM () :=
  nova_inc_page_invalid_entries sbi (nova_get_addr_off sbi entry true).

Definition nova_execute_invalidate_reassign_logentry (entry : Z) (type : nova_entry_type)
    (reassign : bool) (num_free : Z) : PM () :=
  invalid ← match type with
            | FILE_WRITE =>
                (if reassign then store8 (entry + 1) 1 else mret ());;
                (if num_free =? 0 then mret ()
                 else w ← load (entry + 24); store32_lo (entry + 24) (u32 w + num_free));;
                ws ← load_words entry ENTRY_WORDS;
                mret (we_invalid_pages (WENTRY ws) =? we_num_pages (WENTRY ws))
            | DIR_LOG =>
                if reassign then store8 (entry + 2) 1;; mret false
                else store8 (entry + 3) 1;; mret true
            | SET_ATTR => store8 (entry + 48) 1;; mret true
            | LINK_CHANGE | MMAP_WRITE | SNAPSHOT_INFO => store8 (entry + 1) 1;; mret true
            | NEXT_PAGE => mret false
            end;
  (if (invalid : bool) then inc_invalid entry else mret ());;
  nova_update_entry_csum entry.

(** The result of [nova_update_alter_entry] is ignored. *)
Definition nova_invalidate_reassign_logentry (entry : Z) (type : nova_entry_type)
    (reassign : bool) (num_free : Z) : PM (option Z) :=
  nova_execute_invalidate_reassign_logentry entry type reassign num_free;;
  r ← nova_update_alter_entry sbi entry;
  mret ((fun _ => 0) <$> r).

Definition nova_invalidate_logentry (entry : Z) (type : nova_entry_type) (num_free : Z)
    : PM (option Z) := nova_invalidate_reassign_logentry entry type false num_free.
Definition nova_reassign_logentry (entry : Z) (type : nova_entry_type) : PM (option Z) :=
  nova_invalidate_reassign_logentry entry type true 0.

(** [entryc]: the entry itself, or a copy with a good checksum. *)
Definition entry_copy_words (entry : Z) : FM (option (list Z)) :=
  if metadata_csum then
    r ← mem_opt (nova_get_entry_copy sbi entry);
    match r with
    | (true, Some bs) => mret (Some (words_of bs))
    | (true, None) => bug
    | (false, _) => mret None
    end
  else ws ← mem_op (load_words entry ENTRY_WORDS); mret (Some ws).

Definition we_reassigned (ws : list Z) : Z := byte (nth 0 ws 0) 1.
Definition we_epoch_id (ws : list Z) : Z := nth 5 ws 0.

Definition nova_invalidate_write_entry (entry : Z) (reassign : bool) (num_free : Z) : FM Z :=
  if entry =? 0 then mret 0
  else
    c ← entry_copy_words entry;
    match c with
    | None => mret (- EIO)
    | Some ws =>
        if (num_free =? 0) && (we_reassigned ws =? 1) then mret 0
        else mem_opt (nova_invalidate_reassign_logentry entry FILE_WRITE reassign num_free)
    end.

(** ** Freeing the blocks of replaced pages *)

Definition nova_append_data_to_snapshot (epoch_id nvmm num_pages delete_epoch_id : Z) : FM Z :=
  let ret := nova_old_entry_deleteable snapshots epoch_id delete_epoch_id in
  (if ret =? 0 then add_snapshot (nvmm, num_pages, delete_epoch_id) else mret ());; mret ret.

Definition free_data_blocks (blocknr num : Z) : FM Z := fun st =>
  mret ((fun r => (r.1, FileState r.2 (fx_tree st) (fx_olds st) (fx_i_blocks st) (fx_snapshot st)))
          <$> nova_free_data_blocks sbi (fx_lists st) i_blk_type blocknr num).

Definition sub_i_blocks (num_free : Z) : FM () := fun st =>
  mret (Some ((), FileState (fx_lists st) (fx_tree st) (fx_olds st)
                    (u64 (fx_i_blocks st - num_free)) (fx_snapshot st))).

Definition nova_free_old_entry (entry pgoff num_free : Z) (delete_dead : bool) (epoch_id : Z) : FM Z :=
  if entry =? 0 then mret 0
  else
    c ← entry_copy_words entry;
    match c with
    | None => mret (u32 (- EIO))
    | Some ws =>
        let old_nvmm := get_nvmm i_blk_type (WENTRY ws) pgoff in
        kept ← (if delete_dead then mret false
                else
                  ret ← nova_append_data_to_snapshot (we_epoch_id ws) old_nvmm num_free epoch_id;
                  if ret =? 0 then nova_invalidate_write_entry entry true 0;; mret true
                  else nova_invalidate_write_entry entry true num_free;; mret false);
        (if (kept : bool) then mret () else free_data_blocks old_nvmm (s32 num_free);; mret ());;
        sub_i_blocks num_free;;
        mret num_free
    end.

(** The loop of [free_old_entry] over the list. *)
Fixpoint free_olds (l : list old_entry) (epoch_id : Z) : FM () :=
  match l with
  | [] => mret ()
  | o :: l' =>
      nova_free_old_entry (oe_entry o) (oe_start_pgoff o) (u32 (oe_num_free o)) true epoch_id;;
      nova_invalidate_write_entry (oe_entry o) true 0;;
      free_olds l' epoch_id
  end.

Definition free_old_entry (epoch_id : Z) : FM () :=
  st ← get_state;
  free_olds (fx_olds st) epoch_id;;
  set_olds [].

(** ** Entering a write entry *)

(** The run of replaced pages of one entry that is being counted. *)
Record old_run := OldRun { start_old_entry : Z; start_old_pgoff : Z; num_free : Z }.

Definition close_run (free : bool) (r : old_run) : FM () :=
  if negb (start_old_entry r =? 0) && free
  then insert_old_entry (start_old_entry r) (start_old_pgoff r) (num_free r)
  else mret ().

(** The loop over the pages of the entry, [n] left: the run at its end, or the
    error. *)
Fixpoint assign_loop (n : nat) (entry curr_pgoff : Z) (free : bool) (r : old_run)
    : FM (Z + old_run) :=
  match n with
  | O => mret (inr r)
  | S n' =>
      st ← get_state;
      match fx_tree st !! curr_pgoff with
      | Some old_entry =>
          r ← (if negb (old_entry =? start_old_entry r)
               then close_run free r;; mret (OldRun old_entry curr_pgoff 1)
               else mret (OldRun (start_old_entry r) (start_old_pgoff r) (u32 (num_free r + 1))));
          st ← get_state;
          set_tree (<[curr_pgoff := entry]> (fx_tree st));;
          assign_loop n' entry (u64 (curr_pgoff + 1)) free r
      | None =>
          if radix_nomem curr_pgoff then mret (inl (- ENOMEM))
          else
            set_tree (<[curr_pgoff := entry]> (fx_tree st));;
            assign_loop n' entry (u64 (curr_pgoff + 1)) free r
      end
  end.

Definition nova_assign_write_entry (entry : Z) (entryc : list Z) (free : bool) : FM Z :=
  free_old_entry (we_epoch_id entryc);;
  r ← assign_loop (Z.to_nat (we_num_pages (WENTRY entryc))) entry (we_pgoff (WENTRY entryc)) free
        (OldRun 0 0 0);
  match r with
  | inl ret => mret ret
  | inr r => close_run free r;; mret 0
  end.

(** ** Truncation *)

(** [nova_free_old_entry] of a finished run, when blocks are to be freed. *)
Definition free_run (delete_nvmm delete_dead : bool) (epoch_id : Z) (r : old_run) : FM Z :=
  if negb (start_old_entry r =? 0) && delete_nvmm
  then nova_free_old_entry (start_old_entry r) (start_old_pgoff r) (num_free r) delete_dead epoch_id;;
       mret (num_free r)
  else mret 0.

(** The loop over the pages from [pgoff] on. *)
Fixpoint delete_loop (fuel : nat) (pgoff : Z) (delete_nvmm delete_dead : bool) (epoch_id : Z)
    (r : old_run) (freed : Z) : FM (old_run * Z) :=
  match fuel with
  | O => bug
  | S fuel' =>
      st ← get_state;
      match fx_tree st !! pgoff with
      | Some entry =>
          set_tree (delete pgoff (fx_tree st));;
          '(r, n) ← (if negb (entry =? start_old_entry r)
                     then n ← free_run delete_nvmm delete_dead epoch_id r;
                          mret (OldRun entry pgoff 1, n)
                     else mret (OldRun (start_old_entry r) (start_old_pgoff r) (u32 (num_free r + 1)), 0));
          delete_loop fuel' (u64 (pgoff + 1)) delete_nvmm delete_dead epoch_id r (s32 (freed + n))
      | None =>
          match nova_find_next_entry (fx_tree st) pgoff with
          | None => mret (r, freed)
          | Some entry =>
              c ← (if metadata_csum then
                     v ← mem_opt (nova_verify_entry_csum sbi entry);
                     match v with
                     | (true, Some bs) => mret (Some (words_of bs))
                     | (true, None) => bug
                     | (false, _) => mret None
                     end
                   else ws ← mem_op (load_words entry ENTRY_WORDS); mret (Some ws));
              match c with
              | None => mret (r, freed)
              | Some ws =>
                  delete_loop fuel' (Z.max (u64 (pgoff + 1)) (we_pgoff (WENTRY ws)))
                    delete_nvmm delete_dead epoch_id r freed
              end
          end
      end
  end.

(** [entryc] points nowhere when the deferred pages are freed; with replication
    it points to memory of the stack, whose epoch [junk] is not used. *)
Definition nova_delete_file_tree (fuel : nat) (junk : Z) (start_blocknr last_blocknr : Z)
    (delete_nvmm delete_dead : bool) (epoch_id : Z) : FM Z :=
  st ← get_state;
  (if negb metadata_csum && bool_decide (fx_olds st <> []) then bug else free_old_entry junk);;
  '(r, freed) ← delete_loop fuel start_blocknr delete_nvmm delete_dead epoch_id (OldRun 0 0 0) 0;
  n ← free_run delete_nvmm delete_dead epoch_id r;
  mret (s32 (freed + n)).

(** ** Looking a page up *)

Definition nova_get_write_entry (t : gmap Z Z) (pgoff : Z) : Z := default 0 (t !! pgoff).

(** [nova_find_nvmm_block]: the offset of the block of a page, 0 for a
    hole. *)
Definition nova_find_nvmm_block (entry : option Z) (blocknr : Z) : FM Z :=
  st ← get_state;
  let entry := match entry with
               | Some e => e
               | None => nova_get_write_entry (fx_tree st) blocknr
               end in
  if entry =? 0 then mret 0
  else
    ws ← mem_op (load_words entry ENTRY_WORDS);
    mret (nova_get_block_off sbi (get_nvmm i_blk_type (WENTRY ws) blocknr) i_blk_type false).

End file_index.
