(* ===== verification/FileIndexSpec.v ===== *)
(** The invariant of the file index: which pages an entry holds, mapped or to
    be freed by the next write, and what freeing them does. *)

From S2P Require Import Prelude.
From S2P Require Import Kernel.
From S2P Require Import Checksum.
From S2P Require Import RangeTree.
From S2P Require Import Layout.
From S2P Require Import FreeList.
From S2P Require Import FreeListSpec.
From S2P Require Import Balloc.
From S2P Require Import BallocSpec.
From S2P Require Import Pmem.
From S2P Require Import PmemSpec.
From S2P Require Import Journal.
From S2P Require Import InodeLog.
From S2P Require Import DataGuard.
From S2P Require Import DataGuardSpec.
From S2P Require Import Replica.
From S2P Require Import Recovery.
From S2P Require Import RecoverySpec.
From S2P Require Import FileScanSpec.
From S2P Require Import FileIndex.

Lemma u64_sub_l a b : u64 (u64 a - b) = u64 (a - b).
Proof. apply Zminus_mod_idemp_l. Qed.

(** ** Setting one byte of a word *)

Lemma above_set_byte w v :
  Z.shiftr (Z.lor (Z.ldiff w (Z.shiftl 255 8)) (Z.shiftl (u8 v) 8)) 16 = Z.shiftr w 16.
Proof.
  rewrite Z.shiftr_lor, Z.shiftr_ldiff.
  replace (Z.shiftr (Z.shiftl 255 8) 16) with 0 by done.
  replace (Z.shiftr (Z.shiftl (u8 v) 8) 16) with 0; [by rewrite Z.ldiff_0_r, Z.lor_0_r|].
  symmetry. rewrite Z.shiftl_mul_pow2, Z.shiftr_div_pow2 by lia. unfold u8. apply Z.div_small.
  change (2 ^ 8) with 256. change (2 ^ 16) with 65536. pose proof (Z.mod_pos_bound v 256). lia.
Qed.

Lemma u8_set_byte w v : u8 (Z.lor (Z.ldiff w (Z.shiftl 255 8)) (Z.shiftl (u8 v) 8)) = u8 w.
Proof.
  unfold u8. change 256 with (2 ^ 8). apply Z.bits_inj'. intros i Hi.
  destruct (Z.ltb_spec i 8) as [Hlt|Hge]; [|by rewrite !Z.mod_pow2_bits_high by lia].
  rewrite !Z.mod_pow2_bits_low by lia. rewrite Z.lor_spec, Z.ldiff_spec, !Z.shiftl_spec_low by lia.
  by rewrite andb_true_r, orb_false_r.
Qed.

(** All of the first word of an entry but the mark [reassigned]. *)
Definition same_marked (v w : Z) : Prop := Z.shiftr v 16 = Z.shiftr w 16 /\ u8 v = u8 w.

Lemma same_above v w k : same_marked v w -> 16 <= k -> Z.shiftr v k = Z.shiftr w k.
Proof.
  intros [H _] Hk. replace k with (16 + (k - 16)) by lia. by rewrite <- !Z.shiftr_shiftr, H by lia.
Qed.
Lemma same_hi32 v w : same_marked v w -> hi32 v = hi32 w.
Proof. intros H. unfold hi32. by rewrite (same_above v w) by (done || lia). Qed.

(** Two entries do not share a word. *)
Definition apart (a b : Z) : Prop := a + 64 <= b \/ b + 64 <= a.

(** Only the marks of the entries of [l] change. *)
Definition marks_only (l : list Z) (m : mem) (t : list pact) : Prop :=
  (forall a, a ∉ l -> untouched a t)
  /\ (forall a, a ∈ l -> same_marked (cur (exec t m) a) (cur m a)).

Lemma marks_nil l m : marks_only l m [].
Proof. by split; [constructor|]. Qed.

Lemma marks_app l m t1 t2 : marks_only l m t1 -> marks_only l (exec t1 m) t2 -> marks_only l m (t1 ++ t2).
Proof.
  intros [H1 H2] [H3 H4]. split.
  - intros a Ha. apply untouched_app. auto.
  - intros a Ha. rewrite exec_app. destruct (H2 a Ha), (H4 a Ha). split; congruence.
Qed.

Lemma marks_weaken l l' m t : marks_only l m t -> l ⊆ l' -> marks_only l' m t.
Proof.
  intros [H1 H2] Hl. split; [intros a Ha; apply H1; set_solver|]. intros a Ha.
  destruct (decide (a ∈ l)); [by apply H2|]. by rewrite cur_untouched by auto.
Qed.

Lemma marks_updating l m t a : marks_only l m t -> byte (cur (exec t m) a) 2 = byte (cur m a) 2.
Proof.
  intros [H1 H2]. destruct (decide (a ∈ l)) as [Ha|]; [|by rewrite cur_untouched by auto].
  unfold byte. by rewrite (same_above _ _ _ (H2 a Ha)).
Qed.

Lemma marks_type l m t a : marks_only l m t -> u8 (cur (exec t m) a) = u8 (cur m a).
Proof. intros [H1 H2]. destruct (decide (a ∈ l)); [by apply H2|]. by rewrite cur_untouched by auto. Qed.

Lemma marks_store m e v : same_marked v (cur m e) -> marks_only [e] m [Store e v].
Proof.
  intros Hv. split.
  - intros a Ha. constructor; [|constructor]. cbn. intros [= ->]. set_solver.
  - intros a ->%list_elem_of_singleton. change (exec [Store e v] m) with (exec1 (Store e v) m).
    rewrite cur_store. by rewrite decide_True.
Qed.

Lemma marks_went l m t e :
  marks_only l m t -> (forall a, a ∈ l -> a = e \/ apart e a) -> went (exec t m) e = went m e.
Proof.
  intros [H1 H2] Ha. unfold went, ENTRY_WORDS. rewrite !words_S. unfold WENTRY. cbn [nth].
  assert (Hu : forall k, 0 < k < 64 -> cur (exec t m) (e + k) = cur m (e + k)).
  { intros k Hk. apply cur_untouched, H1. intros Hin. specialize (Ha _ Hin). unfold apart in Ha. lia. }
  replace (hi32 (cur (exec t m) e)) with (hi32 (cur m e)).
  - rewrite <- !Z.add_assoc. cbn [Z.add Pos.add Pos.succ]. by rewrite !Hu by lia.
  - destruct (decide (e ∈ l)); [by rewrite (same_hi32 _ _ (H2 e ltac:(done)))|]. by rewrite cur_untouched by auto.
Qed.

Lemma mem_words_run {S} m e n (st : S) : mem_op (load_words e n) st m = (Some (words m e n, st), []).
Proof. unfold mem_op. apply (bind_load_words e n). Qed.

(** ** The file as the sequence of its writes and truncations, newest first *)

Inductive event :=
  | Wrote (e : Z) (w : write_entry)
  | Cut (start : Z).

(** The write that page [p] is read from. *)
Fixpoint last_writer (h : list event) (p : Z) : option (Z * write_entry) :=
  match h with
  | [] => None
  | Wrote e w :: h' => if decide (has_page w p) then Some (e, w) else last_writer h' p
  | Cut start :: h' => if decide (start <= p) then None else last_writer h' p
  end.

Section index.
Context {RB : RbOps} {KM : KmemOps} {CR : CrcOps} {MP : ModParams}.
Context {RBL : RbLaws} {KML : KmemLaws}.
Context (sbi : nova_sb_info) (Hmc : metadata_csum = false).
Context (snapshots : list Z).

(** ** What an entry holds *)

Record held_entry (m : mem) (ls : list free_list) (e : Z) : Prop := {
  he_addr : 0 < e /\ e mod 8 = 0;
  he_num : 0 < we_num_pages (went m e) < TWO31;
  he_pages : 0 <= we_pgoff (went m e) /\ we_pgoff (went m e) + we_num_pages (went m e) < TWO64;
  he_live : we_invalid_pages (went m e) <> we_num_pages (went m e);
  he_blocks : exists i, in_list ls false i (we_blocknr (went m e))
    /\ in_list ls false i (we_blocknr (went m e) + we_num_pages (went m e) - 1)
}.

(** The pages of a deferred run. *)
Definition old_pages (o : old_entry) : list (Z * Z) :=
  pair (oe_entry o) <$> seqZ (oe_start_pgoff o) (oe_num_free o).
Definition deferred (l : list old_entry) : list (Z * Z) := l ≫= old_pages.

(** The block a page of an entry lies in. *)
Definition block_of (m : mem) (ep : Z * Z) : Z := page_block (went m ep.1) ep.2.

Definition old_ok (o : old_entry) : Prop := 0 < oe_num_free o < TWO31.

Lemma elem_old_pages e p o :
  (e, p) ∈ old_pages o <-> e = oe_entry o /\ oe_start_pgoff o <= p < oe_start_pgoff o + oe_num_free o.
Proof.
  unfold old_pages. rewrite list_elem_of_fmap. split.
  - intros (q & [= -> ->] & Hq). apply elem_of_seqZ in Hq. lia.
  - intros [-> Hp]. exists p. split; [done|]. apply elem_of_seqZ. lia.
Qed.

Lemma in_list_bounds ls i x : lists_wf sbi ls -> in_list ls false i x -> 0 <= x < TWO31.
Proof.
  intros Hw (fl & Hi & Hx). destruct (lw_list _ _ Hw _ _ false Hi) as (Hl & _).
  pose proof (li_bounds _ _ Hl). lia.
Qed.

Lemma held_block m ls e p :
  lists_wf sbi ls -> held_entry m ls e -> has_page (went m e) p ->
  0 <= page_block (went m e) p < TWO31.
Proof.
  intros Hw [_ _ _ _ (i & H1 & H2)] Hp. apply (in_list_bounds _ _ _ Hw) in H1, H2.
  unfold has_page in Hp. unfold page_block. lia.
Qed.

Lemma get_nvmm_held m ls e p :
  lists_wf sbi ls -> held_entry m ls e -> has_page (went m e) p ->
  get_nvmm 0 (went m e) p = page_block (went m e) p.
Proof.
  intros Hw He Hp. pose proof (held_block _ _ _ _ Hw He Hp) as Hb.
  destruct He as [_ _ Hpg _ _]. unfold has_page in Hp. unfold get_nvmm, page_block in *.
  change (nova_get_numblocks 0) with 1.
  rewrite Z.mul_1_r, (u64_small (p - _)) by lia. apply u64_small. lia.
Qed.

Lemma held_change m m' ls ls' e :
  held_entry m ls e -> went m' e = went m e ->
  (forall i x, in_list ls false i x -> in_list ls' false i x) -> held_entry m' ls' e.
Proof. intros [? ? ? ? (i & ? & ?)] Ew Hi. split; rewrite ?Ew; eauto. Qed.

(** ** Marking a replaced entry *)

Lemma store_byte1 e m :
  e mod 8 = 0 ->
  exists v, store8 (e + 1) 1 m = ((), [Store e v]) /\ same_marked v (cur m e).
Proof.
  intros He. unfold store8. rewrite land_not_7.
  replace ((e + 1) mod 8) with 1 by (rewrite Z.add_mod, He by lia; done).
  replace (e + 1 - 1) with e by lia. rewrite bind_load.
  eexists. split; [done|]. split; [apply above_set_byte|apply u8_set_byte].
Qed.

Lemma index_copy_run m e (st : file_state) :
  entry_copy_words sbi e st m = (Some (Some (words m e ENTRY_WORDS), st), []).
Proof.
  unfold entry_copy_words. rewrite Hmc. eapply (sm_run _ _ _ _ _ _ [] _ []); [|done].
  apply mem_words_run.
Qed.

Lemma execute_invalidate_run m e :
  0 < e -> e mod 8 = 0 -> we_invalid_pages (went m e) <> we_num_pages (went m e) ->
  exists t, nova_invalidate_reassign_logentry sbi e FILE_WRITE true 0 m = (Some 0, t) /\ marks_only [e] m t.
Proof.
  intros He Hal Hl. destruct (store_byte1 e m Hal) as (v & Hs & Hv).
  pose proof (marks_store m e v Hv) as Hk.
  pose proof (marks_went _ _ _ e Hk ltac:(set_solver)) as Hw.
  exists [Store e v]. split; [|done]. unfold nova_invalidate_reassign_logentry.
  erewrite (bind_run _ _ m () [Store e v] (Some 0) []); [done| |].
  - unfold nova_execute_invalidate_reassign_logentry.
    erewrite (bind_run _ _ m false [Store e v] () []); [done| |].
    + erewrite (bind_run _ _ m () [Store e v] false []); [done|exact Hs|].
      change ((0 =? 0)) with true. cbv iota. rewrite bind_mret, bind_load_words.
      unfold went in Hw, Hl. rewrite Hw. by rewrite (proj2 (Z.eqb_neq _ _) Hl).
    + rewrite bind_mret. unfold nova_update_entry_csum. by rewrite Hmc.
  - unfold nova_update_alter_entry. by rewrite Hmc.
Qed.

Lemma invalidate_run m e (st : file_state) :
  0 < e -> e mod 8 = 0 -> we_invalid_pages (went m e) <> we_num_pages (went m e) ->
  exists t, nova_invalidate_write_entry sbi e true 0 st m = (Some (0, st), t) /\ marks_only [e] m t.
Proof.
  intros He Hal Hl. unfold nova_invalidate_write_entry.
  rewrite (proj2 (Z.eqb_neq _ _)) by lia.
  destruct ((0 =? 0) && (we_reassigned (words m e ENTRY_WORDS) =? 1)) eqn:Hre.
  - exists []. split; [|apply marks_nil].
    eapply (sm_run _ _ _ _ _ _ [] _ []); [apply index_copy_run|]. cbv beta iota. by rewrite Hre.
  - destruct (execute_invalidate_run m e He Hal Hl) as (t & Hx & Hk). exists t. split; [|done].
    eapply (sm_run _ _ _ _ _ _ []); [apply index_copy_run|]. cbv beta iota. rewrite Hre.
    unfold mem_opt. rewrite <- (app_nil_r t). exact (bind_run _ _ m _ t _ [] Hx eq_refl).
Qed.

(** ** Freeing what the last write replaced *)

(** The blocks of [P] of the data area were freed. *)
Record blocks_freed (ls : list free_list) (P : Z -> Prop) (ls' : list free_list) : Prop := {
  bf_wf : lists_wf sbi ls';
  bf_free : forall meta x, free_block ls' meta x <-> free_block ls meta x \/ (meta = false /\ P x);
  bf_in : forall meta i x, in_list ls meta i x -> in_list ls' meta i x
}.

Context (Hslab : forall T, is_Some (nova_alloc_range_node T)).

Definition with_lists (ls : list free_list) (b : Z) (st : file_state) : file_state :=
  FileState ls (fx_tree st) (fx_olds st) b (fx_snapshot st).

(** The blocks of a run of pages of an entry. *)
Lemma free_data_run m m' (st : file_state) e p n :
  lists_wf sbi (fx_lists st) -> held_entry m (fx_lists st) e ->
  0 < n < TWO31 -> we_pgoff (went m e) <= p -> p + n <= we_pgoff (went m e) + we_num_pages (went m e) ->
  (forall q, p <= q < p + n -> ~ free_block (fx_lists st) false (page_block (went m e) q)) ->
  exists ls', free_data_blocks sbi 0 (page_block (went m e) p) (s32 n) st m'
      = (Some (0, with_lists ls' (fx_i_blocks st) st), [])
    /\ blocks_freed (fx_lists st) (fun x => exists q, p <= q < p + n /\ x = page_block (went m e) q) ls'.
Proof.
  intros Hw He Hn Hp1 Hp2 Hnf. pose proof He as [[Ha _] _ Hpg _ (i & Hi1 & Hi2)].
  assert (Hip : forall q, p <= q < p + n -> in_list (fx_lists st) false i (page_block (went m e) q)).
  { intros q Hq. destruct Hi1 as (fl & Hfl & Hb1), Hi2 as (fl' & Hfl' & Hb2). simplify_eq.
    exists fl. split; [done|]. unfold page_block. lia. }
  destruct (free_blocks_spec sbi (fx_lists st) false i (page_block (went m e) p) n 0)
    as (ls' & Hf & Hwf & Hfree & _ & Hin); try done; try lia.
  { apply Hip. lia. }
  { change (nova_get_numblocks 0) with 1.
    replace (page_block (went m e) p + 1 * n - 1) with (page_block (went m e) (p + n - 1))
      by (unfold page_block; lia). apply Hip. lia. }
  { change (nova_get_numblocks 0) with 1. intros x Hx Hfx.
    apply (Hnf (p + (x - page_block (went m e) p))); [lia|]. unfold page_block in *.
    by replace (_ + (p + _ - _)) with x by lia. }
  exists ls'. split.
  - unfold free_data_blocks, nova_free_data_blocks. rewrite s32_small by lia. by rewrite Hf.
  - split; [done| |done]. intros meta x. rewrite Hfree. change (nova_get_numblocks 0) with 1.
    unfold page_block. split; (intros [?|[-> Hx]]; [by left|right; split; [done|]]).
    + exists (p + (x - (we_blocknr (went m e) + (p - we_pgoff (went m e))))). lia.
    + destruct Hx as (q & ? & ->). lia.
Qed.

Lemma free_entry_run m (st : file_state) e p n epoch :
  lists_wf sbi (fx_lists st) -> held_entry m (fx_lists st) e ->
  0 < n < TWO31 -> we_pgoff (went m e) <= p -> p + n <= we_pgoff (went m e) + we_num_pages (went m e) ->
  (forall q, p <= q < p + n -> ~ free_block (fx_lists st) false (page_block (went m e) q)) ->
  exists ls', nova_free_old_entry sbi snapshots 0 e p n true epoch st m
      = (Some (n, with_lists ls' (u64 (fx_i_blocks st - n)) st), [])
    /\ blocks_freed (fx_lists st) (fun x => exists q, p <= q < p + n /\ x = page_block (went m e) q) ls'.
Proof.
  intros Hw He Hn Hp1 Hp2 Hnf. destruct (free_data_run m m st e p n) as (ls' & Hr & Hf); try done.
  pose proof He as [[Ha _] _ _ _ _]. exists ls'. split; [|done].
  unfold nova_free_old_entry. rewrite (proj2 (Z.eqb_neq _ _)) by lia.
  eapply (sm_run _ _ _ _ _ _ [] _ []); [apply index_copy_run|]. cbv beta iota zeta.
  eapply (sm_run _ _ _ _ _ _ [] _ []); [done|]. cbv beta iota. fold (went m e).
  rewrite (get_nvmm_held m (fx_lists st)) by (done || unfold has_page; lia).
  eapply (sm_run _ _ _ _ () _ [] _ []); [eapply (sm_run _ _ _ _ 0 _ [] _ []); [exact Hr|done]|].
  eapply (sm_run _ _ _ _ () _ [] _ []); done.
Qed.

Lemma blocks_freed_comp ls1 P ls2 Q ls3 :
  blocks_freed ls1 P ls2 -> blocks_freed ls2 Q ls3 -> blocks_freed ls1 (fun x => P x \/ Q x) ls3.
Proof.
  intros [_ Hf1 Hi1] [Hw Hf2 Hi2]. split; [done| |eauto].
  intros meta x. rewrite Hf2, Hf1. naive_solver.
Qed.

Lemma blocks_freed_ext ls P Q ls' :
  (forall x, P x <-> Q x) -> blocks_freed ls P ls' -> blocks_freed ls Q ls'.
Proof. intros HPQ [Hw Hf Hi]. split; [done| |done]. intros meta x. by rewrite Hf, HPQ. Qed.

(** The runs of [l] can be freed: their entries are sound and do not overlap,
    their blocks are in use, each once. *)
Record olds_ok (m : mem) (ls : list free_list) (l : list old_entry) : Prop := {
  ol_run : Forall old_ok l;
  ol_held : forall e p, (e, p) ∈ deferred l -> held_entry m ls e /\ has_page (went m e) p;
  ol_apart : forall a b, a ∈ oe_entry <$> l -> b ∈ oe_entry <$> l -> a = b \/ apart a b;
  ol_once : NoDup (block_of m <$> deferred l);
  ol_used : forall ep, ep ∈ deferred l -> ~ free_block ls false (block_of m ep)
}.

Definition old_count (l : list old_entry) : Z := foldr (fun o n => oe_num_free o + n) 0 l.

Lemma old_run_held m ls o l :
  olds_ok m ls (o :: l) ->
  let e := went m (oe_entry o) in
  old_ok o /\ held_entry m ls (oe_entry o) /\ we_pgoff e <= oe_start_pgoff o
  /\ oe_start_pgoff o + oe_num_free o <= we_pgoff e + we_num_pages e.
Proof.
  intros [Hr Hh _ _ _]. apply Forall_cons in Hr as [Hr _].
  assert (Hin : forall p, oe_start_pgoff o <= p < oe_start_pgoff o + oe_num_free o ->
      held_entry m ls (oe_entry o) /\ has_page (went m (oe_entry o)) p).
  { intros p Hp. apply Hh. cbn. apply elem_of_app. left. by apply elem_old_pages. }
  pose proof Hr as Ho. unfold old_ok in Ho.
  destruct (Hin (oe_start_pgoff o)) as [He H1]; [lia|].
  destruct (Hin (oe_start_pgoff o + oe_num_free o - 1)) as [_ H2]; [lia|].
  unfold has_page in *. cbv zeta. split_and!; [done|done|lia|lia].
Qed.

Lemma olds_ok_went m ls l t e :
  olds_ok m ls l -> marks_only (oe_entry <$> l) m t -> (forall a, a ∈ oe_entry <$> l -> a = e \/ apart e a) ->
  went (exec t m) e = went m e.
Proof. intros Ho Hk He. eapply marks_went; [exact Hk|exact He]. Qed.

Lemma block_of_run m o x :
  (exists ep, ep ∈ old_pages o /\ x = block_of m ep)
  <-> exists q, oe_start_pgoff o <= q < oe_start_pgoff o + oe_num_free o
                /\ x = page_block (went m (oe_entry o)) q.
Proof.
  split.
  - intros ([e p] & [-> Hp]%elem_old_pages & ->). by exists p.
  - intros (q & Hq & ->). exists (oe_entry o, q). by rewrite elem_old_pages.
Qed.

Lemma olds_ok_tail m ls o l t ls' :
  olds_ok m ls (o :: l) -> marks_only [oe_entry o] m t ->
  blocks_freed ls (fun x => exists ep, ep ∈ old_pages o /\ x = block_of m ep) ls' ->
  olds_ok (exec t m) ls' l /\ block_of (exec t m) <$> deferred l = block_of m <$> deferred l.
Proof.
  intros Hok Hk [_ Hf Hin]. pose proof Hok as [Hr Hh Ha Ho Hu]. apply Forall_cons in Hr as [_ Hr].
  assert (Hw : forall e p, (e, p) ∈ deferred l -> went (exec t m) e = went m e).
  { intros e p Hep. eapply marks_went; [exact Hk|]. intros a ->%list_elem_of_singleton.
    apply list_elem_of_bind in Hep as (o' & [-> _]%elem_old_pages & Ho').
    destruct (Ha (oe_entry o) (oe_entry o')) as [|Hx]; [set_solver| |by left|].
    - apply list_elem_of_fmap. exists o'. split; [done|]. by right.
    - right. unfold apart in *. lia. }
  assert (Hb : forall ep, ep ∈ deferred l -> block_of (exec t m) ep = block_of m ep).
  { intros [e p] Hep. unfold block_of. simpl. by rewrite (Hw _ _ Hep). }
  assert (Hmap : block_of (exec t m) <$> deferred l = block_of m <$> deferred l).
  { apply list_fmap_ext. intros i ep Hi. apply Hb. by eapply list_elem_of_lookup_2. }
  assert (Hsub : forall ep, ep ∈ deferred l -> ep ∈ deferred (o :: l)).
  { intros ep Hep. cbn. apply elem_of_app. by right. }
  split; [|done]. split.
  - done.
  - intros e p Hep. destruct (Hh e p (Hsub _ Hep)) as [He Hp]. rewrite (Hw _ _ Hep). split; [|done].
    eapply held_change; [exact He|by apply Hw with p|]. intros i x. apply Hin.
  - intros a b Hx Hy. apply Ha; rewrite fmap_cons; by right.
  - rewrite Hmap. cbn [deferred mbind list_bind] in Ho. rewrite fmap_app in Ho.
    by apply NoDup_app in Ho as (_ & _ & Ho).
  - intros ep Hep. rewrite (Hb _ Hep), Hf. intros [Hx|(_ & ep' & Hep' & E)]; [by eapply (Hu ep); eauto|].
    cbn [deferred mbind list_bind] in Ho. rewrite fmap_app in Ho. apply NoDup_app in Ho as (_ & Ho & _).
    apply (Ho (block_of m ep)); [rewrite E|]; by apply list_elem_of_fmap_2.
Qed.

Lemma free_olds_run l m (st : file_state) epoch :
  lists_wf sbi (fx_lists st) -> olds_ok m (fx_lists st) l -> 0 <= fx_i_blocks st < TWO64 ->
  exists ls' t, free_olds sbi snapshots 0 l epoch st m
      = (Some ((), with_lists ls' (u64 (fx_i_blocks st - old_count l)) st), t)
    /\ marks_only (oe_entry <$> l) m t
    /\ blocks_freed (fx_lists st) (fun x => exists ep, ep ∈ deferred l /\ x = block_of m ep) ls'.
Proof.
  revert m st. induction l as [|o l IH]; intros m st Hw Hok Hib; cbn [free_olds].
  { exists (fx_lists st), []. split_and!; [|apply marks_nil|].
    - cbn [old_count foldr]. rewrite Z.sub_0_r, u64_small by done. by destruct st.
    - split; [done| |done]. intros meta x. split; [by left|].
      intros [|(_ & ep & Hep & _)]; [done|]. by apply elem_of_nil in Hep. }
  destruct (old_run_held _ _ _ _ Hok) as (Hn & He & Hp1 & Hp2). pose proof He as [[Ha Hal] _ _ Hl _].
  destruct (free_entry_run m st (oe_entry o) (oe_start_pgoff o) (oe_num_free o) epoch)
    as (ls1 & Hr1 & Hf1); try done.
  { intros q Hq Hx. apply (ol_used _ _ _ Hok (oe_entry o, q)); [|done].
    cbn. apply elem_of_app. left. by apply elem_old_pages. }
  set (st1 := with_lists ls1 (u64 (fx_i_blocks st - oe_num_free o)) st) in *.
  destruct (invalidate_run m (oe_entry o) st1) as (t1 & Hr2 & Hk1); try done.
  apply (blocks_freed_ext _ _ _ _ (fun x => iff_sym (block_of_run m o x))) in Hf1.
  destruct (olds_ok_tail m _ o l t1 ls1 Hok Hk1 Hf1) as [Hok1 Hmap].
  destruct (IH (exec t1 m) st1) as (ls2 & t2 & Hr3 & Hk2 & Hf2);
    [by apply Hf1|done|apply u64_range|].
  exists ls2, (t1 ++ t2). split_and!.
  - replace (u32 (oe_num_free o)) with (oe_num_free o) by (rewrite u32_small; [done|unfold old_ok in Hn; lia]).
    rewrite <- (app_nil_l (t1 ++ t2)). eapply sm_run; [exact Hr1|]. cbn [exec fold_left].
    eapply sm_run; [exact Hr2|]. rewrite Hr3. unfold with_lists, st1. cbn [fx_i_blocks with_lists fx_tree fx_olds fx_snapshot].
    rewrite u64_sub_l. cbn [old_count foldr]. fold (old_count l).
    by rewrite Z.sub_add_distr.
  - apply marks_app; (eapply marks_weaken; [eassumption|]); rewrite fmap_cons; set_solver.
  - eapply blocks_freed_ext; [|exact (blocks_freed_comp _ _ _ _ _ Hf1 Hf2)]. intros x. cbv beta.
    cbn [deferred mbind list_bind]. setoid_rewrite elem_of_app.
    assert (E : (exists ep, ep ∈ deferred l /\ x = block_of (exec t1 m) ep)
                <-> x ∈ block_of (exec t1 m) <$> deferred l).
    { rewrite list_elem_of_fmap. naive_solver. }
    rewrite E, Hmap, list_elem_of_fmap. fold (deferred l). naive_solver.
Qed.

End index.
