(* ===== verification/FileAssign.v ===== *)
(** Entering a write into the file index: the pages it covers map to it, the
    pages it replaces are deferred, what the write before replaced is freed. *)

From S2P Require Import Prelude.
From S2P Require Import Kernel.
From S2P Require Import Checksum.
From S2P Require Import RangeTree.
From S2P Require Import Layout.
From S2P Require Import FreeList.
From S2P Require Import Balloc.
From S2P Require Import BallocSpec.
From S2P Require Import Pmem.
From S2P Require Import PmemSpec.
From S2P Require Import Journal.
From S2P Require Import InodeLog.
From S2P Require Import DataGuard.
From S2P Require Import Recovery.
From S2P Require Import RecoverySpec.
From S2P Require Import FileScanSpec.
From S2P Require Import FileIndex.
From S2P Require Import FileIndexSpec.

(** ** Pages replaced *)

(** [n] pages from [cp] on map to [entry]. *)
Fixpoint enter (entry : Z) (n : nat) (cp : Z) (T : gmap Z Z) : gmap Z Z :=
  match n with
  | O => T
  | S n' => enter entry n' (cp + 1) (<[cp := entry]> T)
  end.

Lemma enter_lookup entry n cp T p :
  enter entry n cp T !! p = if decide (cp <= p < cp + Z.of_nat n) then Some entry else T !! p.
Proof.
  revert cp T. induction n as [|n IH]; intros cp T; cbn [enter].
  { rewrite decide_False by lia. done. }
  rewrite IH. destruct (decide (p = cp)) as [->|Hp].
  - rewrite decide_False, lookup_insert_eq by lia. by rewrite decide_True by lia.
  - rewrite lookup_insert_ne by done. repeat case_decide; try done; lia.
Qed.

(** What the pages of a range map to. *)
Definition replaced (T : gmap Z Z) (cp : Z) (n : nat) : list (Z * Z) :=
  omap (fun p => (fun e => (e, p)) <$> T !! p) (seqZ cp (Z.of_nat n)).

Lemma replaced_S T cp n :
  replaced T cp (S n)
  = match T !! cp with Some e => (e, cp) :: replaced T (cp + 1) n | None => replaced T (cp + 1) n end.
Proof.
  unfold replaced. rewrite seqZ_cons by lia. cbn [omap list_omap].
  replace (Z.pred (Z.of_nat (S n))) with (Z.of_nat n) by lia.
  replace (Z.succ cp) with (cp + 1) by lia. by destruct (T !! cp).
Qed.

Lemma elem_replaced T cp n e p :
  (e, p) ∈ replaced T cp n <-> cp <= p < cp + Z.of_nat n /\ T !! p = Some e.
Proof.
  unfold replaced. rewrite list_elem_of_omap. split.
  - intros (q & Hq & Hs). apply elem_of_seqZ in Hq. apply fmap_Some in Hs as (e' & He & [= -> ->]). by split.
  - intros [Hp He]. exists p. split; [by apply elem_of_seqZ|]. by rewrite He.
Qed.

Lemma replaced_once T cp n : NoDup (replaced T cp n).
Proof.
  revert cp. induction n as [|n IH]; intros cp; [by constructor|]. rewrite replaced_S.
  destruct (T !! cp); [|done]. constructor; [|done]. rewrite elem_replaced. lia.
Qed.

(** A file has no hole between two pages of the same entry. *)
Definition gap_free (T : gmap Z Z) : Prop :=
  forall e p q r, T !! p = Some e -> T !! q = Some e -> p <= r <= q -> is_Some (T !! r).

Lemma enter_gap_free entry n cp T :
  gap_free T -> (forall p, T !! p <> Some entry) -> gap_free (enter entry n cp T).
Proof.
  intros Hg Hf e p q r. rewrite !enter_lookup. intros Hp Hq Hr.
  repeat case_decide; simplify_eq; try done; try lia; try (exfalso; by eapply Hf); eauto.
Qed.

(** ** The loop *)

Definition run_pages (r : old_run) : list (Z * Z) :=
  if start_old_entry r =? 0 then []
  else pair (start_old_entry r) <$> seqZ (start_old_pgoff r) (num_free r).

(** [r] is the run of the last entry met before page [cp]. *)
Definition run_before (T : gmap Z Z) (cp : Z) (r : old_run) : Prop :=
  start_old_entry r = 0
  \/ (0 < num_free r /\ start_old_pgoff r + num_free r <= cp
      /\ T !! start_old_pgoff r = Some (start_old_entry r)
      /\ forall q, start_old_pgoff r + num_free r <= q < cp -> T !! q = None).

Definition with_index (T : gmap Z Z) (l : list old_entry) (st : file_state) : file_state :=
  FileState (fx_lists st) T l (fx_i_blocks st) (fx_snapshot st).

Lemma close_run_run r (st : file_state) m :
  num_free r < TWO31 -> (start_old_entry r = 0 \/ 0 < num_free r) -> Forall old_ok (fx_olds st) ->
  exists l, close_run true r st m = (Some ((), with_index (fx_tree st) l st), [])
    /\ deferred l = run_pages r ++ deferred (fx_olds st) /\ Forall old_ok l.
Proof.
  intros Hr Hpos Hok. unfold close_run, run_pages. rewrite andb_true_r.
  destruct (Z.eqb_spec (start_old_entry r) 0) as [E|E]; cbn [negb].
  - exists (fx_olds st). split_and!; [by destruct st|done|done].
  - destruct Hpos as [?|Hpos]; [done|]. eexists. split; [done|].
    rewrite s32_small by lia. split; [done|]. by constructor.
Qed.

Lemma run_pages_snoc e p n :
  e <> 0 -> 0 <= n -> run_pages (OldRun e p (n + 1)) = run_pages (OldRun e p n) ++ [(e, p + n)].
Proof.
  intros He Hn. unfold run_pages. cbn. rewrite (proj2 (Z.eqb_neq _ _)) by done.
  rewrite seqZ_app by lia. by rewrite fmap_app.
Qed.

Section assign_loop.
Context (nomem : Z -> bool) (Hmem : forall p, nomem p = false).
Context (T0 : gmap Z Z) (Hgap : gap_free T0) (Hz : forall p e, T0 !! p = Some e -> e <> 0).
Context (entry : Z).

Lemma assign_loop_run n cp r (st : file_state) m :
  0 <= cp -> cp + Z.of_nat n < TWO64 -> 0 <= num_free r -> num_free r + Z.of_nat n < TWO31 ->
  (forall q, cp <= q -> fx_tree st !! q = T0 !! q) -> run_before T0 cp r -> Forall old_ok (fx_olds st) ->
  exists l r', assign_loop nomem n entry cp true r st m
      = (Some (inr r', with_index (enter entry n cp (fx_tree st)) l st), [])
    /\ run_pages r' ++ deferred l ≡ₚ run_pages r ++ replaced T0 cp n ++ deferred (fx_olds st)
    /\ Forall old_ok l /\ num_free r' < TWO31 /\ (start_old_entry r' = 0 \/ 0 < num_free r').
Proof.
  revert cp r st. induction n as [|n IH]; intros cp r st Hcp Hmax Hr0 Hr Hag Hrun Hok; cbn [assign_loop enter].
  { exists (fx_olds st), r. split_and!; [by destruct st|done|done|lia|].
    destruct Hrun as [?|(? & _)]; [by left|by right]. }
  assert (Hag' : forall q, cp + 1 <= q -> (<[cp := entry]> (fx_tree st)) !! q = T0 !! q).
  { intros q Hq. rewrite lookup_insert_ne by lia. apply Hag. lia. }
  rewrite u64_small by lia. rewrite replaced_S.
  destruct (T0 !! cp) as [e|] eqn:He.
  - pose proof (Hz _ _ He) as Hez.
    destruct (Z.eqb_spec e (start_old_entry r)) as [Ee|Ee].
    + (* the run goes on *)
      destruct Hrun as [?|(Hp & Hle & Hs & Hnone)]; [congruence|].
      assert (Hend : start_old_pgoff r + num_free r = cp).
      { destruct (decide (start_old_pgoff r + num_free r = cp)) as [|Hne]; [done|exfalso].
        destruct (Hgap e (start_old_pgoff r) cp (start_old_pgoff r + num_free r)) as [x Hx];
          [congruence|done|lia|]. rewrite Hnone in Hx by lia. done. }
      set (r1 := OldRun (start_old_entry r) (start_old_pgoff r) (num_free r + 1)).
      destruct (IH (cp + 1) r1 (with_index (<[cp := entry]> (fx_tree st)) (fx_olds st) st))
        as (l & r' & Hl & Hperm & Hrest); try done; try (cbn; lia).
      { right. cbn. split_and!; [lia|lia|congruence|]. intros q Hq. lia. }
      exists l, r'. split; [|split; [|done]].
      * eapply (sm_run _ _ _ _ _ _ [] _ []); [done|]. cbv beta. rewrite Hag, He by lia. cbv iota.
        rewrite (proj2 (Z.eqb_eq _ _)) by done. cbn [negb].
        eapply (sm_run _ _ _ _ _ _ [] _ []); [done|]. cbv beta.
        rewrite u32_small by lia.
        eapply (sm_run _ _ _ _ _ _ [] _ []); [done|]. cbv beta.
        eapply (sm_run _ _ _ _ () _ [] _ []); [done|]. exact Hl.
      * rewrite Hperm. unfold r1. destruct r as [re rp rn]; cbn in *.
        rewrite run_pages_snoc, Hend, <- app_assoc by (lia || congruence). subst e. done.
    + (* a new run *)
      destruct (close_run_run r st m) as (l1 & Hc & Hd1 & Hok1); [lia| |done|].
      { destruct Hrun as [?|(? & _)]; [by left|by right]. }
      destruct (IH (cp + 1) (OldRun e cp 1) (with_index (<[cp := entry]> (fx_tree st)) l1 st))
        as (l & r' & Hl & Hperm & Hrest); try done; try (cbn; lia).
      { right. cbn. split_and!; [lia|lia|done|]. intros q Hq. lia. }
      exists l, r'. split; [|split; [|done]].
      * eapply (sm_run _ _ _ _ _ _ [] _ []); [done|]. cbv beta. rewrite Hag, He by lia. cbv iota.
        rewrite (proj2 (Z.eqb_neq _ _)) by done. cbn [negb].
        eapply (sm_run _ _ _ _ _ _ [] _ []); [eapply (sm_run _ _ _ _ () _ [] _ []); [exact Hc|done]|].
        cbv beta. eapply (sm_run _ _ _ _ _ _ [] _ []); [done|]. cbv beta.
        eapply (sm_run _ _ _ _ () _ [] _ []); [done|]. exact Hl.
      * rewrite Hperm. cbn [fx_olds with_index]. rewrite Hd1. unfold run_pages at 1. cbn.
        rewrite (proj2 (Z.eqb_neq _ _)) by done. cbn.
        fold (run_pages r). solve_Permutation.
  - (* a hole *)
    destruct (IH (cp + 1) r (with_index (<[cp := entry]> (fx_tree st)) (fx_olds st) st))
      as (l & r' & Hl & Hperm & Hrest); try done; try (cbn; lia).
    { destruct Hrun as [?|(Hp & Hle & Hs & Hnone)]; [by left|right]. split_and!; [done|lia|done|].
      intros q Hq. destruct (decide (q = cp)) as [->|]; [done|]. apply Hnone. lia. }
    exists l, r'. split; [|split; [exact Hperm|done]].
    eapply (sm_run _ _ _ _ _ _ [] _ []); [done|]. cbv beta. rewrite Hag, He by lia. cbv iota.
    rewrite Hmem. eapply (sm_run _ _ _ _ () _ [] _ []); [done|]. exact Hl.
Qed.
End assign_loop.

(** ** The invariant *)

(** An entry holds a page: mapped, or replaced by the last write. *)
Definition holds (st : file_state) (e p : Z) : Prop :=
  fx_tree st !! p = Some e \/ (e, p) ∈ deferred (fx_olds st).

Section assign.
Context {RB : RbOps} {KM : KmemOps} {CR : CrcOps} {MP : ModParams}.
Context {RBL : RbLaws} {KML : KmemLaws}.
Context (sbi : nova_sb_info) (Hmc : metadata_csum = false).
Context (snapshots : list Z) (nomem : Z -> bool) (Hmem : forall p, nomem p = false).
Context (Hslab : forall T, is_Some (nova_alloc_range_node T)).

Record index_ok (m : mem) (st : file_state) : Prop := {
  io_lists : lists_wf sbi (fx_lists st);
  io_count : 0 <= fx_i_blocks st < TWO64;
  io_runs : Forall old_ok (fx_olds st);
  io_held : forall e p, holds st e p -> held_entry m (fx_lists st) e /\ has_page (went m e) p;
  io_apart : forall e p e' p', holds st e p -> holds st e' p' -> e = e' \/ apart e e';
  io_once : NoDup (deferred (fx_olds st));
  io_gone : forall e p, (e, p) ∈ deferred (fx_olds st) -> fx_tree st !! p <> Some e;
  io_distinct : forall e p e' p', holds st e p -> holds st e' p' ->
    page_block (went m e) p = page_block (went m e') p' -> e = e' /\ p = p';
  io_used : forall e p, holds st e p -> ~ free_block (fx_lists st) false (page_block (went m e) p);
  io_gap : gap_free (fx_tree st)
}.

(** A write entry in the log whose blocks were just allocated. *)
Record fresh_entry (m : mem) (st : file_state) (e : Z) : Prop := {
  fe_held : held_entry m (fx_lists st) e;
  fe_apart : forall e' p, holds st e' p -> apart e' e;
  fe_used : forall p, has_page (went m e) p -> ~ free_block (fx_lists st) false (page_block (went m e) p);
  fe_own : forall p e' p', has_page (went m e) p -> holds st e' p' ->
    page_block (went m e') p' <> page_block (went m e) p
}.

Lemma elem_deferred_entry (a : Z) l : Forall old_ok l -> a ∈ oe_entry <$> l -> exists p, (a, p) ∈ deferred l.
Proof.
  intros Hok (o & -> & Ho)%list_elem_of_fmap. exists (oe_start_pgoff o).
  apply list_elem_of_bind. exists o. split; [|done]. apply elem_old_pages.
  rewrite Forall_forall in Hok. specialize (Hok _ Ho). unfold old_ok in Hok. lia.
Qed.

Lemma index_olds_ok m st : index_ok m st -> olds_ok m (fx_lists st) (fx_olds st).
Proof.
  intros [_ _ Hr Hh Ha Ho _ Hd Hu _]. split; [done| | | |].
  - intros e p Hep. apply Hh. by right.
  - intros a b (p & Hp)%elem_deferred_entry (q & Hq)%elem_deferred_entry; try done.
    apply (Ha a p b q); by right.
  - apply NoDup_fmap_2_strong; [|done]. intros [e p] [e' p'] Hp Hp' E.
    destruct (Hd e p e' p') as [-> ->]; [by right|by right|exact E|done].
  - intros [e p] Hep. apply Hu. by right.
Qed.

Lemma index_went m st t e p :
  index_ok m st -> marks_only (oe_entry <$> fx_olds st) m t -> holds st e p -> went (exec t m) e = went m e.
Proof.
  intros Hi Hk He. eapply marks_went; [exact Hk|]. intros a Ha.
  destruct (elem_deferred_entry a _ (io_runs _ _ Hi) Ha) as (q & Hq).
  destruct (io_apart _ _ Hi a q e p) as [->|Hx]; [by right|done|by left|right].
  unfold apart in *. lia.
Qed.

Lemma fresh_went m st t e :
  index_ok m st -> fresh_entry m st e -> marks_only (oe_entry <$> fx_olds st) m t ->
  went (exec t m) e = went m e.
Proof.
  intros Hi Hf Hk. eapply marks_went; [exact Hk|]. intros a Ha.
  destruct (elem_deferred_entry a _ (io_runs _ _ Hi) Ha) as (q & Hq). right.
  pose proof (fe_apart _ _ _ Hf a q ltac:(by right)). unfold apart in *. lia.
Qed.

(** The state after a write of [e]. *)
Record assigned (m : mem) (st : file_state) (e : Z) (st' : file_state) : Prop := {
  as_tree : forall p, fx_tree st' !! p
    = if decide (has_page (went m e) p) then Some e else fx_tree st !! p;
  as_olds : forall e' p, (e', p) ∈ deferred (fx_olds st')
    <-> has_page (went m e) p /\ fx_tree st !! p = Some e';
  as_freed : blocks_freed sbi (fx_lists st)
    (fun x => exists ep, ep ∈ deferred (fx_olds st) /\ x = block_of m ep) (fx_lists st');
  as_count : fx_i_blocks st' = u64 (fx_i_blocks st - old_count (fx_olds st));
  as_snapshot : fx_snapshot st' = fx_snapshot st
}.

Lemma assigned_holds m st e st' e' p :
  assigned m st e st' -> holds st' e' p ->
  (e' = e /\ has_page (went m e) p) \/ fx_tree st !! p = Some e'.
Proof.
  intros Ha [Ht|Hd].
  - rewrite (as_tree _ _ _ _ Ha) in Ht. case_decide; [left|by right].
    injection Ht as ->. by split.
  - right. by apply (as_olds _ _ _ _ Ha) in Hd as [_ Hd].
Qed.

(** A page that stays mapped or was just replaced was mapped before. *)
Lemma fresh_unmapped m st e p : fresh_entry m st e -> fx_tree st !! p <> Some e.
Proof. intros Hf Hp. pose proof (fe_apart _ _ _ Hf e p ltac:(by left)). unfold apart in *. lia. Qed.

Lemma assigned_index_ok m st e t st' :
  index_ok m st -> fresh_entry m st e -> marks_only (oe_entry <$> fx_olds st) m t -> assigned m st e st' ->
  Forall old_ok (fx_olds st') -> NoDup (deferred (fx_olds st')) -> gap_free (fx_tree st') ->
  index_ok (exec t m) st'.
Proof.
  intros Hi Hf Hk Ha Hok Hnd Hg. pose proof (as_freed _ _ _ _ Ha) as [Hw Hfree Hin].
  assert (Hwe : forall e' p, holds st' e' p -> went (exec t m) e' = went m e').
  { intros e' p [[-> _]|Hp]%(assigned_holds _ _ _ _ _ _ Ha); [by eapply fresh_went|].
    eapply index_went; [done..|by left]. }
  split; try done.
  - rewrite (as_count _ _ _ _ Ha). apply u64_range.
  - intros e' p Hp. rewrite (Hwe _ _ Hp).
    destruct (assigned_holds _ _ _ _ _ _ Ha Hp) as [[-> Hpg]|Hm].
    + split; [|done]. eapply held_change; [apply Hf|by eapply Hwe|eauto].
    + destruct (io_held _ _ Hi e' p) as [Hh Hpg]; [by left|]. split; [|done].
      eapply held_change; [exact Hh|by eapply Hwe|eauto].
  - intros e1 p1 e2 p2 [[-> H1]|H1]%(assigned_holds _ _ _ _ _ _ Ha) [[-> H2]|H2]%(assigned_holds _ _ _ _ _ _ Ha).
    + by left.
    + pose proof (fe_apart _ _ _ Hf e2 p2 ltac:(by left)). right. unfold apart in *. lia.
    + right. apply (fe_apart _ _ _ Hf e1 p1). by left.
    + apply (io_apart _ _ Hi e1 p1 e2 p2); by left.
  - intros e' p [Hpg Hp]%(as_olds _ _ _ _ Ha). rewrite (as_tree _ _ _ _ Ha), decide_True by done.
    intros [= ->]. by apply (fresh_unmapped _ _ e' p Hf).
  - intros e1 p1 e2 p2 H1 H2. rewrite (Hwe _ _ H1), (Hwe _ _ H2). revert H1 H2.
    intros [[-> H1]|H1]%(assigned_holds _ _ _ _ _ _ Ha) [[-> H2]|H2]%(assigned_holds _ _ _ _ _ _ Ha) E.
    + split; [done|]. unfold page_block in E. lia.
    + by destruct (fe_own _ _ _ Hf p1 e2 p2 H1 ltac:(by left)).
    + by destruct (fe_own _ _ _ Hf p2 e1 p1 H2 ltac:(by left)).
    + apply (io_distinct _ _ Hi); [by left|by left|done].
  - intros e' p Hp. rewrite (Hwe _ _ Hp), Hfree.
    destruct (assigned_holds _ _ _ _ _ _ Ha Hp) as [[-> Hpg]|Hm]; intros [Hx|(_ & [e2 p2] & Hd & E)].
    + by eapply fe_used.
    + destruct (fe_own _ _ _ Hf p e2 p2 Hpg); [by right|done].
    + by apply (io_used _ _ Hi e' p); [left|].
    + destruct (io_distinct _ _ Hi e' p e2 p2) as [-> ->]; [by left|by right|done|].
      by apply (io_gone _ _ Hi _ _ Hd).
Qed.

Lemma free_old_run m st epoch :
  index_ok m st ->
  exists ls' t, free_old_entry sbi snapshots 0 epoch st m
      = (Some ((), FileState ls' (fx_tree st) [] (u64 (fx_i_blocks st - old_count (fx_olds st)))
                     (fx_snapshot st)), t)
    /\ marks_only (oe_entry <$> fx_olds st) m t
    /\ blocks_freed sbi (fx_lists st)
         (fun x => exists ep, ep ∈ deferred (fx_olds st) /\ x = block_of m ep) ls'.
Proof.
  intros Hi. destruct (free_olds_run sbi Hmc snapshots Hslab (fx_olds st) m st epoch)
    as (ls' & t & Hr & Hk & Hf); [apply Hi|by apply index_olds_ok|apply Hi|].
  exists ls', t. split; [|done]. unfold free_old_entry.
  eapply (sm_run _ _ _ _ _ _ [] _ t); [done|]. rewrite <- (app_nil_r t).
  eapply sm_run; [exact Hr|]. done.
Qed.

Lemma assign_run m st e :
  index_ok m st -> fresh_entry m st e ->
  exists st' t, nova_assign_write_entry sbi snapshots 0 nomem e (words m e ENTRY_WORDS) true st m
      = (Some (0, st'), t)
    /\ marks_only (oe_entry <$> fx_olds st) m t /\ assigned m st e st' /\ index_ok (exec t m) st'.
Proof.
  intros Hi Hf. pose proof (fe_held _ _ _ Hf) as [_ Hn [Hpg Hmax] _ _].
  destruct (free_old_run m st (we_epoch_id (words m e ENTRY_WORDS)) Hi) as (ls' & t & Hr & Hk & Hfr).
  set (st1 := FileState _ _ _ _ _) in Hr. set (n := Z.to_nat (we_num_pages (went m e))).
  assert (En : Z.of_nat n = we_num_pages (went m e)) by (unfold n; lia).
  assert (HP : forall p, has_page (went m e) p
                <-> we_pgoff (went m e) <= p < we_pgoff (went m e) + Z.of_nat n)
    by (intros p; unfold has_page; lia).
  destruct (assign_loop_run nomem Hmem (fx_tree st) (io_gap _ _ Hi)
              ltac:(intros p e' Hp; destruct (io_held _ _ Hi e' p ltac:(by left)) as [[[? _] _ _ _ _] _]; lia)
              e n (we_pgoff (went m e)) (OldRun 0 0 0) st1 (exec t m))
    as (l & r & Hl & Hperm & Hok & Hr1 & Hr2); try done; try (by left); try (cbn [num_free]; lia).
  destruct (close_run_run r (with_index (enter e n (we_pgoff (went m e)) (fx_tree st)) l st1) (exec t m))
    as (l2 & Hc & Hd2 & Hok2); try done.
  set (st2 := with_index _ l2 _) in Hc. cbn [fx_olds st1] in Hperm. rewrite app_nil_r in Hperm.
  assert (Hd : deferred l2 ≡ₚ replaced (fx_tree st) (we_pgoff (went m e)) n).
  { rewrite Hd2. exact Hperm. }
  assert (Ha : assigned m st e st2).
  { split; try done.
    - intros p. cbn. rewrite enter_lookup. apply decide_ext. symmetry. apply HP.
    - intros e' p. cbn. rewrite Hd, elem_replaced, HP. done. }
  exists st2, t. split; [|split; [exact Hk|split; [exact Ha|]]].
  - unfold nova_assign_write_entry. rewrite <- (app_nil_r t). eapply sm_run; [exact Hr|].
    fold (went m e). fold n. rewrite <- (app_nil_r []).
    eapply sm_run; [exact Hl|]. cbv beta iota. rewrite <- (app_nil_r []).
    eapply sm_run; [exact Hc|]. done.
  - eapply assigned_index_ok; try done.
    + cbn. rewrite Hd. apply replaced_once.
    + cbn. apply enter_gap_free; [apply Hi|]. intros p. by apply (fresh_unmapped _ _ _ _ Hf).
Qed.

(** The rest of the system leaves what the file holds. *)
Lemma others_index_ok m st m' ls' :
  index_ok m st -> lists_wf sbi ls' ->
  (forall i x, in_list (fx_lists st) false i x -> in_list ls' false i x) ->
  (forall e p, holds st e p -> went m' e = went m e) ->
  (forall e p, holds st e p -> ~ free_block ls' false (page_block (went m e) p)) ->
  index_ok m' (with_lists ls' (fx_i_blocks st) st).
Proof.
  intros Hi Hw Hin Hwe Hfr.
  assert (Hh : forall e p, holds (with_lists ls' (fx_i_blocks st) st) e p -> holds st e p) by done.
  destruct Hi as [_ Hc Hr Hheld Hap Ho Hg Hd _ Hgap]. split; try done.
  - intros e p Hp%Hh. rewrite (Hwe _ _ Hp). destruct (Hheld _ _ Hp) as [He Hpg]. split; [|done].
    eapply held_change; [exact He|by eapply Hwe|done].
  - intros e p e' p' Hp%Hh Hp'%Hh. rewrite (Hwe _ _ Hp), (Hwe _ _ Hp'). by apply Hd.
  - intros e p Hp%Hh. rewrite (Hwe _ _ Hp). by apply Hfr.
Qed.

End assign.
