(* ===== verification/FileCharge.v ===== *)
(** Charging a write entry with pages cut off a file: [invalid_pages] counts
    them in the entry, and the page of the log counts the entries that have
    none left. *)

From S2P Require Import Prelude.
From S2P Require Import Kernel.
From S2P Require Import Checksum.
From S2P Require Import RangeTree.
From S2P Require Import Layout.
From S2P Require Import FreeList.
From S2P Require Import Balloc.
From S2P Require Import BallocSpec.
From S2P Require Import Pmem.
From S2P Require Import PmemSpec.
From S2P Require Import Journal.
From S2P Require Import InodeLog.
From S2P Require Import DataGuard.
From S2P Require Import DataGuardSpec.
From S2P Require Import Replica.
From S2P Require Import Recovery.
From S2P Require Import RecoverySpec.
From S2P Require Import FileScanSpec.
From S2P Require Import FileIndex.
From S2P Require Import FileIndexSpec.
From S2P Require Import FileAssign.

(** The snapshots do not need the pages of an entry that go in [epoch]. *)
Definition deletable (snapshots : list Z) (m : mem) (epoch e : Z) : bool :=
  negb (nova_old_entry_deleteable snapshots (cur m (e + 40)) epoch =? 0).

(** [k] more pages of the entry are gone. *)
Definition raise (k : Z) (w : write_entry) : write_entry :=
  WriteEntry (we_num_pages w) (we_blocknr w) (we_pgoff w) (we_invalid_pages w + k) (we_size w) (we_trans_id w).

Lemma raise_0 w : raise 0 w = w.
Proof. destruct w. unfold raise. cbn. by rewrite Z.add_0_r. Qed.
Lemma raise_raise j k w : raise k (raise j w) = raise (j + k) w.
Proof. unfold raise. cbn. by rewrite Z.add_assoc. Qed.

Lemma low_half h v : u32 (Z.lor (Z.shiftl h 32) (u32 v)) = u32 v.
Proof.
  unfold u32. change TWO32 with (2 ^ 32). apply Z.bits_inj'. intros i Hi.
  destruct (Z.ltb_spec i 32) as [Hlt|Hge]; [|by rewrite !Z.mod_pow2_bits_high by lia].
  rewrite !Z.mod_pow2_bits_low, Z.lor_spec, Z.shiftl_spec_low by lia. by rewrite Z.mod_pow2_bits_low by lia.
Qed.

Section charge.
Context {RB : RbOps} {KM : KmemOps} {CR : CrcOps} {MP : ModParams}.
Context (sbi : nova_sb_info) (Hmc : metadata_csum = false) (Hal : meta_start_virt sbi mod 4096 = 0).

(** The counter of the page an entry lies in, and an entry that is not in the
    tail of its page. *)
Definition page_counter (e : Z) : Z := log_page sbi (nova_get_addr_off sbi e true) + off_entries.
Definition in_body (e : Z) : Prop := e mod 4096 + 64 <= LOG_BLOCK_TAIL.

Lemma page_counter_mod e : page_counter e mod 4096 = LOG_BLOCK_TAIL.
Proof.
  unfold page_counter, log_page, meta_addr, nova_get_virt_addr_from_offset, off_entries, BLOCK_OFF, LOG_BLOCK_TAIL.
  change PAGE_OFFSET_MASK with (PAGE_SIZE - 1). rewrite land_not_4095.
  set (o := nova_get_addr_off sbi e true). unfold u64.
  pose proof (Z.div_mod o 4096 ltac:(lia)) as Ho. pose proof (Z.div_mod (meta_start_virt sbi) 4096 ltac:(lia)) as Hm.
  rewrite Hal in Hm. replace (meta_start_virt sbi + (o - o mod 4096))
    with ((meta_start_virt sbi / 4096 + o / 4096) * 4096) by lia.
  change TWO64 with (4503599627370496 * 4096). rewrite Zmult_mod_distr_r, Z.add_comm, Z_mod_plus_full. done.
Qed.

Lemma counter_outside e e' : in_body e' -> ~ (e' <= page_counter e < e' + 64).
Proof.
  unfold in_body. intros Hb Hc. pose proof (page_counter_mod e) as Hm. unfold LOG_BLOCK_TAIL in *.
  pose proof (Z.div_mod e' 4096 ltac:(lia)). pose proof (Z.div_mod (page_counter e) 4096 ltac:(lia)).
  pose proof (Z.mod_pos_bound e' 4096 ltac:(lia)).
  assert (page_counter e / 4096 = e' / 4096) by lia. lia.
Qed.

(** The stores of a charge. *)
Definition touched (e : Z) (t : list pact) : Prop :=
  forall a, a <> e -> a <> e + 24 -> a <> page_counter e -> untouched a t.

Lemma touched_nil e : touched e [].
Proof. intros a _ _ _. constructor. Qed.
Lemma touched_app e t1 t2 : touched e t1 -> touched e t2 -> touched e (t1 ++ t2).
Proof. intros H1 H2 a ? ? ?. apply untouched_app. auto. Qed.

(** Other entries stay. *)
Lemma touched_word m e e' t k :
  touched e t -> apart e e' -> in_body e' -> 0 <= k < 64 -> cur (exec t m) (e' + k) = cur m (e' + k).
Proof.
  intros Ht Ha Hb Hk. pose proof (counter_outside e e' Hb). unfold apart in Ha. apply cur_untouched, Ht; lia.
Qed.

Lemma went_eq m e :
  went m e = WriteEntry (hi32 (cur m e)) (cur m (e + 8)) (cur m (e + 16)) (u32 (cur m (e + 24)))
               (cur m (e + 32)) (cur m (e + 48)).
Proof. unfold went, ENTRY_WORDS. rewrite !words_S, <- !Z.add_assoc. reflexivity. Qed.

Lemma went_words m m' e :
  (forall k, 0 < k < 64 -> k <> 24 -> cur m' (e + k) = cur m (e + k)) -> hi32 (cur m' e) = hi32 (cur m e) ->
  went m' e = WriteEntry (we_num_pages (went m e)) (we_blocknr (went m e)) (we_pgoff (went m e))
                (u32 (cur m' (e + 24))) (we_size (went m e)) (we_trans_id (went m e)).
Proof. intros Hw Hh. rewrite !went_eq. cbn. by rewrite Hh, (Hw 8), (Hw 16), (Hw 32), (Hw 48) by lia. Qed.

Lemma went_invalid m e : we_invalid_pages (went m e) = u32 (cur m (e + 24)).
Proof. by rewrite went_eq. Qed.

Lemma touched_went m e e' t : touched e t -> apart e e' -> in_body e' -> went (exec t m) e' = went m e'.
Proof.
  intros Ht Ha Hb. assert (Hw : forall k, 0 <= k < 64 -> cur (exec t m) (e' + k) = cur m (e' + k)).
  { intros k Hk. by apply (touched_word _ e). }
  pose proof (Hw 0 ltac:(lia)) as H0. rewrite Z.add_0_r in H0.
  rewrite (went_words m) by (by rewrite ?H0 || (intros; apply Hw; lia)). rewrite Hw, <- went_invalid by lia. by destruct (went m e').
Qed.

Lemma inc_invalid_run e m :
  exists t, inc_invalid sbi e m = ((), t) /\ forall a, a <> page_counter e -> untouched a t.
Proof.
  unfold inc_invalid, nova_inc_page_invalid_entries, store32_lo, flush_page_tail. fold (page_counter e).
  rewrite bind_load. eexists. split.
  - eapply bind_run; [rewrite bind_load; done|]. apply flush_only_run.
  - intros a Ha. apply untouched_app. split; [|apply flush_acts_untouched].
    constructor; [|constructor]. cbn. congruence.
Qed.

(** The stores to the entry. *)
Definition charge_acts (m : mem) (e n v : Z) : list pact :=
  Store e v :: if n =? 0 then [] else
    [Store (e + 24) (Z.lor (Z.shiftl (Z.shiftr (cur m (e + 24)) 32) 32) (u32 (u32 (cur m (e + 24)) + n)))].

Lemma charge_stores m e n v :
  0 <= n -> we_invalid_pages (went m e) + n < TWO32 -> same_marked v (cur m e) ->
  let t := charge_acts m e n v in
  touched e t /\ went (exec t m) e = raise n (went m e) /\ cur (exec t m) (e + 40) = cur m (e + 40).
Proof.
  intros Hn Hb Hv t. rewrite went_invalid in Hb. pose proof (u32_range (cur m (e + 24))) as Hr.
  assert (Ht : forall a, a <> e -> a <> e + 24 -> untouched a t).
  { intros a H1 H2. constructor; [cbn; congruence|]. destruct (n =? 0); repeat constructor. cbn. congruence. }
  assert (Hw : forall k, 0 < k < 64 -> k <> 24 -> cur (exec t m) (e + k) = cur m (e + k)).
  { intros k H1 H2. apply cur_untouched, Ht; lia. }
  split_and!; [intros a H1 H2 _; by apply Ht| |apply Hw; lia].
  rewrite (went_words m); [|done|]; last first.
  { rewrite <- (same_hi32 _ _ Hv). f_equal. unfold t, charge_acts.
    change (Store e v :: ?l) with ([Store e v] ++ l). rewrite exec_app, cur_untouched.
    - change (exec [Store e v] m) with (exec1 (Store e v) m). rewrite cur_store. by rewrite decide_True.
    - destruct (n =? 0); repeat constructor. cbn. intros [=]. lia. }
  unfold raise. f_equal. rewrite went_invalid. unfold t, charge_acts. destruct (Z.eqb_spec n 0) as [->|].
  - rewrite Z.add_0_r. f_equal. apply cur_untouched. repeat constructor. cbn. intros [=]. lia.
  - change (exec [?a; ?b] m) with (exec1 b (exec1 a m)). rewrite cur_store, decide_True by done.
    rewrite low_half, u32_small; [done|lia].
Qed.

(** Marking the entry and raising its count; the counter of the page. *)
Lemma charge_entry_run m e n :
  e mod 8 = 0 -> exists v t', same_marked v (cur m e)
    /\ nova_execute_invalidate_reassign_logentry sbi e FILE_WRITE true n m = ((), charge_acts m e n v ++ t')
    /\ forall a, a <> page_counter e -> untouched a t'.
Proof.
  intros He. destruct (store_byte1 e m He) as (v & Hs & Hv). set (m2 := exec (charge_acts m e n v) m).
  destruct (inc_invalid_run e m2) as (t' & Hi & Hu).
  set (inv := we_invalid_pages (went m2 e) =? we_num_pages (went m2 e)).
  exists v, (if inv then t' else []). split_and!; [done| |destruct inv; [done|constructor]].
  unfold nova_execute_invalidate_reassign_logentry. eapply (bind_run _ _ m inv).
  - change (charge_acts m e n v) with ([Store e v] ++ tail (charge_acts m e n v)).
    eapply bind_run; [exact Hs|]. rewrite <- (app_nil_r (tail _)). apply (bind_run _ _ _ () _ _ []).
    + unfold charge_acts. destruct (n =? 0); [done|]. cbn [tail]. unfold store32_lo. rewrite !bind_load.
      rewrite cur_untouched; [done|]. repeat constructor. cbn. intros [=]. lia.
    + rewrite bind_load_words. by rewrite <- exec_app.
  - rewrite <- (app_nil_r (if inv then _ else _)). apply (bind_run _ _ _ () _ _ []); [|].
    + by destruct inv.
    + unfold nova_update_entry_csum. by rewrite Hmc.
Qed.

(** [nova_invalidate_write_entry] with [n] pages. *)
Lemma charge_run m e n (st : file_state) :
  0 < e -> e mod 8 = 0 -> in_body e -> 0 <= n -> we_invalid_pages (went m e) + n < TWO32 ->
  exists t, nova_invalidate_write_entry sbi e true n st m = (Some (0, st), t)
    /\ touched e t /\ went (exec t m) e = raise n (went m e) /\ cur (exec t m) (e + 40) = cur m (e + 40).
Proof.
  intros He Ha8 Hbody Hn Hb. unfold nova_invalidate_write_entry. rewrite (proj2 (Z.eqb_neq _ _)) by lia.
  destruct ((n =? 0) && (we_reassigned (words m e ENTRY_WORDS) =? 1)) eqn:Hre.
  { exists []. apply andb_true_iff in Hre as Hre'. destruct Hre' as [->%Z.eqb_eq _].
    split_and!; [|apply touched_nil|by rewrite raise_0|done].
    eapply (sm_run _ _ _ _ _ _ [] _ []); [by apply index_copy_run|]. cbv beta iota. by rewrite Hre. }
  destruct (charge_entry_run m e n Ha8) as (v & t' & Hv & Hx & Hu).
  destruct (charge_stores m e n v Hn Hb Hv) as (Ht & Hw & Hk). set (t := charge_acts m e n v) in *.
  assert (Hc : forall k, 0 <= k < 64 -> cur (exec (t ++ t') m) (e + k) = cur (exec t m) (e + k)).
  { intros k Hk'. rewrite exec_app. apply cur_untouched, Hu. pose proof (counter_outside e e Hbody). lia. }
  exists (t ++ t'). split_and!.
  - apply (sm_run _ _ _ _ (Some (words m e ENTRY_WORDS)) st [] _ (t ++ t')); [by apply index_copy_run|]. cbv beta iota. rewrite Hre.
    unfold mem_opt. rewrite <- (app_nil_r (t ++ t')). apply (bind_run _ _ m (Some 0) _ _ []); [|done].
    rewrite <- (app_nil_r (t ++ t')). apply (bind_run _ _ m () _ _ []); [exact Hx|].
    unfold nova_update_alter_entry. by rewrite Hmc.
  - apply touched_app; [exact Ht|]. intros a _ _ Ha. by apply Hu.
  - rewrite <- Hw, !went_eq. pose proof (Hc 0 ltac:(lia)) as H0. rewrite Z.add_0_r in H0. by rewrite H0, !Hc by lia.
  - by rewrite <- Hk, Hc by lia.
Qed.

(** ** The blocks of a run that is cut off

    With [dd] they are freed.  Without it they are freed, and the entry charged
    with them, if no snapshot needs them, and recorded for the snapshot
    otherwise. *)

Context {RBL : RbLaws} {KML : KmemLaws}.
Context (snapshots : list Z).
Context (Hslab : forall T, is_Some (nova_alloc_range_node T)).

Definition run_goes (dd : bool) (m : mem) (epoch e : Z) : bool := dd || deletable snapshots m epoch e.
Definition run_charged (dd : bool) (m : mem) (epoch e : Z) : bool := negb dd && deletable snapshots m epoch e.

Record run_released (m m1 : mem) (st : file_state) (e p n k : Z) (dd : bool) (epoch : Z)
    (ls' : list free_list) (t : list pact) : Prop := {
  rr_lists : blocks_freed sbi (fx_lists st)
    (fun x => run_goes dd m epoch e = true /\ exists q, p <= q < p + n /\ x = page_block (went m e) q) ls';
  rr_touched : touched e t;
  rr_quiet : dd = true -> t = [];
  rr_went : went (exec t m1) e = raise (k + if run_charged dd m epoch e then n else 0) (went m e);
  rr_epoch : cur (exec t m1) (e + 40) = cur m (e + 40)
}.

Definition run_record (dd : bool) (m : mem) (epoch e p n : Z) : list (Z * Z * Z) :=
  if run_goes dd m epoch e then [] else [(page_block (went m e) p, n, epoch)].

Lemma release_run m m1 (st : file_state) e p n k dd epoch :
  lists_wf sbi (fx_lists st) -> held_entry m (fx_lists st) e -> (dd = false -> in_body e) ->
  0 < n < TWO31 -> we_pgoff (went m e) <= p -> p + n <= we_pgoff (went m e) + we_num_pages (went m e) ->
  (forall q, p <= q < p + n -> ~ free_block (fx_lists st) false (page_block (went m e) q)) ->
  went m1 e = raise k (went m e) -> cur m1 (e + 40) = cur m (e + 40) ->
  (dd = false -> we_invalid_pages (went m e) + k + n <= we_num_pages (went m e)) ->
  exists ls' t, nova_free_old_entry sbi snapshots 0 e p n dd epoch st m1
      = (Some (n, FileState ls' (fx_tree st) (fx_olds st) (u64 (fx_i_blocks st - n))
                    (fx_snapshot st ++ run_record dd m epoch e p n)), t)
    /\ run_released m m1 st e p n k dd epoch ls' t.
Proof.
  intros Hw He Hbody Hn Hp1 Hp2 Hnf Hw1 He1 Hroom. pose proof He as [[Ha Ha8] Hnum _ _ _].
  assert (Hnv : get_nvmm 0 (went m1 e) p = page_block (went m e) p).
  { rewrite Hw1. change (get_nvmm 0 (raise k (went m e)) p) with (get_nvmm 0 (went m e) p).
    apply (get_nvmm_held sbi m (fx_lists st)); [done|done|unfold has_page; lia]. }
  assert (Hep : we_epoch_id (words m1 e ENTRY_WORDS) = cur m (e + 40)).
  { rewrite <- He1. unfold we_epoch_id, ENTRY_WORDS. rewrite !words_S, <- !Z.add_assoc. done. }
  unfold nova_free_old_entry. rewrite (proj2 (Z.eqb_neq _ _)) by lia.
  assert (Hread : forall f : option (list Z) -> SM file_state Z, forall r t,
      f (Some (words m1 e ENTRY_WORDS)) st m1 = (r, t) -> (entry_copy_words sbi e ≫= f) st m1 = (r, t)).
  { intros f r t. apply (sm_run _ _ _ _ _ _ [] _ t). by apply index_copy_run. }
  assert (Hgo : run_goes dd m epoch e = dd || deletable snapshots m epoch e) by done.
  assert (Hch : run_charged dd m epoch e = negb dd && deletable snapshots m epoch e) by done.
  unfold run_record. unfold deletable in Hgo, Hch.
  destruct dd; [|destruct (Z.eqb_spec (nova_old_entry_deleteable snapshots (cur m (e + 40)) epoch) 0) as [Hret|Hret]];
    cbn [orb negb andb] in Hgo, Hch; rewrite Hgo.
  - destruct (free_data_run sbi Hslab m m1 st e p n) as (ls' & Hr & Hf); try done. exists ls', []. split.
    + apply Hread. cbv beta iota zeta. fold (went m1 e). rewrite Hnv, app_nil_r.
      eapply (sm_run _ _ _ _ false st [] _ []); [done|]. cbv beta iota.
      eapply (sm_run _ _ _ _ () _ [] _ []); [eapply (sm_run _ _ _ _ 0 _ [] _ []); [exact Hr|done]|]. done.
    + split; rewrite ?Hgo, ?Hch; [|apply touched_nil|done|by rewrite Z.add_0_r|done].
      eapply blocks_freed_ext; [|exact Hf]. naive_solver.
  - set (st1 := FileState (fx_lists st) (fx_tree st) (fx_olds st) (fx_i_blocks st)
      (fx_snapshot st ++ [(page_block (went m e) p, n, epoch)])).
    destruct (charge_run m1 e 0 st1) as (t & Hr & Ht & Hwt & Het); try done; [by apply Hbody| |].
    { rewrite Hw1. cbn [raise we_invalid_pages]. specialize (Hroom eq_refl). lia. }
    exists (fx_lists st), t. split.
    + apply Hread. cbv beta iota zeta. fold (went m1 e). rewrite Hnv, Hep.
      rewrite <- (app_nil_r t). eapply (sm_run _ _ _ _ true st1 t _ []); [|done].
      unfold nova_append_data_to_snapshot. rewrite Hret. cbn [Z.eqb].
      eapply (sm_run _ _ _ _ 0 st1 [] _ t); [done|]. cbn [Z.eqb].
      rewrite <- (app_nil_r t). eapply (sm_run _ _ _ _ 0 st1 t _ []); [exact Hr|done].
    + split; rewrite ?Hgo, ?Hch; [|done|done|by rewrite Hwt, Hw1, raise_raise|by rewrite Het].
      split; [done| |done]. intros meta x. split; [by left|]. intros [?|(_ & ? & _)]; done.
  - specialize (Hroom eq_refl).
    destruct (charge_run m1 e n st) as (t & Hr & Ht & Hwt & Het); try done; [by apply Hbody|lia| |].
    { rewrite Hw1. cbn [raise we_invalid_pages]. lia. }
    destruct (free_data_run sbi Hslab m (exec t m1) st e p n) as (ls' & Hrf & Hf); try done.
    exists ls', t. split.
    + apply Hread. cbv beta iota zeta. fold (went m1 e). rewrite Hnv, Hep, app_nil_r.
      rewrite <- (app_nil_r t). eapply (sm_run _ _ _ _ false st t _ []).
      * unfold nova_append_data_to_snapshot. rewrite (proj2 (Z.eqb_neq _ _) Hret).
        eapply (sm_run _ _ _ _ _ st [] _ t); [done|]. rewrite (proj2 (Z.eqb_neq _ _) Hret).
        rewrite <- (app_nil_r t). eapply (sm_run _ _ _ _ 0 st t _ []); [exact Hr|done].
      * eapply (sm_run _ _ _ _ () _ [] _ []); [eapply (sm_run _ _ _ _ 0 _ [] _ []); [exact Hrf|done]|]. done.
    + split; rewrite ?Hgo, ?Hch; [|done|done|by rewrite Hwt, Hw1, raise_raise|by rewrite Het].
      eapply blocks_freed_ext; [|exact Hf]. naive_solver.
Qed.
End charge.
