(* ===== verification/FileTruncate.v ===== *)
(** Truncation of the file index: the pages from a given one on are unmapped
    and the blocks they lie in freed, run by run. *)

From S2P Require Import Prelude.
From S2P Require Import Kernel.
From S2P Require Import Checksum.
From S2P Require Import RangeTree.
From S2P Require Import Layout.
From S2P Require Import FreeList.
From S2P Require Import Balloc.
From S2P Require Import BallocSpec.
From S2P Require Import Pmem.
From S2P Require Import PmemSpec.
From S2P Require Import Journal.
From S2P Require Import InodeLog.
From S2P Require Import DataGuard.
From S2P Require Import Recovery.
From S2P Require Import RecoverySpec.
From S2P Require Import FileScanSpec.
From S2P Require Import FileIndex.
From S2P Require Import FileIndexSpec.
From S2P Require Import FileAssign.
From S2P Require Import FileCharge.

(** ** The next page of a file *)

Lemma first_key_ok (T : gmap Z Z) p :
  match first_key T p with
  | Some k => p <= k /\ is_Some (T !! k) /\ forall q, p <= q < k -> T !! q = None
  | None => forall q, p <= q -> T !! q = None
  end.
Proof.
  unfold first_key.
  assert (Hin : forall q, is_Some (T !! q) <-> q ∈ (map_to_list T).*1).
  { intros q. rewrite list_elem_of_fmap. split.
    - intros [e He]. exists (q, e). split; [done|]. by apply elem_of_map_to_list.
    - intros ([q' e] & -> & He). apply elem_of_map_to_list in He. by eexists. }
  enough (match foldr (fun k r => if k <? p then r
                 else match r with Some k' => Some (Z.min k k') | None => Some k end) None (map_to_list T).*1 with
          | Some k => p <= k /\ k ∈ (map_to_list T).*1 /\ forall q, p <= q < k -> q ∉ (map_to_list T).*1
          | None => forall q, p <= q -> q ∉ (map_to_list T).*1
          end) as H.
  { destruct (foldr _ _ _) as [k|].
    - destruct H as (Hk & Hi & Hn). split_and!; [done|by apply Hin|]. intros q Hq.
      apply eq_None_not_Some. rewrite Hin. auto.
    - intros q Hq. apply eq_None_not_Some. rewrite Hin. auto. }
  clear Hin. induction ((map_to_list T).*1) as [|k l IH]; cbn [foldr].
  { intros q _. apply not_elem_of_nil. }
  destruct (Z.ltb_spec k p) as [Hk|Hk].
  - destruct (foldr _ _ l) as [k'|].
    + destruct IH as (? & ? & Hn). split_and!; [done|by right|]. intros q Hq.
      apply not_elem_of_cons. split; [lia|auto].
    + intros q Hq. apply not_elem_of_cons. split; [lia|auto].
  - destruct (foldr _ _ l) as [k'|].
    + destruct IH as (? & ? & Hn). split_and!; [lia| |].
      * destruct (Z.min_spec k k') as [[_ ->]|[_ ->]]; [by left|by right].
      * intros q Hq. apply not_elem_of_cons. split; [lia|]. apply Hn. lia.
    + split_and!; [done|by left|]. intros q Hq. apply not_elem_of_cons. split; [lia|]. apply IH. lia.
Qed.

(** ** Pages counted *)

Lemma replaced_app T a n k :
  replaced T a (n + k) = replaced T a n ++ replaced T (a + Z.of_nat n) k.
Proof.
  unfold replaced. rewrite Nat2Z.inj_add, seqZ_app by lia. by rewrite omap_app.
Qed.

Lemma replaced_nil T a n : (forall q, a <= q < a + Z.of_nat n -> T !! q = None) -> replaced T a n = [].
Proof.
  intros H. destruct (replaced T a n) as [|[e p] l] eqn:E; [done|].
  destruct (proj1 (elem_replaced T a n e p)) as [Hp He]; [rewrite E; by left|].
  by rewrite H in He.
Qed.

Lemma length_replaced_full T a n :
  (forall q, a <= q < a + Z.of_nat n -> is_Some (T !! q)) -> length (replaced T a n) = n.
Proof.
  revert a. induction n as [|n IH]; intros a H; [done|]. rewrite replaced_S.
  destruct (H a) as [e ->]; [lia|]. cbn [length]. f_equal. apply IH. intros q Hq. apply H. lia.
Qed.

(** The mapped pages of [a, b). *)
Definition count_pages (T : gmap Z Z) (a b : Z) : Z := Z.of_nat (length (replaced T a (Z.to_nat (b - a)))).

Lemma count_split T a b c : a <= b <= c -> count_pages T a c = count_pages T a b + count_pages T b c.
Proof.
  intros H. unfold count_pages.
  replace (Z.to_nat (c - a)) with (Z.to_nat (b - a) + Z.to_nat (c - b))%nat by lia.
  rewrite replaced_app, length_app. replace (a + Z.of_nat (Z.to_nat (b - a))) with b by lia. lia.
Qed.

Lemma count_none T a b : (forall q, a <= q < b -> T !! q = None) -> count_pages T a b = 0.
Proof. intros H. unfold count_pages. rewrite replaced_nil; [done|]. intros q Hq. apply H. lia. Qed.

Lemma count_full T a b : a <= b -> (forall q, a <= q < b -> is_Some (T !! q)) -> count_pages T a b = b - a.
Proof.
  intros Hab H. unfold count_pages. rewrite length_replaced_full; [lia|]. intros q Hq. apply H. lia.
Qed.

Lemma count_nonneg T a b : 0 <= count_pages T a b.
Proof. unfold count_pages. lia. Qed.

(** The pages of [a, b) that map to [e]. *)
Definition pages_at (T : gmap Z Z) (e a b : Z) : list Z := filter (fun q => T !! q = Some e) (seqZ a (b - a)).
Definition count_at (T : gmap Z Z) (e a b : Z) : Z := Z.of_nat (length (pages_at T e a b)).

Lemma elem_pages_at T e a b q : q ∈ pages_at T e a b <-> T !! q = Some e /\ a <= q < b.
Proof. unfold pages_at. rewrite list_elem_of_filter, elem_of_seqZ. split; intros [? ?]; (split; [done|lia]). Qed.

Lemma pages_at_once T e a b : NoDup (pages_at T e a b).
Proof. apply NoDup_filter, NoDup_seqZ. Qed.

Lemma count_at_split T e a b c : a <= b <= c -> count_at T e a c = count_at T e a b + count_at T e b c.
Proof.
  intros H. unfold count_at, pages_at. replace (c - a) with ((b - a) + (c - b)) by lia.
  rewrite seqZ_app, filter_app, length_app by lia. replace (a + (b - a)) with b by lia. lia.
Qed.

Lemma count_at_none T e a b : (forall q, a <= q < b -> T !! q <> Some e) -> count_at T e a b = 0.
Proof.
  intros H. unfold count_at. destruct (pages_at T e a b) as [|q l] eqn:E; [done|].
  destruct (proj1 (elem_pages_at T e a b q)) as [Hq Hr]; [rewrite E; by left|]. by destruct (H q Hr).
Qed.

Lemma count_at_full T e a b : a <= b -> (forall q, a <= q < b -> T !! q = Some e) -> count_at T e a b = b - a.
Proof.
  intros Hab H. unfold count_at. rewrite (Permutation_length (l' := seqZ a (b - a))), length_seqZ; [lia|].
  apply NoDup_Permutation; [apply pages_at_once|apply NoDup_seqZ|]. intros q.
  rewrite elem_pages_at, elem_of_seqZ. split; [lia|]. intros Hq. split; [apply H|]; lia.
Qed.

(** [invalid_pages] of an entry counts no page that the file still holds, and
    the entry lies before the tail of its log page. *)
Definition pages_counted (m : mem) (st : file_state) : Prop :=
  forall e p, holds st e p -> in_body e
    /\ forall l, NoDup l -> (forall q, q ∈ l -> holds st e q) ->
         we_invalid_pages (went m e) + Z.of_nat (length l) <= we_num_pages (went m e).

Section truncate.
Context {RB : RbOps} {KM : KmemOps} {CR : CrcOps} {MP : ModParams}.
Context {RBL : RbLaws} {KML : KmemLaws}.
Context (sbi : nova_sb_info) (Hmc : metadata_csum = false) (Hal : meta_start_virt sbi mod 4096 = 0).
Context (snapshots : list Z).
Context (Hslab : forall T, is_Some (nova_alloc_range_node T)).

(** The flags and the epoch of the truncation. *)
Context (dn dd : bool) (epoch : Z).

(** The file before, the first page to go, an end of the file. *)
Context (m : mem) (st0 : file_state) (Hi : index_ok sbi m st0).
Context (start hi : Z) (Hstart : 0 <= start <= hi) (Hhi : hi < TWO64).
Context (Hend : forall p, hi <= p -> fx_tree st0 !! p = None).
Context (Htot : count_pages (fx_tree st0) start hi < TWO31).
Context (Hpc : dn = true -> dd = false -> pages_counted m st0).

Abbreviation T0 := (fx_tree st0).

(** Which entries lose their blocks, keep them for a snapshot, are charged. *)
Definition entry_goes (e : Z) : bool := dn && run_goes snapshots dd m epoch e.
Definition entry_kept (e : Z) : bool := dn && negb (run_goes snapshots dd m epoch e).
Definition entry_charged (e : Z) : bool := dn && run_charged snapshots dd m epoch e.

(** Block [x] holds a page of [a, b), of an entry of [P]. *)
Definition cut (P : Z -> bool) (a b x : Z) : Prop :=
  exists q e, a <= q < b /\ T0 !! q = Some e /\ P e = true /\ x = page_block (went m e) q.

(** The pages freed when the ones before [d] are dealt with. *)
Definition freed_pages (d : Z) : Z := if dn then count_pages T0 start d else 0.

(** What became of the blocks of the pages of [start, d), and of the entries:
    the blocks given up are free, the others recorded for the snapshots; the
    entries charged have their [invalid_pages] raised by the number of these
    pages; persistent memory has no other change. *)
Record released (d : Z) (ls : list free_list) (sn : list (Z * Z * Z)) (t : list pact) : Prop := {
  rl_lists : blocks_freed sbi (fx_lists st0) (cut entry_goes start d) ls;
  rl_records : exists recs, sn = fx_snapshot st0 ++ recs /\ Forall (fun r => r.2 = epoch) recs
    /\ forall x, (exists r, r ∈ recs /\ r.1.1 <= x < r.1.1 + r.1.2) <-> cut entry_kept start d x;
  rl_went : forall e q, T0 !! q = Some e ->
    went (exec t m) e = raise (if entry_charged e then count_at T0 e start d else 0) (went m e);
  rl_epoch : forall e q, T0 !! q = Some e -> cur (exec t m) (e + 40) = cur m (e + 40);
  rl_frame : forall a, (forall e q, T0 !! q = Some e -> start <= q ->
    a <> e /\ a <> e + 24 /\ a <> page_counter sbi e) -> untouched a t;
  rl_quiet : dn = false \/ dd = true -> t = []
}.

(** [r] is the run of the last entry met in [start, cp); its pages are not
    freed yet. *)
Definition run_at (cp : Z) (r : old_run) : Prop :=
  (start_old_entry r = 0 /\ forall q, start <= q < cp -> T0 !! q = None)
  \/ (start_old_entry r <> 0 /\ start <= start_old_pgoff r /\ 0 < num_free r
      /\ start_old_pgoff r + num_free r <= cp
      /\ (forall q, start_old_pgoff r <= q < start_old_pgoff r + num_free r ->
            T0 !! q = Some (start_old_entry r))
      /\ (forall q, start_old_pgoff r + num_free r <= q < cp -> T0 !! q = None)).

(** The pages before this one are dealt with. *)
Definition done_to (r : old_run) : Z :=
  if start_old_entry r =? 0 then start else start_old_pgoff r.

Record trunc_inv (cp : Z) (r : old_run) (freed : Z) (st : file_state) (t : list pact) : Prop := {
  ti_cp : start <= cp <= hi + 1;
  ti_tree : forall q, fx_tree st !! q = if decide (start <= q < cp) then None else T0 !! q;
  ti_run : run_at cp r;
  ti_freed : freed = freed_pages (done_to r);
  ti_blocks : fx_i_blocks st = u64 (fx_i_blocks st0 - freed);
  ti_olds : fx_olds st = fx_olds st0;
  ti_released : released (done_to r) (fx_lists st) (fx_snapshot st) t
}.

Lemma count_below a b : start <= a <= b -> count_pages T0 a b < TWO31.
Proof.
  intros H. destruct (decide (hi <= a)).
  { rewrite count_none; [lia|]. intros q Hq. apply Hend. lia. }
  assert (Hb : count_pages T0 a (b `max` hi) < TWO31).
  { rewrite (count_split T0 a hi) by lia. rewrite (count_none T0 hi) by (intros q Hq; apply Hend; lia).
    pose proof (count_split T0 start a hi ltac:(lia)). pose proof (count_nonneg T0 start a). lia. }
  rewrite (count_split T0 a b) in Hb by lia. pose proof (count_nonneg T0 b (b `max` hi)). lia.
Qed.

Lemma run_count cp r :
  start <= cp -> run_at cp r ->
  start <= done_to r <= cp
  /\ count_pages T0 (done_to r) cp = if start_old_entry r =? 0 then 0 else num_free r.
Proof.
  intros Hcp. unfold done_to. intros [[E Hn]|(E & Hs & Hp & Hle & Hf & Hn)].
  - rewrite (proj2 (Z.eqb_eq _ _) E). split; [lia|]. by apply count_none.
  - rewrite (proj2 (Z.eqb_neq _ _) E). split; [lia|].
    rewrite (count_split _ _ (start_old_pgoff r + num_free r)), (count_none _ _ cp) by (done || lia).
    rewrite count_full; [lia|lia|]. intros q Hq. rewrite Hf by lia. by eexists.
Qed.

Lemma cut_split P a b c x : a <= b <= c -> cut P a c x <-> cut P a b x \/ cut P b c x.
Proof.
  intros H. unfold cut. split.
  - intros (q & e & Hq & Hr). destruct (decide (q < b)); [left|right]; exists q, e; (split; [lia|done]).
  - intros [(q & e & Hq & Hr)|(q & e & Hq & Hr)]; exists q, e; (split; [lia|done]).
Qed.

Lemma cut_none P a b x : (forall q, a <= q < b -> T0 !! q = None) -> ~ cut P a b x.
Proof. intros Hn (q & e & Hq & He & _). by rewrite Hn in He. Qed.

(** The pages of a run of [e], with nothing mapped behind it. *)
Lemma cut_run P e d n cp x :
  d + n <= cp -> (forall q, d <= q < d + n -> T0 !! q = Some e) -> (forall q, d + n <= q < cp -> T0 !! q = None) ->
  cut P d cp x <-> P e = true /\ exists q, d <= q < d + n /\ x = page_block (went m e) q.
Proof.
  intros Hle Hf Hn. split.
  - intros (q & e' & Hq & He & HP & ->). destruct (decide (q < d + n)).
    + rewrite Hf in He by lia. simplify_eq. split; [done|]. exists q. split; [lia|done].
    + by rewrite Hn in He by lia.
  - intros (HP & q & Hq & ->). exists q, e. split_and!; try done; [lia..|by apply Hf].
Qed.

Lemma cut_off P a b x : (forall e, P e = false) -> ~ cut P a b x.
Proof. intros HP (q & e & _ & _ & He & _). by rewrite HP in He. Qed.

Lemma released_iff d d' ls sn t :
  (forall P x, (dn = false -> forall e, P e = false) -> cut P start d x <-> cut P start d' x) ->
  (forall e, entry_charged e = true -> count_at T0 e start d = count_at T0 e start d') ->
  released d ls sn t -> released d' ls sn t.
Proof.
  intros Hc Hn [Hl (recs & Hr1 & Hr2 & Hr3) Hw He Hfr Hqt]. split; try done.
  - eapply blocks_freed_ext; [|exact Hl]. intros x. apply Hc. intros E e. unfold entry_goes. by rewrite E.
  - exists recs. split_and!; try done. intros x. rewrite Hr3. apply Hc. intros E e. unfold entry_kept. by rewrite E.
  - intros e q Hx. rewrite (Hw e q Hx). f_equal. destruct (entry_charged e) eqn:Ec; [by apply Hn|done].
Qed.

(** Nothing to do between [d] and [d']. *)
Lemma quiet_between d d' :
  start <= d <= d' -> dn = false \/ (forall q, d <= q < d' -> T0 !! q = None) ->
  (forall P x, (dn = false -> forall e, P e = false) -> cut P start d x <-> cut P start d' x)
  /\ (forall e, entry_charged e = true -> count_at T0 e start d = count_at T0 e start d').
Proof.
  intros Hd Hq. split.
  - intros P x HP. rewrite (cut_split P start d d') by done. split; [by left|]. intros [?|Hc]; [done|].
    destruct Hq as [Hq|Hq]; [by destruct (cut_off P d d' x (HP Hq))|by destruct (cut_none P d d' x Hq)].
  - intros e Ec. rewrite (count_at_split T0 e start d d') by done. destruct Hq as [Hq|Hq].
    + unfold entry_charged in Ec. by rewrite Hq in Ec.
    + rewrite (count_at_none T0 e d d'); [lia|]. intros p Hp. by rewrite Hq.
Qed.

Lemma released_ext d d' ls sn t :
  start <= d <= d' -> dn = false \/ (forall q, d <= q < d' -> T0 !! q = None) -> released d ls sn t ->
  released d' ls sn t.
Proof. intros Hd Hq. destruct (quiet_between d d' Hd Hq). by apply released_iff. Qed.

Lemma released_back d d' ls sn t :
  start <= d <= d' -> (forall q, d <= q < d' -> T0 !! q = None) -> released d' ls sn t -> released d ls sn t.
Proof.
  intros Hd Hq. destruct (quiet_between d d' Hd (or_intror Hq)) as [Hc Hn].
  apply released_iff; [intros P x HP; by rewrite Hc|intros e Ec; by rewrite Hn].
Qed.

Lemma released_start : released start (fx_lists st0) (fx_snapshot st0) [].
Proof.
  assert (Hc : forall P x, ~ cut P start start x) by (intros P x; apply cut_none; lia).
  split; try done.
  - split; [apply Hi| |done]. intros meta x. split; [by left|]. intros [?|(_ & Hx)]; [done|by apply Hc in Hx].
  - exists []. rewrite app_nil_r. split_and!; try done. intros x. split; [|by intros ?%Hc].
    intros (r & Hr & _). by apply elem_of_nil in Hr.
  - intros e q _. rewrite (count_at_none T0 e start start) by lia. destruct (entry_charged e); by rewrite raise_0.
  - intros a _. constructor.
Qed.

(** The entry of a run: other entries keep theirs. *)
Lemma released_went d cp e n ls sn t ls' t' st :
  start <= d -> 0 < n -> d + n <= cp -> dn = true ->
  (forall q, d <= q < d + n -> T0 !! q = Some e) -> (forall q, d + n <= q < cp -> T0 !! q = None) ->
  released d ls sn t ->
  run_released sbi snapshots m (exec t m) st e d n (if entry_charged e then count_at T0 e start d else 0) dd epoch ls' t' ->
  forall e' q, T0 !! q = Some e' ->
    went (exec (t ++ t') m) e' = raise (if entry_charged e' then count_at T0 e' start cp else 0) (went m e')
    /\ cur (exec (t ++ t') m) (e' + 40) = cur m (e' + 40).
Proof.
  intros Hd Hn Hle Hdn Hf Hnone Hrl Hrr e' q He'. rewrite exec_app.
  destruct (decide (e' = e)) as [->|Hne].
  - rewrite (rr_went _ _ _ _ _ _ _ _ _ _ _ _ _ Hrr), (rr_epoch _ _ _ _ _ _ _ _ _ _ _ _ _ Hrr). split; [|done].
    f_equal. change (run_charged snapshots dd m epoch e) with (true && run_charged snapshots dd m epoch e).
    rewrite <- Hdn. fold (entry_charged e). destruct (entry_charged e); [|done].
    rewrite (count_at_split T0 e start d cp), (count_at_split T0 e d (d + n) cp) by lia.
    rewrite (count_at_full T0 e d (d + n)), (count_at_none T0 e (d + n) cp); [lia| |lia|done].
    intros p Hp. by rewrite Hnone.
  - assert (Hsame : went (exec t' (exec t m)) e' = went (exec t m) e'
                    /\ cur (exec t' (exec t m)) (e' + 40) = cur (exec t m) (e' + 40)).
    { destruct dd eqn:Edd; [by rewrite (rr_quiet _ _ _ _ _ _ _ _ _ _ _ _ _ Hrr eq_refl)|].
      destruct (Hpc Hdn eq_refl e' q ltac:(by left)) as [Hb _].
      destruct (io_apart _ _ _ Hi e d e' q) as [?|Hap]; [left; apply Hf; lia|by left|done|].
      pose proof (rr_touched _ _ _ _ _ _ _ _ _ _ _ _ _ Hrr) as Ht.
      split; [by eapply touched_went|by eapply touched_word; try lia]. }
    destruct Hsame as [-> ->]. rewrite (rl_went _ _ _ _ Hrl e' q He'), (rl_epoch _ _ _ _ Hrl e' q He'). split; [|done].
    f_equal. destruct (entry_charged e'); [|done]. rewrite (count_at_split T0 e' start d cp) by lia.
    rewrite (count_at_none T0 e' d cp); [lia|]. intros p Hp Hx.
    destruct (decide (p < d + n)); [rewrite Hf in Hx by lia; congruence|by rewrite Hnone in Hx by lia].
Qed.

(** A run is given up. *)
Lemma released_run d cp e n ls sn ib T t :
  start <= d -> 0 < n -> d + n <= cp -> dn = true ->
  (forall q, d <= q < d + n -> T0 !! q = Some e) -> (forall q, d + n <= q < cp -> T0 !! q = None) ->
  released d ls sn t ->
  exists ls' sn' t', nova_free_old_entry sbi snapshots 0 e d n dd epoch (FileState ls T (fx_olds st0) ib sn) (exec t m)
      = (Some (n, FileState ls' T (fx_olds st0) (u64 (ib - n)) sn'), t')
    /\ released cp ls' sn' (t ++ t').
Proof.
  intros Hd Hn Hle Hdn Hf Hnone Hrl. pose proof Hrl as [[Hw Hfree Hin] (recs & Hr1 & Hr2 & Hr3) Hwe Hep Hfr Hqt].
  assert (Hh : forall q, d <= q < d + n -> holds st0 e q) by (intros q Hq; left; by apply Hf).
  destruct (io_held _ _ _ Hi e d (Hh d ltac:(lia))) as [He H1].
  destruct (io_held _ _ _ Hi e (d + n - 1) (Hh (d + n - 1) ltac:(lia))) as [_ H2]. unfold has_page in H1, H2.
  assert (Hn31 : n < TWO31).
  { pose proof (count_below d (d + n) ltac:(lia)) as Hb. rewrite count_full in Hb; [lia|lia|].
    intros q Hq. rewrite Hf by lia. by eexists. }
  set (k := if entry_charged e then count_at T0 e start d else 0).
  assert (Hroom : dd = false -> in_body e /\ we_invalid_pages (went m e) + k + n <= we_num_pages (went m e)).
  { intros Hdd. destruct (Hpc Hdn Hdd e d (Hh d ltac:(lia))) as [Hb Hl]. split; [done|].
    specialize (Hl (pages_at T0 e start (d + n)) (pages_at_once _ _ _ _)).
    fold (count_at T0 e start (d + n)) in Hl. rewrite (count_at_split T0 e start d), (count_at_full T0 e d) in Hl by (done || lia).
    assert (0 <= k <= count_at T0 e start d) by (unfold k, count_at; destruct (entry_charged e); lia).
    enough (we_invalid_pages (went m e) + (count_at T0 e start d + (d + n - d)) <= we_num_pages (went m e)) by lia.
    apply Hl. intros q [Hq _]%elem_pages_at. by left. }
  destruct (release_run sbi Hmc Hal snapshots Hslab m (exec t m) (FileState ls T (fx_olds st0) ib sn) e d n k dd epoch)
    as (ls' & t' & Hrun & Hrr); cbn [fx_lists]; try done.
  { destruct He as [? ? ? ? (i & ? & ?)]. split; eauto. }
  { intros Hdd. by apply Hroom. }
  { lia. } { lia. }
  { intros q Hq. rewrite Hfree. intros [Hx|(_ & q' & e' & Hq' & He' & _ & Ex)].
    - by apply (io_used _ _ _ Hi e q); [apply Hh|].
    - destruct (io_distinct _ _ _ Hi e q e' q') as [_ Eq]; [by apply Hh|by left|done|]. lia. }
  { apply (Hwe e d). apply Hf. lia. } { apply (Hep e d). apply Hf. lia. }
  { intros Hdd. by apply Hroom. }
  exists ls', (sn ++ run_record snapshots dd m epoch e d n), t'. split; [exact Hrun|].
  pose proof (released_went d cp e n ls sn t ls' t' _ Hd Hn Hle Hdn Hf Hnone Hrl Hrr) as Hwent.
  assert (Hcut : forall P x, cut P start cp x
            <-> cut P start d x \/ (P e = true /\ exists q, d <= q < d + n /\ x = page_block (went m e) q)).
  { intros P x. rewrite (cut_split P start d cp) by lia. by rewrite (cut_run P e d n cp). }
  split.
  - eapply blocks_freed_ext; [|exact (blocks_freed_comp sbi _ _ _ _ _ (rl_lists _ _ _ _ Hrl)
      (rr_lists _ _ _ _ _ _ _ _ _ _ _ _ _ Hrr))].
    intros x. rewrite Hcut. replace (entry_goes e) with (run_goes snapshots dd m epoch e); [done|].
    unfold entry_goes. by rewrite Hdn.
  - exists (recs ++ run_record snapshots dd m epoch e d n). rewrite Hr1, app_assoc. split; [done|].
    assert (Ek : entry_kept e = negb (run_goes snapshots dd m epoch e)) by (unfold entry_kept; by rewrite Hdn).
    unfold run_record. destruct (run_goes snapshots dd m epoch e); cbn [negb] in Ek.
    + rewrite app_nil_r. split; [done|]. intros x. rewrite Hr3, Hcut, Ek. naive_solver.
    + split; [apply Forall_app; split; [done|by constructor]|]. intros x. rewrite Hcut, <- Hr3, Ek.
      setoid_rewrite elem_of_app. setoid_rewrite list_elem_of_singleton. split.
      * intros (r & [Hr| ->] & Hx); [left; by exists r|right; split; [done|]]. cbn in Hx.
        exists (d + (x - page_block (went m e) d)). unfold page_block in *. lia.
      * intros [(r & Hr & Hx)|(_ & q & Hq & ->)]; [exists r; auto|eexists; split; [by right|]].
        cbn. unfold page_block. lia.
  - intros e' q Hq. by apply (Hwent e' q).
  - intros e' q Hq. by apply (Hwent e' q).
  - intros a Ha. apply untouched_app. split; [by apply Hfr|].
    destruct (Ha e d) as (? & ? & ?); [apply Hf; lia|lia|].
    by apply (rr_touched _ _ _ _ _ _ _ _ _ _ _ _ _ Hrr).
  - intros Hq. rewrite (Hqt Hq). destruct Hq as [Hq|Hq]; [congruence|].
    by apply (rr_quiet _ _ _ _ _ _ _ _ _ _ _ _ _ Hrr).
Qed.
Definition run_pages_freed (cp : Z) (r : old_run) : Z := if dn then count_pages T0 (done_to r) cp else 0.

Lemma freed_pages_next cp r freed st t :
  trunc_inv cp r freed st t -> freed + run_pages_freed cp r = freed_pages cp.
Proof.
  intros [Hcp _ Hrun -> _ _ _]. destruct (run_count cp r ltac:(lia) Hrun) as [Hd _].
  unfold freed_pages, run_pages_freed. destruct dn; [|done]. symmetry. apply count_split. lia.
Qed.

Lemma freed_pages_bound d : start <= d -> 0 <= freed_pages d < TWO31.
Proof.
  intros Hd. unfold freed_pages. destruct dn; [|done].
  split; [apply count_nonneg|]. apply (count_below start d). lia.
Qed.

(** The open run is given up. *)
Lemma free_run_run cp r freed st t T :
  trunc_inv cp r freed st t ->
  exists ls' sn' t', free_run sbi snapshots 0 dn dd epoch r (with_index T (fx_olds st) st) (exec t m)
      = (Some (run_pages_freed cp r, FileState ls' T (fx_olds st0) (u64 (fx_i_blocks st0 - freed_pages cp)) sn'), t')
    /\ released cp ls' sn' (t ++ t').
Proof.
  intros Ht. rewrite <- (freed_pages_next _ _ _ _ _ Ht). destruct Ht as [Hcp _ Hrun Hfr Hb Ho Hrl].
  destruct (run_count cp r ltac:(lia) Hrun) as [Hd Hcnt]. unfold run_pages_freed, free_run, with_index. rewrite Ho.
  assert (Hsame : dn = false \/ (forall q, done_to r <= q < cp -> T0 !! q = None) ->
    exists ls' sn' t', (mret 0 : FM Z) (FileState (fx_lists st) T (fx_olds st0) (fx_i_blocks st) (fx_snapshot st)) (exec t m)
      = (Some (0, FileState ls' T (fx_olds st0) (u64 (fx_i_blocks st0 - (freed + 0))) sn'), t')
    /\ released cp ls' sn' (t ++ t')).
  { intros Hq. exists (fx_lists st), (fx_snapshot st), []. rewrite Z.add_0_r, <- Hb, app_nil_r. split; [done|].
    by eapply released_ext. }
  assert (Edn : dn = true \/ dn = false) by (destruct dn; auto).
  destruct Edn as [Edn|Edn]; rewrite Edn; [|rewrite andb_false_r; apply Hsame; by left]. rewrite Hcnt, andb_true_r.
  destruct Hrun as [[E Hn]|(E & Hs & Hp & Hle & Hfull & Hn)].
  - rewrite (proj2 (Z.eqb_eq _ _) E). cbn [negb]. apply Hsame. right.
    unfold done_to in *. rewrite (proj2 (Z.eqb_eq _ _) E) in *. done.
  - rewrite (proj2 (Z.eqb_neq _ _) E). cbn [negb].
    assert (Hdone : done_to r = start_old_pgoff r) by (unfold done_to; by rewrite (proj2 (Z.eqb_neq _ _) E)).
    rewrite Hdone in Hrl.
    destruct (released_run (start_old_pgoff r) cp (start_old_entry r) (num_free r) _ _ (fx_i_blocks st) T t
      Hs Hp Hle Edn Hfull Hn Hrl) as (ls' & sn' & t' & Hx & Hrl').
    exists ls', sn', t'. split; [|done]. rewrite <- (app_nil_r t'). eapply sm_run; [exact Hx|].
    rewrite Hb, u64_sub_l, Z.sub_add_distr. done.
Qed.

Lemma trunc_skip cp cp' r freed st t :
  trunc_inv cp r freed st t -> cp <= cp' <= hi + 1 ->
  (forall q, cp <= q < cp' -> T0 !! q = None) -> trunc_inv cp' r freed st t.
Proof.
  intros [Hcp Ht Hrun Hfr Hb Ho Hrl] Hle Hnone. split; try done; [lia| |].
  - intros q. rewrite Ht. repeat case_decide; try done; try lia. apply Hnone. lia.
  - destruct Hrun as [[E Hn]|(E & H1 & H2 & H3 & Hf & Hn)]; [left|right].
    + split; [done|]. intros q Hq. destruct (decide (q < cp)); [apply Hn|apply Hnone]; lia.
    + split_and!; try done; [lia|]. intros q Hq. destruct (decide (q < cp)); [apply Hn|apply Hnone]; lia.
Qed.

(** The page at [cp] belongs to the open run, or opens another. *)
Lemma trunc_same cp r freed st t :
  trunc_inv cp r freed st t -> cp <= hi -> start_old_entry r <> 0 -> T0 !! cp = Some (start_old_entry r) ->
  trunc_inv (cp + 1) (OldRun (start_old_entry r) (start_old_pgoff r) (num_free r + 1)) freed
    (with_index (delete cp (fx_tree st)) (fx_olds st) st) t.
Proof.
  intros [Hcp Ht Hrun Hfr Hb Ho Hrl] Hle E He.
  destruct Hrun as [[? _]|(_ & H1 & H2 & H3 & Hf & Hn)]; [done|].
  assert (Hend' : start_old_pgoff r + num_free r = cp).
  { destruct (decide (start_old_pgoff r + num_free r = cp)) as [|Hne]; [done|exfalso].
    destruct (io_gap _ _ _ Hi (start_old_entry r) (start_old_pgoff r) cp
      (start_old_pgoff r + num_free r)) as [x Hx]; [apply Hf; lia|done|lia|].
    by rewrite Hn in Hx by lia. }
  split; try done; [lia| |].
  - intros q. cbn. destruct (decide (q = cp)) as [->|Hq].
    + rewrite lookup_delete_eq. by rewrite decide_True by lia.
    + rewrite lookup_delete_ne by done. rewrite Ht. repeat case_decide; try done; lia.
  - right. cbn. split_and!; try done; try lia.
    + intros q Hq. destruct (decide (q = cp)) as [->|]; [done|]. apply Hf. lia.
Qed.

Lemma trunc_other cp r freed st t e ls' sn' t' :
  trunc_inv cp r freed st t -> cp <= hi -> T0 !! cp = Some e -> released cp ls' sn' (t ++ t') ->
  trunc_inv (cp + 1) (OldRun e cp 1) (freed_pages cp)
    (FileState ls' (delete cp (fx_tree st)) (fx_olds st0) (u64 (fx_i_blocks st0 - freed_pages cp)) sn') (t ++ t').
Proof.
  intros [Hcp Ht Hrun Hfr Hb Ho _] Hle He Hrl.
  assert (Hez : e <> 0).
  { destruct (io_held _ _ _ Hi e cp ltac:(by left)) as [[[? _] _ _ _ _] _]. lia. }
  assert (Hdone : done_to (OldRun e cp 1) = cp).
  { unfold done_to. cbn. by rewrite (proj2 (Z.eqb_neq _ _) Hez). }
  split; rewrite ?Hdone; try done; [lia| |].
  - intros q. cbn. destruct (decide (q = cp)) as [->|Hq].
    + rewrite lookup_delete_eq. by rewrite decide_True by lia.
    + rewrite lookup_delete_ne by done. rewrite Ht. repeat case_decide; try done; lia.
  - right. cbn. split_and!; try done; try lia; intros q Hq; try lia. by replace q with cp by lia.
Qed.

(** One page of the loop. *)
Lemma trunc_mapped cp r freed st t e :
  trunc_inv cp r freed st t -> T0 !! cp = Some e ->
  exists r' freed' st' t',
    (if negb (e =? start_old_entry r)
     then n ← free_run sbi snapshots 0 dn dd epoch r; mret (OldRun e cp 1, n)
     else mret (OldRun (start_old_entry r) (start_old_pgoff r) (u32 (num_free r + 1)), 0))
      (with_index (delete cp (fx_tree st)) (fx_olds st) st) (exec t m)
      = (Some ((r', freed' - freed), st'), t')
    /\ trunc_inv (cp + 1) r' freed' st' (t ++ t').
Proof.
  intros Ht He. pose proof (ti_cp _ _ _ _ _ Ht) as Hcp.
  assert (Hlt : cp < hi) by (destruct (decide (hi <= cp)); [by rewrite Hend in He|lia]).
  destruct (Z.eqb_spec e (start_old_entry r)) as [Ee|Ee]; cbn [negb].
  - assert (Hez : start_old_entry r <> 0).
    { destruct (io_held _ _ _ Hi e cp ltac:(by left)) as [[[? _] _ _ _ _] _]. lia. }
    pose proof (trunc_same _ _ _ _ _ Ht ltac:(lia) Hez ltac:(congruence)) as Ht1.
    pose proof (run_count (cp + 1) _ ltac:(lia) (ti_run _ _ _ _ _ Ht1)) as [Hd1 Hc1].
    cbn [start_old_entry num_free] in Hc1. rewrite (proj2 (Z.eqb_neq _ _) Hez) in Hc1.
    pose proof (count_below _ (cp + 1) Hd1) as Hbn. rewrite Hc1 in Hbn.
    assert (Hnn : 0 <= num_free r) by (destruct (ti_run _ _ _ _ _ Ht) as [[? _]|(_ & _ & ? & _)]; [done|lia]).
    eexists _, freed, _, []. rewrite app_nil_r. split; [|exact Ht1].
    rewrite u32_small by lia. by rewrite Z.sub_diag.
  - destruct (free_run_run cp r freed st t (delete cp (fx_tree st)) Ht) as (ls' & sn' & t' & Hr & Hrl).
    eexists _, _, _, t'. split; [|eapply trunc_other; [exact Ht|lia|exact He|exact Hrl]].
    rewrite <- (app_nil_r t').
    eapply sm_run; [exact Hr|]. pose proof (freed_pages_next _ _ _ _ _ Ht).
    by replace (freed_pages cp - freed) with (run_pages_freed cp r) by lia.
Qed.

(** A hole is skipped, up to an entry that has mapped pages. *)
Lemma trunc_hole cp r freed st t e :
  trunc_inv cp r freed st t -> T0 !! cp = None -> nova_find_next_entry (fx_tree st) cp = Some e ->
  let cp' := Z.max (cp + 1) (we_pgoff (went (exec t m) e)) in
  trunc_inv cp' r freed st t /\ cp < hi.
Proof.
  intros Ht He. unfold nova_find_next_entry. pose proof (ti_cp _ _ _ _ _ Ht) as Hcp.
  assert (Hcur : forall q, cp <= q -> fx_tree st !! q = T0 !! q).
  { intros q Hq. rewrite (ti_tree _ _ _ _ _ Ht). by rewrite decide_False by lia. }
  pose proof (first_key_ok (fx_tree st) cp) as Hk. destruct (first_key (fx_tree st) cp) as [k|]; [|done].
  cbn [mbind option_bind]. destruct Hk as (Hk & _ & Hbetween). intros Hek. rewrite Hcur in Hek by lia.
  assert (Hkc : k <> cp) by (intros ->; congruence).
  assert (Hkh : k < hi) by (destruct (decide (hi <= k)); [by rewrite Hend in Hek|lia]).
  destruct (io_held _ _ _ Hi e k ltac:(by left)) as [[_ _ [Hp0 _] _ _] Hpg]. unfold has_page in Hpg.
  rewrite (rl_went _ _ _ _ (ti_released _ _ _ _ _ Ht) e k Hek). cbn [raise we_pgoff]. split; [|lia].
  apply (trunc_skip cp _ r freed st t Ht); [lia|]. intros q Hq. rewrite <- Hcur by lia.
  destruct (decide (q = cp)) as [->|]; [by rewrite Hcur|apply Hbetween; lia].
Qed.

Lemma delete_loop_run fuel cp r freed st t :
  trunc_inv cp r freed st t -> Z.max 0 (hi - cp) < Z.of_nat fuel ->
  exists cp' r' freed' st' t', delete_loop sbi snapshots 0 fuel cp dn dd epoch r freed st (exec t m)
      = (Some ((r', freed'), st'), t')
    /\ trunc_inv cp' r' freed' st' (t ++ t') /\ hi <= cp'.
Proof.
  revert cp r freed st t. induction fuel as [|fuel IH]; intros cp r freed st t Ht Hfu; [lia|].
  cbn [delete_loop]. pose proof (ti_cp _ _ _ _ _ Ht) as Hcp.
  assert (Hcur : forall q, cp <= q -> fx_tree st !! q = T0 !! q).
  { intros q Hq. rewrite (ti_tree _ _ _ _ _ Ht). by rewrite decide_False by lia. }
  destruct (T0 !! cp) as [e|] eqn:He.
  - assert (Hlt : cp < hi) by (destruct (decide (hi <= cp)); [by rewrite Hend in He|lia]).
    destruct (trunc_mapped _ _ _ _ _ _ Ht He) as (r1 & freed1 & st1 & t1 & Hr & Ht1).
    destruct (IH _ _ _ _ _ Ht1 ltac:(lia)) as (cp' & r' & freed' & st' & t' & Hl & Hrest).
    exists cp', r', freed', st', (t1 ++ t'). rewrite app_assoc. split; [|done].
    eapply (sm_run _ _ _ _ _ _ [] _ (t1 ++ t')); [done|]. cbv beta. rewrite Hcur, He by lia. cbv iota.
    eapply (sm_run _ _ _ _ () _ [] _ (t1 ++ t')); [done|].
    eapply sm_run; [exact Hr|]. cbv beta iota. rewrite (u64_small (cp + 1)) by lia.
    rewrite exec_app in Hl. replace (s32 (freed + (freed1 - freed))) with freed1; [exact Hl|].
    destruct (run_count (cp + 1) _ ltac:(lia) (ti_run _ _ _ _ _ Ht1)) as [Hd _].
    pose proof (freed_pages_bound (done_to r1) ltac:(lia)) as Hb. rewrite <- (ti_freed _ _ _ _ _ Ht1) in Hb.
    rewrite s32_small by lia. lia.
  - destruct (nova_find_next_entry (fx_tree st) cp) as [e|] eqn:Ee.
    + destruct (trunc_hole _ _ _ _ _ _ Ht He Ee) as [Ht1 Hlt].
      destruct (IH _ _ _ _ _ Ht1 ltac:(lia)) as (cp2 & r' & freed' & st' & t' & Hl & Hrest).
      exists cp2, r', freed', st', t'. split; [|done].
      eapply (sm_run _ _ _ _ _ _ [] _ t'); [done|]. cbv beta. rewrite Hcur, He by lia. cbv iota. rewrite Ee, Hmc.
      eapply (sm_run _ _ _ _ (Some (words (exec t m) e ENTRY_WORDS)) _ [] _ t').
      * eapply (sm_run _ _ _ _ _ _ [] _ []); [apply mem_words_run|done].
      * cbv beta iota. fold (went (exec t m) e). rewrite (u64_small (cp + 1)) by lia. exact Hl.
    + exists (Z.max cp hi), r, freed, st, []. rewrite app_nil_r. split_and!; [| |lia].
      * eapply (sm_run _ _ _ _ _ _ [] _ []); [done|]. cbv beta. rewrite Hcur, He by lia. cbv iota. by rewrite Ee.
      * eapply trunc_skip; [exact Ht|lia|]. intros q Hq. rewrite <- Hcur by lia.
        unfold nova_find_next_entry in Ee. pose proof (first_key_ok (fx_tree st) cp) as Hk.
        destruct (first_key (fx_tree st) cp) as [k|]; [|apply Hk; lia].
        destruct Hk as (_ & [x Hx] & _). cbn [mbind option_bind] in Ee. congruence.
Qed.

(** The file after: nothing from [start] on, and the pages that were there
    given up. *)
Record truncated (st' : file_state) (t : list pact) : Prop := {
  tr_tree : forall q, fx_tree st' !! q = if decide (q < start) then T0 !! q else None;
  tr_count : fx_i_blocks st' = u64 (fx_i_blocks st0 - freed_pages hi);
  tr_olds : fx_olds st' = [];
  tr_released : released hi (fx_lists st') (fx_snapshot st') t
}.

Lemma truncated_holds st' t e p : truncated st' t -> holds st' e p -> p < start /\ T0 !! p = Some e.
Proof.
  intros Ht [Hp|Hp]; [|rewrite (tr_olds _ _ Ht) in Hp; by apply elem_of_nil in Hp].
  rewrite (tr_tree _ _ Ht) in Hp. by case_decide.
Qed.

(** An entry that still has pages is charged with fewer than it has. *)
Lemma charged_room e p l :
  pages_counted m st0 -> T0 !! p = Some e -> NoDup l -> (forall q, q ∈ l -> q < start /\ T0 !! q = Some e) ->
  we_invalid_pages (went m e) + (if entry_charged e then count_at T0 e start hi else 0) + Z.of_nat (length l)
    <= we_num_pages (went m e).
Proof.
  intros Hp He Hl Hin. destruct (Hp e p ltac:(by left)) as [_ Hn].
  specialize (Hn (l ++ if entry_charged e then pages_at T0 e start hi else [])). rewrite length_app in Hn.
  assert (Hc : (if entry_charged e then count_at T0 e start hi else 0)
               = Z.of_nat (length (if entry_charged e then pages_at T0 e start hi else []))).
  { by destruct (entry_charged e). }
  rewrite Hc. enough (we_invalid_pages (went m e)
    + Z.of_nat (length l + length (if entry_charged e then pages_at T0 e start hi else [])) <= we_num_pages (went m e)) by lia.
  apply Hn.
  - apply NoDup_app. split_and!; [done| |destruct (entry_charged e); [apply pages_at_once|constructor]].
    intros q [Hq _]%Hin. destruct (entry_charged e); [|apply not_elem_of_nil]. rewrite elem_pages_at. lia.
  - intros q [[_ Hq]%Hin|Hq]%elem_of_app; [by left|]. destruct (entry_charged e); [|by apply elem_of_nil in Hq].
    apply elem_pages_at in Hq as [Hq _]. by left.
Qed.

Lemma truncated_went st' t e p :
  truncated st' t -> T0 !! p = Some e ->
  went (exec t m) e = raise (if entry_charged e then count_at T0 e start hi else 0) (went m e).
Proof. intros Ht. apply (rl_went _ _ _ _ (tr_released _ _ Ht)). Qed.

Lemma truncated_live st' t e p :
  truncated st' t -> holds st' e p -> we_invalid_pages (went (exec t m) e) <> we_num_pages (went (exec t m) e).
Proof.
  intros Ht Hh. destruct (truncated_holds _ _ _ _ Ht Hh) as [Hlt He]. rewrite (truncated_went _ _ _ _ Ht He).
  cbn [raise we_invalid_pages we_num_pages]. destruct (entry_charged e) eqn:Ec.
  - unfold entry_charged, run_charged in Ec. apply andb_true_iff in Ec as Ec'. destruct Ec' as [Hdn Hdd].
    apply andb_true_iff in Hdd as [Hdd%negb_true_iff _].
    pose proof (charged_room e p [p] (Hpc Hdn Hdd) He) as Hr. unfold entry_charged, run_charged in Hr. rewrite Ec in Hr.
    cbn [length] in Hr. enough (we_invalid_pages (went m e) + count_at T0 e start hi + 1 <= we_num_pages (went m e)) by lia.
    apply Hr; [by apply NoDup_singleton|]. intros q ->%list_elem_of_singleton. done.
  - rewrite Z.add_0_r. destruct (io_held _ _ _ Hi e p ltac:(by left)) as [[] _]. done.
Qed.

Lemma truncated_index_ok st' t : fx_olds st0 = [] -> truncated st' t -> index_ok sbi (exec t m) st'.
Proof.
  intros Ho Ht. pose proof Ht as [Htr Hc Ho' Hrl]. pose proof (rl_lists _ _ _ _ Hrl) as [Hw Hf Hin].
  assert (Hh : forall e p, holds st' e p -> p < start /\ holds st0 e p
     /\ exists k, went (exec t m) e = raise k (went m e)).
  { intros e p Hp. destruct (truncated_holds _ _ _ _ Ht Hp) as [? He].
    split_and!; [done|by left|]. eexists. by eapply truncated_went. }
  destruct Hi as [_ _ _ Hheld Hap _ _ Hdi Hus Hg]. split; rewrite ?Ho'; try done; try (by constructor).
  - rewrite Hc. apply u64_range.
  - intros e p Hp. pose proof (truncated_live _ _ _ _ Ht Hp) as Hlive.
    destruct (Hh e p Hp) as (_ & Hp0 & k & Hk). destruct (Hheld e p Hp0) as [[? ? ? _ (i & ? & ?)] Hpg].
    rewrite Hk. split; [|done]. split; [|rewrite Hk..|]; try done; [by rewrite <- Hk|]. rewrite Hk. eauto.
  - intros e p e' p' (_ & Hp & _)%Hh (_ & Hp' & _)%Hh. by eapply Hap.
  - intros e p Hd. by apply elem_of_nil in Hd.
  - intros e p e' p' (_ & Hp & k & Hk)%Hh (_ & Hp' & k' & Hk')%Hh. rewrite Hk, Hk'. by apply Hdi.
  - intros e p (Hlt & Hp & k & Hk)%Hh. rewrite Hk, Hf.
    intros [Hx|(_ & q & e' & Hq & He' & _ & E)]; [by eapply Hus|].
    destruct (Hdi e p e' q Hp ltac:(by left) E) as [_ ->]. lia.
  - intros e p q r. rewrite !Htr. intros Hp Hq Hr. repeat case_decide; try done; [by apply (Hg e p q)|lia].
Qed.

Lemma truncated_counted st' t : pages_counted m st0 -> truncated st' t -> pages_counted (exec t m) st'.
Proof.
  intros Hp Ht e p Hh. destruct (truncated_holds _ _ _ _ Ht Hh) as [_ He]. split; [by apply (Hp e p); left|].
  intros l Hl Hin. rewrite (truncated_went _ _ _ _ Ht He). cbn [raise we_invalid_pages we_num_pages].
  apply (charged_room e p l); try done. intros q Hq. by apply (truncated_holds st' t), Hin.
Qed.

Lemma delete_file_tree_run fuel junk last_blocknr :
  fx_olds st0 = [] -> hi - start < Z.of_nat fuel ->
  exists st' t, nova_delete_file_tree sbi snapshots 0 fuel junk start last_blocknr dn dd epoch st0 m
      = (Some (freed_pages hi, st'), t) /\ truncated st' t.
Proof.
  intros Ho Hfu.
  assert (H0 : trunc_inv start (OldRun 0 0 0) 0 st0 []).
  { split; try done; [lia| | | | |apply released_start].
    - intros q. by rewrite decide_False by lia.
    - left. split; [done|]. intros q Hq. lia.
    - change (done_to _) with start. unfold freed_pages. rewrite count_none by lia. by destruct dn.
    - rewrite Z.sub_0_r. symmetry. apply u64_small, Hi. }
  destruct (delete_loop_run fuel start _ _ _ _ H0 ltac:(lia)) as (cp & r & freed & st1 & t1 & Hl & Ht & Hcp).
  destruct (free_run_run cp r freed st1 ([] ++ t1) (fx_tree st1) Ht) as (ls' & sn' & t2 & Hr & Hrl).
  replace (with_index (fx_tree st1) (fx_olds st1) st1) with st1 in Hr by (by destruct st1).
  pose proof (ti_cp _ _ _ _ _ Ht) as Hcp'.
  assert (Hnone : forall q, hi <= q < cp -> T0 !! q = None) by (intros q Hq; apply Hend; lia).
  assert (Hc : freed_pages cp = freed_pages hi).
  { unfold freed_pages. rewrite (count_split _ start hi cp), (count_none _ hi cp) by (done || lia).
    by rewrite Z.add_0_r. }
  rewrite Hc in Hr. pose proof (freed_pages_next _ _ _ _ _ Ht) as Hnext. rewrite Hc in Hnext.
  eexists _, (t1 ++ t2). split.
  - unfold nova_delete_file_tree.
    eapply (sm_run _ _ _ _ _ _ [] _ (t1 ++ t2)); [done|]. cbv beta. rewrite Hmc, Ho.
    rewrite bool_decide_eq_false_2 by naive_solver. cbn [negb andb].
    eapply (sm_run _ _ _ _ () st0 [] _ (t1 ++ t2)).
    { unfold free_old_entry. eapply (sm_run _ _ _ _ st0 _ [] _ []); [done|]. rewrite Ho.
      eapply (sm_run _ _ _ _ () st0 [] _ []); [done|]. unfold set_olds. rewrite <- Ho. by destruct st0. }
    eapply (sm_run _ _ _ _ _ _ t1 _ t2); [exact Hl|]. cbv beta iota.
    rewrite <- (app_nil_r t2). eapply (sm_run _ _ _ _ _ _ t2 _ []); [exact Hr|]. cbv beta.
    rewrite Hnext, s32_small; [done|]. pose proof (freed_pages_bound hi ltac:(lia)). lia.
  - split; try done.
    + intros q. cbn. rewrite (ti_tree _ _ _ _ _ Ht). repeat case_decide; try done; try lia. apply Hend. lia.
    + cbn. apply (released_back hi cp); [lia|done|exact Hrl].
Qed.

End truncate.
