(* ===== verification/FileIndexTheorems.v ===== *)
(** The properties of the file index: what a write and a truncation do to it,
    and that after any sequence of them a page is found where the last write
    of it put it. *)

From S2P Require Import Prelude.
From S2P Require Import Kernel.
From S2P Require Import Checksum.
From S2P Require Import RangeTree.
From S2P Require Import Layout.
From S2P Require Import FreeList.
From S2P Require Import AllocSpec.
From S2P Require Import Balloc.
From S2P Require Import BallocSpec.
From S2P Require Import BallocInit.
From S2P Require Import Pmem.
From S2P Require Import PmemSpec.
From S2P Require Import Journal.
From S2P Require Import InodeLog.
From S2P Require Import DataGuard.
From S2P Require Import Recovery.
From S2P Require Import RecoverySpec.
From S2P Require Import FileScanSpec.
From S2P Require Import FileIndex.
From S2P Require Import FileIndexSpec.
From S2P Require Import FileAssign.
From S2P Require Import FileCharge.
From S2P Require Import FileTruncate.

(** ** The file and the rest of the system *)

Record world := World { w_mem : mem; w_file : file_state; w_history : list event }.

Section history.
Context {RB : RbOps} {KM : KmemOps} {CR : CrcOps} {MP : ModParams}.
Context (sbi : nova_sb_info) (nomem : Z -> bool).

Inductive file_step : world -> world -> Prop :=
  (** The rest of the system: entries are appended, logs and blocks allocated
      and freed, but not what this file holds. *)
  | step_others m st h m' ls' :
      lists_wf sbi ls' ->
      (forall i x, in_list (fx_lists st) false i x -> in_list ls' false i x) ->
      (forall e p, holds st e p -> went m' e = went m e) ->
      (forall e p, holds st e p -> ~ free_block ls' false (page_block (went m e) p)) ->
      file_step (World m st h) (World m' (with_lists ls' (fx_i_blocks st) st) h)
  (** A write of an entry just appended: before the tail of its log page, and
      with all its pages valid. *)
  | step_write snapshots m st h e r st' t :
      fresh_entry m st e -> in_body e -> we_invalid_pages (went m e) = 0 ->
      nova_assign_write_entry sbi snapshots 0 nomem e (words m e ENTRY_WORDS) true st m
        = (Some (r, st'), t) ->
      file_step (World m st h) (World (exec t m) st' (Wrote e (went m e) :: h))
  (** A truncation, with any flags, epoch and snapshots. *)
  | step_truncate snapshots dn dd epoch m st h start hi fuel junk last r st' t :
      0 <= start <= hi -> hi < TWO64 ->
      (forall p, hi <= p -> fx_tree st !! p = None) -> count_pages (fx_tree st) start hi < TWO31 ->
      hi - start < Z.of_nat fuel ->
      nova_delete_file_tree sbi snapshots 0 fuel junk start last dn dd epoch st m
        = (Some (r, st'), t) ->
      file_step (World m st h) (World (exec t m) st' (Cut start :: h)).

Definition empty_file (ls : list free_list) (n : Z) : file_state := FileState ls ∅ [] n [].

(** What the index and the history agree on; [invalid_pages] of an entry may
    have been raised since it was written. *)
Record world_ok (w : world) : Prop := {
  wo_index : index_ok sbi (w_mem w) (w_file w);
  wo_counted : pages_counted (w_mem w) (w_file w);
  wo_tree : forall p, fx_tree (w_file w) !! p = fst <$> last_writer (w_history w) p;
  wo_entry : forall p e we, last_writer (w_history w) p = Some (e, we) ->
    exists k, went (w_mem w) e = raise k we
}.
End history.

Section theorems.
Context {RB : RbOps} {KM : KmemOps} {CR : CrcOps} {MP : ModParams}.
Context {RBL : RbLaws} {KML : KmemLaws}.
Context (sbi : nova_sb_info) (Hmc : metadata_csum = false).
Context (nomem : Z -> bool) (Hmem : forall p, nomem p = false).
Context (Hslab : forall T, is_Some (nova_alloc_range_node T)).

(** Without replication a truncation reads the epoch through a pointer that was
    never set, when the last write replaced pages. *)
Lemma truncate_unset_pointer snapshots fuel junk start last dn dd epoch st m :
  fx_olds st <> [] ->
  nova_delete_file_tree sbi snapshots 0 fuel junk start last dn dd epoch st m = (None, []).
Proof.
  intros Ho. unfold nova_delete_file_tree. cbv [mbind sm_bind get_state mret pm_ret pm_bind bug].
  rewrite Hmc. by rewrite bool_decide_eq_true_2.
Qed.

(** A new entry has all its pages; another keeps its count and gains no page. *)
Lemma assigned_counted m st e t st' :
  index_ok sbi m st -> pages_counted m st -> fresh_entry m st e -> in_body e -> we_invalid_pages (went m e) = 0 ->
  marks_only (oe_entry <$> fx_olds st) m t -> assigned sbi m st e st' -> pages_counted (exec t m) st'.
Proof.
  intros Hi Hp Hf Hb H0 Hk Ha e' p Hh.
  destruct (assigned_holds _ _ _ _ _ _ _ Ha Hh) as [[-> Hpg]|Hm].
  - split; [done|]. intros l Hl Hin. rewrite (fresh_went sbi m st t e Hi Hf Hk), H0.
    assert (Hsub : l ⊆+ seqZ (we_pgoff (went m e)) (we_num_pages (went m e))).
    { apply NoDup_submseteq; [done|]. intros q Hq. apply elem_of_seqZ.
      destruct (assigned_holds _ _ _ _ _ _ _ Ha (Hin q Hq)) as [[_ Hx]|Hx]; [exact Hx|].
      by destruct (fresh_unmapped _ _ _ q Hf). }
    apply submseteq_length in Hsub. rewrite length_seqZ in Hsub. pose proof (he_num _ _ _ (fe_held _ _ _ Hf)). lia.
  - destruct (Hp e' p ltac:(by left)) as [Hb' Hn]. split; [done|]. intros l Hl Hin.
    rewrite (index_went sbi m st t e' p Hi Hk) by (by left). apply Hn; [done|]. intros q Hq.
    destruct (assigned_holds _ _ _ _ _ _ _ Ha (Hin q Hq)) as [[-> _]|Hx]; [|by left].
    by destruct (fresh_unmapped _ _ _ p Hf).
Qed.

Context (Hal : meta_start_virt sbi mod 4096 = 0).

Lemma world_step w w' : world_ok sbi w -> file_step sbi nomem w w' -> world_ok sbi w'.
Proof.
  intros Hok Hs. revert Hok. destruct Hs as [m st h m' ls' Hw Hin Hwe Hfr
    |snapshots m st h e r st' t Hf Hb H0 Hr
    |snapshots dn dd epoch m st h start hi fuel junk last r st' t Hst Hhi Hend Htot Hfu Hr];
    intros [Hi Hp Ht He]; cbn [w_mem w_file w_history] in *.
  - split; cbn; [by eapply others_index_ok| |done|].
    + intros e p Hh. rewrite (Hwe e p Hh). apply (Hp e p Hh).
    + intros p e we Hl. destruct (He p e we Hl) as [k Hk]. exists k. rewrite <- Hk.
      apply (Hwe e p). left. by rewrite Ht, Hl.
  - destruct (assign_run sbi Hmc snapshots nomem Hmem Hslab m st e Hi Hf) as (st2 & t2 & Hr2 & Hk & Ha & Hi2).
    rewrite Hr in Hr2. simplify_eq. split; cbn; [done|by eapply assigned_counted| |].
    + intros p. rewrite (as_tree _ _ _ _ _ Ha). case_decide as Hpg.
      * by rewrite decide_True.
      * rewrite decide_False by done. apply Ht.
    + intros p e' we. case_decide.
      * intros [= <- <-]. exists 0. rewrite raise_0. by eapply fresh_went.
      * intros Hl. destruct (He p e' we Hl) as [k Hk']. exists k. rewrite <- Hk'.
        apply (index_went sbi m st t2 e' p Hi Hk). left. by rewrite Ht, Hl.
  - destruct (decide (fx_olds st = [])) as [Ho|Ho]; [|by rewrite truncate_unset_pointer in Hr].
    destruct (delete_file_tree_run sbi Hmc Hal snapshots Hslab dn dd epoch m st Hi start hi Hst Hhi Hend Htot
      (fun _ _ => Hp) fuel junk last Ho Hfu) as (st2 & t2 & Hr2 & Ha). rewrite Hr in Hr2. simplify_eq. split; cbn.
    + by eapply truncated_index_ok.
    + by eapply truncated_counted.
    + intros p. rewrite (tr_tree _ _ _ _ _ _ _ _ _ _ _ Ha). by repeat case_decide; try lia.
    + intros p e' we. case_decide; [done|]. intros Hl. destruct (He p e' we Hl) as [k Hk].
      eexists. erewrite (truncated_went _ _ _ _ _ _ _ _ _ _ _ _ p Ha), Hk, raise_raise; [done|]. by rewrite Ht, Hl.
Qed.

Lemma nothing_held ls n e p : ~ holds (empty_file ls n) e p.
Proof. intros [Hp|Hp]; [cbn in Hp; by rewrite lookup_empty in Hp|by apply elem_of_nil in Hp]. Qed.

Lemma empty_index_ok m ls n : lists_wf sbi ls -> 0 <= n < TWO64 -> index_ok sbi m (empty_file ls n).
Proof.
  intros Hw Hn.
  split; try done; try (intros; exfalso; by eapply nothing_held); try by constructor.
Qed.

(** Looking a page up, from what the history says of it. *)
Lemma find_last_writer m st p (lw : option (Z * write_entry)) :
  index_ok sbi m st -> fx_tree st !! p = fst <$> lw ->
  (forall e we, lw = Some (e, we) -> exists k, went m e = raise k we) ->
  match lw with
  | Some (e, we) => fx_tree st !! p = Some e /\ has_page we p
      /\ nova_find_nvmm_block sbi 0 None p st m = (Some (nova_get_block_off sbi (page_block we p) 0 false, st), [])
  | None => nova_find_nvmm_block sbi 0 None p st m = (Some (0, st), [])
  end.
Proof.
  intros Hi Ht He. unfold nova_find_nvmm_block, nova_get_write_entry.
  destruct lw as [[e we]|]; cbn [fmap option_fmap option_map fst] in Ht.
  - destruct (io_held _ _ _ Hi e p ltac:(by left)) as [Hh Hpg]. pose proof Hh as [[? _] _ _ _ _].
    destruct (He e we eq_refl) as [k Hk]. split_and!; [done|by rewrite Hk in Hpg|].
    eapply (sm_run _ _ _ _ _ _ [] _ []); [done|]. cbv beta zeta. rewrite Ht. change (default 0 (Some e)) with e.
    rewrite (proj2 (Z.eqb_neq _ _)) by lia.
    eapply (sm_run _ _ _ _ _ _ [] _ []); [apply mem_words_run|]. cbv beta.
    change (WENTRY _) with (went m e).
    rewrite (get_nvmm_held sbi _ _ e p (io_lists _ _ _ Hi) Hh Hpg). by rewrite Hk.
  - eapply (sm_run _ _ _ _ _ _ [] _ []); [done|]. cbv beta zeta. by rewrite Ht.
Qed.

(** C3. The file index refines the sequence of the writes of the file, when
    [metadata_csum] is off.  From an empty index, after any interleaving of
    writes ([nova_assign_write_entry]), truncations ([nova_delete_file_tree],
    whatever their flags, epoch and snapshots) and steps of the rest of the
    system, the index is well formed (no block is held twice, none that is held
    is free; [invalid_pages] of an entry counts no page the file still holds), a
    page is mapped to the entry of the last write of it since it was cut, and
    [nova_find_nvmm_block] returns the block this write put it in; a page never
    written or cut since is a hole.  A truncation is then defined exactly when
    the last write replaced no page: otherwise it reads the epoch of the
    replaced pages through a pointer that was never set. *)
Theorem file_index_last_writer ls n m0 w :
  lists_wf sbi ls -> 0 <= n < TWO64 ->
  rtc (file_step sbi nomem) (World m0 (empty_file ls n) []) w ->
  index_ok sbi (w_mem w) (w_file w) /\ pages_counted (w_mem w) (w_file w)
  /\ (forall p, match last_writer (w_history w) p with
     | Some (e, we) =>
         fx_tree (w_file w) !! p = Some e /\ has_page we p
         /\ nova_find_nvmm_block sbi 0 None p (w_file w) (w_mem w)
            = (Some (nova_get_block_off sbi (page_block we p) 0 false, w_file w), [])
     | None => nova_find_nvmm_block sbi 0 None p (w_file w) (w_mem w) = (Some (0, w_file w), [])
     end)
  /\ forall snapshots dn dd epoch start hi fuel junk last,
     0 <= start <= hi -> hi < TWO64 -> (forall p, hi <= p -> fx_tree (w_file w) !! p = None) ->
     count_pages (fx_tree (w_file w)) start hi < TWO31 -> hi - start < Z.of_nat fuel ->
     let run := nova_delete_file_tree sbi snapshots 0 fuel junk start last dn dd epoch (w_file w) (w_mem w) in
     match fx_olds (w_file w) with
     | [] => exists st' t, run = (Some (if dn then count_pages (fx_tree (w_file w)) start hi else 0, st'), t)
     | _ :: _ => run = (None, [])
     end.
Proof.
  intros Hw Hn Hsteps.
  assert (Hok : world_ok sbi w).
  { cut (world_ok sbi (World m0 (empty_file ls n) [])).
    - induction Hsteps as [|w1 w2 w3 Hs _ IH]; [done|]. intros H1. apply IH. by eapply world_step.
    - split; cbn; [by apply empty_index_ok|by intros e p ?%nothing_held|done|done]. }
  destruct Hok as [Hi Hp Ht He]. split_and!; [done|done| |].
  - intros p. specialize (Ht p). specialize (He p). by apply find_last_writer.
  - intros snapshots dn dd epoch start hi fuel junk last H1 H2 H3 H4 H5 run.
    destruct (fx_olds (w_file w)) as [|o l] eqn:Eo; [|by apply truncate_unset_pointer; rewrite Eo].
    destruct (delete_file_tree_run sbi Hmc Hal snapshots Hslab dn dd epoch _ _ Hi start hi H1 H2 H3 H4
      (fun _ _ => Hp) fuel junk last Eo H5) as (st' & t & Hr & _). by exists st', t.
Qed.

(** C26. [nova_assign_write_entry] of an entry whose blocks were just allocated
    succeeds: the pages of the entry map to it and no other page changes; the
    runs deferred are exactly the pages it replaced; the blocks freed are
    exactly those the write before had replaced, whatever the snapshots; the
    block count drops by their number; persistent memory changes in nothing but
    the low half of the first word of the entries freed, so the entries and
    their [invalid_pages] are as before; and the index stays well formed. *)
Theorem assign_write_entry_ok snapshots m st e :
  index_ok sbi m st -> fresh_entry m st e ->
  exists st' t, nova_assign_write_entry sbi snapshots 0 nomem e (words m e ENTRY_WORDS) true st m
      = (Some (0, st'), t)
    /\ assigned sbi m st e st' /\ index_ok sbi (exec t m) st'
    /\ marks_only (oe_entry <$> fx_olds st) m t
    /\ (forall e' p, holds st e' p -> went (exec t m) e' = went m e').
Proof.
  intros Hi Hf. destruct (assign_run sbi Hmc snapshots nomem Hmem Hslab m st e Hi Hf)
    as (st' & t & Hr & Hk & Ha & Hi').
  exists st', t. split_and!; try done. intros e' p. by apply (index_went sbi m st).
Qed.

(** C23. [nova_delete_file_tree] from page [start] on, with any flags, epoch
    and snapshots, when [metadata_csum] is off.  When the last write replaced no
    page it terminates with fuel for the pages up to the end [hi] of the file
    and unmaps the pages from [start] on and no other.  With [delete_nvmm] it
    returns their number and takes it off the block count, and 0 otherwise.
    With [delete_dead] their blocks are freed, and no others.  Without it those
    of an entry that no snapshot needs are freed and the entry charged with them
    in [invalid_pages], the others recorded for the snapshots with the epoch.
    Entries and epochs are otherwise as before, persistent memory changes in
    nothing but the first and fourth word of the entries cut and the counters
    of their log pages, and the index stays well formed.  When the last write
    replaced pages the code reads their epoch through a pointer that was never
    set. *)
Theorem delete_file_tree_ok snapshots dn dd epoch m st start hi fuel junk last_blocknr :
  index_ok sbi m st -> (dn = true -> dd = false -> pages_counted m st) ->
  0 <= start <= hi -> hi < TWO64 ->
  (forall p, hi <= p -> fx_tree st !! p = None) -> count_pages (fx_tree st) start hi < TWO31 ->
  hi - start < Z.of_nat fuel ->
  let run := nova_delete_file_tree sbi snapshots 0 fuel junk start last_blocknr dn dd epoch st m in
  match fx_olds st with
  | [] => exists st' t, run = (Some (if dn then count_pages (fx_tree st) start hi else 0, st'), t)
      /\ truncated sbi snapshots dn dd epoch m st start hi st' t
      /\ index_ok sbi (exec t m) st' /\ (pages_counted m st -> pages_counted (exec t m) st')
  | _ :: _ => run = (None, [])
  end.
Proof.
  intros Hi Hp Hst Hhi Hend Htot Hfu run.
  destruct (fx_olds st) as [|o l] eqn:Eo; [|by apply truncate_unset_pointer; rewrite Eo].
  destruct (delete_file_tree_run sbi Hmc Hal snapshots Hslab dn dd epoch m st Hi start hi Hst Hhi Hend Htot Hp
    fuel junk last_blocknr Eo Hfu) as (st' & t & Hr & Ht).
  exists st', t. split_and!; [exact Hr|done|by eapply truncated_index_ok|]. intros Hpc. by eapply truncated_counted.
Qed.
End theorems.

(** ** A file on a small device *)
Module Demo.
#[export] Existing Instances Concrete.rb_ops Concrete.rb_laws Concrete.kmem_ops
  Concrete.kmem_laws Concrete.crc_ops Concrete.crc_laws.
#[export] Instance params : ModParams := {|
  metadata_csum := false; data_csum := false; data_parity := false;
  dram_struct_csum := false; support_clwb := true
|}.

Definition sbi0 : nova_sb_info :=
  set_meta_start_virt 0x100000000 (set_data_start_virt 0x200000000
    (set_data_num_blocks 4096 (set_meta_num_blocks 1024
      (set_initsize (5120 * 4096) (set_blocksize_bits 12
        (set_head_reserved_blocks 64 (set_tail_reserved_blocks 2
          (set_cpus 2 (set_meta_nvm_num 1 (set_data_nvm_num 1
            (set_data_head_nvm_idx 1 zero_sb_info))))))))))).
Definition sbi : nova_sb_info := with_shares sbi0.
Definition lists : list free_list :=
  match nova_init_blockmap sbi0 (nova_alloc_block_free_lists sbi0) false with
  | Some (_, ls) => ls
  | None => []
  end.

Lemma file_slab : forall T, is_Some (nova_alloc_range_node T).
Proof. intros T. by eexists. Qed.
Lemma file_geometry : geometry sbi0.
Proof. split; vm_compute; split_and?; done. Qed.
Lemma file_lists_ready : lists_wf sbi lists.
Proof.
  destruct (init_blockmap_ok sbi0 file_slab file_geometry) as (ls & E & Hw & _).
  unfold lists. rewrite E. done.
Qed.
Lemma file_lists_fuel : enough_fuel lists 8.
Proof.
  intros i fl meta Hi. assert (Hin : fl ∈ lists) by (by eapply list_elem_of_lookup_2).
  clear i Hi. revert fl Hin. apply Forall_forall. destruct meta; vm_compute; repeat constructor.
Qed.

(** Six blocks, for a write of pages 0 to 3 and one of pages 1 and 2. *)
Definition ls1 : list free_list :=
  match nova_new_blocks 8 sbi false (fun _ => 0) 0 lists 0 6 0 false DATA ANY_CPU ALLOC_FROM_HEAD with
  | Some (_, _, ls, _) => ls
  | None => []
  end.

Lemma six_blocks : allocated sbi lists false 6 0 ls1.
Proof.
  destruct (new_blocks_spec 8 sbi false (fun _ => 0) 0 lists 0 6 0 false DATA ANY_CPU ALLOC_FROM_HEAD)
    as (r & b & ls' & z & E & H).
  { apply file_lists_ready. } { apply file_slab. } { lia. } { by left. } { vm_compute; done. } { apply file_lists_fuel. }
  assert (E6 : nova_new_blocks 8 sbi false (fun _ => 0) 0 lists 0 6 0 false DATA ANY_CPU ALLOC_FROM_HEAD
               = Some (6, 0, ls1, [])) by (vm_compute; done).
  rewrite E6 in E. injection E as <- <- <- <-.
  destruct H as [(H & _)|(n & _ & _ & Hr & Hal & _)]; [done|].
  destruct Hr as [_ ->]; [lia|]. exact Hal.
Qed.

#[local] Opaque ls1.

Definition e1 : Z := 4096.
Definition e2 : Z := 4160.
Definition device : list (Z * Z) :=
  [(4096, 1 + Z.shiftl 4 32); (4104, 0); (4112, 0); (4128, 16384); (4144, 1);
   (4160, 1 + Z.shiftl 2 32); (4168, 4); (4176, 1); (4192, 16384); (4208, 2)].
Definition m : mem := list_to_map ((fun '(a, x) => (a, Cell [x] None)) <$> device).

Lemma e1_entry : went m e1 = WriteEntry 4 0 0 0 16384 1.
Proof. by vm_compute. Qed.
Lemma e2_entry : went m e2 = WriteEntry 2 4 1 0 16384 2.
Proof. by vm_compute. Qed.

(** The index after the blocks were allocated. *)
Definition st0 : file_state := empty_file ls1 0.

Lemma blocks_in : exists i, forall x, 0 <= x < 6 -> in_list ls1 false i x.
Proof.
  destruct (al_cpu _ _ _ _ _ _ six_blocks) as (i & H1 & H2). exists i. intros x Hx.
  apply (al_frame _ _ _ _ _ _ six_blocks). destruct H1 as (fl & Hi & H1), H2 as (fl' & Hi' & H2).
  simplify_eq. exists fl. split; [done|]. lia.
Qed.

Lemma blocks_used x : 0 <= x < 6 -> ~ free_block ls1 false x.
Proof. intros Hx [_ Hn]%(al_free _ _ _ _ _ _ six_blocks). apply Hn. split; [done|]. lia. Qed.

Lemma held_1 : held_entry m ls1 e1.
Proof.
  split; rewrite ?e1_entry; cbn; try done. destruct blocks_in as (i & Hi). exists i. split; apply Hi; lia.
Qed.
Lemma held_2 : held_entry m ls1 e2.
Proof.
  split; rewrite ?e2_entry; cbn; try done. destruct blocks_in as (i & Hi). exists i. split; apply Hi; lia.
Qed.

Lemma file_start_ok : index_ok sbi m st0.
Proof. apply empty_index_ok; [apply six_blocks|done]. Qed.

Lemma fresh_1 : fresh_entry m st0 e1.
Proof.
  split; [apply held_1|by intros ? ? ?%nothing_held| |by intros ? ? ? _ ?%nothing_held].
  intros p Hp. rewrite e1_entry in *. apply blocks_used. unfold has_page, page_block in *. cbn in *. lia.
Qed.

Definition nomem (_ : Z) : bool := false.

Lemma plain : metadata_csum = false.
Proof. done. Qed.

Lemma body_1 : in_body e1.
Proof. by vm_compute. Qed.
Lemma body_2 : in_body e2.
Proof. by vm_compute. Qed.
Lemma page_aligned : meta_start_virt sbi mod 4096 = 0.
Proof. by vm_compute. Qed.

(** After the first write. *)
Lemma first_write :
  exists st1 t, nova_assign_write_entry sbi [] 0 nomem e1 (words m e1 ENTRY_WORDS) true st0 m
      = (Some (0, st1), t)
    /\ index_ok sbi (exec t m) st1 /\ fresh_entry (exec t m) st1 e2 /\ fx_olds st1 = []
    /\ (forall p, fx_tree st1 !! p = if decide (0 <= p < 4) then Some e1 else None)
    /\ (forall e, went (exec t m) e = went m e) /\ pages_counted (exec t m) st1.
Proof.
  destruct (assign_run sbi plain [] nomem (fun _ => eq_refl) file_slab m st0 e1 file_start_ok fresh_1)
    as (st1 & t & Hr & Hk & Ha & Hi).
  assert (Hw : forall e, went (exec t m) e = went m e).
  { intros e. apply (marks_went _ _ _ _ Hk). intros a Ha'. by apply elem_of_nil in Ha'. }
  assert (Ht : forall p, fx_tree st1 !! p = if decide (0 <= p < 4) then Some e1 else None).
  { intros p. rewrite (as_tree _ _ _ _ _ Ha), e1_entry. unfold has_page. cbn [we_pgoff we_num_pages].
    repeat case_decide; try done; lia. }
  assert (Ho : fx_olds st1 = []).
  { destruct (fx_olds st1) as [|o l] eqn:E; [done|].
    destruct (elem_deferred_entry (oe_entry o) (fx_olds st1)) as (p & Hp).
    - apply Hi. - rewrite E. by left.
    - apply (as_olds _ _ _ _ _ Ha) in Hp as [_ Hp]. cbn in Hp. by rewrite lookup_empty in Hp. }
  assert (Hh : forall e p, holds st1 e p -> e = e1 /\ 0 <= p < 4).
  { intros e p [Hp|Hp]; [|rewrite Ho in Hp; by apply elem_of_nil in Hp].
    rewrite Ht in Hp. case_decide; [by simplify_eq|done]. }
  assert (Hf : forall x, 0 <= x < 6 -> ~ free_block (fx_lists st1) false x).
  { intros x Hx [Hfx|(_ & ep & Hep & _)]%(bf_free _ _ _ _ (as_freed _ _ _ _ _ Ha)).
    - exact (blocks_used x Hx Hfx). - by apply elem_of_nil in Hep. }
  exists st1, t. split_and!; try done; [|eapply (assigned_counted sbi m st0 e1);
    [exact file_start_ok|by intros ? ? ?%nothing_held|exact fresh_1|exact body_1|by rewrite e1_entry|exact Hk|exact Ha]].
  split.
  - eapply held_change; [apply held_2|done|]. apply (as_freed _ _ _ _ _ Ha).
  - intros e' p [-> _]%Hh. unfold apart, e1, e2. lia.
  - intros p. rewrite Hw, e2_entry. intros Hp. apply Hf. unfold has_page, page_block in *. cbn in *. lia.
  - intros p e' p'. rewrite !Hw, e2_entry. intros Hp [-> Hp']%Hh. rewrite e1_entry.
    unfold has_page, page_block in *. cbn in *. lia.
Qed.
(** After the second. *)
Lemma second_write :
  exists st1 t1 st2 t2,
    rtc (file_step sbi nomem) (World m (empty_file ls1 0) [])
      (World (exec t2 (exec t1 m)) st2 [Wrote e2 (went m e2); Wrote e1 (went m e1)])
    /\ rtc (file_step sbi nomem) (World m (empty_file ls1 0) []) (World (exec t1 m) st1 [Wrote e1 (went m e1)])
    /\ (forall p, is_Some (fx_tree st2 !! p) <-> 0 <= p < 4) /\ fx_olds st2 <> []
    /\ (forall p, fx_tree st1 !! p = if decide (0 <= p < 4) then Some e1 else None) /\ fx_olds st1 = [].
Proof.
  destruct first_write as (st1 & t1 & Hr1 & Hi1 & Hf2 & Ho1 & Ht1 & Hw2 & Hp1).
  destruct (assign_run sbi plain [] nomem (fun _ => eq_refl) file_slab _ _ _ Hi1 Hf2)
    as (st2 & t2 & Hr2 & _ & Ha2 & _).
  assert (Hs1 : file_step sbi nomem (World m (empty_file ls1 0) []) (World (exec t1 m) st1 [Wrote e1 (went m e1)])).
  { refine (step_write sbi nomem [] m st0 [] e1 0 st1 t1 fresh_1 body_1 _ Hr1). by rewrite e1_entry. }
  exists st1, t1, st2, t2. split_and!; [| | | |done|done].
  - eapply rtc_l; [exact Hs1|]. rewrite <- (Hw2 e2).
    eapply rtc_l; [refine (step_write sbi nomem [] _ st1 _ e2 0 st2 t2 Hf2 body_2 _ Hr2); by rewrite Hw2, e2_entry|].
    apply rtc_refl.
  - eapply rtc_l; [exact Hs1|apply rtc_refl].
  - intros p. rewrite (as_tree _ _ _ _ _ Ha2), Hw2, e2_entry, Ht1. unfold has_page. cbn [we_pgoff we_num_pages].
    repeat case_decide; (split; intros Hx; first [lia|by eexists|by destruct Hx]).
  - intros E. assert (Hd : (e1, 1) ∈ deferred (fx_olds st2)).
    { apply (as_olds _ _ _ _ _ Ha2). rewrite Hw2, e2_entry, Ht1. unfold has_page. cbn [we_pgoff we_num_pages].
      split; [lia|done]. }
    rewrite E in Hd. by apply elem_of_nil in Hd.
Qed.
End Demo.

Section witnesses.
Import Demo.

(** Pages 0 to 3 are written, then 1 and 2: page 1 is read from the second
    write, and the file cannot be truncated.  When it is truncated before the
    second write, page 3 is a hole. *)
Lemma file_index_last_writer_witness :
  (exists w, rtc (file_step sbi nomem) (World m (empty_file ls1 0) []) w
    /\ nova_find_nvmm_block sbi 0 None 1 (w_file w) (w_mem w)
       = (Some (nova_get_block_off sbi 4 0 false, w_file w), [])
    /\ nova_find_nvmm_block sbi 0 None 3 (w_file w) (w_mem w)
       = (Some (nova_get_block_off sbi 3 0 false, w_file w), [])
    /\ nova_delete_file_tree sbi [] 0 5 0 0 4 true false 0 (w_file w) (w_mem w) = (None, []))
  /\ exists w, rtc (file_step sbi nomem) (World m (empty_file ls1 0) []) w
    /\ w_history w = [Cut 2; Wrote e1 (went m e1)]
    /\ nova_find_nvmm_block sbi 0 None 1 (w_file w) (w_mem w)
       = (Some (nova_get_block_off sbi 1 0 false, w_file w), [])
    /\ nova_find_nvmm_block sbi 0 None 3 (w_file w) (w_mem w) = (Some (0, w_file w), []).
Proof.
  destruct second_write as (st1 & t1 & st2 & t2 & Hs2 & Hs1 & Ht2 & Ho2 & Ht1 & Ho1).
  pose proof (al_wf _ _ _ _ _ _ six_blocks) as Hwf.
  pose proof (file_index_last_writer sbi plain nomem (fun _ => eq_refl) file_slab page_aligned ls1 0 m) as C.
  split.
  - eexists. split; [exact Hs2|]. destruct (C _ Hwf ltac:(done) Hs2) as (_ & _ & H & Hcut).
    pose proof (H 1) as F1. pose proof (H 3) as F3. cbn [w_file w_mem w_history] in *. rewrite e2_entry, e1_entry in F1, F3.
    split_and!; [apply F1|apply F3|]. specialize (Hcut [] true false 0 0 4 5%nat 0 4).
    destruct (fx_olds st2) as [|o l]; [by destruct (Ho2 eq_refl)|]. apply Hcut; [lia|lia| | |lia].
    + intros p Hp. apply eq_None_not_Some. rewrite Ht2. lia.
    + rewrite count_full; [done|lia|]. intros q Hq. apply Ht2. lia.
  - destruct (C _ Hwf ltac:(done) Hs1) as (_ & _ & _ & Hcut). cbn [w_file w_mem w_history] in *.
    specialize (Hcut [] true false 0 2 4 3%nat 0 4). rewrite Ho1 in Hcut.
    assert (Hend : forall p, 4 <= p -> fx_tree st1 !! p = None) by (intros p Hp; by rewrite Ht1, decide_False by lia).
    assert (Hc : count_pages (fx_tree st1) 2 4 < TWO31).
    { rewrite count_full; [done|lia|]. intros q Hq. rewrite Ht1, decide_True by lia. by eexists. }
    destruct Hcut as (st3 & t3 & Hr3); [lia|lia|exact Hend|exact Hc|lia|].
    assert (Hs3 : rtc (file_step sbi nomem) (World m (empty_file ls1 0) [])
      (World (exec t3 (exec t1 m)) st3 [Cut 2; Wrote e1 (went m e1)])).
    { eapply rtc_r; [exact Hs1|]. eapply (step_truncate sbi nomem [] true false 0 _ st1 _ 2 4 3%nat 0 4);
        [lia|lia|exact Hend|exact Hc|lia|exact Hr3]. }
    eexists. split; [exact Hs3|]. split; [done|]. destruct (C _ Hwf ltac:(done) Hs3) as (_ & _ & H & _).
    pose proof (H 1) as F1. pose proof (H 3) as F3. cbn [w_file w_mem w_history] in *. rewrite e1_entry in F1, F3.
    split; [apply F1|apply F3].
Defined.

(** The second write defers pages 1 and 2 of the first. *)
Lemma assign_write_entry_ok_witness :
  exists st1 t1 st2 t2,
    nova_assign_write_entry sbi [] 0 nomem e2 (words (exec t1 m) e2 ENTRY_WORDS) true st1 (exec t1 m)
      = (Some (0, st2), t2)
    /\ fx_tree st2 !! 1 = Some e2 /\ (e1, 1) ∈ deferred (fx_olds st2)
    /\ index_ok sbi (exec t2 (exec t1 m)) st2.
Proof.
  destruct first_write as (st1 & t1 & Hr1 & Hi1 & Hf2 & Ho1 & Ht1 & Hw2 & Hp1).
  destruct (assign_write_entry_ok sbi plain nomem (fun _ => eq_refl) file_slab [] _ _ _ Hi1 Hf2)
    as (st2 & t2 & Hr2 & Ha & Hi2 & _).
  exists st1, t1, st2, t2. split_and!; [exact Hr2| | |exact Hi2].
  - rewrite (as_tree _ _ _ _ _ Ha), Hw2, e2_entry. by rewrite decide_True by (unfold has_page; cbn; lia).
  - apply (as_olds _ _ _ _ _ Ha). rewrite Hw2, e2_entry, Ht1. unfold has_page. cbn [we_pgoff we_num_pages].
    split; [lia|done].
Defined.

(** Pages 1 to 3 of the first write are cut, as [nova_truncate_file_blocks]
    does it: they are charged to the entry. *)
Lemma delete_file_tree_ok_witness :
  exists st1 t1 st2 t2,
    nova_delete_file_tree sbi [] 0 4 0 1 4 true false 0 st1 (exec t1 m) = (Some (3, st2), t2)
    /\ fx_tree st2 !! 0 = Some e1 /\ fx_tree st2 !! 1 = None
    /\ we_invalid_pages (went (exec t2 (exec t1 m)) e1) = 3.
Proof.
  destruct first_write as (st1 & t1 & Hr1 & Hi1 & Hf2 & Ho1 & Ht1 & Hw2 & Hp1).
  assert (Hc : count_pages (fx_tree st1) 1 4 = 3).
  { rewrite count_full; [done|lia|]. intros q Hq. rewrite Ht1, decide_True by lia. by eexists. }
  pose proof (delete_file_tree_ok sbi plain file_slab page_aligned [] true false 0 (exec t1 m)
    st1 1 4 4 0 4 Hi1 (fun _ _ => Hp1)) as H. rewrite Ho1, Hc in H.
  destruct H as (st2 & t2 & Hr2 & Ha & _).
  { lia. } { done. }
  { intros p Hp. by rewrite Ht1, decide_False by lia. }
  { lia. } { lia. }
  exists st1, t1, st2, t2. split_and!; [exact Hr2| | |].
  - rewrite (tr_tree _ _ _ _ _ _ _ _ _ _ _ Ha). by rewrite decide_True, Ht1 by lia.
  - rewrite (tr_tree _ _ _ _ _ _ _ _ _ _ _ Ha). by rewrite decide_False by lia.
  - assert (He : fx_tree st1 !! 0 = Some e1) by (rewrite Ht1; by rewrite decide_True by lia).
    rewrite (truncated_went _ _ _ _ _ _ _ _ _ _ _ _ _ Ha He), Hw2, e1_entry.
    assert (Hch : entry_charged [] true false 0 (exec t1 m) e1 = true).
    { unfold entry_charged, run_charged, deletable, nova_old_entry_deleteable. by destruct (cur _ _ =? 0). }
    rewrite Hch, count_at_full; [done|lia|]. intros q Hq. by rewrite Ht1, decide_True by lia.
Defined.
End witnesses.
