(* ===== verification/Directory.v ===== *)
(** Directories (dir.c, nova.h BKDRHash): the tree of names in DRAM
    ([sih->rb_tree], keyed by the hash of the name) and reading a directory.

    A name is the list of its bytes; a dentry is the address of the entry in the
    log, its contents are bytes.  [None] is an endless loop, [BUG()] or the use
    of a pointer that was not set. *)

From S2P Require Import Prelude.
From S2P Require Import Kernel.
From S2P Require Import Checksum.
From S2P Require Import RangeTree.
From S2P Require Import Layout.
From S2P Require Import FreeList.
From S2P Require Import Balloc.
From S2P Require Import Pmem.
From S2P Require Import Journal.
From S2P Require Import InodeLog.
From S2P Require Import InodeMap.
From S2P Require Import DataGuard.
From S2P Require Import Replica.
From S2P Require Import InodeTable.
From S2P Require Import Recovery.
From S2P Require Import FileIndex.

(** A [char] of the name is signed. *)
Definition s8 (b : Z) : Z := if b <? 128 then b else b - 256.

Fixpoint BKDR_loop (str : list Z) (hash : Z) : Z :=
  match str with
  | [] => hash
  | c :: str => BKDR_loop str (u64 (hash * 131 + s8 c))
  end.
Definition BKDRHash (str : list Z) : Z := BKDR_loop str 0.

(** ** [struct nova_dentry], from its bytes *)
Definition SIZEOF_NOVA_DENTRY : nat := 304.
Definition de_name_len (bs : list Z) : Z := nth 1 bs 0.
Definition de_reassigned (bs : list Z) : Z := nth 2 bs 0.
Definition de_invalid (bs : list Z) : Z := nth 3 bs 0.
Definition de_links_count (bs : list Z) : Z := le_combine (take 2 (drop 6 bs)).
Definition de_mtime (bs : list Z) : Z := le_combine (take 4 (drop 8 bs)).
Definition de_ino (bs : list Z) : Z := le_combine (take 8 (drop 16 bs)).
Definition de_epoch_id (bs : list Z) : Z := le_combine (take 8 (drop 32 bs)).
Definition de_trans_id (bs : list Z) : Z := le_combine (take 8 (drop 40 bs)).
Definition de_name (bs : list Z) : list Z := drop 48 bs.
Definition de_full_name (bs : list Z) : list Z := take (Z.to_nat (de_name_len bs)) (de_name bs).

Fixpoint strncmp (n : nat) (a b : list Z) : Z :=
  match n with
  | O => 0
  | S n' =>
      let x := hd 0 a in
      let y := hd 0 b in
      if negb (x =? y) then (if x <? y then -1 else 1)
      else if x =? 0 then 0
      else strncmp n' (tl a) (tl b)
  end.

Section tree.
Context {RB : RbOps} {KM : KmemOps} {CR : CrcOps} {MP : ModParams}.

(** The dentry of a name, 0 when it is not found. *)
Definition nova_find_dentry (T : rtree) (name : list Z) : Z :=
  let h := BKDRHash name in
  match nova_find_range_node T h NODE_DIR None with
  | (1, Some p) => if h =? hash (deref T p) then direntry (deref T p) else 0
  | _ => 0
  end.

Definition nova_insert_dir_tree (T : rtree) (name : list Z) (de : Z) : Z * rtree :=
  let h := BKDRHash name in
  match nova_alloc_range_node T with
  | None => (- ENOMEM, T)
  | Some (node, T) =>
      let T := update_node node (set_low h) T in
      let T := update_node node (set_high de) T in
      let T := nova_update_range_node_checksum node T in
      let '(ret, T) := nova_insert_range_node T node NODE_DIR in
      (ret, if negb (ret =? 0) then nova_free_range_node node T else T)
  end.

Definition nova_delete_dir_tree (fuel : nat) (T : rtree) : option rtree :=
  nova_destroy_range_node_tree fuel T.

Definition nova_check_dentry_match (bs : list Z) (name : list Z) : Z :=
  if negb (de_name_len bs =? Z.of_nat (length name)) then - EINVAL
  else strncmp (length name) (de_name bs) name.

(** ** Operations that look at the dentry in the log *)
Context (sbi : nova_sb_info).

(** [entryc]: the entry itself, or a verified copy; [None] when it is corrupt. *)
Definition dentry_copy {S} (entry : Z) : SM S (option (list Z)) :=
  if negb metadata_csum then bs ← mem_op (load_bytes entry SIZEOF_NOVA_DENTRY); mret (Some bs)
  else
    r ← mem_opt (nova_verify_entry_csum sbi entry);
    match r with
    | (true, Some bs) => mret (Some bs)
    | (true, None) => bug
    | (false, _) => mret None
    end.

Definition put_tree (T : rtree) : SM rtree () := fun _ => mret (Some ((), T)).

(** The result and [*create_dentry], when it is set. *)
Definition nova_remove_dir_tree (name : list Z) (replay : bool) : SM rtree (Z * option Z) :=
  T ← get_state;
  let h := BKDRHash name in
  match nova_find_range_node T h NODE_DIR None with
  | (0, _) => mret (- EINVAL, None)
  | (_, None) => bug
  | (_, Some p) =>
      let entry := direntry (deref T p) in
      put_tree (nova_free_range_node p (rb_erase_node p T));;
      if replay then mret (0, None)
      else if entry =? 0 then mret (- EINVAL, None)
      else
        c ← dentry_copy entry;
        match c with
        | None => mret (- EINVAL, None)
        | Some entryc =>
            if (de_ino entryc =? 0) || negb (de_invalid entryc =? 0)
               || negb (nova_check_dentry_match entryc name =? 0)
            then mret (- EINVAL, None)
            else mret (0, Some entry)
        end
  end.

(** [old_entry_freeable]. *)
Definition old_entry_freeable (s_epoch_id epoch_id : Z) : bool := epoch_id =? s_epoch_id.

(** [create_dentry] and [delete_dentry] of the update; 0 is [NULL]. *)
Definition nova_invalidate_dentries {S} (s_epoch_id create_dentry delete_dentry : Z) : SM S Z :=
  if create_dentry =? 0 then mret 0
  else
    mem_opt (nova_reassign_logentry sbi create_dentry DIR_LOG);;
    c ← dentry_copy create_dentry;
    match c with
    | None => mret 0
    | Some create_dentryc =>
        if negb (old_entry_freeable s_epoch_id (de_epoch_id create_dentryc)) then mret 0
        else
          mem_opt (nova_invalidate_logentry sbi create_dentry DIR_LOG 0);;
          mem_opt (nova_invalidate_logentry sbi delete_dentry DIR_LOG 0)
    end.

(** ** Reading a directory *)

Definition READDIR_END : Z := TWO64 - 1.

(** What is given to [dir_emit]: name, inode number, type. *)
Definition dirent : Type := list Z * Z * Z.

(** [struct dir_context], and what [nova_get_inode_address] works on. *)
Record dir_context := DirContext {
  cx_pos : Z;
  cx_list : list dirent;
  cx_ls : lstate
}.
Abbreviation CM := (SM dir_context).

(** For [nova_get_inode_address], which allocates nothing here. *)
Context (alloc_fuel : nat) (this_cpu : Z).
(** Whether the buffer of the reader takes another entry. *)
Context (room : list dirent -> dirent -> bool).

Definition dir_emit (name : list Z) (ino type : Z) : CM bool := fun st =>
  let d := (name, ino, type) in
  if room (cx_list st) d
  then mret (Some (true, DirContext (cx_pos st) (cx_list st ++ [d]) (cx_ls st)))
  else mret (Some (false, st)).
Definition set_pos (pos : Z) : CM () := fun st =>
  mret (Some ((), DirContext pos (cx_list st) (cx_ls st))).
Definition in_lm {A} (x : LM A) : CM A := fun st =>
  r ← x (cx_ls st);
  mret ((fun r => (r.1, DirContext (cx_pos st) (cx_list st) r.2)) <$> r).

Definition IF2DT (sif : Z) : Z := Z.shiftr (Z.land sif S_IFMT) 12.

(** [i_mode] of the inode at an address. *)
Definition load_i_mode (pi : Z) : PM Z := w ← load (pi + 24); mret (Z.land (Z.shiftr w 32) 0xFFFF).

(** An entry that is emitted when the next one was found: its bytes, its
    inode. *)
Definition prev_entry : Type := option (list Z * Z).

Definition emit_prev (prev : prev_entry) (ino : Z) : CM bool :=
  match prev with
  | None => mret true
  | Some (prev_entryc, prev_child_pi) =>
      i_mode ← mem_op (load_i_mode prev_child_pi);
      dir_emit (de_full_name prev_entryc) ino (IF2DT i_mode)
  end.

(** The loop of [nova_readdir_fast]: [inl] is a return. *)
Fixpoint readdir_loop (fuel : nat) (log_tail curr_p pos ino : Z) (prev : prev_entry)
    : CM (Z + prev_entry * Z) :=
  if curr_p =? log_tail then mret (inr (prev, ino))
  else
    match fuel with
    | O => bug
    | S fuel' =>
        jump ← mem_op (goto_next_page sbi curr_p);
        curr_p ← (if (jump : bool) then mem_op (next_log_page sbi curr_p) else mret curr_p);
        if curr_p =? 0 then bug
        else
          let addr := meta_addr sbi curr_p in
          type ← mem_op (nova_get_entry_type addr);
          match entry_type_of type with
          | Some SET_ATTR =>
              readdir_loop fuel' log_tail (u64 (curr_p + nova_get_log_entry_size SET_ATTR)) pos ino prev
          | Some LINK_CHANGE =>
              readdir_loop fuel' log_tail (u64 (curr_p + nova_get_log_entry_size LINK_CHANGE)) pos ino prev
          | Some DIR_LOG =>
              c ← dentry_copy addr;
              match c with
              | None => mret (inl (- EIO))
              | Some entryc =>
                  if (0 <? de_ino entryc) && (de_invalid entryc =? 0) && (de_reassigned entryc =? 0) then
                    let ino := de_ino entryc in
                    let pos := BKDRHash (de_full_name entryc) in
                    '(ret, pi_addr) ← in_lm (nova_get_inode_address sbi alloc_fuel this_cpu ino 0 false false);
                    if negb (ret =? 0) then set_pos READDIR_END;; mret (inl ret)
                    else
                      match pi_addr with
                      | None => bug
                      | Some pi_addr =>
                          ok ← emit_prev prev ino;
                          if (ok : bool) then
                            set_pos pos;;
                            readdir_loop fuel' log_tail (u64 (curr_p + de_len entryc)) pos ino
                              (Some (entryc, meta_addr sbi pi_addr))
                          else mret (inl 0)
                      end
                  else
                    set_pos pos;;
                    readdir_loop fuel' log_tail (u64 (curr_p + de_len entryc)) pos ino prev
              end
          | _ => bug
          end
    end.

Definition nova_find_next_dentry_addr (T : rtree) (pos : Z) : Z :=
  match nova_find_range_node T pos NODE_DIR None with
  | (1, Some p) =>
      if pos =? hash (deref T p) then nova_get_addr_off sbi (direntry (deref T p)) true else 0
  | _ => 0
  end.

Definition nova_readdir_fast (fuel : nat) (T : rtree) (log_head log_tail : Z) : CM Z :=
  if log_head =? 0 then mret (- ENOSPC)
  else
    st ← get_state;
    let pos := cx_pos st in
    let curr_p := if pos =? 0 then log_head
                  else if pos =? READDIR_END then 0
                  else nova_find_next_dentry_addr T pos in
    if curr_p =? 0 then mret 0
    else
      r ← readdir_loop fuel log_tail curr_p pos 0 None;
      match r with
      | inl ret => mret ret
      | inr (prev, ino) =>
          ok ← emit_prev prev ino;
          if (ok : bool) then set_pos READDIR_END;; mret 0 else mret 0
      end.

(** The loop of [nova_readdir_slow_rbtree] over the nodes of the tree. *)
Fixpoint readdir_slow_loop (fuel : nat) (T : rtree) (temp : option ptr) : CM Z :=
  match temp with
  | None => set_pos READDIR_END;; mret 0
  | Some curr =>
      match fuel with
      | O => bug
      | S fuel' =>
          c ← dentry_copy (direntry (deref T curr));
          match c with
          | None => mret (- EIO)
          | Some entryc =>
              set_pos (BKDRHash (de_full_name entryc));;
              let ino := de_ino entryc in
              if ino =? 0 then readdir_slow_loop fuel' T temp
              else
                '(ret, pi_addr) ← in_lm (nova_get_inode_address sbi alloc_fuel this_cpu ino 0 false false);
                if negb (ret =? 0) then set_pos READDIR_END;; mret ret
                else
                  match pi_addr with
                  | None => bug
                  | Some pi_addr =>
                      i_mode ← mem_op (load_i_mode (meta_addr sbi pi_addr));
                      ok ← dir_emit (de_full_name entryc) ino (IF2DT i_mode);
                      if (ok : bool) then readdir_slow_loop fuel' T (rb_next curr (root T)) else mret 0
                  end
          end
      end
  end.

Definition nova_readdir_slow_rbtree (fuel : nat) (T : rtree) : CM Z :=
  st ← get_state;
  let pos := cx_pos st in
  if pos =? 0 then readdir_slow_loop fuel T (rb_first (root T))
  else if pos =? READDIR_END then mret 0
  else
    match nova_find_range_node T pos NODE_DIR None with
    | (1, Some p) =>
        readdir_slow_loop fuel T (if pos =? hash (deref T p) then Some p else None)
    | _ => readdir_slow_loop fuel T None
    end.

Definition nova_readdir (fuel : nat) (mount_snapshot : bool) (T : rtree) (log_head log_tail : Z) : CM Z :=
  if negb mount_snapshot then nova_readdir_fast fuel T log_head log_tail
  else nova_readdir_slow_rbtree fuel T.
End tree.
