(* ===== verification/DirectorySpec.v ===== *)
(** The tree of names of a directory as a finite map from hashes to dentries:
    what search, insertion and removal do to it, whatever its shape. *)

From S2P Require Import Prelude.
From S2P Require Import Kernel.
From S2P Require Import Checksum.
From S2P Require Import RangeTree.
From S2P Require Import RangeTreeSpec.
From S2P Require Import Layout.
From S2P Require Import Pmem.
From S2P Require Import Recovery.
From S2P Require Import RecoverySpec.
From S2P Require Import Directory.

(** ** Trees keyed by a hash are trees of one-point ranges *)

(** The tree with each range cut to its lower end, the hash. *)
Definition flat (T : rtree) : rtree :=
  RTree (root T) ((fun n => set_high (range_low n) n) <$> nodes T).

Section flat.
Context {RB : RbOps} {KM : KmemOps} {CR : CrcOps} {MP : ModParams}.
Context {RBL : RbLaws} {KML : KmemLaws}.

Lemma deref_flat T p : deref (flat T) p = set_high (range_low (deref T p)) (deref T p).
Proof. unfold deref, flat. cbn [nodes]. rewrite lookup_fmap. by destruct (nodes T !! p). Qed.

Lemma rng_flat T p : rng (flat T) p = (hash (deref T p), hash (deref T p)).
Proof. unfold rng. by rewrite deref_flat. Qed.

Lemma compare_flat T p key :
  nova_rbtree_compare_rangenode (deref T p) key NODE_DIR
  = nova_rbtree_compare_rangenode (deref (flat T) p) key NODE_BLOCK.
Proof. by rewrite deref_flat. Qed.

Lemma find_walk_flat T t key c : find_walk T t key NODE_DIR c = find_walk (flat T) t key NODE_BLOCK c.
Proof.
  revert c. induction t as [|l IHl p r IHr]; intros c; [done|]. cbn [find_walk].
  by rewrite compare_flat, IHl, IHr.
Qed.

Lemma link_walk_flat T t key n : link_walk T t key NODE_DIR n = link_walk (flat T) t key NODE_BLOCK n.
Proof.
  induction t as [|l IHl p r IHr]; [done|]. cbn [link_walk]. by rewrite compare_flat, IHl, IHr.
Qed.

(** The linked nodes are allocated, checked and in the order of their hashes. *)
Record dir_wf (T : rtree) : Prop := {
  dw_nodup : NoDup (ids T);
  dw_alloc : forall p, p ∈ ids T -> p ∈ dom (nodes T);
  dw_csum : forall p, p ∈ ids T -> nova_range_node_checksum_ok (deref T p) = true;
  dw_sorted : sorted_from (-1) (ranges (flat T))
}.

Definition dir_entry (T : rtree) (p : ptr) : Z * Z := (hash (deref T p), direntry (deref T p)).
Definition dir_entries (T : rtree) : list (Z * Z) := dir_entry T <$> ids T.
Definition dir_map (T : rtree) : gmap Z Z := list_to_map (dir_entries T).

Lemma ids_flat T : ids (flat T) = ids T.
Proof. done. Qed.

Lemma sorted_lows_nodup b l : sorted_from b l -> NoDup l.*1.
Proof.
  revert b. induction l as [|[lo hi] l IH]; intros b; [constructor|]. cbn. intros (_ & Hle & Hs).
  constructor; [|by eapply IH]. intros (r & E & Hr)%list_elem_of_fmap. destruct r as [lo' hi'].
  destruct (sorted_from_bounds _ _ _ _ Hs Hr). cbn in E. lia.
Qed.

Lemma dir_keys_nodup T : dir_wf T -> NoDup (dir_entries T).*1.
Proof.
  intros Hw. pose proof (sorted_lows_nodup _ _ (dw_sorted _ Hw)) as H.
  unfold ranges in H. unfold dir_entries. rewrite ids_flat in H.
  rewrite <- list_fmap_compose in H |- *.
  assert (E : (fst ∘ dir_entry T) <$> ids T = (fst ∘ rng (flat T)) <$> ids T).
  { apply list_fmap_ext. intros i p _. cbn. by rewrite deref_flat. }
  by rewrite E.
Qed.

Lemma dir_map_lookup T h d :
  dir_wf T -> dir_map T !! h = Some d <-> exists p, p ∈ ids T /\ hash (deref T p) = h /\ direntry (deref T p) = d.
Proof.
  intros Hw. unfold dir_map. rewrite <- elem_of_list_to_map by (by apply dir_keys_nodup).
  unfold dir_entries. rewrite list_elem_of_fmap. unfold dir_entry. split.
  - intros (p & [= -> ->] & Hp). eauto.
  - intros (p & Hp & <- & <-). eauto.
Qed.

Lemma dir_map_node T p : dir_wf T -> p ∈ ids T -> dir_map T !! hash (deref T p) = Some (direntry (deref T p)).
Proof. intros Hw Hp. apply dir_map_lookup; [done|]. eauto. Qed.

(** ** Search *)

Lemma find_dir T h r0 :
  dir_wf T ->
  (exists p, nova_find_range_node T h NODE_DIR r0 = (1, Some p) /\ p ∈ ids T /\ hash (deref T p) = h)
  \/ (exists l1 l2 c, nova_find_range_node T h NODE_DIR r0 = (0, c) /\ dir_map T !! h = None
        /\ ids T = l1 ++ l2 /\ below (flat T) l1 h /\ above (flat T) l2 h).
Proof.
  intros Hw. unfold nova_find_range_node. rewrite find_walk_flat.
  pose proof (find_walk_spec (flat T) (root T) h NODE_BLOCK None (-1) ltac:(done) (dw_sorted _ Hw)) as H.
  destruct (find_walk (flat T) (root T) h NODE_BLOCK None) as [ret c].
  destruct H as [(-> & p & -> & Hp & Hk)|(-> & l1 & l2 & E & Hb & Ha & Hc)].
  - left. exists p. rewrite (dw_csum _ Hw) by done. rewrite deref_flat in Hk. cbn in Hk.
    split_and!; [done|done|lia].
  - assert (Hn : dir_map T !! h = None).
    { apply eq_None_not_Some. intros [d Hd]. apply dir_map_lookup in Hd as (p & Hp & Hh & _); [|done].
      unfold ids in Hp. rewrite E in Hp. apply elem_of_app in Hp as [Hp|Hp].
      - specialize (Hb p Hp). rewrite deref_flat in Hb. cbn in Hb. lia.
      - specialize (Ha p Hp). rewrite deref_flat in Ha. cbn in Ha. lia. }
    right. exists l1, l2. destruct Hc as [[Ht ->]|[[p ->] Hc]].
    + exists None. split_and!; done.
    + exists (Some p). rewrite (dw_csum _ Hw); [split_and!; done|].
      unfold ids. rewrite E. destruct Hc as [Hc|Hc].
      * symmetry in Hc. apply last_Some in Hc as [l' ->]. set_solver.
      * destruct l2; simplify_eq/=. set_solver.
Qed.

Lemma find_dentry_map T name : dir_wf T -> nova_find_dentry T name = default 0 (dir_map T !! BKDRHash name).
Proof.
  intros Hw. unfold nova_find_dentry.
  destruct (find_dir T (BKDRHash name) None Hw) as [(p & -> & Hp & Hh)|(l1 & l2 & c & -> & Hn & _)].
  - rewrite <- Hh, Z.eqb_refl. by rewrite dir_map_node.
  - by rewrite Hn.
Qed.

(** ** Insertion *)

Lemma BKDR_loop_range str h : 0 <= h < TWO64 -> 0 <= BKDR_loop str h < TWO64.
Proof. revert h. induction str as [|c str IH]; intros h Hh; [done|]. apply IH, u64_range. Qed.

Lemma BKDRHash_range str : 0 <= BKDRHash str < TWO64.
Proof. by apply BKDR_loop_range. Qed.

Lemma sorted_fill b l1 l2 h :
  sorted_from b (l1 ++ l2) -> b < h -> (forall r, r ∈ l1 -> r.2 < h) -> (forall r, r ∈ l2 -> h < r.1) ->
  sorted_from b (l1 ++ (h, h) :: l2).
Proof.
  rewrite !sorted_from_app. intros [H1 H2] Hb Hl1 Hl2. split; [done|]. cbn. split_and!; [|done|].
  - by apply last_high_lt.
  - by eapply sorted_from_lower.
Qed.

(** A node of the slab filled with a name, not linked yet. *)
Definition new_dir_node (T : rtree) (p : ptr) (h de : Z) : rtree :=
  nova_update_range_node_checksum p
    (update_node p (set_high de) (update_node p (set_low h) (RTree (root T) (<[p := zero_node]> (nodes T))))).

Lemma new_dir_node_ok T p h de :
  p ∉ dom (nodes T) ->
  let T1 := new_dir_node T p h de in
  ids T1 = ids T /\ root T1 = root T /\ dom (nodes T1) = {[p]} ∪ dom (nodes T)
  /\ (forall q, q <> p -> deref T1 q = deref T q)
  /\ hash (deref T1 p) = h /\ direntry (deref T1 p) = de
  /\ nova_range_node_checksum_ok (deref T1 p) = true.
Proof.
  intros Hp T1. unfold T1, new_dir_node. rewrite ids_refresh, !ids_update.
  set (T0 := RTree _ _). split_and!; try done.
  - unfold nova_update_range_node_checksum. by destruct dram_struct_csum.
  - rewrite dom_refresh by (cbn; rewrite dom_insert_L; set_solver). cbn. rewrite !dom_insert_L. set_solver.
  - intros q Hq. rewrite deref_refresh, !deref_update. rewrite !decide_False by congruence.
    unfold deref, T0. cbn. by rewrite lookup_insert_ne by congruence.
  - rewrite deref_refresh, !deref_update, !decide_True, refreshed_low by done. done.
  - rewrite deref_refresh, !deref_update, !decide_True, refreshed_high by done. done.
  - rewrite deref_refresh, decide_True by done. apply refreshed_ok.
Qed.

Lemma dir_entry_ext T T' p : deref T' p = deref T p -> dir_entry T' p = dir_entry T p.
Proof. unfold dir_entry. by intros ->. Qed.

(** Linking and unlinking a node. *)
Lemma dir_link T T' p l1 l2 h de :
  dir_wf T -> ids T = l1 ++ l2 -> ids T' = l1 ++ p :: l2 -> p ∉ ids T ->
  dom (nodes T') = {[p]} ∪ dom (nodes T) -> (forall q, q ∈ ids T -> deref T' q = deref T q) ->
  hash (deref T' p) = h -> direntry (deref T' p) = de -> nova_range_node_checksum_ok (deref T' p) = true ->
  0 <= h -> below (flat T) l1 h -> above (flat T) l2 h ->
  dir_wf T' /\ dir_map T' = <[h := de]> (dir_map T).
Proof.
  intros Hw E E' Hp Hdom Hd Hh Hde Hc H0 Hb Ha.
  assert (Hids : forall q, q ∈ ids T' <-> q = p \/ q ∈ ids T).
  { intros q. rewrite E', E, !elem_of_app, elem_of_cons. tauto. }
  assert (Hw' : dir_wf T').
  { split.
    - rewrite E'. pose proof (dw_nodup _ Hw) as Hn. rewrite E in Hn, Hp.
      apply NoDup_app in Hn as (? & ? & ?). apply not_elem_of_app in Hp as [? ?].
      apply NoDup_app. split_and!; [done| |by apply NoDup_cons]. set_solver.
    - intros q [->|Hq]%Hids; rewrite Hdom; [set_solver|]. apply (dw_alloc _ Hw) in Hq. set_solver.
    - intros q [->|Hq]%Hids; [done|]. rewrite Hd by done. by apply Hw.
    - pose proof (dw_sorted _ Hw) as Hs. unfold ranges in *. rewrite !ids_flat in *. rewrite E', E in *.
      rewrite fmap_app in Hs |- *. rewrite fmap_cons, rng_flat, Hh.
      assert (Hmap : forall l : list ptr, (forall q, q ∈ l -> q ∈ l1 ++ l2) -> rng (flat T') <$> l = rng (flat T) <$> l).
      { intros l Hl. apply list_fmap_ext. intros i q Hq. rewrite !rng_flat, Hd; [done|].
        apply Hl. by eapply list_elem_of_lookup_2. }
      rewrite !Hmap by set_solver. apply sorted_fill; [done|lia| |].
      + intros r (q & -> & Hq)%list_elem_of_fmap. by apply Hb.
      + intros r (q & -> & Hq)%list_elem_of_fmap. by apply Ha. }
  split; [done|]. apply map_eq. intros k. apply option_eq. intros d.
  rewrite dir_map_lookup, lookup_insert_Some, dir_map_lookup by done. split.
  - intros (q & [->|Hq]%Hids & Hk & Hv); [left; by subst|right].
    rewrite Hd in Hk, Hv by done. split; [|by exists q]. intros E2. subst k.
    rewrite E in Hq. apply elem_of_app in Hq as [Hq|Hq].
    + specialize (Hb q Hq). rewrite deref_flat in Hb. cbn in Hb. lia.
    + specialize (Ha q Hq). rewrite deref_flat in Ha. cbn in Ha. lia.
  - intros [[<- <-]|[Hne (q & Hq & Hk & Hv)]].
    + exists p. split; [by apply Hids; left|by split].
    + exists q. rewrite Hd by done. split; [by apply Hids; right|by split].
Qed.

Lemma dir_unlinked_same T T' :
  dir_wf T -> ids T' = ids T -> (forall q, q ∈ ids T -> q ∈ dom (nodes T')) ->
  (forall q, q ∈ ids T -> deref T' q = deref T q) -> dir_wf T' /\ dir_map T' = dir_map T.
Proof.
  intros Hw E Hdom Hd.
  assert (Hr : ranges (flat T') = ranges (flat T)).
  { unfold ranges. rewrite !ids_flat, E. apply list_fmap_ext. intros i q Hq.
    rewrite !rng_flat, Hd; [done|]. by eapply list_elem_of_lookup_2. }
  split.
  - split; rewrite ?E, ?Hr; [apply Hw|done| |apply Hw]. intros q Hq. rewrite Hd by done. by apply Hw.
  - unfold dir_map, dir_entries. rewrite E. f_equal. apply list_fmap_ext. intros i q Hq.
    apply dir_entry_ext, Hd. by eapply list_elem_of_lookup_2.
Qed.

Lemma insert_dir T name de :
  dir_wf T -> is_Some (nova_alloc_range_node T) ->
  let h := BKDRHash name in
  exists T', nova_insert_dir_tree T name de
      = (if bool_decide (is_Some (dir_map T !! h)) then - EINVAL else 0, T')
    /\ dir_wf T'
    /\ dir_map T' = if bool_decide (is_Some (dir_map T !! h)) then dir_map T else <[h := de]> (dir_map T).
Proof.
  intros Hw Hslab h. unfold nova_insert_dir_tree, nova_alloc_range_node in *.
  destruct (kmem_cache_zalloc (dom (nodes T))) as [p|] eqn:Ez; [|by destruct Hslab].
  apply kmem_cache_zalloc_fresh in Ez as Hp. fold h. fold (new_dir_node T p h de).
  destruct (new_dir_node_ok T p h de Hp) as (Hid & Hro & Hdom & Hd & Hh & Hde & Hc).
  set (T1 := new_dir_node T p h de) in *. unfold nova_insert_range_node. rewrite Hh, Hro, link_walk_flat.
  assert (Hpi : p ∉ ids T) by (intros Hx; by apply Hp, (dw_alloc _ Hw)).
  assert (Hd' : forall q, q ∈ ids T -> deref T1 q = deref T q) by (intros q Hq; apply Hd; congruence).
  assert (Hdw : dir_wf T1 /\ dir_map T1 = dir_map T).
  { apply dir_unlinked_same; try done. intros q Hq%(dw_alloc _ Hw). rewrite Hdom. set_solver. }
  destruct Hdw as [Hw1 Hm1].
  destruct (find_dir T1 h None Hw1) as [(q & _ & Hq & Hqh)|(l1 & l2 & c & _ & Hn & E & Hb & Ha)].
  - rewrite bool_decide_eq_true_2 by (rewrite <- Hm1, <- Hqh; eexists; by apply dir_map_node).
    rewrite <- Hro, (link_walk_exists (flat T1) (root T1) h p (-1) (dw_sorted _ Hw1)).
    + change (negb (- EINVAL =? 0)) with true. cbv iota.
      exists (nova_free_range_node p T1). split; [done|].
      destruct (dir_unlinked_same T1 (nova_free_range_node p T1)) as [Hw2 Hm2]; try done.
      * intros q' Hq'. cbn. rewrite dom_delete_L, Hdom. rewrite Hid in Hq'.
        apply (dw_alloc _ Hw) in Hq' as Hx. set_solver.
      * intros q' Hq'. apply deref_free. rewrite Hid in Hq'. congruence.
      * split; [done|]. by rewrite Hm2.
    + exists (h, h). split; [|cbn; lia]. apply list_elem_of_fmap. exists q.
      rewrite rng_flat, Hqh. split; [done|exact Hq].
  - rewrite bool_decide_eq_false_2 by (rewrite <- Hm1, Hn; by intros []).
    destruct (link_walk_spec (flat T1) (root T1) h NODE_BLOCK p (-1) l1 l2 ltac:(done) (dw_sorted _ Hw1) E Hb Ha)
      as (t & Et & Hin). rewrite <- Hro, Et. cbn [negb Z.eqb].
    exists (set_root (rb_insert_color p t) T1). split; [done|]. rewrite <- Hm1.
    apply (dir_link T1 _ p l1 l2); try done.
    + unfold ids. cbn. by rewrite rb_insert_color_inorder.
    + by rewrite Hid.
    + cbn. rewrite Hdom. set_solver.
    + apply BKDRHash_range.
Qed.

(** ** Removal *)

Lemma dir_erase T p :
  dir_wf T -> p ∈ ids T ->
  let T' := nova_free_range_node p (rb_erase_node p T) in
  dir_wf T' /\ dir_map T' = delete (hash (deref T p)) (dir_map T).
Proof.
  intros Hw Hp T'. apply list_elem_of_split in Hp as Hs. destruct Hs as (l1 & l2 & E).
  pose proof (dw_nodup _ Hw) as Hnd.
  assert (E' : ids T' = l1 ++ l2).
  { unfold T', ids. cbn. by apply rb_erase_inorder. }
  assert (Hne : forall q, q ∈ l1 ++ l2 -> q <> p /\ q ∈ ids T).
  { intros q Hq. rewrite E in Hnd |- *. apply NoDup_app in Hnd as (_ & Hdis & [Hn2 _]%NoDup_cons).
    apply elem_of_app in Hq as [Hq|Hq]; (split; [|set_solver]); intros ->; [|done].
    apply (Hdis p Hq). by left. }
  assert (Hd : forall q, q <> p -> deref T' q = deref T q) by (intros q Hq; by apply (deref_free (rb_erase_node p T))).
  assert (Hw' : dir_wf T').
  { split.
    - rewrite E'. rewrite E in Hnd. apply NoDup_app in Hnd as (? & ? & [? ?]%NoDup_cons).
      apply NoDup_app. split_and!; [done|set_solver|done].
    - intros q. rewrite E'. intros [Hqp Hq]%Hne. cbn. rewrite dom_delete_L.
      apply (dw_alloc _ Hw) in Hq. set_solver.
    - intros q. rewrite E'. intros [Hqp Hq]%Hne. rewrite Hd by done. by apply Hw.
    - pose proof (dw_sorted _ Hw) as Hs. unfold ranges in *. rewrite !ids_flat in *. rewrite E' . rewrite E in Hs.
      rewrite fmap_app in Hs |- *. rewrite fmap_cons in Hs. apply sorted_drop_mid in Hs.
      assert (Hmap : forall l : list ptr, (forall q, q ∈ l -> q ∈ l1 ++ l2) -> rng (flat T') <$> l = rng (flat T) <$> l).
      { intros l Hl. apply list_fmap_ext. intros i q Hq. rewrite !rng_flat, Hd; [done|].
        apply Hne, Hl. by eapply list_elem_of_lookup_2. }
      rewrite !Hmap by set_solver. exact Hs. }
  split; [done|]. apply map_eq. intros k. apply option_eq. intros d.
  rewrite dir_map_lookup, lookup_delete_Some, dir_map_lookup by done. rewrite E'. split.
  - intros (q & Hq & Hk & Hv). destruct (Hne q Hq) as [Hqp Hqi]. rewrite Hd in Hk, Hv by done.
    split; [|by exists q]. intros Eh. subst k.
    assert (X : dir_map T !! hash (deref T p) = Some (direntry (deref T q))).
    { rewrite Eh. by apply dir_map_node. }
    pose proof (dir_keys_nodup T Hw) as Hk2. unfold dir_entries in Hk2.
    rewrite <- list_fmap_compose in Hk2. apply Hqp. symmetry.
    apply list_elem_of_lookup in Hp as [i Hi], Hqi as [j Hj].
    assert (Hij : i = j).
    { eapply NoDup_lookup; [exact Hk2| |]; rewrite list_lookup_fmap, ?Hi, ?Hj; cbn; [done|by rewrite Eh]. }
    congruence.
  - intros [Hne2 (q & Hq & Hk & Hv)]. assert (Hqp : q <> p) by (intros ->; congruence).
    exists q. rewrite Hd by done. split; [|done]. rewrite E in Hq. set_solver.
Qed.
End flat.
