(* ===== verification/DirectoryTheorems.v ===== *)
(** The properties of directories: the tree of names refines a map from names
    to dentries as long as no two names have the same hash, what happens when
    two do, and what reading a directory lists. *)

From S2P Require Import Prelude.
From S2P Require Import Kernel.
From S2P Require Import Checksum.
From S2P Require Import RangeTree.
From S2P Require Import RangeTreeSpec.
From S2P Require Import Layout.
From S2P Require Import FreeList.
From S2P Require Import Balloc.
From S2P Require Import Pmem.
From S2P Require Import PmemSpec.
From S2P Require Import Journal.
From S2P Require Import InodeLog.
From S2P Require Import InodeMap.
From S2P Require Import DataGuard.
From S2P Require Import Replica.
From S2P Require Import InodeTable.
From S2P Require Import Recovery.
From S2P Require Import RecoverySpec.
From S2P Require Import Directory.
From S2P Require Import DirectorySpec.

(** ** Operations on names *)

Inductive dir_op :=
  | AddName (name : list Z) (de : Z)
  | DropName (name : list Z) (replay : bool).

Definition op_name (op : dir_op) : list Z :=
  match op with AddName n _ => n | DropName n _ => n end.

(** What they do to a map from names to dentries: the result, [*create_dentry]
    and the new map. *)
Definition ref_op (op : dir_op) (M : gmap (list Z) Z) : Z * option Z * gmap (list Z) Z :=
  match op with
  | AddName n d =>
      match M !! n with
      | Some _ => (- EINVAL, None, M)
      | None => (0, None, <[n := d]> M)
      end
  | DropName n replay =>
      match M !! n with
      | Some d => (0, if replay then None else Some d, delete n M)
      | None => (- EINVAL, None, M)
      end
  end.

Fixpoint ref_ops (ops : list dir_op) (M : gmap (list Z) Z) : list (Z * option Z) * gmap (list Z) Z :=
  match ops with
  | [] => ([], M)
  | op :: ops =>
      let '(r, M1) := ref_op op M in
      let '(rs, M2) := ref_ops ops M1 in
      (r :: rs, M2)
  end.

(** The dentry at an address. *)
Definition dentry_at (m : mem) (d : Z) : list Z := (load_bytes d SIZEOF_NOVA_DENTRY m).1.

Lemma dentry_at_run m d : load_bytes d SIZEOF_NOVA_DENTRY m = (dentry_at m d, []).
Proof.
  unfold dentry_at, load_bytes. by rewrite bind_load_words.
Qed.

(** The dentry in the log is that of a name. *)
Record dentry_ok (m : mem) (name : list Z) (d : Z) : Prop := {
  do_addr : d <> 0;
  do_live : de_ino (dentry_at m d) <> 0 /\ de_invalid (dentry_at m d) = 0;
  do_name : de_name_len (dentry_at m d) = Z.of_nat (length name)
    /\ take (length name) (de_name (dentry_at m d)) = name
}.

Lemma strncmp_prefix name l : take (length name) l = name -> strncmp (length name) l name = 0.
Proof.
  revert l. induction name as [|c name IH]; intros [|x l]; cbn [length take]; try done.
  intros [= -> Hl]. cbn. rewrite Z.eqb_refl. cbn. destruct (c =? 0); [done|]. by apply IH.
Qed.

Section theorems.
Context {RB : RbOps} {KM : KmemOps} {CR : CrcOps} {MP : ModParams}.
Context {RBL : RbLaws} {KML : KmemLaws}.
Context (sbi : nova_sb_info) (Hmc : metadata_csum = false).
Context (Hslab : forall T, is_Some (nova_alloc_range_node T)).

Definition run_op (op : dir_op) : SM rtree (Z * option Z) :=
  match op with
  | AddName n d =>
      T ← get_state;
      let '(ret, T') := nova_insert_dir_tree T n d in
      put_tree T';; mret (ret, None)
  | DropName n replay => nova_remove_dir_tree sbi n replay
  end.

Fixpoint run_ops (ops : list dir_op) : SM rtree (list (Z * option Z)) :=
  match ops with
  | [] => mret []
  | op :: ops => r ← run_op op; rs ← run_ops ops; mret (r :: rs)
  end.

Lemma dentry_copy_run {S} m d (st : S) :
  dentry_copy sbi d st m = (Some (Some (dentry_at m d), st), []).
Proof.
  unfold dentry_copy. rewrite Hmc. cbn [negb].
  eapply (sm_run _ _ _ _ _ _ [] _ []); [|done]. unfold mem_op.
  by rewrite (bind_read _ _ _ _ (dentry_at_run m d)).
Qed.

Lemma remove_dir_run m T name replay :
  dir_wf T ->
  (forall d, dir_map T !! BKDRHash name = Some d -> dentry_ok m name d) ->
  exists T', nova_remove_dir_tree sbi name replay T m
      = (Some (match dir_map T !! BKDRHash name with
               | Some d => (0, if replay then None else Some d)
               | None => (- EINVAL, None)
               end, T'), [])
    /\ dir_wf T' /\ dir_map T' = delete (BKDRHash name) (dir_map T).
Proof.
  intros Hw Hok. unfold nova_remove_dir_tree.
  destruct (find_dir T (BKDRHash name) None Hw) as [(p & Ef & Hp & Hh)|(l1 & l2 & c & Ef & Hn & _)].
  - pose proof (dir_map_node T p Hw Hp) as Hd. rewrite Hh in Hd. rewrite Hd.
    destruct (Hok _ Hd) as [Ha [Hi Hv] [Hl Hnm]].
    destruct (dir_erase T p Hw Hp) as [Hw' Hm']. rewrite Hh in Hm'.
    exists (nova_free_range_node p (rb_erase_node p T)). split; [|done].
    eapply (sm_run _ _ _ _ _ _ [] _ []); [done|]. cbv beta zeta. rewrite Ef. cbv iota.
    eapply (sm_run _ _ _ _ () _ [] _ []); [done|]. destruct replay; [done|].
    rewrite (proj2 (Z.eqb_neq _ _) Ha).
    eapply (sm_run _ _ _ _ _ _ [] _ []); [apply dentry_copy_run|]. cbv beta iota.
    change (exec [] (exec [] m)) with m. rewrite (proj2 (Z.eqb_neq _ _) Hi), Hv.
    unfold nova_check_dentry_match. rewrite Hl, (Z.eqb_refl (Z.of_nat (length name))). cbn [negb Z.eqb orb].
    rewrite strncmp_prefix by done. cbn [negb Z.eqb orb]. done.
  - rewrite Hn. exists T. rewrite delete_id by done. split; [|done].
    eapply (sm_run _ _ _ _ _ _ [] _ []); [done|]. cbv beta zeta. by rewrite Ef.
Qed.

(** The tree holds the names of [M], all of them in [N]. *)
Record dir_abs (m : mem) (N : list Z -> Prop) (T : rtree) (M : gmap (list Z) Z) : Prop := {
  da_wf : dir_wf T;
  da_names : forall n, N n -> dir_map T !! BKDRHash n = M !! n;
  da_ok : forall n d, M !! n = Some d -> N n /\ dentry_ok m n d
}.

Lemma dir_abs_upd m N T M T' n o :
  (forall a b, N a -> N b -> BKDRHash a = BKDRHash b -> a = b) ->
  dir_abs m N T M -> N n -> dir_wf T' ->
  dir_map T' = partial_alter (fun _ => o) (BKDRHash n) (dir_map T) ->
  (forall d, o = Some d -> dentry_ok m n d) ->
  dir_abs m N T' (partial_alter (fun _ => o) n M).
Proof.
  intros Hinj [_ Hn Hok] HN Hw' Hm Ho. split; [done| |].
  - intros a Ha. rewrite Hm. destruct (decide (a = n)) as [->|Hne].
    + by rewrite !lookup_partial_alter_eq.
    + rewrite !lookup_partial_alter_ne by (done || intros E; by apply Hne, eq_sym, Hinj). by apply Hn.
  - intros a d. destruct (decide (a = n)) as [->|Hne].
    + rewrite lookup_partial_alter_eq. intros E. by auto.
    + rewrite lookup_partial_alter_ne by done. apply Hok.
Qed.

Lemma op_refines m N T M op :
  (forall a b, N a -> N b -> BKDRHash a = BKDRHash b -> a = b) ->
  dir_abs m N T M -> N (op_name op) ->
  match op with AddName n d => dentry_ok m n d | DropName _ _ => True end ->
  exists T', run_op op T m = (Some ((ref_op op M).1, T'), []) /\ dir_abs m N T' (ref_op op M).2.
Proof.
  intros Hinj Ha HN Hok. pose proof Ha as [Hw Hn Hd]. destruct op as [n d|n replay]; cbn [run_op ref_op op_name] in *.
  - destruct (insert_dir T n d Hw (Hslab T)) as (T' & Ei & Hw' & Hm'). rewrite (Hn n HN) in Ei, Hm'.
    exists T'. destruct (M !! n) as [d0|] eqn:E.
    + rewrite bool_decide_eq_true_2 in Ei, Hm' by done. split.
      * eapply (sm_run _ _ _ _ _ _ [] _ []); [done|]. cbv beta. by rewrite Ei.
      * split; [done| |done]. intros a HNa. rewrite Hm'. by apply Hn.
    + rewrite bool_decide_eq_false_2 in Ei, Hm' by (by intros []). split.
      * eapply (sm_run _ _ _ _ _ _ [] _ []); [done|]. cbv beta. by rewrite Ei.
      * apply (dir_abs_upd m N T M T' n (Some d)); try done. by intros ? [= <-].
  - destruct (remove_dir_run m T n replay Hw) as (T' & Er & Hw' & Hm').
    { intros d E. rewrite Hn in E by done. by apply Hd in E as [_ ?]. }
    rewrite Hn in Er by done. exists T'. destruct (M !! n) as [d|] eqn:E.
    + split; [exact Er|]. by apply (dir_abs_upd m N T M T' n None).
    + split; [exact Er|]. rewrite <- (delete_id M n) by done. by apply (dir_abs_upd m N T M T' n None).
Qed.

(** C25. The tree of names refines a map from names to dentries.  For names no
    two of which have the same BKDR hash, every sequence of
    [nova_insert_dir_tree] and [nova_remove_dir_tree] (of an operation, which
    checks the dentry in the log, or of a replay) on a well-formed tree gives
    the results of the map, -EINVAL for a name that is there or is not there;
    the tree stays well formed and [nova_find_dentry] finds every name of the
    map, with its dentry, and no other. *)
Theorem dir_tree_refines m N T M ops :
  (forall a b, N a -> N b -> BKDRHash a = BKDRHash b -> a = b) ->
  dir_abs m N T M ->
  Forall (fun op => N (op_name op)
    /\ match op with AddName n d => dentry_ok m n d | DropName _ _ => True end) ops ->
  exists T', run_ops ops T m = (Some ((ref_ops ops M).1, T'), [])
    /\ dir_abs m N T' (ref_ops ops M).2
    /\ forall n, N n -> nova_find_dentry T' n = default 0 ((ref_ops ops M).2 !! n).
Proof.
  intros Hinj Ha Hops. enough (H : exists T', run_ops ops T m = (Some ((ref_ops ops M).1, T'), [])
    /\ dir_abs m N T' (ref_ops ops M).2).
  { destruct H as (T' & Hr & Ha'). exists T'. split_and!; [done|done|]. intros n Hn.
    rewrite find_dentry_map by apply Ha'. by rewrite (da_names _ _ _ _ Ha'). }
  revert T M Ha. induction Hops as [|op ops [HN Hop] _ IH]; intros T M Ha; [by exists T|].
  destruct (op_refines m N T M op Hinj Ha HN Hop) as (T1 & Hr1 & Ha1).
  destruct (IH T1 _ Ha1) as (T2 & Hr2 & Ha2).
  cbn [run_ops ref_ops]. destruct (ref_op op M) as [r M1]. cbn [fst snd] in *.
  destruct (ref_ops ops M1) as [rs M2]. cbn [fst snd] in *. exists T2. split; [|done].
  eapply (sm_run _ _ _ _ _ _ [] _ []); [exact Hr1|]. cbv beta.
  eapply (sm_run _ _ _ _ _ _ [] _ []); [exact Hr2|]. done.
Qed.

(** ** Reading a directory *)

Definition live_dentry (bs : list Z) : bool :=
  (0 <? de_ino bs) && (de_invalid bs =? 0) && (de_reassigned bs =? 0).

(** The dentries of the log from [curr] to [tail], met in [n] steps. *)
Inductive dir_walk (m : mem) (tail : Z) : nat -> Z -> list (list Z) -> Prop :=
  | walk_end : dir_walk m tail 0 tail []
  | walk_skip n curr jump p ty l :
      curr <> tail -> goto_next_page sbi curr m = (jump, []) ->
      p = (if jump : bool then (next_log_page sbi curr m).1 else curr) -> p <> 0 ->
      entry_type_of (nova_get_entry_type (meta_addr sbi p) m).1 = Some ty ->
      ty = SET_ATTR \/ ty = LINK_CHANGE ->
      dir_walk m tail n (u64 (p + nova_get_log_entry_size ty)) l -> dir_walk m tail (S n) curr l
  | walk_dentry n curr jump p l :
      curr <> tail -> goto_next_page sbi curr m = (jump, []) ->
      p = (if jump : bool then (next_log_page sbi curr m).1 else curr) -> p <> 0 ->
      entry_type_of (nova_get_entry_type (meta_addr sbi p) m).1 = Some DIR_LOG ->
      dir_walk m tail n (u64 (p + de_len (dentry_at m (meta_addr sbi p)))) l ->
      dir_walk m tail (S n) curr (dentry_at m (meta_addr sbi p) :: l).

Section reading.
Context (alloc_fuel : nat) (this_cpu : Z).
Context (m : mem) (slot : Z -> Z) (ls : lstate).
(** The buffer takes every entry. *)
Let room (_ : list dirent) (_ : dirent) : bool := true.

Definition child_type (ino : Z) : Z := IF2DT (load_i_mode (meta_addr sbi (slot ino)) m).1.

(** What is listed: each name with the inode number of the next one. *)
Fixpoint listing (l : list (list Z)) : list dirent :=
  match l with
  | [] => []
  | b :: l' =>
      (de_full_name b, match l' with [] => de_ino b | b' :: _ => de_ino b' end, child_type (de_ino b))
      :: listing l'
  end.

Definition child_found (b : list Z) : Prop :=
  nova_get_inode_address sbi alloc_fuel this_cpu (de_ino b) 0 false false ls m
  = (Some (0, Some (slot (de_ino b)), ls), []).

Definition prev_list (prev : prev_entry) : list (list Z) :=
  match prev with Some (b, _) => [b] | None => [] end.
Definition prev_ok (prev : prev_entry) (ino : Z) : Prop :=
  match prev with
  | Some (b, pi) => pi = meta_addr sbi (slot (de_ino b)) /\ ino = de_ino b
  | None => True
  end.

Lemma emit_prev_run prev ino ino0 st :
  prev_ok prev ino0 ->
  emit_prev room prev ino st m
  = (Some (true, DirContext (cx_pos st)
       (cx_list st ++ match prev with
                      | Some (b, _) => [(de_full_name b, ino, child_type (de_ino b))]
                      | None => []
                      end) (cx_ls st)), []).
Proof.
  destruct prev as [[b pi]|]; cbn [prev_ok emit_prev].
  - intros [-> _]. eapply (sm_run _ _ _ _ _ _ [] _ []); [|done].
    unfold mem_op. unfold load_i_mode. by rewrite bind_load.
  - intros _. rewrite app_nil_r. by destruct st.
Qed.

Lemma step_run (curr : Z) (jump : bool) (st : dir_context) :
  goto_next_page sbi curr m = (jump, []) ->
  mem_op (goto_next_page sbi curr) st m = (Some (jump, st), [])
  /\ (if jump then mem_op (next_log_page sbi curr) else mret curr) st m
     = (Some (if jump then (next_log_page sbi curr m).1 else curr, st), []).
Proof.
  intros Hj. split.
  - unfold mem_op. by rewrite (bind_read _ _ _ _ Hj).
  - destruct jump; [|done]. unfold mem_op, next_log_page. by rewrite bind_load.
Qed.

Lemma type_run addr (st : dir_context) :
  mem_op (nova_get_entry_type addr) st m = (Some ((nova_get_entry_type addr m).1, st), []).
Proof. unfold mem_op, nova_get_entry_type, load8. by rewrite !bind_load. Qed.

(** The steps up to the type of the entry at [p]. *)
Local Ltac to_entry H1 H2 Hp Hty :=
  eapply (sm_run _ _ _ _ _ _ [] _ []); [exact H1|]; cbv beta;
  eapply (sm_run _ _ _ _ _ _ [] _ []); [exact H2|]; cbv beta; rewrite (proj2 (Z.eqb_neq _ _) Hp);
  cbv zeta; eapply (sm_run _ _ _ _ _ _ [] _ []); [apply type_run|]; cbv beta; rewrite Hty.

Lemma readdir_loop_run n fuel tail curr pos ino prev st l :
  dir_walk m tail n curr l -> (n <= fuel)%nat -> prev_ok prev ino -> cx_ls st = ls ->
  Forall child_found (filter live_dentry l) ->
  exists prev' ino' pos' out, readdir_loop sbi alloc_fuel this_cpu room fuel tail curr pos ino prev st m
      = (Some (inr (prev', ino'), DirContext pos' (cx_list st ++ out) ls), [])
    /\ prev_ok prev' ino'
    /\ out ++ listing (prev_list prev') = listing (prev_list prev ++ filter live_dentry l).
Proof.
  intros Hwalk. revert fuel pos ino prev st.
  induction Hwalk as [|n curr jump p ty l Hne Hj Ep Hp Hty Hk _ IH|n curr jump p l Hne Hj Ep Hp Hty _ IH];
    intros fuel pos ino prev st Hf Hpv Hls Hch.
  { exists prev, ino, (cx_pos st), []. split_and!; [|done|by rewrite app_nil_r].
    destruct fuel; cbn [readdir_loop]; rewrite Z.eqb_refl, app_nil_r, <- Hls; by destruct st. }
  - destruct fuel as [|fuel]; [lia|]. cbn [readdir_loop]. rewrite (proj2 (Z.eqb_neq _ _) Hne).
    destruct (step_run curr jump st Hj) as [H1 H2]. rewrite <- Ep in H2.
    destruct (IH fuel pos ino prev st ltac:(lia) Hpv Hls Hch) as (prev' & ino' & pos' & out & Hr & Hrest).
    exists prev', ino', pos', out. split; [|done].
    to_entry H1 H2 Hp Hty. by destruct Hk as [-> | ->].
  - destruct fuel as [|fuel]; [lia|]. cbn [readdir_loop]. rewrite (proj2 (Z.eqb_neq _ _) Hne).
    destruct (step_run curr jump st Hj) as [H1 H2]. rewrite <- Ep in H2.
    set (b := dentry_at m (meta_addr sbi p)) in *. rewrite filter_cons in Hch |- *.
    destruct (decide (live_dentry b)) as [Hlive|Hlive].
    + apply Forall_cons in Hch as [Hc Hch]. unfold child_found in Hc.
      set (st1 := DirContext (BKDRHash (de_full_name b))
        (cx_list st ++ match prev with
                       | Some (b0, _) => [(de_full_name b0, de_ino b, child_type (de_ino b0))]
                       | None => []
                       end) ls).
      destruct (IH fuel (BKDRHash (de_full_name b)) (de_ino b) (Some (b, meta_addr sbi (slot (de_ino b)))) st1
                  ltac:(lia) ltac:(done) eq_refl Hch) as (prev' & ino' & pos' & out & Hr & Hpv' & Hout).
      eexists prev', ino', pos', _. split; [|split; [exact Hpv'|]].
      * to_entry H1 H2 Hp Hty.
        eapply (sm_run _ _ _ _ _ _ [] _ []); [by apply dentry_copy_run|]. cbv beta iota.
        change (exec _ _) with m. fold b. unfold live_dentry in Hlive. rewrite (Is_true_true_1 _ Hlive).
        eapply (sm_run _ _ _ _ (0, Some (slot (de_ino b))) st [] _ []).
        { unfold in_lm. rewrite Hls, (bind_read _ _ _ _ Hc). cbn. rewrite <- Hls. by destruct st. }
        cbv beta iota. change (negb (0 =? 0)) with false. cbv iota.
        eapply (sm_run _ _ _ _ _ _ [] _ []); [by eapply emit_prev_run|]. cbv beta iota.
        eapply (sm_run _ _ _ _ () st1 [] _ []); [unfold st1; rewrite <- Hls; done|].
        etransitivity; [exact Hr|]. unfold st1. cbn [cx_list]. by rewrite <- app_assoc.
      * rewrite <- app_assoc, Hout. cbn [prev_list app].
        destruct prev as [[b0 pi0]|]; [|done]. cbn [prev_list app listing]. done.
    + destruct (IH fuel pos ino prev (DirContext pos (cx_list st) ls) ltac:(lia) Hpv eq_refl Hch)
        as (prev' & ino' & pos' & out & Hr & Hrest).
      exists prev', ino', pos', out. split; [|done].
      to_entry H1 H2 Hp Hty.
      eapply (sm_run _ _ _ _ _ _ [] _ []); [by apply dentry_copy_run|]. cbv beta iota.
      change (exec _ _) with m. fold b. unfold live_dentry in Hlive.
      rewrite (proj1 (not_true_iff_false _) (fun E => Hlive (Is_true_true_2 _ E))).
      eapply (sm_run _ _ _ _ () (DirContext pos (cx_list st) ls) [] _ []); [rewrite <- Hls; done|]. exact Hr.
Qed.

(** C10. [nova_readdir_fast] from the start of a directory whose log reads from
    head to tail: with fuel for its entries, a buffer that takes all of them
    and a known inode for each, it terminates with 0, leaves the position at
    the end, changes nothing else and lists every entry that is in use, once
    and in the order of the log, with its name and the type of its inode, but
    each with the inode number of the entry after it; only the last has its
    own. *)
Theorem readdir_fast_lists n fuel T log_head log_tail st l :
  cx_pos st = 0 -> log_head <> 0 -> dir_walk m log_tail n log_head l -> (n <= fuel)%nat ->
  cx_ls st = ls -> Forall child_found (filter live_dentry l) ->
  nova_readdir_fast sbi alloc_fuel this_cpu room fuel T log_head log_tail st m
  = (Some (0, DirContext READDIR_END (cx_list st ++ listing (filter live_dentry l)) ls), []).
Proof.
  intros Hpos Hh Hwalk Hf Hls Hch.
  destruct (readdir_loop_run n fuel log_tail log_head 0 0 None st l Hwalk Hf I Hls Hch)
    as (prev & ino & pos & out & Hr & Hpv & Hout).
  cbn [prev_list app] in Hout. rewrite <- Hout.
  unfold nova_readdir_fast. rewrite (proj2 (Z.eqb_neq _ _) Hh).
  eapply (sm_run _ _ _ _ _ _ [] _ []); [done|]. cbv beta zeta. rewrite Hpos. change (0 =? 0) with true. cbv iota.
  rewrite (proj2 (Z.eqb_neq _ _) Hh).
  eapply (sm_run _ _ _ _ _ _ [] _ []); [exact Hr|]. cbv beta iota.
  eapply (sm_run _ _ _ _ _ _ [] _ []); [by eapply emit_prev_run|]. cbv beta iota.
  eapply (sm_run _ _ _ _ () _ [] _ []); [done|]. cbn [cx_list cx_ls]. rewrite <- app_assoc.
  destruct prev as [[b pi]|]; [|done]. cbn [prev_list listing]. by destruct Hpv as [_ ->].
Qed.
End reading.

(** The slow reader stays at an entry whose inode number is 0. *)
Lemma readdir_slow_stuck alloc_fuel this_cpu room fuel T p st m :
  de_ino (dentry_at m (direntry (deref T p))) = 0 ->
  readdir_slow_loop sbi alloc_fuel this_cpu room fuel T (Some p) st m = (None, []).
Proof.
  intros H0. revert st. induction fuel as [|fuel IH]; intros st; [done|]. cbn [readdir_slow_loop].
  eapply (sm_run _ _ _ _ _ _ [] _ []); [by apply dentry_copy_run|]. cbv beta iota.
  change (exec _ _) with m. eapply (sm_run _ _ _ _ () _ [] _ []); [done|].
  cbv zeta. rewrite H0. apply IH.
Qed.
End theorems.

(** ** A small directory *)
Module Names.
#[export] Existing Instances Concrete.rb_ops Concrete.rb_laws Concrete.kmem_ops
  Concrete.kmem_laws Concrete.crc_ops Concrete.crc_laws.
#[export] Instance params : ModParams := {|
  metadata_csum := false; data_csum := false; data_parity := false;
  dram_struct_csum := true; support_clwb := true
|}.
Definition sbi : nova_sb_info := set_meta_start_virt 0x100000000 (set_blocksize_bits 12 zero_sb_info).

(** Two dentries, "a" and "b", at the start of block 40. *)
Definition head : Z := 163840.
Definition d1 : Z := 0x100000000 + 163840.
Definition d2 : Z := d1 + 56.
Definition device : list (Z * Z) :=
  [(d1, 2 + 256 + Z.shiftl 56 32); (d1 + 16, 5); (d1 + 48, 97);
   (d2, 2 + 256 + Z.shiftl 56 32); (d2 + 16, 6); (d2 + 48, 98);
   (meta_addr sbi (nova_get_reserved_inode_addr 5) + 24, Z.shiftl 0x81A4 32);
   (meta_addr sbi (nova_get_reserved_inode_addr 6) + 24, Z.shiftl 0x41ED 32)].
Definition m : mem := list_to_map ((fun '(a, x) => (a, Cell [x] None)) <$> device).

Lemma names_plain : metadata_csum = false.
Proof. done. Qed.
Lemma names_slab : forall T, is_Some (nova_alloc_range_node T).
Proof. intros T. by eexists. Qed.
Lemma name_a : dentry_ok m [97] d1.
Proof. split; by vm_compute. Qed.
Lemma name_b : dentry_ok m [98] d2.
Proof. split; by vm_compute. Qed.

Definition N (n : list Z) : Prop := n = [97] \/ n = [98].
Lemma names_distinct a b : N a -> N b -> BKDRHash a = BKDRHash b -> a = b.
Proof. by intros [-> | ->] [-> | ->]. Qed.

Lemma no_names : dir_abs m N empty_rtree ∅.
Proof.
  split; [|by intros n _|by intros n d]. split; try done.
  - apply NoDup_nil_2.
  - intros p Hp. by apply elem_of_nil in Hp.
  - intros p Hp. by apply elem_of_nil in Hp.
Qed.

Definition ls : lstate := LState [] (Sih 0 0 0 0 0 0 0).
Definition slot (ino : Z) : Z := nova_get_reserved_inode_addr ino.

Lemma two_entries : dir_walk sbi m (head + 112) 2 head [dentry_at m d1; dentry_at m d2].
Proof.
  apply (walk_dentry sbi m (head + 112) 1 head false head [dentry_at m d2]); try done.
  change (u64 _) with (head + 56).
  apply (walk_dentry sbi m (head + 112) 0 (head + 56) false (head + 56) []); try done.
  change (u64 _) with (head + 112). constructor.
Qed.

Lemma two_children :
  Forall (child_found sbi 0 0 m slot ls) (filter live_dentry [dentry_at m d1; dentry_at m d2]).
Proof.
  assert (E : filter live_dentry [dentry_at m d1; dentry_at m d2] = [dentry_at m d1; dentry_at m d2])
    by (vm_compute; reflexivity).
  rewrite E. apply Forall_cons_2; [|apply Forall_cons_2; [|apply Forall_nil_2]];
    unfold child_found; vm_compute; reflexivity.
Qed.
End Names.

Section findings.
Import Names.

(** Two names with the same hash: the bytes 0x62 0xBE and "aA". *)
Definition name1 : list Z := [98; 190].
Definition name2 : list Z := [97; 65].

Lemma hash_collision : BKDRHash name1 = BKDRHash name2.
Proof. done. Qed.

(** With the first in the directory, the second is found as well, as the first;
    it cannot be created; and a removal of it is refused only after the first
    was unlinked. *)
Lemma colliding_name :
  let T := (nova_insert_dir_tree empty_rtree name1 d1).2 in
  nova_find_dentry T name2 = d1
  /\ (nova_insert_dir_tree T name2 d2).1 = - EINVAL
  /\ match nova_remove_dir_tree sbi name2 false T m with
     | (Some (r, T'), _) => r = (- EINVAL, None) /\ nova_find_dentry T' name1 = 0
     | _ => False
     end.
Proof. by vm_compute. Qed.
End findings.

Section witnesses.
Import Names.

Lemma dir_tree_refines_witness :
  exists T', run_ops sbi [AddName [97] d1; AddName [98] d2; DropName [97] false; DropName [97] false]
               empty_rtree m
      = (Some ([(0, None); (0, None); (0, Some d1); (- EINVAL, None)], T'), [])
    /\ nova_find_dentry T' [98] = d2 /\ nova_find_dentry T' [97] = 0.
Proof.
  destruct (dir_tree_refines sbi names_plain names_slab m N empty_rtree ∅
    [AddName [97] d1; AddName [98] d2; DropName [97] false; DropName [97] false])
    as (T' & Hr & _ & Hf).
  - exact names_distinct.
  - exact no_names.
  - repeat apply Forall_cons_2; try apply Forall_nil_2; (split; [(by left) || (by right)|]);
      apply name_a || apply name_b || exact I.
  - exists T'. split; [exact Hr|]. split.
    + rewrite Hf by (by right). by vm_compute.
    + rewrite Hf by (by left). by vm_compute.
Defined.

Lemma readdir_fast_lists_witness :
  nova_readdir_fast sbi 0 0 (fun _ _ => true) 2 empty_rtree head (head + 112) (DirContext 0 [] ls) m
  = (Some (0, DirContext READDIR_END [([97], 6, 8); ([98], 6, 4)] ls), []).
Proof.
  assert (E : listing sbi m slot (filter live_dentry [dentry_at m d1; dentry_at m d2])
              = [([97], 6, 8); ([98], 6, 4)]) by (vm_compute; reflexivity).
  pose proof (readdir_fast_lists sbi names_plain 0 0 m slot ls 2 2 empty_rtree head (head + 112)
    (DirContext 0 [] ls) [dentry_at m d1; dentry_at m d2] eq_refl ltac:(discriminate) two_entries
    (le_n 2) eq_refl two_children) as H.
  rewrite E in H. exact H.
Defined.
End witnesses.
