(* ===== verification/Header.v ===== *)
(** What the operations on one inode change in DRAM: the header of the inode
    ([struct nova_inode_info_header]) and the lists of the allocator, as one
    state; the operations of the file index, of the log and of the directory
    run on their part of it.  [HM] is the monad of the code that works on all of
    it; [None] is [BUG()], the use of an unset pointer or a loop cut short. *)

From S2P Require Import Prelude.
From S2P Require Import Kernel.
From S2P Require Import Checksum.
From S2P Require Import RangeTree.
From S2P Require Import Layout.
From S2P Require Import FreeList.
From S2P Require Import Balloc.
From S2P Require Import Pmem.
From S2P Require Import Journal.
From S2P Require Import InodeLog.
From S2P Require Import DataGuard.
From S2P Require Import Recovery.
From S2P Require Import FileIndex.

(** [struct nova_inode_info_header]: the fields of the log are in [h_log], those
    of the file index and the free lists in [h_file], [rb_tree] is [h_dir]. *)
Record header := Header {
  h_file : file_state;
  h_log : nova_inode_info_header;
  h_dir : rtree;
  h_ino : Z;
  h_pi_addr : Z;
  h_i_mode : Z;
  h_i_flags : Z;
  h_i_size : Z;
  h_trans_id : Z;
  h_last_setattr : Z;
  h_last_link_change : Z;
  h_last_dentry : Z
}.

Definition set_h_file (v : file_state) (h : header) : header :=
  Header v (h_log h) (h_dir h) (h_ino h) (h_pi_addr h) (h_i_mode h) (h_i_flags h) (h_i_size h)
    (h_trans_id h) (h_last_setattr h) (h_last_link_change h) (h_last_dentry h).
Definition set_h_log (v : nova_inode_info_header) (h : header) : header :=
  Header (h_file h) v (h_dir h) (h_ino h) (h_pi_addr h) (h_i_mode h) (h_i_flags h) (h_i_size h)
    (h_trans_id h) (h_last_setattr h) (h_last_link_change h) (h_last_dentry h).
Definition set_h_dir (v : rtree) (h : header) : header :=
  Header (h_file h) (h_log h) v (h_ino h) (h_pi_addr h) (h_i_mode h) (h_i_flags h) (h_i_size h)
    (h_trans_id h) (h_last_setattr h) (h_last_link_change h) (h_last_dentry h).
Definition set_h_ino (v : Z) (h : header) : header :=
  Header (h_file h) (h_log h) (h_dir h) v (h_pi_addr h) (h_i_mode h) (h_i_flags h) (h_i_size h)
    (h_trans_id h) (h_last_setattr h) (h_last_link_change h) (h_last_dentry h).
Definition set_h_pi_addr (v : Z) (h : header) : header :=
  Header (h_file h) (h_log h) (h_dir h) (h_ino h) v (h_i_mode h) (h_i_flags h) (h_i_size h)
    (h_trans_id h) (h_last_setattr h) (h_last_link_change h) (h_last_dentry h).
Definition set_h_i_mode (v : Z) (h : header) : header :=
  Header (h_file h) (h_log h) (h_dir h) (h_ino h) (h_pi_addr h) v (h_i_flags h) (h_i_size h)
    (h_trans_id h) (h_last_setattr h) (h_last_link_change h) (h_last_dentry h).
Definition set_h_i_flags (v : Z) (h : header) : header :=
  Header (h_file h) (h_log h) (h_dir h) (h_ino h) (h_pi_addr h) (h_i_mode h) v (h_i_size h)
    (h_trans_id h) (h_last_setattr h) (h_last_link_change h) (h_last_dentry h).
Definition set_h_i_size (v : Z) (h : header) : header :=
  Header (h_file h) (h_log h) (h_dir h) (h_ino h) (h_pi_addr h) (h_i_mode h) (h_i_flags h) v
    (h_trans_id h) (h_last_setattr h) (h_last_link_change h) (h_last_dentry h).
Definition set_h_trans_id (v : Z) (h : header) : header :=
  Header (h_file h) (h_log h) (h_dir h) (h_ino h) (h_pi_addr h) (h_i_mode h) (h_i_flags h) (h_i_size h)
    v (h_last_setattr h) (h_last_link_change h) (h_last_dentry h).
Definition set_h_last_setattr (v : Z) (h : header) : header :=
  Header (h_file h) (h_log h) (h_dir h) (h_ino h) (h_pi_addr h) (h_i_mode h) (h_i_flags h) (h_i_size h)
    (h_trans_id h) v (h_last_link_change h) (h_last_dentry h).
Definition set_h_last_link_change (v : Z) (h : header) : header :=
  Header (h_file h) (h_log h) (h_dir h) (h_ino h) (h_pi_addr h) (h_i_mode h) (h_i_flags h) (h_i_size h)
    (h_trans_id h) (h_last_setattr h) v (h_last_dentry h).
Definition set_h_last_dentry (v : Z) (h : header) : header :=
  Header (h_file h) (h_log h) (h_dir h) (h_ino h) (h_pi_addr h) (h_i_mode h) (h_i_flags h) (h_i_size h)
    (h_trans_id h) (h_last_setattr h) (h_last_link_change h) v.

Definition S_IFREG : Z := 0x8000.
Definition S_IFLNK : Z := 0xA000.
Definition S_ISREG (i_mode : Z) : bool := Z.land i_mode S_IFMT =? S_IFREG.

Abbreviation HM := (SM header).

Definition edit (f : header -> header) : HM () := fun h => mret (Some ((), f h)).

(** The lists of the allocator are those of the file. *)
Definition set_lists (ls : list free_list) (st : file_state) : file_state :=
  FileState ls (fx_tree st) (fx_olds st) (fx_i_blocks st) (fx_snapshot st).

(** Running an operation on its part of the header. *)
Definition on_file {A} (x : FM A) : HM A := fun h =>
  r ← x (h_file h);
  mret ((fun r => (r.1, set_h_file r.2 h)) <$> r).
Definition on_log {A} (x : LM A) : HM A := fun h =>
  r ← x (LState (fx_lists (h_file h)) (h_log h));
  mret ((fun r => (r.1, set_h_log (sih r.2) (set_h_file (set_lists (fls r.2) (h_file h)) h))) <$> r).
Definition on_dir {A} (x : SM rtree A) : HM A := fun h =>
  r ← x (h_dir h);
  mret ((fun r => (r.1, set_h_dir r.2 h)) <$> r).
