(* ===== verification/LogEntry.v ===== *)
(** The entries of an inode log (log.c, inode.h): building an entry in the log,
    appending it, updating it in place under the journal, publishing the new
    tail, and the attribute operations made of these.

    [NOVA_INODE_IN_MEM] is 0: the functions that append an entry themselves pass
    no copy of the inode.  The fields a kind of entry does not use are left
    unset by the source and never read; they are 0 here.  An update that is
    not returned complete (an entry that was not appended) is [None] where the
    source leaves a variable unset. *)

From S2P Require Import Prelude.
From S2P Require Import Kernel.
From S2P Require Import Checksum.
From S2P Require Import Layout.
From S2P Require Import FreeList.
From S2P Require Import Balloc.
From S2P Require Import RangeTree.
From S2P Require Import Pmem.
From S2P Require Import Journal.
From S2P Require Import InodeLog.
From S2P Require Import InodeTable.
From S2P Require Import DataGuard.
From S2P Require Import Replica.
From S2P Require Import Recovery.
From S2P Require Import FileIndex.
From S2P Require Import Directory.
From S2P Require Import Header.

Definition ATTR_MODE : Z := 1.
Definition ATTR_SIZE : Z := 8.
(** [ATTR_MODE | ATTR_UID | ATTR_GID | ATTR_SIZE | ATTR_ATIME | ATTR_MTIME |
    ATTR_CTIME]. *)
Definition attr_mask : Z := 127.

(** The fields of the VFS inode that are logged. *)
Record vfs_inode := VfsInode {
  vi_mode : Z; vi_uid : Z; vi_gid : Z; vi_atime : Z; vi_mtime : Z; vi_ctime : Z;
  vi_size : Z; vi_nlink : Z; vi_generation : Z
}.

(** [struct nova_inode_update]. *)
Record nova_inode_update := InodeUpdate {
  up_tail : Z; up_alter_tail : Z; up_curr_entry : Z; up_alter_entry : Z
}.

(** [struct nova_log_entry_info]: [li_data] is the prepared entry as words, or
    the name of a dentry as bytes. *)
Record nova_log_entry_info := LogEntryInfo {
  li_type : nova_entry_type;
  li_ia_valid : Z; li_ia_size : Z;
  li_data : list Z;
  li_epoch_id : Z; li_trans_id : Z;
  li_file_size : Z; li_ino : Z; li_time : Z; li_link_change : Z; li_inplace : bool
}.

Section log_entry.
Context {RB : RbOps} {KM : KmemOps} {CR : CrcOps} {MP : ModParams}.
Context (sbi : nova_sb_info).

(** ** The contents of an entry *)

Definition nova_update_setattr_entry (v : vfs_inode) (entry : Z) (info : nova_log_entry_info) : PM () :=
  store8 entry (entry_type_code SET_ATTR);;
  store8 (entry + 1) (Z.land (li_ia_valid info) attr_mask);;
  store16 (entry + 2) (vi_mode v);;
  store32_hi entry (vi_uid v);;
  store32_lo (entry + 8) (vi_gid v);;
  store32_hi (entry + 8) (vi_atime v);;
  store32_hi (entry + 16) (vi_ctime v);;
  store32_lo (entry + 16) (vi_mtime v);;
  store64 (entry + 32) (li_epoch_id info);;
  store64 (entry + 40) (li_trans_id info);;
  store8 (entry + 48) 0;;
  store64 (entry + 24) (if Z.land (li_ia_valid info) ATTR_SIZE =? 0 then vi_size v else li_ia_size info);;
  nova_update_entry_csum entry.

Definition nova_update_link_change_entry (v : vfs_inode) (i_flags entry : Z)
    (info : nova_log_entry_info) : PM () :=
  store8 entry (entry_type_code LINK_CHANGE);;
  store64 (entry + 16) (li_epoch_id info);;
  store64 (entry + 24) (li_trans_id info);;
  store8 (entry + 1) 0;;
  store16 (entry + 2) (vi_nlink v);;
  store32_hi entry (vi_ctime v);;
  store32_lo (entry + 8) i_flags;;
  store32_hi (entry + 8) (vi_generation v);;
  nova_update_entry_csum entry.

Definition nova_update_write_entry (entry : Z) (info : nova_log_entry_info) : PM () :=
  store64 (entry + 40) (li_epoch_id info);;
  store64 (entry + 48) (li_trans_id info);;
  store32_hi (entry + 24) (li_time info);;
  store64 (entry + 32) (li_file_size info);;
  store8 (entry + 2) 0;;
  nova_update_entry_csum entry.

(** [links_count] is an [unsigned short]. *)
Definition new_links_count (v : vfs_inode) (link_change : Z) : Z :=
  let links_count := vi_nlink v mod 65536 in
  if (links_count =? 0) && (link_change =? -1) then 0 else (links_count + link_change) mod 65536.

Definition nova_update_old_dentry (v : vfs_inode) (dentry : Z) (info : nova_log_entry_info) : PM () :=
  store64 (dentry + 32) (li_epoch_id info);;
  store64 (dentry + 40) (li_trans_id info);;
  store64 (dentry + 16) 0;;
  store8 (dentry + 3) 1;;
  store32_lo (dentry + 8) (vi_mtime v);;
  store16 (dentry + 6) (new_links_count v (li_link_change info));;
  nova_inc_page_invalid_entries sbi (nova_get_addr_off sbi dentry true);;
  nova_update_entry_csum dentry.

Definition nova_update_new_dentry (v : vfs_inode) (entry : Z) (info : nova_log_entry_info) : PM () :=
  let name := li_data info in
  store8 entry (entry_type_code DIR_LOG);;
  store64 (entry + 32) (li_epoch_id info);;
  store64 (entry + 40) (li_trans_id info);;
  store64 (entry + 16) (li_ino info);;
  store8 (entry + 1) (Z.of_nat (length name));;
  store_nt_bytes (entry + 48) name;;
  store8 (entry + 48 + Z.of_nat (length name)) 0;;
  store32_lo (entry + 8) (vi_mtime v);;
  store16 (entry + 6) (new_links_count v (li_link_change info));;
  store16 (entry + 4) (li_file_size info);;
  nova_update_entry_csum entry.

Definition nova_update_log_entry (v : vfs_inode) (i_flags entry : Z) (info : nova_log_entry_info)
    : PM () :=
  match li_type info with
  | FILE_WRITE =>
      if li_inplace info then nova_update_write_entry entry info
      else store_words entry (li_data info);; nova_flush_buffer entry 64 false
  | DIR_LOG =>
      if li_inplace info then nova_update_old_dentry v entry info
      else nova_update_new_dentry v entry info
  | SET_ATTR => nova_update_setattr_entry v entry info
  | LINK_CHANGE => nova_update_link_change_entry v i_flags entry info
  | MMAP_WRITE | SNAPSHOT_INFO => store_nt_words entry (li_data info)
  | NEXT_PAGE => mret ()
  end.

(** [nova_update_entry_csum] of an entry prepared in DRAM, whose checksum is
    the high half of its last word. *)
Definition update_data_csum (data : list Z) : list Z :=
  if negb metadata_csum then data
  else
    match last data with
    | None => data
    | Some w =>
        removelast data ++ [Z.lor (Z.shiftl (nova_calc_entry_csum (bytes_of data)) 32) (u32 w)]
    end.

(** ** Publishing the tail (inode.h) *)

Definition nova_update_tail (pi new_tail : Z) (faf : bool) : PM () :=
  (if faf then PERSISTENT_BARRIER else mret ());;
  store64 (pi + off_log_tail) new_tail;;
  if faf then nova_flush_buffer (pi + off_log_tail) CACHELINE_SIZE true else mret ().

Definition nova_update_alter_tail (pi new_tail : Z) (faf : bool) : PM () :=
  if negb metadata_csum then mret ()
  else
    (if faf then PERSISTENT_BARRIER else mret ());;
    store64 (pi + off_alter_log_tail) new_tail;;
    if faf then nova_flush_buffer (pi + off_alter_log_tail) CACHELINE_SIZE true else mret ().

(** [memcpy_mcsafe] of the replica returns 0. *)
Definition nova_update_alter_inode (alter_pi_addr pi : Z) : PM () :=
  if negb metadata_csum then mret ()
  else memcpy_to_pmem_nocache (meta_addr sbi alter_pi_addr) pi NOVA_INODE_WORDS.

(** [pic] is a copy of the inode in DRAM. *)
Definition nova_update_inode (pi : Z) (pic : option Z) (up : nova_inode_update) (update_alter : bool)
    : HM () :=
  h ← get_state;
  let l := h_log h in
  edit (set_h_log (Sih (i_blk_type l) (sih_alter_pi_addr l) (log_pages l) (log_head l) (up_tail up)
                     (alter_log_head l) (up_alter_tail up)));;
  let p := default pi pic in
  mem_op (nova_update_tail p (up_tail up) false;;
          nova_update_alter_tail p (up_alter_tail up) false;;
          nova_update_inode_checksum p false;;
          (if update_alter then nova_update_alter_inode (sih_alter_pi_addr l) p else mret ());;
          match pic with
          | Some pic => memcpy_to_pmem_nocache pi pic NOVA_INODE_WORDS
          | None => mret ()
          end).

(** ** Appending *)

Context (fuel : nat) (this_cpu : Z) (snapshots : list Z) (radix_nomem : Z -> bool) (s_epoch_id : Z).

(** [memset] of an entry; the sizes are multiples of 8. *)
Definition clear_entry (entry size : Z) : PM () :=
  store_words entry (replicate (Z.to_nat (size / 8)) 0).

Definition assign_entry (entry : Z) (entryc : list Z) (free : bool) : HM Z :=
  h ← get_state;
  on_file (nova_assign_write_entry sbi snapshots (i_blk_type (h_log h)) radix_nomem entry entryc free).

(** One copy of the entry: where it was put, 0 without space. *)
Definition put_entry (pi : Z) (pic : option Z) (v : vfs_inode) (info : nova_log_entry_info)
    (tail size log_id : Z) : HM Z :=
  '(curr_p, _) ← on_log (nova_get_append_head sbi fuel this_cpu pi pic tail size log_id false);
  if curr_p =? 0 then mret 0
  else
    h ← get_state;
    let entry := meta_addr sbi curr_p in
    mem_op (clear_entry entry size;; nova_update_log_entry v (h_i_flags h) entry info);;
    mret curr_p.

(** The result, the update and [entry_info->curr_p]. *)
Definition nova_append_log_entry (pi : Z) (pic : option Z) (v : vfs_inode) (info : nova_log_entry_info)
    (up : nova_inode_update) : HM (Z * nova_inode_update * option Z) :=
  let size := match li_type info with
              | DIR_LOG => li_file_size info
              | type => nova_get_log_entry_size type
              end in
  curr_p ← put_entry pi pic v info (up_tail up) size MAIN_LOG;
  if curr_p =? 0 then mret (- ENOSPC, up, None)
  else
    mem_op (nova_inc_page_num_entries sbi curr_p);;
    let tail := u64 (curr_p + size) in
    let up1 := InodeUpdate tail (up_alter_tail up) curr_p (up_alter_entry up) in
    mem_op (store8 (meta_addr sbi tail) 0);;
    alter_curr_p ← (if metadata_csum
                    then put_entry pi pic v info (up_alter_tail up) size ALTER_LOG
                    else mret curr_p);
    if alter_curr_p =? 0 then mret (- ENOSPC, up1, None)
    else
      let up2 := if metadata_csum
                 then InodeUpdate tail (u64 (alter_curr_p + size)) curr_p alter_curr_p else up1 in
      (if decide (li_type info = FILE_WRITE) then
         let entry := meta_addr sbi curr_p in
         ws ← mem_op (load_words entry ENTRY_WORDS);
         assign_entry entry ws true;; mret ()
       else mret ());;
      mret (0, up2, Some curr_p).

(** ** Updating in place *)

Definition nova_inplace_update_log_entry (v : vfs_inode) (entry : Z) (info : nova_log_entry_info)
    : HM () :=
  h ← get_state;
  let update := nova_update_log_entry v (h_i_flags h) entry info in
  if metadata_csum then
    mem_op update;;
    mem_opt (nova_update_alter_entry sbi entry);;
    mret ()
  else if cpus sbi =? 0 then bug
  else
    let cpu := this_cpu mod cpus sbi in
    journal_tail ← mem_opt (nova_create_logentry_transaction sbi entry (li_type info) cpu);
    mem_op (update;; PERSISTENT_BARRIER);;
    mem_opt (nova_commit_lite_transaction sbi journal_tail cpu).

(** ** Attributes *)

Definition setattr_info (ia_valid ia_size epoch_id trans_id : Z) : nova_log_entry_info :=
  LogEntryInfo SET_ATTR ia_valid ia_size [] epoch_id trans_id 0 0 0 0 false.

(** The result, the update and [*last_setattr]. *)
Definition nova_append_setattr_entry (pi : Z) (v : vfs_inode) (ia_valid ia_size : Z)
    (up : nova_inode_update) (epoch_id : Z) : HM (Z * nova_inode_update * Z) :=
  h ← get_state;
  '(ret, up, curr_p) ← nova_append_log_entry pi None v
     (setattr_info ia_valid ia_size epoch_id (h_trans_id h)) up;
  match curr_p with
  | None => mret (ret, up, 0)
  | Some curr_p =>
      nova_update_inode pi None up true;;
      h ← get_state;
      edit (set_h_last_setattr curr_p);;
      mret (ret, up, h_last_setattr h)
  end.

(** The words of an entry in the log, or of a verified copy. *)
Definition verified_entry {S} (entry : Z) (n : nat) : SM S (option (list Z)) :=
  if negb metadata_csum then ws ← mem_op (load_words entry n); mret (Some ws)
  else
    r ← mem_opt (nova_verify_entry_csum sbi entry);
    match r with
    | (true, Some bs) => mret (Some (words_of bs))
    | (true, None) => bug
    | (false, _) => mret None
    end.

Definition nova_invalidate_setattr_entry (last_setattr : Z) : HM Z :=
  let old_entry := meta_addr sbi last_setattr in
  c ← verified_entry old_entry 7;
  match c with
  | None => mret (- EIO)
  | Some ws =>
      if negb (old_entry_freeable s_epoch_id (nth 4 ws 0))
         || negb (Z.land (byte (nth 0 ws 0) 1) ATTR_SIZE =? 0)
      then mret 0
      else mem_opt (nova_invalidate_logentry sbi old_entry SET_ATTR 0)
  end.

Definition nova_can_inplace_update_setattr (epoch_id : Z) : HM bool :=
  h ← get_state;
  let last_log := h_last_setattr h in
  if last_log =? 0 then mret false
  else
    let entry := meta_addr sbi last_log in
    attr ← mem_op (load8 (entry + 1));
    if negb (Z.land attr ATTR_SIZE =? 0) then mret false
    else e ← mem_op (load (entry + 32)); mret (e =? epoch_id).

Definition nova_inplace_update_setattr_entry (v : vfs_inode) (ia_valid ia_size epoch_id : Z) : HM () :=
  h ← get_state;
  nova_inplace_update_log_entry v (meta_addr sbi (h_last_setattr h))
    (setattr_info ia_valid ia_size epoch_id (h_trans_id h)).

(** [ia_valid] is given twice in the source, with the same value. *)
Definition nova_handle_setattr_operation (pi : Z) (v : vfs_inode) (ia_valid ia_size epoch_id : Z)
    : HM Z :=
  (if Z.land ia_valid ATTR_MODE =? 0 then mret () else edit (set_h_i_mode (vi_mode v)));;
  inplace ← (if Z.land ia_valid ATTR_SIZE =? 0 then nova_can_inplace_update_setattr epoch_id
             else mret false);
  '(ret, last_setattr) ←
    (if (inplace : bool) then
       nova_inplace_update_setattr_entry v ia_valid ia_size epoch_id;; mret (0, 0)
     else
       '(ret, up, last_setattr) ← nova_append_setattr_entry pi v ia_valid ia_size
          (InodeUpdate 0 0 0 0) epoch_id;
       if negb (ret =? 0) then mret (ret, 0)
       else nova_update_inode pi None up true;; mret (0, last_setattr));
  if negb (ret =? 0) then mret ret
  else
    (if last_setattr =? 0 then mret () else nova_invalidate_setattr_entry last_setattr;; mret ());;
    mret 0.

(** ** Link changes *)

Definition nova_invalidate_link_change_entry (old_link_change : Z) : HM Z :=
  if old_link_change =? 0 then mret 0
  else
    let old_entry := meta_addr sbi old_link_change in
    c ← verified_entry old_entry 5;
    match c with
    | None => mret (- EIO)
    | Some ws =>
        if negb (old_entry_freeable s_epoch_id (nth 2 ws 0)) then mret 0
        else mem_opt (nova_invalidate_logentry sbi old_entry LINK_CHANGE 0)
    end.

Definition nova_can_inplace_update_lcentry (epoch_id : Z) : HM bool :=
  h ← get_state;
  let last_log := h_last_link_change h in
  if last_log =? 0 then mret false
  else e ← mem_op (load (meta_addr sbi last_log + 16)); mret (e =? epoch_id).

Definition link_change_info (epoch_id trans_id : Z) : nova_log_entry_info :=
  LogEntryInfo LINK_CHANGE 0 0 [] epoch_id trans_id 0 0 0 0 false.

Definition nova_inplace_update_lcentry (v : vfs_inode) (epoch_id : Z) : HM () :=
  h ← get_state;
  nova_inplace_update_log_entry v (meta_addr sbi (h_last_link_change h))
    (link_change_info epoch_id (h_trans_id h)).

Definition next_trans : HM () := h ← get_state; edit (set_h_trans_id (u64 (h_trans_id h + 1))).

(** The result, the update and [*old_linkc]. *)
Definition nova_append_link_change_entry (pi : Z) (v : vfs_inode) (up : nova_inode_update)
    (epoch_id : Z) : HM (Z * nova_inode_update * option Z) :=
  inplace ← nova_can_inplace_update_lcentry epoch_id;
  if (inplace : bool) then
    nova_inplace_update_lcentry v epoch_id;;
    h ← get_state;
    next_trans;;
    mret (0, InodeUpdate (log_tail (h_log h)) (alter_log_tail (h_log h)) (up_curr_entry up)
               (up_alter_entry up), Some 0)
  else
    h ← get_state;
    '(ret, up, curr_p) ← nova_append_log_entry pi None v (link_change_info epoch_id (h_trans_id h)) up;
    match curr_p with
    | None => mret (ret, up, None)
    | Some curr_p =>
        h ← get_state;
        edit (set_h_last_link_change curr_p);;
        next_trans;;
        mret (ret, up, Some (h_last_link_change h))
    end.

(** ** Data, mappings, snapshots, names *)

Definition write_info (data : list Z) : nova_log_entry_info :=
  LogEntryInfo FILE_WRITE 0 0 data (nth 5 data 0) (nth 6 data 0) 0 0 0 0 false.

Definition nova_append_file_write_entry (pi : Z) (pic : option Z) (v : vfs_inode) (data : list Z)
    (up : nova_inode_update) : HM (Z * nova_inode_update) :=
  '(ret, up, _) ← nova_append_log_entry pi pic v (write_info (update_data_csum data)) up;
  mret (ret, up).

Definition nova_inplace_update_write_entry (v : vfs_inode) (entry : Z) (info : nova_log_entry_info)
    : HM () := nova_inplace_update_log_entry v entry info.

Definition nova_set_write_entry_updating {S} (entry : Z) (set : bool) : SM S () :=
  mem_op (store8 (entry + 2) (if set then 1 else 0);; nova_update_entry_csum entry);;
  mem_opt (nova_update_alter_entry sbi entry);;
  mret ().

(** The result and [item->mmap_entry]; a failure is only reported. *)
Definition nova_append_mmap_entry (pi : Z) (v : vfs_inode) (data : list Z) (up : nova_inode_update)
    : HM (Z * nova_inode_update * option Z) :=
  let data := update_data_csum data in
  '(ret, up, curr_p) ← nova_append_log_entry pi None v
     (LogEntryInfo MMAP_WRITE 0 0 data (nth 1 data 0) 0 0 0 0 0 false) up;
  nova_update_inode pi None up true;;
  mret (ret, up, curr_p).

(** The result and [info->snapshot_entry]. *)
Definition nova_append_snapshot_info_entry (pi : Z) (v : vfs_inode) (data : list Z)
    (up : nova_inode_update) : HM (Z * nova_inode_update * option Z) :=
  let data := update_data_csum data in
  '(ret, up, curr_p) ← nova_append_log_entry pi None v
     (LogEntryInfo SNAPSHOT_INFO 0 0 data (nth 1 data 0) 0 0 0 0 0 false) up;
  nova_update_inode pi None up true;;
  mret (ret, up, curr_p).

Definition nova_append_dentry (pi : Z) (dir : vfs_inode) (name : list Z) (ino de_len : Z)
    (up : nova_inode_update) (link_change epoch_id : Z) : HM (Z * nova_inode_update) :=
  h ← get_state;
  '(ret, up, _) ← nova_append_log_entry pi None dir
     (LogEntryInfo DIR_LOG 0 0 name epoch_id (h_trans_id h) de_len ino 0 link_change false) up;
  mret (ret, up).

(** ** The tail of the last page *)

Context (xmm2 kmalloc kmalloc_parity : bool).

(** Zeroes with non-temporal stores up to an end that is a multiple of 8. *)
Definition zero_tail (p length : Z) : PM () :=
  let a := Z.land p (Z.lnot 7) in
  let skip := p mod 8 in
  (if skip =? 0 then mret ()
   else w ← load a; act (StoreNt a (Z.land w (Z.ones (8 * skip)))));;
  let first := if skip =? 0 then a else a + 8 in
  store_nt_words first (replicate (Z.to_nat ((p + length - first) / 8)) 0).

(** The block is copied to DRAM first; the copy is read where it came from. *)
Definition nova_update_truncated_block_csum (newsize : Z) : HM Z :=
  h ← get_state;
  let pgoff := Z.shiftr newsize (nova_inode_blk_shift (h_log h)) in
  nvmm ← on_file (nova_find_nvmm_block sbi (i_blk_type (h_log h)) None pgoff);
  let nvmm_addr := nova_get_virt_addr_from_offset sbi nvmm false in
  let blocknr := nova_get_blocknr nvmm in
  if negb kmalloc then mret (- ENOMEM)
  else
    mem_opt (nova_update_block_csum sbi (fx_lists (h_file h)) (nova_inode_blk_size (h_log h)) blocknr
               nvmm_addr false);;
    mret 0.

Definition nova_update_truncated_block_parity (newsize : Z) : HM Z :=
  h ← get_state;
  let pgoff := Z.shiftr newsize (nova_inode_blk_shift (h_log h)) in
  nvmm ← on_file (nova_find_nvmm_block sbi (i_blk_type (h_log h)) None pgoff);
  let nvmm_addr := nova_get_virt_addr_from_offset sbi nvmm false in
  let blocknr := nova_get_blocknr nvmm in
  if negb kmalloc then mret (- ENOMEM)
  else
    mem_opt (nova_update_block_parity sbi (fx_lists (h_file h)) xmm2 kmalloc_parity (Some nvmm_addr) blocknr
               false);;
    mret 0.

Definition nova_clear_last_page_tail (i_size newsize : Z) : HM () :=
  h ← get_state;
  let blocksize := nova_inode_blk_size (h_log h) in
  let data_bits := nova_inode_blk_shift (h_log h) in
  let offset := Z.land newsize (blocksize - 1) in
  if (offset =? 0) || (i_size <? newsize) then mret ()
  else
    let length := blocksize - offset in
    let pgoff := Z.shiftr newsize data_bits in
    nvmm ← on_file (nova_find_nvmm_block sbi (i_blk_type (h_log h)) None pgoff);
    let nvmm_addr := nova_get_virt_addr_from_offset sbi nvmm false in
    mem_op (zero_tail (nvmm_addr + offset) length);;
    (if data_csum then nova_update_truncated_block_csum newsize;; mret () else mret ());;
    (if data_parity then nova_update_truncated_block_parity newsize;; mret () else mret ()).
End log_entry.
