(* ===== verification/Rebuild.v ===== *)
(** Building the header of an inode from its log (rebuild.c, nova.h
    nova_get_head_tail, bbuild.c nova_init_header): the replay of the log of a
    file into its index, of a directory into the tree of its names.

    [memcpy_mcsafe] of the inode returns 0.  [fuel] bounds the loops; [None] is
    [BUG()], the use of an unset or null pointer, or a loop cut short. *)

From S2P Require Import Prelude.
From S2P Require Import Kernel.
From S2P Require Import Checksum.
From S2P Require Import RangeTree.
From S2P Require Import Layout.
From S2P Require Import FreeList.
From S2P Require Import Balloc.
From S2P Require Import Pmem.
From S2P Require Import Journal.
From S2P Require Import InodeLog.
From S2P Require Import InodeTable.
From S2P Require Import DataGuard.
From S2P Require Import Replica.
From S2P Require Import Recovery.
From S2P Require Import FileIndex.
From S2P Require Import Directory.
From S2P Require Import Header.
From S2P Require Import LogEntry.

Definition ESTALE : Z := 116.

(** [struct nova_inode_rebuild]. *)
Record inode_rebuild := InodeRebuild {
  reb_i_size : Z;
  reb_i_flags : Z;
  reb_i_ctime : Z;
  reb_i_mtime : Z;
  reb_i_atime : Z;
  reb_i_uid : Z;
  reb_i_gid : Z;
  reb_i_generation : Z;
  reb_i_links_count : Z;
  reb_i_mode : Z;
  reb_trans_id : Z
}.

(** The stores to it. *)
Definition reb_set_attr (mode uid gid atime : Z) (r : inode_rebuild) : inode_rebuild :=
  InodeRebuild (reb_i_size r) (reb_i_flags r) (reb_i_ctime r) (reb_i_mtime r) atime uid gid
    (reb_i_generation r) (reb_i_links_count r) mode (reb_trans_id r).
Definition reb_set_link (links ctime flags generation : Z) (r : inode_rebuild) : inode_rebuild :=
  InodeRebuild (reb_i_size r) flags ctime (reb_i_mtime r) (reb_i_atime r) (reb_i_uid r) (reb_i_gid r)
    generation links (reb_i_mode r) (reb_trans_id r).
Definition reb_set_trans (trans_id : Z) (r : inode_rebuild) : inode_rebuild :=
  InodeRebuild (reb_i_size r) (reb_i_flags r) (reb_i_ctime r) (reb_i_mtime r) (reb_i_atime r) (reb_i_uid r)
    (reb_i_gid r) (reb_i_generation r) (reb_i_links_count r) (reb_i_mode r) trans_id.
Definition nova_rebuild_file_time_and_size (mtime ctime size : Z) (r : inode_rebuild) : inode_rebuild :=
  InodeRebuild size (reb_i_flags r) ctime mtime (reb_i_atime r) (reb_i_uid r) (reb_i_gid r)
    (reb_i_generation r) (reb_i_links_count r) (reb_i_mode r) (reb_trans_id r).
Definition nova_rebuild_dir_time_and_size (mtime links : Z) (r : inode_rebuild) : inode_rebuild :=
  InodeRebuild (reb_i_size r) (reb_i_flags r) mtime mtime (reb_i_atime r) (reb_i_uid r) (reb_i_gid r)
    (reb_i_generation r) links (reb_i_mode r) (reb_trans_id r).

(** [entryc]: the entry in the log, or the buffer a verified entry was copied
    to, whose bytes behind it stay. *)
Inductive entry_ref :=
  | AtLog (a : Z)
  | InCopy (bs : list Z).

Definition entryc_words {S} (c : entry_ref) (n : nat) : SM S (list Z) :=
  match c with
  | AtLog a => mem_op (load_words a n)
  | InCopy bs => mret (words_of bs)
  end.
Definition entryc_bytes {S} (c : entry_ref) (n : nat) : SM S (list Z) :=
  match c with
  | AtLog a => mem_op (load_bytes a n)
  | InCopy bs => mret bs
  end.
Definition entryc_type {S} (c : entry_ref) : SM S Z :=
  match c with
  | AtLog a => mem_op (nova_get_entry_type a)
  | InCopy bs => mret (nth 0 bs 0)
  end.

(** [nova_init_header], with the free lists and what snapshots were given. *)
Definition init_header (i_mode : Z) (h : header) : header :=
  Header (FileState (fx_lists (h_file h)) ∅ [] 0 (fx_snapshot (h_file h)))
    (Sih NOVA_BLOCK_TYPE_4K 0 0 0 0 0 0) empty_rtree 0 0 i_mode 0 0 0 0 0 0.

Section rebuild.
Context {RB : RbOps} {KM : KmemOps} {CR : CrcOps} {MP : ModParams}.
Context (sbi : nova_sb_info).
(** The epochs of the snapshots; whether a snapshot is mounted, and its epoch;
    whether the radix tree finds no memory for a page; the unset [entryc] of a
    truncation; the vector unit and the memory of the parity code. *)
Context (snapshots : list Z) (mount_snapshot : bool) (mount_snapshot_epoch_id : Z).
Context (radix_nomem : Z -> bool) (junk : Z) (xmm2 kmalloc_parity : bool).
Context (fuel : nat) (this_cpu : Z).

Definition pass_mount_snapshot (epoch_id : Z) : bool := mount_snapshot_epoch_id <? epoch_id.

Definition nova_encounter_mount_snapshot {S} (addr type : Z) : SM S bool :=
  match entry_type_of type with
  | Some SET_ATTR | Some DIR_LOG => e ← mem_op (load (addr + 32)); mret (pass_mount_snapshot e)
  | Some LINK_CHANGE => e ← mem_op (load (addr + 16)); mret (pass_mount_snapshot e)
  | Some FILE_WRITE => e ← mem_op (load (addr + 40)); mret (pass_mount_snapshot e)
  | Some MMAP_WRITE => e ← mem_op (load (addr + 8)); mret (pass_mount_snapshot e)
  | _ => mret false
  end.

(** ** The inode *)

Definition nova_get_head_tail (pi : Z) : HM Z :=
  ws ← mem_op (load_words pi NOVA_INODE_WORDS);
  h ← get_state;
  let l := h_log h in
  edit (set_h_log (Sih (byte (nth 0 ws 0) 3) (sih_alter_pi_addr l) (log_pages l) (nth 8 ws 0) (nth 9 ws 0)
                     (nth 10 ws 0) (nth 11 ws 0)));;
  mret 0.

Definition nova_init_inode_rebuild {S} (pi : Z) : SM S inode_rebuild :=
  ws ← mem_op (load_words pi NOVA_INODE_WORDS);
  let w i := nth i ws 0 in
  mret (InodeRebuild (w 1%nat) (hi32 (w 0%nat)) (u32 (w 2%nat)) (hi32 (w 2%nat)) (u32 (w 3%nat))
          (u32 (w 5%nat)) (hi32 (w 5%nat)) (u32 (w 6%nat)) (half (w 3%nat) 3) (half (w 3%nat) 2) 0).

Definition nova_update_inode_with_rebuild (reb : inode_rebuild) (pi : Z) : PM () :=
  store64 (pi + 8) (reb_i_size reb);;
  store32_hi pi (reb_i_flags reb);;
  store32_lo (pi + 40) (reb_i_uid reb);;
  store32_hi (pi + 40) (reb_i_gid reb);;
  store32_lo (pi + 24) (reb_i_atime reb);;
  store32_lo (pi + 16) (reb_i_ctime reb);;
  store32_hi (pi + 16) (reb_i_mtime reb);;
  store32_lo (pi + 48) (reb_i_generation reb);;
  store16 (pi + 30) (reb_i_links_count reb);;
  store16 (pi + 28) (reb_i_mode reb).

Definition set_log_pages (n : Z) : HM () :=
  h ← get_state;
  let l := h_log h in
  edit (set_h_log (Sih (i_blk_type l) (sih_alter_pi_addr l) (u64 n) (log_head l) (log_tail l)
                     (alter_log_head l) (alter_log_tail l))).
Definition count_log_page : HM () := h ← get_state; set_log_pages (log_pages (h_log h) + 1).

Definition nova_rebuild_inode_start (pi pi_addr : Z) : HM inode_rebuild :=
  nova_get_head_tail pi;;
  reb ← nova_init_inode_rebuild pi;
  edit (set_h_pi_addr pi_addr);;
  set_log_pages 1;;
  mret reb.

(** The loop over the pages that are left. *)
Fixpoint finish_loop (fuel : nat) (curr_p : Z) : HM () :=
  next ← mem_op (next_log_page sbi curr_p);
  if next =? 0 then mret ()
  else
    match fuel with
    | O => bug
    | S fuel' => count_log_page;; finish_loop fuel' next
    end.

Definition nova_rebuild_inode_finish (pi : Z) (reb : inode_rebuild) (curr_p : Z) : HM Z :=
  edit (set_h_i_size (reb_i_size reb));;
  edit (set_h_i_mode (reb_i_mode reb));;
  edit (set_h_i_flags (reb_i_flags reb));;
  edit (set_h_trans_id (u64 (reb_trans_id reb + 1)));;
  h ← get_state;
  mem_op (nova_update_inode_with_rebuild reb pi;;
          nova_update_inode_checksum pi true;;
          if metadata_csum
          then memcpy_to_pmem_nocache (meta_addr sbi (sih_alter_pi_addr (h_log h))) pi NOVA_INODE_WORDS
          else mret ());;
  finish_loop fuel (BLOCK_OFF curr_p);;
  (if metadata_csum then h ← get_state; set_log_pages (log_pages (h_log h) * 2) else mret ());;
  mret 0.

(** ** Attribute entries *)

(** The words of the entry. *)
Definition nova_apply_setattr_entry (reb : inode_rebuild) (ws : list Z) : HM inode_rebuild :=
  h ← get_state;
  let data_bits := blk_type_to_shift (i_blk_type (h_log h)) in
  let w i := nth i ws 0 in
  if negb (byte (w 0%nat) 0 =? entry_type_code SET_ATTR) then bug
  else
    let reb := reb_set_attr (half (w 0%nat) 1) (hi32 (w 0%nat)) (u32 (w 1%nat)) (hi32 (w 1%nat)) reb in
    if S_ISREG (reb_i_mode reb) then
      let start := w 3%nat in
      let end_ := s64 (reb_i_size reb) in
      let first_blocknr := Z.shiftr (u64 (start + Z.shiftl 1 data_bits - 1)) data_bits in
      let last_blocknr := if 0 <? end_ then u64 (Z.shiftr (end_ - 1) data_bits) else 0 in
      on_file (nova_delete_file_tree sbi snapshots (i_blk_type (h_log h)) fuel junk first_blocknr
                 last_blocknr false false 0);;
      mret reb
    else mret reb.

Definition nova_apply_link_change_entry (reb : inode_rebuild) (ws : list Z) : HM inode_rebuild :=
  let w i := nth i ws 0 in
  if negb (byte (w 0%nat) 0 =? entry_type_code LINK_CHANGE) then bug
  else mret (reb_set_link (half (w 0%nat) 1) (hi32 (w 0%nat)) (u32 (w 1%nat)) (hi32 (w 1%nat)) reb).

(** ** Checksums and parity of pages that were being written *)

Definition nova_update_pgoff_csum (entry : option Z) (pgoff : Z) (zero : bool) : HM Z :=
  match entry with
  | None => bug
  | Some e =>
      h ← get_state;
      let btype := i_blk_type (h_log h) in
      ws ← mem_op (load_words e ENTRY_WORDS);
      let blocknr := get_nvmm btype (WENTRY ws) pgoff in
      let dax_mem := nova_get_virt_addr_from_offset sbi (nova_get_block_off sbi blocknr btype false) false in
      mem_opt (nova_update_block_csum sbi (fx_lists (h_file h)) (nova_inode_blk_size (h_log h)) blocknr
                 dax_mem zero);;
      mret 0
  end.

Definition nova_update_pgoff_parity (entry : option Z) (pgoff : Z) (zero : bool) : HM Z :=
  h ← get_state;
  blockoff ← on_file (nova_find_nvmm_block sbi (i_blk_type (h_log h)) entry pgoff);
  if blockoff =? 0 then mret 0
  else
    let dax_mem := nova_get_virt_addr_from_offset sbi blockoff false in
    mem_opt (nova_update_block_parity sbi (fx_lists (h_file h)) xmm2 kmalloc_parity (Some dax_mem)
               (nova_get_blocknr blockoff) zero);;
    mret 0.

Definition nova_reset_csum_parity_page (entry : option Z) (pgoff : Z) (zero : bool) : HM Z :=
  (if data_csum then nova_update_pgoff_csum entry pgoff zero else mret 0);;
  (if data_parity then nova_update_pgoff_parity entry pgoff zero else mret 0);;
  mret 0.

(** The loop over the pages, [n] left. *)
Fixpoint reset_range_loop (n : nat) (entry : option Z) (pgoff : Z) (zero check_entry : bool) : HM Z :=
  match n with
  | O => mret 0
  | S n' =>
      h ← get_state;
      let curr := nova_get_write_entry (fx_tree (h_file h)) pgoff in
      (match entry with
       | Some e =>
           if check_entry && negb zero && negb (curr =? e) then mret 0
           else nova_reset_csum_parity_page entry pgoff zero
       | None => nova_reset_csum_parity_page entry pgoff zero
       end);;
      reset_range_loop n' entry (u64 (pgoff + 1)) zero check_entry
  end.

Definition nova_reset_csum_parity_range (entry : option Z) (start_pgoff end_pgoff : Z)
    (zero check_entry : bool) : HM Z :=
  if negb data_csum && negb data_parity then mret 0
  else reset_range_loop (Z.to_nat (end_pgoff - start_pgoff)) entry start_pgoff zero check_entry.

Definition nova_reset_data_csum_parity (entry : Z) (ws : list Z) : HM Z :=
  let e := WENTRY ws in
  (if (negb data_csum && negb data_parity) || (we_invalid_pages e =? we_num_pages e) then mret 0
   else nova_reset_csum_parity_range (Some entry) (we_pgoff e) (u64 (we_pgoff e + we_num_pages e)) false true);;
  nova_set_write_entry_updating sbi entry false;;
  mret 0.

Definition nova_reset_mmap_csum_parity (entry : Z) (ws : list Z) : HM Z :=
  if negb data_csum && negb data_parity then mret 0
  else if byte (nth 0 ws 0) 1 =? 1 then mret 0
  else
    let pgoff := nth 2 ws 0 in
    nova_reset_csum_parity_range None pgoff (u64 (pgoff + nth 3 ws 0)) false false;;
    mem_opt (nova_invalidate_logentry sbi entry MMAP_WRITE 0).

(** ** Files *)

(** [entryc] may be the entry itself: its words are [ws]. *)
Definition nova_rebuild_handle_write_entry (reb : inode_rebuild) (entry : Z) (ws : list Z)
    : HM inode_rebuild :=
  let e := WENTRY ws in
  (if we_num_pages e =? we_invalid_pages e then mret 0
   else assign_entry sbi snapshots radix_nomem entry ws false);;
  let trans_id := nth 6 ws 0 in
  let mtime := hi32 (nth 3 ws 0) in
  let reb := if reb_trans_id reb <=? trans_id
             then reb_set_trans trans_id (nova_rebuild_file_time_and_size mtime mtime (nth 4 ws 0) reb)
             else reb in
  (if byte (nth 0 ws 0) 2 =? 0 then mret 0 else nova_reset_data_csum_parity entry ws);;
  edit (set_h_i_size (reb_i_size reb));;
  mret reb.

(** Where the walk over the log of a file is: [trans_curr] is set by the first
    write of a transaction. *)
Record file_walk := FileWalk {
  fw_curr_p : Z;
  fw_trans_curr : option Z;
  fw_entryc : entry_ref;
  fw_reb : inode_rebuild
}.

(** [entryc] for the entry at [addr], [None] when it is corrupt. *)
Definition next_entryc {S} (addr : Z) (c : entry_ref) : SM S (option entry_ref) :=
  if negb metadata_csum then mret (Some (AtLog addr))
  else
    r ← mem_opt (nova_verify_entry_csum sbi addr);
    match r with
    | (true, Some bs) =>
        let old := match c with InCopy old => old | AtLog _ => [] end in
        mret (Some (InCopy (bs ++ drop (length bs) old)))
    | (true, None) => bug
    | (false, _) => mret None
    end.

(** The position behind the jump to the next page. *)
Definition next_pos (curr_p : Z) : HM Z :=
  jump ← mem_op (goto_next_page sbi curr_p);
  if (jump : bool) then count_log_page;; mem_op (next_log_page sbi curr_p) else mret curr_p.

(** The body of the switch. *)
Definition replay_file_entry (latest_trans_valid : bool) (type addr : Z) (w : file_walk) : HM file_walk :=
  let curr_p := fw_curr_p w in
  let entryc := fw_entryc w in
  let reb := fw_reb w in
  let next size trans_curr reb := FileWalk (u64 (curr_p + size)) trans_curr entryc reb in
  match entry_type_of type with
  | Some SET_ATTR =>
      ws ← entryc_words entryc 7;
      reb ← nova_apply_setattr_entry reb ws;
      edit (set_h_last_setattr curr_p);;
      let trans_id := nth 5 ws 0 in
      let reb := if reb_trans_id reb <=? trans_id
                 then reb_set_trans trans_id
                        (nova_rebuild_file_time_and_size (u32 (nth 2 ws 0)) (hi32 (nth 2 ws 0))
                           (nth 3 ws 0) reb)
                 else reb in
      edit (set_h_i_size (reb_i_size reb));;
      mret (next (nova_get_log_entry_size SET_ATTR) (fw_trans_curr w) reb)
  | Some LINK_CHANGE =>
      ws ← entryc_words entryc 5;
      reb ← nova_apply_link_change_entry reb ws;
      edit (set_h_last_link_change curr_p);;
      mret (next (nova_get_log_entry_size LINK_CHANGE) (fw_trans_curr w) reb)
  | Some FILE_WRITE =>
      trans_curr ← (if latest_trans_valid then
                      trans_id ← mem_op (load (addr + 48));
                      h ← get_state;
                      if negb (trans_id =? h_trans_id h)
                      then edit (set_h_trans_id trans_id);; mret (Some curr_p)
                      else mret (fw_trans_curr w)
                    else mret (fw_trans_curr w));
      ws ← entryc_words entryc ENTRY_WORDS;
      reb ← nova_rebuild_handle_write_entry reb addr ws;
      mret (next (nova_get_log_entry_size FILE_WRITE) trans_curr reb)
  | Some MMAP_WRITE =>
      ws ← entryc_words entryc 5;
      nova_reset_mmap_csum_parity addr ws;;
      mret (next (nova_get_log_entry_size MMAP_WRITE) (fw_trans_curr w) reb)
  | _ => mret (next (nova_get_log_entry_size FILE_WRITE) (fw_trans_curr w) reb)
  end.

(** The walk; [None] is the return at a corrupt entry. *)
Fixpoint file_loop (fuel : nat) (latest_trans_valid : bool) (w : file_walk) : HM (option file_walk) :=
  h ← get_state;
  if fw_curr_p w =? log_tail (h_log h) then mret (Some w)
  else
    match fuel with
    | O => bug
    | S fuel' =>
        curr_p ← next_pos (fw_curr_p w);
        if curr_p =? 0 then bug
        else
          let addr := meta_addr sbi curr_p in
          c ← next_entryc addr (fw_entryc w);
          match c with
          | None => mret None
          | Some entryc =>
              let w := FileWalk curr_p (fw_trans_curr w) entryc (fw_reb w) in
              type ← entryc_type entryc;
              stop ← (if mount_snapshot then nova_encounter_mount_snapshot addr type else mret false);
              if (stop : bool) then mret (Some w)
              else w ← replay_file_entry latest_trans_valid type addr w; file_loop fuel' latest_trans_valid w
          end
    end.

(** The second walk, over the last transaction: [entryc] is still the last entry
    of the first walk. *)
Fixpoint free_loop (fuel : nat) (trans_curr curr_p : Z) (entryc : entry_ref) : HM () :=
  if trans_curr =? curr_p then mret ()
  else
    match fuel with
    | O => bug
    | S fuel' =>
        jump ← mem_op (goto_next_page sbi trans_curr);
        trans_curr ← (if (jump : bool) then mem_op (next_log_page sbi trans_curr) else mret trans_curr);
        let entry := meta_addr sbi trans_curr in
        type ← mem_op (nova_get_entry_type entry);
        (if type =? entry_type_code FILE_WRITE then
           ws ← entryc_words entryc ENTRY_WORDS;
           assign_entry sbi snapshots radix_nomem entry ws true
         else mret 0);;
        free_loop fuel' (u64 (trans_curr + 64)) curr_p entryc
    end.

Definition set_i_blocks (n : Z) : HM () :=
  h ← get_state;
  let f := h_file h in
  edit (set_h_file (FileState (fx_lists f) (fx_tree f) (fx_olds f) (u64 n) (fx_snapshot f))).

Definition nova_rebuild_file_inode_tree (pi pi_addr : Z) : HM Z :=
  h ← get_state;
  let data_bits := blk_type_to_shift (i_blk_type (h_log h)) in
  flags ← mem_op (load (pi + 48));
  let latest_trans_valid := hi32 flags =? 0 in
  reb ← nova_rebuild_inode_start pi pi_addr;
  h ← get_state;
  if (log_head (h_log h) =? 0) || (log_tail (h_log h) =? 0) then
    mem_op (store64 (pi + off_log_head) 0;; store64 (pi + off_log_tail) 0;;
            nova_flush_buffer pi SIZEOF_NOVA_INODE true);;
    mret 0
  else
    let entryc := if metadata_csum then InCopy [] else AtLog 0 in
    r ← file_loop fuel latest_trans_valid (FileWalk (log_head (h_log h)) None entryc reb);
    match r with
    | None => mret 0
    | Some w =>
        (if latest_trans_valid then
           match fw_trans_curr w with
           | None => bug
           | Some trans_curr => free_loop fuel trans_curr (fw_curr_p w) (fw_entryc w)
           end
         else mret ());;
        ret ← nova_rebuild_inode_finish pi (fw_reb w) (fw_curr_p w);
        h ← get_state;
        let i_blocks := Z.shiftr (h_i_size h) data_bits in
        set_i_blocks (if h_i_size h mod Z.shiftl 1 data_bits =? 0 then i_blocks else i_blocks + 1);;
        mret ret
    end.

(** ** Directories *)

Definition nova_reassign_last_dentry (curr_p : Z) : HM () :=
  h ← get_state;
  if h_last_dentry h =? 0 then edit (set_h_last_dentry curr_p)
  else
    t ← mem_op (load (meta_addr sbi curr_p + 40));
    t_old ← mem_op (load (meta_addr sbi (h_last_dentry h) + 40));
    if t_old <=? t then edit (set_h_last_dentry curr_p) else mret ().

Definition nova_replay_add_dentry (entry : Z) (bs : list Z) : HM Z :=
  if de_name_len bs =? 0 then mret (- EINVAL)
  else
    h ← get_state;
    let '(ret, T) := nova_insert_dir_tree (h_dir h) (de_full_name bs) entry in
    edit (set_h_dir T);;
    mret ret.

Definition nova_replay_remove_dentry (bs : list Z) : HM Z :=
  on_dir (nova_remove_dir_tree sbi (de_full_name bs) true);;
  mret 0.

(** The result and [*reb]. *)
Definition nova_rebuild_handle_dentry (reb : inode_rebuild) (entry : Z) (bs : list Z) (curr_p : Z)
    : HM (Z * inode_rebuild) :=
  nova_reassign_last_dentry curr_p;;
  ret ← (if de_invalid bs =? 0 then
           if 0 <? de_ino bs then nova_replay_add_dentry entry bs else nova_replay_remove_dentry bs
         else mret 0);
  if negb (ret =? 0) then mret (ret, reb)
  else
    mret (ret, if reb_trans_id reb <=? de_trans_id bs
               then reb_set_trans (de_trans_id bs)
                      (nova_rebuild_dir_time_and_size (de_mtime bs) (de_links_count bs) reb)
               else reb).

Record dir_walk := DirWalk { dw_curr_p : Z; dw_entryc : entry_ref; dw_reb : inode_rebuild }.

(** The body of the switch: [inl] is a return with an error. *)
Definition replay_dir_entry (type addr : Z) (w : dir_walk) : HM (Z + dir_walk) :=
  let curr_p := dw_curr_p w in
  let entryc := dw_entryc w in
  let reb := dw_reb w in
  let next size reb := DirWalk (u64 (curr_p + size)) entryc reb in
  match entry_type_of type with
  | Some SET_ATTR =>
      ws ← entryc_words entryc 7;
      reb ← nova_apply_setattr_entry reb ws;
      edit (set_h_last_setattr curr_p);;
      mret (inr (next (nova_get_log_entry_size SET_ATTR) reb))
  | Some LINK_CHANGE =>
      ws ← entryc_words entryc 5;
      let trans_id := nth 3 ws 0 in
      reb ← (if reb_trans_id reb <=? trans_id
             then reb ← nova_apply_link_change_entry reb ws; mret (reb_set_trans trans_id reb)
             else mret reb);
      edit (set_h_last_link_change curr_p);;
      mret (inr (next (nova_get_log_entry_size LINK_CHANGE) reb))
  | Some DIR_LOG =>
      bs ← entryc_bytes entryc SIZEOF_NOVA_DENTRY;
      '(ret, reb) ← nova_rebuild_handle_dentry reb addr bs curr_p;
      if negb (ret =? 0) then mret (inl ret) else mret (inr (next (de_len bs) reb))
  | _ => mret (inr w)
  end.

Fixpoint dir_loop (fuel : nat) (w : dir_walk) : HM (Z + dir_walk) :=
  h ← get_state;
  if dw_curr_p w =? log_tail (h_log h) then mret (inr w)
  else
    match fuel with
    | O => bug
    | S fuel' =>
        curr_p ← next_pos (dw_curr_p w);
        if curr_p =? 0 then bug
        else
          let addr := meta_addr sbi curr_p in
          c ← next_entryc addr (dw_entryc w);
          match c with
          | None => mret (inl 0)
          | Some entryc =>
              let w := DirWalk curr_p entryc (dw_reb w) in
              type ← entryc_type entryc;
              stop ← (if mount_snapshot then nova_encounter_mount_snapshot addr type else mret false);
              if (stop : bool) then mret (inr w)
              else
                r ← replay_dir_entry type addr w;
                match r with
                | inl ret => mret (inl ret)
                | inr w => dir_loop fuel' w
                end
          end
    end.

Definition nova_rebuild_dir_inode_tree (pi pi_addr : Z) : HM Z :=
  reb ← nova_rebuild_inode_start pi pi_addr;
  h ← get_state;
  if log_head (h_log h) =? 0 then mret (- ENOSPC)
  else
    let entryc := if metadata_csum then InCopy [] else AtLog 0 in
    r ← dir_loop fuel (DirWalk (log_head (h_log h)) entryc reb);
    match r with
    | inl ret => mret ret
    | inr w =>
        ret ← nova_rebuild_inode_finish pi (dw_reb w) (dw_curr_p w);
        set_i_blocks 0;;
        mret ret
    end.

(** ** Inodes *)

Definition set_alter_pi_addr (a : Z) : HM () :=
  h ← get_state;
  let l := h_log h in
  edit (set_h_log (Sih (i_blk_type l) a (log_pages l) (log_head l) (log_tail l)
                     (alter_log_head l) (alter_log_tail l))).

Definition nova_rebuild_inode (ino pi_addr : Z) (rebuild_dir : bool) : HM Z :=
  '(ret, alter) ← (if metadata_csum
                   then on_log (nova_get_alter_inode_address sbi fuel this_cpu ino)
                   else mret (0, None));
  if negb (ret =? 0) then mret ret
  else
    let alter_pi_addr := default 0 alter in
    '(ret, _) ← mem_op (nova_check_inode_integrity sbi pi_addr alter_pi_addr true);
    if negb (ret =? 0) then mret ret
    else
      let pi := meta_addr sbi pi_addr in
      i_mode ← mem_op (load_i_mode pi);
      edit (init_header i_mode);;
      edit (set_h_pi_addr pi_addr);;
      deleted ← mem_op (load8 (pi + 2));
      if deleted =? 1 then mret (- ESTALE)
      else
        edit (set_h_ino ino);;
        set_alter_pi_addr alter_pi_addr;;
        i_mode ← mem_op (load_i_mode pi);
        let fmt := Z.land i_mode S_IFMT in
        (if (fmt =? S_IFLNK) || (fmt =? S_IFREG) then nova_rebuild_file_inode_tree pi pi_addr;; mret ()
         else if fmt =? S_IFDIR then
           if rebuild_dir then nova_rebuild_dir_inode_tree pi pi_addr;; mret () else mret ()
         else
           log_head ← mem_op (load (pi + off_log_head));
           (if log_head =? 0 then mret 0 else nova_rebuild_file_inode_tree pi pi_addr);;
           edit (set_h_pi_addr pi_addr));;
        mret 0.
End rebuild.
