(* ===== verification/DirEntry.v ===== *)
(** Entering names in the log of a directory and in the tree of its names, and
    removing them (dir.c).

    [now] is the time of the clock in seconds; a name is its bytes.  The results
    of the update of a removal are [create_dentry] and [delete_dentry], 0 for
    [NULL]. *)

From S2P Require Import Prelude.
From S2P Require Import Kernel.
From S2P Require Import Checksum.
From S2P Require Import RangeTree.
From S2P Require Import Layout.
From S2P Require Import FreeList.
From S2P Require Import Balloc.
From S2P Require Import Pmem.
From S2P Require Import Journal.
From S2P Require Import InodeLog.
From S2P Require Import InodeTable.
From S2P Require Import DataGuard.
From S2P Require Import Replica.
From S2P Require Import Recovery.
From S2P Require Import FileIndex.
From S2P Require Import Directory.
From S2P Require Import Header.
From S2P Require Import LogEntry.

Definition NOVA_DENTRY_HEADER_LEN : Z := 48.
Definition NOVA_DIR_LOG_REC_LEN (name_len : Z) : Z :=
  Z.land (name_len + 1 + NOVA_DENTRY_HEADER_LEN + 7) (Z.lnot 7).

Section dir_entry.
Context {RB : RbOps} {KM : KmemOps} {CR : CrcOps} {MP : ModParams}.
Context (sbi : nova_sb_info).
Context (fuel : nat) (this_cpu : Z) (snapshots : list Z) (radix_nomem : Z -> bool) (now : Z).

(** ** The entries [.] and [..] of a new directory *)

(** One of them: [links] and the name of [name_len] dots. *)
Definition init_dot_entry (de_entry ino epoch_id name_len : Z) : PM () :=
  let de_len := NOVA_DIR_LOG_REC_LEN name_len in
  clear_entry de_entry de_len;;
  store8 de_entry (entry_type_code DIR_LOG);;
  store64 (de_entry + 32) epoch_id;;
  store64 (de_entry + 40) 0;;
  store64 (de_entry + 16) ino;;
  store8 (de_entry + 1) name_len;;
  store16 (de_entry + 4) de_len;;
  store32_lo (de_entry + 8) now;;
  store16 (de_entry + 6) name_len;;
  store8 (de_entry + 48) 46;;
  store8 (de_entry + 49) (if name_len =? 1 then 0 else 46);;
  (if name_len =? 1 then mret () else store8 (de_entry + 50) 0);;
  nova_update_entry_csum de_entry.

Definition nova_init_dentry (de_entry self_ino parent_ino epoch_id : Z) : PM Z :=
  init_dot_entry de_entry self_ino epoch_id 1;;
  let length := NOVA_DIR_LOG_REC_LEN 1 in
  init_dot_entry (de_entry + length) parent_ino epoch_id 2;;
  let length := length + NOVA_DIR_LOG_REC_LEN 2 in
  nova_set_page_num_entries de_entry 2 true;;
  nova_flush_buffer de_entry length false;;
  mret length.

(** The header on the stack: only [ino] and [i_blk_type] are set. *)
Definition dir_init_sih : nova_inode_info_header := Sih NOVA_BLOCK_TYPE_4K 0 0 0 0 0 0.

(** An operation on a log with the header [l] of its own. *)
Definition on_stack_log {A} (l : nova_inode_info_header) (x : LM A) : HM A := fun h =>
  r ← x (LState (fx_lists (h_file h)) l);
  mret ((fun r => (r.1, set_h_file (set_lists (fls r.2) (h_file h)) h)) <$> r).

Definition dir_init_page (alter : bool) : HM (option Z) :=
  '(allocated, new_block) ← on_stack_log dir_init_sih
     (nova_allocate_inode_log_pages sbi fuel this_cpu 1 ANY_CPU
        (if alter then ALLOC_FROM_TAIL else ALLOC_FROM_HEAD));
  if negb (allocated =? 1) then mret None
  else match new_block with Some b => mret (Some b) | None => bug end.

Definition nova_append_dir_init_entries (pi self_ino parent_ino epoch_id : Z) : HM Z :=
  b ← dir_init_page false;
  match b with
  | None => mret (- ENOMEM)
  | Some new_block =>
      mem_op (store64 (pi + off_log_head) new_block;; store64 (pi + off_log_tail) new_block;;
              length ← nova_init_dentry (meta_addr sbi new_block) self_ino parent_ino epoch_id;
              nova_update_tail pi (u64 (new_block + length)) true;;
              nova_flush_buffer (pi + off_log_head) CACHELINE_SIZE false);;
      if negb metadata_csum then mret 0
      else
        b ← dir_init_page true;
        match b with
        | None => mret (- ENOMEM)
        | Some new_block =>
            mem_op (store64 (pi + off_alter_log_head) new_block;; store64 (pi + off_alter_log_tail) new_block;;
                    length ← nova_init_dentry (meta_addr sbi new_block) self_ino parent_ino epoch_id;
                    nova_update_alter_tail pi (u64 (new_block + length)) true);;
            head ← mem_op (load (pi + off_log_head));
            alter_head ← mem_op (load (pi + off_alter_log_head));
            mem_opt (nova_update_alter_pages sbi fuel head alter_head);;
            mem_op (nova_update_inode_checksum pi true;; nova_flush_buffer pi SIZEOF_NOVA_INODE false);;
            '(ret, alter_pi_addr) ← on_stack_log dir_init_sih
               (nova_get_alter_inode_address sbi fuel this_cpu self_ino);
            if negb (ret =? 0) then mret ret
            else
              mem_op (memcpy_to_pmem_nocache (meta_addr sbi (default 0 alter_pi_addr)) pi NOVA_INODE_WORDS);;
              mret 0
        end
  end.

(** ** Adding and removing a name *)

Definition set_mtime (t : Z) (v : vfs_inode) : vfs_inode :=
  VfsInode (vi_mode v) (vi_uid v) (vi_gid v) (vi_atime v) t t (vi_size v) (vi_nlink v) (vi_generation v).

Definition nova_add_dentry (pidir : Z) (dir : vfs_inode) (name : list Z) (ino inc_link : Z)
    (up : nova_inode_update) (epoch_id : Z) : HM (Z * nova_inode_update) :=
  if Z.of_nat (length name) =? 0 then mret (- EINVAL, up)
  else
    let dir := set_mtime now dir in
    let loglen := NOVA_DIR_LOG_REC_LEN (Z.of_nat (length name)) in
    '(ret, up) ← nova_append_dentry sbi fuel this_cpu snapshots radix_nomem pidir dir name ino loglen up
                   inc_link epoch_id;
    if negb (ret =? 0) then mret (ret, up)
    else
      let curr_entry := up_curr_entry up in
      let direntry := meta_addr sbi curr_entry in
      edit (set_h_last_dentry curr_entry);;
      h ← get_state;
      let '(ret, T) := nova_insert_dir_tree (h_dir h) name direntry in
      edit (set_h_dir T);;
      next_trans;;
      mret (ret, up).

Definition nova_can_inplace_update_dentry {S} (dentry epoch_id : Z) : SM S bool :=
  c ← dentry_copy sbi dentry;
  match c with
  | None => mret false
  | Some dentryc => mret (negb (dentry =? 0) && (de_epoch_id dentryc =? epoch_id))
  end.

Definition nova_inplace_update_dentry (dir : vfs_inode) (dentry link_change epoch_id : Z) : HM () :=
  h ← get_state;
  nova_inplace_update_log_entry sbi this_cpu dir dentry
    (LogEntryInfo DIR_LOG 0 0 [] epoch_id (h_trans_id h) 0 0 0 link_change true).

(** The result, the update, [create_dentry] and [delete_dentry]. *)
Definition nova_remove_dentry (pidir : Z) (dir : vfs_inode) (name : list Z) (dec_link : Z)
    (up : nova_inode_update) (epoch_id : Z) (rename : bool) : HM (Z * nova_inode_update * Z * Z) :=
  if Z.of_nat (length name) =? 0 then mret (- EINVAL, up, 0, 0)
  else
    '(ret, old) ← on_dir (nova_remove_dir_tree sbi name false);
    if negb (ret =? 0) then mret (ret, up, 0, 0)
    else
      let old_dentry := default 0 old in
      let dir := set_mtime now dir in
      inplace ← (if rename then mret false else nova_can_inplace_update_dentry old_dentry epoch_id);
      if (inplace : bool) then
        nova_inplace_update_dentry dir old_dentry dec_link epoch_id;;
        edit (set_h_last_dentry (nova_get_addr_off sbi old_dentry true));;
        h ← get_state;
        next_trans;;
        mret (ret, if up_tail up =? 0
                   then InodeUpdate (log_tail (h_log h)) (alter_log_tail (h_log h)) (up_curr_entry up)
                          (up_alter_entry up)
                   else up, 0, 0)
      else
        let loglen := NOVA_DIR_LOG_REC_LEN (Z.of_nat (length name)) in
        '(ret, up) ← nova_append_dentry sbi fuel this_cpu snapshots radix_nomem pidir dir name 0 loglen up
                       dec_link epoch_id;
        if negb (ret =? 0) then mret (ret, up, 0, 0)
        else
          let curr_entry := up_curr_entry up in
          edit (set_h_last_dentry curr_entry);;
          next_trans;;
          mret (ret, up, old_dentry, meta_addr sbi curr_entry).
End dir_entry.
