(* ===== verification/LogPath.v ===== *)
(** Reading the log of an inode from one position to another: the entries met on
    the way ([log_path]), their order, and what leaves them as they are. *)

From S2P Require Import Prelude.
From S2P Require Import Kernel.
From S2P Require Import Checksum.
From S2P Require Import Layout.
From S2P Require Import FreeList.
From S2P Require Import Balloc.
From S2P Require Import Pmem.
From S2P Require Import PmemSpec.
From S2P Require Import Journal.
From S2P Require Import InodeLog.
From S2P Require Import InodeLogSpec.
From S2P Require Import DataGuard.
From S2P Require Import Recovery.
From S2P Require Import RecoverySpec.
From S2P Require Import FileScanSpec.
From S2P Require Import FileLogSpec.

Definition log_item : Type := Z * Z * nova_entry_type.

Section path.
Context (sbi : nova_sb_info).

Definition pos_page (p : log_pos) : Z := p.1.1.
Definition pos_off (p : log_pos) : Z := p.1.2.
Definition pos_post (p : log_pos) : list Z := p.2.
Definition pos_pages (p : log_pos) : list Z := pos_page p :: pos_post p.

(** From a position to another, entry by entry. *)
Inductive log_path (m : mem) : log_pos -> list log_item -> log_pos -> Prop :=
  | path_nil p : log_path m p [] p
  | path_cons p b x post ty es q :
      land_at sbi m p = Some (b, x, post) -> kind_at sbi m b x = Some ty ->
      x + nova_get_log_entry_size ty <= LOG_BLOCK_TAIL ->
      log_path m (b, x + nova_get_log_entry_size ty, post) es q ->
      log_path m p ((b, x, ty) :: es) q.

Lemma path_app m p es1 q es2 r :
  log_path m p es1 q -> log_path m q es2 r -> log_path m p (es1 ++ es2) r.
Proof. induction 1; [done|]. intros Hq. cbn [app]. econstructor; eauto. Qed.

Lemma kind_size m b x ty : kind_at sbi m b x = Some ty -> 32 <= nova_get_log_entry_size ty <= 64.
Proof. unfold kind_at, entry_kind. intros H. by repeat case_match; simplify_eq. Qed.

Lemma kind_stays m p b x post ty :
  land_at sbi m p = Some (b, x, post) -> kind_at sbi m b x = Some ty ->
  x + nova_get_log_entry_size ty <= LOG_BLOCK_TAIL -> land_at sbi m (b, x, post) = Some (b, x, post).
Proof. intros Hl Hk Hs. eapply (land_again sbi m); [done|done|]. apply Z.ltb_ge. lia. Qed.

(** The entry is also met from its own position. *)
Lemma path_landed m p b x post ty es q :
  land_at sbi m p = Some (b, x, post) -> log_path m p ((b, x, ty) :: es) q ->
  log_path m (b, x, post) ((b, x, ty) :: es) q.
Proof.
  intros Hl Hp. inversion Hp as [|? ? ? post' ? ? ? Hl' Hk Hs Hr]; subst.
  rewrite Hl in Hl'. injection Hl' as <-. econstructor; [by eapply kind_stays|done..].
Qed.

Lemma path_split m p es1 b x ty es2 q :
  log_path m p (es1 ++ (b, x, ty) :: es2) q ->
  exists p1 post, log_path m p es1 p1 /\ land_at sbi m p1 = Some (b, x, post)
    /\ kind_at sbi m b x = Some ty /\ x + nova_get_log_entry_size ty <= LOG_BLOCK_TAIL
    /\ log_path m (b, x + nova_get_log_entry_size ty, post) es2 q.
Proof.
  revert p. induction es1 as [|i es1 IH]; intros p Hp; cbn [app] in Hp;
    inversion Hp as [|? ? ? ? ? ? ? Hl Hk Hs Hr]; subst.
  - exists p, post. split; [constructor|done].
  - destruct (IH _ Hr) as (p1 & post1 & H1 & H2). exists p1, post1. split; [by econstructor|done].
Qed.

(** Positions only move on. *)
Definition goes_to (p q : log_pos) : Prop :=
  (pos_page q = pos_page p /\ pos_post q = pos_post p /\ pos_off p <= pos_off q)
  \/ (exists mid, pos_post p = mid ++ pos_page q :: pos_post q) /\ 0 <= pos_off q.
Definition goes_past (p q : log_pos) : Prop :=
  (pos_page q = pos_page p /\ pos_post q = pos_post p /\ pos_off p < pos_off q)
  \/ (exists mid, pos_post p = mid ++ pos_page q :: pos_post q) /\ 0 <= pos_off q.

Lemma land_goes m p q : land_at sbi m p = Some q -> goes_to p q.
Proof.
  destruct p as [[b x] post]. unfold land_at, goes_to. cbn.
  destruct (jumps sbi m b x); [|intros [= <-]; left; cbn; auto with lia].
  destruct post as [|b' post]; [done|]. intros [= <-]. right. cbn. split; [by exists []|lia].
Qed.

Lemma goes_trans p q r : goes_to p q -> goes_to q r -> goes_to p r.
Proof.
  unfold goes_to. intros [(E1 & E2 & H)|[(mid & E) H]] [(E1' & E2' & H')|[(mid' & E') H']].
  - left. rewrite E1', E2'. auto with lia.
  - right. rewrite <- E2. split; [by exists mid'|done].
  - right. rewrite E1', E2', E. split; [by exists mid|lia].
  - right. rewrite E, E'. split; [|done]. exists (mid ++ pos_page q :: mid'). by rewrite <- app_assoc.
Qed.

Lemma past_trans p q r : goes_to p q -> goes_past q r -> goes_past p r.
Proof.
  unfold goes_to, goes_past. intros [(E1 & E2 & H)|[(mid & E) H]] [(E1' & E2' & H')|[(mid' & E') H']].
  - left. rewrite E1', E2'. auto with lia.
  - right. rewrite <- E2. split; [by exists mid'|done].
  - right. rewrite E1', E2', E. split; [by exists mid|lia].
  - right. rewrite E, E'. split; [|done]. exists (mid ++ pos_page q :: mid'). by rewrite <- app_assoc.
Qed.

Lemma past_to p q : goes_past p q -> goes_to p q.
Proof. intros [(?&?&?)|?]; [left; auto with lia|by right]. Qed.

Lemma path_goes m p es q : log_path m p es q -> goes_to p q /\ (es <> [] -> goes_past p q).
Proof.
  induction 1 as [p|p b x post ty es q Hl Hk Hs _ [IH _]].
  - split; [left; auto with lia|done].
  - pose proof (kind_size _ _ _ _ Hk) as Hz.
    assert (Hp : goes_past p q).
    { eapply past_trans; [by eapply land_goes|]. destruct IH as [(E1 & E2 & H)|H]; [left|by right].
      cbn in *. auto with lia. }
    split; [by apply past_to|done].
Qed.

(** Different positions of a log have different offsets. *)
Lemma past_neq p q :
  goes_past p q -> NoDup (pos_pages p) -> 0 <= pos_off p < 4096 -> 0 <= pos_off q < 4096 ->
  off_of p <> off_of q.
Proof.
  intros Hpq Hnd Hp Hq. destruct p as [[b x] post], q as [[b' x'] post']. cbn in *.
  unfold goes_past in Hpq. cbn in Hpq. destruct Hpq as [(-> & _ & Hx)|[(mid & ->) _]]; [lia|].
  apply NoDup_cons in Hnd as [Hb _]. intros E. assert (b = b') as -> by lia. apply Hb. set_solver.
Qed.

(** ** What a reader of the path looks at *)

(** The bytes before position [q] in a log with these pages. *)
Definition before (pages : list Z) (q : log_pos) (b y : Z) : Prop :=
  b ∈ pages /\ b ∉ pos_post q /\ 0 <= y < LOG_BLOCK_TAIL /\ (b = pos_page q -> y < pos_off q).

Lemma past_before p q :
  goes_past p q -> NoDup (pos_pages p) -> 0 <= pos_off p < LOG_BLOCK_TAIL ->
  before (pos_pages p) q (pos_page p) (pos_off p).
Proof.
  intros Hpq Hnd Hp. unfold pos_pages in *. apply NoDup_cons in Hnd as [Hb Hnd].
  split; [set_solver|]. destruct Hpq as [(E & -> & Hx)|[(mid & E) Hq]].
  - split_and!; [done|lia|lia|lia].
  - rewrite E in Hb. split_and!; [set_solver|lia|lia|]. intros E'. rewrite E' in Hb. set_solver.
Qed.

Lemma goes_pages p q : goes_to p q -> pos_pages q ⊆ pos_pages p.
Proof.
  unfold pos_pages. intros [(-> & -> & _)|[(mid & ->) _]]; [done|]. set_solver.
Qed.
Lemma goes_nodup p q : goes_to p q -> NoDup (pos_pages p) -> NoDup (pos_pages q).
Proof.
  unfold pos_pages. intros [(-> & -> & _)|[(mid & ->) _]]; [done|]. intros H.
  rewrite app_comm_cons in H. by apply NoDup_app in H as (_ & _ & H).
Qed.

(** More pages behind the last. *)
Definition longer (new : list Z) (p : log_pos) : log_pos := (p.1, p.2 ++ new).

Lemma path_frame m m' new p es q :
  log_path m p es q -> NoDup (pos_pages p) -> 0 <= pos_off p ->
  (forall b y, before (pos_pages p) q b y -> type_at sbi m' b y = type_at sbi m b y) ->
  log_path m' (longer new p) es (longer new q).
Proof.
  intros Hp. induction Hp as [p|p b x post ty es q Hl Hk Hs Hr IH]; intros Hnd H0 Hag; [constructor|].
  assert (Hpath : log_path m p ((b, x, ty) :: es) q) by by econstructor.
  pose proof (land_goes _ _ _ Hl) as Hg.
  pose proof (path_landed _ _ _ _ _ _ _ _ Hl Hpath) as Hpath2.
  pose proof (proj2 (path_goes _ _ _ _ Hpath) ltac:(done)) as Hpq.
  pose proof (proj2 (path_goes _ _ _ _ Hpath2) ltac:(done)) as Hpq2.
  assert (Hnd2 : NoDup (pos_pages (b, x, post))) by by eapply goes_nodup.
  assert (Hx0 : 0 <= x) by (destruct Hg as [(_ & _ & Hg)|[_ Hg]]; cbn in Hg; lia).
  pose proof (kind_size _ _ _ _ Hk) as Hz.
  econstructor; [| | |apply IH].
  - destruct p as [[bp xp] postp]. unfold longer, land_at in *. cbn [fst snd] in *.
    assert (Hj : jumps sbi m' bp xp = jumps sbi m bp xp).
    { unfold jumps. destruct (Z.ltb_spec LOG_BLOCK_TAIL (xp + 32)); [done|]. cbn [orb]. rewrite Hag; [done|].
      apply (past_before (bp, xp, postp)); [done|done|]. cbn in *. lia. }
    rewrite Hj. destruct (jumps sbi m bp xp).
    + destruct postp as [|b' postp]; [done|]. injection Hl as -> <- ->. done.
    + injection Hl as -> -> ->. done.
  - unfold kind_at in *. rewrite Hag; [done|].
    destruct (past_before (b, x, post) q Hpq2 Hnd2 ltac:(cbn; lia)) as (H1 & H2). split; [|done].
    by apply (goes_pages _ _ Hg).
  - done.
  - done.
  - cbn. lia.
  - intros b' y (Hb' & Hrest). apply Hag. split; [|done]. by apply (goes_pages _ _ Hg).
Qed.

(** ** The entries of a path *)

Lemma path_entry m p es q b x ty :
  log_path m p es q -> (b, x, ty) ∈ es -> NoDup (pos_pages p) -> 0 <= pos_off p ->
  kind_at sbi m b x = Some ty /\ 0 <= x /\ x + nova_get_log_entry_size ty <= LOG_BLOCK_TAIL
  /\ b ∈ pos_pages p
  /\ forall y, x <= y < x + nova_get_log_entry_size ty -> before (pos_pages p) q b y.
Proof.
  intros Hp (es1 & es2 & ->)%list_elem_of_split Hnd H0.
  destruct (path_split _ _ _ _ _ _ _ _ Hp) as (p1 & post & H1 & Hl & Hk & Hs & H2).
  pose proof (kind_size _ _ _ _ Hk) as Hz.
  assert (Hg : goes_to p (b, x, post)).
  { eapply goes_trans; [by eapply path_goes|by eapply land_goes]. }
  assert (Hx : 0 <= x) by (destruct Hg as [(_ & _ & Hg)|[_ Hg]]; cbn in Hg; lia).
  assert (Hb : b ∈ pos_pages p) by (apply (goes_pages _ _ Hg); set_solver).
  split_and!; [done..|]. intros y Hy.
  pose proof (proj1 (path_goes _ _ _ _ H2)) as Hq.
  pose proof (goes_nodup _ _ Hg Hnd) as Hnd2. apply NoDup_cons in Hnd2 as [Hb2 _].
  split_and!; [done| | | |].
  - destruct Hq as [(_ & -> & _)|[(mid & E) _]]; [done|]. cbn in E. rewrite E in Hb2. set_solver.
  - lia.
  - lia.
  - intros E. destruct Hq as [(_ & _ & Hx')|[(mid & E') _]]; [cbn in Hx'; lia|].
    cbn in E', Hb2. rewrite E', E in Hb2. set_solver.
Qed.

(** Two entries of a path do not overlap. *)
Lemma path_apart m p es1 b x ty es2 q b' x' ty' :
  log_path m p (es1 ++ (b, x, ty) :: es2) q -> (b', x', ty') ∈ es2 ->
  NoDup (pos_pages p) -> 0 <= pos_off p -> b <> b' \/ x + nova_get_log_entry_size ty <= x'.
Proof.
  intros Hp Hin Hnd H0. destruct (path_split _ _ _ _ _ _ _ _ Hp) as (p1 & post & H1 & Hl & Hk & Hs & H2).
  apply list_elem_of_split in Hin as (es3 & es4 & ->).
  destruct (path_split _ _ _ _ _ _ _ _ H2) as (p2 & post2 & H3 & Hl2 & _).
  assert (Hg : goes_to (b, x + nova_get_log_entry_size ty, post) (b', x', post2)).
  { eapply goes_trans; [by eapply path_goes|by eapply land_goes]. }
  assert (Hg0 : goes_to p (b, x, post)).
  { eapply goes_trans; [by eapply path_goes|by eapply land_goes]. }
  pose proof (goes_nodup _ _ Hg0 Hnd) as Hnd2. apply NoDup_cons in Hnd2 as [Hb2 _].
  destruct Hg as [(_ & _ & Hx)|[(mid & E) _]]; [right; done|left]. cbn in E, Hb2.
  intros ->. rewrite E in Hb2. set_solver.
Qed.

(** Any two. *)
Lemma items_apart m p es q b x ty b' x' ty' :
  log_path m p es q -> (b, x, ty) ∈ es -> (b', x', ty') ∈ es -> NoDup (pos_pages p) -> 0 <= pos_off p ->
  (b = b' /\ x = x' /\ ty = ty') \/ b <> b'
  \/ x + nova_get_log_entry_size ty <= x' \/ x' + nova_get_log_entry_size ty' <= x.
Proof.
  intros Hp (es1 & es2 & ->)%list_elem_of_split Hin Hnd H0.
  apply elem_of_app in Hin as [Hin|Hin].
  - apply list_elem_of_split in Hin as (es3 & es4 & ->). rewrite <- app_assoc in Hp. cbn [app] in Hp.
    destruct (path_apart _ _ _ _ _ _ _ _ b x ty Hp ltac:(set_solver) Hnd H0); auto.
  - apply elem_of_cons in Hin as [[= -> -> ->]|Hin]; [by left|].
    destruct (path_apart _ _ _ _ _ _ _ _ _ _ _ Hp Hin Hnd H0); auto.
Qed.
End path.
