(* ===== verification/LogEntrySpec.v ===== *)
(** What a log says about the pages of the file ([log_events]), what leaves it as
    it is, and running the operations of a part of the header on the whole. *)

From S2P Require Import Prelude.
From S2P Require Import Kernel.
From S2P Require Import Checksum.
From S2P Require Import RangeTree.
From S2P Require Import Layout.
From S2P Require Import FreeList.
From S2P Require Import Balloc.
From S2P Require Import BallocSpec.
From S2P Require Import Pmem.
From S2P Require Import PmemSpec.
From S2P Require Import Journal.
From S2P Require Import InodeLog.
From S2P Require Import InodeLogSpec.
From S2P Require Import InodeLogOps.
From S2P Require Import DataGuard.
From S2P Require Import Replica.
From S2P Require Import Recovery.
From S2P Require Import RecoverySpec.
From S2P Require Import FileScanSpec.
From S2P Require Import FileLogSpec.
From S2P Require Import FileIndex.
From S2P Require Import FileIndexSpec.
From S2P Require Import FileAssign.
From S2P Require Import Header.
From S2P Require Import LogEntry.
From S2P Require Import LogPath.

Section log_entry_spec.
Context {RB : RbOps} {KM : KmemOps} {CR : CrcOps} {MP : ModParams}.
Context {RBL : RbLaws} {KML : KmemLaws}.
Context (sbi : nova_sb_info) (G : log_geometry sbi).

(** ** What a log says about the pages of a file *)

(** The first page behind a size. *)
Definition pages_of_size (size : Z) : Z := Z.shiftr (u64 (size + 4096 - 1)) 12.

Definition item_events (m : mem) (i : log_item) : list event :=
  let '(b, x, ty) := i in
  let a := addr_of sbi b x in
  match ty with
  | FILE_WRITE =>
      let w := went m a in
      if we_num_pages w =? we_invalid_pages w then [] else [Wrote a w]
  | SET_ATTR =>
      if S_ISREG (half (cur m a) 1) then [Cut (pages_of_size (cur m (a + 24)))] else []
  | _ => []
  end.

(** The newest first. *)
Definition log_events (m : mem) (es : list log_item) : list event := rev es ≫= item_events m.

Lemma log_events_snoc m es i : log_events m (es ++ [i]) = item_events m i ++ log_events m es.
Proof. unfold log_events. by rewrite rev_app_distr. Qed.

(** What the events of an entry depend on. *)
Definition item_kept (m m' : mem) (i : log_item) : Prop :=
  let '(b, x, ty) := i in
  let a := addr_of sbi b x in
  match ty with
  | FILE_WRITE => went m' a = went m a /\ byte (cur m' a) 2 = byte (cur m a) 2
  | SET_ATTR => cur m' a = cur m a /\ cur m' (a + 24) = cur m (a + 24)
  | _ => True
  end.

Lemma log_events_kept m m' es : Forall (item_kept m m') es -> log_events m' es = log_events m es.
Proof.
  intros Hk. unfold log_events. assert (Hr : Forall (item_kept m m') (rev es)) by by apply Forall_rev.
  induction Hr as [|[[b x] ty] l Hi _ IH]; [done|]. cbn [mbind list_bind]. rewrite IH. f_equal.
  unfold item_kept, item_events in *. destruct ty; try done.
  - by destruct Hi as [-> _].
  - by destruct Hi as [-> ->].
Qed.

Lemma item_kept_trans m1 m2 m3 i : item_kept m1 m2 i -> item_kept m2 m3 i -> item_kept m1 m3 i.
Proof.
  destruct i as [[b x] ty]. unfold item_kept. destruct ty; try done; by intros [-> ->].
Qed.

Lemma entry_word_0 m a : nth 0 (words m a 8) 0 = cur m a.
Proof. rewrite words_nth by lia. by rewrite Z.add_0_r. Qed.

Lemma went_ext m m' a :
  (forall k, 0 <= k < 64 -> cur m' (a + k) = cur m (a + k)) -> went m' a = went m a.
Proof.
  intros H. unfold went. f_equal. apply words_ext. intros i Hi. unfold ENTRY_WORDS in Hi. apply H. lia.
Qed.

Lemma kept_before m m' p es q :
  log_path sbi m p es q -> NoDup (pos_pages p) -> 0 <= pos_off p ->
  (forall b y, before (pos_pages p) q b y -> cur m' (addr_of sbi b y) = cur m (addr_of sbi b y)) ->
  Forall (item_kept m m') es.
Proof.
  intros Hp Hnd H0 Hc. apply Forall_forall. intros [[b x] ty] Hi.
  destruct (path_entry sbi _ _ _ _ _ _ _ Hp Hi Hnd H0) as (Hk & Hx & Hs & Hb & Hbef).
  unfold item_kept. destruct ty; try done.
  - cbn [nova_get_log_entry_size] in Hbef. split; [|rewrite Hc; [done|apply Hbef; lia]].
    apply went_ext. intros k Hkk. unfold addr_of in *. rewrite <- !Z.add_assoc. apply Hc, Hbef. lia.
  - cbn [nova_get_log_entry_size] in Hbef. unfold addr_of in *. rewrite <- !Z.add_assoc.
    split; apply Hc, Hbef; lia.
Qed.

(** ** Addresses of entries *)

Lemma entry_word b x : x mod 8 = 0 -> word_of (base sbi b + x) = base sbi b + x.
Proof.
  intros Hx. rewrite word_of_val. pose proof (addr_aligned sbi G b x Hx) as H. unfold addr_of in H. lia.
Qed.

Lemma addr_inj b x b' x' :
  0 <= x < 4096 -> 0 <= x' < 4096 -> base sbi b + x = base sbi b' + x' -> b = b' /\ x = x'.
Proof. unfold base. intros. assert (b = b') as -> by lia. lia. Qed.

Lemma items_addr_apart m p es q b x ty b' x' ty' :
  log_path sbi m p es q -> (b, x, ty) ∈ es -> (b', x', ty') ∈ es ->
  NoDup (pos_pages p) -> 0 <= pos_off p ->
  (b = b' /\ x = x' /\ ty = ty')
  \/ addr_of sbi b x + nova_get_log_entry_size ty <= addr_of sbi b' x'
  \/ addr_of sbi b' x' + nova_get_log_entry_size ty' <= addr_of sbi b x.
Proof.
  intros Hp Hi Hi' Hnd H0.
  destruct (path_entry sbi _ _ _ _ _ _ _ Hp Hi Hnd H0) as (_ & Hx & Hs & _).
  destruct (path_entry sbi _ _ _ _ _ _ _ Hp Hi' Hnd H0) as (_ & Hx' & Hs' & _).
  unfold addr_of, base, LOG_BLOCK_TAIL in *.
  destruct (items_apart sbi _ _ _ _ _ _ _ _ _ _ Hp Hi Hi' Hnd H0) as [?|[Hb|[?|?]]]; [by left|right..].
  - assert (b < b' \/ b' < b) as [?|?] by lia; [left|right]; lia.
  - destruct (decide (b = b')) as [->|Hb]; [left; lia|].
    assert (b < b' \/ b' < b) as [?|?] by lia; [left|right]; lia.
  - destruct (decide (b = b')) as [->|Hb]; [right; lia|].
    assert (b < b' \/ b' < b) as [?|?] by lia; [left|right]; lia.
Qed.

(** Marks on write entries of the log change none of its events. *)
Lemma kept_marks m t l p es q :
  log_path sbi m p es q -> NoDup (pos_pages p) -> 0 <= pos_off p ->
  marks_only l m t -> (forall a, a ∈ l -> write_at sbi es a) -> Forall (item_kept m (exec t m)) es.
Proof.
  intros Hp Hnd H0 Hk Hl. apply Forall_forall. intros [[b x] ty] Hi. unfold item_kept.
  assert (Hap : forall a, a ∈ l -> (ty = FILE_WRITE /\ a = addr_of sbi b x)
    \/ addr_of sbi b x + nova_get_log_entry_size ty <= a \/ a + 64 <= addr_of sbi b x).
  { intros a Ha. destruct (Hl a Ha) as (b' & x' & Hi' & ->).
    destruct (items_addr_apart _ _ _ _ _ _ _ _ _ _ Hp Hi Hi' Hnd H0) as [(-> & -> & ->)|H]; [by left|].
    right. exact H. }
  destruct ty; try done.
  - split; [|by apply (marks_updating l)].
    apply (marks_went l); [done|]. intros a Ha. unfold apart. destruct (Hap a Ha) as [[_ ->]|?]; [by left|].
    by right.
  - cbn [nova_get_log_entry_size] in Hap.
    split; apply cur_untouched, Hk; intros Ha; destruct (Hap _ Ha) as [[? _]|?]; try done; lia.
Qed.

(** ** Running operations on a part of the header *)

Lemma on_log_run {A} (x : LM A) (h : header) m a st' t :
  x (LState (fx_lists (h_file h)) (h_log h)) m = (Some (a, st'), t) ->
  on_log x h m = (Some (a, set_h_log (sih st') (set_h_file (set_lists (fls st') (h_file h)) h)), t).
Proof.
  intros Hx. unfold on_log. rewrite <- (app_nil_r t). exact (bind_run _ _ m _ t _ [] Hx eq_refl).
Qed.

Lemma on_file_run {A} (x : FM A) (h : header) m a st' t :
  x (h_file h) m = (Some (a, st'), t) -> on_file x h m = (Some (a, set_h_file st' h), t).
Proof.
  intros Hx. unfold on_file. rewrite <- (app_nil_r t). exact (bind_run _ _ m _ t _ [] Hx eq_refl).
Qed.

Lemma mem_op_run {S A} (x : PM A) (st : S) m a t :
  x m = (a, t) -> mem_op x st m = (Some (a, st), t).
Proof. intros Hx. unfold mem_op. rewrite <- (app_nil_r t). exact (bind_run _ _ m _ t _ [] Hx eq_refl). Qed.

Lemma same_log h st' :
  sih st' = h_log h ->
  set_h_log (sih st') (set_h_file (set_lists (fls st') (h_file h)) h)
  = set_h_file (set_lists (fls st') (h_file h)) h.
Proof. intros ->. by destruct h. Qed.
End log_entry_spec.
