(* ===== verification/RebuildSpec.v ===== *)
(** Replaying the log of a file: the index that the first walk builds is what
    the log says ([log_events]). *)

From S2P Require Import Prelude.
From S2P Require Import Kernel.
From S2P Require Import Checksum.
From S2P Require Import RangeTree.
From S2P Require Import Layout.
From S2P Require Import FreeList.
From S2P Require Import Balloc.
From S2P Require Import Pmem.
From S2P Require Import PmemSpec.
From S2P Require Import Journal.
From S2P Require Import InodeLog.
From S2P Require Import InodeLogSpec.
From S2P Require Import InodeTable.
From S2P Require Import DataGuard.
From S2P Require Import Replica.
From S2P Require Import Recovery.
From S2P Require Import RecoverySpec.
From S2P Require Import FileScanSpec.
From S2P Require Import FileLogSpec.
From S2P Require Import FileIndex.
From S2P Require Import FileIndexSpec.
From S2P Require Import FileAssign.
From S2P Require Import FileTruncate.
From S2P Require Import Header.
From S2P Require Import LogEntry.
From S2P Require Import LogPath.
From S2P Require Import LogEntrySpec.
From S2P Require Import Rebuild.

Section replay.
Context {RB : RbOps} {KM : KmemOps} {CR : CrcOps} {MP : ModParams}.
Context (sbi : nova_sb_info) (Hmc : metadata_csum = false).
Context (snapshots : list Z) (nomem : Z -> bool) (Hmem : forall p, nomem p = false).

(** ** Entering pages without freeing *)

Lemma assign_loop_tree entry n cp r (st : file_state) m :
  0 <= cp -> cp + Z.of_nat n < TWO64 ->
  exists r', assign_loop nomem n entry cp false r st m
    = (Some (inr r', with_index (enter entry n cp (fx_tree st)) (fx_olds st) st), []).
Proof.
  revert cp r st. induction n as [|n IH]; intros cp r st Hcp Hmax; cbn [assign_loop enter].
  { exists r. by destruct st. }
  rewrite u64_small by lia.
  destruct (fx_tree st !! cp) as [e|] eqn:He.
  - set (r1 := if negb (e =? start_old_entry r) then OldRun e cp 1
               else OldRun (start_old_entry r) (start_old_pgoff r) (u32 (num_free r + 1))).
    destruct (IH (cp + 1) r1 (with_index (<[cp := entry]> (fx_tree st)) (fx_olds st) st)) as [r' Hl]; [lia|lia|].
    exists r'. eapply (sm_run _ _ _ _ _ _ [] _ []); [done|]. cbv beta. rewrite He.
    eapply (sm_run _ _ _ _ r1 _ [] _ []).
    { unfold r1. destruct (negb (e =? start_old_entry r)); [|done].
      unfold close_run. by rewrite andb_false_r. }
    eapply (sm_run _ _ _ _ _ _ [] _ []); [done|]. cbv beta.
    eapply (sm_run _ _ _ _ () _ [] _ []); [done|]. exact Hl.
  - destruct (IH (cp + 1) r (with_index (<[cp := entry]> (fx_tree st)) (fx_olds st) st)) as [r' Hl]; [lia|lia|].
    exists r'. eapply (sm_run _ _ _ _ _ _ [] _ []); [done|]. cbv beta. rewrite He, Hmem.
    eapply (sm_run _ _ _ _ () _ [] _ []); [done|]. exact Hl.
Qed.

Lemma replay_assign_run e ws (st : file_state) m btype :
  fx_olds st = [] -> 0 <= we_pgoff (WENTRY ws) ->
  we_pgoff (WENTRY ws) + Z.max 0 (we_num_pages (WENTRY ws)) < TWO64 ->
  nova_assign_write_entry sbi snapshots btype nomem e ws false st m
  = (Some (0, with_index (enter e (Z.to_nat (we_num_pages (WENTRY ws))) (we_pgoff (WENTRY ws)) (fx_tree st))
                [] st), []).
Proof.
  intros Ho Hp Hn.
  destruct (assign_loop_tree e (Z.to_nat (we_num_pages (WENTRY ws))) (we_pgoff (WENTRY ws)) (OldRun 0 0 0)
    (with_index (fx_tree st) [] st) m) as [r' Hl]; [done|lia|].
  unfold nova_assign_write_entry. eapply (sm_run _ _ _ _ () (with_index (fx_tree st) [] st) [] _ []).
  - unfold free_old_entry. eapply (sm_run _ _ _ _ _ _ [] _ []); [done|]. rewrite Ho. by destruct st.
  - eapply (sm_run _ _ _ _ _ _ [] _ []); [exact Hl|]. cbv beta iota.
    unfold close_run. rewrite andb_false_r. done.
Qed.

(** ** Cutting pages without freeing *)

(** No page lies at [hi] or behind; the entry of a page holds it. *)
Record tree_ok (m : mem) (hi : Z) (T : gmap Z Z) : Prop := {
  to_end : forall p, hi <= p -> T !! p = None;
  to_entry : forall p e, T !! p = Some e -> 0 <= we_pgoff (went m e) /\ has_page (went m e) p
}.

Definition cut_tree (start : Z) (T T' : gmap Z Z) : Prop :=
  forall p, T' !! p = if decide (start <= p) then None else T !! p.

Lemma delete_loop_tree m hi dead epoch fuel cp r freed (st : file_state) :
  tree_ok m hi (fx_tree st) -> hi < TWO64 - 1 -> 0 <= cp -> Z.max 0 (hi - cp) < Z.of_nat fuel ->
  exists r' freed' T', delete_loop sbi snapshots 0 fuel cp false dead epoch r freed st m
      = (Some ((r', freed'), with_index T' (fx_olds st) st), [])
    /\ cut_tree cp (fx_tree st) T'.
Proof.
  intros Hok Hhi. revert cp r freed st Hok. induction fuel as [|fuel IH]; intros cp r freed st Hok Hcp Hfu; [lia|].
  cbn [delete_loop]. destruct (fx_tree st !! cp) as [e|] eqn:He.
  - assert (Hlt : cp < hi) by (destruct (decide (hi <= cp)); [by rewrite (to_end _ _ _ Hok) in He|lia]).
    set (st1 := with_index (delete cp (fx_tree st)) (fx_olds st) st).
    set (r1 := if negb (e =? start_old_entry r) then OldRun e cp 1
               else OldRun (start_old_entry r) (start_old_pgoff r) (u32 (num_free r + 1))).
    destruct (IH (cp + 1) r1 (s32 (freed + 0)) st1) as (r' & freed' & T' & Hl & HT); [|lia|lia|].
    { split.
      - intros p Hp. cbn. rewrite lookup_delete_ne by lia. by apply (to_end _ _ _ Hok).
      - intros p e'. cbn. intros [_ Hp]%lookup_delete_Some. by apply (to_entry _ _ _ Hok). }
    exists r', freed', T'. split.
    + eapply (sm_run _ _ _ _ _ _ [] _ []); [done|]. cbv beta. rewrite He.
      eapply (sm_run _ _ _ _ () st1 [] _ []); [done|].
      eapply (sm_run _ _ _ _ (r1, 0) st1 [] _ []).
      { unfold r1. destruct (negb (e =? start_old_entry r)); [|done].
        unfold free_run. by rewrite andb_false_r. }
      cbv beta iota. rewrite u64_small by lia. exact Hl.
    + intros p. rewrite (HT p). cbn. destruct (decide (p = cp)) as [->|Hne].
      * rewrite decide_False, lookup_delete_eq by lia. by rewrite decide_True by lia.
      * rewrite lookup_delete_ne by done. repeat case_decide; try done; lia.
  - unfold nova_find_next_entry. pose proof (first_key_ok (fx_tree st) cp) as Hk.
    destruct (first_key (fx_tree st) cp) as [k|] eqn:Ek.
    + destruct Hk as (Hk & [e Hek] & Hbetween). assert (Hkc : k <> cp) by (intros ->; congruence).
      assert (Hkh : k < hi) by (destruct (decide (hi <= k)); [by rewrite (to_end _ _ _ Hok) in Hek|lia]).
      destruct (to_entry _ _ _ Hok _ _ Hek) as [Hp0 Hpg]. unfold has_page in Hpg.
      set (cp' := Z.max (cp + 1) (we_pgoff (went m e))).
      destruct (IH cp' r freed st Hok) as (r' & freed' & T' & Hl & HT); [lia|lia|].
      exists r', freed', T'. split.
      * eapply (sm_run _ _ _ _ _ _ [] _ []); [done|]. cbv beta. rewrite He.
        unfold nova_find_next_entry. rewrite Ek. cbn [mbind option_bind]. rewrite Hek.
        rewrite Hmc. eapply (sm_run _ _ _ _ (Some (words m e ENTRY_WORDS)) _ [] _ []).
        { eapply (sm_run _ _ _ _ _ _ [] _ []); [apply mem_words_run|done]. }
        cbv beta iota. fold (went m e). rewrite (u64_small (cp + 1)) by lia. exact Hl.
      * intros p. rewrite (HT p). repeat case_decide; try done; try lia.
        destruct (decide (p = cp)) as [->|]; [done|]. apply Hbetween. lia.
    + exists r, freed, (fx_tree st). split.
      * eapply (sm_run _ _ _ _ _ _ [] _ []); [done|]. cbv beta. rewrite He.
        unfold nova_find_next_entry. rewrite Ek. cbn [mbind option_bind]. by destruct st.
      * intros p. case_decide; [by apply Hk|done].
Qed.

Lemma replay_delete_run m hi fuel junk start last epoch (st : file_state) :
  tree_ok m hi (fx_tree st) -> fx_olds st = [] -> hi < TWO64 - 1 -> 0 <= start -> Z.max 0 hi < Z.of_nat fuel ->
  exists n T', nova_delete_file_tree sbi snapshots 0 fuel junk start last false false epoch st m
      = (Some (n, with_index T' [] st), [])
    /\ cut_tree start (fx_tree st) T'.
Proof.
  intros Hok Ho Hhi Hst Hfu.
  destruct (delete_loop_tree m hi false epoch fuel start (OldRun 0 0 0) 0 st Hok Hhi Hst)
    as (r & freed & T' & Hl & HT); [lia|]. rewrite Ho in Hl.
  exists (s32 (freed + 0)), T'. split; [|done]. unfold nova_delete_file_tree.
  eapply (sm_run _ _ _ _ _ _ [] _ []); [done|]. cbv beta.
  rewrite Hmc, Ho. rewrite bool_decide_eq_false_2 by naive_solver. cbn [negb andb].
  eapply (sm_run _ _ _ _ () st [] _ []).
  { unfold free_old_entry. eapply (sm_run _ _ _ _ _ _ [] _ []); [done|]. rewrite Ho. destruct st. cbn in Ho. by subst. }
  eapply (sm_run _ _ _ _ _ _ [] _ []); [exact Hl|]. cbv beta iota.
  eapply (sm_run _ _ _ _ 0 _ [] _ []); [|done]. unfold free_run. by rewrite andb_false_r.
Qed.
End replay.

(** ** The walk *)

Section walk.
Context {RB : RbOps} {KM : KmemOps} {CR : CrcOps} {MP : ModParams}.
Context (sbi : nova_sb_info) (G : log_geometry sbi) (Hmc : metadata_csum = false).
Context (snapshots : list Z) (nomem : Z -> bool) (Hmem : forall p, nomem p = false).
Context (m : mem) (hi : Z) (Hhi : 0 <= hi < TWO64 - 1).

Lemma last_writer_events es p e w :
  last_writer (log_events sbi m es) p = Some (e, w) ->
  exists b x, (b, x, FILE_WRITE) ∈ es /\ e = addr_of sbi b x /\ w = went m e /\ has_page w p
    /\ live_entry m e.
Proof.
  induction es as [|[[b x] ty] es IH] using rev_ind; [done|]. rewrite log_events_snoc.
  intros Hl. assert (Hor : (ty = FILE_WRITE /\ live_entry m (addr_of sbi b x) /\ e = addr_of sbi b x
      /\ w = went m e /\ has_page w p) \/ last_writer (log_events sbi m es) p = Some (e, w)).
  { unfold item_events in Hl. unfold live_entry. destruct ty; try (right; exact Hl).
    - destruct (Z.eqb_spec (we_num_pages (went m (addr_of sbi b x))) (we_invalid_pages (went m (addr_of sbi b x))));
        [right; exact Hl|]. cbn [app last_writer] in Hl. case_decide; [left; by simplify_eq|right; exact Hl].
    - destruct (S_ISREG _); [|right; exact Hl]. cbn [app last_writer] in Hl. case_decide; [done|right; exact Hl]. }
  destruct Hor as [(-> & H1 & H2 & H3 & H4)|H].
  - exists b, x. subst e. split; [apply elem_of_app; right; by left|done].
  - destruct (IH H) as (b' & x' & Hin & Hrest). exists b', x'. split; [apply elem_of_app; by left|exact Hrest].
Qed.

(** An entry the replay handles: the pages of a live write end before [hi] and
    are not being written; no checksums of pages have to be reset. *)
Definition replayable (i : log_item) : Prop :=
  let '(b, x, ty) := i in
  let a := addr_of sbi b x in
  match ty with
  | FILE_WRITE =>
      byte (cur m a) 2 = 0
      /\ (live_entry m a -> 0 <= we_num_pages (went m a) /\ 0 <= we_pgoff (went m a)
            /\ we_pgoff (went m a) + we_num_pages (went m a) <= hi)
  | MMAP_WRITE => data_csum = false /\ data_parity = false
  | _ => True
  end.

(** The header after the replay of [es]. *)
Record replayed (h0 : header) (es : list log_item) (h : header) : Prop := {
  rp_tree : forall p, fx_tree (h_file h) !! p = fst <$> last_writer (log_events sbi m es) p;
  rp_olds : fx_olds (h_file h) = [];
  rp_lists : fx_lists (h_file h) = fx_lists (h_file h0);
  rp_btype : i_blk_type (h_log h) = 0;
  rp_tail : log_tail (h_log h) = log_tail (h_log h0)
}.

Lemma replayed_tree h0 es h :
  replayed h0 es h -> Forall replayable es -> tree_ok m hi (fx_tree (h_file h)).
Proof.
  intros Hr Hall. rewrite Forall_forall in Hall.
  assert (H : forall p e, fx_tree (h_file h) !! p = Some e ->
      0 <= we_pgoff (went m e) /\ has_page (went m e) p /\ p < hi).
  { intros p e Hp. rewrite (rp_tree _ _ _ Hr) in Hp. apply fmap_Some in Hp as ([e' w] & Hl & ->).
    destruct (last_writer_events _ _ _ _ Hl) as (b & x & Hin & -> & -> & Hpg & Hlv).
    destruct (Hall _ Hin) as [_ Hb]. destruct (Hb Hlv) as (H1 & H2 & H3). unfold has_page in *. cbn [fst].
    split_and!; [done|lia|lia|lia]. }
  split.
  - intros p Hp. destruct (fx_tree (h_file h) !! p) as [e|] eqn:He; [|done].
    destruct (H p e He) as (_ & _ & ?). lia.
  - intros p e He. by destruct (H p e He) as (? & ? & _).
Qed.

(** A store to the other fields of the header. *)
Lemma replayed_same h0 es h h' :
  replayed h0 es h -> h_file h' = h_file h -> i_blk_type (h_log h') = i_blk_type (h_log h) ->
  log_tail (h_log h') = log_tail (h_log h) -> replayed h0 es h'.
Proof. intros [H1 H2 H3 H4 H5] E1 E2 E3. split; rewrite ?E1, ?E2, ?E3; done. Qed.

(** What the replay of an entry leaves, but for the transaction of a write. *)
Definition same_rest (h h' : header) : Prop := h_log h' = h_log h /\ h_trans_id h' = h_trans_id h.

(** A new tree. *)
Lemma replayed_tree_step h0 es i h T' :
  replayed h0 es h ->
  (forall p, T' !! p = fst <$> last_writer (item_events sbi m i ++ log_events sbi m es) p) ->
  replayed h0 (es ++ [i]) (set_h_file (with_index T' [] (h_file h)) h).
Proof.
  intros [H1 H2 H3 H4 H5] HT. split; try done. intros p. rewrite log_events_snoc. apply HT.
Qed.

Lemma replayed_skip h0 es i h :
  replayed h0 es h -> item_events sbi m i = [] -> replayed h0 (es ++ [i]) h.
Proof. intros [H1 H2 H3 H4 H5] Hi. split; try done. intros p. by rewrite log_events_snoc, Hi. Qed.

Context (junk : Z) (xmm2 kmalloc_parity : bool) (fuel : nat) (Hfuel : hi < Z.of_nat fuel).

Abbreviation replay_entry := (replay_file_entry sbi snapshots nomem junk xmm2 kmalloc_parity fuel).

Lemma entryc_words_run {S} a n (st : S) :
  entryc_words (AtLog a) n st m = (Some (words m a n, st), []).
Proof. apply mem_words_run. Qed.

(** A write entry. *)
Lemma replay_write_run h0 es b x reb h :
  let a := addr_of sbi b x in
  replayed h0 es h -> replayable (b, x, FILE_WRITE) ->
  exists reb' h', nova_rebuild_handle_write_entry sbi snapshots nomem xmm2 kmalloc_parity reb a
      (words m a ENTRY_WORDS) h m = (Some (reb', h'), [])
    /\ replayed h0 (es ++ [(b, x, FILE_WRITE)]) h' /\ same_rest h h'.
Proof.
  intros a Hr [Hup Hlive]. fold a in Hup, Hlive. set (ws := words m a ENTRY_WORDS).
  assert (Hh1 : exists h1 r, (if we_num_pages (WENTRY ws) =? we_invalid_pages (WENTRY ws) then mret 0
                else assign_entry sbi snapshots nomem a ws false) h m = (Some (r, h1), [])
             /\ replayed h0 (es ++ [(b, x, FILE_WRITE)]) h1 /\ same_rest h h1).
  { fold (went m a) in *. change (WENTRY ws) with (went m a).
    destruct (Z.eqb_spec (we_num_pages (went m a)) (we_invalid_pages (went m a))) as [E|E].
    - exists h, 0. split; [done|]. split; [|done]. apply replayed_skip; [done|]. cbn [item_events]. fold a.
      by rewrite (proj2 (Z.eqb_eq _ _) E).
    - destruct (Hlive E) as (H1 & H2 & H3).
      pose proof (replay_assign_run sbi snapshots nomem Hmem a ws (h_file h) m 0 (rp_olds _ _ _ Hr)) as Hrun.
      change (WENTRY ws) with (went m a) in Hrun. specialize (Hrun H2 ltac:(lia)).
      eexists _, 0. split.
      + unfold assign_entry. eapply (sm_run _ _ _ _ _ _ [] _ []); [done|]. cbv beta.
        rewrite (rp_btype _ _ _ Hr). apply on_file_run. exact Hrun.
      + split; [|done]. apply replayed_tree_step; [done|]. intros p. rewrite enter_lookup, Z2Nat.id by done.
        cbn [item_events]. fold a. rewrite (proj2 (Z.eqb_neq _ _) E). cbn [app last_writer].
        unfold has_page. rewrite (rp_tree _ _ _ Hr). by repeat case_decide. }
  destruct Hh1 as (h1 & r & Hrun & Hr1 & Hlg).
  unfold nova_rebuild_handle_write_entry. set (reb' := if reb_trans_id reb <=? _ then _ else reb).
  exists reb', (set_h_i_size (reb_i_size reb') h1). split.
  - eapply (sm_run _ _ _ _ _ _ [] _ []); [exact Hrun|].
    eapply (sm_run _ _ _ _ 0 h1 [] _ []).
    { change (nth 0 ws 0) with (cur m (a + 0)). rewrite Z.add_0_r, Hup. done. }
    eapply (sm_run _ _ _ _ () _ [] _ []); done.
  - split; [by eapply replayed_same|done].
Qed.

(** An attribute entry. *)
Lemma replay_setattr_run h0 es b x reb h :
  let a := addr_of sbi b x in
  replayed h0 es h -> Forall replayable es -> byte (cur m a) 0 = entry_type_code SET_ATTR ->
  exists reb' h', nova_apply_setattr_entry sbi snapshots junk fuel reb (words m a 7) h m
      = (Some (reb', h'), [])
    /\ replayed h0 (es ++ [(b, x, SET_ATTR)]) h' /\ same_rest h h'.
Proof.
  intros a Hr Hall Hty. unfold nova_apply_setattr_entry. set (ws := words m a 7).
  assert (Hw : nth 0 ws 0 = cur m a) by (unfold ws; rewrite words_nth by lia; by rewrite Z.add_0_r).
  assert (Hw3 : nth 3 ws 0 = cur m (a + 24)) by (unfold ws; by rewrite words_nth by lia).
  rewrite Hw, Hw3. set (reb' := reb_set_attr _ _ _ _ reb).
  change (reb_i_mode reb') with (half (cur m a) 1).
  destruct (S_ISREG (half (cur m a) 1)) eqn:Hreg.
  - destruct (replay_delete_run sbi Hmc snapshots m hi fuel junk (pages_of_size (cur m (a + 24)))
      (if 0 <? s64 (reb_i_size reb') then u64 (Z.shiftr (s64 (reb_i_size reb') - 1) 12) else 0) 0 (h_file h))
      as (n & T' & Hrun & HT).
    { by eapply replayed_tree. } { apply Hr. } { lia. }
    { unfold pages_of_size. apply Z.shiftr_nonneg. pose proof (u64_range (cur m (a + 24) + 4096 - 1)). lia. }
    { lia. }
    exists reb', (set_h_file (with_index T' [] (h_file h)) h). split.
    + eapply (sm_run _ _ _ _ _ _ [] _ []); [done|]. cbv beta zeta. rewrite Hty.
      rewrite (rp_btype _ _ _ Hr).
      eapply (sm_run _ _ _ _ n _ [] _ []); [|done]. apply on_file_run. exact Hrun.
    + split; [|done]. apply replayed_tree_step; [done|]. intros p. rewrite (HT p). cbn [item_events]. fold a. rewrite Hreg.
      cbn [app last_writer]. rewrite (rp_tree _ _ _ Hr). by repeat case_decide.
  - exists reb', h. split.
    + eapply (sm_run _ _ _ _ _ _ [] _ []); [done|]. cbv beta zeta. by rewrite Hty.
    + split; [|done]. apply replayed_skip; [done|]. cbn [item_events]. fold a. by rewrite Hreg.
Qed.

Lemma kind_type b x ty :
  kind_at sbi m b x = Some ty ->
  entry_type_of (type_at sbi m b x) = Some ty /\ type_at sbi m b x = entry_type_code ty
  /\ match ty with DIR_LOG | SNAPSHOT_INFO | NEXT_PAGE => False | _ => True end.
Proof.
  unfold kind_at, entry_kind. set (c := type_at sbi m b x). intros H.
  assert (E : entry_type_of c = Some ty) by (destruct (entry_type_of c) as [[]|]; by simplify_eq).
  split; [done|]. split; [|by destruct (entry_type_of c) as [[]|]; simplify_eq]. unfold entry_type_of in E. by repeat case_match; simplify_eq.
Qed.

(** The transaction the walk is in and where it opened, after [es]. *)
Definition item_trans (i : log_item) (s : Z * option Z) : Z * option Z :=
  let '(b, x, ty) := i in
  match ty with
  | FILE_WRITE =>
      let tid := cur m (addr_of sbi b x + 48) in
      if negb (tid =? s.1) then (tid, Some (b * 4096 + x)) else s
  | _ => s
  end.
Definition walk_trans (s : Z * option Z) (es : list log_item) : Z * option Z :=
  foldl (fun s i => item_trans i s) s es.

(** The switch. *)
Lemma replay_item_run h0 es b x ty ltv w h :
  replayed h0 es h -> Forall replayable (es ++ [(b, x, ty)]) -> kind_at sbi m b x = Some ty ->
  fw_entryc w = AtLog (addr_of sbi b x) -> fw_curr_p w = b * 4096 + x ->
  exists tc reb' h', replay_entry ltv (type_at sbi m b x) (addr_of sbi b x) w h m
      = (Some (FileWalk (u64 (fw_curr_p w + nova_get_log_entry_size ty)) tc (fw_entryc w) reb', h'), [])
    /\ replayed h0 (es ++ [(b, x, ty)]) h' /\ h_log h' = h_log h
    /\ (h_trans_id h', tc) = if ltv then item_trans (b, x, ty) (h_trans_id h, fw_trans_curr w)
                             else (h_trans_id h, fw_trans_curr w).
Proof.
  intros Hr Hall Hk Hc Hcp. apply Forall_app in Hall as [Hall Hi]. apply Forall_inv in Hi.
  destruct (kind_type _ _ _ Hk) as (Ht & Hcode & Hfile). unfold replay_file_entry. rewrite Ht, Hc.
  set (a := addr_of sbi b x).
  assert (Hb0 : byte (cur m a) 0 = type_at sbi m b x).
  { unfold type_at, byte. change (8 * 0) with 0. by rewrite Z.shiftr_0_r. }
  destruct ty; try done.
  - (* a write *)
    assert (Htc : exists tc h1, (if ltv then
                      trans_id ← mem_op (load (a + 48));
                      h ← get_state;
                      if negb (trans_id =? h_trans_id h)
                      then edit (set_h_trans_id trans_id);; mret (Some (fw_curr_p w))
                      else mret (fw_trans_curr w)
                    else mret (fw_trans_curr w)) h m = (Some (tc, h1), []) /\ replayed h0 es h1 /\ h_log h1 = h_log h
      /\ (h_trans_id h1, tc) = if ltv then item_trans (b, x, FILE_WRITE) (h_trans_id h, fw_trans_curr w)
                               else (h_trans_id h, fw_trans_curr w)).
    { destruct ltv; [|by exists (fw_trans_curr w), h]. cbn [item_trans fst]. fold a.
      destruct (negb (cur m (a + 48) =? h_trans_id h)) eqn:E.
      - exists (Some (fw_curr_p w)), (set_h_trans_id (cur m (a + 48)) h). split; [|split; [by eapply replayed_same|by rewrite <- Hcp]].
        eapply (sm_run _ _ _ _ (cur m (a + 48)) h [] _ []); [done|].
        eapply (sm_run _ _ _ _ _ _ [] _ []); [done|]. cbv beta. rewrite E.
        by eapply (sm_run _ _ _ _ () _ [] _ []).
      - exists (fw_trans_curr w), h. split; [|done].
        eapply (sm_run _ _ _ _ (cur m (a + 48)) h [] _ []); [done|].
        eapply (sm_run _ _ _ _ _ _ [] _ []); [done|]. cbv beta. by rewrite E. }
    destruct Htc as (tc & h1 & Hrun1 & Hr1 & Hlg1 & Htc).
    destruct (replay_write_run h0 es b x (fw_reb w) h1 Hr1 Hi) as (reb' & h2 & Hrun2 & Hr2 & Hlg2 & Htr2).
    exists tc, reb', h2. split; [|split; [done|split; [congruence|by rewrite Htr2]]].
    eapply (sm_run _ _ _ _ _ _ [] _ []); [exact Hrun1|]. cbv beta.
    eapply (sm_run _ _ _ _ _ _ [] _ []); [apply entryc_words_run|]. cbv beta.
    eapply (sm_run _ _ _ _ _ _ [] _ []); [exact Hrun2|]. done.
  - (* attributes *)
    destruct (replay_setattr_run h0 es b x (fw_reb w) h Hr Hall) as (reb' & h1 & Hrun & Hr1 & Hlg1 & Htr1).
    { fold a. rewrite Hb0. exact Hcode. }
    do 3 eexists. split.
    + eapply (sm_run _ _ _ _ _ _ [] _ []); [apply entryc_words_run|]. cbv beta.
      eapply (sm_run _ _ _ _ _ _ [] _ []); [exact Hrun|]. cbv beta zeta.
      eapply (sm_run _ _ _ _ () _ [] _ []); [done|].
      eapply (sm_run _ _ _ _ () _ [] _ []); done.
    + split; [by eapply replayed_same|]. split; [done|]. destruct ltv; by rewrite <- Htr1.
  - (* links *)
    do 3 eexists. split.
    + eapply (sm_run _ _ _ _ _ _ [] _ []); [apply entryc_words_run|]. cbv beta.
      eapply (sm_run _ _ _ _ _ h [] _ []).
      { unfold nova_apply_link_change_entry. rewrite words_nth by lia. change (8 * Z.of_nat 0) with 0.
        rewrite Z.add_0_r, Hb0, Hcode. done. }
      eapply (sm_run _ _ _ _ () _ [] _ []); done.
    + split; [eapply replayed_same; [by apply replayed_skip|done..]|]. split; [done|by destruct ltv].
  - (* mappings *)
    do 3 eexists. split.
    + eapply (sm_run _ _ _ _ _ _ [] _ []); [apply entryc_words_run|]. cbv beta.
      eapply (sm_run _ _ _ _ 0 h [] _ []); [|done].
      destruct Hi as [Hd Hp]. unfold nova_reset_mmap_csum_parity. by rewrite Hd, Hp.
    + split; [by apply replayed_skip|]. split; [done|by destruct ltv].
Qed.

Abbreviation walk_loop :=
  (file_loop sbi snapshots false 0 nomem junk xmm2 kmalloc_parity fuel).

(** [next_pos] lands where [land_at] does. *)
Definition pages_left (h : header) (p : log_pos) : Z :=
  log_pages (h_log h) + Z.of_nat (length (pos_post p)).

Lemma next_pos_run h0 es p p1 h :
  replayed h0 es h -> 0 <= log_pages (h_log h) -> pages_left h p < TWO64 -> pos_ok sbi m (TWO31 - 1) p -> land_at sbi m p = Some p1 ->
  exists h1, next_pos sbi (off_of p) h m = (Some (off_of p1, h1), []) /\ replayed h0 es h1
    /\ pos_ok sbi m (TWO31 - 1) p1 /\ 0 <= log_pages (h_log h1) /\ pages_left h1 p1 = pages_left h p
    /\ h_trans_id h1 = h_trans_id h.
Proof.
  intros Hr Hlp Hlt. destruct p as [[b x] post]. intros (Hb & Hx & Ha & Hc & Hpost) Hl. unfold land_at in Hl.
  assert (Hx' : 0 <= x < 4096) by (unfold LOG_BLOCK_TAIL in Hx; lia).
  pose proof (goto_next_reads sbi G m b x (proj1 Hb) Hx' Ha) as Hg.
  unfold next_pos, off_of. destruct (jumps sbi m b x).
  - destruct post as [|b' post]; [done|]. injection Hl as <-. destruct Hc as [Ec Hc].
    apply Forall_cons in Hpost as [Hb' Hpost].
    assert (Hok' : pos_ok sbi m (TWO31 - 1) (b', 0, post)) by (split_and!; try done; unfold LOG_BLOCK_TAIL; lia).
    exists (set_h_log (Sih (i_blk_type (h_log h)) (sih_alter_pi_addr (h_log h)) (log_pages (h_log h) + 1)
      (log_head (h_log h)) (log_tail (h_log h)) (alter_log_head (h_log h)) (alter_log_tail (h_log h))) h).
    unfold pages_left, pos_post in *. cbn in Hlt. split; [|split; [|split; [exact Hok'|cbn; split_and!; [lia|lia|done]]]].
    + eapply (sm_run _ _ _ _ true h [] _ []); [unfold mem_op; by rewrite (bind_run _ _ _ _ [] _ [] Hg eq_refl)|].
      cbv beta iota. eapply (sm_run _ _ _ _ () _ [] _ []).
      { unfold count_log_page, set_log_pages. eapply (sm_run _ _ _ _ _ _ [] _ []); [done|].
        cbv beta. rewrite u64_small by lia. done. }
      rewrite Z.add_0_r, <- Ec. unfold mem_op, next_log_page.
      rewrite (log_page_val _ G) by (done || apply Hb). done.
    + by eapply replayed_same.
  - injection Hl as <-. exists h. split; [|done].
    eapply (sm_run _ _ _ _ false h [] _ []); [unfold mem_op; by rewrite (bind_run _ _ _ _ [] _ [] Hg eq_refl)|].
    done.
Qed.

Lemma off_nz p : pos_ok sbi m (TWO31 - 1) p -> off_of p <> 0.
Proof. destruct p as [[b x] post]. intros ([Hb _] & Hx & _). unfold log_block in Hb. cbn. lia. Qed.

Lemma file_loop_run h0 p es q :
  log_path sbi m p es q -> NoDup (pos_pages p) -> pos_ok sbi m (TWO31 - 1) p ->
  0 <= pos_off q <= LOG_BLOCK_TAIL -> log_tail (h_log h0) = off_of q ->
  forall pre ltv w h k, Forall replayable (pre ++ es) -> replayed h0 pre h ->
  fw_curr_p w = off_of p -> (length es <= k)%nat ->
  0 <= log_pages (h_log h) -> pages_left h p < TWO64 ->
  exists w' h', walk_loop k ltv w h m = (Some (Some w', h'), [])
    /\ fw_curr_p w' = off_of q /\ replayed h0 (pre ++ es) h'
    /\ 0 <= log_pages (h_log h') /\ pages_left h' q = pages_left h p
    /\ (ltv = true -> (h_trans_id h', fw_trans_curr w') = walk_trans (h_trans_id h, fw_trans_curr w) es)
    /\ fw_entryc w' = match last es with Some (b, x, _) => AtLog (addr_of sbi b x) | None => fw_entryc w end.
Proof.
  intros Hp Hnd. induction Hp as [p|p b x post ty es q Hl Hk Hs Hp IH]; intros Hpos Hq Htl pre ltv w h k Hall Hr Hw Hlen Hlp Hlt.
  { rewrite app_nil_r. exists w, h. split_and!; [|done..].
    assert (E : fw_curr_p w =? log_tail (h_log h) = true) by (rewrite (rp_tail _ _ _ Hr), Htl; lia).
    destruct k; cbn [file_loop]; (eapply (sm_run _ _ _ _ _ _ [] _ []); [reflexivity|]); cbv beta; by rewrite E. }
  assert (Hpath : log_path sbi m p ((b, x, ty) :: es) q) by by econstructor.
  pose proof (proj2 (path_goes sbi _ _ _ _ Hpath) ltac:(discriminate)) as Hpast.
  destruct k as [|k]; [cbn in Hlen; lia|].
  destruct (next_pos_run h0 pre p _ h Hr Hlp Hlt Hpos Hl) as (h1 & Hn & Hr1 & Hpos1 & Hlp1 & Hleft1 & Htr1).
  pose proof Hpos1 as (Hb & Hx & Hx8 & _). pose proof (size_8 ty) as [Hs8 Hsr].
  assert (Hne : fw_curr_p w =? log_tail (h_log h) = false).
  { rewrite (rp_tail _ _ _ Hr), Htl, Hw. apply Z.eqb_neq. apply past_neq; [done|done| |].
    - destruct p as [[c y] po]. destruct Hpos as (_ & Hy & _). cbn. unfold LOG_BLOCK_TAIL in Hy. lia.
    - unfold LOG_BLOCK_TAIL in Hq. lia. }
  assert (Haddr : meta_addr sbi (off_of (b, x, post)) = addr_of sbi b x).
  { apply (pos_addr sbi G); [apply Hb|unfold LOG_BLOCK_TAIL in Hx; lia]. }
  rewrite cons_middle, app_assoc in Hall.
  set (w1 := FileWalk (off_of (b, x, post)) (fw_trans_curr w) (AtLog (addr_of sbi b x)) (fw_reb w)).
  destruct (replay_item_run h0 pre b x ty ltv w1 h1 Hr1) as (tc & reb' & h2 & Hrun & Hr2 & Hlg2 & Htr2); [|done|done|done|].
  { apply Forall_app in Hall as [Hall _]. exact Hall. }
  destruct (pos_after sbi m (TWO31 - 1) b x post ty Hpos1) as [Hpos2 Hu]; [by apply Z.ltb_ge|].
  destruct (IH) with (pre := pre ++ [(b, x, ty)]) (ltv := ltv)
    (w := FileWalk (u64 (fw_curr_p w1 + nova_get_log_entry_size ty)) tc (fw_entryc w1) reb') (h := h2) (k := k)
    as (w' & h' & Hl' & Hw' & Hr' & Hlp' & Hleft' & Htr' & Hec'); try assumption.
  { eapply (goes_nodup p); [|exact Hnd]. eapply goes_trans; [by eapply land_goes|]. left. cbn.
    split_and!; [reflexivity|reflexivity|lia]. }
  { cbn in Hlen. lia. }
  { by rewrite Hlg2. }
  { unfold pages_left in *. rewrite Hlg2. cbn [pos_post snd] in *. lia. }
  exists w', h'. rewrite cons_middle, app_assoc. split_and!; [|assumption|assumption|assumption| | |].
  2:{ rewrite Hleft', <- Hleft1. unfold pages_left. by rewrite Hlg2. }
  2:{ intros E. rewrite (Htr' E). cbn [fw_trans_curr]. rewrite Htr2, E, Htr1. reflexivity. }
  2:{ rewrite Hec'. destruct es as [|i es]; [reflexivity|]. rewrite last_cons_cons.
      destruct (last (i :: es)) as [[[b' x'] ty']|] eqn:El; [reflexivity|]. by apply last_None in El. }
  cbn [file_loop]. eapply (sm_run _ _ _ _ _ _ [] _ []); [reflexivity|]. cbv beta. rewrite Hne.
  rewrite Hw. eapply (sm_run _ _ _ _ _ _ [] _ []); [exact Hn|]. cbv beta.
  rewrite (proj2 (Z.eqb_neq _ _) (off_nz _ Hpos1)). cbv zeta. rewrite Haddr.
  eapply (sm_run _ _ _ _ (Some (AtLog (addr_of sbi b x))) h1 [] _ []); [unfold next_entryc; by rewrite Hmc|].
  cbv beta iota zeta. eapply (sm_run _ _ _ _ (type_at sbi m b x) h1 [] _ []).
  { cbn [entryc_type]. unfold mem_op, nova_get_entry_type. rewrite <- Haddr. cbn [off_of].
    rewrite (bind_read _ _ _ _ (type_reads sbi G m b x (proj1 Hb) ltac:(unfold LOG_BLOCK_TAIL in Hx; lia) Hx8)).
    reflexivity. }
  cbv beta. eapply (sm_run _ _ _ _ false h1 [] _ []); [reflexivity|]. cbv beta iota.
  eapply (sm_run _ _ _ _ _ _ [] _ []); [exact Hrun|]. exact Hl'.
Qed.
End walk.
