(* ===== verification/LogAppend.v ===== *)
(** Where an entry is put ([nova_get_append_head]) and what the append of a
    write does to the log, step by step. *)

From S2P Require Import Prelude.
From S2P Require Import Kernel.
From S2P Require Import Checksum.
From S2P Require Import RangeTree.
From S2P Require Import Layout.
From S2P Require Import FreeList.
From S2P Require Import Balloc.
From S2P Require Import BallocSpec.
From S2P Require Import Pmem.
From S2P Require Import PmemSpec.
From S2P Require Import Journal.
From S2P Require Import InodeLog.
From S2P Require Import InodeLogSpec.
From S2P Require Import InodeLogOps.
From S2P Require Import DataGuard.
From S2P Require Import Replica.
From S2P Require Import Recovery.
From S2P Require Import RecoverySpec.
From S2P Require Import FileScanSpec.
From S2P Require Import FileLogSpec.
From S2P Require Import FileIndex.
From S2P Require Import FileIndexSpec.
From S2P Require Import FileAssign.
From S2P Require Import Header.
From S2P Require Import LogEntry.
From S2P Require Import LogPath.
From S2P Require Import LogEntrySpec.

Section append.
Context {RB : RbOps} {KM : KmemOps} {CR : CrcOps} {MP : ModParams}.
Context {RBL : RbLaws} {KML : KmemLaws}.
Context (sbi : nova_sb_info) (G : log_geometry sbi) (Hmc : metadata_csum = false).

(** The log of an inode from its first page [b0]: the entries [es] up to
    position [p], all pages in use. *)
Record log_at (m : mem) (ls : list free_list) (b0 : Z) (rest : list Z) (es : list log_item)
    (p : log_pos) : Prop := {
  la_chain : page_chain sbi m (b0 * 4096) (b0 :: rest);
  la_blocks : Forall log_block (b0 :: rest);
  la_nodup : NoDup (b0 :: rest);
  la_used : Forall (fun b => ~ free_block ls true b) (b0 :: rest);
  la_path : log_path sbi m (b0, 0, rest) es p;
  la_end : 0 <= pos_off p <= LOG_BLOCK_TAIL /\ pos_off p mod 8 = 0
}.

Lemma log_at_end m ls b0 rest es p :
  log_at m ls b0 rest es p ->
  exists pre, b0 :: rest = pre ++ pos_pages p.
Proof.
  intros H. destruct (proj1 (path_goes sbi _ _ _ _ (la_path _ _ _ _ _ _ H))) as [(E1 & E2 & _)|[(mid & E) _]].
  - exists []. unfold pos_pages. by rewrite E1, E2.
  - cbn in E. exists (b0 :: mid). rewrite E. done.
Qed.

Lemma chain_next m h pre c post :
  page_chain sbi m h (pre ++ c :: post) -> page_chain sbi m (cur m (nx sbi c)) post.
Proof.
  revert h. induction pre as [|b pre IH]; intros h; cbn; [tauto|]. intros [_ H]. by eapply IH.
Qed.

Lemma chain_link m m' h pre c added :
  page_chain sbi m h (pre ++ [c]) -> (forall b, b ∈ pre -> cur m' (nx sbi b) = cur m (nx sbi b)) ->
  page_chain sbi m' (cur m' (nx sbi c)) added -> page_chain sbi m' h (pre ++ c :: added).
Proof using Type.
  lists_only.
  revert h. induction pre as [|b pre IH]; intros h; cbn; [tauto|]. intros [-> H] Hk Ha.
  split; [done|]. rewrite Hk by set_solver. apply IH; [done| |done]. intros; apply Hk; set_solver.
Qed.

Lemma chain_keep m m' h bs :
  page_chain sbi m h bs -> (forall b, b ∈ bs -> cur m' (nx sbi b) = cur m (nx sbi b)) ->
  page_chain sbi m' h bs.
Proof using Type.
  lists_only.
  revert h. induction bs as [|b bs IH]; intros h; cbn; [done|]. intros [-> H] Hk. split; [done|].
  rewrite Hk by set_solver. apply IH; [done|]. intros; apply Hk; set_solver.
Qed.

Lemma log_chain_pages g m h bs : log_chain sbi g h bs -> (forall b, g (nx sbi b) = cur m (nx sbi b)) ->
  page_chain sbi m h bs.
Proof.
  intros Hc Hg. revert h Hc. induction bs as [|b bs IH]; intros h; cbn; [done|].
  intros (-> & _ & Hc). split; [done|]. rewrite <- Hg. by apply IH.
Qed.

Lemma nx_not_entry b c x : 0 <= x <= LOG_BLOCK_TAIL -> nx sbi b <> addr_of sbi c x.
Proof. unfold nx, addr_of, base, off_next_page, LOG_BLOCK_TAIL. lia. Qed.

Lemma tail_page b a : a ∈ tail_words sbi b -> (a - meta_start_virt sbi) / 4096 = b.
Proof.
  unfold tail_words, cn, nx, base, off_next_page, LOG_BLOCK_TAIL. rewrite !elem_of_cons, elem_of_nil.
  intros Ha. symmetry. apply Z.div_unique with (a - meta_start_virt sbi - b * 4096); intuition lia.
Qed.

(** ** Where the entry goes *)

Context (Hslab : forall T, is_Some (nova_alloc_range_node T)).
Context (fuel : nat) (this_cpu : Z) (Hthis : 0 <= this_cpu).

(** Position [(b, x, post)] for [size] bytes behind position [p] of the log;
    [added] are new pages at its end. *)
Record placed (m : mem) (ls : list free_list) (b0 : Z) (rest : list Z) (p : log_pos) (size : Z)
    (b x : Z) (post added : list Z) (ls' : list free_list) (t : list pact) : Prop := {
  pc_room : 0 <= x /\ x mod 8 = 0 /\ x + size <= LOG_BLOCK_TAIL;
  pc_land : (longer added p = (b, x, post) /\ added = [] /\ t = [])
    \/ (pos_post p ++ added = b :: post /\ x = 0 /\ jumps sbi (exec t m) (pos_page p) (pos_off p) = true);
  pc_only : forall a, a <> addr_of sbi (pos_page p) (pos_off p) ->
    (forall b', a ∈ tail_words sbi b' -> b' <> pos_page p /\ ~ free_block ls true b') -> untouched a t;
  pc_chain : page_chain sbi (exec t m) (b0 * 4096) (b0 :: rest ++ added);
  pc_blocks : Forall log_block added;
  pc_nodup : NoDup (b0 :: rest ++ added);
  pc_used : Forall (fun b => ~ free_block ls' true b) (b0 :: rest ++ added);
  pc_new : Forall (fun b => free_block ls true b) added;
  pc_ready : log_ready sbi fuel ls';
  pc_in : forall meta i y, in_list ls meta i y -> in_list ls' meta i y;
  pc_free : forall y, free_block ls' false y <-> free_block ls false y
}.

Lemma goto_jumps m b x :
  log_block b -> 0 <= x < 4096 -> x mod 8 = 0 ->
  (goto_next_page sbi (b * 4096 + x) m).1 = true -> jumps sbi m b x = true.
Proof. intros Hb Hx Ha. by rewrite (goto_next_reads sbi G m b x Hb Hx Ha). Qed.

Lemma append_head_run m es b0 rest p st pi pic tail size :
  log_at m (fls st) b0 rest es p -> append_pos (sih st) tail = off_of p -> 0 <= size <= 4064 -> size mod 8 = 0 ->
  mem_ok m -> log_ready sbi fuel (fls st) -> i_blk_type (sih st) = 0 ->
  0 < log_pages (sih st) -> extension (sih st) <= Z.of_nat fuel ->
  exists r st' t,
    nova_get_append_head sbi fuel this_cpu pi pic tail size MAIN_LOG false st m = (Some ((r, false), st'), t)
    /\ sih st' = sih st
    /\ (r = 0 /\ st' = st /\ pos_post p = [] /\ LOG_BLOCK_TAIL < pos_off p + size
          /\ (forall a, a <> addr_of sbi (pos_page p) (pos_off p) -> untouched a t)
        \/ exists b x post added, r = b * 4096 + x /\ log_block b
             /\ placed m (fls st) b0 rest p size b x post added (fls st') t).
Proof.
  intros Hl Hpos Hsz Hsz8 Hok Hr Hb0 Hlp Hfu. destruct p as [[c x] post]. cbn [off_of pos_page pos_off pos_post fst snd] in *.
  destruct (log_at_end _ _ _ _ _ _ Hl) as [pre Epre]. unfold pos_pages in Epre. cbn in Epre.
  destruct (la_end _ _ _ _ _ _ Hl) as [Hx Hx8]. cbn in Hx, Hx8.
  assert (Hcin : c ∈ b0 :: rest) by (rewrite Epre; set_solver).
  pose proof (la_blocks _ _ _ _ _ _ Hl) as Hbl. pose proof (la_used _ _ _ _ _ _ Hl) as Hus.
  pose proof (la_nodup _ _ _ _ _ _ Hl) as Hnd. pose proof (la_chain _ _ _ _ _ _ Hl) as Hch.
  assert (Hc : log_block c) by (rewrite Forall_forall in Hbl; by apply Hbl).
  assert (Hcu : ~ free_block (fls st) true c) by (rewrite Forall_forall in Hus; by apply Hus).
  assert (Hxr : 0 <= x < 4096) by (unfold LOG_BLOCK_TAIL in Hx; lia).
  assert (Hnext : page_chain sbi m (cur m (nx sbi c)) post) by (rewrite Epre in Hch; by eapply chain_next).
  destruct (decide (x + size <= 4064)) as [Hfit|Hfit].
  { exists (c * 4096 + x), st, []. split; [by eapply append_head_fits|]. split; [done|]. right.
    exists c, x, post, []. split; [done|]. split; [done|].
    split; rewrite ?app_nil_r; try done.
    - unfold LOG_BLOCK_TAIL. lia.
    - left. unfold longer. cbn. by rewrite app_nil_r.
    - by constructor. }
  destruct post as [|b post].
  - cbn in Hnext.
    destruct (append_head_extend sbi G Hslab fuel this_cpu Hthis Hmc pi pic tail size c x st m Hpos Hc Hxr Hsz)
      as (r & st' & t & E & Hs & Hres & Hr' & Hun); try done; [lia|].
    rewrite (entry_word sbi G) in Hun by done.
    exists r, st', t. split; [exact E|]. split; [exact Hs|].
    destruct Hres as [(-> & -> & Htl)|[(b & -> & Hnp) Hg]]; [left|right].
    + split_and!; try done; [unfold LOG_BLOCK_TAIL; lia|]. intros a Ha.
      destruct (decide (a ∈ tail_words sbi ((a - meta_start_virt sbi) / 4096))) as [Hb'|Hno]; [by eapply Htl|].
      apply Hun; [done|]. intros b' Hb'. exfalso. apply Hno. by rewrite (tail_page b').
    + destruct Hnp as (Hb & Hn & [[Hbad _]|(_ & new & Hpa & Hlc)]); [unfold log_block in Hb; lia|].
      exists b, 0, new, (b :: new). rewrite Z.add_0_r. split; [done|]. split; [done|].
      assert (Hfresh : forall y, y ∈ b :: new -> y ∉ b0 :: rest).
      { intros y Hy Hin. rewrite Forall_forall in Hus. apply (Hus y Hin). by apply Hpa. }
      split.
      * unfold LOG_BLOCK_TAIL. split_and!; [done|done|lia].
      * right. split_and!; [done|done|by apply goto_jumps].
      * exact Hun.
      * rewrite app_comm_cons, Epre, <- app_assoc. cbn [app].
        eapply chain_link; [by rewrite <- Epre| |].
        -- intros b' Hb'. assert (Hin : b' ∈ b0 :: rest) by (rewrite Epre; set_solver).
           apply cur_untouched, Hun; [by apply nx_not_entry|].
           intros b2 Hb2. pose proof (tails_disjoint sbi _ _ _ (nx_tail sbi b') Hb2) as <-.
           split; [|rewrite Forall_forall in Hus; by apply Hus].
           intros ->. rewrite Epre in Hnd. apply NoDup_app in Hnd as (_ & Hnd & _). by apply (Hnd c); [|set_solver].
        -- rewrite Hn. eapply log_chain_pages; [exact Hlc|done].
      * apply Forall_forall. intros y Hy. by eapply log_chain_blocks.
      * rewrite app_comm_cons. apply NoDup_app. split; [done|]. split; [|apply Hpa].
        intros y Hy Hy'. by apply (Hfresh y).
      * rewrite app_comm_cons. apply Forall_app. split; apply Forall_forall; intros y Hy;
          rewrite (pa_free _ _ _ Hpa); [|tauto]. intros [Hf _]. rewrite Forall_forall in Hus. by apply (Hus y).
      * apply Forall_forall. apply Hpa.
      * done.
      * intros meta i y. apply Hpa.
      * intros y. rewrite (pa_free _ _ _ Hpa). naive_solver.
  - destruct Hnext as [Hn Hnext]. assert (Hb : log_block b).
    { rewrite Forall_forall in Hbl. apply Hbl. rewrite Epre. set_solver. }
    destruct (append_head_next sbi G fuel this_cpu pi pic tail size c x st m Hpos Hc Hxr Hsz b false)
      as (t & E & Htl & Hg & Hun); [lia|done|done|]. rewrite (entry_word sbi G) in Hun by done.
    exists (b * 4096), st, t. split; [exact E|]. split; [done|]. right.
    exists b, 0, post, []. rewrite Z.add_0_r. split; [done|]. split; [done|].
    split; rewrite ?app_nil_r; try done.
    + unfold LOG_BLOCK_TAIL. split_and!; [done|done|lia].
    + right. split_and!; [done|done|by apply goto_jumps].
    + intros a Ha _. by apply Hun.
    + eapply chain_keep; [exact Hch|]. intros b' _. apply cur_untouched, (Htl b'), nx_tail.
Qed.
End append.

(** ** Putting a write entry there *)

Section write.
Context {RB : RbOps} {KM : KmemOps} {CR : CrcOps} {MP : ModParams}.
Context {RBL : RbLaws} {KML : KmemLaws}.
Context (sbi : nova_sb_info) (G : log_geometry sbi) (Hmc : metadata_csum = false).

Definition write_acts (a : Z) (data : list Z) : list pact :=
  store_acts a (replicate 8 0) ++ store_acts a data ++ flush_acts a 64.

Lemma write_acts_run v i_flags a data m :
  (clear_entry a 64;; nova_update_log_entry sbi v i_flags a (write_info data)) m = ((), write_acts a data).
Proof.
  unfold write_acts. eapply bind_run; [done|]. cbn [nova_update_log_entry write_info li_type li_inplace li_data].
  eapply bind_run; [done|]. apply flush_only_run.
Qed.

Lemma write_acts_untouched a data b :
  length data = 8%nat -> b < a \/ a + 64 <= b -> untouched b (write_acts a data).
Proof.
  intros Hl Hb. unfold write_acts. apply untouched_app. split; [by apply (store_acts_within a (replicate 8 0))|].
  apply untouched_app. split; [|apply flush_acts_untouched].
  apply (store_acts_within a data). by rewrite Hl.
Qed.

Lemma write_acts_words a data m :
  length data = 8%nat -> words (exec (write_acts a data) m) a 8 = data.
Proof.
  intros Hl. unfold write_acts. rewrite !exec_app. rewrite words_untouched; [|intros; apply flush_acts_untouched].
  rewrite <- Hl. apply words_store.
Qed.

Lemma count_entry_run b x m :
  log_block b -> 0 <= x < 4096 ->
  exists t, nova_inc_page_num_entries sbi (b * 4096 + x) m = ((), t)
    /\ forall a, a <> cn sbi b -> untouched a t.
Proof.
  intros Hb Hx. unfold nova_inc_page_num_entries. rewrite log_page_val by done.
  eexists. split.
  - rewrite bind_load. eapply bind_run; [unfold store32_hi; rewrite bind_load; done|].
    apply flush_only_run.
  - intros a Ha. apply untouched_app. split; [|apply flush_acts_untouched].
    constructor; [|constructor]. cbn. intros [= E]. by apply Ha.
Qed.

Lemma end_mark_run a m : a mod 8 = 0 -> exists v, store8 a 0 m = ((), [Store a v]).
Proof.
  intros Ha. unfold store8. fold (word_of a). rewrite word_of_val, Ha, Z.sub_0_r, bind_load. by eexists.
Qed.

(** The entry, its page's counter and the mark behind it. *)
Lemma put_write_run v i_flags data b x m :
  length data = 8%nat -> log_block b -> 0 <= x -> x mod 8 = 0 -> x + 64 <= LOG_BLOCK_TAIL ->
  exists t1 t2 t3,
    (clear_entry (meta_addr sbi (b * 4096 + x)) 64;;
     nova_update_log_entry sbi v i_flags (meta_addr sbi (b * 4096 + x)) (write_info data)) m = ((), t1)
    /\ nova_inc_page_num_entries sbi (b * 4096 + x) (exec t1 m) = ((), t2)
    /\ store8 (meta_addr sbi (u64 (b * 4096 + x + 64))) 0 (exec t2 (exec t1 m)) = ((), t3)
    /\ (forall a, a < addr_of sbi b x \/ addr_of sbi b x + 72 <= a -> a <> cn sbi b -> untouched a (t1 ++ t2 ++ t3))
    /\ words (exec (t1 ++ t2 ++ t3) m) (addr_of sbi b x) 8 = data.
Proof.
  intros Hlen Hb Hx Hx8 Hfit. unfold LOG_BLOCK_TAIL in Hfit.
  assert (Ea : meta_addr sbi (b * 4096 + x) = addr_of sbi b x) by (apply pos_addr; [done|done|lia]).
  assert (Ea2 : meta_addr sbi (u64 (b * 4096 + x + 64)) = addr_of sbi b x + 64).
  { unfold log_block in Hb. rewrite u64_small by lia. rewrite <- Z.add_assoc, pos_addr by (done || lia).
    unfold addr_of. lia. }
  assert (Hal : (addr_of sbi b x + 64) mod 8 = 0).
  { pose proof (addr_aligned sbi G b x Hx8) as H. rewrite Z.add_mod, H by lia. done. }
  set (t1 := write_acts (addr_of sbi b x) data).
  destruct (count_entry_run b x (exec t1 m) Hb ltac:(lia)) as (t2 & E2 & H2).
  destruct (end_mark_run (addr_of sbi b x + 64) (exec t2 (exec t1 m)) Hal) as [w E3].
  exists t1, t2, [Store (addr_of sbi b x + 64) w]. rewrite Ea, Ea2.
  split_and!; [apply write_acts_run|exact E2|exact E3| |].
  - intros a Ha Hcn. apply untouched_app. split; [apply write_acts_untouched; [done|lia]|].
    apply untouched_app. split; [by apply H2|]. constructor; [|constructor]. cbn. intros [= E]. lia.
  - rewrite exec_app, words_untouched; [by apply write_acts_words|]. intros i Hi. apply untouched_app. split.
    + apply H2. unfold addr_of, cn, LOG_BLOCK_TAIL. lia.
    + constructor; [|constructor]. cbn. intros [= E]. lia.
Qed.
End write.
