(* ===== verification/LogWrite.v ===== *)
(** The append of a write ([nova_append_file_write_entry]): a reader of the log
    reads the entries that were there and then the new one, and the file index
    is what the log says. *)

From S2P Require Import Prelude.
From S2P Require Import Kernel.
From S2P Require Import Checksum.
From S2P Require Import RangeTree.
From S2P Require Import Layout.
From S2P Require Import FreeList.
From S2P Require Import Balloc.
From S2P Require Import BallocSpec.
From S2P Require Import Pmem.
From S2P Require Import PmemSpec.
From S2P Require Import Journal.
From S2P Require Import InodeLog.
From S2P Require Import InodeLogSpec.
From S2P Require Import InodeLogOps.
From S2P Require Import DataGuard.
From S2P Require Import Replica.
From S2P Require Import Recovery.
From S2P Require Import RecoverySpec.
From S2P Require Import FileScanSpec.
From S2P Require Import FileLogSpec.
From S2P Require Import FileIndex.
From S2P Require Import FileIndexSpec.
From S2P Require Import FileAssign.
From S2P Require Import Header.
From S2P Require Import LogEntry.
From S2P Require Import LogPath.
From S2P Require Import LogEntrySpec.
From S2P Require Import LogAppend.

(** ** The log after an entry was put behind its end *)

Lemma land_longer sbi m added p b post :
  jumps sbi m (pos_page p) (pos_off p) = true -> pos_post p ++ added = b :: post ->
  land_at sbi m (longer added p) = Some (b, 0, post).
Proof. destruct p as [[c y] po]. cbn. by intros -> ->. Qed.

Section grown.
Context {RB : RbOps} {KM : KmemOps} {CR : CrcOps} {MP : ModParams}.
Context {RBL : RbLaws} {KML : KmemLaws}.
Context (sbi : nova_sb_info) (G : log_geometry sbi) (Hmc : metadata_csum = false).
Context (fuel : nat).
Context (m : mem) (ls : list free_list) (b0 : Z) (rest : list Z) (es : list log_item) (p : log_pos).
Context (Hl : log_at sbi m ls b0 rest es p).
Context (size b x : Z) (post added : list Z) (ls' : list free_list) (t : list pact).
Context (Hp : placed sbi fuel m ls b0 rest p size b x post added ls' t).
(** The rest of the trace writes the entry, the word behind it and the counter
    of its page. *)
Context (u : list pact).
Context (Hu : forall a, a < addr_of sbi b x \/ addr_of sbi b x + size + 8 <= a -> a <> cn sbi b -> untouched a u).

Lemma placed_end : exists pre, b0 :: rest ++ added = pre ++ b :: post /\ (b = pos_page p \/ b ∈ pos_post p ++ added).
Proof.
  destruct (log_at_end _ _ _ _ _ _ _ Hl) as [pre E]. unfold pos_pages in E.
  destruct (pc_land _ _ _ _ _ _ _ _ _ _ _ _ _ _ Hp) as [(E1 & E2 & _)|(E1 & _)].
  - exists pre. subst added. rewrite app_nil_r. unfold longer in E1. rewrite app_nil_r in E1.
    destruct p as [[c y] po]. cbn in *. injection E1 as -> -> ->. split; [exact E|by left].
  - exists (pre ++ [pos_page p]). split; [|right; rewrite E1; set_solver].
    rewrite app_comm_cons, E, <- !app_assoc. cbn [app]. by rewrite E1.
Qed.

Lemma grown_untouched b' y :
  before (b0 :: rest) p b' y -> untouched (addr_of sbi b' y) (t ++ u).
Proof.
  intros (Hin & Hpost & Hy & Hlt). pose proof (pc_nodup _ _ _ _ _ _ _ _ _ _ _ _ _ _ Hp) as Hnd.
  destruct (pc_room _ _ _ _ _ _ _ _ _ _ _ _ _ _ Hp) as (Hx0 & Hx8 & Hfit). unfold LOG_BLOCK_TAIL in *.
  destruct (la_end _ _ _ _ _ _ _ Hl) as [He _]. unfold LOG_BLOCK_TAIL in He.
  apply untouched_app. split.
  - apply (pc_only _ _ _ _ _ _ _ _ _ _ _ _ _ _ Hp).
    + intros E. apply addr_inj in E as [-> ->]; lia.
    + intros b2 Hb2. exfalso. apply (tail_page sbi) in Hb2 as Hpg.
      revert Hb2. unfold tail_words, cn, nx, addr_of, base, off_next_page, LOG_BLOCK_TAIL.
      rewrite !elem_of_cons, elem_of_nil. lia.
  - apply Hu; [|unfold addr_of, cn, base, LOG_BLOCK_TAIL; lia].
    assert (Hcase : b' <> b \/ (b' = b /\ y < x)).
    { destruct (pc_land _ _ _ _ _ _ _ _ _ _ _ _ _ _ Hp) as [(E1 & _)|(E1 & _)].
      - destruct p as [[c z] po]. unfold longer in E1. cbn in *. injection E1 as -> -> _.
        destruct (decide (b' = b)); [right; auto|by left].
      - left. intros ->. destruct (log_at_end _ _ _ _ _ _ _ Hl) as [pre E]. unfold pos_pages in E.
        rewrite app_comm_cons, E, <- app_assoc in Hnd. cbn [app] in Hnd. rewrite E1 in Hnd.
        rewrite E in Hin. apply elem_of_app in Hin as [Hin|Hin].
        + apply NoDup_app in Hnd as (_ & Hnd & _). apply (Hnd b); [done|set_solver].
        + apply elem_of_cons in Hin as [->|Hin]; [|done].
          apply NoDup_app in Hnd as (_ & _ & Hnd). apply NoDup_cons in Hnd as [Hnd _]. set_solver. }
    unfold addr_of, base, LOG_BLOCK_TAIL in *. destruct Hcase as [Hne|[-> Hlt']]; [|left; lia].
    assert (b' < b \/ b < b') as [?|?] by lia; [left|right]; lia.
Qed.

Lemma grown_cur b' y :
  before (b0 :: rest) p b' y -> cur (exec (t ++ u) m) (addr_of sbi b' y) = cur m (addr_of sbi b' y).
Proof. intros Hb. by apply cur_untouched, grown_untouched. Qed.

Lemma grown_old_path : log_path sbi (exec (t ++ u) m) (b0, 0, rest ++ added) es (longer added p).
Proof.
  apply (path_frame sbi m (exec (t ++ u) m) added (b0, 0, rest) es p).
  - apply Hl.
  - apply Hl.
  - done.
  - intros b' y Hb. unfold type_at. by rewrite grown_cur.
Qed.

Lemma grown_kept : Forall (item_kept sbi m (exec (t ++ u) m)) es.
Proof.
  eapply (kept_before sbi); [apply Hl|apply Hl|done|]. intros b' y. apply grown_cur.
Qed.

(** What is outside the page of the entry is as [t] left it. *)
Lemma rest_elsewhere b' y : b' <> b -> 0 <= y < 4096 -> untouched (addr_of sbi b' y) u.
Proof.
  intros Hb Hy. destruct (pc_room _ _ _ _ _ _ _ _ _ _ _ _ _ _ Hp) as (Hx0 & Hx8 & Hfit).
  unfold LOG_BLOCK_TAIL in Hfit. apply Hu; unfold cn, addr_of, base, LOG_BLOCK_TAIL; [|lia].
  assert (b' < b \/ b < b') as [?|?] by lia; [left|right]; lia.
Qed.

(** Nothing outside the pages of the log and the free blocks changes. *)
Lemma grown_frame c y :
  size <= 64 -> 0 <= y < 4096 -> c ∉ b0 :: rest -> ~ free_block ls true c -> untouched (addr_of sbi c y) (t ++ u).
Proof.
  intros Hsz Hy Hc Hf. destruct (log_at_end _ _ _ _ _ _ _ Hl) as [pre E].
  assert (Hcp : c <> pos_page p) by (intros ->; apply Hc; rewrite E; unfold pos_pages; set_solver).
  destruct (la_end _ _ _ _ _ _ _ Hl) as [He _]. unfold LOG_BLOCK_TAIL in He.
  destruct (pc_room _ _ _ _ _ _ _ _ _ _ _ _ _ _ Hp) as (Hx0 & Hx8 & Hfit).
  apply untouched_app. split.
  - apply (pc_only _ _ _ _ _ _ _ _ _ _ _ _ _ _ Hp).
    + intros E'. apply addr_inj in E' as [-> _]; [done|done|lia].
    + intros b' Hb'. apply tail_page in Hb'. unfold addr_of, base in Hb'.
      replace (meta_start_virt sbi + c * 4096 + y - meta_start_virt sbi) with (y + c * 4096) in Hb' by lia.
      rewrite Z.div_add, (Z.div_small y) in Hb' by lia. cbn in Hb'. by subst b'.
  - assert (Hcb : c <> b).
    { intros ->. destruct placed_end as (pre' & E' & _).
      assert (Hin : b ∈ b0 :: rest ++ added) by (rewrite E'; set_solver).
      rewrite app_comm_cons in Hin. apply elem_of_app in Hin as [Hin|Hin]; [done|].
      pose proof (pc_new _ _ _ _ _ _ _ _ _ _ _ _ _ _ Hp) as Hnew. rewrite Forall_forall in Hnew.
      by apply Hf, Hnew. }
    by apply rest_elsewhere.
Qed.

Lemma grown_land :
  size <= 4064 -> 32 <= size -> type_at sbi (exec (t ++ u) m) b x <> 7 ->
  land_at sbi (exec (t ++ u) m) (longer added p) = Some (b, x, post).
Proof.
  intros Hs1 Hs2 Hty. destruct (pc_room _ _ _ _ _ _ _ _ _ _ _ _ _ _ Hp) as (Hx0 & Hx8 & Hfit).
  destruct (pc_land _ _ _ _ _ _ _ _ _ _ _ _ _ _ Hp) as [(E & _)|(E & Ex & Hj)].
  - rewrite E. unfold land_at, jumps. rewrite (proj2 (Z.ltb_ge _ _)), (proj2 (Z.eqb_neq _ _)) by (done || lia). done.
  - assert (Hne : pos_page p <> b).
    { destruct (log_at_end _ _ _ _ _ _ _ Hl) as [pre Epre]. unfold pos_pages in Epre.
      pose proof (pc_nodup _ _ _ _ _ _ _ _ _ _ _ _ _ _ Hp) as Hnd.
      rewrite app_comm_cons, Epre, <- app_assoc in Hnd. cbn [app] in Hnd. rewrite E in Hnd.
      apply NoDup_app in Hnd as (_ & _ & Hnd). apply NoDup_cons in Hnd as [Hnd _]. set_solver. }
    destruct (la_end _ _ _ _ _ _ _ Hl) as [He _]. unfold LOG_BLOCK_TAIL in He.
    assert (Hj' : jumps sbi (exec (t ++ u) m) (pos_page p) (pos_off p) = true).
    { rewrite <- Hj. unfold jumps, type_at. rewrite exec_app.
      rewrite (cur_untouched _ u); [done|]. apply rest_elsewhere; [done|lia]. }
    rewrite Ex. by apply land_longer.
Qed.

Lemma grown_chain : page_chain sbi (exec (t ++ u) m) (b0 * 4096) (b0 :: rest ++ added).
Proof.
  destruct (pc_room _ _ _ _ _ _ _ _ _ _ _ _ _ _ Hp) as (Hx0 & Hx8 & Hfit). unfold LOG_BLOCK_TAIL in Hfit.
  rewrite exec_app. eapply (chain_keep sbi); [apply Hp|]. intros b' _. apply cur_untouched.
  apply Hu; unfold nx, cn, addr_of, base, off_next_page, LOG_BLOCK_TAIL; [|lia]. lia.
Qed.

(** An entry of type [ty] was put there. *)
Lemma grown_log ty :
  kind_at sbi (exec (t ++ u) m) b x = Some ty -> size = nova_get_log_entry_size ty ->
  log_at sbi (exec (t ++ u) m) ls' b0 (rest ++ added) (es ++ [(b, x, ty)]) (b, x + size, post).
Proof.
  intros Hk Hs. pose proof (kind_size sbi _ _ _ _ Hk) as Hz.
  destruct (pc_room _ _ _ _ _ _ _ _ _ _ _ _ _ _ Hp) as (Hx0 & Hx8 & Hfit).
  split.
  - apply grown_chain.
  - rewrite app_comm_cons. apply Forall_app. split; [apply Hl|apply Hp].
  - apply Hp.
  - apply Hp.
  - eapply path_app; [apply grown_old_path|]. econstructor; [| | |subst size; constructor].
    + apply grown_land; [lia|lia|]. intros E. unfold kind_at in Hk. by rewrite E in Hk.
    + done.
    + by rewrite <- Hs.
  - unfold pos_off. cbn. split; [lia|]. assert (size mod 8 = 0) by (by subst size; destruct ty).
    rewrite Z.add_mod, Hx8 by lia. rewrite H. done.
Qed.
End grown.

(** ** What does not move the log *)

Section kept.
Context {RB : RbOps} {KM : KmemOps} {CR : CrcOps} {MP : ModParams}.
Context {RBL : RbLaws} {KML : KmemLaws}.
Context (sbi : nova_sb_info) (G : log_geometry sbi).
Context (m : mem) (ls : list free_list) (b0 : Z) (rest : list Z) (es : list log_item) (p : log_pos).
Context (Hl : log_at sbi m ls b0 rest es p).

Lemma longer_nil q : longer [] q = q.
Proof. destruct q as [[b x] post]. unfold longer. cbn. by rewrite app_nil_r. Qed.

(** A reader sees the types before the end and the links of the pages. *)
Lemma log_at_frame m' ls' :
  (forall b y, before (b0 :: rest) p b y -> type_at sbi m' b y = type_at sbi m b y) ->
  (forall b, cur m' (nx sbi b) = cur m (nx sbi b)) ->
  (forall b, free_block ls' true b -> free_block ls true b) ->
  log_at sbi m' ls' b0 rest es p.
Proof.
  intros Ht Hn Hf. destruct Hl as [Hc Hb Hd Hus Hp He]. split; try done.
  - eapply (chain_keep sbi); [exact Hc|]. intros b _. apply Hn.
  - apply Forall_forall. intros b Hin Hfr. rewrite Forall_forall in Hus. apply (Hus b Hin). by apply Hf.
  - rewrite <- (longer_nil p), <- (longer_nil (b0, 0, rest)). eapply path_frame; [exact Hp|exact Hd|done|exact Ht].
Qed.

(** The mark of a full page, where no page could be added. *)
Lemma log_at_full t :
  (forall a, a <> addr_of sbi (pos_page p) (pos_off p) -> untouched a t) ->
  log_at sbi (exec t m) ls b0 rest es p /\ Forall (item_kept sbi m (exec t m)) es.
Proof.
  intros Hu. destruct (la_end _ _ _ _ _ _ _ Hl) as [He _].
  assert (Hb : forall b y, before (b0 :: rest) p b y -> cur (exec t m) (addr_of sbi b y) = cur m (addr_of sbi b y)).
  { intros b y (_ & _ & Hy & Hlt). apply cur_untouched, Hu. intros E. unfold LOG_BLOCK_TAIL in *.
    apply addr_inj in E as [-> ->]; lia. }
  split.
  - apply log_at_frame; [intros b y Hby; unfold type_at; by rewrite Hb| |done].
    intros b. apply cur_untouched, Hu. by apply nx_not_entry.
  - eapply (kept_before sbi); [apply Hl|apply Hl|done|exact Hb].
Qed.

Lemma log_at_marks l t ls' :
  marks_only l m t -> (forall a, a ∈ l -> write_at sbi es a) ->
  (forall b, free_block ls' true b -> free_block ls true b) ->
  log_at sbi (exec t m) ls' b0 rest es p /\ Forall (item_kept sbi m (exec t m)) es.
Proof.
  intros Hk Hw Hf. split.
  - apply log_at_frame; [intros b y _; by apply (marks_type l)| |done].
    intros b. apply cur_untouched, Hk. intros Ha. destruct (Hw _ Ha) as (c & x & Hi & E).
    destruct (path_entry sbi _ _ _ _ _ _ _ (la_path _ _ _ _ _ _ _ Hl) Hi (la_nodup _ _ _ _ _ _ _ Hl) ltac:(done))
      as (_ & Hx & Hs & _). cbn in Hs. revert E. apply nx_not_entry. lia.
  - eapply (kept_marks sbi); [apply Hl|apply Hl|done|exact Hk|exact Hw].
Qed.

(** The write entries of the log keep their contents. *)
Lemma kept_went m' e : Forall (item_kept sbi m m') es -> write_at sbi es e -> went m' e = went m e.
Proof.
  intros Hk (b & x & Hi & ->). rewrite Forall_forall in Hk. apply (Hk _ Hi).
Qed.
End kept.

(** ** Appending *)

(** A write of pages to blocks that were just allocated. *)
Record new_data (m : mem) (st : file_state) (data : list Z) : Prop := {
  nd_len : length data = 8%nat;
  nd_type : u8 (nth 0 data 0) = entry_type_code FILE_WRITE;
  nd_updating : byte (nth 0 data 0) 2 = 0;
  nd_num : 0 < we_num_pages (WENTRY data) < TWO31;
  nd_pages : 0 <= we_pgoff (WENTRY data) /\ we_pgoff (WENTRY data) + we_num_pages (WENTRY data) < TWO64;
  nd_live : we_invalid_pages (WENTRY data) <> we_num_pages (WENTRY data);
  nd_blocks : exists i, in_list (fx_lists st) false i (we_blocknr (WENTRY data))
    /\ in_list (fx_lists st) false i (we_blocknr (WENTRY data) + we_num_pages (WENTRY data) - 1);
  nd_used : forall p, has_page (WENTRY data) p -> ~ free_block (fx_lists st) false (page_block (WENTRY data) p);
  nd_own : forall p e p', has_page (WENTRY data) p -> holds st e p' ->
    page_block (went m e) p' <> page_block (WENTRY data) p
}.

Section append_write.
Context {RB : RbOps} {KM : KmemOps} {CR : CrcOps} {MP : ModParams}.
Context {RBL : RbLaws} {KML : KmemLaws}.
Context (sbi : nova_sb_info) (G : log_geometry sbi) (Hmc : metadata_csum = false).
Context (Hslab : forall T, is_Some (nova_alloc_range_node T)).
Context (fuel : nat) (this_cpu : Z) (Hthis : 0 <= this_cpu) (snapshots : list Z).
Context (nomem : Z -> bool) (Hmem : forall p, nomem p = false).

(** The log and the index of a file in memory: every entry that holds pages is
    an entry of the log. *)
Record file_at (m : mem) (h : header) (b0 : Z) (rest : list Z) (es : list log_item) (p : log_pos) : Prop := {
  fa_log : log_at sbi m (fx_lists (h_file h)) b0 rest es p;
  fa_index : index_ok sbi m (h_file h);
  fa_held : forall e q, holds (h_file h) e q -> write_at sbi es e
}.

(** An append can run: the allocator is ready, the header that of a log. *)
Record append_ready (m : mem) (h : header) (up : nova_inode_update) (p : log_pos) : Prop := {
  ar_mem : mem_ok m;
  ar_lists : log_ready sbi fuel (fx_lists (h_file h));
  ar_btype : i_blk_type (h_log h) = 0;
  ar_pages : 0 < log_pages (h_log h);
  ar_extend : extension (h_log h) <= Z.of_nat fuel;
  ar_pos : append_pos (h_log h) (up_tail up) = off_of p
}.

(** The entry is in the log and the lists of the allocator are [ls']. *)
Lemma fresh_in_log m h b0 rest es p b x post added ls' t m' data :
  file_at m h b0 rest es p -> new_data m (h_file h) data ->
  placed sbi fuel m (fx_lists (h_file h)) b0 rest p 64 b x post added ls' t ->
  log_at sbi m' ls' b0 (rest ++ added) (es ++ [(b, x, FILE_WRITE)]) (b, x + 64, post) ->
  Forall (item_kept sbi m m') es -> went m' (addr_of sbi b x) = WENTRY data ->
  let st' := with_lists ls' (fx_i_blocks (h_file h)) (h_file h) in
  index_ok sbi m' st' /\ fresh_entry m' st' (addr_of sbi b x).
Proof.
  intros [Hl Hi Hh] Hd Hp Hl' Hk Hw st'.
  assert (Hwe : forall e q, holds (h_file h) e q -> went m' e = went m e).
  { intros e q Hq. eapply (kept_went sbi); [exact Hk|by eapply Hh]. }
  assert (Hfr : forall y, ~ free_block (fx_lists (h_file h)) false y -> ~ free_block ls' false y).
  { intros y Hy Hf. apply Hy. by apply (pc_free _ _ _ _ _ _ _ _ _ _ _ _ _ _ Hp). }
  destruct (pc_room _ _ _ _ _ _ _ _ _ _ _ _ _ _ Hp) as (Hx0 & Hx8 & Hfit).
  destruct Hd as [Hlen Hty Hupd Hn Hpg Hlv (i & Hb1 & Hb2) Hus Hown].
  split.
  - eapply others_index_ok; [exact Hi|apply Hp| |exact Hwe|].
    + intros j y. apply (pc_in _ _ _ _ _ _ _ _ _ _ _ _ _ _ Hp).
    + intros e q Hq. apply Hfr. by apply (io_used _ _ _ Hi e q).
  - split.
    + split; rewrite ?Hw; try done.
      * split; [|by apply (addr_aligned sbi G)].
        assert (Hb : 0 < b).
        { pose proof (la_blocks _ _ _ _ _ _ _ Hl') as Hb. rewrite Forall_forall in Hb.
          destruct (path_entry sbi _ _ _ _ b x FILE_WRITE (la_path _ _ _ _ _ _ _ Hl') ltac:(set_solver)
            (la_nodup _ _ _ _ _ _ _ Hl') ltac:(done)) as (_ & _ & _ & Hin & _).
          unfold pos_pages in Hin. cbn in Hin. apply Hb in Hin. unfold log_block in Hin. lia. }
        pose proof (lg_range _ G). unfold addr_of, base. lia.
      * exists i. split; apply (pc_in _ _ _ _ _ _ _ _ _ _ _ _ _ _ Hp); done.
    + intros e q Hq. destruct (Hh e q Hq) as (b' & x' & Hin & ->).
      apply list_elem_of_split in Hin as (es1 & es2 & ->).
      pose proof (la_path _ _ _ _ _ _ _ Hl') as Hpa. rewrite <- app_assoc in Hpa. cbn [app] in Hpa.
      pose proof (path_apart sbi _ _ _ _ _ _ _ _ b x FILE_WRITE Hpa ltac:(set_solver)
        (la_nodup _ _ _ _ _ _ _ Hl') ltac:(done)) as Hap. cbn [nova_get_log_entry_size] in Hap.
      destruct (path_entry sbi _ _ _ _ b' x' FILE_WRITE (la_path _ _ _ _ _ _ _ Hl) ltac:(set_solver)
        (la_nodup _ _ _ _ _ _ _ Hl) ltac:(done)) as (_ & Hx' & Hs' & _). cbn in Hs'.
      unfold apart, addr_of, base, LOG_BLOCK_TAIL in *. destruct Hap as [Hne|Hle].
      * assert (b < b' \/ b' < b) as [?|?] by lia; lia.
      * destruct (decide (b = b')) as [->|Hne]; [lia|]. assert (b < b' \/ b' < b) as [?|?] by lia; lia.
    + rewrite Hw. intros q Hq. by apply Hfr, Hus.
    + rewrite Hw. intros q e q' Hq Hq'. rewrite (Hwe e q' Hq'). by apply Hown.
Qed.

(** The header after the lists of the allocator changed. *)
Definition header_lists (h : header) (ls : list free_list) : header :=
  set_h_file (set_lists ls (h_file h)) h.

Abbreviation append_log_entry := (nova_append_log_entry sbi fuel this_cpu snapshots nomem).

(** Up to the index: the entry is put, counted and followed by an end mark. *)
Lemma put_run pi pic v m h b0 rest es p up data :
  log_at sbi m (fx_lists (h_file h)) b0 rest es p -> append_ready m h up p -> length data = 8%nat ->
  (exists t, append_log_entry pi pic v (write_info data) up h m = (Some ((- ENOSPC, up, None), h), t)
     /\ pos_post p = [] /\ LOG_BLOCK_TAIL < pos_off p + 64
     /\ forall a, a <> addr_of sbi (pos_page p) (pos_off p) -> untouched a t)
  \/ exists b x post added ls' t u,
     placed sbi fuel m (fx_lists (h_file h)) b0 rest p 64 b x post added ls' t
     /\ (forall a, a < addr_of sbi b x \/ addr_of sbi b x + 72 <= a -> a <> cn sbi b -> untouched a u)
     /\ words (exec u (exec t m)) (addr_of sbi b x) 8 = data
     /\ forall st' t4 r,
        nova_assign_write_entry sbi snapshots 0 nomem (addr_of sbi b x) data true
          (h_file (header_lists h ls')) (exec u (exec t m)) = (Some (r, st'), t4) ->
        append_log_entry pi pic v (write_info data) up h m
        = (Some ((0, InodeUpdate (b * 4096 + x + 64) (up_alter_tail up) (b * 4096 + x) (up_alter_entry up),
                  Some (b * 4096 + x)), set_h_file st' h), t ++ u ++ t4).
Proof.
  intros Hl [Hok Hls Hbt Hlp Hex Hpos] Hlen.
  destruct (append_head_run sbi G Hmc Hslab fuel this_cpu Hthis m es b0 rest p
    (LState (fx_lists (h_file h)) (h_log h)) pi pic (up_tail up) 64 Hl Hpos ltac:(done) ltac:(done) Hok Hls Hbt Hlp Hex)
    as (r & st' & t & Hrun & Hsih & [(-> & -> & Hpost & Hfull & Hun)|(b & x & post & added & -> & Hb & Hp)]).
  - left. exists t. split; [|done].
    unfold nova_append_log_entry. rewrite <- (app_nil_r t). eapply sm_run.
    + unfold put_entry. rewrite <- (app_nil_r t). eapply sm_run; [eapply on_log_run; exact Hrun|done].
    + cbn. by destruct h as [[] ].
  - right. destruct (pc_room _ _ _ _ _ _ _ _ _ _ _ _ _ _ Hp) as (Hx0 & Hx8 & Hfit).
    assert (Hnz : b * 4096 + x <> 0) by (unfold log_block in Hb; lia).
    destruct (put_write_run sbi G v (h_i_flags (header_lists h (fls st'))) data b x (exec t m) Hlen Hb Hx0 Hx8 Hfit)
      as (t1 & t2 & t3 & E1 & E2 & E3 & Hout & Hws).
    exists b, x, post, added, (fls st'), t, (t1 ++ t2 ++ t3). split_and!; [done|done|done|].
    intros st2 t4 r Has. rewrite !exec_app in Has, Hws.
    assert (Ea : meta_addr sbi (b * 4096 + x) = addr_of sbi b x)
      by (apply pos_addr; [done|done|unfold LOG_BLOCK_TAIL in *; lia]).
    unfold nova_append_log_entry.
    replace (t ++ (t1 ++ t2 ++ t3) ++ t4) with ((t ++ t1) ++ (t2 ++ (t3 ++ t4))) by (by rewrite <- !app_assoc).
    eapply sm_run.
    + unfold put_entry. eapply sm_run.
      * eapply on_log_run. exact Hrun.
      * rewrite same_log by done. cbn [fst snd]. rewrite (proj2 (Z.eqb_neq _ _) Hnz).
        eapply (sm_run _ _ _ _ _ _ [] _ t1); [done|]. cbv zeta. rewrite <- (app_nil_r t1).
        eapply sm_run; [by apply mem_op_run|]. done.
    + rewrite exec_app. cbv beta. rewrite (proj2 (Z.eqb_neq _ _) Hnz).
      eapply sm_run; [apply mem_op_run; exact E2|]. cbv beta zeta.
      change (nova_get_log_entry_size FILE_WRITE) with 64.
      eapply sm_run; [apply mem_op_run; exact E3|]. cbv beta. rewrite Hmc.
      eapply (sm_run _ _ _ _ _ _ [] _ t4); [done|]. cbv beta. rewrite (proj2 (Z.eqb_neq _ _) Hnz).
      cbn [li_type write_info]. rewrite decide_True by done. rewrite <- (app_nil_r t4). eapply sm_run.
      * rewrite Ea. eapply (sm_run _ _ _ _ _ _ [] _ t4); [apply mem_words_run|]. cbn [exec fold_left].
        change ENTRY_WORDS with 8%nat. rewrite Hws. rewrite <- (app_nil_r t4). eapply sm_run; [|].
        { unfold assign_entry. eapply (sm_run _ _ _ _ _ _ [] _ t4); [done|]. cbv beta. cbn [exec fold_left].
          change (h_log (set_h_file _ h)) with (h_log h).
          rewrite Hbt. apply on_file_run. exact Has. }
        done.
      * unfold LOG_BLOCK_TAIL, log_block in *. rewrite u64_small by lia. by destruct h.
Qed.

(** The file after a write was appended at [(b, x)], its pages read from the
    new entry. *)
Record appended (m : mem) (h : header) (b0 : Z) (rest : list Z) (es : list log_item) (up : nova_inode_update)
    (data : list Z) (t : list pact) (m' : mem) (h' : header) (up' : nova_inode_update) (b x : Z) (post added : list Z)
    : Prop := {
  ap_file : file_at m' h' b0 (rest ++ added) (es ++ [(b, x, FILE_WRITE)]) (b, x + 64, post);
  ap_update : up' = InodeUpdate (b * 4096 + x + 64) (up_alter_tail up) (b * 4096 + x) (up_alter_entry up);
  ap_kept : Forall (item_kept sbi m m') es;
  ap_entry : went m' (addr_of sbi b x) = WENTRY data;
  ap_updating : byte (cur m' (addr_of sbi b x)) 2 = 0;
  ap_tree : forall q, fx_tree (h_file h') !! q
    = if decide (has_page (WENTRY data) q) then Some (addr_of sbi b x) else fx_tree (h_file h) !! q;
  ap_frame : forall c y, 0 <= y < 4096 -> c ∉ b0 :: rest -> ~ free_block (fx_lists (h_file h)) true c ->
    untouched (addr_of sbi c y) t;
  ap_header : h' = set_h_file (h_file h') h;
  ap_pages : Forall (fun y => free_block (fx_lists (h_file h)) true y) added
}.

Lemma append_write_run pi pic v m h b0 rest es p up data :
  file_at m h b0 rest es p -> append_ready m h up p -> new_data m (h_file h) data ->
  exists h' t, 
    (append_log_entry pi pic v (write_info data) up h m = (Some ((- ENOSPC, up, None), h), t)
       /\ h' = h /\ pos_post p = [] /\ LOG_BLOCK_TAIL < pos_off p + 64
       /\ file_at (exec t m) h b0 rest es p /\ Forall (item_kept sbi m (exec t m)) es)
    \/ exists up' b x post added,
        append_log_entry pi pic v (write_info data) up h m
        = (Some ((0, up', Some (b * 4096 + x)), h'), t)
        /\ appended m h b0 rest es up data t (exec t m) h' up' b x post added.
Proof.
  intros Hf Har Hd. pose proof Hf as [Hl Hi Hh].
  destruct (put_run pi pic v m h b0 rest es p up data Hl Har (nd_len _ _ _ Hd))
    as [(t & Hrun & Hpost & Hfull & Hun)|(b & x & post & added & ls' & t & u & Hp & Hu & Hws & Hrun)].
  - exists h, t. left. destruct (log_at_full sbi m _ _ _ _ _ Hl t Hun) as [Hl' Hk].
    split_and!; try done. split; [done| |done].
    assert (Est : h_file h = with_lists (fx_lists (h_file h)) (fx_i_blocks (h_file h)) (h_file h)) by by destruct (h_file h).
    rewrite Est. eapply others_index_ok; [exact Hi|apply Hi|done| |apply Hi].
    intros e q Hq. eapply (kept_went sbi); [exact Hk|by eapply Hh].
  - set (m1 := exec (t ++ u) m). set (a := addr_of sbi b x). rewrite <- !exec_app in Hws, Hrun. fold m1 a in Hws, Hrun.
    assert (Hw1 : went m1 a = WENTRY data) by (unfold went; change ENTRY_WORDS with 8%nat; by rewrite Hws).
    assert (Hu64 : forall c, c < a \/ a + 64 + 8 <= c -> c <> cn sbi b -> untouched c u).
    { intros c Hc. apply Hu. unfold a in Hc. lia. }
    assert (Hk1 : Forall (item_kept sbi m m1) es) by (by eapply (grown_kept sbi)).
    assert (Hl1 : log_at sbi m1 ls' b0 (rest ++ added) (es ++ [(b, x, FILE_WRITE)]) (b, x + 64, post)).
    { eapply (grown_log sbi G Hmc); [exact Hl|exact Hp|exact Hu64| |done].
      unfold kind_at, type_at. fold m1 a. rewrite <- (entry_word_0 m1 a), Hws, (nd_type _ _ _ Hd). done. }
    destruct (fresh_in_log m h b0 rest es p b x post added ls' t m1 data Hf Hd Hp Hl1 Hk1 Hw1) as [Hi1 Hfr].
    set (st1 := with_lists ls' _ (h_file h)) in Hi1, Hfr.
    destruct (assign_run sbi Hmc snapshots nomem Hmem Hslab m1 st1 a Hi1 Hfr) as (st2 & t4 & Hr & Hmk & Has & Hi2).
    change ENTRY_WORDS with 8%nat in Hr. rewrite Hws in Hr.
    exists (set_h_file st2 h), (t ++ u ++ t4). right. do 5 eexists. split; [by eapply Hrun|].
    rewrite app_assoc, exec_app. fold m1.
    assert (Hmw : forall a', a' ∈ oe_entry <$> fx_olds st1 -> write_at sbi es a').
    { intros a' Ha'. destruct (elem_deferred_entry a' _ (io_runs _ _ _ Hi) Ha') as (q & Hq).
      apply (Hh a' q). by right. }
    assert (Hsub : forall a', write_at sbi es a' -> write_at sbi (es ++ [(b, x, FILE_WRITE)]) a').
    { intros a' (b' & x' & Hin & ->). exists b', x'. split; [set_solver|done]. }
    destruct (log_at_marks sbi m1 ls' b0 _ _ _ Hl1 _ t4 (fx_lists st2) Hmk
      (fun a' Ha' => Hsub a' (Hmw a' Ha'))) as [Hl2 Hk2].
    { intros y [Hy|[Hy _]]%(bf_free _ _ _ _ (as_freed _ _ _ _ _ Has)); [exact Hy|done]. }
    apply Forall_app in Hk2 as [Hk2 Hk2n]. apply Forall_inv in Hk2n. destruct Hk2n as [Hk2n Hk2u]. fold a in Hk2n, Hk2u.
    split; [split| | | | | | | |]; try done.
    + intros e q Hq. destruct (assigned_holds sbi _ _ _ _ _ _ Has Hq) as [[-> _]|Ht].
      * exists b, x. split; [set_solver|done].
      * apply Hsub, (Hh e q). by left.
    + eapply Forall_impl; [apply Forall_and; exact (conj Hk1 Hk2)|]. intros i [H1 H2].
      by apply (item_kept_trans sbi m m1).
    + etransitivity; [exact Hk2n|exact Hw1].
    + etransitivity; [exact Hk2u|]. rewrite <- (entry_word_0 m1 a), Hws. apply Hd.
    + intros q. pose proof (as_tree _ _ _ _ _ Has q) as Hq. by rewrite Hw1 in Hq.
    + intros c y Hy Hc Hfc. apply untouched_app. split.
      * eapply (grown_frame sbi G Hmc); [exact Hl|exact Hp|exact Hu64|done..].
      * apply Hmk. intros Hin. destruct (Hmw _ Hin) as (b' & x' & Hi' & E).
        destruct (path_entry sbi _ _ _ _ _ _ _ (la_path _ _ _ _ _ _ _ Hl) Hi' (la_nodup _ _ _ _ _ _ _ Hl) ltac:(done))
          as (_ & Hx' & Hs' & Hb' & _). cbn in Hs'. unfold LOG_BLOCK_TAIL in Hs'.
        apply addr_inj in E as [-> _]; [done|done|lia].
    + apply Hp.
Qed.
End append_write.
