(* ===== verification/RebuildRun.v ===== *)
(** Rebuilding the header of a file: the reading of its inode, the walk, the
    stores to the inode and the count of the pages; what the second walk, over
    the last transaction, does to the index. *)

From S2P Require Import Prelude.
From S2P Require Import Kernel.
From S2P Require Import Checksum.
From S2P Require Import RangeTree.
From S2P Require Import Layout.
From S2P Require Import FreeList.
From S2P Require Import Balloc.
From S2P Require Import BallocSpec.
From S2P Require Import Pmem.
From S2P Require Import PmemSpec.
From S2P Require Import Journal.
From S2P Require Import InodeLog.
From S2P Require Import InodeLogSpec.
From S2P Require Import InodeLogOps.
From S2P Require Import InodeTable.
From S2P Require Import DataGuard.
From S2P Require Import DataGuardSpec.
From S2P Require Import Replica.
From S2P Require Import Recovery.
From S2P Require Import RecoverySpec.
From S2P Require Import FileScanSpec.
From S2P Require Import FileLogSpec.
From S2P Require Import FileIndex.
From S2P Require Import FileIndexSpec.
From S2P Require Import FileAssign.
From S2P Require Import FileTruncate.
From S2P Require Import Header.
From S2P Require Import LogEntry.
From S2P Require Import LogPath.
From S2P Require Import LogEntrySpec.
From S2P Require Import LogAppend.
From S2P Require Import Rebuild.
From S2P Require Import RebuildSpec.

(** ** Where a computation stores *)

Definition stores_in (P : Z -> Prop) {A} (x : PM A) : Prop := forall m a, ~ P a -> untouched a (x m).2.

Lemma stores_bind P {A B} (x : PM A) (f : A -> PM B) :
  stores_in P x -> (forall a, stores_in P (f a)) -> stores_in P (x ≫= f).
Proof.
  intros Hx Hf m b Hb. unfold mbind, pm_bind. specialize (Hx m b Hb). destruct (x m) as [a t1].
  specialize (Hf a (exec t1 m) b Hb). destruct (f a (exec t1 m)) as [c t2]. cbn in *. by apply untouched_app.
Qed.
Lemma stores_ret P {A} (a : A) : stores_in P (mret a).
Proof. intros m b _. constructor. Qed.
Lemma stores_load P a : stores_in P (load a).
Proof. intros m b _. constructor. Qed.
Lemma stores_64 (P : Z -> Prop) a v : P a -> stores_in P (store64 a v).
Proof. intros Ha m b Hb. constructor; [|constructor]. cbn. intros [= ->]. done. Qed.
Lemma stores_lo (P : Z -> Prop) a v : P a -> stores_in P (store32_lo a v).
Proof. intros Ha. apply stores_bind; [apply stores_load|]. intros w. by apply stores_64. Qed.
Lemma stores_hi (P : Z -> Prop) a v : P a -> stores_in P (store32_hi a v).
Proof. intros Ha. apply stores_bind; [apply stores_load|]. intros w. by apply stores_64. Qed.
Lemma stores_16 (P : Z -> Prop) a v : P (Z.land a (Z.lnot 7)) -> stores_in P (store16 a v).
Proof. intros Ha. apply stores_bind; [apply stores_load|]. intros w. by apply stores_64. Qed.
Lemma stores_flush P a n f : stores_in P (nova_flush_buffer a n f).
Proof.
  intros m b _. unfold nova_flush_buffer. apply (stores_bind (fun _ => False)); [| |tauto].
  - intros m' a' _. apply flush_loop_stores.
  - intros _. destruct f; [|apply stores_ret]. intros m' a' _. constructor; [done|constructor].
Qed.

(** One step through a sequence of stores. *)
Ltac stores_step :=
  lazymatch goal with
  | |- stores_in _ (store64 _ _) => apply stores_64
  | |- stores_in _ (store32_lo _ _) => apply stores_lo
  | |- stores_in _ (store32_hi _ _) => apply stores_hi
  | |- stores_in _ (store16 _ _) => apply stores_16
  | |- stores_in _ (nova_flush_buffer _ _ _) => apply stores_flush
  | |- stores_in _ (mret _) => apply stores_ret
  | |- stores_in _ (mbind _ _) => apply stores_bind; [|intros ?]
  end.

Definition inode_words (pi a : Z) : Prop := pi <= a < pi + 120.

Section finish.
Context {RB : RbOps} {KM : KmemOps} {CR : CrcOps} {MP : ModParams}.
Context (sbi : nova_sb_info) (G : log_geometry sbi) (Hmc : metadata_csum = false).

Lemma update_inode_stores reb pi :
  pi mod 8 = 0 -> stores_in (inode_words pi) (nova_update_inode_with_rebuild reb pi).
Proof.
  intros Hpi. unfold nova_update_inode_with_rebuild.
  assert (H16 : forall k, 0 <= k < 112 -> inode_words pi (Z.land (pi + k) (Z.lnot 7))).
  { intros k Hk. rewrite land_not_7. unfold inode_words.
    rewrite Z.add_mod, Hpi, Z.add_0_l, Z.mod_mod by lia. pose proof (Z.mod_pos_bound k 8). pose proof (Z.mod_le k 8). lia. }
  assert (H8 : forall k, 0 <= k < 112 -> inode_words pi (pi + k)) by (unfold inode_words; lia).
  assert (H0 : inode_words pi pi) by (unfold inode_words; lia).
  repeat stores_step; solve [exact H0|apply H16; lia|apply H8; lia].
Qed.

Definition with_pages (n : Z) (l : nova_inode_info_header) : nova_inode_info_header :=
  Sih (i_blk_type l) (sih_alter_pi_addr l) n (log_head l) (log_tail l) (alter_log_head l) (alter_log_tail l).

Lemma finish_loop_run fuel c post h m :
  page_chain sbi m (cur m (nx sbi c)) post -> Forall log_block (c :: post) -> (length post <= fuel)%nat ->
  0 <= log_pages (h_log h) -> log_pages (h_log h) + Z.of_nat (length post) < TWO64 ->
  finish_loop sbi fuel (c * 4096) h m
  = (Some ((), set_h_log (with_pages (log_pages (h_log h) + Z.of_nat (length post)) (h_log h)) h), []).
Proof.
  revert c fuel h. induction post as [|b post IH]; intros c fuel h Hch Hb Hf Hlp Hlt; apply Forall_cons in Hb as [Hc Hb].
  - cbn in Hch. rewrite Z.add_0_r.
    assert (Hrun : mem_op (next_log_page sbi (c * 4096)) h m = (Some (0, h), [])).
    { unfold mem_op, next_log_page. rewrite (log_page_start _ G) by done.
      fold (nx sbi c). rewrite bind_load, Hch. done. }
    destruct fuel; cbn [finish_loop]; (eapply (sm_run _ _ _ _ _ _ [] _ []); [exact Hrun|]); by destruct h as [? []].
  - destruct Hch as [Hn Hch]. pose proof Hb as Hb'. apply Forall_cons in Hb' as [Hbb _]. unfold log_block in Hbb.
    destruct fuel as [|fuel]; [cbn in Hf; lia|]. cbn [finish_loop].
    eapply (sm_run _ _ _ _ (b * 4096) h [] _ []).
    { unfold mem_op, next_log_page. rewrite (log_page_start _ G) by done.
      fold (nx sbi c). rewrite bind_load, Hn. done. }
    cbv beta. rewrite (proj2 (Z.eqb_neq (b * 4096) 0)) by lia.
    cbn [length] in *. set (h1 := set_h_log (with_pages (log_pages (h_log h) + 1) (h_log h)) h).
    eapply (sm_run _ _ _ _ () h1 [] _ []).
    { unfold count_log_page, set_log_pages. eapply (sm_run _ _ _ _ _ _ [] _ []); [done|].
      eapply (sm_run _ _ _ _ _ _ [] _ []); [done|]. cbv beta. rewrite u64_small by lia. done. }
    pose proof (IH b fuel h1 Hch Hb ltac:(lia) ltac:(cbn; lia) ltac:(cbn; lia)) as Hr.
    etransitivity; [exact Hr|]. unfold h1, with_pages. cbn [set_h_log h_log log_pages].
    replace (log_pages (h_log h) + 1 + Z.of_nat (length post)) with (log_pages (h_log h) + Z.of_nat (S (length post))) by lia.
    done.
Qed.

(** [pi] is outside the pages. *)
Definition inode_apart (pi : Z) (bs : list Z) : Prop :=
  forall b, b ∈ bs -> pi + 120 <= base sbi b \/ base sbi b + 4096 <= pi.

Lemma page_not_inode pi b k : pi + 120 <= base sbi b \/ base sbi b + 4096 <= pi -> 0 <= k < 4096 ->
  ~ inode_words pi (base sbi b + k).
Proof. unfold inode_words. lia. Qed.

Lemma chain_untouched m pi t h bs :
  page_chain sbi m h bs -> inode_apart pi bs -> (forall a, ~ inode_words pi a -> untouched a t) ->
  page_chain sbi (exec t m) h bs.
Proof using Type.
  intros Hc Ha Ht. revert h Hc. induction bs as [|b bs IH]; intros h; cbn; [done|]. intros [-> Hc].
  split; [done|]. rewrite cur_untouched.
  - apply IH; [|done]. intros b' Hb'. apply Ha. by right.
  - apply Ht, page_not_inode; [apply Ha; by left|]. unfold off_next_page, LOG_BLOCK_TAIL. lia.
Qed.

Context (fuel : nat).

Lemma inode_finish_run pi reb c x post h m :
  pi mod 8 = 0 -> 0 <= x < 4096 -> Forall log_block (c :: post) -> inode_apart pi (c :: post) ->
  page_chain sbi m (cur m (nx sbi c)) post -> (length post <= fuel)%nat ->
  0 <= log_pages (h_log h) -> log_pages (h_log h) + Z.of_nat (length post) < TWO64 ->
  exists h' t, nova_rebuild_inode_finish sbi fuel pi reb (c * 4096 + x) h m = (Some (0, h'), t)
    /\ h_file h' = h_file h
    /\ h_log h' = with_pages (log_pages (h_log h) + Z.of_nat (length post)) (h_log h)
    /\ h_i_size h' = reb_i_size reb
    /\ forall a, ~ inode_words pi a -> untouched a t.
Proof.
  intros Hpi Hx Hb Ha Hch Hf Hlp Hlt.
  set (h1 := set_h_trans_id (u64 (reb_trans_id reb + 1)) (set_h_i_flags (reb_i_flags reb)
    (set_h_i_mode (reb_i_mode reb) (set_h_i_size (reb_i_size reb) h)))).
  set (x1 := nova_update_inode_with_rebuild reb pi;; nova_update_inode_checksum pi true;;
    if metadata_csum
    then memcpy_to_pmem_nocache (meta_addr sbi (sih_alter_pi_addr (h_log h1))) pi NOVA_INODE_WORDS
    else mret ()).
  assert (Hst : stores_in (inode_words pi) x1).
  { unfold x1. apply stores_bind; [by apply update_inode_stores|]. intros _. apply stores_bind.
    - unfold nova_update_inode_checksum. rewrite Hmc. cbn [negb].
      apply stores_bind; [apply stores_ret|]. intros _. apply stores_flush.
    - intros _. rewrite Hmc. apply stores_ret. }
  specialize (Hst m). destruct (x1 m) as [u t] eqn:E. cbn in Hst.
  eexists _, t. split.
  - unfold nova_rebuild_inode_finish.
    do 4 (eapply (sm_run _ _ _ _ () _ [] _ t); [done|]).
    eapply (sm_run _ _ _ _ h1 h1 [] _ t); [done|]. cbv beta. fold x1. rewrite <- (app_nil_r t).
    eapply (sm_run _ _ _ _ u h1 t).
    { apply mem_op_run. exact E. }
    cbv beta. rewrite block_off by done.
    eapply (sm_run _ _ _ _ () _ [] _ []).
    { apply (finish_loop_run fuel c post h1 (exec t m)); [|done|done|done|done].
      apply Forall_cons in Hb as [Hc Hb].
      rewrite cur_untouched; [|apply Hst, page_not_inode; [apply Ha; by left|unfold off_next_page, LOG_BLOCK_TAIL; lia]].
      eapply chain_untouched; [exact Hch| |exact Hst]. intros b' Hb'. apply Ha. by right. }
    rewrite Hmc. by eapply (sm_run _ _ _ _ () _ [] _ []).
  - split_and!; [done..|exact Hst].
Qed.
End finish.

(** ** The whole *)

Section whole.
Context {RB : RbOps} {KM : KmemOps} {CR : CrcOps} {MP : ModParams}.
Context (sbi : nova_sb_info) (G : log_geometry sbi) (Hmc : metadata_csum = false).
Context (snapshots : list Z) (nomem : Z -> bool) (Hmem : forall p, nomem p = false).
Context (junk : Z) (xmm2 kmalloc_parity : bool) (fuel : nat).

(** The inode at [pi] has the log from page [b0] to position [q]. *)
Record inode_log (m : mem) (pi b0 : Z) (q : log_pos) : Prop := {
  il_head : cur m (pi + off_log_head) = b0 * 4096;
  il_tail : cur m (pi + off_log_tail) = off_of q;
  il_btype : byte (cur m pi) 3 = 0;
  il_aligned : pi mod 8 = 0
}.

(** The header [nova_init_header] leaves. *)
Record header_ready (h : header) : Prop := {
  hr_tree : fx_tree (h_file h) = ∅;
  hr_olds : fx_olds (h_file h) = [];
  hr_btype : i_blk_type (h_log h) = 0;
  hr_trans : h_trans_id h = 0
}.

Lemma inode_word m pi k : (k < 15)%nat -> nth k (words m pi NOVA_INODE_WORDS) 0 = cur m (pi + 8 * Z.of_nat k).
Proof. intros Hk. by rewrite words_nth by (unfold NOVA_INODE_WORDS; lia). Qed.

Lemma inode_start_run pi pi_addr b0 q h m :
  inode_log m pi b0 q ->
  exists reb h', nova_rebuild_inode_start pi pi_addr h m = (Some (reb, h'), [])
    /\ h_file h' = h_file h /\ i_blk_type (h_log h') = 0
    /\ log_head (h_log h') = b0 * 4096 /\ log_tail (h_log h') = off_of q /\ log_pages (h_log h') = 1
    /\ h_trans_id h' = h_trans_id h.
Proof.
  intros [Hh Ht Hb _].
  do 2 eexists. split.
  - unfold nova_rebuild_inode_start, nova_get_head_tail, nova_init_inode_rebuild.
    eapply (sm_run _ _ _ _ 0 _ [] _ []).
    { eapply (sm_run _ _ _ _ _ _ [] _ []); [apply mem_words_run|]. cbv beta zeta.
      eapply (sm_run _ _ _ _ _ _ [] _ []); [done|]. cbv beta.
      by eapply (sm_run _ _ _ _ () _ [] _ []). }
    cbv beta. eapply (sm_run _ _ _ _ _ _ [] _ []).
    { eapply (sm_run _ _ _ _ _ _ [] _ []); [apply mem_words_run|]. done. }
    cbv beta. eapply (sm_run _ _ _ _ () _ [] _ []); [done|].
    eapply (sm_run _ _ _ _ () _ [] _ []); [|done].
    unfold set_log_pages. by eapply (sm_run _ _ _ _ _ _ [] _ []).
  - cbn [h_file set_h_file set_h_log set_h_pi_addr h_log i_blk_type log_head log_tail log_pages].
    rewrite !inode_word by lia. change (pi + 8 * Z.of_nat 0) with (pi + 0). rewrite Z.add_0_r, Hb.
    change (pi + 8 * Z.of_nat 8) with (pi + off_log_head). change (pi + 8 * Z.of_nat 9) with (pi + off_log_tail).
    by rewrite Hh, Ht.
Qed.

(** A walk is possible: the log of the inode, entries that can be replayed,
    enough fuel. *)
Record walkable (m : mem) (hi pi b0 : Z) (rest : list Z) (es : list log_item) (q : log_pos) : Prop := {
  wa_log : exists ls, log_at sbi m ls b0 rest es q;
  wa_inode : inode_log m pi b0 q;
  wa_apart : inode_apart sbi pi (b0 :: rest);
  wa_items : Forall (replayable sbi m hi) es;
  wa_hi : 0 <= hi < TWO64 - 1 /\ hi < Z.of_nat fuel;
  wa_fuel : (length es <= fuel)%nat /\ (length rest <= fuel)%nat /\ Z.of_nat (length rest) < TWO63
}.

(** The first walk, from the start of the log. *)
Lemma first_walk_run m hi b0 rest es q pi pi_addr h ltv :
  walkable m hi pi b0 rest es q -> header_ready h ->
  exists reb h1 w h', nova_rebuild_inode_start pi pi_addr h m = (Some (reb, h1), [])
    /\ log_head (h_log h1) = b0 * 4096 /\ log_tail (h_log h1) = off_of q
    /\ file_loop sbi snapshots false 0 nomem junk xmm2 kmalloc_parity fuel fuel ltv
         (FileWalk (b0 * 4096) None (AtLog 0) reb) h1 m = (Some (Some w, h'), [])
    /\ fw_curr_p w = off_of q /\ replayed sbi m h1 es h'
    /\ fx_lists (h_file h') = fx_lists (h_file h)
    /\ 0 <= log_pages (h_log h') /\ pages_left h' q = 1 + Z.of_nat (length rest)
    /\ (ltv = true -> (h_trans_id h', fw_trans_curr w) = walk_trans sbi m (0, None) es)
    /\ fw_entryc w = match last es with Some (b, x, _) => AtLog (addr_of sbi b x) | None => AtLog 0 end.
Proof.
  intros [[ls [Hch Hbl Hnd _ Hp [Hq _]]] Hin _ Hall [Hhi Hfu] (Hlen & _ & Hrest)] [Ht Ho _ Htr].
  destruct (inode_start_run pi pi_addr b0 q h m Hin) as (reb & h1 & Hrun & Hf & Hbt & Hh & Htl & Hlp & Htr1).
  assert (Hr : replayed sbi m h1 [] h1).
  { split; try done.
    - intros p. rewrite Hf, Ht. by rewrite lookup_empty.
    - by rewrite Hf. }
  assert (Hpos : pos_ok sbi m (TWO31 - 1) (b0, 0, rest)).
  { apply Forall_cons in Hbl as [Hb0 Hbl]. destruct Hch as [_ Hch]. split_and!; try done.
    - split; [done|]. apply Hb0.
    - eapply Forall_impl; [exact Hbl|]. intros y Hy. split; [done|apply Hy]. }
  destruct (file_loop_run sbi G Hmc snapshots nomem Hmem m hi Hhi junk xmm2 kmalloc_parity fuel Hfu h1
    (b0, 0, rest) es q Hp Hnd Hpos Hq Htl [] ltv (FileWalk (b0 * 4096) None (AtLog 0) reb) h1 fuel)
    as (w & h' & Hl & Hw & Hr' & Hlp' & Hleft & Htr' & Hec); try done.
  { cbn. lia. }
  { rewrite Hlp. lia. }
  { unfold pages_left. rewrite Hlp. cbn. lia. }
  exists reb, h1, w, h'. split_and!; try done.
  - rewrite (rp_lists _ _ _ _ _ Hr'), Hf. done.
  - rewrite Hleft. unfold pages_left. by rewrite Hlp.
  - intros E. by rewrite (Htr' E), Htr1, Htr.
Qed.

(** The stores at the end. *)
Lemma walk_finish_run m hi b0 rest es q pi reb h :
  walkable m hi pi b0 rest es q -> 0 <= log_pages (h_log h) -> pages_left h q = 1 + Z.of_nat (length rest) ->
  exists h' t, nova_rebuild_inode_finish sbi fuel pi reb (off_of q) h m = (Some (0, h'), t)
    /\ h_file h' = h_file h /\ h_log h' = with_pages (1 + Z.of_nat (length rest)) (h_log h)
    /\ forall a, ~ inode_words pi a -> untouched a t.
Proof.
  intros [[ls Hl] Hin Hap _ _ (_ & Hlen & Hrest)] Hlp Hleft.
  destruct (log_at_end sbi _ _ _ _ _ _ Hl) as [pre E]. destruct Hl as [Hch Hbl _ _ _ [Hq _]].
  destruct q as [[c x] post]. unfold pos_pages in E. cbn in *. rewrite E in Hbl, Hap.
  apply Forall_app in Hbl as [_ Hbl].
  assert (Hlq : (length post <= length rest)%nat).
  { apply (f_equal length) in E. rewrite length_app in E. cbn in E. lia. }
  unfold pages_left, pos_post in Hleft. cbn in Hleft.
  destruct (inode_finish_run sbi G Hmc fuel pi reb c x post h m) as (h' & t & Hrun & Hf & Hlg & _ & Hun); try done.
  - apply Hin.
  - unfold LOG_BLOCK_TAIL in Hq. lia.
  - intros y Hy. apply Hap, elem_of_app. by right.
  - apply (chain_next sbi m (b0 * 4096) pre c post). rewrite <- E. exact Hch.
  - lia.
  - lia.
  - exists h', t. split_and!; try done. by rewrite Hlg, Hleft.
Qed.

Lemma walkable_head m hi pi b0 rest es q :
  walkable m hi pi b0 rest es q -> (b0 * 4096 =? 0) || (off_of q =? 0) = false.
Proof.
  intros [[ls Hlog] _ _ _ _ _]. destruct (log_at_end sbi _ _ _ _ _ _ Hlog) as [pre E].
  destruct Hlog as [_ Hbl _ _ _ [Hq _]]. rewrite E in Hbl. apply Forall_app in Hbl as [Hpre Hbl].
  apply Forall_inv in Hbl. assert (Hb0 : log_block b0).
  { destruct pre as [|y pre]; injection E as -> _; [done|by apply Forall_inv in Hpre]. }
  unfold log_block in *. destruct q as [[c x] post]. cbn in *. apply orb_false_iff. split; apply Z.eqb_neq; lia.
Qed.

(** [recovery_latest_trans_invalid] is set: there is no second walk. *)
Lemma rebuild_file_run m hi b0 rest es q pi pi_addr h :
  walkable m hi pi b0 rest es q -> header_ready h -> hi32 (cur m (pi + 48)) <> 0 ->
  exists h' t, nova_rebuild_file_inode_tree sbi snapshots false 0 nomem junk xmm2 kmalloc_parity fuel
      pi pi_addr h m = (Some (0, h'), t)
    /\ (forall p, fx_tree (h_file h') !! p = fst <$> last_writer (log_events sbi m es) p)
    /\ fx_olds (h_file h') = [] /\ fx_lists (h_file h') = fx_lists (h_file h)
    /\ log_pages (h_log h') = 1 + Z.of_nat (length rest) /\ log_tail (h_log h') = off_of q
    /\ forall a, ~ inode_words pi a -> untouched a t.
Proof.
  intros Hwa Hh Hflag.
  destruct (first_walk_run m hi b0 rest es q pi pi_addr h false Hwa Hh)
    as (reb & h1 & w & h2 & Hst & Hhd & Htl & Hl & Hw & Hr & Hls & Hlp & Hleft & _).
  destruct (walk_finish_run m hi b0 rest es q pi (fw_reb w) h2 Hwa Hlp Hleft) as (h3 & t & Hfin & Hf3 & Hl3 & Hun).
  pose proof (walkable_head _ _ _ _ _ _ _ Hwa) as Hnz.
  set (n := if h_i_size h3 mod Z.shiftl 1 12 =? 0 then Z.shiftr (h_i_size h3) 12
            else Z.shiftr (h_i_size h3) 12 + 1).
  exists (set_h_file (FileState (fx_lists (h_file h3)) (fx_tree (h_file h3)) (fx_olds (h_file h3)) (u64 n)
                   (fx_snapshot (h_file h3))) h3), t.
  split.
  - unfold nova_rebuild_file_inode_tree. eapply (sm_run _ _ _ _ _ _ [] _ t); [done|]. cbv beta zeta.
    eapply (sm_run _ _ _ _ (cur m (pi + 48)) h [] _ t); [done|]. cbv beta zeta.
    rewrite (proj2 (Z.eqb_neq _ _) Hflag).
    eapply (sm_run _ _ _ _ _ _ [] _ t); [exact Hst|]. cbv beta.
    eapply (sm_run _ _ _ _ _ _ [] _ t); [done|]. cbv beta. rewrite Hhd, Htl, Hnz, Hmc.
    eapply (sm_run _ _ _ _ _ _ [] _ t); [exact Hl|]. cbv beta iota.
    eapply (sm_run _ _ _ _ () _ [] _ t); [done|]. rewrite Hw. rewrite <- (app_nil_r t).
    eapply (sm_run _ _ _ _ _ _ t); [exact Hfin|]. cbv beta.
    eapply (sm_run _ _ _ _ _ _ [] _ []); [done|]. cbv beta zeta. rewrite (hr_btype _ Hh).
    by eapply (sm_run _ _ _ _ () _ [] _ []).
  - cbn [h_file set_h_file fx_tree fx_olds fx_lists h_log]. rewrite Hf3, Hl3.
    split_and!; [apply Hr|apply Hr|done|done| |exact Hun].
    cbn. by rewrite (rp_tail _ _ _ _ _ Hr).
Qed.

(** ** The second walk *)

(** Entering an entry into the pages that are already its own. *)
Lemma assign_own_loop e n cp k p0 (st : file_state) m :
  e <> 0 -> 0 <= cp -> cp + Z.of_nat n < TWO64 -> 0 <= k -> k + Z.of_nat n < TWO32 ->
  (forall q, cp <= q < cp + Z.of_nat n -> fx_tree st !! q = Some e) ->
  exists T', assign_loop nomem n e cp true (OldRun e p0 k) st m
    = (Some (inr (OldRun e p0 (k + Z.of_nat n)), with_index T' (fx_olds st) st), [])
    /\ forall q, T' !! q = fx_tree st !! q.
Proof.
  intros He. revert cp k st. induction n as [|n IH]; intros cp k st Hcp Hmax Hk Hkn Ht; cbn [assign_loop].
  { exists (fx_tree st). rewrite Z.add_0_r. split; [by destruct st|done]. }
  set (st1 := with_index (<[cp := e]> (fx_tree st)) (fx_olds st) st).
  assert (Heq : forall q, fx_tree st1 !! q = fx_tree st !! q).
  { intros q. cbn. destruct (decide (q = cp)) as [->|]; [rewrite lookup_insert_eq; by rewrite Ht by lia|].
    by rewrite lookup_insert_ne. }
  destruct (IH (cp + 1) (k + 1) st1) as (T' & Hl & HT); try lia.
  { intros q Hq. rewrite Heq. apply Ht. lia. }
  exists T'. split.
  - eapply (sm_run _ _ _ _ _ _ [] _ []); [done|]. cbv beta. rewrite Ht by lia. cbn [start_old_entry].
    rewrite Z.eqb_refl. cbn [negb start_old_pgoff num_free]. rewrite (u32_small (k + 1)), (u64_small (cp + 1)) by lia.
    eapply (sm_run _ _ _ _ _ st [] _ []); [done|]. cbv beta.
    eapply (sm_run _ _ _ _ _ st [] _ []); [done|]. cbv beta.
    eapply (sm_run _ _ _ _ () st1 [] _ []); [done|]. cbv beta.
    etransitivity; [exact Hl|]. by replace (k + 1 + Z.of_nat n) with (k + Z.of_nat (S n)) by lia.
  - intros q. by rewrite HT.
Qed.

(** Its own pages are deferred. *)
Lemma assign_own_run e ws (st : file_state) m :
  let w := WENTRY ws in
  e <> 0 -> fx_olds st = [] -> 0 < we_num_pages w < TWO31 -> 0 <= we_pgoff w ->
  we_pgoff w + we_num_pages w < TWO64 -> (forall q, has_page w q -> fx_tree st !! q = Some e) ->
  exists T', nova_assign_write_entry sbi snapshots 0 nomem e ws true st m
    = (Some (0, with_index T' [OldEntry e (we_pgoff w) (we_num_pages w)] st), [])
    /\ forall q, T' !! q = fx_tree st !! q.
Proof.
  intros w He Ho Hn Hp Hmax Ht. set (n := Z.to_nat (we_num_pages w - 1)).
  set (st1 := with_index (<[we_pgoff w := e]> (fx_tree st)) [] st).
  assert (H0 : fx_tree st !! we_pgoff w = Some e) by (apply Ht; unfold has_page; lia).
  assert (Heq : forall q, fx_tree st1 !! q = fx_tree st !! q).
  { intros q. cbn. destruct (decide (q = we_pgoff w)) as [->|]; [by rewrite lookup_insert_eq|].
    by rewrite lookup_insert_ne. }
  destruct (assign_own_loop e n (we_pgoff w + 1) 1 (we_pgoff w) st1 m) as (T' & Hl & HT); try lia.
  { intros q Hq. rewrite Heq. apply Ht. unfold has_page. lia. }
  exists T'. split; [|intros q; by rewrite HT].
  unfold nova_assign_write_entry. eapply (sm_run _ _ _ _ () (with_index (fx_tree st) [] st) [] _ []).
  - unfold free_old_entry. eapply (sm_run _ _ _ _ _ _ [] _ []); [done|]. rewrite Ho. by destruct st.
  - fold w. replace (Z.to_nat (we_num_pages w)) with (S n) by (unfold n; lia). cbn [assign_loop].
    eapply (sm_run _ _ _ _ _ _ [] _ []).
    + eapply (sm_run _ _ _ _ _ _ [] _ []); [done|]. cbv beta. cbn [fx_tree with_index]. rewrite H0.
      cbn [start_old_entry]. rewrite (proj2 (Z.eqb_neq e 0) He). cbn [negb]. rewrite (u64_small (_ + 1)) by lia.
      eapply (sm_run _ _ _ _ (OldRun e (we_pgoff w) 1) _ [] _ []); [done|]. cbv beta.
      eapply (sm_run _ _ _ _ _ _ [] _ []); [done|]. cbv beta.
      eapply (sm_run _ _ _ _ () st1 [] _ []); [done|]. exact Hl.
    + cbv beta iota. unfold close_run. cbn [start_old_entry]. rewrite (proj2 (Z.eqb_neq e 0) He). cbn [negb andb].
      eapply (sm_run _ _ _ _ () _ [] _ []); [|done]. unfold insert_old_entry.
      eapply (sm_run _ _ _ _ _ _ [] _ []); [done|]. cbv beta. cbn [start_old_entry start_old_pgoff num_free].
      replace (1 + Z.of_nat n) with (we_num_pages w) by (unfold n; lia). by rewrite s32_small by lia.
Qed.

(** The second walk, when the last entry is a write that opened the last
    transaction. *)
Lemma second_walk_run m hi pi b0 rest es b x q h :
  let a := addr_of sbi b x in
  walkable m hi pi b0 rest (es ++ [(b, x, FILE_WRITE)]) q -> live_entry m a -> 0 < we_num_pages (went m a) < TWO31 ->
  fx_olds (h_file h) = [] -> i_blk_type (h_log h) = 0 ->
  (forall p, has_page (went m a) p -> fx_tree (h_file h) !! p = Some a) ->
  exists T', free_loop sbi snapshots nomem fuel (b * 4096 + x) (off_of q) (AtLog a) h m
    = (Some ((), set_h_file (with_index T' [OldEntry a (we_pgoff (went m a)) (we_num_pages (went m a))] (h_file h)) h), [])
    /\ forall p, T' !! p = fx_tree (h_file h) !! p.
Proof.
  intros a [[ls Hlog] Hin Hap Hall [Hhi Hfu] (Hlen & _)] Hlive Hnum Ho Hbt Ht.
  destruct (path_split sbi _ _ _ _ _ _ _ _ (la_path _ _ _ _ _ _ _ Hlog)) as (p1 & post & _ & Hl & Hk & Hs & Hnil).
  inversion Hnil; subst q. cbn [nova_get_log_entry_size] in *.
  destruct (path_entry sbi _ _ _ _ b x FILE_WRITE (la_path _ _ _ _ _ _ _ Hlog)
    ltac:(apply elem_of_app; right; by left) (la_nodup _ _ _ _ _ _ _ Hlog) ltac:(done)) as (_ & Hx & _ & Hb & _).
  assert (Hbl : log_block b).
  { pose proof (la_blocks _ _ _ _ _ _ _ Hlog) as Hbl. rewrite Forall_forall in Hbl. by apply Hbl. }
  assert (Hx8 : x mod 8 = 0).
  { destruct (la_end _ _ _ _ _ _ _ Hlog) as [_ H8]. cbn in H8.
    rewrite Z.add_mod, Z.add_0_r, Z.mod_mod in H8 by lia. exact H8. }
  unfold LOG_BLOCK_TAIL in Hs. destruct (kind_type sbi m _ _ _ Hk) as (_ & Hcode & _).
  assert (Hj : jumps sbi m b x = false).
  { unfold jumps, LOG_BLOCK_TAIL. rewrite (proj2 (Z.ltb_ge _ _)) by lia. by rewrite Hcode. }
  apply Forall_app in Hall as [_ Hi]. apply Forall_inv in Hi as [_ Hi]. fold a in Hi. specialize (Hi Hlive).
  assert (Ha : a <> 0).
  { unfold a, addr_of, base. unfold log_block in Hbl. pose proof (lg_range _ G). lia. }
  destruct (assign_own_run a (words m a ENTRY_WORDS) (h_file h) m Ha Ho Hnum) as (T' & Hr & HT);
    [apply Hi|change (WENTRY _) with (went m a); lia|exact Ht|].
  exists T'. split; [|exact HT]. unfold log_block in Hbl.
  destruct fuel as [|fuel']; [lia|]. cbn [free_loop off_of].
  rewrite (proj2 (Z.eqb_neq (b * 4096 + x) _)) by lia.
  pose proof (goto_next_reads sbi G m b x Hbl ltac:(lia) Hx8) as Hg. rewrite Hj in Hg.
  eapply (sm_run _ _ _ _ false h [] _ []); [apply mem_op_run; exact Hg|]. cbv beta iota.
  eapply (sm_run _ _ _ _ (b * 4096 + x) h [] _ []); [done|]. cbv beta zeta.
  rewrite (pos_addr sbi G) by (done || lia). fold a.
  eapply (sm_run _ _ _ _ (type_at sbi m b x) h [] _ []).
  { apply mem_op_run. pose proof (type_reads sbi G m b x Hbl ltac:(lia) Hx8) as Hty.
    rewrite (pos_addr sbi G) in Hty by (done || lia). exact Hty. }
  cbv beta. rewrite Hcode, Z.eqb_refl.
  set (h' := set_h_file _ h).
  eapply (sm_run _ _ _ _ 0 h' [] _ []).
  { eapply (sm_run _ _ _ _ _ _ [] _ []); [apply (entryc_words_run m)|]. cbv beta.
    unfold assign_entry. eapply (sm_run _ _ _ _ _ _ [] _ []); [done|]. cbv beta. rewrite Hbt.
    apply on_file_run. exact Hr. }
  cbv beta. rewrite u64_small, <- Z.add_assoc by lia. destruct fuel'; cbn [free_loop]; by rewrite Z.eqb_refl.
Qed.

(** [recovery_latest_trans_invalid] is 0: the pages of the last write are
    deferred although they are mapped. *)
Lemma rebuild_file_second_run m hi b0 rest es b x q pi pi_addr h :
  let a := addr_of sbi b x in
  walkable m hi pi b0 rest (es ++ [(b, x, FILE_WRITE)]) q -> header_ready h -> hi32 (cur m (pi + 48)) = 0 ->
  live_entry m a -> 0 < we_num_pages (went m a) < TWO31 ->
  cur m (a + 48) <> (walk_trans sbi m (0, None) es).1 ->
  exists h' t, nova_rebuild_file_inode_tree sbi snapshots false 0 nomem junk xmm2 kmalloc_parity fuel
      pi pi_addr h m = (Some (0, h'), t)
    /\ (forall p, fx_tree (h_file h') !! p
          = fst <$> last_writer (log_events sbi m (es ++ [(b, x, FILE_WRITE)])) p)
    /\ fx_olds (h_file h') = [OldEntry a (we_pgoff (went m a)) (we_num_pages (went m a))]
    /\ fx_lists (h_file h') = fx_lists (h_file h)
    /\ log_pages (h_log h') = 1 + Z.of_nat (length rest) /\ log_tail (h_log h') = off_of q
    /\ forall c, ~ inode_words pi c -> untouched c t.
Proof.
  intros a Hwa Hh Hflag Hlive Hnum Htid.
  destruct (first_walk_run m hi b0 rest _ q pi pi_addr h true Hwa Hh)
    as (reb & h1 & w & h2 & Hst & Hhd & Htl & Hl & Hw & Hr & Hls & Hlp & Hleft & Htr & Hec).
  specialize (Htr eq_refl). rewrite last_snoc in Hec. fold a in Hec.
  assert (Htc : fw_trans_curr w = Some (b * 4096 + x)).
  { unfold walk_trans in Htr, Htid. rewrite foldl_snoc in Htr. cbn [item_trans] in Htr. fold a in Htr.
    rewrite (proj2 (Z.eqb_neq _ _) Htid) in Htr. cbn [negb] in Htr. by injection Htr. }
  destruct (second_walk_run m hi pi b0 rest es b x q h2 Hwa Hlive Hnum) as (T' & Hfree & HT).
  { apply Hr. } { apply Hr. }
  { intros p Hp. rewrite (rp_tree _ _ _ _ _ Hr), log_events_snoc. cbn [item_events].
    unfold live_entry in Hlive. fold a. rewrite (proj2 (Z.eqb_neq _ _) Hlive). cbn [app last_writer].
    by rewrite decide_True. }
  fold a in Hfree. set (h2' := set_h_file _ h2) in Hfree.
  destruct (walk_finish_run m hi b0 rest _ q pi (fw_reb w) h2' Hwa Hlp Hleft) as (h3 & t & Hfin & Hf3 & Hl3 & Hun).
  pose proof (walkable_head _ _ _ _ _ _ _ Hwa) as Hnz.
  set (n := if h_i_size h3 mod Z.shiftl 1 12 =? 0 then Z.shiftr (h_i_size h3) 12
            else Z.shiftr (h_i_size h3) 12 + 1).
  exists (set_h_file (FileState (fx_lists (h_file h3)) (fx_tree (h_file h3)) (fx_olds (h_file h3)) (u64 n)
                   (fx_snapshot (h_file h3))) h3), t.
  split.
  - unfold nova_rebuild_file_inode_tree. eapply (sm_run _ _ _ _ _ _ [] _ t); [done|]. cbv beta zeta.
    eapply (sm_run _ _ _ _ (cur m (pi + 48)) h [] _ t); [done|]. cbv beta zeta.
    rewrite (proj2 (Z.eqb_eq _ _) Hflag).
    eapply (sm_run _ _ _ _ _ _ [] _ t); [exact Hst|]. cbv beta.
    eapply (sm_run _ _ _ _ _ _ [] _ t); [done|]. cbv beta. rewrite Hhd, Htl, Hnz, Hmc.
    eapply (sm_run _ _ _ _ _ _ [] _ t); [exact Hl|]. cbv beta iota. rewrite Htc, Hw, Hec.
    eapply (sm_run _ _ _ _ _ _ [] _ t); [exact Hfree|]. rewrite <- (app_nil_r t).
    eapply (sm_run _ _ _ _ _ _ t); [exact Hfin|]. cbv beta.
    eapply (sm_run _ _ _ _ _ _ [] _ []); [done|]. cbv beta zeta. rewrite (hr_btype _ Hh).
    by eapply (sm_run _ _ _ _ () _ [] _ []).
  - cbn [h_file set_h_file fx_tree fx_olds fx_lists h_log]. rewrite Hf3, Hl3.
    split_and!; [|done|done|done| |exact Hun].
    + intros p. unfold h2'. cbn. rewrite HT. apply Hr.
    + cbn. by rewrite (rp_tail _ _ _ _ _ Hr).
Qed.

(** No write entry opens a transaction: the second walk starts at the unset
    [trans_curr]. *)
Lemma rebuild_file_unset m hi b0 rest es q pi pi_addr h :
  walkable m hi pi b0 rest es q -> header_ready h -> hi32 (cur m (pi + 48)) = 0 ->
  (walk_trans sbi m (0, None) es).2 = None ->
  nova_rebuild_file_inode_tree sbi snapshots false 0 nomem junk xmm2 kmalloc_parity fuel pi pi_addr h m = (None, []).
Proof.
  intros Hwa Hh Hflag Hnone.
  destruct (first_walk_run m hi b0 rest _ q pi pi_addr h true Hwa Hh)
    as (reb & h1 & w & h2 & Hst & Hhd & Htl & Hl & Hw & _ & _ & _ & _ & Htr & _).
  specialize (Htr eq_refl). rewrite <- Htr in Hnone. cbn [snd] in Hnone.
  pose proof (walkable_head _ _ _ _ _ _ _ Hwa) as Hnz.
  unfold nova_rebuild_file_inode_tree. eapply (sm_run _ _ _ _ _ _ [] _ []); [done|]. cbv beta zeta.
  eapply (sm_run _ _ _ _ (cur m (pi + 48)) h [] _ []); [done|]. cbv beta zeta.
  rewrite (proj2 (Z.eqb_eq _ _) Hflag).
  eapply (sm_run _ _ _ _ _ _ [] _ []); [exact Hst|]. cbv beta.
  eapply (sm_run _ _ _ _ _ _ [] _ []); [done|]. cbv beta. rewrite Hhd, Htl, Hnz, Hmc.
  eapply (sm_run _ _ _ _ _ _ [] _ []); [exact Hl|]. cbv beta iota. by rewrite Hnone.
Qed.
End whole.
