(* ===== verification/LogTheorems.v ===== *)
(** The log of a file and its index: an append keeps them in step, and the
    rebuild of the header from the log gives the index back. *)

From S2P Require Import Prelude.
From S2P Require Import Kernel.
From S2P Require Import Checksum.
From S2P Require Import RangeTree.
From S2P Require Import Layout.
From S2P Require Import FreeList.
From S2P Require Import Balloc.
From S2P Require Import BallocSpec.
From S2P Require Import Pmem.
From S2P Require Import PmemSpec.
From S2P Require Import Journal.
From S2P Require Import InodeLog.
From S2P Require Import InodeLogSpec.
From S2P Require Import InodeLogOps.
From S2P Require Import InodeLogTheorems.
From S2P Require Import InodeTable.
From S2P Require Import DataGuard.
From S2P Require Import Replica.
From S2P Require Import Recovery.
From S2P Require Import RecoverySpec.
From S2P Require Import FileScanSpec.
From S2P Require Import FileLogSpec.
From S2P Require Import FileIndex.
From S2P Require Import FileIndexSpec.
From S2P Require Import FileAssign.
From S2P Require Import FileTruncate.
From S2P Require Import FileIndexTheorems.
From S2P Require Import Header.
From S2P Require Import LogEntry.
From S2P Require Import Rebuild.
From S2P Require Import LogPath.
From S2P Require Import LogEntrySpec.
From S2P Require Import LogAppend.
From S2P Require Import LogWrite.
From S2P Require Import RebuildSpec.
From S2P Require Import RebuildRun.

Section theorems.
Context {RB : RbOps} {KM : KmemOps} {CR : CrcOps} {MP : ModParams}.
Context {RBL : RbLaws} {KML : KmemLaws}.
Context (sbi : nova_sb_info) (G : log_geometry sbi) (Hmc : metadata_csum = false).
Context (Hslab : forall T, is_Some (nova_alloc_range_node T)).
Context (fuel : nat) (this_cpu : Z) (Hthis : 0 <= this_cpu) (snapshots : list Z).
Context (nomem : Z -> bool) (Hmem : forall p, nomem p = false).

(** The tree is what the log says; the pages written end before [hi]. *)
Record in_step (hi : Z) (m : mem) (T : gmap Z Z) (b0 : Z) (rest : list Z) (es : list log_item) (p : log_pos)
    : Prop := {
  is_log : exists ls, log_at sbi m ls b0 rest es p;
  is_tree : forall q, T !! q = fst <$> last_writer (log_events sbi m es) q;
  is_items : Forall (replayable sbi m hi) es
}.

(** A file whose index is what its log says. *)
Definition indexed (hi : Z) (m : mem) (h : header) (b0 : Z) (rest : list Z) (es : list log_item) (p : log_pos)
    : Prop :=
  file_at sbi m h b0 rest es p /\ in_step hi m (fx_tree (h_file h)) b0 rest es p.

Lemma replayable_kept hi m m' es :
  Forall (item_kept sbi m m') es -> Forall (replayable sbi m hi) es -> Forall (replayable sbi m' hi) es.
Proof.
  intros Hk Hr. eapply Forall_impl; [apply Forall_and; exact (conj Hk Hr)|].
  intros [[b x] ty] [H1 H2]. unfold item_kept, replayable, live_entry in *.
  destruct ty; try done. destruct H1 as [Hw Hu]. by rewrite Hw, Hu.
Qed.

(** C12. [nova_append_file_write_entry] on a file whose index is what its log
    says: without space it reports [-ENOSPC], only when the last page is full,
    and the log, the header and the index stay; otherwise the log has the new
    entry behind the old ones, which read as before, in the last page, the next
    or a new one; the update names the entry and its end; the pages of the
    write map to it and the index is again what the log says; nothing outside
    the pages of the log and the free blocks changes. *)
Theorem append_write_indexed hi pi pic v m h b0 rest es p up data :
  indexed hi m h b0 rest es p -> append_ready sbi fuel m h up p -> new_data m (h_file h) data ->
  we_pgoff (WENTRY data) + we_num_pages (WENTRY data) <= hi ->
  exists ret up' h' t,
    nova_append_file_write_entry sbi fuel this_cpu snapshots nomem pi pic v data up h m
      = (Some ((ret, up'), h'), t)
    /\ ((ret = - ENOSPC /\ up' = up /\ h' = h /\ LOG_BLOCK_TAIL < pos_off p + 64
           /\ indexed hi (exec t m) h b0 rest es p)
        \/ (ret = 0 /\ exists b x post added,
           up_curr_entry up' = b * 4096 + x /\ up_tail up' = off_of (b, x + 64, post)
           /\ indexed hi (exec t m) h' b0 (rest ++ added) (es ++ [(b, x, FILE_WRITE)]) (b, x + 64, post)
           /\ log_events sbi (exec t m) (es ++ [(b, x, FILE_WRITE)])
              = Wrote (addr_of sbi b x) (WENTRY data) :: log_events sbi m es
           /\ h_log h' = h_log h
           /\ Forall (fun y => free_block (fx_lists (h_file h)) true y) added
           /\ (forall c y, 0 <= y < 4096 -> c ∉ b0 :: rest -> ~ free_block (fx_lists (h_file h)) true c ->
                 untouched (addr_of sbi c y) t))).
Proof.
  intros [Hf [_ Ht Hi]] Har Hd Hhi.
  destruct (append_write_run sbi G Hmc Hslab fuel this_cpu Hthis snapshots nomem Hmem pi pic v m h b0 rest es p
    up data Hf Har Hd) as (h' & t & [(Hrun & -> & Hpost & Hfull & Hf' & Hk)|(up' & b & x & post & added & Hrun & Ha)]).
  - exists (- ENOSPC), up, h, t. split.
    + unfold nova_append_file_write_entry, update_data_csum. rewrite Hmc. cbn [negb].
      rewrite <- (app_nil_r t). eapply sm_run; [exact Hrun|]. done.
    + left. split_and!; try done. split; [done|]. split; [by eexists; apply Hf'| |by eapply replayable_kept].
      intros q. rewrite Ht. by rewrite (log_events_kept sbi _ _ _ Hk).
  - destruct Ha as [Hf' Hup Hk He Hu Htr Hfr Hh Hpg].
    assert (Hev : log_events sbi (exec t m) (es ++ [(b, x, FILE_WRITE)])
                  = Wrote (addr_of sbi b x) (WENTRY data) :: log_events sbi m es).
    { rewrite log_events_snoc, (log_events_kept sbi _ _ _ Hk). cbn [item_events]. rewrite He.
      pose proof (nd_live _ _ _ Hd). by rewrite (proj2 (Z.eqb_neq _ _)) by done. }
    exists 0, up', h', t. split.
    + unfold nova_append_file_write_entry, update_data_csum. rewrite Hmc. cbn [negb].
      rewrite <- (app_nil_r t). eapply sm_run; [exact Hrun|]. done.
    + right. split; [done|]. exists b, x, post, added. rewrite Hup. cbn [up_curr_entry up_tail off_of].
      split_and!; [done|lia| |exact Hev|by rewrite Hh|done|exact Hfr].
      split; [exact Hf'|]. split; [by eexists; apply Hf'| |].
      * intros q. rewrite Htr, Hev. cbn [last_writer]. rewrite Ht. by case_decide.
      * apply Forall_app. split; [by eapply replayable_kept|]. apply Forall_singleton.
        split; [exact Hu|]. rewrite He. intros _. pose proof (nd_num _ _ _ Hd). pose proof (nd_pages _ _ _ Hd). lia.
Qed.

(** Publishing stores the tail. *)
Lemma update_inode_run pi up alter h m :
  exists h', nova_update_inode sbi pi None up alter h m = (Some ((), h'), [Store (pi + off_log_tail) (up_tail up)])
    /\ h_file h' = h_file h /\ log_tail (h_log h') = up_tail up.
Proof.
  exists (set_h_log (Sih (i_blk_type (h_log h)) (sih_alter_pi_addr (h_log h)) (log_pages (h_log h))
    (log_head (h_log h)) (up_tail up) (alter_log_head (h_log h)) (up_alter_tail up)) h).
  split; [|done]. unfold nova_update_inode. set (t := [_]).
  eapply (sm_run _ _ _ _ _ _ [] _ t); [done|]. cbv beta zeta.
  eapply (sm_run _ _ _ _ () _ [] _ t); [done|]. cbv beta. apply mem_op_run.
  unfold nova_update_tail, nova_update_alter_tail, nova_update_inode_checksum, nova_update_alter_inode.
  rewrite Hmc. by destruct alter.
Qed.

Context (junk : Z) (xmm2 kmalloc_parity : bool).

(** The second walk enters the last transaction again, although every page of it
    is in the index by then: after a last write that is a transaction of its own,
    the pages of this write are deferred, so the next write of the file frees
    their blocks while they are mapped. *)
Lemma rebuild_defers_mapped_pages hi m T b0 rest es b x q pi pi_addr h :
  let a := addr_of sbi b x in
  in_step hi m T b0 rest (es ++ [(b, x, FILE_WRITE)]) q -> inode_log m pi b0 q ->
  inode_apart sbi pi (b0 :: rest) -> hi32 (cur m (pi + 48)) = 0 -> header_ready h ->
  live_entry m a -> 0 < we_num_pages (went m a) < TWO31 ->
  cur m (a + 48) <> (walk_trans sbi m (0, None) es).1 ->
  0 <= hi < TWO64 - 1 -> hi < Z.of_nat fuel ->
  (length (es ++ [(b, x, FILE_WRITE)]) <= fuel)%nat -> (length rest <= fuel)%nat -> Z.of_nat fuel < TWO63 ->
  exists h' t, nova_rebuild_file_inode_tree sbi snapshots false 0 nomem junk xmm2 kmalloc_parity fuel
      pi pi_addr h m = (Some (0, h'), t)
    /\ fx_tree (h_file h') = T
    /\ (forall p, has_page (went m a) p -> fx_tree (h_file h') !! p = Some a /\ (a, p) ∈ deferred (fx_olds (h_file h')))
    /\ forall m', ~ index_ok sbi m' (h_file h').
Proof.
  intros a [Hl Ht Hi] Hin Hap Hflag Hh Hlv Hnum Htid Hhi Hfu Hle Hlr Hf63.
  destruct (rebuild_file_second_run sbi G Hmc snapshots nomem Hmem junk xmm2 kmalloc_parity fuel m hi b0 rest es
    b x q pi pi_addr h) as (h' & t & Hrun & Htr & Hold & _); try done.
  { split; [done..|]. split_and!; [done|done|lia]. }
  exists h', t. split; [exact Hrun|].
  assert (Hp : forall p, has_page (went m a) p ->
    fx_tree (h_file h') !! p = Some a /\ (a, p) ∈ deferred (fx_olds (h_file h'))).
  { intros p Hp. rewrite Htr, Hold, log_events_snoc. cbn [item_events]. fold a. unfold live_entry in Hlv.
    rewrite (proj2 (Z.eqb_neq _ _) Hlv). cbn [app last_writer]. rewrite decide_True by done. split; [done|].
    cbn [deferred mbind list_bind]. apply elem_of_app. left. apply elem_old_pages. by split. }
  split_and!; [|exact Hp|].
  - apply map_eq. intros p. by rewrite Htr, Ht.
  - intros m' Hbad. destruct (Hp (we_pgoff (went m a))) as [H1 H2]; [unfold has_page; lia|].
    by apply (io_gone _ _ _ Hbad _ _ H2).
Qed.

End theorems.

Lemma last_writer_head a w es p : has_page w p -> last_writer (Wrote a w :: es) p = Some (a, w).
Proof. intros H. cbn [last_writer]. by rewrite decide_True by done. Qed.

(** ** A file with one page of log, page 10 of the reserved area, and the inode
    in page 2 *)
Module LogWitness.
Import FileIndexTheorems.Demo.

Definition fuel : nat := 8192.
Definition pi : Z := 0x100000000 + 2 * 4096.
(** Pages 0 to 3 in blocks 0 to 3, transaction 1. *)
Definition data : list Z := [1 + Z.shiftl 4 32; 0; 0; 0; 16384; 1; 1; 0].

Definition inode (tail : Z) : list (Z * Z) :=
  [(pi + 64, 10 * 4096); (pi + 72, tail); (pi + 48, Z.shiftl 1 32)].
Definition device (l : list (Z * Z)) : mem := list_to_map ((fun '(a, x) => (a, Cell [x] None)) <$> l).

Definition fresh_header (f : file_state) : header :=
  Header f (Sih 0 0 1 (10 * 4096) (10 * 4096) 0 0) empty_rtree 33 (2 * 4096) 0x81A4 0 0 0 0 0 0.
Definition h0 : header := fresh_header (empty_file ls1 0).
Definition up0 : nova_inode_update := InodeUpdate 0 0 0 0.
Definition v0 : vfs_inode := VfsInode 0x81A4 0 0 0 0 0 0 1 0.

Lemma log_geometry_ok : log_geometry sbi.
Proof. split; vm_compute; repeat split; discriminate. Qed.
Lemma same_lists : lists = LogDemo.lists.
Proof. by vm_compute. Qed.
Lemma page_used b : b < 64 -> ~ free_block ls1 true b.
Proof.
  intros Hb [Hf _]%(al_free _ _ _ _ _ _ six_blocks). rewrite same_lists in Hf.
  by apply (LogDemo.reserved_used b).
Qed.
Lemma log_lists_ready : log_ready sbi fuel ls1.
Proof.
  split; [apply six_blocks| |by apply page_used].
  intros []; by apply Z.leb_le; vm_compute.
Qed.

Lemma device_ok l : mem_ok (device l).
Proof.
  intros a. unfold chist, cell_at, device. destruct (_ !! a) as [c|] eqn:E; [|done].
  apply elem_of_list_to_map_2, list_elem_of_fmap in E as ([a' x] & [= -> ->] & _). done.
Qed.

Lemma start_indexed : indexed sbi 4 (device (inode (10 * 4096))) h0 10 [] [] (10, 0, []).
Proof.
  assert (Hlog : log_at sbi (device (inode (10 * 4096))) ls1 10 [] [] (10, 0, [])).
  { split.
    - by vm_compute.
    - by repeat constructor.
    - apply NoDup_singleton.
    - apply Forall_singleton. by apply page_used.
    - constructor.
    - done. }
  split.
  - split; [exact Hlog|apply empty_index_ok; [apply six_blocks|done]|].
    intros e q Hq. by apply nothing_held in Hq.
  - split; [by eexists|intros q; exact (lookup_empty q)|constructor].
Qed.

Lemma start_ready : append_ready sbi fuel (device (inode (10 * 4096))) h0 up0 (10, 0, []).
Proof. split; [apply device_ok|apply log_lists_ready|done..| |done]. by apply Z.leb_le; vm_compute. Qed.

Lemma data_write : WENTRY data = WriteEntry 4 0 0 0 16384 1.
Proof. by vm_compute. Qed.
Lemma data_page_3 : has_page (WENTRY data) 3.
Proof. rewrite data_write. by vm_compute. Qed.
Lemma data_new : new_data (device (inode (10 * 4096))) (h_file h0) data.
Proof.
  split; try done.
  - destruct blocks_in as (i & Hi). exists i. split; apply Hi; by vm_compute.
  - intros p. rewrite data_write. intros Hp. apply blocks_used. unfold has_page, page_block in *. cbn in *. lia.
  - intros p e p' _ Hp. by apply nothing_held in Hp.
Qed.







End LogWitness.

Section witnesses.
Import FileIndexTheorems.Demo LogWitness.

(** The first write of a file. *)
Lemma append_write_indexed_witness :
  exists up' h' t,
    nova_append_file_write_entry sbi fuel 0 [] nomem pi None v0 data up0 h0 (device (inode (10 * 4096)))
      = (Some ((0, up'), h'), t)
    /\ (exists a, fx_tree (h_file h') !! 3 = Some a /\ went (exec t (device (inode (10 * 4096)))) a = WENTRY data).
Proof.
  destruct (append_write_indexed sbi log_geometry_ok plain file_slab fuel 0 ltac:(lia) [] nomem
    (fun _ => eq_refl) 4 pi None v0 _ _ _ _ _ _ up0 data start_indexed start_ready data_new ltac:(by vm_compute))
    as (ret & up' & h' & t & Hrun & [(_ & _ & _ & Hfull & _)|(-> & b & x & post & added & _ & _ & Hix & Hev & _)]).
  { by vm_compute in Hfull. }
  exists up', h', t. split; [exact Hrun|]. exists (addr_of sbi b x). destruct Hix as [_ [_ Ht Hit]].
  assert (Hl : last_writer (Wrote (addr_of sbi b x) (WENTRY data) :: log_events sbi (device (inode (10 * 4096))) []) 3
               = Some (addr_of sbi b x, WENTRY data)).
  { apply last_writer_head, data_page_3. }
  rewrite <- Hev in Hl.
  split; [by rewrite Ht, Hl|].
  destruct (last_writer_events _ _ _ _ _ _ Hl) as (b' & x' & _ & E & E' & _). congruence.
Defined.

End witnesses.
